(* ===== verification/_CoqProject ===== *)
-Q . S2P
Prelude.v
Cursor.v
Wire.v
MsgType.v
MsgControl.v
MsgInput.v
MsgWindow.v
Envelope.v
Reassembly.v
ProtoMessage.v
Transport.v
Handshake.v
Model.v
Geometry.v
Registry.v
Pacing.v
Latency.v
Session.v
Scancode.v
Ber.v
RdpFrame.v
RdpMcs.v
RdpConnect.v
RdpGcc.v
RdpConference.v
RdpShare.v
RdpConnector.v
RdpIo.v
H264.v
AnnexB.v
Yuv.v
Decode.v
Channel.v
Pipeline.v
Serve.v
ServeSession.v
Text.v
Security.v
Config.v
AgentSession.v
LatencyMonitor.v
LatencyFlow.v
LatencyTail.v
Keys.v
Presenter.v
Display.v
Winit.v
WinitLife.v
WinitInput.v
ClientLoop.v
ClientFlow.v
Inject.v
InjectText.v
InjectFlow.v
InputPath.v
ClientStart.v
WinCall.v
WinSource.v
WinCapture.v
WinPlatform.v
WinEncode.v
WinEncodeFacts.v
AgentMain.v
RdpCli.v
