(* ===== verification/Prelude.v ===== *)
(** * A verification of oxrdp

    oxrdp shows the windows of a remote machine on a local desktop.  An agent
    on the remote side tracks windows, captures and encodes them and takes
    input; a client on the local side keeps a model of those windows and drives
    a display backend.  They talk [oxproto], a protocol of typed messages cut
    into chunks on logical channels, over any ordered byte stream.  A second,
    older path speaks RDP; its PDU codecs share the cursors of the first.

    This development translates the program's own logic from Rust into
    executable definitions and proves what makes it correct.  It is a shallow
    embedding: pure functions are functions, [&mut self] methods pass their
    state explicitly, [Result] is [outcome] with a third case [Panic] for the
    slice, index and arithmetic panics Rust code can reach, and a machine
    integer is a [Z] whose width is written out wherever it matters.

    ** The program and its files

    - [Prelude] (this file): outcomes, the state-and-error monad, machine
      integers, slices, byte order, UTF-8, and the tactics and hints used
      everywhere.
    - [Cursor]: [oxrdp-pdu/src/{error,cursor,codec}.rs].  [ReadCursor],
      [WriteCursor], the traits [Encode] and [Decode] as classes, and the class
      [WireFormat]: a type with its byte layout, such that the encoder writes
      it, the decoder inverts it and is total.  All codecs are instances; what
      is built on codecs is proved from the class.
    - [Wire]: [oxproto/src/wire.rs], primitive fields.
    - [MsgType], [MsgControl], [MsgInput], [MsgWindow]:
      [oxproto/src/message/{mod,control,input,window}.rs], the registries and
      every message body.
    - [ProtoMessage]: the [Message] enum and its dispatch.
    - [Envelope], [Reassembly]: [oxproto/src/envelope.rs], the chunk header,
      [fragment] and the [Reassembler]; the abstract specification is a map
      from channels to partial messages.
    - [Transport]: [oxtransport/src/stream.rs], [read_reassembled], [ChunkReader] and
      [ChunkWriter] over an asynchronous stream, with cancellation.
    - [Handshake]: [oxagent/src/handshake.rs] and the connecting half of
      [oxclient/src/session.rs], both ends of the session handshake.
    - [Model]: [oxclient/src/model.rs], the client's window model; [Geometry]:
      [oxclient/src/geometry.rs], which local moves and resizes reach the guest.
    - [Registry]: [oxagent/src/registry.rs], window ids and video channels;
      [Pacing]: [oxagent/src/pacing.rs], the budget of frames in flight.
    - [Latency]: [oxproto/src/latency.rs], the sample window and the clock
      estimate; [Session]: the rest of [oxclient/src/session.rs], the event
      loop, pings and pongs, and the offset estimate; [Scancode]:
      [oxproto/src/scancode.rs], the key table.
    - [Ber], [RdpFrame], [RdpMcs], [RdpConnect]:
      [oxrdp-pdu/src/{ber,tpkt,x224,frame,mcs,send_data,nego,connect}.rs], the
      RDP framing and connection PDUs; [RdpGcc], [RdpConference], [RdpShare]:
      [domain_params], [gcc], [gcc_server], [connect_initial],
      [connect_response], [security], [share], [finalize], [caps], [active],
      [license] and [client_info] of the same crate.
    - [RdpConnector]: [oxrdp-core/src/connector.rs], the connection state
      machine; [RdpIo]: [oxrdp-io/src/{frame,connect}.rs], whole frames on a
      stream and the driver loop over the connector.
    - [H264]: [oxagent/src/h264.rs], the access units the agent sends;
      [AnnexB]: [oxclient/src/decode/annexb.rs], what the client reads off
      them; [Yuv]: [oxagent/src/nv12.rs] and [oxclient/src/decode/yuv.rs], the
      two colour conversions; [Decode]: [oxclient/src/decode/{mod,h264}.rs],
      the decoders; [Pipeline]: [oxclient/src/decode/pipeline.rs], their
      worker threads.
    - [Channel]: an interface, the bounded channel of the runtime, with its
      laws and an instance; the pipeline and the agent's queue are over it.
    - [Serve], [ServeSession]: [oxagent/src/serve.rs] (with the traits of
      [encode.rs] and [input.rs]), the agent's session loop, and the theorems
      that tie it to [Registry], [Pacing] and the client's [Model].
    - [AgentSession]: the rest of [serve.rs], the reader and writer tasks around
      that loop, [run_session] with its deadline and its slot, and the
      connections of a host; [Text], [Security], [Config]: the string methods
      used, [oxsec/src/lib.rs] (tokens, pins, PEM, identities) and
      [oxagent/src/config.rs].
    - [LatencyMonitor], [LatencyFlow], [LatencyTail]:
      [oxclient/src/latency.rs], the client's measurements and its report, where
      each frame is accounted for, and the localised tail.
    - [Keys]: [oxdisplay/src/input.rs], physical keys and buttons; [Presenter]:
      [presenter.rs], pictures on a surface; [Display]: [lib.rs], [headless.rs]
      and the commands [oxclient/src/main.rs] makes of the model's changes;
      [Winit]: [winit_backend.rs], the backend over an abstract window system
      that logs what is asked of it; [WinitLife], [WinitInput]: theorems on the
      life of its windows and surfaces and on its conversions.
    - [ClientLoop], [ClientFlow]: [run_session_loop] and
      [handle_display_event] of [oxclient/src/main.rs], the loop that joins
      [Session], [Model], [Geometry], [Pipeline], [LatencyMonitor] and
      [Display], and the theorems on its runs; [ClientStart]: the rest of that
      file, command line, connection and headless loop.
    - [Inject], [InjectText], [InjectFlow]: [oxagent/src/win/input.rs], input
      injected through the Win32 functions it calls, with text in UTF-16;
      [InputPath]: a press, a motion or a key from winit to those functions,
      through [Winit], [Keys], [ClientLoop], the codec, [Serve] and [Inject].
    - [WinCall]: a call into COM with its [HRESULT], as a monad over a machine,
      and the rules by which its users are proved; [WinSource]:
      [oxagent/src/win/{enumerate,appid}.rs], windows and the applications behind
      them; [WinCapture]: [capture.rs], a window's pixels; [WinPlatform]: the
      [WindowSource] of [win/mod.rs] that joins these, an instance of the class
      [Serve] is written against; [WinEncode], [WinEncodeFacts]: [encode.rs], the
      H.264 transforms, an instance of its class of encoders.
    - [AgentMain]: [oxagent/src/main.rs] and [run_agent] of [win/mod.rs], start and
      accept loop, over [Config], [Security] and the host of [AgentSession].
    - [RdpCli]: [oxrdp-cli/src/main.rs] and [oxrdp-crypto/src/tls.rs], the probe
      over [RdpIo].

    ** What the theorems show

    - Codecs.  Every message and PDU modelled round-trips, fills a buffer of
      exactly the announced size, and its decoder neither panics nor returns a
      value out of range on any bytes; over-long fields are refused
      ([message_roundtrip], [decode_known_safe], [mcs_pdus_sound],
      [send_data_encode_cases], [connection_request_roundtrip],
      [connection_decode_safe], [mcs_frame_roundtrip]).
    - Chunks.  Fragments reassemble to the message; messages interleaved over
      channels are all delivered; the reassembler refines one queue per
      channel and never holds more than its limits ([fragment_correct],
      [interleaved_messages_delivered], [push_refines_channels],
      [reassembler_bounded]).
    - Transport.  Reading may be cancelled at any await point and resumed
      without losing or repeating a byte; what one side sends is what the other
      receives, in order; every call returns ([chunk_reader_cancel_safe],
      [transport_end_to_end], [next_message_complete], [chunk_writer_exact]).
    - Handshake.  A peer without a valid token learns nothing and costs one
      message; two honest ends agree on the session parameters
      ([negotiate_unauthenticated], [handshake_agreement], [negotiate_agreed]).
    - Session.  Under any interleaving of calls cut short anywhere, the client
      surfaces exactly the events the agent's messages mean and answers exactly
      its pings; calls return; the clock offset reported is within its bound
      ([session_faithful], [next_event_returns], [session_offset_honest]).
    - Client.  A backend that executes the emitted instructions always shows
      the model; the stacking order lists each window once; a drag reaches the
      guest as a translation ([backend_follows_model], [model_consistent],
      [zorder_places_above], [drag_is_translation], [resize_only_on_change]).
    - Agent.  Ids are never reused, channels never shared, dead windows are
      removed exactly; the frames in flight are bounded and the newest capture
      wins ([registry_no_sharing], [retain_live_exact], [track_spec],
      [pacing_bounded], [capture_newest_wins], [ack_cumulative]).
    - Measurement and input.  The ring buffer is the last n samples, its
      statistics are theirs, the clock estimate is within its error bound;
      keys and scancodes correspond one to one ([samples_are_last_n],
      [percentile_nearest_rank], [samples_statistics], [offset_error_bounded],
      [pong_never_regresses], [scancode_bijective]).
    - Agent and client together.  Whatever happens in a session, the client's
      window table after a tick is the platform's list of windows, and input
      only reaches windows it was told of ([session_mirrors],
      [input_reaches_known_windows]).
    - Frames.  The agent's access units are its encoder's with the units in
      order and the parameter sets put back; the client reads the same units;
      the SPS reader inverts a writer; the vector colour conversion is the
      scalar one; decoded frames are presentable and none precedes a keyframe;
      every frame handed to the pipeline is reported once, in order
      ([reframe_correct], [client_reads_agent_stream],
      [sps_ref_frame_info_correct], [i420_to_bgra_exact], [nv12_exact],
      [decoders_presentable], [h264_waits_for_keyframe], [pipeline_accounts],
      [pipeline_drains]).
    - RDP connection.  The connector's state is its history; an obliging server
      leads it to the end; nothing after the security upgrade goes out in the
      clear; the Connect-Response parser returns on any bytes
      ([connector_history], [connector_completes], [connect_private],
      [connect_completes], [connect_response_total], [connect_response_parses],
      [connect_initial_layout], [activation_exchange], [share_pdus_sound],
      [client_info_roundtrip], [gcc_blocks_sound], [read_frame_exact]).
    - Client loop.  Frames, reports, input and acknowledgements interleaved in
      any way, each frame read is in one place and acknowledged once it is
      settled; the display always shows the model; an error takes the display
      down, and nothing follows ([frames_acknowledged], [loop_drives_display],
      [shutdown_is_last], [run_times]).  The headless loop acknowledges each
      frame once ([headless_acks]); the command lines taken are a grammar with
      no place for the token ([cli_grammar]).
    - Agent's session.  Under any schedule of its tasks and any behaviour of its
      socket, the loop gets the peer's messages in order and the bytes written
      mean to the client what the loop queued; one session runs at a time, for a
      peer that sent the token ([session_over_bytes], [session_exclusive]).
    - Trust.  A pin admits exactly one key, and the token is only sent to it; an
      identity outlives restarts; the PEM writer is inverted by a reader
      ([pin_admits_one_key], [token_sent_to_pin], [identity_persists],
      [pem_exact], [verify_token_exact]).  A configuration is what its file says
      last, and never listens everywhere unless it says so ([config_as_written],
      [parse_lines_error]).
    - Injection.  An input event arrives as the Win32 call it stands for; a press
      only goes into the window it was meant for, once that is in front; modifiers
      and text arrive as sent ([input_path], [clicks_land], [modifiers_synced],
      [text_typed]).
    - Windows.  Over classes of the calls made and the laws relied on of them: a
      tick shows the client exactly the windows the guest shares, named by their
      applications, and a captured frame is the texture's picture; captures and
      cached identities follow the windows; no sequence of submissions panics or
      mislabels what comes out, the transform is fed the picture padded to even
      sides, and a window whose encoder is refused goes on uncoded
      ([windows_mirrored], [windows_reported], [identity_cached],
      [captured_pixels_shown], [captures_follow_windows], [frames_read_whole],
      [encoders_well_sized], [submission_is_picture],
      [refused_window_sent_uncoded]).
    - Processes.  The pin an agent prints admits the agent and no other key; its
      accept loop keeps at most four connections and one session alive and never
      stops; the RDP probe ends, and well against an obliging server
      ([printed_pin_admits], [connections_bounded], [probe_ends]).
    - Display.  A surface is made after its native window and released before
      it; every painted surface is the last frame clipped to the window over
      black; keys, buttons, wheel and cursor pixels mean the same to the agent;
      a backend that sees only commands holds the model's windows
      ([surfaces_within_windows], [presenter_paints], [keys_reach_agent],
      [pressed_mask_held], [wheel_exact], [cursor_straightened], [echo_once],
      [commands_carry_model], [headless_knows_windows]).
    - Latency report.  Frames presented, dropped, in flight and forgotten add
      up to those that arrived; the stages of a frame add up to its total; the
      outliers of the tail table are all of them ([frames_accounted],
      [stages_exact], [tail_localised]).
    - Deviations: places where the code does less than it says, as theorems
      ([zorder_self_moves_up], [window_state_flags_ignored],
      [offset_bound_one_short], [display_layout_count_lossy],
      [wrap_mcs_truncates_length], [cs_net_length_wraps],
      [connect_initial_in_clear], [split_keeps_trailing_zeros],
      [colour_ranges_differ], [full_queue_ends_session],
      [tail_table_one_row_over], [arrival_gaps_survive], [super_right_is_left],
      [button_sticks], [new_window_default_cursor], [evicts_by_window],
      [held_frame_lost], [locks_forced_off], [focus_goes_stale],
      [half_identity_sticks], [mapped_wildcard_accepted],
      [long_title_ends_session], [mismatched_window_starves],
      [rebuilt_encoder_unforced], [pad_even_overflows], [session_keeps_permit],
      [any_certificate_accepted], [ipv6_host_undialled]).

    ** Bounds, fuel and parameters

    Loops whose recursion is not structural take fuel.  Each has a lemma that
    more fuel does not change the result once it is enough, and the theorems
    about it say how much is enough: the bytes or stream events still to come
    for the transport loops, the length of the payload for [fragment].  Nothing
    is proved only under the proviso that a loop ends.

    [usize] is 64 bits; allocation does not fail; arithmetic is the checked
    build's, where overflow panics, so absence of [Panic] also rules out silent
    wrapping in a release build. A [String] is its UTF-8 bytes, a [HashMap] a
    finite map and, where the code iterates over it, any order of its entries.
    The socket below the transport is a list of bytes and the runtime a schedule
    of events, one for every read or write awaited (some bytes, an error, the
    future dropped); threads are interleaved steps; the token comparison is a
    parameter of [Handshake], which [AgentSession] fills with that of
    [Security].

    ** Not modelled

    What the programs print, but for the pin, and the text of the latency
    report, which is its figures only. The session under the client's loop is
    [Session], and an arm of the loop takes its result as given. The clocks, the
    order of a hash map's entries and the moment the runtime wakes a task are part
    of a run. OpenH264, the eight-lane vectors of [wide], softbuffer, winit, and on
    Windows the window manager, Direct3D and Media Foundation are interfaces with
    the laws relied on; [Presenter] assumes that a surface that refuses a size
    keeps the one it had, without which it would write out of bounds
    ([failed_resize_overruns]), and the reference counts of COM objects are
    implicit. TLS, hashing and certificates are calls into other software and stay
    outside, in the classes of [Security] and [ClientStart]. Crate roots hold no
    code. *)

From stdpp Require Export base numbers list gmap strings.
From Stdlib Require Export ZArith Lia Bool.

#[export] Set Default Goal Selector "!".
Global Open Scope Z_scope.

(** ** Outcomes: [Result<T, E>] plus the panics Rust code can reach *)

Inductive outcome (E A : Type) : Type :=
| Ok (a : A)
| Err (e : E)
| Panic.
Arguments Ok {E A} a.
Arguments Err {E A} e.
Arguments Panic {E A}.

(** The [?] operator: an error or a panic stops the computation. *)
#[export] Instance outcome_ret {E} : MRet (outcome E) := λ _ a, Ok a.
#[export] Instance outcome_bind {E} : MBind (outcome E) := λ _ _ f m,
  match m with Ok a => f a | Err e => Err e | Panic => Panic end.

(** [Result::map_err] *)
Definition map_err {E1 E2 A} (f : E1 → E2) (m : outcome E1 A) : outcome E2 A :=
  match m with Ok a => Ok a | Err e => Err (f e) | Panic => Panic end.

(** [Option::ok_or] *)
Definition ok_or {E A} (o : option A) (e : E) : outcome E A :=
  match o with Some a => Ok a | None => Err e end.

(** [Option::expect] and [Option::unwrap]: [None] is a panic. *)
Definition expect {E A} (o : option A) : outcome E A :=
  match o with Some a => Ok a | None => Panic end.

(** ** State-and-error computations

    A method taking [&mut self] and returning [Result<A, E>]: the state after
    an error is not observable by a caller that propagates it with [?]. *)
Definition stm (S E A : Type) : Type := S → outcome E (A * S).

#[export] Instance stm_ret {S E} : MRet (stm S E) := λ _ a s, Ok (a, s).
#[export] Instance stm_bind {S E} : MBind (stm S E) := λ _ _ f m s,
  match m s with Ok (a, s') => f a s' | Err e => Err e | Panic => Panic end.

Definition fail {S E A} (e : E) : stm S E A := λ _, Err e.
Definition lift {S E A} (m : outcome E A) : stm S E A := λ s,
  match m with Ok a => Ok (a, s) | Err e => Err e | Panic => Panic end.
Definition when {S E} (b : bool) (m : stm S E unit) : stm S E unit :=
  if b then m else mret tt.

(** ** Machine integers

    A [w]-bit integer is a [Z] in range; the range is a predicate. *)
Definition is_uint (w : Z) (x : Z) : Prop := 0 ≤ x < 2 ^ w.
Definition is_sint (w : Z) (x : Z) : Prop := - 2 ^ (w - 1) ≤ x < 2 ^ (w - 1).
Abbreviation u8 := (is_uint 8).
Abbreviation u16 := (is_uint 16).
Abbreviation u32 := (is_uint 32).
Abbreviation u64 := (is_uint 64).
Abbreviation i16 := (is_sint 16).
Abbreviation i32 := (is_sint 32).
Abbreviation i64 := (is_sint 64).

(** The [as] casts: truncation, and reinterpretation as signed. *)
Definition as_uint (w x : Z) : Z := x mod 2 ^ w.
Definition as_sint (w x : Z) : Z :=
  let y := x mod 2 ^ w in if y <? 2 ^ (w - 1) then y else y - 2 ^ w.

(** [uN::try_from]. *)
Definition try_from_uint (w x : Z) : option Z :=
  if (0 <=? x) && (x <? 2 ^ w) then Some x else None.

(** Saturating and checked arithmetic at a width. *)
Definition sat_uint (w x : Z) : Z := Z.max 0 (Z.min x (2 ^ w - 1)).
Definition sat_sint (w x : Z) : Z :=
  Z.max (- 2 ^ (w - 1)) (Z.min x (2 ^ (w - 1) - 1)).

(** [a + b] and [a - b] on [uN]: overflow panics (the checked build). *)
Definition add_uint {E} (w a b : Z) : outcome E Z :=
  if a + b <? 2 ^ w then Ok (a + b) else Panic.
Definition sub_uint {E} (a b : Z) : outcome E Z :=
  if b <=? a then Ok (a - b) else Panic.

(** [u32::div_ceil] and friends. *)
Definition div_ceil (a b : Z) : Z := (a + b - 1) / b.

(** ** Slices *)

Definition len {A} (l : list A) : Z := Z.of_nat (length l).
Definition ztake {A} (n : Z) (l : list A) : list A := take (Z.to_nat n) l.
Definition zdrop {A} (n : Z) (l : list A) : list A := drop (Z.to_nat n) l.

(** [&l[a..b]], which panics unless [a <= b <= l.len()]. *)
Definition slice {E A} (l : list A) (a b : Z) : outcome E (list A) :=
  if (0 <=? a) && (a <=? b) && (b <=? len l)
  then Ok (ztake (b - a) (zdrop a l)) else Panic.

(** [l[i]], which panics out of range. *)
Definition index {E A} (l : list A) (i : Z) : outcome E A :=
  if 0 <=? i then expect (l !! Z.to_nat i) else Panic.

(** ** Byte order: [to_le_bytes], [from_le_bytes] and the big-endian pair *)

Fixpoint le_bytes (n : nat) (z : Z) : list Z :=
  match n with O => [] | S n => z mod 256 :: le_bytes n (z / 256) end.
Fixpoint le_value (bs : list Z) : Z :=
  match bs with [] => 0 | b :: bs => b + 256 * le_value bs end.
Definition be_bytes (n : nat) (z : Z) : list Z := rev (le_bytes n z).
Definition be_value (bs : list Z) : Z := le_value (rev bs).

(** ** UTF-8: [String::from_utf8]

    A Rust [String] is modelled by its bytes; [utf8_valid] is the validity
    check of the standard library (RFC 3629: no overlong form, no surrogate,
    nothing past U+10FFFF). *)
Definition between (a b x : Z) : bool := (a <=? x) && (x <=? b).

Fixpoint utf8_valid (bs : list Z) : bool :=
  match bs with
  | [] => true
  | b :: r =>
    if between 0 0x7F b then utf8_valid r
    else if between 0xC2 0xDF b then
      match r with
      | c1 :: r1 => between 0x80 0xBF c1 && utf8_valid r1
      | _ => false
      end
    else if between 0xE0 0xEF b then
      match r with
      | c1 :: c2 :: r2 =>
        (if b =? 0xE0 then between 0xA0 0xBF c1
         else if b =? 0xED then between 0x80 0x9F c1
         else between 0x80 0xBF c1) && between 0x80 0xBF c2 && utf8_valid r2
      | _ => false
      end
    else if between 0xF0 0xF4 b then
      match r with
      | c1 :: c2 :: c3 :: r3 =>
        (if b =? 0xF0 then between 0x90 0xBF c1
         else if b =? 0xF4 then between 0x80 0x8F c1
         else between 0x80 0xBF c1)
        && between 0x80 0xBF c2 && between 0x80 0xBF c3 && utf8_valid r3
      | _ => false
      end
    else false
  end.

(** A [String]'s bytes from an ASCII literal, for concrete inputs. *)
Definition bytes_of_string (s : string) : list Z :=
  map (λ a, Z.of_N (Ascii.N_of_ascii a)) (String.list_ascii_of_string s).

(** ** Automation *)

Create HintDb width.
Create Rewrite HintDb len.

Ltac simpl_pow :=
  change (2 ^ 8) with 256 in *; change (2 ^ 16) with 65536 in *;
  change (2 ^ 32) with 4294967296 in *;
  change (2 ^ 64) with 18446744073709551616 in *;
  change (16 - 1) with 15 in *; change (32 - 1) with 31 in *;
  change (64 - 1) with 63 in *;
  change (2 ^ 15) with 32768 in *; change (2 ^ 31) with 2147483648 in *;
  change (2 ^ 63) with 9223372036854775808 in *.

(** Arithmetic on lengths and widths. *)
Ltac len_lia :=
  unfold len, is_uint, is_sint in *; simpl_pow;
  repeat rewrite ?length_app, ?length_take, ?length_drop, ?length_replicate in *;
  cbn [length] in *; lia.

(** Turns boolean guards in the context into propositions. *)
Ltac bool_to_prop :=
  repeat match goal with
  | H : _ && _ = true |- _ => apply andb_true_iff in H as [? ?]
  | H : (_ <? _) = true |- _ => apply Z.ltb_lt in H
  | H : (_ <? _) = false |- _ => apply Z.ltb_ge in H
  | H : (_ <=? _) = true |- _ => apply Z.leb_le in H
  | H : (_ <=? _) = false |- _ => apply Z.leb_gt in H
  | H : (_ =? _) = true |- _ => apply Z.eqb_eq in H
  | H : (_ =? _) = false |- _ => apply Z.eqb_neq in H
  | H : negb _ = true |- _ => apply negb_true_iff in H
  | H : negb _ = false |- _ => apply negb_false_iff in H
  end.

(** Splits the first conditional on a boolean in the goal. *)
Ltac case_if :=
  match goal with
  | |- context [if ?b then _ else _] =>
    lazymatch type of b with bool => destruct b eqn:? end
  end.

(** ** Lemmas on lists and lengths *)

Lemma len_nil {A} : len (@nil A) = 0.
Proof. done. Qed.

Lemma len_cons {A} (x : A) l : len (x :: l) = 1 + len l.
Proof. len_lia. Qed.

Lemma len_app {A} (l1 l2 : list A) : len (l1 ++ l2) = len l1 + len l2.
Proof. len_lia. Qed.

Lemma len_nonneg {A} (l : list A) : 0 ≤ len l.
Proof. len_lia. Qed.

Lemma len_replicate {A} n (x : A) : 0 ≤ n → len (replicate (Z.to_nat n) x) = n.
Proof. intros. len_lia. Qed.

Lemma len_0_nil {A} (l : list A) : len l = 0 → l = [].
Proof. destruct l; [done|]. rewrite len_cons. pose proof (len_nonneg l). lia. Qed.

Lemma len_map {A B} (f : A → B) l : len (map f l) = len l.
Proof. unfold len. by rewrite length_map. Qed.

Lemma ztake_zdrop {A} n (l : list A) : ztake n l ++ zdrop n l = l.
Proof. apply take_drop. Qed.

Lemma len_ztake {A} n (l : list A) : 0 ≤ n ≤ len l → len (ztake n l) = n.
Proof. unfold ztake. intros. len_lia. Qed.

Lemma len_zdrop {A} n (l : list A) : 0 ≤ n ≤ len l → len (zdrop n l) = len l - n.
Proof. unfold zdrop. intros. len_lia. Qed.

Lemma ztake_app_len {A} (l1 l2 : list A) n : n = len l1 → ztake n (l1 ++ l2) = l1.
Proof. intros ->. unfold ztake, len. rewrite Nat2Z.id. apply take_app_length. Qed.

Lemma zdrop_app_len {A} (l1 l2 : list A) n : n = len l1 → zdrop n (l1 ++ l2) = l2.
Proof. intros ->. unfold zdrop, len. rewrite Nat2Z.id. apply drop_app_length. Qed.

Lemma ztake_all {A} (l : list A) n : len l ≤ n → ztake n l = l.
Proof. intros. unfold ztake. apply take_ge. len_lia. Qed.

Lemma zdrop_zdrop {A} (l : list A) a b :
  0 ≤ a → 0 ≤ b → zdrop a (zdrop b l) = zdrop (b + a) l.
Proof. intros. unfold zdrop. rewrite drop_drop. f_equal. lia. Qed.

Lemma zdrop_0 {A} (l : list A) : zdrop 0 l = l.
Proof. done. Qed.

Lemma zdrop_all {A} (l : list A) n : len l ≤ n → zdrop n l = [].
Proof. intros. unfold zdrop. apply drop_ge. len_lia. Qed.

#[export] Hint Rewrite @len_nil @len_cons @len_app @len_map : len.
#[export] Hint Rewrite @len_replicate @len_ztake @len_zdrop using lia : len.

(** A list of known length splits at any point inside it. *)
Lemma list_split_len {A} (l : list A) a b :
  0 ≤ a → 0 ≤ b → len l = a + b →
  ∃ l1 l2, l = l1 ++ l2 ∧ len l1 = a ∧ len l2 = b.
Proof.
  intros. exists (ztake a l), (zdrop a l). rewrite ztake_zdrop.
  by rewrite len_ztake, len_zdrop by lia; auto with lia.
Qed.

Lemma slice_mid {E A} (pre bs post : list A) a b :
  a = len pre → b = len pre + len bs →
  slice (E:=E) (pre ++ bs ++ post) a b = Ok bs.
Proof.
  intros -> ->. unfold slice. autorewrite with len.
  pose proof (len_nonneg pre). pose proof (len_nonneg bs). pose proof (len_nonneg post).
  replace (0 <=? len pre) with true by lia.
  replace (len pre <=? len pre + len bs) with true by lia.
  replace (len pre + len bs <=? len pre + (len bs + len post)) with true by lia.
  cbn. rewrite zdrop_app_len by done. f_equal. apply ztake_app_len. lia.
Qed.

Lemma slice_ok {E A} (l : list A) a b :
  0 ≤ a ≤ b → b ≤ len l →
  slice (E:=E) l a b = Ok (ztake (b - a) (zdrop a l)).
Proof.
  intros. unfold slice.
  replace (0 <=? a) with true by lia. replace (a <=? b) with true by lia.
  by replace (b <=? len l) with true by lia.
Qed.

Lemma Forall_ztake {A} (P : A → Prop) n l : Forall P l → Forall P (ztake n l).
Proof. apply Forall_take. Qed.

Lemma Forall_zdrop {A} (P : A → Prop) n l : Forall P l → Forall P (zdrop n l).
Proof. apply Forall_drop. Qed.

#[export] Hint Resolve Forall_ztake Forall_zdrop : width.

(** ** Lemmas on byte order *)

Lemma length_le_bytes n z : length (le_bytes n z) = n.
Proof. revert z. induction n; intros; cbn [le_bytes length]; auto. Qed.

Lemma len_le_bytes n z : len (le_bytes n z) = Z.of_nat n.
Proof. unfold len. by rewrite length_le_bytes. Qed.

Lemma len_be_bytes n z : len (be_bytes n z) = Z.of_nat n.
Proof. unfold len, be_bytes. by rewrite length_rev, length_le_bytes. Qed.

#[export] Hint Rewrite len_le_bytes len_be_bytes : len.

Lemma le_bytes_u8 n z : Forall u8 (le_bytes n z).
Proof.
  revert z. induction n as [|n IH]; intros z; cbn [le_bytes]; constructor; auto.
  unfold is_uint. apply Z.mod_pos_bound. lia.
Qed.

Lemma be_bytes_u8 n z : Forall u8 (be_bytes n z).
Proof. apply Forall_rev, le_bytes_u8. Qed.

#[export] Hint Resolve le_bytes_u8 be_bytes_u8 : width.

Lemma le_value_bytes n z : le_value (le_bytes n z) = z mod 256 ^ Z.of_nat n.
Proof.
  revert z. induction n as [|n IH]; intros z; cbn [le_bytes le_value].
  - by rewrite Z.mod_1_r.
  - rewrite IH, Nat2Z.inj_succ, Z.pow_succ_r, Z.rem_mul_r by lia. lia.
Qed.

Lemma le_value_bytes_uint n w z :
  w = 8 * Z.of_nat n → is_uint w z → le_value (le_bytes n z) = z.
Proof.
  intros -> [? ?]. rewrite le_value_bytes. apply Z.mod_small.
  split; [done|]. by replace (256 ^ Z.of_nat n) with (2 ^ (8 * Z.of_nat n))
    by (rewrite Z.pow_mul_r by lia; done).
Qed.

Lemma be_value_bytes_uint n w z :
  w = 8 * Z.of_nat n → is_uint w z → be_value (be_bytes n z) = z.
Proof.
  intros. unfold be_value, be_bytes. rewrite rev_involutive.
  by eapply le_value_bytes_uint.
Qed.

Lemma le_value_uint bs w :
  w = 8 * len bs → Forall u8 bs → is_uint w (le_value bs).
Proof.
  intros ->. induction 1 as [|b bs Hb Hbs IH]; [by split|].
  cbn [le_value]. rewrite len_cons. unfold is_uint in *. simpl_pow.
  replace (8 * (1 + len bs)) with (8 + 8 * len bs) by lia.
  pose proof (len_nonneg bs).
  rewrite Z.pow_add_r by lia. simpl_pow. nia.
Qed.

Lemma be_value_uint bs w :
  w = 8 * len bs → Forall u8 bs → is_uint w (be_value bs).
Proof.
  intros -> ?. unfold be_value. apply le_value_uint.
  - unfold len. by rewrite length_rev.
  - by apply Forall_rev.
Qed.

Lemma le_bytes_app n m z :
  le_bytes (n + m) z = le_bytes n z ++ le_bytes m (z / 256 ^ Z.of_nat n).
Proof.
  revert z. induction n as [|n IH]; intros z.
  - cbn [Nat.add le_bytes app]. by rewrite Z.div_1_r.
  - cbn [Nat.add le_bytes app]. rewrite IH, Nat2Z.inj_succ, Z.pow_succ_r by lia.
    by rewrite Z.div_div by lia.
Qed.

Lemma le_bytes_mod n z : le_bytes n (z mod 256 ^ Z.of_nat n) = le_bytes n z.
Proof.
  revert z. induction n as [|n IH]; intros z; [done|].
  cbn [le_bytes]. rewrite Nat2Z.inj_succ, Z.pow_succ_r by lia.
  rewrite Z.rem_mul_r by lia. f_equal.
  - rewrite Z.mul_comm, Z.mod_add by lia. by apply Z.mod_mod.
  - rewrite Z.add_comm, Z.mul_comm, Z.div_add_l by lia.
    rewrite (Z.div_small (z mod 256)), Z.add_0_r; [apply IH|].
    apply Z.mod_pos_bound. lia.
Qed.

(** A shifted high part and a low part that fits below it do not overlap. *)
Lemma lor_shiftl_add n hi lo :
  0 ≤ n → 0 ≤ lo < 2 ^ n → Z.lor (Z.shiftl hi n) lo = hi * 2 ^ n + lo.
Proof.
  intros Hn Hlo. rewrite <- Z.shiftl_mul_pow2 by lia. symmetry.
  apply Z.add_nocarry_lor, Z.bits_inj'. intros i Hi.
  rewrite Z.land_spec, Z.bits_0, Z.shiftl_spec by lia.
  destruct (Z.lt_ge_cases i n).
  - by rewrite Z.testbit_neg_r by lia.
  - rewrite <- (Z.mod_small lo (2 ^ n)) by lia.
    by rewrite Z.mod_pow2_bits_high, andb_false_r by lia.
Qed.

(** ** Lemmas on casts *)

Lemma as_uint_range w x : 0 ≤ w → is_uint w (as_uint w x).
Proof. intros. apply Z.mod_pos_bound. lia. Qed.

Lemma as_uint_id w x : is_uint w x → as_uint w x = x.
Proof. apply Z.mod_small. Qed.

Lemma as_sint_range w x : 0 < w → is_sint w (as_sint w x).
Proof.
  intros. unfold is_sint, as_sint.
  assert (2 ^ w = 2 * 2 ^ (w - 1)) as Hw.
  { rewrite <- Z.pow_succ_r by lia. f_equal. lia. }
  pose proof (Z.mod_pos_bound x (2 ^ w) ltac:(lia)).
  destruct (Z.ltb_spec (x mod 2 ^ w) (2 ^ (w - 1))); lia.
Qed.

(** [v as u32 as i32] is the identity on [i32], and so at every width. *)
Lemma as_sint_as_uint w x : 0 < w → is_sint w x → as_sint w (as_uint w x) = x.
Proof.
  unfold is_sint, as_sint, as_uint. intros Hw [Hl Hh].
  assert (2 ^ w = 2 * 2 ^ (w - 1)) as E.
  { rewrite <- Z.pow_succ_r by lia. f_equal. lia. }
  rewrite Z.mod_mod by lia.
  destruct (Z.le_gt_cases 0 x).
  - rewrite Z.mod_small by lia. by replace (x <? 2 ^ (w - 1)) with true by lia.
  - rewrite <- (Z.mod_add x 1), Z.mod_small by lia.
    replace (x + 1 * 2 ^ w <? 2 ^ (w - 1)) with false by lia. lia.
Qed.

#[export] Hint Resolve as_uint_range as_sint_range : width.
#[export] Hint Extern 2 (_ < _) => lia : width.
#[export] Hint Extern 2 (_ ≤ _) => lia : width.

(** ** Lemmas on UTF-8 *)

Lemma between_spec a b x : between a b x = true ↔ a ≤ x ≤ b.
Proof. unfold between. rewrite andb_true_iff, !Z.leb_le. done. Qed.

Ltac between_to_prop :=
  repeat match goal with
  | H : _ && _ = true |- _ => apply andb_true_iff in H as [? ?]
  | H : between _ _ _ = true |- _ => apply between_spec in H
  | H : (if _ then _ else _) = true |- _ => case_match
  end.

(** Only byte values pass the UTF-8 check. *)
Lemma utf8_valid_u8 bs : utf8_valid bs = true → Forall u8 bs.
Proof.
  remember (length bs) as n eqn:Hn. revert bs Hn.
  induction n as [n IH] using (well_founded_induction Nat.lt_wf_0).
  intros [|b r] Hn Hv; [constructor|]. cbn [utf8_valid] in Hv. cbn in Hn.
  assert (∀ r', (length r' < n)%nat → utf8_valid r' = true → Forall u8 r') as IH'.
  { intros. by eapply IH. }
  destruct (between 0 127 b) eqn:E1; [apply between_spec in E1|].
  { constructor; [len_lia|]. apply IH'; [lia|done]. }
  destruct (between 194 223 b) eqn:E2; [apply between_spec in E2|].
  { destruct r as [|c1 r1]; [done|]. between_to_prop.
    repeat constructor; try len_lia. apply IH'; [cbn in *; lia|done]. }
  destruct (between 224 239 b) eqn:E3; [apply between_spec in E3|].
  { destruct r as [|c1 [|c2 r2]]; [done..|]. between_to_prop;
    (repeat constructor; try len_lia; apply IH'; [cbn in *; lia|done]). }
  destruct (between 240 244 b) eqn:E4; [apply between_spec in E4|done].
  destruct r as [|c1 [|c2 [|c3 r3]]]; [done..|]. between_to_prop;
  (repeat constructor; try len_lia; apply IH'; [cbn in *; lia|done]).
Qed.

#[export] Hint Resolve utf8_valid_u8 : width.

(** From here on these are opaque to [simpl] and [cbn]. *)
Arguments le_bytes : simpl never.
Arguments le_value : simpl never.
Arguments be_bytes : simpl never.
Arguments be_value : simpl never.
Arguments len : simpl never.
Arguments ztake : simpl never.
Arguments zdrop : simpl never.
Arguments as_uint : simpl never.
Arguments as_sint : simpl never.
