(* ===== verification/Cursor.v ===== *)
(** * Bounds-checked cursors and the codec traits

    [crates/oxrdp-pdu/src/error.rs], [cursor.rs] and [codec.rs]: the error
    values, [ReadCursor] and [WriteCursor], the traits [Encode] and [Decode]
    and the two entry points [decode] and [encode_vec].  The second half is the
    interface every codec is proved against: what it means for an encoder to
    write, and for a decoder to read, an exact byte string; and the class
    [WireFormat] that packages a type with its byte layout and the laws. *)

From S2P Require Import Prelude.

(** ** Errors ([error.rs]) *)

Inductive DecodeError : Type :=
| NotEnoughBytes (context : string) (needed remaining : Z)
| InvalidField (context field reason : string)
| InvalidLength (context reason : string).

Inductive EncodeError : Type :=
| NotEnoughSpace (context : string) (needed remaining : Z)
| FieldTooLarge (context field : string).

#[export] Instance DecodeError_eq_dec : EqDecision DecodeError.
Proof. solve_decision. Defined.
#[export] Instance EncodeError_eq_dec : EqDecision EncodeError.
Proof. solve_decision. Defined.

(** ** [ReadCursor] *)

Record ReadCursor : Type := mkRead { rbuf : list Z; rpos : Z }.

Abbreviation reader := (stm ReadCursor DecodeError).

Definition read_new (buf : list Z) : ReadCursor := mkRead buf 0.

Definition remaining : reader Z := λ c,
  lift (sub_uint (len (rbuf c)) (rpos c)) c.

Definition is_empty : reader bool :=
  n ← remaining; mret (n =? 0).

Definition position (c : ReadCursor) : Z := rpos c.

Definition ensure (n : Z) (context : string) : reader unit :=
  r ← remaining;
  if r <? n then fail (NotEnoughBytes context n r) else mret tt.

(** [&self.buf[self.pos..self.pos + n]], then [self.pos += n]: the body the two
    bulk reads share. *)
Definition advance (n : Z) : reader (list Z) := λ c,
  match slice (rbuf c) (rpos c) (rpos c + n) with
  | Ok out => Ok (out, mkRead (rbuf c) (rpos c + n))
  | Err e => Err e
  | Panic => Panic
  end.

Definition read_array (n : Z) (context : string) : reader (list Z) :=
  ensure n context;; advance n.

Definition read_slice (n : Z) (context : string) : reader (list Z) :=
  ensure n context;; advance n.

Definition read_u8 (context : string) : reader Z :=
  a ← read_array 1 context; lift (index a 0).
Definition read_u16_be (context : string) : reader Z :=
  a ← read_array 2 context; mret (be_value a).
Definition read_u16_le (context : string) : reader Z :=
  a ← read_array 2 context; mret (le_value a).
Definition read_u32_be (context : string) : reader Z :=
  a ← read_array 4 context; mret (be_value a).
Definition read_u32_le (context : string) : reader Z :=
  a ← read_array 4 context; mret (le_value a).

Definition peek : reader Z := λ c, lift (index (rbuf c) (rpos c)) c.

Definition peek_u8 (context : string) : reader Z :=
  ensure 1 context;; peek.

(** ** [WriteCursor] *)

Record WriteCursor : Type := mkWrite { wbuf : list Z; wpos : Z }.

Abbreviation writer := (stm WriteCursor EncodeError).

Definition write_new (buf : list Z) : WriteCursor := mkWrite buf 0.

Definition write_remaining : writer Z := λ c,
  lift (sub_uint (len (wbuf c)) (wpos c)) c.

Definition write_ensure (n : Z) (context : string) : writer unit :=
  r ← write_remaining;
  if r <? n then fail (NotEnoughSpace context n r) else mret tt.

(** [self.buf[pos..pos + n].copy_from_slice(src)], then [pos += n]. *)
Definition copy_from_slice (src : list Z) : writer unit := λ c,
  match slice (E:=EncodeError) (wbuf c) (wpos c) (wpos c + len src) with
  | Ok _ => Ok (tt, mkWrite (ztake (wpos c) (wbuf c) ++ src ++
                             zdrop (wpos c + len src) (wbuf c))
                            (wpos c + len src))
  | Err e => Err e
  | Panic => Panic
  end.

Definition write_slice (src : list Z) (context : string) : writer unit :=
  write_ensure (len src) context;; copy_from_slice src.

Definition write_u8 (value : Z) (context : string) : writer unit :=
  write_slice [value] context.
Definition write_u16_be (value : Z) (context : string) : writer unit :=
  write_slice (be_bytes 2 value) context.
Definition write_u16_le (value : Z) (context : string) : writer unit :=
  write_slice (le_bytes 2 value) context.
Definition write_u32_be (value : Z) (context : string) : writer unit :=
  write_slice (be_bytes 4 value) context.
Definition write_u32_le (value : Z) (context : string) : writer unit :=
  write_slice (le_bytes 4 value) context.

(** ** Loops over a cursor

    [for x in &xs { f(x)?; }] and [for _ in 0..n { v.push(r()?); }]. *)
Fixpoint write_each {T} (f : T → writer unit) (xs : list T) : writer unit :=
  match xs with
  | [] => mret tt
  | x :: xs => f x;; write_each f xs
  end.

Fixpoint read_times {T} (n : nat) (r : reader T) : reader (list T) :=
  match n with
  | O => mret []
  | S n => x ← r; xs ← read_times n r; mret (x :: xs)
  end.

(** ** The traits and their entry points ([codec.rs]) *)

Class Decode (T : Type) := decode_from : reader T.

Class Encode (T : Type) := {
  enc_size : T → Z;
  encode : T → writer unit
}.

Definition decode {T} `{Decode T} (bytes : list Z) : outcome DecodeError T :=
  match decode_from (read_new bytes) with
  | Ok (t, _) => Ok t
  | Err e => Err e
  | Panic => Panic
  end.

Definition encode_vec {T} `{Encode T} (pdu : T) : outcome EncodeError (list Z) :=
  match encode pdu (write_new (replicate (Z.to_nat (enc_size pdu)) 0)) with
  | Ok (_, c) => Ok (wbuf c)
  | Err e => Err e
  | Panic => Panic
  end.

(** ** Exact reads and writes *)

(** [reads r bs a]: wherever [bs] lies in a buffer, [r] positioned there
    consumes exactly [bs], returns [a], and leaves the buffer alone. *)
Definition reads {A} (r : reader A) (bs : list Z) (a : A) : Prop :=
  ∀ pre post,
    r (mkRead (pre ++ bs ++ post) (len pre)) =
    Ok (a, mkRead (pre ++ bs ++ post) (len pre + len bs)).

(** [writes w bs]: given room for [bs], [w] overwrites exactly [len bs] bytes
    with [bs] and touches nothing else. *)
Definition writes (w : writer unit) (bs : list Z) : Prop :=
  ∀ pre old post, len old = len bs →
    w (mkWrite (pre ++ old ++ post) (len pre)) =
    Ok (tt, mkWrite (pre ++ bs ++ post) (len pre + len bs)).

(** [rspec r P]: from any in-range cursor over bytes, [r] does not panic, keeps
    the buffer, only moves forward, stays in range, and a result satisfies
    [P]. *)
Definition cursor_ok (c : ReadCursor) : Prop := 0 ≤ rpos c ≤ len (rbuf c).

Definition rspec {A} (r : reader A) (P : A → Prop) : Prop :=
  ∀ c, cursor_ok c → Forall u8 (rbuf c) →
    match r c with
    | Ok (a, c') => P a ∧ rbuf c' = rbuf c ∧ rpos c ≤ rpos c' ∧ cursor_ok c'
    | Err _ => True
    | Panic => False
    end.

(** ** The codec interface

    A type with an encoder and a decoder, the predicate [wf] on its values
    (field widths, and lengths that fit their prefixes) and its byte layout
    [wire], such that the encoder writes the layout into a buffer of the size
    it announces, and the decoder inverts it. *)
Class WireFormat (T : Type) `{Encode T, Decode T} := {
  wf : T → Prop;
  wire : T → list Z;
  wire_size m : wf m → enc_size m = len (wire m);
  wire_encode m : wf m → writes (encode m) (wire m);
  wire_decode m : wf m → reads decode_from (wire m) m;
  wire_bytes m : wf m → Forall u8 (wire m);
  wire_total : rspec decode_from wf
}.

(** ** Composition rules *)

Lemma reads_ret {A} (a : A) : reads (mret a) [] a.
Proof. intros pre post. cbn. by rewrite Z.add_0_r. Qed.

Lemma reads_bind {A B} (r : reader A) (f : A → reader B) bs1 bs2 a b :
  reads r bs1 a → reads (f a) bs2 b → reads (r ≫= f) (bs1 ++ bs2) b.
Proof.
  intros H1 H2 pre post. unfold mbind, stm_bind.
  rewrite <- app_assoc, H1.
  specialize (H2 (pre ++ bs1) post). rewrite <- app_assoc in H2.
  rewrite len_app in H2. by rewrite H2, len_app, Z.add_assoc.
Qed.

Lemma reads_bind_ret {A B} (r : reader A) (f : A → B) bs a :
  reads r bs a → reads (r ≫= λ x, mret (f x)) bs (f a).
Proof.
  intros H. rewrite <- (app_nil_r bs). eapply reads_bind; [done|apply reads_ret].
Qed.

Lemma reads_bind_nil {A B} (r : reader A) (f : A → reader B) bs a b :
  reads r [] a → reads (f a) bs b → reads (r ≫= f) bs b.
Proof. intros. rewrite <- (app_nil_l bs). by eapply reads_bind. Qed.

Lemma writes_ret : writes (mret tt) [].
Proof.
  intros pre old post Hl. apply len_0_nil in Hl as ->. cbn. by rewrite Z.add_0_r.
Qed.

Lemma writes_bind (w1 w2 : writer unit) bs1 bs2 :
  writes w1 bs1 → writes w2 bs2 → writes (w1;; w2) (bs1 ++ bs2).
Proof.
  intros H1 H2 pre old post Hl. rewrite len_app in Hl.
  destruct (list_split_len old (len bs1) (len bs2)) as (o1 & o2 & -> & ? & ?);
    auto using len_nonneg.
  unfold mbind, stm_bind. rewrite <- app_assoc, H1 by done.
  specialize (H2 (pre ++ bs1) o2 post). rewrite <- !app_assoc, len_app in H2.
  rewrite H2 by done. by rewrite <- app_assoc, len_app, Z.add_assoc.
Qed.

Lemma writes_bind_ret (w : writer unit) bs :
  writes w bs → writes (w;; mret tt) bs.
Proof.
  intros. rewrite <- (app_nil_r bs). apply writes_bind; [done|apply writes_ret].
Qed.

Lemma rspec_ret {A} (a : A) (P : A → Prop) : P a → rspec (mret a) P.
Proof. intros ? c ? ?. cbn. auto with lia. Qed.

Lemma rspec_fail {A} e (P : A → Prop) : rspec (fail e) P.
Proof. by intros c. Qed.

Lemma rspec_bind {A B} (r : reader A) (f : A → reader B) (P : A → Prop) (Q : B → Prop) :
  rspec r P → (∀ a, P a → rspec (f a) Q) → rspec (r ≫= f) Q.
Proof.
  intros H1 H2 c Hc Hu. unfold mbind, stm_bind. specialize (H1 c Hc Hu).
  destruct (r c) as [[a c']|e|]; [|done..].
  destruct H1 as (HP & Hb & Hp & Hc'). specialize (H2 a HP c' Hc').
  rewrite Hb in H2. specialize (H2 Hu).
  destruct (f a c') as [[b c'']|e|]; [|done..].
  destruct H2 as (? & ? & ? & ?). split_and!; [done|congruence|lia|done].
Qed.

Lemma rspec_mono {A} (r : reader A) (P Q : A → Prop) :
  rspec r P → (∀ a, P a → Q a) → rspec r Q.
Proof.
  intros H HPQ c Hc Hu. specialize (H c Hc Hu).
  destruct (r c) as [[a c']|e|]; [|done..].
  destruct H as [? ?]. auto.
Qed.

Lemma rspec_if {A} (b : bool) (r1 r2 : reader A) P :
  (b = true → rspec r1 P) → (b = false → rspec r2 P) → rspec (if b then r1 else r2) P.
Proof. destruct b; auto. Qed.

(** ** The primitives *)

Lemma ensure_ok pre bs post context n :
  0 ≤ n → n ≤ len bs →
  ensure n context (mkRead (pre ++ bs ++ post) (len pre)) =
  Ok (tt, mkRead (pre ++ bs ++ post) (len pre)).
Proof.
  intros. unfold ensure, remaining, mbind, stm_bind, lift, sub_uint. cbn.
  autorewrite with len. pose proof (len_nonneg post).
  replace (len pre <=? len pre + (len bs + len post)) with true by lia.
  by replace (len pre + (len bs + len post) - len pre <? n) with false by lia.
Qed.

Lemma reads_slice bs n context : n = len bs → reads (read_slice n context) bs bs.
Proof.
  intros -> pre post. unfold read_slice, mbind, stm_bind.
  rewrite ensure_ok by auto using len_nonneg with lia.
  unfold advance. cbn. by rewrite slice_mid.
Qed.

Lemma reads_array bs n context : n = len bs → reads (read_array n context) bs bs.
Proof. apply reads_slice. Qed.

Lemma reads_u8 x context : reads (read_u8 context) [x] x.
Proof.
  rewrite <- (app_nil_r [x]). eapply reads_bind; [by apply reads_array|].
  intros pre post. cbn. by rewrite Z.add_0_r.
Qed.

Lemma reads_u16_le x context : u16 x → reads (read_u16_le context) (le_bytes 2 x) x.
Proof.
  intros. rewrite <- (le_value_bytes_uint 2 16 x) at 2 by done.
  by apply reads_bind_ret, reads_array.
Qed.

Lemma reads_u32_le x context : u32 x → reads (read_u32_le context) (le_bytes 4 x) x.
Proof.
  intros. rewrite <- (le_value_bytes_uint 4 32 x) at 2 by done.
  by apply reads_bind_ret, reads_array.
Qed.

Lemma reads_u16_be x context : u16 x → reads (read_u16_be context) (be_bytes 2 x) x.
Proof.
  intros. rewrite <- (be_value_bytes_uint 2 16 x) at 2 by done.
  by apply reads_bind_ret, reads_array.
Qed.

Lemma reads_u32_be x context : u32 x → reads (read_u32_be context) (be_bytes 4 x) x.
Proof.
  intros. rewrite <- (be_value_bytes_uint 4 32 x) at 2 by done.
  by apply reads_bind_ret, reads_array.
Qed.

Lemma writes_slice bs context : writes (write_slice bs context) bs.
Proof.
  intros pre old post Hl. unfold write_slice, write_ensure, write_remaining.
  unfold mbind, stm_bind, lift, sub_uint. cbn. autorewrite with len.
  pose proof (len_nonneg post). pose proof (len_nonneg old). pose proof (len_nonneg pre).
  replace (len pre <=? len pre + (len old + len post)) with true by lia.
  replace (len pre + (len old + len post) - len pre <? len bs) with false by lia.
  unfold copy_from_slice. cbn. rewrite slice_mid by lia.
  rewrite ztake_app_len by done. rewrite (app_assoc pre old post).
  rewrite zdrop_app_len; [done|]. rewrite len_app. lia.
Qed.

Lemma writes_u8 x context : writes (write_u8 x context) [x].
Proof. apply writes_slice. Qed.
Lemma writes_u16_le x context : writes (write_u16_le x context) (le_bytes 2 x).
Proof. apply writes_slice. Qed.
Lemma writes_u32_le x context : writes (write_u32_le x context) (le_bytes 4 x).
Proof. apply writes_slice. Qed.
Lemma writes_u16_be x context : writes (write_u16_be x context) (be_bytes 2 x).
Proof. apply writes_slice. Qed.
Lemma writes_u32_be x context : writes (write_u32_be x context) (be_bytes 4 x).
Proof. apply writes_slice. Qed.

Lemma rspec_remaining : rspec remaining (λ n, 0 ≤ n).
Proof.
  intros c Hc Hu. unfold remaining, lift, sub_uint. unfold cursor_ok in *.
  replace (rpos c <=? len (rbuf c)) with true by lia. auto with lia.
Qed.

Lemma rspec_is_empty : rspec is_empty (λ _, True).
Proof. eapply rspec_bind; [apply rspec_remaining|]. intros. by apply rspec_ret. Qed.

Lemma rspec_slice n context :
  0 ≤ n → rspec (read_slice n context) (λ bs, len bs = n ∧ Forall u8 bs).
Proof.
  intros Hn c Hc Hu. unfold read_slice, ensure, remaining, mbind, stm_bind, lift, sub_uint.
  unfold cursor_ok in *. cbn. replace (rpos c <=? len (rbuf c)) with true by lia.
  destruct (Z.ltb_spec (len (rbuf c) - rpos c) n) as [|Hr]; [done|].
  unfold advance. cbn. rewrite slice_ok by lia. cbn.
  replace (rpos c + n - rpos c) with n by lia.
  rewrite len_ztake by (rewrite len_zdrop by lia; lia).
  repeat split; auto with width lia.
Qed.

Lemma rspec_array n context :
  0 ≤ n → rspec (read_array n context) (λ bs, len bs = n ∧ Forall u8 bs).
Proof. apply rspec_slice. Qed.

Lemma rspec_u8 context : rspec (read_u8 context) u8.
Proof.
  eapply rspec_bind; [by apply rspec_array|]. cbn. intros [|x [|y l]] [Hl Hu]; [done|..].
  - intros c ? ?. cbn. inversion Hu; subst. split_and!; auto with lia.
  - rewrite !len_cons in Hl. pose proof (len_nonneg l). lia.
Qed.

Lemma rspec_u16_le context : rspec (read_u16_le context) u16.
Proof.
  eapply rspec_bind; [by apply rspec_array|]. cbn. intros bs [Hl Hu].
  apply rspec_ret, le_value_uint; [by rewrite Hl|done].
Qed.

Lemma rspec_u32_le context : rspec (read_u32_le context) u32.
Proof.
  eapply rspec_bind; [by apply rspec_array|]. cbn. intros bs [Hl Hu].
  apply rspec_ret, le_value_uint; [by rewrite Hl|done].
Qed.

Lemma rspec_u16_be context : rspec (read_u16_be context) u16.
Proof.
  eapply rspec_bind; [by apply rspec_array|]. cbn. intros bs [Hl Hu].
  apply rspec_ret, be_value_uint; [by rewrite Hl|done].
Qed.

Lemma rspec_u32_be context : rspec (read_u32_be context) u32.
Proof.
  eapply rspec_bind; [by apply rspec_array|]. cbn. intros bs [Hl Hu].
  apply rspec_ret, be_value_uint; [by rewrite Hl|done].
Qed.

(** ** Loops *)

Lemma writes_each {T} (f : T → writer unit) (w : T → list Z) xs :
  Forall (λ x, writes (f x) (w x)) xs →
  writes (write_each f xs) (concat (map w xs)).
Proof.
  induction 1 as [|x xs Hx Hxs IH]; cbn; [apply writes_ret|by apply writes_bind].
Qed.

Lemma reads_times {T} (r : reader T) (w : T → list Z) xs n :
  n = length xs → Forall (λ x, reads r (w x) x) xs →
  reads (read_times n r) (concat (map w xs)) xs.
Proof.
  intros ->. induction 1 as [|x xs Hx Hxs IH]; cbn; [apply reads_ret|].
  eapply reads_bind; [done|]. apply (reads_bind_ret _ (cons x)), IH.
Qed.

Lemma rspec_times {T} (r : reader T) (P : T → Prop) n :
  rspec r P → rspec (read_times n r) (λ xs, length xs = n ∧ Forall P xs).
Proof.
  intros Hr. induction n as [|n IH]; cbn; [by apply rspec_ret|].
  eapply rspec_bind; [done|]. intros x Hx.
  eapply rspec_bind; [done|]. intros xs [Hl Hxs].
  apply rspec_ret. cbn. auto.
Qed.

(** ** Automation for codecs

    The databases collect the primitive facts; [solve_reads], [solve_writes]
    and [solve_rspec] walk a codec field by field. *)
Create HintDb reads.
Create HintDb writes.
Create HintDb rspec.

#[export] Hint Resolve reads_u8 reads_u16_le reads_u32_le reads_u16_be reads_u32_be : reads.
#[export] Hint Resolve writes_u8 writes_u16_le writes_u32_le writes_u16_be writes_u32_be : writes.
#[export] Hint Resolve writes_slice : writes.
#[export] Hint Resolve rspec_u8 rspec_u16_le rspec_u32_le rspec_u16_be rspec_u32_be : rspec.
#[export] Hint Resolve rspec_slice rspec_array : rspec.

Ltac solve_reads :=
  repeat first
    [ eapply reads_bind_ret; solve [eauto with reads width]
    | eapply reads_bind; [solve [eauto with reads width]|] ].
Ltac solve_writes :=
  repeat first
    [ apply writes_bind_ret; solve [eauto with writes]
    | apply writes_bind; [solve [eauto with writes]|] ];
  try solve [eauto with writes].
Ltac solve_rspec :=
  repeat (eapply rspec_bind; [solve [eauto with rspec]|]; intros ? ?; cbv beta in *);
  try (apply rspec_ret).

(** ** From [writes] and [reads] to the entry points *)

Lemma encode_vec_writes {T} `{Encode T} (m : T) bs :
  writes (encode m) bs → enc_size m = len bs → encode_vec m = Ok bs.
Proof.
  intros Hw Hs. unfold encode_vec, write_new. rewrite Hs.
  specialize (Hw [] (replicate (Z.to_nat (len bs)) 0) []).
  rewrite !app_nil_r in Hw. cbn [app] in Hw. change (len (@nil Z)) with 0 in Hw.
  by rewrite Hw by (rewrite len_replicate; auto using len_nonneg).
Qed.

Lemma decode_reads {T} `{Decode T} bs (m : T) rest :
  reads decode_from bs m → decode (bs ++ rest) = Ok m.
Proof.
  intros Hd. unfold decode, read_new. specialize (Hd [] rest). cbn [app] in Hd.
  change (len (@nil Z)) with 0 in Hd. by rewrite Hd.
Qed.

(** ** Consequences of the interface *)

Section WireFormatFacts.
Context {T : Type} `{WireFormat T}.

(** [encode_vec] allocates exactly what the encoder writes. *)
Lemma encode_vec_wire m : wf m → encode_vec m = Ok (wire m).
Proof. intros Hm. apply encode_vec_writes; [by apply wire_encode|by apply wire_size]. Qed.

(** Bytes after the body are not looked at. *)
Lemma decode_wire m rest : wf m → decode (wire m ++ rest) = Ok m.
Proof. intros Hm. by apply decode_reads, wire_decode. Qed.

(** Decoding bytes never panics, and what it yields is well formed. *)
Lemma decode_total bytes :
  Forall u8 bytes →
  match decode bytes with Ok m => wf m | Err _ => True | Panic => False end.
Proof.
  intros Hu. unfold decode.
  assert (cursor_ok (read_new bytes)) as Hc.
  { unfold cursor_ok. cbn. pose proof (len_nonneg bytes). lia. }
  pose proof (wire_total (read_new bytes) Hc Hu) as Ht.
  by destruct (decode_from (read_new bytes)) as [[m c]|e|]; [apply Ht|..].
Qed.

(** Two well-formed values with the same layout prefix are equal. *)
Lemma wire_inj m1 m2 r1 r2 :
  wf m1 → wf m2 → wire m1 ++ r1 = wire m2 ++ r2 → m1 = m2.
Proof.
  intros W1 W2 E. pose proof (decode_wire m1 r1 W1) as D1.
  rewrite E, (decode_wire m2 r2 W2) in D1. congruence.
Qed.

End WireFormatFacts.

Lemma reads_of_wire {T} `{WireFormat T} (m : T) :
  wf m → reads decode_from (wire m) m.
Proof. apply wire_decode. Qed.
