(* ===== verification/Wire.v ===== *)
(** * Primitive encoders shared by every message body

    [crates/oxproto/src/wire.rs]: length-prefixed strings and blobs, booleans,
    signed integers and [u64], with the byte layout each one has on the wire
    ([docs/design/OXPROTO.md] section 6) and the lemmas the message codecs are
    built from. *)

From S2P Require Import Prelude Cursor.

(** ** The functions *)

Definition string_size (s : list Z) : Z := 2 + len s.

Definition write_string (s : list Z) (ctx : string) : writer unit :=
  n ← lift (ok_or (try_from_uint 16 (len s)) (FieldTooLarge ctx "string length"));
  write_u16_le n ctx;;
  write_slice s ctx.

Definition read_string (ctx : string) : reader (list Z) :=
  n ← read_u16_le ctx;
  bytes ← read_slice n ctx;
  if utf8_valid bytes then mret bytes
  else fail (InvalidField ctx "string" "not valid UTF-8").

Definition write_bool (value : bool) (ctx : string) : writer unit :=
  write_u8 (if value then 1 else 0) ctx.

Definition read_bool (ctx : string) : reader bool :=
  b ← read_u8 ctx; mret (negb (b =? 0)).

Definition write_blob (data : list Z) (ctx : string) : writer unit :=
  n ← lift (ok_or (try_from_uint 32 (len data)) (FieldTooLarge ctx "blob length"));
  write_u32_le n ctx;;
  write_slice data ctx.

Definition read_blob (ctx : string) : reader (list Z) :=
  n ← read_u32_le ctx;
  read_slice n ctx.

Definition write_i32 (v : Z) (ctx : string) : writer unit :=
  write_u32_le (as_uint 32 v) ctx.
Definition read_i32 (ctx : string) : reader Z :=
  v ← read_u32_le ctx; mret (as_sint 32 v).

Definition write_i16 (v : Z) (ctx : string) : writer unit :=
  write_u16_le (as_uint 16 v) ctx.
Definition read_i16 (ctx : string) : reader Z :=
  v ← read_u16_le ctx; mret (as_sint 16 v).

Definition write_u64 (v : Z) (ctx : string) : writer unit :=
  write_u32_le (as_uint 32 (Z.land v 0xFFFFFFFF)) ctx;;
  write_u32_le (as_uint 32 (Z.shiftr v 32)) ctx.
Definition read_u64 (ctx : string) : reader Z :=
  lo ← read_u32_le ctx;
  hi ← read_u32_le ctx;
  mret (Z.lor (Z.shiftl hi 32) lo).

(** ** Their layout *)

(** A [String] short enough for its [u16] prefix, and its bytes. *)
Definition str_ok (s : list Z) : Prop := utf8_valid s = true ∧ len s < 65536.
Definition string_wire (s : list Z) : list Z := le_bytes 2 (len s) ++ s.

(** A blob short enough for its [u32] prefix, and its bytes. *)
Definition blob_ok (d : list Z) : Prop := Forall u8 d ∧ u32 (len d).
Definition blob_wire (d : list Z) : list Z := le_bytes 4 (len d) ++ d.

Definition bool_wire (b : bool) : list Z := [if b then 1 else 0].
Definition i32_wire (v : Z) : list Z := le_bytes 4 (as_uint 32 v).
Definition i16_wire (v : Z) : list Z := le_bytes 2 (as_uint 16 v).
Definition u64_wire (v : Z) : list Z := le_bytes 8 v.

Arguments string_wire : simpl never.
Arguments blob_wire : simpl never.
Arguments bool_wire : simpl never.
Arguments i32_wire : simpl never.
Arguments i16_wire : simpl never.
Arguments u64_wire : simpl never.

(** ** Strings and blobs *)

Lemma try_from_uint_ok w x : is_uint w x → try_from_uint w x = Some x.
Proof.
  intros [? ?]. unfold try_from_uint.
  replace (0 <=? x) with true by lia. by replace (x <? 2 ^ w) with true by lia.
Qed.

Lemma try_from_uint_none w x : 2 ^ w ≤ x → try_from_uint w x = None.
Proof.
  intros. unfold try_from_uint. replace (x <? 2 ^ w) with false by lia.
  by rewrite andb_false_r.
Qed.

Lemma str_len_u16 s : str_ok s → u16 (len s).
Proof. intros [_ ?]. pose proof (len_nonneg s). len_lia. Qed.

Lemma writes_lift {A} (m : outcome EncodeError A) a (f : A → writer unit) bs :
  m = Ok a → writes (f a) bs → writes (lift m ≫= f) bs.
Proof. intros -> Hw pre old post Hl. unfold mbind, stm_bind, lift. by apply Hw. Qed.

Lemma writes_string s ctx : len s < 65536 → writes (write_string s ctx) (string_wire s).
Proof.
  intros. eapply writes_lift.
  { rewrite try_from_uint_ok; [done|]. pose proof (len_nonneg s). len_lia. }
  apply writes_bind; eauto with writes.
Qed.

Lemma reads_string s ctx : str_ok s → reads (read_string ctx) (string_wire s) s.
Proof.
  intros Hs. pose proof (str_len_u16 s Hs). destruct Hs as [Hv _].
  eapply reads_bind; [by apply reads_u16_le|].
  rewrite <- (app_nil_r s). eapply reads_bind; [by apply reads_slice; rewrite app_nil_r|].
  rewrite app_nil_r, Hv. apply reads_ret.
Qed.

Lemma rspec_string ctx : rspec (read_string ctx) str_ok.
Proof.
  eapply rspec_bind; [apply rspec_u16_le|]. intros n Hn.
  eapply rspec_bind; [apply rspec_slice; apply Hn|]. cbn. intros bs [Hl Hu].
  destruct (utf8_valid bs) eqn:E; [|apply rspec_fail].
  apply rspec_ret. split; [done|]. len_lia.
Qed.

Lemma writes_blob d ctx : u32 (len d) → writes (write_blob d ctx) (blob_wire d).
Proof.
  intros. eapply writes_lift; [by rewrite try_from_uint_ok|].
  apply writes_bind; eauto with writes.
Qed.

Lemma reads_blob d ctx : blob_ok d → reads (read_blob ctx) (blob_wire d) d.
Proof.
  intros [_ Hl]. eapply reads_bind; [by apply reads_u32_le|]. by apply reads_slice.
Qed.

Lemma rspec_blob ctx : rspec (read_blob ctx) blob_ok.
Proof.
  eapply rspec_bind; [apply rspec_u32_le|]. intros n Hn.
  eapply rspec_mono; [apply rspec_slice; apply Hn|]. cbn. intros bs [Hl Hu].
  split; [done|]. by rewrite Hl.
Qed.

(** ** Scalars *)

Lemma writes_bool b ctx : writes (write_bool b ctx) (bool_wire b).
Proof. apply writes_u8. Qed.

Lemma reads_bool b ctx : reads (read_bool ctx) (bool_wire b) b.
Proof.
  unfold read_bool. replace b with (negb ((if b then 1 else 0) =? 0)) at 2 by (by destruct b).
  apply (reads_bind_ret _ (λ x, negb (x =? 0))). apply reads_u8.
Qed.

Lemma rspec_bool ctx : rspec (read_bool ctx) (λ _, True).
Proof. eapply rspec_bind; [apply rspec_u8|]. intros. by apply rspec_ret. Qed.

Lemma writes_i32 v ctx : writes (write_i32 v ctx) (i32_wire v).
Proof. apply writes_u32_le. Qed.

Lemma reads_i32 v ctx : i32 v → reads (read_i32 ctx) (i32_wire v) v.
Proof.
  intros. rewrite <- (as_sint_as_uint 32 v) at 2 by done.
  apply reads_bind_ret, reads_u32_le. auto with width.
Qed.

Lemma rspec_i32 ctx : rspec (read_i32 ctx) i32.
Proof.
  eapply rspec_bind; [apply rspec_u32_le|]. intros. apply rspec_ret. auto with width.
Qed.

Lemma writes_i16 v ctx : writes (write_i16 v ctx) (i16_wire v).
Proof. apply writes_u16_le. Qed.

Lemma reads_i16 v ctx : i16 v → reads (read_i16 ctx) (i16_wire v) v.
Proof.
  intros. rewrite <- (as_sint_as_uint 16 v) at 2 by done.
  apply reads_bind_ret, reads_u16_le. auto with width.
Qed.

Lemma rspec_i16 ctx : rspec (read_i16 ctx) i16.
Proof.
  eapply rspec_bind; [apply rspec_u16_le|]. intros. apply rspec_ret. auto with width.
Qed.

(** The two [u32] halves are the eight little-endian bytes. *)
Lemma u64_wire_halves v :
  u64 v →
  u64_wire v = le_bytes 4 (as_uint 32 (Z.land v 0xFFFFFFFF)) ++
               le_bytes 4 (as_uint 32 (Z.shiftr v 32)).
Proof.
  intros [? ?]. unfold u64_wire, as_uint. rewrite (le_bytes_app 4 4).
  change 0xFFFFFFFF with (Z.ones 32). rewrite Z.land_ones, Z.shiftr_div_pow2 by lia.
  rewrite Z.mod_mod by lia.
  rewrite <- (le_bytes_mod 4 v), <- (le_bytes_mod 4 (v / _)). done.
Qed.

Lemma u64_join v :
  u64 v →
  Z.lor (Z.shiftl (as_uint 32 (Z.shiftr v 32)) 32) (as_uint 32 (Z.land v 0xFFFFFFFF)) = v.
Proof.
  intros [? ?]. unfold as_uint. change 0xFFFFFFFF with (Z.ones 32).
  rewrite Z.land_ones, Z.shiftr_div_pow2, Z.mod_mod by lia.
  rewrite lor_shiftl_add by (try apply Z.mod_pos_bound; lia).
  rewrite (Z.mod_small (v / 2 ^ 32)).
  - rewrite (Z.div_mod v (2 ^ 32)) at 3 by lia. lia.
  - split; [by apply Z.div_pos|]. apply Z.div_lt_upper_bound; lia.
Qed.

Lemma writes_u64 v ctx : u64 v → writes (write_u64 v ctx) (u64_wire v).
Proof.
  intros. rewrite u64_wire_halves by done. apply writes_bind; apply writes_u32_le.
Qed.

Lemma reads_u64 v ctx : u64 v → reads (read_u64 ctx) (u64_wire v) v.
Proof.
  intros. rewrite u64_wire_halves by done.
  eapply reads_bind; [apply reads_u32_le; auto with width|].
  rewrite <- (u64_join v) at 2 by done.
  apply (reads_bind_ret _ (λ hi, Z.lor (Z.shiftl hi 32) _)).
  apply reads_u32_le. auto with width.
Qed.

Lemma rspec_u64 ctx : rspec (read_u64 ctx) u64.
Proof.
  eapply rspec_bind; [apply rspec_u32_le|]. intros lo Hlo.
  eapply rspec_bind; [apply rspec_u32_le|]. intros hi Hhi.
  apply rspec_ret. rewrite lor_shiftl_add by (try apply Hlo; lia). len_lia.
Qed.

#[export] Hint Resolve reads_string reads_blob reads_bool reads_i32 reads_i16 reads_u64 : reads.
#[export] Hint Resolve writes_string writes_blob writes_bool writes_i32 writes_i16 writes_u64 : writes.
#[export] Hint Resolve rspec_string rspec_blob rspec_bool rspec_i32 rspec_i16 rspec_u64 : rspec.

(** ** Lengths and byte ranges of the layouts *)

Lemma len_string_wire s : len (string_wire s) = 2 + len s.
Proof. unfold string_wire. by autorewrite with len. Qed.
Lemma len_blob_wire d : len (blob_wire d) = 4 + len d.
Proof. unfold blob_wire. by autorewrite with len. Qed.
Lemma len_bool_wire b : len (bool_wire b) = 1.
Proof. done. Qed.
Lemma len_i32_wire v : len (i32_wire v) = 4.
Proof. done. Qed.
Lemma len_i16_wire v : len (i16_wire v) = 2.
Proof. done. Qed.
Lemma len_u64_wire v : len (u64_wire v) = 8.
Proof. done. Qed.

#[export] Hint Rewrite len_string_wire len_blob_wire len_bool_wire len_i32_wire
  len_i16_wire len_u64_wire : len.

Lemma string_wire_u8 s : str_ok s → Forall u8 (string_wire s).
Proof. intros [? _]. apply Forall_app; auto with width. Qed.
Lemma blob_wire_u8 d : blob_ok d → Forall u8 (blob_wire d).
Proof. intros [? _]. apply Forall_app; auto with width. Qed.
Lemma bool_wire_u8 b : Forall u8 (bool_wire b).
Proof. destruct b; repeat constructor; len_lia. Qed.
Lemma i32_wire_u8 v : Forall u8 (i32_wire v).
Proof. apply le_bytes_u8. Qed.
Lemma i16_wire_u8 v : Forall u8 (i16_wire v).
Proof. apply le_bytes_u8. Qed.
Lemma u64_wire_u8 v : Forall u8 (u64_wire v).
Proof. apply le_bytes_u8. Qed.
Lemma byte_wire_u8 x : u8 x → Forall u8 [x].
Proof. constructor; [done|constructor]. Qed.

#[export] Hint Resolve string_wire_u8 blob_wire_u8 bool_wire_u8 i32_wire_u8 i16_wire_u8
  u64_wire_u8 byte_wire_u8 : width.

(** [Forall u8] of a concatenated layout, field by field. *)
Ltac solve_bytes := rewrite ?Forall_app; split_and?; eauto with width.

(** ** Error branches *)

(** A string longer than its [u16] prefix can say is refused, not truncated. *)
Lemma write_string_too_long s ctx c :
  65536 ≤ len s → write_string s ctx c = Err (FieldTooLarge ctx "string length").
Proof.
  intros. unfold write_string, mbind, stm_bind, lift.
  by rewrite try_from_uint_none by (simpl_pow; lia).
Qed.

Lemma write_blob_too_long d ctx c :
  2 ^ 32 ≤ len d → write_blob d ctx c = Err (FieldTooLarge ctx "blob length").
Proof.
  intros. unfold write_blob, mbind, stm_bind, lift. by rewrite try_from_uint_none.
Qed.

(** ** Automation for message codecs

    [codec] collects the definitions a codec is made of; the tactics below
    prove the five laws of [WireFormat] for a record codec. *)
Lemma str_ok_len s : str_ok s → len s < 65536.
Proof. by intros [_ ?]. Qed.
Lemma blob_ok_len d : blob_ok d → u32 (len d).
Proof. by intros [_ ?]. Qed.

#[export] Hint Resolve str_ok_len blob_ok_len : writes.

Create HintDb codec.
#[export] Hint Unfold enc_size encode decode_from string_size : codec.

Ltac codec_unfold := autounfold with codec in *; cbv beta iota in *; destruct_and?.

Ltac codec_law :=
  match goal with
  | |- ∀ m, _ → enc_size m = _ =>
    let H := fresh in intros [] H; codec_unfold; autorewrite with len; lia
  | |- ∀ m, _ → writes _ _ =>
    let H := fresh in intros [] H; codec_unfold; solve_writes
  | |- ∀ m, _ → reads _ _ _ =>
    let H := fresh in intros [] H; codec_unfold; solve_reads
  | |- ∀ m, _ → Forall u8 _ =>
    let H := fresh in intros [] H; codec_unfold; solve_bytes
  | |- rspec _ _ => codec_unfold; solve_rspec; codec_unfold; split_and?; auto
  end.
