(* ===== verification/MsgType.v ===== *)
(** * The registries of the protocol

    The constants of [crates/oxproto/src/message/mod.rs]: message type codes,
    feature bits, codec ids, error codes and close reasons
    ([docs/design/OXPROTO.md] sections 5, 8, 9 and 15). *)

From S2P Require Import Prelude.

Module msg_type.
Definition CLIENT_HELLO : Z := 0x01.
Definition SERVER_HELLO : Z := 0x02.
Definition ERROR : Z := 0x03.
Definition CLOSE : Z := 0x04.
Definition PING : Z := 0x05.
Definition PONG : Z := 0x06.
Definition QUALITY_HINT : Z := 0x07.
Definition DISPLAY_LAYOUT : Z := 0x08.
Definition WINDOW_OPENED : Z := 0x10.
Definition WINDOW_CLOSED : Z := 0x11.
Definition WINDOW_GEOMETRY : Z := 0x12.
Definition WINDOW_TITLE : Z := 0x13.
Definition WINDOW_STATE : Z := 0x14.
Definition WINDOW_ZORDER : Z := 0x15.
Definition WINDOW_ICON : Z := 0x16.
Definition FRAME_DATA : Z := 0x20.
Definition FRAME_ACK : Z := 0x21.
Definition POINTER_EVENT : Z := 0x30.
Definition KEY_EVENT : Z := 0x31.
Definition TEXT_INPUT : Z := 0x32.
Definition MODIFIER_SYNC : Z := 0x33.
Definition WINDOW_CONTROL : Z := 0x38.
Definition CURSOR_SHAPE : Z := 0x40.
Definition CURSOR_POSITION : Z := 0x41.
Definition CURSOR_VISIBILITY : Z := 0x42.
End msg_type.

Definition PROTOCOL_VERSION : Z := 1.
Definition MIN_SUPPORTED_VERSION : Z := 1.

Module feature.
Definition CURSOR_STREAM : Z := Z.shiftl 1 0.
Definition FRAME_ACK : Z := Z.shiftl 1 1.
Definition DAMAGE_RECTS : Z := Z.shiftl 1 2.
Definition WINDOW_CONTROL : Z := Z.shiftl 1 3.
Definition TEXT_INPUT : Z := Z.shiftl 1 4.
Definition ICONS : Z := Z.shiftl 1 5.
Definition AUDIO : Z := Z.shiftl 1 6.
Definition CLIPBOARD : Z := Z.shiftl 1 7.
Definition SUPPORTED : Z :=
  Z.lor (Z.lor (Z.lor (Z.lor CURSOR_STREAM FRAME_ACK) WINDOW_CONTROL) TEXT_INPUT) ICONS.
End feature.

Module codec.
Definition RAW_BGRA : Z := 1.
Definition H264 : Z := 2.
Definition H265 : Z := 3.
Definition AV1 : Z := 4.
End codec.

Module error_code.
Definition PROTOCOL : Z := 1.
Definition AUTH_FAILED : Z := 2.
Definition VERSION_MISMATCH : Z := 3.
Definition UNSUPPORTED_CODEC : Z := 4.
Definition WINDOW_GONE : Z := 5.
Definition CAPTURE_FAILED : Z := 6.
Definition INTERNAL : Z := 7.
Definition TOO_LARGE : Z := 8.
Definition SESSION_BUSY : Z := 9.
End error_code.

Module close_reason.
Definition NORMAL : Z := 0.
Definition GOING_AWAY : Z := 1.
Definition IDLE_TIMEOUT : Z := 2.
Definition ERROR : Z := 3.
End close_reason.
