(* ===== verification/MsgControl.v ===== *)
(** * Handshake and control-channel messages

    [crates/oxproto/src/message/control.rs].  Each message is a record with its
    size, encoder and decoder, the widths of its fields and its byte layout
    ([docs/design/OXPROTO.md] sections 7, 10, 12 and 15). *)

From S2P Require Import Prelude Cursor Wire.

(** ** [Output] *)

Record Output : Type := mkOutput {
  output_id : Z;
  output_x : Z;
  output_y : Z;
  output_width : Z;
  output_height : Z;
  output_scale_num : Z;
  output_scale_den : Z;
  output_refresh_mhz : Z
}.

Definition Output_size (_ : Output) : Z := 1 + 4 + 4 + 2 + 2 + 2 + 2 + 4.

Definition Output_encode (m : Output) : writer unit :=
  write_u8 (output_id m) "Output.id";;
  write_i32 (output_x m) "Output.x";;
  write_i32 (output_y m) "Output.y";;
  write_u16_le (output_width m) "Output.width";;
  write_u16_le (output_height m) "Output.height";;
  write_u16_le (output_scale_num m) "Output.scale_num";;
  write_u16_le (output_scale_den m) "Output.scale_den";;
  write_u32_le (output_refresh_mhz m) "Output.refresh_mhz";;
  mret tt.

Definition Output_decode : reader Output :=
  id ← read_u8 "Output.id";
  x ← read_i32 "Output.x";
  y ← read_i32 "Output.y";
  width ← read_u16_le "Output.width";
  height ← read_u16_le "Output.height";
  scale_num ← read_u16_le "Output.scale_num";
  scale_den ← read_u16_le "Output.scale_den";
  refresh_mhz ← read_u32_le "Output.refresh_mhz";
  mret (mkOutput id x y width height scale_num scale_den refresh_mhz).

#[export] Instance Output_Encode : Encode Output :=
  {| enc_size := Output_size; encode := Output_encode |}.
#[export] Instance Output_Decode : Decode Output := Output_decode.

Definition Output_wf (m : Output) : Prop :=
  u8 (output_id m) ∧ i32 (output_x m) ∧ i32 (output_y m) ∧
  u16 (output_width m) ∧ u16 (output_height m) ∧
  u16 (output_scale_num m) ∧ u16 (output_scale_den m) ∧
  u32 (output_refresh_mhz m).

Definition Output_wire (m : Output) : list Z :=
  [output_id m] ++ i32_wire (output_x m) ++ i32_wire (output_y m) ++
  le_bytes 2 (output_width m) ++ le_bytes 2 (output_height m) ++
  le_bytes 2 (output_scale_num m) ++ le_bytes 2 (output_scale_den m) ++
  le_bytes 4 (output_refresh_mhz m).

Arguments Output_wire : simpl never.

#[export] Hint Unfold Output_size Output_encode Output_decode Output_Encode Output_Decode
  Output_wf Output_wire output_id output_x output_y output_width output_height
  output_scale_num output_scale_den output_refresh_mhz : codec.

#[export, refine] Instance Output_WireFormat : WireFormat Output :=
  {| wf := Output_wf; wire := Output_wire |}.
Proof. all: codec_law. Defined.

(** ** [DisplayLayout] *)

Record DisplayLayout : Type := mkDisplayLayout { layout_outputs : list Output }.

Definition DisplayLayout_size (m : DisplayLayout) : Z := 1 + len (layout_outputs m) * 21.

(** [u8::try_from(n).unwrap_or(u8::MAX)] *)
Definition count_u8 (n : Z) : Z := default 255 (try_from_uint 8 n).

Definition DisplayLayout_encode (m : DisplayLayout) : writer unit :=
  write_u8 (count_u8 (len (layout_outputs m))) "DisplayLayout.outputs_count";;
  write_each encode (layout_outputs m);;
  mret tt.

Definition DisplayLayout_decode : reader DisplayLayout :=
  count ← read_u8 "DisplayLayout.outputs_count";
  outputs ← read_times (Z.to_nat count) decode_from;
  mret (mkDisplayLayout outputs).

#[export] Instance DisplayLayout_Encode : Encode DisplayLayout :=
  {| enc_size := DisplayLayout_size; encode := DisplayLayout_encode |}.
#[export] Instance DisplayLayout_Decode : Decode DisplayLayout := DisplayLayout_decode.

Definition DisplayLayout_wf (m : DisplayLayout) : Prop :=
  u8 (len (layout_outputs m)) ∧ Forall Output_wf (layout_outputs m).

Definition DisplayLayout_wire (m : DisplayLayout) : list Z :=
  [len (layout_outputs m)] ++ concat (map Output_wire (layout_outputs m)).

Lemma count_u8_small n : u8 n → count_u8 n = n.
Proof. intros. unfold count_u8. by rewrite try_from_uint_ok. Qed.

Lemma len_outputs_wire os : len (concat (map Output_wire os)) = len os * 21.
Proof.
  induction os as [|o os IH]; [done|].
  cbn [map concat]. rewrite len_app, IH, len_cons. unfold Output_wire. autorewrite with len. lia.
Qed.

Lemma outputs_writes os :
  Forall Output_wf os → writes (write_each encode os) (concat (map Output_wire os)).
Proof.
  intros H. apply writes_each. eapply Forall_impl; [exact H|]. intros o. exact (wire_encode o).
Qed.

Lemma outputs_reads os n :
  n = length os → Forall Output_wf os →
  reads (read_times n decode_from) (concat (map Output_wire os)) os.
Proof.
  intros Hn H. apply reads_times; [done|].
  eapply Forall_impl; [exact H|]. intros o. exact (wire_decode o).
Qed.

Lemma outputs_u8 os : Forall Output_wf os → Forall u8 (concat (map Output_wire os)).
Proof.
  induction 1 as [|o os Ho Hos IH]; cbn; [constructor|].
  apply Forall_app_2; [exact (wire_bytes o Ho)|done].
Qed.

Lemma rspec_u8_count {B} (n : Z) (r : reader B) (P : B → Prop) :
  u8 n → rspec r P →
  rspec (read_times (Z.to_nat n) r) (λ xs, len xs = n ∧ Forall P xs).
Proof.
  intros Hn Hr. eapply rspec_mono; [by apply rspec_times|]. intros xs [Hl ?].
  split; [len_lia|done].
Qed.

#[export, refine] Instance DisplayLayout_WireFormat : WireFormat DisplayLayout :=
  {| wf := DisplayLayout_wf; wire := DisplayLayout_wire |}.
Proof.
  - intros [os] [Hn Hos]. unfold DisplayLayout_wire. rewrite len_app, len_outputs_wire.
    change (enc_size _) with (1 + len os * 21). done.
  - intros [os] [Hn Hos]. change (encode _) with (DisplayLayout_encode (mkDisplayLayout os)).
    unfold DisplayLayout_encode. rewrite count_u8_small by done.
    apply writes_bind; [apply writes_u8|]. by apply writes_bind_ret, outputs_writes.
  - intros [os] [Hn Hos]. eapply reads_bind; [apply reads_u8|].
    apply (reads_bind_ret _ mkDisplayLayout), outputs_reads; [cbn; len_lia|done].
  - intros [os] [Hn Hos]. apply Forall_app_2; [by apply byte_wire_u8|by apply outputs_u8].
  - eapply rspec_bind; [apply rspec_u8|]. intros n Hn.
    eapply rspec_bind; [apply rspec_u8_count, wire_total; done|]. intros os [Hl Hos].
    apply rspec_ret. split; [cbn; by rewrite Hl|done].
Defined.

(** ** [ClientHello] *)

Record ClientHello : Type := mkClientHello {
  ch_version_min : Z;
  ch_version_max : Z;
  ch_features : Z;
  ch_auth_token : list Z;
  ch_client_name : list Z;
  ch_codecs : list Z;
  ch_display : DisplayLayout
}.

Definition ClientHello_size (m : ClientHello) : Z :=
  2 + 2 + 8 + string_size (ch_auth_token m) + string_size (ch_client_name m) +
  1 + len (ch_codecs m) + enc_size (ch_display m).

Definition ClientHello_encode (m : ClientHello) : writer unit :=
  write_u16_le (ch_version_min m) "ClientHello.version_min";;
  write_u16_le (ch_version_max m) "ClientHello.version_max";;
  write_u64 (ch_features m) "ClientHello.features";;
  write_string (ch_auth_token m) "ClientHello.auth_token";;
  write_string (ch_client_name m) "ClientHello.client_name";;
  write_u8 (count_u8 (len (ch_codecs m))) "ClientHello.codecs_count";;
  write_each (λ codec, write_u8 codec "ClientHello.codecs") (ch_codecs m);;
  encode (ch_display m);;
  mret tt.

Definition ClientHello_decode : reader ClientHello :=
  version_min ← read_u16_le "ClientHello.version_min";
  version_max ← read_u16_le "ClientHello.version_max";
  features ← read_u64 "ClientHello.features";
  auth_token ← read_string "ClientHello.auth_token";
  client_name ← read_string "ClientHello.client_name";
  count ← read_u8 "ClientHello.codecs_count";
  codecs ← read_times (Z.to_nat count) (read_u8 "ClientHello.codecs");
  display ← decode_from;
  mret (mkClientHello version_min version_max features auth_token client_name
          codecs display).

#[export] Instance ClientHello_Encode : Encode ClientHello :=
  {| enc_size := ClientHello_size; encode := ClientHello_encode |}.
#[export] Instance ClientHello_Decode : Decode ClientHello := ClientHello_decode.

Definition ClientHello_wf (m : ClientHello) : Prop :=
  u16 (ch_version_min m) ∧ u16 (ch_version_max m) ∧ u64 (ch_features m) ∧
  str_ok (ch_auth_token m) ∧ str_ok (ch_client_name m) ∧
  (u8 (len (ch_codecs m)) ∧ Forall u8 (ch_codecs m)) ∧ DisplayLayout_wf (ch_display m).

Definition ClientHello_wire (m : ClientHello) : list Z :=
  le_bytes 2 (ch_version_min m) ++ le_bytes 2 (ch_version_max m) ++
  u64_wire (ch_features m) ++ string_wire (ch_auth_token m) ++
  string_wire (ch_client_name m) ++ [len (ch_codecs m)] ++ ch_codecs m ++
  DisplayLayout_wire (ch_display m).

Lemma concat_singletons (xs : list Z) : concat (map (λ x, [x]) xs) = xs.
Proof. induction xs; cbn; by f_equal. Qed.

Lemma writes_bytes xs ctx : writes (write_each (λ x, write_u8 x ctx) xs) xs.
Proof.
  rewrite <- (concat_singletons xs) at 2. apply writes_each, Forall_true.
  intros. apply writes_u8.
Qed.

Lemma reads_bytes xs n ctx : n = length xs → reads (read_times n (read_u8 ctx)) xs xs.
Proof.
  intros. rewrite <- (concat_singletons xs) at 1. apply reads_times; [done|].
  apply Forall_true. intros. apply reads_u8.
Qed.

#[export, refine] Instance ClientHello_WireFormat : WireFormat ClientHello :=
  {| wf := ClientHello_wf; wire := ClientHello_wire |}.
Proof.
  - intros m (_ & _ & _ & _ & _ & _ & Hd). unfold ClientHello_wire. autorewrite with len.
    change (DisplayLayout_wire ?d) with (wire d). rewrite <- (wire_size (T:=DisplayLayout)) by exact Hd.
    change (enc_size m) with (ClientHello_size m). unfold ClientHello_size, string_size. lia.
  - intros m (? & ? & ? & ? & ? & [Hn ?] & Hd).
    change (encode m) with (ClientHello_encode m). unfold ClientHello_encode.
    rewrite count_u8_small by done.
    repeat (apply writes_bind; [by eauto using writes_bytes with writes|]).
    apply writes_bind_ret. exact (wire_encode (T:=DisplayLayout) _ Hd).
  - intros [vmin vmax f tok nm cs d] (? & ? & ? & ? & ? & [Hn ?] & Hd).
    change decode_from with ClientHello_decode.
    do 6 (eapply reads_bind; [by eauto with reads|]).
    eapply reads_bind; [apply reads_bytes; cbn; len_lia|].
    eapply (reads_bind_ret _ (mkClientHello vmin vmax f tok nm cs)).
    exact (wire_decode (T:=DisplayLayout) d Hd).
  - intros m (? & ? & ? & ? & ? & [Hn ?] & Hd). unfold ClientHello_wire.
    rewrite !Forall_app. split_and!; auto with width. exact (wire_bytes (T:=DisplayLayout) _ Hd).
  - change decode_from with ClientHello_decode. unfold ClientHello_decode.
    do 6 (eapply rspec_bind; [solve [eauto with rspec]|]; intros ? ?).
    eapply rspec_bind; [apply rspec_u8_count; [done|apply rspec_u8]|]. intros cs [Hl Hcs].
    eapply rspec_bind; [apply wire_total|]. intros d Hd.
    apply rspec_ret. unfold ClientHello_wf. cbn. rewrite Hl. auto 10.
Defined.

(** ** [ServerHello] *)

Record ServerHello : Type := mkServerHello {
  sh_version : Z;
  sh_features : Z;
  sh_session_id : Z;
  sh_codec : Z
}.

Definition ServerHello_size (_ : ServerHello) : Z :=
  2 + 8 + 8 + 1.

Definition ServerHello_encode (m : ServerHello) : writer unit :=
  write_u16_le (sh_version m) "ServerHello.version";;
  write_u64 (sh_features m) "ServerHello.features";;
  write_u64 (sh_session_id m) "ServerHello.session_id";;
  write_u8 (sh_codec m) "ServerHello.codec";;
  mret tt.

Definition ServerHello_decode : reader ServerHello :=
  version ← read_u16_le "ServerHello.version";
  features ← read_u64 "ServerHello.features";
  session_id ← read_u64 "ServerHello.session_id";
  codec ← read_u8 "ServerHello.codec";
  mret (mkServerHello version features session_id codec).

#[export] Instance ServerHello_Encode : Encode ServerHello :=
  {| enc_size := ServerHello_size; encode := ServerHello_encode |}.
#[export] Instance ServerHello_Decode : Decode ServerHello := ServerHello_decode.

Definition ServerHello_wf (m : ServerHello) : Prop :=
  u16 (sh_version m) ∧ u64 (sh_features m) ∧ u64 (sh_session_id m) ∧
  u8 (sh_codec m).

Definition ServerHello_wire (m : ServerHello) : list Z :=
  le_bytes 2 (sh_version m) ++ u64_wire (sh_features m) ++
  u64_wire (sh_session_id m) ++ [sh_codec m].

#[export] Hint Unfold ServerHello_size ServerHello_encode ServerHello_decode ServerHello_Encode
  ServerHello_Decode ServerHello_wf ServerHello_wire sh_version sh_features
  sh_session_id sh_codec : codec.

#[export, refine] Instance ServerHello_WireFormat : WireFormat ServerHello :=
  {| wf := ServerHello_wf; wire := ServerHello_wire |}.
Proof. all: codec_law. Defined.

(** ** [Error] *)

Record Error : Type := mkError {
  err_code : Z;
  err_message : list Z
}.

Definition Error_size (m : Error) : Z :=
  2 + string_size (err_message m).

Definition Error_encode (m : Error) : writer unit :=
  write_u16_le (err_code m) "Error.code";;
  write_string (err_message m) "Error.message";;
  mret tt.

Definition Error_decode : reader Error :=
  code ← read_u16_le "Error.code";
  message ← read_string "Error.message";
  mret (mkError code message).

#[export] Instance Error_Encode : Encode Error :=
  {| enc_size := Error_size; encode := Error_encode |}.
#[export] Instance Error_Decode : Decode Error := Error_decode.

Definition Error_wf (m : Error) : Prop :=
  u16 (err_code m) ∧ str_ok (err_message m).

Definition Error_wire (m : Error) : list Z :=
  le_bytes 2 (err_code m) ++ string_wire (err_message m).

#[export] Hint Unfold Error_size Error_encode Error_decode Error_Encode Error_Decode Error_wf
  Error_wire err_code err_message : codec.

#[export, refine] Instance Error_WireFormat : WireFormat Error :=
  {| wf := Error_wf; wire := Error_wire |}.
Proof. all: codec_law. Defined.

(** ** [Close] *)

Record Close : Type := mkClose {
  close_reason : Z
}.

Definition Close_size (_ : Close) : Z :=
  2.

Definition Close_encode (m : Close) : writer unit :=
  write_u16_le (close_reason m) "Close.reason";;
  mret tt.

Definition Close_decode : reader Close :=
  reason ← read_u16_le "Close.reason";
  mret (mkClose reason).

#[export] Instance Close_Encode : Encode Close :=
  {| enc_size := Close_size; encode := Close_encode |}.
#[export] Instance Close_Decode : Decode Close := Close_decode.

Definition Close_wf (m : Close) : Prop :=
  u16 (close_reason m).

Definition Close_wire (m : Close) : list Z :=
  le_bytes 2 (close_reason m).

#[export] Hint Unfold Close_size Close_encode Close_decode Close_Encode Close_Decode Close_wf
  Close_wire close_reason : codec.

#[export, refine] Instance Close_WireFormat : WireFormat Close :=
  {| wf := Close_wf; wire := Close_wire |}.
Proof. all: codec_law. Defined.

(** ** [Ping] *)

Record Ping : Type := mkPing {
  ping_seq : Z;
  ping_sent_us : Z
}.

Definition Ping_size (_ : Ping) : Z :=
  4 + 8.

Definition Ping_encode (m : Ping) : writer unit :=
  write_u32_le (ping_seq m) "Ping.seq";;
  write_u64 (ping_sent_us m) "Ping.sent_us";;
  mret tt.

Definition Ping_decode : reader Ping :=
  seq ← read_u32_le "Ping.seq";
  sent_us ← read_u64 "Ping.sent_us";
  mret (mkPing seq sent_us).

#[export] Instance Ping_Encode : Encode Ping :=
  {| enc_size := Ping_size; encode := Ping_encode |}.
#[export] Instance Ping_Decode : Decode Ping := Ping_decode.

Definition Ping_wf (m : Ping) : Prop :=
  u32 (ping_seq m) ∧ u64 (ping_sent_us m).

Definition Ping_wire (m : Ping) : list Z :=
  le_bytes 4 (ping_seq m) ++ u64_wire (ping_sent_us m).

#[export] Hint Unfold Ping_size Ping_encode Ping_decode Ping_Encode Ping_Decode Ping_wf Ping_wire
  ping_seq ping_sent_us : codec.

#[export, refine] Instance Ping_WireFormat : WireFormat Ping :=
  {| wf := Ping_wf; wire := Ping_wire |}.
Proof. all: codec_law. Defined.

(** ** [Pong] *)

Record Pong : Type := mkPong {
  pong_seq : Z;
  pong_sent_us : Z;
  pong_agent_us : Z
}.

Definition Pong_size (_ : Pong) : Z :=
  4 + 8 + 8.

Definition Pong_encode (m : Pong) : writer unit :=
  write_u32_le (pong_seq m) "Pong.seq";;
  write_u64 (pong_sent_us m) "Pong.sent_us";;
  write_u64 (pong_agent_us m) "Pong.agent_us";;
  mret tt.

Definition Pong_decode : reader Pong :=
  seq ← read_u32_le "Pong.seq";
  sent_us ← read_u64 "Pong.sent_us";
  agent_us ← read_u64 "Pong.agent_us";
  mret (mkPong seq sent_us agent_us).

#[export] Instance Pong_Encode : Encode Pong :=
  {| enc_size := Pong_size; encode := Pong_encode |}.
#[export] Instance Pong_Decode : Decode Pong := Pong_decode.

Definition Pong_wf (m : Pong) : Prop :=
  u32 (pong_seq m) ∧ u64 (pong_sent_us m) ∧ u64 (pong_agent_us m).

Definition Pong_wire (m : Pong) : list Z :=
  le_bytes 4 (pong_seq m) ++ u64_wire (pong_sent_us m) ++
  u64_wire (pong_agent_us m).

#[export] Hint Unfold Pong_size Pong_encode Pong_decode Pong_Encode Pong_Decode Pong_wf Pong_wire
  pong_seq pong_sent_us pong_agent_us : codec.

#[export, refine] Instance Pong_WireFormat : WireFormat Pong :=
  {| wf := Pong_wf; wire := Pong_wire |}.
Proof. all: codec_law. Defined.

(** ** [QualityHint] *)

Record QualityHint : Type := mkQualityHint {
  qh_window_id : Z;
  qh_target_fps : Z;
  qh_max_bitrate_kbps : Z;
  qh_flags : Z
}.

Definition QualityHint_size (_ : QualityHint) : Z :=
  4 + 2 + 4 + 1.

Definition QualityHint_encode (m : QualityHint) : writer unit :=
  write_u32_le (qh_window_id m) "QualityHint.window_id";;
  write_u16_le (qh_target_fps m) "QualityHint.target_fps";;
  write_u32_le (qh_max_bitrate_kbps m) "QualityHint.max_bitrate_kbps";;
  write_u8 (qh_flags m) "QualityHint.flags";;
  mret tt.

Definition QualityHint_decode : reader QualityHint :=
  window_id ← read_u32_le "QualityHint.window_id";
  target_fps ← read_u16_le "QualityHint.target_fps";
  max_bitrate_kbps ← read_u32_le "QualityHint.max_bitrate_kbps";
  flags ← read_u8 "QualityHint.flags";
  mret (mkQualityHint window_id target_fps max_bitrate_kbps flags).

#[export] Instance QualityHint_Encode : Encode QualityHint :=
  {| enc_size := QualityHint_size; encode := QualityHint_encode |}.
#[export] Instance QualityHint_Decode : Decode QualityHint := QualityHint_decode.

Definition QualityHint_wf (m : QualityHint) : Prop :=
  u32 (qh_window_id m) ∧ u16 (qh_target_fps m) ∧ u32 (qh_max_bitrate_kbps m) ∧
  u8 (qh_flags m).

Definition QualityHint_wire (m : QualityHint) : list Z :=
  le_bytes 4 (qh_window_id m) ++ le_bytes 2 (qh_target_fps m) ++
  le_bytes 4 (qh_max_bitrate_kbps m) ++ [qh_flags m].

#[export] Hint Unfold QualityHint_size QualityHint_encode QualityHint_decode QualityHint_Encode
  QualityHint_Decode QualityHint_wf QualityHint_wire qh_window_id qh_target_fps
  qh_max_bitrate_kbps qh_flags : codec.

#[export, refine] Instance QualityHint_WireFormat : WireFormat QualityHint :=
  {| wf := QualityHint_wf; wire := QualityHint_wire |}.
Proof. all: codec_law. Defined.

(** ** Counts above the prefix *)

Lemma count_u8_big n : 255 < n → count_u8 n = 255.
Proof.
  intros. unfold count_u8, try_from_uint.
  by replace (n <? 2 ^ 8) with false by (simpl_pow; lia); rewrite andb_false_r.
Qed.

Lemma outputs_wire_split n os :
  concat (map Output_wire os) =
  concat (map Output_wire (take n os)) ++ concat (map Output_wire (drop n os)).
Proof. by rewrite <- concat_app, <- map_app, take_drop. Qed.

(** The [u8] count of a [DisplayLayout] saturates while every output is
    still written: a layout of more than 255 outputs encodes without an error,
    and the receiver silently gets the first 255 of them. *)
Theorem display_layout_count_lossy os :
  255 < len os → Forall Output_wf os →
  ∃ bytes, encode_vec (mkDisplayLayout os) = Ok bytes ∧
           decode bytes = Ok (mkDisplayLayout (take 255 os)).
Proof.
  intros Hn Hos. exists ([255] ++ concat (map Output_wire os)). split.
  - apply encode_vec_writes.
    + change (encode _) with (DisplayLayout_encode (mkDisplayLayout os)).
      unfold DisplayLayout_encode. rewrite count_u8_big by done.
      apply writes_bind; [apply writes_u8|]. by apply writes_bind_ret, outputs_writes.
    + change (enc_size _) with (1 + len os * 21). by rewrite len_app, len_outputs_wire.
  - rewrite (outputs_wire_split 255), app_assoc. apply decode_reads.
    eapply reads_bind; [apply reads_u8|]. apply (reads_bind_ret _ mkDisplayLayout), outputs_reads.
    + rewrite length_take. unfold len in Hn. lia.
    + by apply Forall_take.
Qed.

Lemma display_layout_count_lossy_witness :
  ∃ bytes, encode_vec (mkDisplayLayout (replicate 300 (mkOutput 1 0 0 64 64 1 1 60))) = Ok bytes ∧
           decode bytes = Ok (mkDisplayLayout (take 255 (replicate 300 (mkOutput 1 0 0 64 64 1 1 60)))).
Proof.
  apply (display_layout_count_lossy (replicate 300 (mkOutput 1 0 0 64 64 1 1 60))).
  - vm_compute. reflexivity.
  - apply Forall_replicate. unfold Output_wf, is_uint, is_sint. cbn. lia.
Defined.
