(* ===== verification/MsgInput.v ===== *)
(** * Input and cursor messages

    [crates/oxproto/src/message/input.rs]: what the client sends about the
    pointer, the keyboard and its windows, and what the agent sends about the
    cursor ([docs/design/OXPROTO.md] sections 13 and 14). *)

From S2P Require Import Prelude Cursor Wire.

(** Bits in [PointerEvent.buttons]. *)
Module pointer_button.
Definition LEFT : Z := Z.shiftl 1 0.
Definition RIGHT : Z := Z.shiftl 1 1.
Definition MIDDLE : Z := Z.shiftl 1 2.
Definition X1 : Z := Z.shiftl 1 3.
Definition X2 : Z := Z.shiftl 1 4.
End pointer_button.

(** Bits in [KeyEvent.flags]. *)
Module key_flag.
Definition PRESSED : Z := Z.shiftl 1 0.
Definition EXTENDED : Z := Z.shiftl 1 1.
End key_flag.

(** Bits in [ModifierSync.modifiers]. *)
Module modifier.
Definition SHIFT : Z := Z.shiftl 1 0.
Definition CTRL : Z := Z.shiftl 1 1.
Definition ALT : Z := Z.shiftl 1 2.
Definition META : Z := Z.shiftl 1 3.
End modifier.

(** Bits in [ModifierSync.locks]. *)
Module lock_state.
Definition CAPS : Z := Z.shiftl 1 0.
Definition NUM : Z := Z.shiftl 1 1.
Definition SCROLL : Z := Z.shiftl 1 2.
End lock_state.

(** Values for [CursorShape.format]. *)
Module cursor_format.
Definition BGRA_PREMUL : Z := 1.
End cursor_format.

(** Values for [WindowControl.action]. *)
Module window_action.
Definition CLOSE : Z := 1.
Definition ACTIVATE : Z := 2.
Definition MINIMIZE : Z := 3.
Definition MAXIMIZE : Z := 4.
Definition RESTORE : Z := 5.
Definition MOVE : Z := 6.
Definition RESIZE : Z := 7.
End window_action.

(** ** [PointerEvent] *)

Record PointerEvent : Type := mkPointerEvent {
  pe_window_id : Z;
  pe_x : Z;
  pe_y : Z;
  pe_buttons : Z;
  pe_wheel_x : Z;
  pe_wheel_y : Z;
  pe_timestamp : Z
}.

Definition PointerEvent_size (_ : PointerEvent) : Z :=
  4 + 4 + 4 + 1 + 2 + 2 + 8.

Definition PointerEvent_encode (m : PointerEvent) : writer unit :=
  write_u32_le (pe_window_id m) "PointerEvent.window_id";;
  write_i32 (pe_x m) "PointerEvent.x";;
  write_i32 (pe_y m) "PointerEvent.y";;
  write_u8 (pe_buttons m) "PointerEvent.buttons";;
  write_i16 (pe_wheel_x m) "PointerEvent.wheel_x";;
  write_i16 (pe_wheel_y m) "PointerEvent.wheel_y";;
  write_u64 (pe_timestamp m) "PointerEvent.timestamp";;
  mret tt.

Definition PointerEvent_decode : reader PointerEvent :=
  window_id ← read_u32_le "PointerEvent.window_id";
  x ← read_i32 "PointerEvent.x";
  y ← read_i32 "PointerEvent.y";
  buttons ← read_u8 "PointerEvent.buttons";
  wheel_x ← read_i16 "PointerEvent.wheel_x";
  wheel_y ← read_i16 "PointerEvent.wheel_y";
  timestamp ← read_u64 "PointerEvent.timestamp";
  mret (mkPointerEvent window_id x y buttons wheel_x wheel_y timestamp).

#[export] Instance PointerEvent_Encode : Encode PointerEvent :=
  {| enc_size := PointerEvent_size; encode := PointerEvent_encode |}.
#[export] Instance PointerEvent_Decode : Decode PointerEvent := PointerEvent_decode.

Definition PointerEvent_wf (m : PointerEvent) : Prop :=
  u32 (pe_window_id m) ∧ i32 (pe_x m) ∧ i32 (pe_y m) ∧ u8 (pe_buttons m) ∧
  i16 (pe_wheel_x m) ∧ i16 (pe_wheel_y m) ∧ u64 (pe_timestamp m).

Definition PointerEvent_wire (m : PointerEvent) : list Z :=
  le_bytes 4 (pe_window_id m) ++ i32_wire (pe_x m) ++ i32_wire (pe_y m) ++
  [pe_buttons m] ++ i16_wire (pe_wheel_x m) ++ i16_wire (pe_wheel_y m) ++
  u64_wire (pe_timestamp m).

#[export] Hint Unfold PointerEvent_size PointerEvent_encode PointerEvent_decode PointerEvent_Encode
  PointerEvent_Decode PointerEvent_wf PointerEvent_wire pe_window_id pe_x pe_y
  pe_buttons pe_wheel_x pe_wheel_y pe_timestamp : codec.

#[export, refine] Instance PointerEvent_WireFormat : WireFormat PointerEvent :=
  {| wf := PointerEvent_wf; wire := PointerEvent_wire |}.
Proof. all: codec_law. Defined.

(** ** [KeyEvent] *)

Record KeyEvent : Type := mkKeyEvent {
  ke_scancode : Z;
  ke_flags : Z;
  ke_timestamp : Z
}.

Definition KeyEvent_size (_ : KeyEvent) : Z :=
  2 + 1 + 8.

Definition KeyEvent_encode (m : KeyEvent) : writer unit :=
  write_u16_le (ke_scancode m) "KeyEvent.scancode";;
  write_u8 (ke_flags m) "KeyEvent.flags";;
  write_u64 (ke_timestamp m) "KeyEvent.timestamp";;
  mret tt.

Definition KeyEvent_decode : reader KeyEvent :=
  scancode ← read_u16_le "KeyEvent.scancode";
  flags ← read_u8 "KeyEvent.flags";
  timestamp ← read_u64 "KeyEvent.timestamp";
  mret (mkKeyEvent scancode flags timestamp).

#[export] Instance KeyEvent_Encode : Encode KeyEvent :=
  {| enc_size := KeyEvent_size; encode := KeyEvent_encode |}.
#[export] Instance KeyEvent_Decode : Decode KeyEvent := KeyEvent_decode.

Definition KeyEvent_wf (m : KeyEvent) : Prop :=
  u16 (ke_scancode m) ∧ u8 (ke_flags m) ∧ u64 (ke_timestamp m).

Definition KeyEvent_wire (m : KeyEvent) : list Z :=
  le_bytes 2 (ke_scancode m) ++ [ke_flags m] ++ u64_wire (ke_timestamp m).

#[export] Hint Unfold KeyEvent_size KeyEvent_encode KeyEvent_decode KeyEvent_Encode KeyEvent_Decode
  KeyEvent_wf KeyEvent_wire ke_scancode ke_flags ke_timestamp : codec.

#[export, refine] Instance KeyEvent_WireFormat : WireFormat KeyEvent :=
  {| wf := KeyEvent_wf; wire := KeyEvent_wire |}.
Proof. all: codec_law. Defined.

(** ** [TextInput] *)

Record TextInput : Type := mkTextInput {
  ti_text : list Z
}.

Definition TextInput_size (m : TextInput) : Z :=
  string_size (ti_text m).

Definition TextInput_encode (m : TextInput) : writer unit :=
  write_string (ti_text m) "TextInput.text";;
  mret tt.

Definition TextInput_decode : reader TextInput :=
  text ← read_string "TextInput.text";
  mret (mkTextInput text).

#[export] Instance TextInput_Encode : Encode TextInput :=
  {| enc_size := TextInput_size; encode := TextInput_encode |}.
#[export] Instance TextInput_Decode : Decode TextInput := TextInput_decode.

Definition TextInput_wf (m : TextInput) : Prop :=
  str_ok (ti_text m).

Definition TextInput_wire (m : TextInput) : list Z :=
  string_wire (ti_text m).

#[export] Hint Unfold TextInput_size TextInput_encode TextInput_decode TextInput_Encode
  TextInput_Decode TextInput_wf TextInput_wire ti_text : codec.

#[export, refine] Instance TextInput_WireFormat : WireFormat TextInput :=
  {| wf := TextInput_wf; wire := TextInput_wire |}.
Proof. all: codec_law. Defined.

(** ** [ModifierSync] *)

Record ModifierSync : Type := mkModifierSync {
  ms_modifiers : Z;
  ms_locks : Z
}.

Definition ModifierSync_size (_ : ModifierSync) : Z :=
  2 + 1.

Definition ModifierSync_encode (m : ModifierSync) : writer unit :=
  write_u16_le (ms_modifiers m) "ModifierSync.modifiers";;
  write_u8 (ms_locks m) "ModifierSync.locks";;
  mret tt.

Definition ModifierSync_decode : reader ModifierSync :=
  modifiers ← read_u16_le "ModifierSync.modifiers";
  locks ← read_u8 "ModifierSync.locks";
  mret (mkModifierSync modifiers locks).

#[export] Instance ModifierSync_Encode : Encode ModifierSync :=
  {| enc_size := ModifierSync_size; encode := ModifierSync_encode |}.
#[export] Instance ModifierSync_Decode : Decode ModifierSync := ModifierSync_decode.

Definition ModifierSync_wf (m : ModifierSync) : Prop :=
  u16 (ms_modifiers m) ∧ u8 (ms_locks m).

Definition ModifierSync_wire (m : ModifierSync) : list Z :=
  le_bytes 2 (ms_modifiers m) ++ [ms_locks m].

#[export] Hint Unfold ModifierSync_size ModifierSync_encode ModifierSync_decode ModifierSync_Encode
  ModifierSync_Decode ModifierSync_wf ModifierSync_wire ms_modifiers ms_locks : codec.

#[export, refine] Instance ModifierSync_WireFormat : WireFormat ModifierSync :=
  {| wf := ModifierSync_wf; wire := ModifierSync_wire |}.
Proof. all: codec_law. Defined.

(** ** [WindowControl] *)

Record WindowControl : Type := mkWindowControl {
  wc_window_id : Z;
  wc_action : Z;
  wc_x : Z;
  wc_y : Z;
  wc_width : Z;
  wc_height : Z
}.

Definition WindowControl_size (_ : WindowControl) : Z :=
  4 + 1 + 4 + 4 + 2 + 2.

Definition WindowControl_encode (m : WindowControl) : writer unit :=
  write_u32_le (wc_window_id m) "WindowControl.window_id";;
  write_u8 (wc_action m) "WindowControl.action";;
  write_i32 (wc_x m) "WindowControl.x";;
  write_i32 (wc_y m) "WindowControl.y";;
  write_u16_le (wc_width m) "WindowControl.width";;
  write_u16_le (wc_height m) "WindowControl.height";;
  mret tt.

Definition WindowControl_decode : reader WindowControl :=
  window_id ← read_u32_le "WindowControl.window_id";
  action ← read_u8 "WindowControl.action";
  x ← read_i32 "WindowControl.x";
  y ← read_i32 "WindowControl.y";
  width ← read_u16_le "WindowControl.width";
  height ← read_u16_le "WindowControl.height";
  mret (mkWindowControl window_id action x y width height).

#[export] Instance WindowControl_Encode : Encode WindowControl :=
  {| enc_size := WindowControl_size; encode := WindowControl_encode |}.
#[export] Instance WindowControl_Decode : Decode WindowControl := WindowControl_decode.

Definition WindowControl_wf (m : WindowControl) : Prop :=
  u32 (wc_window_id m) ∧ u8 (wc_action m) ∧ i32 (wc_x m) ∧ i32 (wc_y m) ∧
  u16 (wc_width m) ∧ u16 (wc_height m).

Definition WindowControl_wire (m : WindowControl) : list Z :=
  le_bytes 4 (wc_window_id m) ++ [wc_action m] ++ i32_wire (wc_x m) ++
  i32_wire (wc_y m) ++ le_bytes 2 (wc_width m) ++ le_bytes 2 (wc_height m).

#[export] Hint Unfold WindowControl_size WindowControl_encode WindowControl_decode WindowControl_Encode
  WindowControl_Decode WindowControl_wf WindowControl_wire wc_window_id wc_action
  wc_x wc_y wc_width wc_height : codec.

#[export, refine] Instance WindowControl_WireFormat : WireFormat WindowControl :=
  {| wf := WindowControl_wf; wire := WindowControl_wire |}.
Proof. all: codec_law. Defined.

(** ** [CursorShape] *)

Record CursorShape : Type := mkCursorShape {
  cs_cursor_id : Z;
  cs_width : Z;
  cs_height : Z;
  cs_hotspot_x : Z;
  cs_hotspot_y : Z;
  cs_format : Z;
  cs_data : list Z
}.

Definition CursorShape_size (m : CursorShape) : Z :=
  4 + 2 + 2 + 2 + 2 + 1 + 4 + len (cs_data m).

Definition CursorShape_encode (m : CursorShape) : writer unit :=
  write_u32_le (cs_cursor_id m) "CursorShape.cursor_id";;
  write_u16_le (cs_width m) "CursorShape.width";;
  write_u16_le (cs_height m) "CursorShape.height";;
  write_u16_le (cs_hotspot_x m) "CursorShape.hotspot_x";;
  write_u16_le (cs_hotspot_y m) "CursorShape.hotspot_y";;
  write_u8 (cs_format m) "CursorShape.format";;
  write_blob (cs_data m) "CursorShape.data";;
  mret tt.

Definition CursorShape_decode : reader CursorShape :=
  cursor_id ← read_u32_le "CursorShape.cursor_id";
  width ← read_u16_le "CursorShape.width";
  height ← read_u16_le "CursorShape.height";
  hotspot_x ← read_u16_le "CursorShape.hotspot_x";
  hotspot_y ← read_u16_le "CursorShape.hotspot_y";
  format ← read_u8 "CursorShape.format";
  data ← read_blob "CursorShape.data";
  mret (mkCursorShape cursor_id width height hotspot_x hotspot_y format data).

#[export] Instance CursorShape_Encode : Encode CursorShape :=
  {| enc_size := CursorShape_size; encode := CursorShape_encode |}.
#[export] Instance CursorShape_Decode : Decode CursorShape := CursorShape_decode.

Definition CursorShape_wf (m : CursorShape) : Prop :=
  u32 (cs_cursor_id m) ∧ u16 (cs_width m) ∧ u16 (cs_height m) ∧
  u16 (cs_hotspot_x m) ∧ u16 (cs_hotspot_y m) ∧ u8 (cs_format m) ∧
  blob_ok (cs_data m).

Definition CursorShape_wire (m : CursorShape) : list Z :=
  le_bytes 4 (cs_cursor_id m) ++ le_bytes 2 (cs_width m) ++
  le_bytes 2 (cs_height m) ++ le_bytes 2 (cs_hotspot_x m) ++
  le_bytes 2 (cs_hotspot_y m) ++ [cs_format m] ++ blob_wire (cs_data m).

#[export] Hint Unfold CursorShape_size CursorShape_encode CursorShape_decode CursorShape_Encode
  CursorShape_Decode CursorShape_wf CursorShape_wire cs_cursor_id cs_width
  cs_height cs_hotspot_x cs_hotspot_y cs_format cs_data : codec.

#[export, refine] Instance CursorShape_WireFormat : WireFormat CursorShape :=
  {| wf := CursorShape_wf; wire := CursorShape_wire |}.
Proof. all: codec_law. Defined.

(** ** [CursorPosition] *)

Record CursorPosition : Type := mkCursorPosition {
  cp_window_id : Z;
  cp_x : Z;
  cp_y : Z
}.

Definition CursorPosition_size (_ : CursorPosition) : Z :=
  4 + 4 + 4.

Definition CursorPosition_encode (m : CursorPosition) : writer unit :=
  write_u32_le (cp_window_id m) "CursorPosition.window_id";;
  write_i32 (cp_x m) "CursorPosition.x";;
  write_i32 (cp_y m) "CursorPosition.y";;
  mret tt.

Definition CursorPosition_decode : reader CursorPosition :=
  window_id ← read_u32_le "CursorPosition.window_id";
  x ← read_i32 "CursorPosition.x";
  y ← read_i32 "CursorPosition.y";
  mret (mkCursorPosition window_id x y).

#[export] Instance CursorPosition_Encode : Encode CursorPosition :=
  {| enc_size := CursorPosition_size; encode := CursorPosition_encode |}.
#[export] Instance CursorPosition_Decode : Decode CursorPosition := CursorPosition_decode.

Definition CursorPosition_wf (m : CursorPosition) : Prop :=
  u32 (cp_window_id m) ∧ i32 (cp_x m) ∧ i32 (cp_y m).

Definition CursorPosition_wire (m : CursorPosition) : list Z :=
  le_bytes 4 (cp_window_id m) ++ i32_wire (cp_x m) ++ i32_wire (cp_y m).

#[export] Hint Unfold CursorPosition_size CursorPosition_encode CursorPosition_decode
  CursorPosition_Encode CursorPosition_Decode CursorPosition_wf CursorPosition_wire
  cp_window_id cp_x cp_y : codec.

#[export, refine] Instance CursorPosition_WireFormat : WireFormat CursorPosition :=
  {| wf := CursorPosition_wf; wire := CursorPosition_wire |}.
Proof. all: codec_law. Defined.

(** ** [CursorVisibility] *)

Record CursorVisibility : Type := mkCursorVisibility {
  cv_visible : bool
}.

Definition CursorVisibility_size (_ : CursorVisibility) : Z :=
  1.

Definition CursorVisibility_encode (m : CursorVisibility) : writer unit :=
  write_bool (cv_visible m) "CursorVisibility.visible";;
  mret tt.

Definition CursorVisibility_decode : reader CursorVisibility :=
  visible ← read_bool "CursorVisibility.visible";
  mret (mkCursorVisibility visible).

#[export] Instance CursorVisibility_Encode : Encode CursorVisibility :=
  {| enc_size := CursorVisibility_size; encode := CursorVisibility_encode |}.
#[export] Instance CursorVisibility_Decode : Decode CursorVisibility := CursorVisibility_decode.

Definition CursorVisibility_wf (_ : CursorVisibility) : Prop :=
  True.

Definition CursorVisibility_wire (m : CursorVisibility) : list Z :=
  bool_wire (cv_visible m).

#[export] Hint Unfold CursorVisibility_size CursorVisibility_encode CursorVisibility_decode
  CursorVisibility_Encode CursorVisibility_Decode CursorVisibility_wf
  CursorVisibility_wire cv_visible : codec.

#[export, refine] Instance CursorVisibility_WireFormat : WireFormat CursorVisibility :=
  {| wf := CursorVisibility_wf; wire := CursorVisibility_wire |}.
Proof. all: codec_law. Defined.

(** [KeyEvent::is_pressed] *)
Definition is_pressed (m : KeyEvent) : bool :=
  negb (Z.land (ke_flags m) key_flag.PRESSED =? 0).
