(* ===== verification/MsgWindow.v ===== *)
(** * Window lifecycle and video messages

    [crates/oxproto/src/message/window.rs] ([docs/design/OXPROTO.md] sections
    11 and 12). *)

From S2P Require Import Prelude Cursor Wire.

(** Bits in [WindowOpened.flags] and [WindowState.flags]. *)
Module window_flag.
Definition RESIZABLE : Z := Z.shiftl 1 0.
Definition HAS_FRAME : Z := Z.shiftl 1 1.
Definition TOPMOST : Z := Z.shiftl 1 2.
Definition MINIMIZED : Z := Z.shiftl 1 3.
Definition MAXIMIZED : Z := Z.shiftl 1 4.
End window_flag.

(** Values for [WindowState.state]. *)
Module window_show.
Definition NORMAL : Z := 0.
Definition MINIMIZED : Z := 1.
Definition MAXIMIZED : Z := 2.
End window_show.

(** Bits in [FrameData.flags]. *)
Module frame_flag.
Definition KEYFRAME : Z := Z.shiftl 1 0.
End frame_flag.

(** ** [WindowOpened] *)

Record WindowOpened : Type := mkWindowOpened {
  wo_window_id : Z;
  wo_video_channel : Z;
  wo_pid : Z;
  wo_app_id : list Z;
  wo_title : list Z;
  wo_x : Z;
  wo_y : Z;
  wo_width : Z;
  wo_height : Z;
  wo_dpi : Z;
  wo_flags : Z;
  wo_owner_id : Z
}.

Definition WindowOpened_size (m : WindowOpened) : Z :=
  4 + 2 + 4 + string_size (wo_app_id m) + string_size (wo_title m) +
  4 + 4 + 2 + 2 + 2 + 4 + 4.

Definition WindowOpened_encode (m : WindowOpened) : writer unit :=
  write_u32_le (wo_window_id m) "WindowOpened.window_id";;
  write_u16_le (wo_video_channel m) "WindowOpened.video_channel";;
  write_u32_le (wo_pid m) "WindowOpened.pid";;
  write_string (wo_app_id m) "WindowOpened.app_id";;
  write_string (wo_title m) "WindowOpened.title";;
  write_i32 (wo_x m) "WindowOpened.x";;
  write_i32 (wo_y m) "WindowOpened.y";;
  write_u16_le (wo_width m) "WindowOpened.width";;
  write_u16_le (wo_height m) "WindowOpened.height";;
  write_u16_le (wo_dpi m) "WindowOpened.dpi";;
  write_u32_le (wo_flags m) "WindowOpened.flags";;
  write_u32_le (wo_owner_id m) "WindowOpened.owner_id";;
  mret tt.

Definition WindowOpened_decode : reader WindowOpened :=
  window_id ← read_u32_le "WindowOpened.window_id";
  video_channel ← read_u16_le "WindowOpened.video_channel";
  pid ← read_u32_le "WindowOpened.pid";
  app_id ← read_string "WindowOpened.app_id";
  title ← read_string "WindowOpened.title";
  x ← read_i32 "WindowOpened.x";
  y ← read_i32 "WindowOpened.y";
  width ← read_u16_le "WindowOpened.width";
  height ← read_u16_le "WindowOpened.height";
  dpi ← read_u16_le "WindowOpened.dpi";
  flags ← read_u32_le "WindowOpened.flags";
  owner_id ← read_u32_le "WindowOpened.owner_id";
  mret (mkWindowOpened window_id video_channel pid app_id title x y width height
  dpi flags owner_id).

#[export] Instance WindowOpened_Encode : Encode WindowOpened :=
  {| enc_size := WindowOpened_size; encode := WindowOpened_encode |}.
#[export] Instance WindowOpened_Decode : Decode WindowOpened := WindowOpened_decode.

Definition WindowOpened_wf (m : WindowOpened) : Prop :=
  u32 (wo_window_id m) ∧ u16 (wo_video_channel m) ∧ u32 (wo_pid m) ∧
  str_ok (wo_app_id m) ∧ str_ok (wo_title m) ∧ i32 (wo_x m) ∧ i32 (wo_y m) ∧
  u16 (wo_width m) ∧ u16 (wo_height m) ∧ u16 (wo_dpi m) ∧ u32 (wo_flags m) ∧
  u32 (wo_owner_id m).

Definition WindowOpened_wire (m : WindowOpened) : list Z :=
  le_bytes 4 (wo_window_id m) ++ le_bytes 2 (wo_video_channel m) ++
  le_bytes 4 (wo_pid m) ++ string_wire (wo_app_id m) ++ string_wire (wo_title m) ++
  i32_wire (wo_x m) ++ i32_wire (wo_y m) ++ le_bytes 2 (wo_width m) ++
  le_bytes 2 (wo_height m) ++ le_bytes 2 (wo_dpi m) ++ le_bytes 4 (wo_flags m) ++
  le_bytes 4 (wo_owner_id m).

#[export] Hint Unfold WindowOpened_size WindowOpened_encode WindowOpened_decode WindowOpened_Encode
  WindowOpened_Decode WindowOpened_wf WindowOpened_wire wo_window_id
  wo_video_channel wo_pid wo_app_id wo_title wo_x wo_y wo_width wo_height wo_dpi
  wo_flags wo_owner_id : codec.

#[export, refine] Instance WindowOpened_WireFormat : WireFormat WindowOpened :=
  {| wf := WindowOpened_wf; wire := WindowOpened_wire |}.
Proof. all: codec_law. Defined.

(** ** [WindowClosed] *)

Record WindowClosed : Type := mkWindowClosed {
  wcl_window_id : Z
}.

Definition WindowClosed_size (_ : WindowClosed) : Z :=
  4.

Definition WindowClosed_encode (m : WindowClosed) : writer unit :=
  write_u32_le (wcl_window_id m) "WindowClosed.window_id";;
  mret tt.

Definition WindowClosed_decode : reader WindowClosed :=
  window_id ← read_u32_le "WindowClosed.window_id";
  mret (mkWindowClosed window_id).

#[export] Instance WindowClosed_Encode : Encode WindowClosed :=
  {| enc_size := WindowClosed_size; encode := WindowClosed_encode |}.
#[export] Instance WindowClosed_Decode : Decode WindowClosed := WindowClosed_decode.

Definition WindowClosed_wf (m : WindowClosed) : Prop :=
  u32 (wcl_window_id m).

Definition WindowClosed_wire (m : WindowClosed) : list Z :=
  le_bytes 4 (wcl_window_id m).

#[export] Hint Unfold WindowClosed_size WindowClosed_encode WindowClosed_decode WindowClosed_Encode
  WindowClosed_Decode WindowClosed_wf WindowClosed_wire wcl_window_id : codec.

#[export, refine] Instance WindowClosed_WireFormat : WireFormat WindowClosed :=
  {| wf := WindowClosed_wf; wire := WindowClosed_wire |}.
Proof. all: codec_law. Defined.

(** ** [WindowGeometry] *)

Record WindowGeometry : Type := mkWindowGeometry {
  wg_window_id : Z;
  wg_x : Z;
  wg_y : Z;
  wg_width : Z;
  wg_height : Z
}.

Definition WindowGeometry_size (_ : WindowGeometry) : Z :=
  16.

Definition WindowGeometry_encode (m : WindowGeometry) : writer unit :=
  write_u32_le (wg_window_id m) "WindowGeometry.window_id";;
  write_i32 (wg_x m) "WindowGeometry.x";;
  write_i32 (wg_y m) "WindowGeometry.y";;
  write_u16_le (wg_width m) "WindowGeometry.width";;
  write_u16_le (wg_height m) "WindowGeometry.height";;
  mret tt.

Definition WindowGeometry_decode : reader WindowGeometry :=
  window_id ← read_u32_le "WindowGeometry.window_id";
  x ← read_i32 "WindowGeometry.x";
  y ← read_i32 "WindowGeometry.y";
  width ← read_u16_le "WindowGeometry.width";
  height ← read_u16_le "WindowGeometry.height";
  mret (mkWindowGeometry window_id x y width height).

#[export] Instance WindowGeometry_Encode : Encode WindowGeometry :=
  {| enc_size := WindowGeometry_size; encode := WindowGeometry_encode |}.
#[export] Instance WindowGeometry_Decode : Decode WindowGeometry := WindowGeometry_decode.

Definition WindowGeometry_wf (m : WindowGeometry) : Prop :=
  u32 (wg_window_id m) ∧ i32 (wg_x m) ∧ i32 (wg_y m) ∧ u16 (wg_width m) ∧
  u16 (wg_height m).

Definition WindowGeometry_wire (m : WindowGeometry) : list Z :=
  le_bytes 4 (wg_window_id m) ++ i32_wire (wg_x m) ++ i32_wire (wg_y m) ++
  le_bytes 2 (wg_width m) ++ le_bytes 2 (wg_height m).

#[export] Hint Unfold WindowGeometry_size WindowGeometry_encode WindowGeometry_decode
  WindowGeometry_Encode WindowGeometry_Decode WindowGeometry_wf WindowGeometry_wire
  wg_window_id wg_x wg_y wg_width wg_height : codec.

#[export, refine] Instance WindowGeometry_WireFormat : WireFormat WindowGeometry :=
  {| wf := WindowGeometry_wf; wire := WindowGeometry_wire |}.
Proof. all: codec_law. Defined.

(** ** [WindowTitle] *)

Record WindowTitle : Type := mkWindowTitle {
  wt_window_id : Z;
  wt_title : list Z
}.

Definition WindowTitle_size (m : WindowTitle) : Z :=
  4 + string_size (wt_title m).

Definition WindowTitle_encode (m : WindowTitle) : writer unit :=
  write_u32_le (wt_window_id m) "WindowTitle.window_id";;
  write_string (wt_title m) "WindowTitle.title";;
  mret tt.

Definition WindowTitle_decode : reader WindowTitle :=
  window_id ← read_u32_le "WindowTitle.window_id";
  title ← read_string "WindowTitle.title";
  mret (mkWindowTitle window_id title).

#[export] Instance WindowTitle_Encode : Encode WindowTitle :=
  {| enc_size := WindowTitle_size; encode := WindowTitle_encode |}.
#[export] Instance WindowTitle_Decode : Decode WindowTitle := WindowTitle_decode.

Definition WindowTitle_wf (m : WindowTitle) : Prop :=
  u32 (wt_window_id m) ∧ str_ok (wt_title m).

Definition WindowTitle_wire (m : WindowTitle) : list Z :=
  le_bytes 4 (wt_window_id m) ++ string_wire (wt_title m).

#[export] Hint Unfold WindowTitle_size WindowTitle_encode WindowTitle_decode WindowTitle_Encode
  WindowTitle_Decode WindowTitle_wf WindowTitle_wire wt_window_id wt_title : codec.

#[export, refine] Instance WindowTitle_WireFormat : WireFormat WindowTitle :=
  {| wf := WindowTitle_wf; wire := WindowTitle_wire |}.
Proof. all: codec_law. Defined.

(** ** [WindowState] *)

Record WindowState : Type := mkWindowState {
  ws_window_id : Z;
  ws_state : Z;
  ws_flags : Z
}.

Definition WindowState_size (_ : WindowState) : Z :=
  9.

Definition WindowState_encode (m : WindowState) : writer unit :=
  write_u32_le (ws_window_id m) "WindowState.window_id";;
  write_u8 (ws_state m) "WindowState.state";;
  write_u32_le (ws_flags m) "WindowState.flags";;
  mret tt.

Definition WindowState_decode : reader WindowState :=
  window_id ← read_u32_le "WindowState.window_id";
  state ← read_u8 "WindowState.state";
  flags ← read_u32_le "WindowState.flags";
  mret (mkWindowState window_id state flags).

#[export] Instance WindowState_Encode : Encode WindowState :=
  {| enc_size := WindowState_size; encode := WindowState_encode |}.
#[export] Instance WindowState_Decode : Decode WindowState := WindowState_decode.

Definition WindowState_wf (m : WindowState) : Prop :=
  u32 (ws_window_id m) ∧ u8 (ws_state m) ∧ u32 (ws_flags m).

Definition WindowState_wire (m : WindowState) : list Z :=
  le_bytes 4 (ws_window_id m) ++ [ws_state m] ++ le_bytes 4 (ws_flags m).

#[export] Hint Unfold WindowState_size WindowState_encode WindowState_decode WindowState_Encode
  WindowState_Decode WindowState_wf WindowState_wire ws_window_id ws_state ws_flags : codec.

#[export, refine] Instance WindowState_WireFormat : WireFormat WindowState :=
  {| wf := WindowState_wf; wire := WindowState_wire |}.
Proof. all: codec_law. Defined.

(** ** [WindowZOrder] *)

Record WindowZOrder : Type := mkWindowZOrder {
  wz_window_id : Z;
  wz_above_window_id : Z
}.

Definition WindowZOrder_size (_ : WindowZOrder) : Z :=
  8.

Definition WindowZOrder_encode (m : WindowZOrder) : writer unit :=
  write_u32_le (wz_window_id m) "WindowZOrder.window_id";;
  write_u32_le (wz_above_window_id m) "WindowZOrder.above_window_id";;
  mret tt.

Definition WindowZOrder_decode : reader WindowZOrder :=
  window_id ← read_u32_le "WindowZOrder.window_id";
  above_window_id ← read_u32_le "WindowZOrder.above_window_id";
  mret (mkWindowZOrder window_id above_window_id).

#[export] Instance WindowZOrder_Encode : Encode WindowZOrder :=
  {| enc_size := WindowZOrder_size; encode := WindowZOrder_encode |}.
#[export] Instance WindowZOrder_Decode : Decode WindowZOrder := WindowZOrder_decode.

Definition WindowZOrder_wf (m : WindowZOrder) : Prop :=
  u32 (wz_window_id m) ∧ u32 (wz_above_window_id m).

Definition WindowZOrder_wire (m : WindowZOrder) : list Z :=
  le_bytes 4 (wz_window_id m) ++ le_bytes 4 (wz_above_window_id m).

#[export] Hint Unfold WindowZOrder_size WindowZOrder_encode WindowZOrder_decode WindowZOrder_Encode
  WindowZOrder_Decode WindowZOrder_wf WindowZOrder_wire wz_window_id
  wz_above_window_id : codec.

#[export, refine] Instance WindowZOrder_WireFormat : WireFormat WindowZOrder :=
  {| wf := WindowZOrder_wf; wire := WindowZOrder_wire |}.
Proof. all: codec_law. Defined.

(** ** [WindowIcon] *)

Record WindowIcon : Type := mkWindowIcon {
  wi_window_id : Z;
  wi_width : Z;
  wi_height : Z;
  wi_bgra : list Z
}.

Definition WindowIcon_size (m : WindowIcon) : Z :=
  4 + 2 + 2 + 4 + len (wi_bgra m).

Definition WindowIcon_encode (m : WindowIcon) : writer unit :=
  write_u32_le (wi_window_id m) "WindowIcon.window_id";;
  write_u16_le (wi_width m) "WindowIcon.width";;
  write_u16_le (wi_height m) "WindowIcon.height";;
  write_blob (wi_bgra m) "WindowIcon.bgra";;
  mret tt.

Definition WindowIcon_decode : reader WindowIcon :=
  window_id ← read_u32_le "WindowIcon.window_id";
  width ← read_u16_le "WindowIcon.width";
  height ← read_u16_le "WindowIcon.height";
  bgra ← read_blob "WindowIcon.bgra";
  mret (mkWindowIcon window_id width height bgra).

#[export] Instance WindowIcon_Encode : Encode WindowIcon :=
  {| enc_size := WindowIcon_size; encode := WindowIcon_encode |}.
#[export] Instance WindowIcon_Decode : Decode WindowIcon := WindowIcon_decode.

Definition WindowIcon_wf (m : WindowIcon) : Prop :=
  u32 (wi_window_id m) ∧ u16 (wi_width m) ∧ u16 (wi_height m) ∧ blob_ok (wi_bgra m).

Definition WindowIcon_wire (m : WindowIcon) : list Z :=
  le_bytes 4 (wi_window_id m) ++ le_bytes 2 (wi_width m) ++
  le_bytes 2 (wi_height m) ++ blob_wire (wi_bgra m).

#[export] Hint Unfold WindowIcon_size WindowIcon_encode WindowIcon_decode WindowIcon_Encode
  WindowIcon_Decode WindowIcon_wf WindowIcon_wire wi_window_id wi_width wi_height
  wi_bgra : codec.

#[export, refine] Instance WindowIcon_WireFormat : WireFormat WindowIcon :=
  {| wf := WindowIcon_wf; wire := WindowIcon_wire |}.
Proof. all: codec_law. Defined.

(** ** [FrameData] *)

Record FrameData : Type := mkFrameData {
  fd_window_id : Z;
  fd_frame_id : Z;
  fd_codec : Z;
  fd_flags : Z;
  fd_width : Z;
  fd_height : Z;
  fd_captured_us : Z;
  fd_encoded_us : Z;
  fd_data : list Z
}.

Definition FrameData_size (m : FrameData) : Z :=
  4 + 8 + 1 + 1 + 2 + 2 + 8 + 8 + 4 + len (fd_data m).

Definition FrameData_encode (m : FrameData) : writer unit :=
  write_u32_le (fd_window_id m) "FrameData.window_id";;
  write_u64 (fd_frame_id m) "FrameData.frame_id";;
  write_u8 (fd_codec m) "FrameData.codec";;
  write_u8 (fd_flags m) "FrameData.flags";;
  write_u16_le (fd_width m) "FrameData.width";;
  write_u16_le (fd_height m) "FrameData.height";;
  write_u64 (fd_captured_us m) "FrameData.captured_us";;
  write_u64 (fd_encoded_us m) "FrameData.encoded_us";;
  write_blob (fd_data m) "FrameData.data";;
  mret tt.

Definition FrameData_decode : reader FrameData :=
  window_id ← read_u32_le "FrameData.window_id";
  frame_id ← read_u64 "FrameData.frame_id";
  codec ← read_u8 "FrameData.codec";
  flags ← read_u8 "FrameData.flags";
  width ← read_u16_le "FrameData.width";
  height ← read_u16_le "FrameData.height";
  captured_us ← read_u64 "FrameData.captured_us";
  encoded_us ← read_u64 "FrameData.encoded_us";
  data ← read_blob "FrameData.data";
  mret (mkFrameData window_id frame_id codec flags width height captured_us
  encoded_us data).

#[export] Instance FrameData_Encode : Encode FrameData :=
  {| enc_size := FrameData_size; encode := FrameData_encode |}.
#[export] Instance FrameData_Decode : Decode FrameData := FrameData_decode.

Definition FrameData_wf (m : FrameData) : Prop :=
  u32 (fd_window_id m) ∧ u64 (fd_frame_id m) ∧ u8 (fd_codec m) ∧ u8 (fd_flags m) ∧
  u16 (fd_width m) ∧ u16 (fd_height m) ∧ u64 (fd_captured_us m) ∧
  u64 (fd_encoded_us m) ∧ blob_ok (fd_data m).

Definition FrameData_wire (m : FrameData) : list Z :=
  le_bytes 4 (fd_window_id m) ++ u64_wire (fd_frame_id m) ++ [fd_codec m] ++
  [fd_flags m] ++ le_bytes 2 (fd_width m) ++ le_bytes 2 (fd_height m) ++
  u64_wire (fd_captured_us m) ++ u64_wire (fd_encoded_us m) ++
  blob_wire (fd_data m).

#[export] Hint Unfold FrameData_size FrameData_encode FrameData_decode FrameData_Encode
  FrameData_Decode FrameData_wf FrameData_wire fd_window_id fd_frame_id fd_codec
  fd_flags fd_width fd_height fd_captured_us fd_encoded_us fd_data : codec.

#[export, refine] Instance FrameData_WireFormat : WireFormat FrameData :=
  {| wf := FrameData_wf; wire := FrameData_wire |}.
Proof. all: codec_law. Defined.

(** ** [FrameAck] *)

Record FrameAck : Type := mkFrameAck {
  fa_window_id : Z;
  fa_frame_id : Z;
  fa_decoded_us : Z;
  fa_presented_us : Z
}.

Definition FrameAck_size (_ : FrameAck) : Z :=
  28.

Definition FrameAck_encode (m : FrameAck) : writer unit :=
  write_u32_le (fa_window_id m) "FrameAck.window_id";;
  write_u64 (fa_frame_id m) "FrameAck.frame_id";;
  write_u64 (fa_decoded_us m) "FrameAck.decoded_us";;
  write_u64 (fa_presented_us m) "FrameAck.presented_us";;
  mret tt.

Definition FrameAck_decode : reader FrameAck :=
  window_id ← read_u32_le "FrameAck.window_id";
  frame_id ← read_u64 "FrameAck.frame_id";
  decoded_us ← read_u64 "FrameAck.decoded_us";
  presented_us ← read_u64 "FrameAck.presented_us";
  mret (mkFrameAck window_id frame_id decoded_us presented_us).

#[export] Instance FrameAck_Encode : Encode FrameAck :=
  {| enc_size := FrameAck_size; encode := FrameAck_encode |}.
#[export] Instance FrameAck_Decode : Decode FrameAck := FrameAck_decode.

Definition FrameAck_wf (m : FrameAck) : Prop :=
  u32 (fa_window_id m) ∧ u64 (fa_frame_id m) ∧ u64 (fa_decoded_us m) ∧
  u64 (fa_presented_us m).

Definition FrameAck_wire (m : FrameAck) : list Z :=
  le_bytes 4 (fa_window_id m) ++ u64_wire (fa_frame_id m) ++
  u64_wire (fa_decoded_us m) ++ u64_wire (fa_presented_us m).

#[export] Hint Unfold FrameAck_size FrameAck_encode FrameAck_decode FrameAck_Encode FrameAck_Decode
  FrameAck_wf FrameAck_wire fa_window_id fa_frame_id fa_decoded_us fa_presented_us : codec.

#[export, refine] Instance FrameAck_WireFormat : WireFormat FrameAck :=
  {| wf := FrameAck_wf; wire := FrameAck_wire |}.
Proof. all: codec_law. Defined.

(** [FrameData::is_keyframe] *)
Definition is_keyframe (m : FrameData) : bool :=
  negb (Z.land (fd_flags m) frame_flag.KEYFRAME =? 0).
