(* ===== verification/Envelope.v ===== *)
(** * Chunk framing, fragmentation and reassembly

    [crates/oxproto/src/envelope.rs]: the 8-byte chunk header, [fragment], the
    size limits and the per-channel [Reassembler]
    ([docs/design/OXPROTO.md] sections 3, 4 and 16). *)

From S2P Require Import Prelude Cursor Wire MsgType.

(** ** Constants *)

Definition CHUNK_HEADER_LEN : Z := 8.
Definition MAX_CHUNK_PAYLOAD : Z := 32 * 1024.

Module channel.
Definition CONTROL : Z := 0.
Definition INPUT : Z := 1.
Definition CURSOR : Z := 2.
Definition WINDOW : Z := 3.
Definition VIDEO_BASE : Z := 16.
End channel.

Module chunk_flags.
Definition FRAG_MORE : Z := 0x01.
Definition KNOWN : Z := FRAG_MORE.
End chunk_flags.

Definition MAX_PENDING_CHANNELS : Z := 64.
Definition MAX_PENDING_BYTES : Z := 64 * 1024 * 1024.

(** ** The chunk header *)

Record ChunkHeader : Type := mkHeader {
  h_msg_type : Z;
  h_flags : Z;
  h_channel : Z;
  h_length : Z
}.

Definition has_more (h : ChunkHeader) : bool :=
  negb (Z.land (h_flags h) chunk_flags.FRAG_MORE =? 0).

Definition ChunkHeader_size (_ : ChunkHeader) : Z := CHUNK_HEADER_LEN.

Definition ChunkHeader_encode (h : ChunkHeader) : writer unit :=
  write_u8 (h_msg_type h) "chunk type";;
  write_u8 (h_flags h) "chunk flags";;
  write_u16_le (h_channel h) "chunk channel";;
  write_u32_le (h_length h) "chunk length";;
  mret tt.

Definition ChunkHeader_decode : reader ChunkHeader :=
  msg_type ← read_u8 "chunk type";
  flags ← read_u8 "chunk flags";
  channel ← read_u16_le "chunk channel";
  length ← read_u32_le "chunk length";
  let flags := Z.land flags chunk_flags.KNOWN in
  if length >? MAX_CHUNK_PAYLOAD
  then fail (InvalidLength "oxproto chunk" "chunk payload exceeds MAX_CHUNK_PAYLOAD")
  else mret (mkHeader msg_type flags channel length).

#[export] Instance ChunkHeader_Encode : Encode ChunkHeader :=
  {| enc_size := ChunkHeader_size; encode := ChunkHeader_encode |}.
#[export] Instance ChunkHeader_Decode : Decode ChunkHeader := ChunkHeader_decode.

(** ** Size limits *)

Definition max_message_len (t : Z) : Z :=
  let KIB := 1024 in
  let MIB := 1024 * KIB in
  if (t =? msg_type.WINDOW_OPENED) || (t =? msg_type.WINDOW_TITLE) ||
     (t =? msg_type.DISPLAY_LAYOUT) || (t =? msg_type.ERROR) then 8 * KIB
  else if t =? msg_type.CURSOR_SHAPE then 256 * KIB
  else if t =? msg_type.WINDOW_ICON then MIB
  else if t =? msg_type.FRAME_DATA then 32 * MIB
  else 4 * KIB.

Definition check_len (t n : Z) : outcome DecodeError unit :=
  if n >? max_message_len t
  then Err (InvalidLength "oxproto reassembly" "message exceeds the maximum size for its type")
  else Ok tt.

(** ** Fragmentation *)

(** One chunk: the header and the piece written into a buffer of their size. *)
Definition chunk_buf (header : ChunkHeader) (piece : list Z) : outcome EncodeError (list Z) :=
  match (encode header;; write_slice piece "chunk payload")
          (write_new (replicate (Z.to_nat (CHUNK_HEADER_LEN + len piece)) 0)) with
  | Ok (_, c) => Ok (wbuf c)
  | Err e => Err e
  | Panic => Panic
  end.

(** The [loop] of [fragment].  Every turn but the last advances [offset] by
    [MAX_CHUNK_PAYLOAD], so a turn per payload byte is more than enough. *)
Fixpoint fragment_loop (fuel : nat) (msg_type channel : Z) (payload : list Z)
    (offset : Z) (out : list (list Z)) : outcome EncodeError (list (list Z)) :=
  match fuel with
  | O => Panic
  | S fuel =>
    let fin := Z.min (offset + MAX_CHUNK_PAYLOAD) (len payload) in
    piece ← slice payload offset fin;
    let more := fin <? len payload in
    let header := mkHeader msg_type (if more then chunk_flags.FRAG_MORE else 0)
                    channel (as_uint 32 (len piece)) in
    buf ← chunk_buf header piece;
    let out := out ++ [buf] in
    if more then fragment_loop fuel msg_type channel payload fin out else Ok out
  end.

Definition fragment (msg_type channel : Z) (payload : list Z)
    : outcome EncodeError (list (list Z)) :=
  fragment_loop (S (length payload)) msg_type channel payload 0 [].

(** ** Reassembly *)

(** [envelope::Message]: a reassembled type and body. *)
Record RawMessage : Type := mkRaw { raw_type : Z; raw_payload : list Z }.

Record Pending : Type := mkPending { pend_type : Z; pend_buf : list Z }.

Record Reassembler : Type := mkReassembler {
  pending : gmap Z Pending;
  pending_bytes : Z
}.

Definition Reassembler_new : Reassembler := mkReassembler ∅ 0.

Definition pending_channels (r : Reassembler) : Z := Z.of_nat (size (pending r)).

(** [self.pending.remove(ch)] and [self.pending_bytes -= dropped.buf.len()],
    then the error. *)
Definition drop_pending {A} (p : gmap Z Pending) (bytes ch : Z) (e : DecodeError)
    : Reassembler * outcome DecodeError A :=
  let dropped := match p !! ch with Some d => len (pend_buf d) | None => 0 end in
  match sub_uint (E:=DecodeError) bytes dropped with
  | Ok bytes' => (mkReassembler (delete ch p) bytes', Err e)
  | _ => (mkReassembler (delete ch p) bytes, Panic)
  end.

Definition err_mismatch : DecodeError :=
  InvalidLength "oxproto reassembly" "payload length does not match the chunk header".
Definition err_channels : DecodeError :=
  InvalidLength "oxproto reassembly" "too many channels with a partially reassembled message".
Definition err_total : DecodeError :=
  InvalidLength "oxproto reassembly" "total buffered reassembly bytes exceeded".
Definition err_type : DecodeError :=
  InvalidField "oxproto reassembly" "type"
    "chunk type differs from the message in flight on this channel".

(** [Reassembler::push]: the state is returned in every case, because a caller
    may go on using the reassembler after an error. *)
Definition push (r : Reassembler) (header : ChunkHeader) (payload : list Z)
    : Reassembler * outcome DecodeError (option RawMessage) :=
  let ch := h_channel header in
  let known := bool_decide (is_Some (pending r !! ch)) in
  if negb (len payload =? h_length header) then (r, Err err_mismatch)
  else if negb (has_more header) && negb known then
    match check_len (h_msg_type header) (len payload) with
    | Ok _ => (r, Ok (Some (mkRaw (h_msg_type header) payload)))
    | Err e => (r, Err e)
    | Panic => (r, Panic)
    end
  else if negb known && (pending_channels r >=? MAX_PENDING_CHANNELS) then
    (r, Err err_channels)
  else if pending_bytes r + len payload >? MAX_PENDING_BYTES then (r, Err err_total)
  else
    let entry := default (mkPending (h_msg_type header) []) (pending r !! ch) in
    let p := <[ch := entry]> (pending r) in
    if negb (pend_type entry =? h_msg_type header) then
      drop_pending p (pending_bytes r) ch err_type
    else
      match check_len (h_msg_type header) (len (pend_buf entry) + len payload) with
      | Err e => drop_pending p (pending_bytes r) ch e
      | Panic => (r, Panic)
      | Ok _ =>
        let entry := mkPending (pend_type entry) (pend_buf entry ++ payload) in
        let p := <[ch := entry]> p in
        let bytes := pending_bytes r + len payload in
        if has_more header then (mkReassembler p bytes, Ok None)
        else
          match p !! ch with
          | None => (mkReassembler p bytes, Panic)
          | Some done =>
            match sub_uint (E:=DecodeError) bytes (len (pend_buf done)) with
            | Ok bytes' =>
              (mkReassembler (delete ch p) bytes',
               Ok (Some (mkRaw (pend_type done) (pend_buf done))))
            | _ => (mkReassembler (delete ch p) bytes, Panic)
            end
          end
      end.

(** A sequence of chunks fed to one reassembler, with the result of each. *)
Fixpoint push_all (r : Reassembler) (cs : list (ChunkHeader * list Z))
    : Reassembler * list (outcome DecodeError (option RawMessage)) :=
  match cs with
  | [] => (r, [])
  | (h, p) :: cs =>
    let '(r, o) := push r h p in
    let '(r, os) := push_all r cs in
    (r, o :: os)
  end.

(** ** Specification of fragmentation *)

Definition ChunkHeader_wf (h : ChunkHeader) : Prop :=
  u8 (h_msg_type h) ∧ (h_flags h = 0 ∨ h_flags h = 1) ∧ u16 (h_channel h) ∧
  0 ≤ h_length h ≤ MAX_CHUNK_PAYLOAD.

Definition ChunkHeader_wire (h : ChunkHeader) : list Z :=
  [h_msg_type h] ++ [h_flags h] ++ le_bytes 2 (h_channel h) ++ le_bytes 4 (h_length h).

(** The chunk of one piece. *)
Definition mk_chunk (t ch : Z) (more : bool) (piece : list Z) : ChunkHeader * list Z :=
  (mkHeader t (if more then 1 else 0) ch (len piece), piece).

(** A payload cut into full pieces and a last one (empty only for an empty
    payload), every piece but the last marked [FRAG_MORE]. *)
Fixpoint chunks_of (fuel : nat) (t ch : Z) (payload : list Z) : list (ChunkHeader * list Z) :=
  match fuel with
  | O => []
  | S fuel =>
    if len payload <=? MAX_CHUNK_PAYLOAD then [mk_chunk t ch false payload]
    else mk_chunk t ch true (ztake MAX_CHUNK_PAYLOAD payload) ::
         chunks_of fuel t ch (zdrop MAX_CHUNK_PAYLOAD payload)
  end.

Definition chunks (t ch : Z) (payload : list Z) : list (ChunkHeader * list Z) :=
  chunks_of (S (length payload)) t ch payload.

(** The wire bytes of a chunk. *)
Definition chunk_wire (c : ChunkHeader * list Z) : list Z := ChunkHeader_wire c.1 ++ c.2.

Arguments ChunkHeader_wire : simpl never.
Arguments chunk_wire : simpl never.

(** ** The header codec *)

(** All the proofs use of the constant; its value is kept folded, because the
    unary form of it is large. *)
Lemma max_chunk_bounds : 8 < MAX_CHUNK_PAYLOAD < 2 ^ 31.
Proof. done. Qed.
#[global] Opaque MAX_CHUNK_PAYLOAD.
Arguments chunks : simpl never.

Ltac chunk_lia := pose proof max_chunk_bounds; len_lia.

Lemma land_known f : u8 f → Z.land f chunk_flags.KNOWN = 0 ∨ Z.land f chunk_flags.KNOWN = 1.
Proof.
  intros _. change chunk_flags.KNOWN with (Z.ones 1). rewrite Z.land_ones by lia.
  pose proof (Z.mod_pos_bound f (2 ^ 1) ltac:(lia)). change (2 ^ 1) with 2 in *. lia.
Qed.

Lemma gtb_false a b : a ≤ b → (a >? b) = false.
Proof. rewrite Z.gtb_ltb. lia. Qed.
Lemma gtb_true a b : b < a → (a >? b) = true.
Proof. rewrite Z.gtb_ltb. lia. Qed.

#[export, refine] Instance ChunkHeader_WireFormat : WireFormat ChunkHeader :=
  {| wf := ChunkHeader_wf; wire := ChunkHeader_wire |}.
Proof.
  - intros h _. unfold ChunkHeader_wire. by autorewrite with len.
  - intros h _. change (encode h) with (ChunkHeader_encode h). unfold ChunkHeader_encode.
    solve_writes.
  - intros [t f c n] (Ht & Hf & Hc & Hn). cbn in Ht, Hf, Hc, Hn.
    change decode_from with ChunkHeader_decode. unfold ChunkHeader_decode.
    unfold ChunkHeader_wire. cbn [h_msg_type h_flags h_channel h_length].
    do 3 (eapply reads_bind; [by eauto with reads|]).
    rewrite <- (app_nil_r (le_bytes 4 n)).
    eapply reads_bind; [apply reads_u32_le; chunk_lia|]. cbv beta zeta.
    rewrite gtb_false by lia.
    replace (Z.land f chunk_flags.KNOWN) with f by (by destruct Hf as [->| ->]).
    apply reads_ret.
  - intros h (Ht & Hf & Hc & Hn). unfold ChunkHeader_wire. solve_bytes.
    apply byte_wire_u8. len_lia.
  - change decode_from with ChunkHeader_decode. unfold ChunkHeader_decode.
    do 4 (eapply rspec_bind; [solve [eauto with rspec]|]; intros ? ?). cbv beta zeta.
    destruct (Z.gtb_spec a2 MAX_CHUNK_PAYLOAD); [apply rspec_fail|].
    apply rspec_ret. unfold ChunkHeader_wf. cbn. split_and!; auto using land_known.
    unfold is_uint in *. lia.
Defined.

Lemma has_more_mk t ch more p : has_more (mk_chunk t ch more p).1 = more.
Proof. by destruct more. Qed.

(** ** Fragmentation meets its specification *)

Lemma chunk_buf_wire h piece : chunk_buf h piece = Ok (ChunkHeader_wire h ++ piece).
Proof.
  unfold chunk_buf, write_new.
  assert (writes (encode h;; write_slice piece "chunk payload") (ChunkHeader_wire h ++ piece)) as Hw.
  { apply writes_bind; [|apply writes_slice].
    change (encode h) with (ChunkHeader_encode h). unfold ChunkHeader_encode, ChunkHeader_wire.
    solve_writes. }
  specialize (Hw [] (replicate (Z.to_nat (CHUNK_HEADER_LEN + len piece)) 0) []).
  rewrite !app_nil_r in Hw. cbn [app] in Hw. change (len (@nil Z)) with 0 in Hw.
  rewrite Hw; [done|]. pose proof (len_nonneg piece). unfold CHUNK_HEADER_LEN.
  unfold ChunkHeader_wire. rewrite len_replicate by lia. by autorewrite with len.
Qed.

Lemma chunks_of_fuel f1 f2 t ch payload :
  (length payload < f1)%nat → (length payload < f2)%nat →
  chunks_of f1 t ch payload = chunks_of f2 t ch payload.
Proof.
  revert f2 payload. induction f1 as [|f1 IH]; intros f2 payload H1 H2; [lia|].
  destruct f2 as [|f2]; [lia|]. cbn [chunks_of].
  destruct (Z.leb_spec (len payload) MAX_CHUNK_PAYLOAD) as [|Hl]; [done|]. f_equal.
  assert (length (zdrop MAX_CHUNK_PAYLOAD payload) < length payload)%nat.
  { unfold zdrop. rewrite length_drop. chunk_lia. }
  apply IH; lia.
Qed.

(** The loop at [offset] emits the chunks of what is left of the payload. *)
Lemma fragment_loop_chunks fuel t ch payload offset out :
  0 ≤ offset ≤ len payload →
  (length (zdrop offset payload) < fuel)%nat →
  fragment_loop fuel t ch payload offset out =
  Ok (out ++ map chunk_wire (chunks_of fuel t ch (zdrop offset payload))).
Proof.
  revert offset out. induction fuel as [|fuel IH]; intros offset out Ho Hf; [lia|].
  cbn [fragment_loop chunks_of].
  rewrite len_zdrop by done. pose proof (len_nonneg payload).
  rewrite slice_ok by chunk_lia.
  cbv [mbind outcome_bind]. rewrite chunk_buf_wire. cbv beta iota zeta.
  destruct (Z.leb_spec (len payload - offset) MAX_CHUNK_PAYLOAD) as [Hl|Hl].
  - rewrite Z.min_r by lia. rewrite Z.ltb_irrefl.
    rewrite ztake_all by (rewrite len_zdrop; lia).
    rewrite as_uint_id; [done|]. rewrite len_zdrop by lia.
    chunk_lia.
  - rewrite Z.min_l by lia.
    replace (offset + MAX_CHUNK_PAYLOAD <? len payload) with true by lia.
    replace (offset + MAX_CHUNK_PAYLOAD - offset) with MAX_CHUNK_PAYLOAD by lia.
    assert (len (ztake MAX_CHUNK_PAYLOAD (zdrop offset payload)) = MAX_CHUNK_PAYLOAD) as Et.
    { rewrite len_ztake; [done|]. rewrite len_zdrop by lia. chunk_lia. }
    rewrite IH.
    + rewrite zdrop_zdrop by chunk_lia.
      rewrite <- app_assoc. unfold mk_chunk. rewrite Et.
      rewrite as_uint_id by chunk_lia. done.
    + chunk_lia.
    + unfold zdrop in *. rewrite !length_drop in *. chunk_lia.
Qed.

Lemma fragment_chunks t ch payload :
  fragment t ch payload = Ok (map chunk_wire (chunks t ch payload)).
Proof.
  unfold fragment. pose proof (len_nonneg payload).
  rewrite fragment_loop_chunks; [done|lia|]. rewrite zdrop_0. lia.
Qed.

(** What the chunks are: an induction principle over full pieces and the last. *)
Lemma chunks_small t ch payload :
  len payload ≤ MAX_CHUNK_PAYLOAD → chunks t ch payload = [mk_chunk t ch false payload].
Proof. intros. unfold chunks. cbn [chunks_of]. by replace (len payload <=? MAX_CHUNK_PAYLOAD) with true by lia. Qed.

Lemma chunks_big t ch payload :
  MAX_CHUNK_PAYLOAD < len payload →
  chunks t ch payload = mk_chunk t ch true (ztake MAX_CHUNK_PAYLOAD payload) ::
                        chunks t ch (zdrop MAX_CHUNK_PAYLOAD payload).
Proof.
  intros. unfold chunks at 1. cbn [chunks_of].
  replace (len payload <=? MAX_CHUNK_PAYLOAD) with false by lia. f_equal.
  apply chunks_of_fuel; [|lia].
  unfold zdrop. rewrite length_drop. chunk_lia.
Qed.

Lemma payload_ind (P : list Z → Prop) :
  (∀ l, len l ≤ MAX_CHUNK_PAYLOAD → P l) →
  (∀ l, MAX_CHUNK_PAYLOAD < len l → P (zdrop MAX_CHUNK_PAYLOAD l) → P l) →
  ∀ l, P l.
Proof.
  intros Hs Hb l. remember (length l) as n eqn:En. revert l En.
  induction n as [n IH] using (well_founded_induction Nat.lt_wf_0). intros l ->.
  destruct (Z.le_gt_cases (len l) MAX_CHUNK_PAYLOAD); [auto|]. apply Hb; [done|].
  eapply IH; [|done]. unfold zdrop. rewrite length_drop. chunk_lia.
Qed.

Lemma chunks_concat t ch payload : concat (map snd (chunks t ch payload)) = payload.
Proof.
  induction payload as [l Hl|l Hl IH] using payload_ind.
  - rewrite chunks_small by done. cbn. apply app_nil_r.
  - rewrite chunks_big by done. cbn [map concat]. rewrite IH. apply ztake_zdrop.
Qed.

(** Every chunk: its header is canonical and says the piece's length. *)
Lemma chunks_ok t ch payload :
  u8 t → u16 ch →
  Forall (λ c, ChunkHeader_wf c.1 ∧ h_length c.1 = len c.2 ∧ h_channel c.1 = ch ∧ h_msg_type c.1 = t)
    (chunks t ch payload).
Proof.
  intros Ht Hc.
  assert (∀ more p, len p ≤ MAX_CHUNK_PAYLOAD →
    let c := mk_chunk t ch more p in
    ChunkHeader_wf c.1 ∧ h_length c.1 = len c.2 ∧ h_channel c.1 = ch ∧ h_msg_type c.1 = t) as Hmk.
  { intros more p Hp. pose proof (len_nonneg p). unfold mk_chunk, ChunkHeader_wf; cbn.
    split_and!; auto. destruct more; auto. }
  induction payload as [l Hl|l Hl IH] using payload_ind.
  - rewrite chunks_small by done. constructor; [by apply Hmk|constructor].
  - rewrite chunks_big by done. constructor; [|done]. apply Hmk.
    rewrite len_ztake; [done|]. chunk_lia.
Qed.

Lemma chunks_nonempty t ch payload : chunks t ch payload ≠ [].
Proof.
  destruct (Z.le_gt_cases (len payload) MAX_CHUNK_PAYLOAD).
  - by rewrite chunks_small.
  - by rewrite chunks_big.
Qed.

Lemma chunks_length t ch payload :
  len (chunks t ch payload) = Z.max 1 (div_ceil (len payload) MAX_CHUNK_PAYLOAD).
Proof.
  pose proof max_chunk_bounds as Hm. unfold div_ceil.
  induction payload as [l Hl|l Hl IH] using payload_ind.
  - rewrite chunks_small by done. rewrite len_cons, len_nil.
    pose proof (len_nonneg l). rewrite Z.max_l; [done|].
    apply Z.lt_succ_r, Z.div_lt_upper_bound; lia.
  - rewrite chunks_big, len_cons, IH by done. rewrite len_zdrop by lia.
    replace (len l + MAX_CHUNK_PAYLOAD - 1)
      with (len l - MAX_CHUNK_PAYLOAD + MAX_CHUNK_PAYLOAD - 1 + 1 * MAX_CHUNK_PAYLOAD) by lia.
    rewrite Z.div_add by lia.
    assert (1 ≤ (len l - MAX_CHUNK_PAYLOAD + MAX_CHUNK_PAYLOAD - 1) / MAX_CHUNK_PAYLOAD)
      by (apply Z.div_le_lower_bound; lia). lia.
Qed.

Lemma len_ChunkHeader_wire h : len (ChunkHeader_wire h) = CHUNK_HEADER_LEN.
Proof. unfold ChunkHeader_wire. by autorewrite with len. Qed.

(** [fragment] never fails: it cuts a payload into max(1, ceil(len / 32 KiB))
    chunks; the pieces concatenate to the payload, and from each chunk's wire
    bytes the header decodes (with the message's type and channel, and the
    piece's length, at most 32 KiB) leaving exactly the piece. *)
Theorem fragment_correct t ch payload :
  u8 t → u16 ch →
  ∃ bufs pieces,
    fragment t ch payload = Ok bufs ∧
    len bufs = Z.max 1 (div_ceil (len payload) MAX_CHUNK_PAYLOAD) ∧
    concat pieces = payload ∧
    Forall2 (λ buf piece, ∃ h,
      decode (T:=ChunkHeader) buf = Ok h ∧ zdrop CHUNK_HEADER_LEN buf = piece ∧
      h_msg_type h = t ∧ h_channel h = ch ∧ h_length h = len piece ∧
      len piece ≤ MAX_CHUNK_PAYLOAD) bufs pieces.
Proof.
  intros Ht Hc. exists (map chunk_wire (chunks t ch payload)), (map snd (chunks t ch payload)).
  rewrite fragment_chunks, len_map. split_and!; [done|apply chunks_length|apply chunks_concat|].
  apply Forall2_fmap, Forall_Forall2_diag.
  eapply Forall_impl; [by apply (chunks_ok t ch payload)|].
  intros [h p] (Hw & Hl & H1 & H2). cbn [fst snd] in *. unfold chunk_wire. cbn [fst snd].
  exists h. rewrite <- Hl, (zdrop_app_len (ChunkHeader_wire h)) by (by rewrite len_ChunkHeader_wire).
  split_and!; auto.
  - exact (decode_wire (T:=ChunkHeader) h p Hw).
  - apply Hw.
Qed.

Lemma fragment_correct_witness :
  ∃ bufs, fragment 0x32 1 [104; 105] = Ok bufs ∧ len bufs = 1.
Proof.
  destruct (fragment_correct 0x32 1 [104; 105]) as (bufs & pieces & Hf & Hl & _); [done|done|].
  exists bufs. split; [exact Hf|]. rewrite Hl. vm_compute. reflexivity.
Defined.
