(* ===== verification/Reassembly.v ===== *)
(** * The reassembler against its specification

    Proofs about [Reassembler::push] of [crates/oxproto/src/envelope.rs].  The
    specification is a family of independent channels, each an automaton
    [chan_push] on the partial message of one channel; [push_refines] says that
    the shared map, its byte counter and its two global budgets implement that
    family, and the results on interleaved chunk sequences follow from it. *)

From S2P Require Import Prelude Cursor Wire MsgType Envelope.

(** ** Specification: one channel *)

Definition err_size : DecodeError :=
  InvalidLength "oxproto reassembly" "message exceeds the maximum size for its type".

(** What one channel does with a chunk: [None] is no message in flight. *)
Definition chan_push (s : option Pending) (h : ChunkHeader) (payload : list Z)
    : option Pending * outcome DecodeError (option RawMessage) :=
  let t := h_msg_type h in
  let old := match s with Some p => pend_buf p | None => [] end in
  let started := match s with Some p => pend_type p | None => t end in
  if negb (len payload =? h_length h) then (s, Err err_mismatch)
  else if negb (started =? t) then (None, Err err_type)
  else if len (old ++ payload) >? max_message_len t then (None, Err err_size)
  else if has_more h then (Some (mkPending t (old ++ payload)), Ok None)
  else (None, Ok (Some (mkRaw t (old ++ payload)))).

Fixpoint chan_run (s : option Pending) (cs : list (ChunkHeader * list Z))
    : option Pending * list (outcome DecodeError (option RawMessage)) :=
  match cs with
  | [] => (s, [])
  | c :: cs => let '(s, o) := chan_push s c.1 c.2 in
               let '(s, os) := chan_run s cs in (s, o :: os)
  end.

(** The two budgets all channels share. *)
Definition is_pending (r : Reassembler) (ch : Z) : bool :=
  bool_decide (is_Some (pending r !! ch)).

Definition over_budget (r : Reassembler) (h : ChunkHeader) (payload : list Z) : option DecodeError :=
  let known := is_pending r (h_channel h) in
  if negb (len payload =? h_length h) then None
  else if negb (has_more h) && negb known then None
  else if negb known && (pending_channels r >=? MAX_PENDING_CHANNELS) then Some err_channels
  else if pending_bytes r + len payload >? MAX_PENDING_BYTES then Some err_total
  else None.

(** ** Invariant *)

(** The bytes held across all channels. *)
Definition buffered (m : gmap Z Pending) : Z :=
  map_fold (λ _ p n, len (pend_buf p) + n) 0 m.

Record reasm_inv (r : Reassembler) : Prop := {
  inv_bytes : pending_bytes r = buffered (pending r);
  inv_channels : pending_channels r ≤ MAX_PENDING_CHANNELS;
  inv_total : pending_bytes r ≤ MAX_PENDING_BYTES;
  inv_each : map_Forall (λ _ p, len (pend_buf p) ≤ max_message_len (pend_type p)) (pending r)
}.

(** Replacing the state of one channel. *)
Definition set_channel (r : Reassembler) (ch : Z) (s : option Pending) : Reassembler :=
  let size s := match s with Some p => len (pend_buf p) | None => 0 end in
  mkReassembler (partial_alter (λ _, s) ch (pending r))
    (pending_bytes r - size (pending r !! ch) + size s).

(** ** The byte counter *)

Lemma buffered_insert m i p :
  m !! i = None → buffered (<[i := p]> m) = len (pend_buf p) + buffered m.
Proof. intros. unfold buffered. rewrite map_fold_insert_L; [done|lia|done]. Qed.

Lemma buffered_delete m i p :
  m !! i = Some p → buffered (delete i m) = buffered m - len (pend_buf p).
Proof.
  intros. rewrite <- (insert_delete_id m i p) at 2 by done.
  rewrite buffered_insert; [lia|]. apply lookup_delete_eq.
Qed.

Lemma buffered_nonneg m : 0 ≤ buffered m.
Proof.
  induction m as [|i p m Hi IH] using map_ind; [done|].
  rewrite buffered_insert by done. pose proof (len_nonneg (pend_buf p)). lia.
Qed.

Lemma buffered_lookup m i p : m !! i = Some p → len (pend_buf p) ≤ buffered m.
Proof.
  intros Hi. pose proof (buffered_nonneg (delete i m)).
  pose proof (buffered_delete _ _ _ Hi). lia.
Qed.

Lemma buffered_alter m i s :
  buffered (partial_alter (λ _, s) i m) =
  buffered m - match m !! i with Some p => len (pend_buf p) | None => 0 end
             + match s with Some p => len (pend_buf p) | None => 0 end.
Proof.
  assert (buffered (delete i m) =
          buffered m - match m !! i with Some p => len (pend_buf p) | None => 0 end) as Hd.
  { destruct (m !! i) eqn:E; [by apply buffered_delete|]. rewrite delete_id by done. lia. }
  rewrite <- Hd. destruct s as [p|].
  - change (partial_alter _ i m) with (<[i := p]> m). rewrite <- insert_delete_eq.
    rewrite buffered_insert by apply lookup_delete_eq. lia.
  - change (partial_alter _ i m) with (delete i m). lia.
Qed.

(** ** [push] is [chan_push] behind the two budgets *)

Lemma max_message_len_bounds t : 4096 ≤ max_message_len t ≤ MAX_PENDING_BYTES.
Proof. unfold max_message_len, MAX_PENDING_BYTES. repeat case_match; lia. Qed.

Lemma check_len_err t n : max_message_len t < n → check_len t n = Err err_size.
Proof. intros. unfold check_len. by rewrite gtb_true. Qed.

Lemma check_len_ok t n : n ≤ max_message_len t → check_len t n = Ok tt.
Proof. intros. unfold check_len. by rewrite gtb_false. Qed.

Lemma sub_uint_ok {E} a b : b ≤ a → sub_uint (E:=E) a b = Ok (a - b).
Proof. intros. unfold sub_uint. by replace (b <=? a) with true by lia. Qed.

(** An entry created or found by [entry().or_insert_with()] and then removed. *)
Lemma drop_entry {A} r ch p e :
  reasm_inv r → (pending r !! ch = Some p ∨ pending r !! ch = None ∧ pend_buf p = []) →
  drop_pending (A:=A) (<[ch := p]> (pending r)) (pending_bytes r) ch e =
  (set_channel r ch None, Err e).
Proof.
  intros [Hb _ _ _] Hp. unfold drop_pending. rewrite lookup_insert_eq. unfold set_channel.
  rewrite sub_uint_ok.
  - f_equal. rewrite delete_insert_eq. destruct Hp as [-> | [-> ->]]; f_equal; autorewrite with len; lia.
  - rewrite Hb. destruct Hp as [Hp | [_ ->]]; [by eapply buffered_lookup|apply buffered_nonneg].
Qed.

Lemma set_channel_same r ch : set_channel r ch (pending r !! ch) = r.
Proof.
  unfold set_channel. destruct r as [m n]; cbn. rewrite partial_alter_self. f_equal. lia.
Qed.

Lemma set_channel_none r ch : pending r !! ch = None → set_channel r ch None = r.
Proof. intros E. rewrite <- E. apply set_channel_same. Qed.

(** The branch of [push] that buffers: the entry found or created is [p]. *)
Lemma push_buffer r h payload p :
  reasm_inv r →
  (pending r !! h_channel h = Some p ∨
   pending r !! h_channel h = None ∧ p = mkPending (h_msg_type h) []) →
  pend_type p = h_msg_type h →
  len (pend_buf p ++ payload) ≤ max_message_len (h_msg_type h) →
  let m := <[h_channel h := mkPending (pend_type p) (pend_buf p ++ payload)]>
             (<[h_channel h := p]> (pending r)) in
  mkReassembler m (pending_bytes r + len payload) =
    set_channel r (h_channel h) (Some (mkPending (h_msg_type h) (pend_buf p ++ payload))) ∧
  sub_uint (E:=DecodeError) (pending_bytes r + len payload) (len (pend_buf p ++ payload)) =
    Ok (pending_bytes (set_channel r (h_channel h) None)) ∧
  delete (h_channel h) m = pending (set_channel r (h_channel h) None).
Proof.
  intros [Hb _ _ _] Hp Ht Hl m. subst m. rewrite Ht, insert_insert_eq, delete_insert_eq.
  unfold set_channel; cbn. rewrite Hb. autorewrite with len.
  destruct Hp as [Hp|[Hp ->]]; rewrite Hp; cbn.
  - pose proof (buffered_lookup _ _ _ Hp). split_and!; [f_equal; lia| |done].
    rewrite sub_uint_ok by lia. f_equal. lia.
  - pose proof (buffered_nonneg (pending r)). change (len (@nil Z)) with 0. split_and!; [f_equal; lia| |done].
    rewrite sub_uint_ok by lia. f_equal. lia.
Qed.

Lemma push_spec r h payload :
  reasm_inv r →
  push r h payload =
  match over_budget r h payload with
  | Some e => (r, Err e)
  | None => let '(s, o) := chan_push (pending r !! h_channel h) h payload in
            (set_channel r (h_channel h) s, o)
  end.
Proof.
  intros Hinv. unfold push, over_budget, chan_push, is_pending.
  set (ch := h_channel h). set (t := h_msg_type h).
  destruct (len payload =? h_length h) eqn:El; cbn [negb]; [|by rewrite set_channel_same].
  destruct (pending r !! ch) as [p|] eqn:Ep;
    [rewrite bool_decide_true by eauto|rewrite bool_decide_false by (by intros [? ?])];
    cbn [negb andb default from_option id]; unfold id; rewrite ?andb_false_r, ?andb_true_r.
  - cbn [andb]. destruct (_ >? MAX_PENDING_BYTES); [done|].
    destruct (pend_type p =? t) eqn:Et; cbn [negb]; bool_to_prop; [|apply drop_entry; auto].
    rewrite <- len_app.
    destruct (Z.gtb_spec (len (pend_buf p ++ payload)) (max_message_len t)) as [Hg|Hg].
    { rewrite check_len_err by lia. apply drop_entry; auto. }
    rewrite check_len_ok by lia.
    destruct (push_buffer r h payload p) as (E1 & E2 & E3); auto.
    fold ch in E1, E2, E3. rewrite E1.
    destruct (has_more h); [done|]. rewrite lookup_insert_eq. cbn [pend_buf pend_type].
    rewrite E2, E3, Et. by destruct (set_channel r ch None).
  - rewrite Z.eqb_refl. cbn [negb app]. destruct (has_more h) eqn:Eh; cbn [negb].
    + destruct (pending_channels r >=? _); [done|]. destruct (_ >? MAX_PENDING_BYTES); [done|].
      cbn [pend_type pend_buf]. rewrite Z.eqb_refl. cbn [negb]. rewrite len_nil, Z.add_0_l.
      destruct (Z.gtb_spec (len payload) (max_message_len t)) as [Hg|Hg].
      { rewrite check_len_err by lia. apply drop_entry; auto. }
      rewrite check_len_ok by lia.
      destruct (push_buffer r h payload (mkPending t [])) as (E1 & E2 & E3); auto.
      fold ch in E1. cbn [pend_type pend_buf app] in E1. cbn [app]. by rewrite E1.
    + destruct (Z.gtb_spec (len payload) (max_message_len t)) as [Hg|Hg].
      * rewrite check_len_err by lia. cbv beta iota. rewrite Z.eqb_refl. cbn [negb]. by rewrite set_channel_none.
      * rewrite check_len_ok by lia. cbv beta iota. rewrite Z.eqb_refl. cbn [negb]. by rewrite set_channel_none.
Qed.

(** ** The invariant is preserved *)

Lemma reasm_inv_new : reasm_inv Reassembler_new.
Proof. by split. Qed.

Lemma pending_set_channel r ch s ch' :
  pending (set_channel r ch s) !! ch' = if decide (ch' = ch) then s else pending r !! ch'.
Proof.
  cbn. case_decide; subst; [apply lookup_partial_alter_eq|by apply lookup_partial_alter_ne].
Qed.

Lemma pending_channels_set r ch s :
  pending_channels (set_channel r ch s) =
  pending_channels r + (match s with Some _ => 1 | None => 0 end) - (if is_pending r ch then 1 else 0).
Proof.
  unfold pending_channels, is_pending, set_channel; cbn.
  destruct s as [p|].
  - change (partial_alter _ ch ?m) with (<[ch := p]> m).
    destruct (pending r !! ch) eqn:E.
    + rewrite bool_decide_true by eauto. rewrite map_size_insert_Some by eauto. lia.
    + rewrite bool_decide_false by (by intros [? ?]). rewrite map_size_insert_None by done. lia.
  - change (partial_alter _ ch ?m) with (delete ch m).
    destruct (pending r !! ch) eqn:E.
    + rewrite bool_decide_true by eauto. rewrite map_size_delete_Some by eauto.
      assert (size (pending r) ≠ 0%nat) by (apply map_size_ne_0_lookup; eauto). lia.
    + rewrite bool_decide_false by (by intros [? ?]). rewrite map_size_delete_None by done. lia.
Qed.

(** The limit a channel keeps, and what it adds to the buffered total. *)
Lemma chan_push_within s h payload s' o :
  chan_push s h payload = (s', o) →
  s' = s ∨ s' = None ∨
  (has_more h = true ∧ len payload = h_length h ∧
   ∃ old, s' = Some (mkPending (h_msg_type h) (old ++ payload)) ∧
     len (old ++ payload) ≤ max_message_len (h_msg_type h) ∧
     old = match s with Some p => pend_buf p | None => [] end).
Proof.
  unfold chan_push. repeat case_match; intros; simplify_eq; bool_to_prop; auto.
  all: right; right; split_and!; auto; eexists; split_and!; [done| |done].
  all: match goal with H : (_ >? _) = false |- _ => rewrite Z.gtb_ltb in H; lia end.
Qed.

Lemma push_preserves r h payload : reasm_inv r → reasm_inv (push r h payload).1.
Proof.
  intros Hinv. rewrite push_spec by done.
  destruct (over_budget r h payload) eqn:Eb; [done|].
  destruct (chan_push _ h payload) as [s o] eqn:Ec. cbn [fst].
  pose proof (chan_push_within _ _ _ _ _ Ec) as Hs.
  destruct Hinv as [Hb Hc Ht He].
  assert (buffered (pending (set_channel r (h_channel h) s)) =
          pending_bytes (set_channel r (h_channel h) s)) as Hbytes.
  { cbn. rewrite buffered_alter. lia. }
  destruct Hs as [-> | [-> | (Hm & Hl & old & -> & Hmax & Hold)]].
  - by rewrite set_channel_same.
  - split; [done| | |].
    + rewrite pending_channels_set. destruct (is_pending _ _); lia.
    + cbn. destruct (pending r !! h_channel h) as [p|]; [|lia].
      pose proof (len_nonneg (pend_buf p)). lia.
    + by apply map_Forall_delete.
  - unfold over_budget in Eb. rewrite Hl, Z.eqb_refl, Hm in Eb. cbn [negb andb] in Eb.
    destruct (negb (is_pending _ _) && _) eqn:Ek; [done|].
    destruct (_ >? MAX_PENDING_BYTES) eqn:Et; [done|].
    rewrite Z.gtb_ltb in Et. rewrite Z.geb_leb in Ek. bool_to_prop. split; [done| | |].
    + rewrite pending_channels_set. destruct (is_pending _ _); cbn in Ek; bool_to_prop; lia.
    + cbn. destruct (pending r !! h_channel h) as [p|]; cbn [pend_buf] in *;
      subst old; autorewrite with len; len_lia.
    + by apply map_Forall_insert_2.
Qed.

Lemma push_all_preserves cs r : reasm_inv r → reasm_inv (push_all r cs).1.
Proof.
  revert r. induction cs as [|[h p] cs IH]; intros r Hr; [done|]. cbn.
  pose proof (push_preserves r h p Hr). destruct (push r h p) as [r1 o].
  specialize (IH r1). destruct (push_all r1 cs). by apply IH.
Qed.

Lemma chan_push_no_panic s h payload : (chan_push s h payload).2 ≠ Panic.
Proof. unfold chan_push. by repeat case_match. Qed.

Lemma push_no_panic r h payload : reasm_inv r → (push r h payload).2 ≠ Panic.
Proof.
  intros. rewrite push_spec by done. case_match; [done|].
  pose proof (chan_push_no_panic (pending r !! h_channel h) h payload).
  by destruct (chan_push _ _ _).
Qed.

(** ** Interleaved channels *)

Definition budget_error (o : outcome DecodeError (option RawMessage)) : bool :=
  match o with
  | Err e => bool_decide (e = err_channels ∨ e = err_total)
  | _ => false
  end.

(** The chunks of one channel, and the results of pushing them. *)
Definition on_channel (ch : Z) (cs : list (ChunkHeader * list Z)) : list (ChunkHeader * list Z) :=
  List.filter (λ c, h_channel c.1 =? ch) cs.

Fixpoint results_on {A} (ch : Z) (cs : list (ChunkHeader * list Z)) (os : list A) : list A :=
  match cs, os with
  | c :: cs, o :: os => if h_channel c.1 =? ch then o :: results_on ch cs os else results_on ch cs os
  | _, _ => []
  end.

Lemma over_budget_error r h payload e :
  over_budget r h payload = Some e → budget_error (Err e) = true.
Proof.
  unfold over_budget. repeat case_match; intros; simplify_eq; apply bool_decide_true; auto.
Qed.

(** On every channel, the shared reassembler is that channel's automaton. *)
Lemma push_all_channel cs r r' os ch :
  reasm_inv r → push_all r cs = (r', os) → Forall (λ o, budget_error o = false) os →
  chan_run (pending r !! ch) (on_channel ch cs) = (pending r' !! ch, results_on ch cs os).
Proof.
  revert r os. induction cs as [|[h p] cs IH]; intros r os Hr Hp Hos.
  { cbn in *. by simplify_eq. }
  cbn [push_all] in Hp. pose proof (push_preserves r h p Hr) as Hr1.
  pose proof (push_spec r h p Hr) as Hs.
  destruct (push r h p) as [r1 o] eqn:E1. destruct (push_all r1 cs) as [r2 os'] eqn:E2.
  simplify_eq. apply Forall_cons in Hos as [Ho Hos].
  specialize (IH r1 os' Hr1 E2 Hos).
  destruct (over_budget r h p) eqn:Eb.
  { apply over_budget_error in Eb. simplify_eq. congruence. }
  destruct (chan_push _ h p) as [s o'] eqn:Ec. simplify_eq.
  cbn [on_channel List.filter results_on fst]. fold (on_channel ch cs).
  rewrite pending_set_channel in IH. destruct (Z.eqb_spec (h_channel h) ch) as [<-|Hne].
  - rewrite decide_True in IH by done. cbn [chan_run fst snd]. rewrite Ec. by rewrite IH.
  - rewrite decide_False in IH by congruence. done.
Qed.

(** ** Reassembling what [fragment] produced *)

(** The chunks of one message, pushed from a partial message of its type. *)
Lemma chan_run_chunks_from t ch payload old s :
  s = Some (mkPending t old) ∨ (s = None ∧ old = []) →
  len (old ++ payload) ≤ max_message_len t →
  chan_run s (chunks t ch payload) =
  (None, replicate (pred (length (chunks t ch payload))) (Ok None) ++
         [Ok (Some (mkRaw t (old ++ payload)))]).
Proof.
  revert old s. induction payload as [l Hl|l Hl IH] using payload_ind; intros old s Hs Hmax.
  - rewrite chunks_small by done. cbn [chan_run length pred replicate app].
    unfold chan_push. cbn [mk_chunk fst snd h_msg_type h_length]. rewrite Z.eqb_refl. cbn [negb].
    change (has_more _) with false.
    destruct Hs as [-> | [-> ->]]; cbn [pend_type pend_buf]; rewrite Z.eqb_refl; cbn [negb];
      by rewrite gtb_false.
  - rewrite chunks_big by done. cbn [chan_run].
    assert (len ((old ++ ztake MAX_CHUNK_PAYLOAD l) ++ zdrop MAX_CHUNK_PAYLOAD l) ≤ max_message_len t).
    { by rewrite <- app_assoc, ztake_zdrop. }
    assert (chan_push s (mk_chunk t ch true (ztake MAX_CHUNK_PAYLOAD l)).1
              (mk_chunk t ch true (ztake MAX_CHUNK_PAYLOAD l)).2 =
            (Some (mkPending t (old ++ ztake MAX_CHUNK_PAYLOAD l)), Ok None)) as ->.
    { unfold chan_push. cbn [mk_chunk fst snd h_msg_type h_length]. rewrite Z.eqb_refl. cbn [negb].
      change (has_more _) with true.
      rewrite (len_app (old ++ _)) in H. pose proof (len_nonneg (zdrop MAX_CHUNK_PAYLOAD l)).
      destruct Hs as [-> | [-> ->]]; cbn [pend_type pend_buf]; rewrite Z.eqb_refl; cbn [negb];
        rewrite gtb_false by lia; done. }
    rewrite (IH (old ++ ztake MAX_CHUNK_PAYLOAD l)) by auto.
    rewrite <- app_assoc, ztake_zdrop.
    assert (length (chunks t ch (zdrop MAX_CHUNK_PAYLOAD l)) ≠ 0%nat).
    { pose proof (chunks_length t ch (zdrop MAX_CHUNK_PAYLOAD l)). unfold len in *. lia. }
    cbn [length pred].
    by destruct (length (chunks t ch (zdrop MAX_CHUNK_PAYLOAD l))).
Qed.

Lemma chan_run_app s cs1 cs2 :
  chan_run s (cs1 ++ cs2) =
  let '(s1, os1) := chan_run s cs1 in
  let '(s2, os2) := chan_run s1 cs2 in (s2, os1 ++ os2).
Proof.
  revert s. induction cs1 as [|c cs1 IH]; intros s; cbn.
  - by destruct (chan_run s cs2).
  - destruct (chan_push s c.1 c.2) as [s1 o]. rewrite IH.
    destruct (chan_run s1 cs1) as [s2 os]. by destruct (chan_run s2 cs2).
Qed.

(** The messages a list of results delivers. *)
Definition delivered (os : list (outcome DecodeError (option RawMessage))) : list RawMessage :=
  omap (λ o, match o with Ok (Some m) => Some m | _ => None end) os.

Definition within_limit (m : RawMessage) : Prop := len (raw_payload m) ≤ max_message_len (raw_type m).

Lemma delivered_chunk_run n m : delivered (replicate n (Ok None) ++ [Ok (Some m)]) = [m].
Proof. induction n; [done|]. by cbn. Qed.

(** Any sequence of legal messages, fragmented one after the other on one
    channel, is delivered as it was sent. *)
Lemma chan_run_messages ch ms :
  Forall within_limit ms →
  let '(s, os) := chan_run None (concat (map (λ m, chunks (raw_type m) ch (raw_payload m)) ms)) in
  s = None ∧ delivered os = ms ∧ Forall (λ o, ∃ m, o = Ok m) os.
Proof.
  induction 1 as [|m ms Hm _ IH]; cbn; [by split_and!|].
  rewrite chan_run_app, (chan_run_chunks_from _ _ _ []) by auto.
  destruct (chan_run None _) as [s os]. destruct IH as (-> & Hd & Ho). split_and!; [done| |].
  - unfold delivered in *. rewrite omap_app, Hd.
    pose proof (delivered_chunk_run (pred (length (chunks (raw_type m) ch (raw_payload m)))) m) as Hr.
    unfold delivered in Hr. cbn [app]. destruct m; cbn in *. by rewrite Hr.
  - apply Forall_app; split; [|done]. apply Forall_app; split; [|by repeat constructor; eauto].
    apply Forall_replicate. eauto.
Qed.

(** ** Bytes in, bytes out *)

Definition reasm_u8 (r : Reassembler) : Prop := map_Forall (λ _ p, Forall u8 (pend_buf p)) (pending r).

Lemma reasm_u8_new : reasm_u8 Reassembler_new.
Proof. apply map_Forall_empty. Qed.

Lemma push_u8 r h payload :
  reasm_inv r → reasm_u8 r → Forall u8 payload →
  reasm_u8 (push r h payload).1 ∧
  match (push r h payload).2 with Ok (Some m) => Forall u8 (raw_payload m) | _ => True end.
Proof.
  intros Hr Hu Hp. rewrite push_spec by done. destruct (over_budget r h payload); [done|].
  assert (Forall u8 (match pending r !! h_channel h with Some p => pend_buf p | None => [] end ++ payload)) as Hb.
  { apply Forall_app. split; [|done]. destruct (pending r !! h_channel h) as [p|] eqn:E; [|constructor].
    by apply Hu in E. }
  unfold chan_push. repeat case_if; cbn [fst snd raw_payload];
    (split; [|done || by destruct_and?]); rewrite ?set_channel_same; try done;
    try (by apply map_Forall_delete); by apply map_Forall_insert_2.
Qed.

(** ** One message in a shared reassembler *)

(** [ch] has [old] of a message of type [t] in flight, or nothing and room. *)
Definition in_flight (r : Reassembler) (t ch : Z) (old : list Z) : Prop :=
  pending r !! ch = Some (mkPending t old) ∨
  (pending r !! ch = None ∧ old = [] ∧ pending_channels r < MAX_PENDING_CHANNELS).

Lemma push_chunk r t ch more p old :
  reasm_inv r → in_flight r t ch old →
  len (old ++ p) ≤ max_message_len t → pending_bytes r + len p ≤ MAX_PENDING_BYTES →
  push r (mk_chunk t ch more p).1 p =
  if more then (set_channel r ch (Some (mkPending t (old ++ p))), Ok None)
  else (set_channel r ch None, Ok (Some (mkRaw t (old ++ p)))).
Proof.
  intros Hr Hf Hmax Htot. rewrite push_spec by done.
  assert (over_budget r (mk_chunk t ch more p).1 p = None) as ->.
  { unfold over_budget. cbn [mk_chunk fst h_length h_channel]. rewrite Z.eqb_refl, gtb_false by lia.
    cbn [negb]. rewrite Z.geb_leb. unfold is_pending.
    destruct Hf as [Hf | (Hf & _ & Hc)]; rewrite Hf.
    - rewrite bool_decide_true by eauto. by repeat case_match.
    - replace (MAX_PENDING_CHANNELS <=? pending_channels r) with false by lia.
      rewrite andb_false_r. by case_match. }
  unfold chan_push. rewrite has_more_mk. cbn [mk_chunk fst h_length h_channel h_msg_type].
  rewrite Z.eqb_refl. cbn [negb].
  destruct Hf as [Hf | (Hf & -> & _)]; rewrite Hf; cbn [pend_type pend_buf]; rewrite Z.eqb_refl;
    cbn [negb]; rewrite gtb_false by done; by destruct more.
Qed.

Lemma set_channel_set r ch s1 s2 : set_channel (set_channel r ch s1) ch s2 = set_channel r ch s2.
Proof.
  unfold set_channel; cbn. rewrite lookup_partial_alter_eq. f_equal; [|lia].
  by rewrite partial_alter_partial_alter_eq.
Qed.

Lemma pending_bytes_set r t ch old p :
  in_flight r t ch old →
  pending_bytes (set_channel r ch (Some (mkPending t (old ++ p)))) = pending_bytes r + len p.
Proof.
  intros Hf. cbn. rewrite len_app.
  destruct Hf as [-> | (-> & -> & _)]; cbn [pend_buf]; change (len (@nil Z)) with 0; lia.
Qed.

(** The chunks of one message, pushed into a shared reassembler with room for
    it, deliver the message with the last chunk and leave no trace. *)
Lemma push_all_chunks r t ch payload old :
  reasm_inv r → in_flight r t ch old →
  len (old ++ payload) ≤ max_message_len t → pending_bytes r + len payload ≤ MAX_PENDING_BYTES →
  push_all r (chunks t ch payload) =
  (set_channel r ch None, replicate (pred (length (chunks t ch payload))) (Ok None) ++
                          [Ok (Some (mkRaw t (old ++ payload)))]).
Proof.
  revert old r. induction payload as [l Hl|l Hl IH] using payload_ind; intros old r Hr Hf Hmax Htot.
  - rewrite chunks_small by done. cbn [push_all mk_chunk length pred replicate app].
    change (mkHeader t 0 ch (len l)) with (mk_chunk t ch false l).1.
    by rewrite (push_chunk r t ch false l old).
  - rewrite chunks_big by done. cbn [push_all mk_chunk length pred].
    change (mkHeader t 1 ch ?n) with (mk_chunk t ch true (ztake MAX_CHUNK_PAYLOAD l)).1.
    pose proof (ztake_zdrop MAX_CHUNK_PAYLOAD l) as Es. apply (f_equal len) in Es as El.
    rewrite len_app in El. pose proof (len_nonneg (zdrop MAX_CHUNK_PAYLOAD l)).
    rewrite len_app in Hmax.
    pose proof (push_preserves r (mk_chunk t ch true (ztake MAX_CHUNK_PAYLOAD l)).1
                  (ztake MAX_CHUNK_PAYLOAD l) Hr) as Hr'.
    rewrite (push_chunk r t ch true (ztake MAX_CHUNK_PAYLOAD l) old) in Hr' |- *
      by (try done; rewrite ?len_app; lia).
    rewrite (IH (old ++ ztake MAX_CHUNK_PAYLOAD l)).
    + rewrite set_channel_set, <- app_assoc, ztake_zdrop.
      pose proof (chunks_nonempty t ch (zdrop MAX_CHUNK_PAYLOAD l)).
      by destruct (chunks t ch (zdrop MAX_CHUNK_PAYLOAD l)).
    + done.
    + left. rewrite pending_set_channel. by rewrite decide_True.
    + rewrite <- app_assoc, ztake_zdrop, len_app. done.
    + rewrite pending_bytes_set by done. lia.
Qed.

(** ** Properties *)

(** C10: whatever chunks a peer sends, in any order on any channels, the
    reassembler never panics and keeps its invariant: the byte counter is the
    sum of the partial messages, at most 64 channels and 64 MiB are held, and
    no partial message exceeds the limit of its type. *)
Theorem reassembler_bounded cs :
  let '(r, os) := push_all Reassembler_new cs in
  reasm_inv r ∧ Forall (λ o, o ≠ Panic) os.
Proof.
  pose proof reasm_inv_new as Hr. revert Hr. generalize Reassembler_new.
  induction cs as [|[h p] cs IH]; intros r Hr; cbn; [done|].
  pose proof (push_preserves r h p Hr). pose proof (push_no_panic r h p Hr).
  destruct (push r h p) as [r1 o]. specialize (IH r1). destruct (push_all r1 cs) as [r2 os].
  destruct IH; auto.
Qed.

(** C9: one [push] is one step of the chunk's own channel behind the two
    shared budgets: a budget error changes nothing; otherwise the channel does
    what [chan_push] does, with its result, and every other channel and the
    byte accounting of its messages are left alone.  In particular a type
    mismatch or an oversized message drops that channel's bytes only. *)
Theorem push_refines_channels r h payload :
  reasm_inv r →
  match over_budget r h payload with
  | Some e => push r h payload = (r, Err e)
  | None =>
    let '(s, o) := chan_push (pending r !! h_channel h) h payload in
    let '(r', o') := push r h payload in
    o' = o ∧ pending r' !! h_channel h = s ∧
    (∀ ch, ch ≠ h_channel h → pending r' !! ch = pending r !! ch) ∧
    pending_bytes r' = buffered (pending r')
  end.
Proof.
  intros Hr. pose proof (push_preserves r h payload Hr) as [Hb _ _ _].
  rewrite push_spec in * by done. destruct (over_budget r h payload); [done|].
  destruct (chan_push _ h payload) as [s o]. split_and!; auto.
  - rewrite pending_set_channel. by rewrite decide_True.
  - intros. rewrite pending_set_channel. by rewrite decide_False.
Qed.

Lemma push_refines_channels_witness :
  (push Reassembler_new (mkHeader 0x20 1 16 3) [1; 2; 3]).2 = Ok None.
Proof.
  pose proof (push_refines_channels Reassembler_new (mkHeader 0x20 1 16 3) [1; 2; 3]
    reasm_inv_new) as H.
  destruct (push Reassembler_new (mkHeader 0x20 1 16 3) [1; 2; 3]) as [r o].
  destruct H as [-> _]. reflexivity.
Defined.

(** Chunk streams of different channels may interleave in any way: if the
    chunks of a channel with nothing in flight are, in order, the fragments of
    messages within the limits of their types, then exactly those messages come
    out for that channel, in order, without an error, and nothing is left
    behind - as long as no push ran into a shared budget. *)
Theorem interleaved_messages_delivered r cs r' os ch ms :
  reasm_inv r → push_all r cs = (r', os) → Forall (λ o, budget_error o = false) os →
  pending r !! ch = None → Forall within_limit ms →
  on_channel ch cs = concat (map (λ m, chunks (raw_type m) ch (raw_payload m)) ms) →
  delivered (results_on ch cs os) = ms ∧
  Forall (λ o, ∃ m, o = Ok m) (results_on ch cs os) ∧
  pending r' !! ch = None.
Proof.
  intros Hr Hp Hos Hnone Hms Hcs.
  pose proof (push_all_channel cs r r' os ch Hr Hp Hos) as Hrun.
  pose proof (chan_run_messages ch ms Hms) as Hm.
  rewrite Hnone, Hcs in Hrun. rewrite Hrun in Hm. destruct Hm as (? & ? & ?); auto.
Qed.

(** Two channels, a fragment of one between two of the other. *)
Definition interleaved_example : list (ChunkHeader * list Z) :=
  [mk_chunk 0x05 0 false [1; 2]; mk_chunk 0x20 16 false [7]; mk_chunk 0x06 0 false [3]].

Lemma interleaved_messages_delivered_witness :
  delivered (results_on 0 interleaved_example
    (push_all Reassembler_new interleaved_example).2) = [mkRaw 0x05 [1; 2]; mkRaw 0x06 [3]].
Proof.
  refine (proj1 (interleaved_messages_delivered Reassembler_new interleaved_example
    (push_all Reassembler_new interleaved_example).1
    (push_all Reassembler_new interleaved_example).2 0
    [mkRaw 0x05 [1; 2]; mkRaw 0x06 [3]] reasm_inv_new _ _ _ _ _)).
  - vm_compute. reflexivity.
  - vm_compute. repeat constructor.
  - reflexivity.
  - repeat constructor; vm_compute; discriminate.
  - vm_compute. reflexivity.
Defined.
