(* ===== verification/ProtoMessage.v ===== *)
(** * The message enum: type codes, channels, encoding and decoding

    [Message] of [crates/oxproto/src/message/mod.rs]: the sum of the message
    bodies of [MsgControl], [MsgWindow] and [MsgInput], the dispatch of
    [encode_body] and [decode_known], and [to_chunks], which hands an encoded
    body to [fragment].  The end-to-end statements join the message codecs with
    the framing of [Envelope] and [Reassembly]. *)

From S2P Require Import Prelude Cursor Wire MsgType MsgControl MsgInput MsgWindow.
From S2P Require Import Envelope Reassembly.

Module Message.

Inductive t : Type :=
| ClientHello (m : MsgControl.ClientHello)
| ServerHello (m : MsgControl.ServerHello)
| Error (m : MsgControl.Error)
| Close (m : MsgControl.Close)
| Ping (m : MsgControl.Ping)
| Pong (m : MsgControl.Pong)
| QualityHint (m : MsgControl.QualityHint)
| DisplayLayout (m : MsgControl.DisplayLayout)
| WindowOpened (m : MsgWindow.WindowOpened)
| WindowClosed (m : MsgWindow.WindowClosed)
| WindowGeometry (m : MsgWindow.WindowGeometry)
| WindowTitle (m : MsgWindow.WindowTitle)
| WindowState (m : MsgWindow.WindowState)
| WindowZOrder (m : MsgWindow.WindowZOrder)
| WindowIcon (m : MsgWindow.WindowIcon)
| FrameData (m : MsgWindow.FrameData)
| FrameAck (m : MsgWindow.FrameAck)
| PointerEvent (m : MsgInput.PointerEvent)
| KeyEvent (m : MsgInput.KeyEvent)
| TextInput (m : MsgInput.TextInput)
| ModifierSync (m : MsgInput.ModifierSync)
| WindowControl (m : MsgInput.WindowControl)
| CursorShape (m : MsgInput.CursorShape)
| CursorPosition (m : MsgInput.CursorPosition)
| CursorVisibility (m : MsgInput.CursorVisibility).

Definition msg_type (m : t) : Z :=
  match m with
  | ClientHello _ => msg_type.CLIENT_HELLO
  | ServerHello _ => msg_type.SERVER_HELLO
  | Error _ => msg_type.ERROR
  | Close _ => msg_type.CLOSE
  | Ping _ => msg_type.PING
  | Pong _ => msg_type.PONG
  | QualityHint _ => msg_type.QUALITY_HINT
  | DisplayLayout _ => msg_type.DISPLAY_LAYOUT
  | WindowOpened _ => msg_type.WINDOW_OPENED
  | WindowClosed _ => msg_type.WINDOW_CLOSED
  | WindowGeometry _ => msg_type.WINDOW_GEOMETRY
  | WindowTitle _ => msg_type.WINDOW_TITLE
  | WindowState _ => msg_type.WINDOW_STATE
  | WindowZOrder _ => msg_type.WINDOW_ZORDER
  | WindowIcon _ => msg_type.WINDOW_ICON
  | FrameData _ => msg_type.FRAME_DATA
  | FrameAck _ => msg_type.FRAME_ACK
  | PointerEvent _ => msg_type.POINTER_EVENT
  | KeyEvent _ => msg_type.KEY_EVENT
  | TextInput _ => msg_type.TEXT_INPUT
  | ModifierSync _ => msg_type.MODIFIER_SYNC
  | WindowControl _ => msg_type.WINDOW_CONTROL
  | CursorShape _ => msg_type.CURSOR_SHAPE
  | CursorPosition _ => msg_type.CURSOR_POSITION
  | CursorVisibility _ => msg_type.CURSOR_VISIBILITY
  end.

Definition channel (m : t) (video_channel : Z) : Z :=
  match m with
  | FrameData _ => video_channel
  | PointerEvent _ | KeyEvent _ | TextInput _ | ModifierSync _ | WindowControl _ => channel.INPUT
  | CursorShape _ | CursorPosition _ | CursorVisibility _ => channel.CURSOR
  | WindowOpened _ | WindowClosed _ | WindowGeometry _ | WindowTitle _ | WindowState _
  | WindowZOrder _ | WindowIcon _ => channel.WINDOW
  | _ => channel.CONTROL
  end.

Definition encode_body (m : t) : outcome EncodeError (list Z) :=
  match m with
  | ClientHello m => encode_vec m
  | ServerHello m => encode_vec m
  | Error m => encode_vec m
  | Close m => encode_vec m
  | Ping m => encode_vec m
  | Pong m => encode_vec m
  | QualityHint m => encode_vec m
  | DisplayLayout m => encode_vec m
  | WindowOpened m => encode_vec m
  | WindowClosed m => encode_vec m
  | WindowGeometry m => encode_vec m
  | WindowTitle m => encode_vec m
  | WindowState m => encode_vec m
  | WindowZOrder m => encode_vec m
  | WindowIcon m => encode_vec m
  | FrameData m => encode_vec m
  | FrameAck m => encode_vec m
  | PointerEvent m => encode_vec m
  | KeyEvent m => encode_vec m
  | TextInput m => encode_vec m
  | ModifierSync m => encode_vec m
  | WindowControl m => encode_vec m
  | CursorShape m => encode_vec m
  | CursorPosition m => encode_vec m
  | CursorVisibility m => encode_vec m
  end.

(** [Constructor(decode(body)?)] and the final [Ok(Some(msg))]. *)
Definition decoded {T} `{Decode T} (C : T → t) (body : list Z) : outcome DecodeError (option t) :=
  m ← decode body; Ok (Some (C m)).

Definition decode_known (ty : Z) (body : list Z) : outcome DecodeError (option t) :=
  if ty =? msg_type.CLIENT_HELLO then decoded ClientHello body
  else if ty =? msg_type.SERVER_HELLO then decoded ServerHello body
  else if ty =? msg_type.ERROR then decoded Error body
  else if ty =? msg_type.CLOSE then decoded Close body
  else if ty =? msg_type.PING then decoded Ping body
  else if ty =? msg_type.PONG then decoded Pong body
  else if ty =? msg_type.QUALITY_HINT then decoded QualityHint body
  else if ty =? msg_type.DISPLAY_LAYOUT then decoded DisplayLayout body
  else if ty =? msg_type.WINDOW_OPENED then decoded WindowOpened body
  else if ty =? msg_type.WINDOW_CLOSED then decoded WindowClosed body
  else if ty =? msg_type.WINDOW_GEOMETRY then decoded WindowGeometry body
  else if ty =? msg_type.WINDOW_TITLE then decoded WindowTitle body
  else if ty =? msg_type.WINDOW_STATE then decoded WindowState body
  else if ty =? msg_type.WINDOW_ZORDER then decoded WindowZOrder body
  else if ty =? msg_type.WINDOW_ICON then decoded WindowIcon body
  else if ty =? msg_type.FRAME_DATA then decoded FrameData body
  else if ty =? msg_type.FRAME_ACK then decoded FrameAck body
  else if ty =? msg_type.POINTER_EVENT then decoded PointerEvent body
  else if ty =? msg_type.KEY_EVENT then decoded KeyEvent body
  else if ty =? msg_type.TEXT_INPUT then decoded TextInput body
  else if ty =? msg_type.MODIFIER_SYNC then decoded ModifierSync body
  else if ty =? msg_type.WINDOW_CONTROL then decoded WindowControl body
  else if ty =? msg_type.CURSOR_SHAPE then decoded CursorShape body
  else if ty =? msg_type.CURSOR_POSITION then decoded CursorPosition body
  else if ty =? msg_type.CURSOR_VISIBILITY then decoded CursorVisibility body
  else Ok None.

Definition decode_body (ty : Z) (body : list Z) : outcome DecodeError t :=
  m ← decode_known ty body;
  ok_or m (InvalidField "oxproto message" "type" "unknown message type").

Definition to_chunks (m : t) (video_channel : Z) : outcome EncodeError (list (list Z)) :=
  body ← encode_body m;
  fragment (msg_type m) (channel m video_channel) body.

(** ** Layout *)

Definition wf (m : t) : Prop :=
  match m with
  | ClientHello m => Cursor.wf m
  | ServerHello m => Cursor.wf m
  | Error m => Cursor.wf m
  | Close m => Cursor.wf m
  | Ping m => Cursor.wf m
  | Pong m => Cursor.wf m
  | QualityHint m => Cursor.wf m
  | DisplayLayout m => Cursor.wf m
  | WindowOpened m => Cursor.wf m
  | WindowClosed m => Cursor.wf m
  | WindowGeometry m => Cursor.wf m
  | WindowTitle m => Cursor.wf m
  | WindowState m => Cursor.wf m
  | WindowZOrder m => Cursor.wf m
  | WindowIcon m => Cursor.wf m
  | FrameData m => Cursor.wf m
  | FrameAck m => Cursor.wf m
  | PointerEvent m => Cursor.wf m
  | KeyEvent m => Cursor.wf m
  | TextInput m => Cursor.wf m
  | ModifierSync m => Cursor.wf m
  | WindowControl m => Cursor.wf m
  | CursorShape m => Cursor.wf m
  | CursorPosition m => Cursor.wf m
  | CursorVisibility m => Cursor.wf m
  end.

Definition wire (m : t) : list Z :=
  match m with
  | ClientHello m => Cursor.wire m
  | ServerHello m => Cursor.wire m
  | Error m => Cursor.wire m
  | Close m => Cursor.wire m
  | Ping m => Cursor.wire m
  | Pong m => Cursor.wire m
  | QualityHint m => Cursor.wire m
  | DisplayLayout m => Cursor.wire m
  | WindowOpened m => Cursor.wire m
  | WindowClosed m => Cursor.wire m
  | WindowGeometry m => Cursor.wire m
  | WindowTitle m => Cursor.wire m
  | WindowState m => Cursor.wire m
  | WindowZOrder m => Cursor.wire m
  | WindowIcon m => Cursor.wire m
  | FrameData m => Cursor.wire m
  | FrameAck m => Cursor.wire m
  | PointerEvent m => Cursor.wire m
  | KeyEvent m => Cursor.wire m
  | TextInput m => Cursor.wire m
  | ModifierSync m => Cursor.wire m
  | WindowControl m => Cursor.wire m
  | CursorShape m => Cursor.wire m
  | CursorPosition m => Cursor.wire m
  | CursorVisibility m => Cursor.wire m
  end.

End Message.

(** The codes this build implements. *)
Definition known_types : list Z :=
  [msg_type.CLIENT_HELLO; msg_type.SERVER_HELLO; msg_type.ERROR; msg_type.CLOSE; msg_type.PING; msg_type.PONG; msg_type.QUALITY_HINT; msg_type.DISPLAY_LAYOUT; msg_type.WINDOW_OPENED; msg_type.WINDOW_CLOSED; msg_type.WINDOW_GEOMETRY; msg_type.WINDOW_TITLE; msg_type.WINDOW_STATE; msg_type.WINDOW_ZORDER; msg_type.WINDOW_ICON; msg_type.FRAME_DATA; msg_type.FRAME_ACK; msg_type.POINTER_EVENT; msg_type.KEY_EVENT; msg_type.TEXT_INPUT; msg_type.MODIFIER_SYNC; msg_type.WINDOW_CONTROL; msg_type.CURSOR_SHAPE; msg_type.CURSOR_POSITION; msg_type.CURSOR_VISIBILITY].

(** ** Lemmas *)

Lemma msg_type_u8 m : u8 (Message.msg_type m).
Proof. by destruct m. Qed.

Lemma channel_u16 m vc : u16 vc → u16 (Message.channel m vc).
Proof. by destruct m. Qed.

Lemma encode_body_wire m : Message.wf m → Message.encode_body m = Ok (Message.wire m).
Proof. destruct m as [m|m|m|m|m|m|m|m|m|m|m|m|m|m|m|m|m|m|m|m|m|m|m|m|m]; exact (encode_vec_wire m). Qed.

Lemma decoded_wire {T} `{WireFormat T} (C : T → Message.t) m rest :
  wf m → Message.decoded C (wire m ++ rest) = Ok (Some (C m)).
Proof. intros Hm. unfold Message.decoded. by rewrite decode_wire. Qed.

Lemma decode_known_wire m rest :
  Message.wf m →
  Message.decode_known (Message.msg_type m) (Message.wire m ++ rest) = Ok (Some m).
Proof.
  destruct m as [m|m|m|m|m|m|m|m|m|m|m|m|m|m|m|m|m|m|m|m|m|m|m|m|m]; intros Hm;
    exact (decoded_wire _ m rest Hm).
Qed.

Lemma message_wire_u8 m : Message.wf m → Forall u8 (Message.wire m).
Proof. destruct m as [m|m|m|m|m|m|m|m|m|m|m|m|m|m|m|m|m|m|m|m|m|m|m|m|m]; exact (wire_bytes m). Qed.

(** What a decoded result may be, for the type code it was asked for. *)
Definition decode_post (ty : Z) (o : outcome DecodeError (option Message.t)) : Prop :=
  match o with
  | Ok (Some m) => Message.wf m ∧ Message.msg_type m = ty
  | Ok None => ty ∉ known_types
  | Err _ => ty ∈ known_types
  | Panic => False
  end.

(** One arm of [decode_known]'s match. *)
Lemma decode_arm {T} `{WireFormat T} (C : T → Message.t) ty c body other :
  Forall u8 body → c ∈ known_types →
  (∀ m, wf m → Message.wf (C m) ∧ Message.msg_type (C m) = c) →
  (ty ≠ c → decode_post ty other) →
  decode_post ty (if ty =? c then Message.decoded C body else other).
Proof.
  intros Hu Hc HC Ho. destruct (Z.eqb_spec ty c) as [->|?]; [|auto].
  unfold Message.decoded. pose proof (decode_total (T:=T) body Hu) as Hd.
  destruct (decode body) as [m|e|]; cbn; auto.
Qed.

Lemma decode_known_total ty body : Forall u8 body → decode_post ty (Message.decode_known ty body).
Proof.
  intros Hu. unfold Message.decode_known.
  repeat (apply decode_arm; [exact Hu|apply (bool_decide_unpack _); vm_compute; exact I|
    by intros m Hm; split; [exact Hm|]|intros ?]).
  cbn [decode_post]. unfold known_types. intros Hin.
  repeat (apply elem_of_cons in Hin as [Hin|Hin]; [by subst ty|]). by apply not_elem_of_nil in Hin.
Qed.

(** ** Properties *)

(** C11: every well-formed message of every type survives encoding and decoding,
    with whatever bytes a later protocol version appends after its body, through
    both the lenient and the strict decoder. *)
Theorem message_roundtrip m rest :
  Message.wf m →
  ∃ body, Message.encode_body m = Ok body ∧ Forall u8 body ∧
          Message.decode_known (Message.msg_type m) (body ++ rest) = Ok (Some m) ∧
          Message.decode_body (Message.msg_type m) (body ++ rest) = Ok m.
Proof.
  intros Hm. exists (Message.wire m). unfold Message.decode_body.
  rewrite encode_body_wire, decode_known_wire by done. auto using message_wire_u8.
Qed.

Lemma message_roundtrip_witness :
  ∃ body, Message.encode_body (Message.TextInput (mkTextInput (bytes_of_string "hi"))) = Ok body ∧
          Message.decode_known 0x32 (body ++ [9; 9]) =
          Ok (Some (Message.TextInput (mkTextInput (bytes_of_string "hi")))).
Proof.
  destruct (message_roundtrip (Message.TextInput (mkTextInput (bytes_of_string "hi"))) [9; 9])
    as (body & He & _ & Hd & _); [by split|].
  exists body. exact (conj He Hd).
Defined.

(** Decoding untrusted bytes never panics: a type this build knows gives
    either a well-formed message of that type or an error, an unknown type gives
    [None] whatever its body, and never an error. *)
Theorem decode_known_safe ty body :
  Forall u8 body →
  match Message.decode_known ty body with
  | Ok (Some m) => Message.wf m ∧ Message.msg_type m = ty
  | Ok None => ty ∉ known_types
  | Err _ => ty ∈ known_types
  | Panic => False
  end.
Proof. apply decode_known_total. Qed.

Lemma decode_known_safe_witness : 0x77 ∉ known_types.
Proof. exact (decode_known_safe 0x77 [] (Forall_nil_2 _)). Defined.
