(* ===== verification/Transport.v ===== *)
(** * Chunk IO over a byte stream

    [crates/oxtransport/src/stream.rs].  The socket is a list of bytes and the
    asynchronous runtime a schedule: one event for every [read] or [write] the
    code awaits.  [read_reassembled] is the reference reader; [ChunkReader]
    keeps its progress in its own state, so a call may be dropped at any await.

    A schedule says how many bytes each await moves; [fill] and [flush_loop]
    recurse on it, so the number of awaits bounds their turns, and a schedule
    that ends is a future that is never polled again, which is the same as a
    dropped one. *)

From S2P Require Import Prelude Cursor Wire MsgType MsgControl MsgInput MsgWindow.
From S2P Require Import Envelope Reassembly ProtoMessage.

(** ** IO results *)

Inductive io_kind : Type := UnexpectedEof | InvalidData | WriteZero | OtherIo.

(** How a call ends: with a value, an [io::Error], or dropped at an await. *)
Inductive io_result (A : Type) : Type :=
| Done (a : A)
| IoErr (k : io_kind)
| Dropped
| Panicked.
Arguments Done {A} a.
Arguments IoErr {A} k.
Arguments Dropped {A}.
Arguments Panicked {A}.

(** ** [read_reassembled]: the reference *)

(** [read_exact] of [n] bytes from a stream that ends. *)
Definition read_exact (n : Z) (stream : list Z) : option (list Z * list Z) :=
  if n <=? len stream then Some (ztake n stream, zdrop n stream) else None.

(** A turn of the loop takes at least the eight header bytes, so a turn per
    byte of the stream is enough fuel. *)
Fixpoint read_reassembled_loop (fuel : nat) (ra : Reassembler) (stream : list Z)
    : Reassembler * list Z * io_result RawMessage :=
  match fuel with
  | O => (ra, stream, Panicked)
  | S fuel =>
    match read_exact CHUNK_HEADER_LEN stream with
    | None => (ra, [], IoErr UnexpectedEof)
    | Some (header_buf, stream) =>
      match decode (T:=ChunkHeader) header_buf with
      | Err _ => (ra, stream, IoErr InvalidData)
      | Panic => (ra, stream, Panicked)
      | Ok header =>
        match read_exact (h_length header) stream with
        | None => (ra, [], IoErr UnexpectedEof)
        | Some (payload, stream) =>
          match push ra header payload with
          | (ra, Ok (Some msg)) => (ra, stream, Done msg)
          | (ra, Ok None) => read_reassembled_loop fuel ra stream
          | (ra, Err _) => (ra, stream, IoErr InvalidData)
          | (ra, Panic) => (ra, stream, Panicked)
          end
        end
      end
    end
  end.

Definition read_reassembled (ra : Reassembler) (stream : list Z) :=
  read_reassembled_loop (S (length stream)) ra stream.
Arguments read_reassembled : simpl never.

(** [read_message]: a reassembled message, decoded. *)
Definition read_message (ra : Reassembler) (stream : list Z)
    : Reassembler * list Z * io_result (option Message.t) :=
  match read_reassembled ra stream with
  | (ra, stream, Done raw) =>
    match Message.decode_known (raw_type raw) (raw_payload raw) with
    | Ok m => (ra, stream, Done m)
    | Err _ => (ra, stream, IoErr InvalidData)
    | Panic => (ra, stream, Panicked)
    end
  | (ra, stream, IoErr k) => (ra, stream, IoErr k)
  | (ra, stream, Dropped) => (ra, stream, Dropped)
  | (ra, stream, Panicked) => (ra, stream, Panicked)
  end.

(** ** [ChunkReader] *)

Inductive ReadState : Type :=
| Header (filled : Z)
| Payload (header : ChunkHeader) (filled : Z).

Record ChunkReader : Type := mkReader {
  header_buf : list Z;
  cr_payload : list Z;
  cr_state : ReadState
}.

Definition ChunkReader_new : ChunkReader :=
  mkReader (replicate (Z.to_nat CHUNK_HEADER_LEN) 0) [] (Header 0).

(** What an awaited [read] meets: up to [n] bytes, an error, or the future
    being dropped.  Bytes asked of a stream that has none left are its end. *)
Inductive read_event : Type :=
| Deliver (n : positive)
| ReadError
| Cancel.

(** [buf[filled..]] overwritten by [got]. *)
Definition splice (buf : list Z) (filled : Z) (got : list Z) : list Z :=
  ztake filled buf ++ got ++ zdrop (filled + len got) buf.

(** The inner [while filled < buf.len()] of both states: [None] when the
    buffer is full. *)
Fixpoint fill (evs : list read_event) (buf : list Z) (filled : Z) (sock : list Z)
    : list Z * Z * list Z * list read_event * option (io_result RawMessage) :=
  if filled <? len buf then
    match evs with
    | [] => (buf, filled, sock, [], Some Dropped)
    | Cancel :: evs => (buf, filled, sock, evs, Some Dropped)
    | ReadError :: evs => (buf, filled, sock, evs, Some (IoErr OtherIo))
    | Deliver n :: evs =>
      let got := ztake (Z.min (Z.pos n) (len buf - filled)) sock in
      if len got =? 0 then (buf, filled, sock, evs, Some (IoErr UnexpectedEof))
      else fill evs (splice buf filled got) (filled + len got) (zdrop (len got) sock)
    end
  else (buf, filled, sock, evs, None).

(** The [loop] of [next_message].  A turn that fills a buffer takes an event,
    and at most every other turn finds its buffer full already. *)
Fixpoint next_loop (fuel : nat) (cr : ChunkReader) (ra : Reassembler) (sock : list Z)
    (evs : list read_event)
    : ChunkReader * Reassembler * list Z * list read_event * io_result RawMessage :=
  match fuel with
  | O => (cr, ra, sock, evs, Panicked)
  | S fuel =>
    match cr_state cr with
    | Header filled =>
      let '(buf, filled, sock, evs, stop) := fill evs (header_buf cr) filled sock in
      let cr := mkReader buf (cr_payload cr) (Header filled) in
      match stop with
      | Some r => (cr, ra, sock, evs, r)
      | None =>
        match decode (T:=ChunkHeader) buf with
        | Err _ => (cr, ra, sock, evs, IoErr InvalidData)
        | Panic => (cr, ra, sock, evs, Panicked)
        | Ok header =>
          if h_length header <=? MAX_CHUNK_PAYLOAD then
            next_loop fuel
              (mkReader buf (replicate (Z.to_nat (h_length header)) 0) (Payload header 0))
              ra sock evs
          else (cr, ra, sock, evs, Panicked)
        end
      end
    | Payload header filled =>
      let '(buf, filled, sock, evs, stop) := fill evs (cr_payload cr) filled sock in
      match stop with
      | Some r => (mkReader (header_buf cr) buf (Payload header filled), ra, sock, evs, r)
      | None =>
        let cr := mkReader (header_buf cr) buf (Header 0) in
        match push ra header buf with
        | (ra, Ok (Some msg)) => (cr, ra, sock, evs, Done msg)
        | (ra, Ok None) => next_loop fuel cr ra sock evs
        | (ra, Err _) => (cr, ra, sock, evs, IoErr InvalidData)
        | (ra, Panic) => (cr, ra, sock, evs, Panicked)
        end
      end
    end
  end.

Definition next_message (cr : ChunkReader) (ra : Reassembler) (sock : list Z)
    (evs : list read_event) :=
  next_loop (2 * length evs + 4) cr ra sock evs.

(** A caller: [next_message] again and again, each call with the schedule it
    meets, until the stream is found corrupt.  A dropped call and a failed read
    are retried; the messages received are collected. *)
Fixpoint run_calls (cr : ChunkReader) (ra : Reassembler) (sock : list Z)
    (calls : list (list read_event))
    : ChunkReader * Reassembler * list Z * list RawMessage * bool :=
  match calls with
  | [] => (cr, ra, sock, [], true)
  | evs :: calls =>
    match next_message cr ra sock evs with
    | (cr, ra, sock, _, Done m) =>
      let '(cr, ra, sock, ms, ok) := run_calls cr ra sock calls in (cr, ra, sock, m :: ms, ok)
    | (cr, ra, sock, _, Dropped) | (cr, ra, sock, _, IoErr OtherIo)
    | (cr, ra, sock, _, IoErr UnexpectedEof) => run_calls cr ra sock calls
    | (cr, ra, sock, _, _) => (cr, ra, sock, [], false)
    end
  end.

(** ** [ChunkWriter] *)

Record ChunkWriter : Type := mkWriter { cw_pending : list Z; cw_written : Z }.

Definition ChunkWriter_new : ChunkWriter := mkWriter [] 0.

Definition has_pending (w : ChunkWriter) : bool := negb (len (cw_pending w) =? 0).

(** [for chunk in &chunks { self.pending.extend_from_slice(chunk) }] *)
Definition queue_chunks (w : ChunkWriter) (chunks : outcome EncodeError (list (list Z)))
    : ChunkWriter * io_result unit :=
  match chunks with
  | Ok chunks => (mkWriter (cw_pending w ++ concat chunks) (cw_written w), Done tt)
  | Err _ => (w, IoErr InvalidData)
  | Panic => (w, Panicked)
  end.

Definition queue_message (w : ChunkWriter) (msg : Message.t) (video_channel : Z) :=
  queue_chunks w (Message.to_chunks msg video_channel).

Definition queue_raw (w : ChunkWriter) (msg_type channel : Z) (body : list Z) :=
  queue_chunks w (fragment msg_type channel body).

(** What an awaited [write] meets: up to [n] bytes taken, none taken, an error,
    or the future being dropped. *)
Inductive write_event : Type :=
| Accept (n : positive)
| AcceptNone
| WriteError
| WriteCancel.

(** The [while] of [flush]; [wire] is what the peer has been sent.  [None] when
    everything queued is written. *)
Fixpoint flush_loop (evs : list write_event) (w : ChunkWriter) (wire : list Z)
    : ChunkWriter * list Z * list write_event * option (io_result unit) :=
  if cw_written w <? len (cw_pending w) then
    match evs with
    | [] => (w, wire, [], Some Dropped)
    | WriteCancel :: evs => (w, wire, evs, Some Dropped)
    | WriteError :: evs => (w, wire, evs, Some (IoErr OtherIo))
    | AcceptNone :: evs => (w, wire, evs, Some (IoErr WriteZero))
    | Accept n :: evs =>
      let sent := ztake (Z.pos n) (zdrop (cw_written w) (cw_pending w)) in
      flush_loop evs (mkWriter (cw_pending w) (cw_written w + len sent)) (wire ++ sent)
    end
  else (w, wire, evs, None).

(** [flush]: the writes, then the queue is cleared and the writer flushed,
    which the schedule's next event decides. *)
Definition flush (evs : list write_event) (w : ChunkWriter) (wire : list Z)
    : ChunkWriter * list Z * io_result unit :=
  match flush_loop evs w wire with
  | (w, wire, _, Some r) => (w, wire, r)
  | (_, wire, evs, None) =>
    (mkWriter [] 0, wire,
     match evs with
     | WriteError :: _ => IoErr OtherIo
     | WriteCancel :: _ => Dropped
     | _ => Done tt
     end)
  end.

(** ** [write_message] and [write_raw]

    Built on [write_all], which is not resumable: a call either writes all its
    chunks or fails, or is dropped, with some prefix of them on the wire and
    nothing recorded. *)
Inductive write_fate : Type :=
| Written
| WriteFailed (after : Z)
| WriteDropped (after : Z).

Definition write_chunks (wire : list Z) (chunks : outcome EncodeError (list (list Z)))
    (fate : write_fate) : list Z * io_result unit :=
  match chunks with
  | Ok chunks =>
    match fate with
    | Written => (wire ++ concat chunks, Done tt)
    | WriteFailed n => (wire ++ ztake n (concat chunks), IoErr OtherIo)
    | WriteDropped n => (wire ++ ztake n (concat chunks), Dropped)
    end
  | Err _ => (wire, IoErr InvalidData)
  | Panic => (wire, Panicked)
  end.

Definition write_message (wire : list Z) (msg : Message.t) (video_channel : Z) (fate : write_fate) :=
  write_chunks wire (Message.to_chunks msg video_channel) fate.

Definition write_raw (wire : list Z) (msg_type channel : Z) (body : list Z) (fate : write_fate) :=
  write_chunks wire (fragment msg_type channel body) fate.

(** What a session does with its writer. *)
Inductive write_op : Type :=
| QueueMessage (m : Message.t) (video_channel : Z)
| QueueRaw (msg_type channel : Z) (body : list Z)
| Flush (evs : list write_event).

Definition do_write_op (op : write_op) (s : ChunkWriter * list Z) : ChunkWriter * list Z :=
  let '(w, wire) := s in
  match op with
  | QueueMessage m vc => ((queue_message w m vc).1, wire)
  | QueueRaw t ch body => ((queue_raw w t ch body).1, wire)
  | Flush evs => let '(w, wire, _) := flush evs w wire in (w, wire)
  end.

Definition run_write_ops (ops : list write_op) (s : ChunkWriter * list Z) : ChunkWriter * list Z :=
  fold_left (λ s op, do_write_op op s) ops s.

(** ** The reference reader *)

Lemma read_exact_some n s a b :
  read_exact n s = Some (a, b) → 0 ≤ n → s = a ++ b ∧ len a = n.
Proof.
  unfold read_exact. destruct (Z.leb_spec n (len s)); [|done]. intros E ?. simplify_eq.
  by rewrite ztake_zdrop, len_ztake by lia.
Qed.

Lemma read_exact_app a b : read_exact (len a) (a ++ b) = Some (a, b).
Proof.
  unfold read_exact. rewrite len_app. pose proof (len_nonneg b).
  replace (len a <=? len a + len b) with true by lia.
  by rewrite ztake_app_len, zdrop_app_len.
Qed.

Lemma read_exact_none n s : len s < n → read_exact n s = None.
Proof. intros. unfold read_exact. by replace (n <=? len s) with false by lia. Qed.

Lemma header_length_nonneg buf h :
  Forall u8 buf → decode (T:=ChunkHeader) buf = Ok h → 0 ≤ h_length h ≤ MAX_CHUNK_PAYLOAD.
Proof.
  intros Hu Hd. pose proof (decode_total (T:=ChunkHeader) buf Hu) as Ht. rewrite Hd in Ht.
  by destruct Ht as (_ & _ & _ & ?).
Qed.

Lemma read_loop_fuel f1 f2 ra s :
  Forall u8 s → (length s < f1)%nat → (length s < f2)%nat →
  read_reassembled_loop f1 ra s = read_reassembled_loop f2 ra s.
Proof.
  revert f2 ra s. induction f1 as [|f1 IH]; intros f2 ra s Hu H1 H2; [lia|].
  destruct f2 as [|f2]; [lia|]. cbn [read_reassembled_loop].
  destruct (read_exact CHUNK_HEADER_LEN s) as [[hb s1]|] eqn:E1; [|done].
  apply read_exact_some in E1 as [-> Hl1]; [|done]. apply Forall_app in Hu as [Hu1 Hu2].
  destruct (decode hb) as [h|e|] eqn:Ed; [|done..].
  destruct (read_exact (h_length h) s1) as [[p s2]|] eqn:E2; [|done].
  apply read_exact_some in E2 as [-> Hl2]; [|by apply (header_length_nonneg hb)].
  apply Forall_app in Hu2 as [_ Hu3].
  destruct (push ra h p) as [ra' [[m|]|e|]]; [done| |done..].
  rewrite !length_app in *. unfold len, CHUNK_HEADER_LEN in Hl1. apply IH; [done|lia..].
Qed.

(** The loop as the recursion it is. *)
Lemma read_reassembled_eq ra s :
  Forall u8 s →
  read_reassembled ra s =
  match read_exact CHUNK_HEADER_LEN s with
  | None => (ra, [], IoErr UnexpectedEof)
  | Some (hb, s) =>
    match decode (T:=ChunkHeader) hb with
    | Err _ => (ra, s, IoErr InvalidData)
    | Panic => (ra, s, Panicked)
    | Ok h =>
      match read_exact (h_length h) s with
      | None => (ra, [], IoErr UnexpectedEof)
      | Some (p, s) =>
        match push ra h p with
        | (ra, Ok (Some m)) => (ra, s, Done m)
        | (ra, Ok None) => read_reassembled ra s
        | (ra, Err _) => (ra, s, IoErr InvalidData)
        | (ra, Panic) => (ra, s, Panicked)
        end
      end
    end
  end.
Proof.
  intros Hu. unfold read_reassembled at 1. cbn [read_reassembled_loop].
  destruct (read_exact CHUNK_HEADER_LEN s) as [[hb s1]|] eqn:E1; [|done].
  apply read_exact_some in E1 as [-> Hl1]; [|done]. apply Forall_app in Hu as [Hu1 Hu2].
  destruct (decode hb) as [h|e|] eqn:Ed; [|done..].
  destruct (read_exact (h_length h) s1) as [[p s2]|] eqn:E2; [|done].
  apply read_exact_some in E2 as [-> Hl2]; [|by apply (header_length_nonneg hb)].
  apply Forall_app in Hu2 as [_ Hu3].
  destruct (push ra h p) as [ra' [[m|]|e|]]; [done| |done..].
  apply read_loop_fuel; [done|..]; rewrite ?length_app; unfold len, CHUNK_HEADER_LEN in Hl1; lia.
Qed.

(** One complete chunk at the head of the stream. *)
Lemma read_reassembled_chunk ra hb h p s :
  Forall u8 (hb ++ p ++ s) → len hb = CHUNK_HEADER_LEN → decode (T:=ChunkHeader) hb = Ok h →
  len p = h_length h →
  read_reassembled ra (hb ++ p ++ s) =
  match push ra h p with
  | (ra, Ok (Some m)) => (ra, s, Done m)
  | (ra, Ok None) => read_reassembled ra s
  | (ra, Err _) => (ra, s, IoErr InvalidData)
  | (ra, Panic) => (ra, s, Panicked)
  end.
Proof.
  intros Hu Hl Hd Hp. rewrite read_reassembled_eq by done.
  rewrite <- Hl, read_exact_app, Hd, <- Hp, read_exact_app. done.
Qed.

Lemma decode_header_total hb :
  Forall u8 hb → decode (T:=ChunkHeader) hb ≠ Panic.
Proof.
  intros Hu E. pose proof (decode_total (T:=ChunkHeader) hb Hu) as Ht. by rewrite E in Ht.
Qed.

(** On bytes, reading ends with a message of bytes or an error, and keeps the
    reassembler's invariants. *)
Lemma read_reassembled_total ra s :
  reasm_inv ra → reasm_u8 ra → Forall u8 s →
  let '(ra', rest, r) := read_reassembled ra s in
  reasm_inv ra' ∧ reasm_u8 ra' ∧ Forall u8 rest ∧
  match r with
  | Done m => Forall u8 (raw_payload m) ∧ (length rest < length s)%nat
  | IoErr k => k = UnexpectedEof ∨ k = InvalidData
  | _ => False
  end.
Proof.
  remember (length s) as n eqn:Hn. revert ra s Hn.
  induction n as [n IH] using (well_founded_induction Nat.lt_wf_0). intros ra s Hn Hr Hru Hu.
  rewrite read_reassembled_eq by done.
  destruct (read_exact CHUNK_HEADER_LEN s) as [[hb s1]|] eqn:E1; [|by auto].
  apply read_exact_some in E1 as [-> Hl1]; [|done]. apply Forall_app in Hu as [Hu1 Hu2].
  pose proof (decode_header_total hb Hu1).
  destruct (decode hb) as [h|e|] eqn:Ed; [|by auto|done].
  destruct (read_exact (h_length h) s1) as [[p s2]|] eqn:E2; [|by auto].
  apply read_exact_some in E2 as [-> Hl2]; [|by apply (header_length_nonneg hb)].
  apply Forall_app in Hu2 as [Hup Hu3]. rewrite !length_app in Hn.
  unfold len, CHUNK_HEADER_LEN in Hl1.
  pose proof (push_preserves ra h p Hr) as P1. pose proof (push_no_panic ra h p Hr) as P2.
  destruct (push_u8 ra h p Hr Hru Hup) as [P3 P4].
  destruct (push ra h p) as [ra1 [[m1|]|e|]]; cbn [fst snd] in *; [| |by auto|done].
  - split_and!; auto. lia.
  - specialize (IH (length s2) ltac:(lia) ra1 s2 eq_refl P1 P3 Hu3).
    destruct (read_reassembled ra1 s2) as [[ra2 rest] r]. destruct IH as (I1 & I2 & I3 & I4).
    split_and!; auto. destruct r; auto. destruct I4. split; [done|lia].
Qed.

(** The same for decoded messages. *)
Lemma read_message_total ra s :
  reasm_inv ra → reasm_u8 ra → Forall u8 s →
  let '(ra', rest, r) := read_message ra s in
  reasm_inv ra' ∧ reasm_u8 ra' ∧ Forall u8 rest ∧
  match r with
  | Done (Some m) => Message.wf m ∧ (length rest < length s)%nat
  | Done None => (length rest < length s)%nat
  | IoErr k => k = UnexpectedEof ∨ k = InvalidData
  | _ => False
  end.
Proof.
  intros Hr Hru Hu. unfold read_message. pose proof (read_reassembled_total ra s Hr Hru Hu) as H.
  destruct (read_reassembled ra s) as [[ra' rest] [raw|k| |]]; [|done..].
  destruct H as (H1 & H2 & H3 & H4 & H5).
  pose proof (decode_known_total (raw_type raw) (raw_payload raw) H4) as Hd.
  destruct (Message.decode_known _ _) as [[m|]|e|]; cbn in Hd; split_and!; auto. by destruct Hd.
Qed.

(** ** [fill] moves bytes from the socket to the buffer, and no others *)

Lemma len_splice buf filled got :
  0 ≤ filled → filled + len got ≤ len buf → len (splice buf filled got) = len buf.
Proof.
  intros. unfold splice. pose proof (len_nonneg got). autorewrite with len.
  lia.
Qed.

Lemma ztake_splice buf filled got :
  0 ≤ filled → filled + len got ≤ len buf →
  ztake (filled + len got) (splice buf filled got) = ztake filled buf ++ got.
Proof.
  intros. unfold splice. rewrite app_assoc. pose proof (len_nonneg got).
  apply ztake_app_len. rewrite len_app, len_ztake by lia. done.
Qed.

Lemma len_ztake_le {A} n (l : list A) : 0 ≤ n → len (ztake n l) ≤ n.
Proof. intros. unfold ztake, len. rewrite length_take. lia. Qed.

Lemma ztake_0_nil {A} n (l : list A) : 0 < n → len (ztake n l) = 0 → l = [].
Proof.
  intros ? Hl. apply len_0_nil. unfold ztake, len in *. rewrite length_take in Hl. lia.
Qed.

Lemma ztake_len_ztake {A} n (l : list A) : ztake (len (ztake n l)) l = ztake n l.
Proof.
  unfold ztake, len. rewrite length_take, Nat2Z.id.
  destruct (Nat.le_ge_cases (Z.to_nat n) (length l)).
  - by rewrite Nat.min_l.
  - rewrite Nat.min_r by done. by rewrite !take_ge.
Qed.

Record fill_post (evs : list read_event) (buf : list Z) (filled : Z) (sock : list Z)
    (buf' : list Z) (filled' : Z) (sock' : list Z) (evs' : list read_event)
    (stop : option (io_result RawMessage)) : Prop := {
  fp_len : len buf' = len buf;
  fp_filled : filled ≤ filled' ≤ len buf;
  fp_bytes : ztake filled' buf' ++ sock' = ztake filled buf ++ sock;
  fp_full : stop = None → filled' = len buf;
  fp_events : (length evs' ≤ length evs)%nat;
  fp_progress : filled < len buf → stop = None → (length evs' < length evs)%nat;
  fp_stop : match stop with
            | None | Some Dropped | Some (IoErr OtherIo) => True
            | Some (IoErr UnexpectedEof) => sock' = []
            | _ => False
            end;
  fp_part : stop ≠ None → filled' < len buf
}.

Ltac fill_case := split; cbn [length]; try done; try lia; try (intros; simplify_eq; auto; lia); auto.

Lemma fill_spec evs buf filled sock :
  0 ≤ filled ≤ len buf →
  let '(buf', filled', sock', evs', stop) := fill evs buf filled sock in
  fill_post evs buf filled sock buf' filled' sock' evs' stop.
Proof.
  revert buf filled sock. induction evs as [|ev evs IH]; intros buf filled sock Hf; cbn [fill];
    destruct (Z.ltb_spec filled (len buf)) as [Hlt|Hge].
  - fill_case.
  - fill_case.
  - destruct ev as [n| |]; [|fill_case..].
    set (got := ztake (Z.min (Z.pos n) (len buf - filled)) sock).
    assert (len got ≤ len buf - filled) as Hgl.
    { subst got. pose proof (len_ztake_le (Z.min (Z.pos n) (len buf - filled)) sock). lia. }
    pose proof (len_nonneg got). destruct (Z.eqb_spec (len got) 0) as [Hg|Hg].
    + fill_case.
      apply (ztake_0_nil (Z.min (Z.pos n) (len buf - filled))); [lia|done].
    + specialize (IH (splice buf filled got) (filled + len got) (zdrop (len got) sock)).
      rewrite len_splice in IH by lia.
      destruct (fill evs _ _ _) as [[[[buf' filled'] sock'] evs'] stop].
      destruct IH as [I1 I2 I3 I4 I5 I6 I7 I8]; [lia|]. rewrite len_splice in * by lia.
      fill_case. rewrite I3, ztake_splice, <- app_assoc by lia. f_equal.
      replace got with (ztake (len got) sock) at 1 by apply ztake_len_ztake. apply ztake_zdrop.
  - fill_case.
Qed.

(** ** [ChunkReader] refines [read_reassembled] *)

(** The bytes the reader has taken from the socket and not yet turned into a
    pushed chunk. *)
Definition absorbed (cr : ChunkReader) : list Z :=
  match cr_state cr with
  | Header filled => ztake filled (header_buf cr)
  | Payload _ filled => header_buf cr ++ ztake filled (cr_payload cr)
  end.

Definition reader_inv (cr : ChunkReader) : Prop :=
  len (header_buf cr) = CHUNK_HEADER_LEN ∧
  match cr_state cr with
  | Header filled => 0 ≤ filled ≤ CHUNK_HEADER_LEN
  | Payload h filled =>
    decode (T:=ChunkHeader) (header_buf cr) = Ok h ∧ len (cr_payload cr) = h_length h ∧
    0 ≤ filled ≤ h_length h
  end.

(** The turns of [next_loop] left before it must wait for an event. *)
Definition rank (cr : ChunkReader) : nat :=
  match cr_state cr with
  | Header filled => if filled <? CHUNK_HEADER_LEN then 0 else 2
  | Payload _ _ => 1
  end.

(** What a call says about the stream it was given, [s], and the one it
    leaves, [s']. *)
Definition call_post (ra : Reassembler) (s : list Z) (ra' : Reassembler) (s' sock' : list Z)
    (r : io_result RawMessage) : Prop :=
  match r with
  | Done m => read_reassembled ra s = (ra', s', Done m)
  | Dropped | IoErr OtherIo => read_reassembled ra s = read_reassembled ra' s'
  | IoErr UnexpectedEof =>
    sock' = [] ∧ read_reassembled ra s = (ra', [], IoErr UnexpectedEof) ∧
    read_reassembled ra s = read_reassembled ra' s'
  | IoErr InvalidData => ∃ rest, read_reassembled ra s = (ra', rest, IoErr InvalidData)
  | IoErr WriteZero | Panicked => False
  end.

Lemma call_post_step ra s ra1 s1 ra' s' sock' r :
  read_reassembled ra s = read_reassembled ra1 s1 →
  call_post ra1 s1 ra' s' sock' r → call_post ra s ra' s' sock' r.
Proof. intros E. unfold call_post. by rewrite E. Qed.

(** At the end of the stream, an incomplete chunk is an unexpected end. *)
Lemma incomplete_eof ra cr :
  reader_inv cr → Forall u8 (absorbed cr) →
  match cr_state cr with Header f => f < CHUNK_HEADER_LEN | Payload h f => f < h_length h end →
  read_reassembled ra (absorbed cr) = (ra, [], IoErr UnexpectedEof).
Proof.
  intros [Hl Hs] Hu Hf. unfold absorbed in *. rewrite read_reassembled_eq by done.
  destruct (cr_state cr) as [f|h f].
  - by rewrite read_exact_none by (rewrite len_ztake by lia; lia).
  - destruct Hs as (Hd & Hp & Hb). rewrite <- Hl at 1. rewrite read_exact_app, Hd.
    by rewrite read_exact_none by (rewrite len_ztake by lia; lia).
Qed.

Lemma ztake_full {A} (l : list A) n : n = len l → ztake n l = l.
Proof. intros ->. by apply ztake_all. Qed.

(** What a call that starts from [cr] on [sock] leaves. *)
Definition loop_post cr ra sock (x : ChunkReader * Reassembler * list Z * list read_event * io_result RawMessage) : Prop :=
  let '(cr', ra', sock', _, r) := x in
  reader_inv cr' ∧ reasm_inv ra' ∧ Forall u8 (absorbed cr' ++ sock') ∧
  call_post ra (absorbed cr ++ sock) ra' (absorbed cr' ++ sock') sock' r.

Definition loop_ok fuel : Prop := ∀ cr ra sock evs,
  reader_inv cr → reasm_inv ra → Forall u8 (absorbed cr ++ sock) → (2 * length evs + rank cr < fuel)%nat →
  loop_post cr ra sock (next_loop fuel cr ra sock evs).

Lemma header_refines fuel hb pl f ra sock evs :
  loop_ok fuel → reader_inv (mkReader hb pl (Header f)) → reasm_inv ra → Forall u8 (absorbed (mkReader hb pl (Header f)) ++ sock) →
  (2 * length evs + rank (mkReader hb pl (Header f)) < S fuel)%nat →
  loop_post (mkReader hb pl (Header f)) ra sock (next_loop (S fuel) (mkReader hb pl (Header f)) ra sock evs).
Proof.
  intros IH [Hl Hs] Hra Hu Hfuel. unfold loop_post, rank, absorbed in Hfuel, Hu |- *; cbn [header_buf cr_payload cr_state] in *;
    cbn [next_loop header_buf cr_payload cr_state].
  pose proof (fill_spec evs hb f sock) as Hfill.
  destruct (fill evs hb f sock) as [[[[buf f'] sock'] evs'] stop].
  destruct Hfill as [F1 F2 F3 F4 F5 F6 F7 F8]; [lia|].
  rewrite <- F3 in Hu |- *.
  assert (reader_inv (mkReader buf pl (Header f'))) as Hinv.
  { split; cbn; [congruence|]. lia. }
  destruct stop as [r|].
  - split_and!; [done..|].
    destruct r as [m|[| | |]| |]; try done. subst sock'. rewrite app_nil_r in *.
    pose proof (incomplete_eof ra (mkReader buf pl (Header f')) Hinv Hu) as He.
    unfold absorbed in He; cbn in He |- *. specialize (He ltac:(rewrite <- Hl; by apply F8)).
    rewrite ?app_nil_r, He. by split_and!.
  - specialize (F4 eq_refl). rewrite (ztake_full buf) in Hu |- * by lia.
    apply Forall_app in Hu as Hu'; destruct Hu' as [Hub Hus].
    pose proof (decode_header_total buf Hub).
    destruct (decode buf) as [h|e|] eqn:Ed; [| |done].
    + pose proof (header_length_nonneg buf h Hub Ed) as Hh.
      replace (h_length h <=? MAX_CHUNK_PAYLOAD) with true by lia.
      specialize (IH (mkReader buf (replicate (Z.to_nat (h_length h)) 0) (Payload h 0)) ra sock' evs').
      assert (reader_inv (mkReader buf (replicate (Z.to_nat (h_length h)) 0) (Payload h 0))) as Hi.
      { split; cbn; [congruence|]. rewrite len_replicate by lia. split_and!; [done..|lia|lia]. }
      unfold loop_post, absorbed, rank in IH; cbn [header_buf cr_payload cr_state] in IH.
      change (ztake 0 _) with (@nil Z) in IH. rewrite app_nil_r in IH.
      apply IH; [done..|]. destruct (Z.ltb_spec f CHUNK_HEADER_LEN); [|lia].
      assert (length evs' < length evs)%nat by (apply F6; [lia|done]). lia.
    + split_and!; [done..| |].
      { unfold absorbed; cbn. by rewrite (ztake_full buf) by lia. }
      exists sock'. rewrite read_reassembled_eq by done.
      replace CHUNK_HEADER_LEN with (len buf) by congruence. by rewrite read_exact_app, Ed.
Qed.

Lemma payload_refines fuel hb pl h f ra sock evs :
  loop_ok fuel → reader_inv (mkReader hb pl (Payload h f)) → reasm_inv ra → Forall u8 (absorbed (mkReader hb pl (Payload h f)) ++ sock) →
  (2 * length evs + rank (mkReader hb pl (Payload h f)) < S fuel)%nat →
  loop_post (mkReader hb pl (Payload h f)) ra sock (next_loop (S fuel) (mkReader hb pl (Payload h f)) ra sock evs).
Proof.
  intros IH [Hl Hs] Hra Hu Hfuel. unfold loop_post, rank, absorbed in Hfuel, Hu |- *; cbn [header_buf cr_payload cr_state] in *;
    cbn [next_loop header_buf cr_payload cr_state].
  destruct Hs as (Hd & Hp & Hf). pose proof (fill_spec evs pl f sock) as Hfill.
  destruct (fill evs pl f sock) as [[[[buf f'] sock'] evs'] stop].
  destruct Hfill as [F1 F2 F3 F4 F5 F6 F7 F8]; [lia|].
  rewrite <- app_assoc, <- F3 in Hu |- *.
  assert (reader_inv (mkReader hb buf (Payload h f'))) as Hinv.
  { split; cbn; [done|]. split_and!; [done|lia..]. }
  destruct stop as [r|].
  - rewrite app_assoc in Hu |- *. split_and!; [done..|].
    destruct r as [m|[| | |]| |]; try done. subst sock'. rewrite !app_nil_r in *.
    pose proof (incomplete_eof ra (mkReader hb buf (Payload h f')) Hinv Hu) as He.
    unfold absorbed in *; cbn in He |- *. specialize (He ltac:(rewrite <- Hp; by apply F8)).
    rewrite ?app_nil_r, He. by split_and!.
  - specialize (F4 eq_refl). rewrite (ztake_full buf) in Hu |- * by lia.
    pose proof (read_reassembled_chunk ra hb h buf sock' Hu Hl Hd ltac:(lia)) as Hrun.
    pose proof (push_preserves ra h buf Hra) as Hra'. pose proof (push_no_panic ra h buf Hra) as Hnp.
    rewrite !Forall_app in Hu. destruct Hu as (Hu1 & Hu2 & Hu3).
    assert (reader_inv (mkReader hb buf (Header 0))) as Hi by (by split; [exact Hl|]).
    destruct (push ra h buf) as [ra' [[m|]|e|]] eqn:Epush; cbn [fst snd] in *; [| | |done].
    + split_and!; [done..|]. exact Hrun.
    + specialize (IH (mkReader hb buf (Header 0)) ra' sock' evs').
      unfold loop_post, absorbed, rank in IH; cbn [header_buf cr_payload cr_state] in IH.
      change (ztake 0 _) with (@nil Z) in IH. cbn [app] in IH.
      destruct (next_loop fuel _ ra' sock' evs') as [[[[cr2 ra2] sock2] evs2] r2].
      destruct IH as (I1 & I2 & I3 & I4); [done..| |].
      { cbn. destruct (Z.lt_ge_cases f (len pl)).
        - assert (length evs' < length evs)%nat by (by apply F6). lia.
        - lia. }
      split_and!; [done..|]. by eapply call_post_step.
    + split_and!; [done..|]. by exists sock'.
Qed.

Lemma next_loop_refines fuel : loop_ok fuel.
Proof.
  induction fuel as [|fuel IH]; intros [hb pl [f|h f]] ra sock evs Hcr Hra Hu Hfuel; [lia|lia|by apply header_refines|by apply payload_refines].
Qed.

Lemma next_message_refines cr ra sock evs :
  reader_inv cr → reasm_inv ra → Forall u8 (absorbed cr ++ sock) →
  let '(cr', ra', sock', _, r) := next_message cr ra sock evs in
  reader_inv cr' ∧ reasm_inv ra' ∧ Forall u8 (absorbed cr' ++ sock') ∧
  call_post ra (absorbed cr ++ sock) ra' (absorbed cr' ++ sock') sock' r.
Proof.
  intros. apply next_loop_refines; auto.
  destruct cr as [hb pl [f|h f]]; unfold rank; cbn; [case_match|]; lia.
Qed.

Lemma reader_inv_new : reader_inv ChunkReader_new.
Proof. by vm_compute. Qed.

Lemma absorbed_new : absorbed ChunkReader_new = [].
Proof. done. Qed.

(** ** Sequences of calls *)

Lemma read_reassembled_shrinks ra s ra' s' m :
  Forall u8 s → read_reassembled ra s = (ra', s', Done m) →
  (length s' < length s)%nat ∧ Forall u8 s'.
Proof.
  remember (length s) as n eqn:Hn. revert ra s Hn.
  induction n as [n IH] using (well_founded_induction Nat.lt_wf_0).
  intros ra s Hn Hu. rewrite read_reassembled_eq by done.
  destruct (read_exact CHUNK_HEADER_LEN s) as [[hb s1]|] eqn:E1; [|done].
  apply read_exact_some in E1 as [-> Hl1]; [|done]. apply Forall_app in Hu as [Hu1 Hu2].
  destruct (decode hb) as [h|e|] eqn:Ed; [|done..].
  destruct (read_exact (h_length h) s1) as [[p s2]|] eqn:E2; [|done].
  apply read_exact_some in E2 as [-> Hl2]; [|by apply (header_length_nonneg hb)].
  apply Forall_app in Hu2 as [_ Hu3]. rewrite !length_app in Hn.
  unfold len, CHUNK_HEADER_LEN in Hl1.
  destruct (push ra h p) as [ra1 [[m1|]|e|]]; [| |done..]; intros Hr.
  - simplify_eq. split; [lia|done].
  - apply (IH (length s2)) in Hr; [|lia|done|done]. destruct Hr. split; [lia|done].
Qed.

(** All the messages of a stream, as the reference reader sees them. *)
Fixpoint drain_loop (fuel : nat) (ra : Reassembler) (s : list Z) : list RawMessage :=
  match fuel with
  | O => []
  | S fuel =>
    match read_reassembled ra s with
    | (ra, s, Done m) => m :: drain_loop fuel ra s
    | _ => []
    end
  end.

Definition drain (ra : Reassembler) (s : list Z) : list RawMessage :=
  drain_loop (S (length s)) ra s.
Arguments drain : simpl never.

Lemma drain_loop_fuel f1 f2 ra s :
  Forall u8 s → (length s < f1)%nat → (length s < f2)%nat →
  drain_loop f1 ra s = drain_loop f2 ra s.
Proof.
  revert f2 ra s. induction f1 as [|f1 IH]; intros f2 ra s Hu H1 H2; [lia|].
  destruct f2 as [|f2]; [lia|]. cbn [drain_loop].
  destruct (read_reassembled ra s) as [[ra' s'] [m|k| |]] eqn:E; [|done..].
  apply read_reassembled_shrinks in E as [? ?]; [|done]. f_equal. apply IH; [done|lia..].
Qed.

Lemma drain_eq ra s :
  Forall u8 s →
  drain ra s =
  match read_reassembled ra s with (ra, s, Done m) => m :: drain ra s | _ => [] end.
Proof.
  intros Hu. unfold drain at 1. cbn [drain_loop].
  destruct (read_reassembled ra s) as [[ra' s'] [m|k| |]] eqn:E; [|done..].
  apply read_reassembled_shrinks in E as [? ?]; [|done]. f_equal.
  apply drain_loop_fuel; [done|lia..].
Qed.

Lemma drain_same ra s ra' s' :
  Forall u8 s → Forall u8 s' → read_reassembled ra s = read_reassembled ra' s' →
  drain ra s = drain ra' s'.
Proof. intros ? ? E. by rewrite !drain_eq, E by done. Qed.

Lemma run_calls_drain calls cr ra sock :
  reader_inv cr → reasm_inv ra → Forall u8 (absorbed cr ++ sock) →
  let '(cr', ra', sock', ms, ok) := run_calls cr ra sock calls in
  reader_inv cr' ∧ reasm_inv ra' ∧ Forall u8 (absorbed cr' ++ sock') ∧
  drain ra (absorbed cr ++ sock) = ms ++ (if ok then drain ra' (absorbed cr' ++ sock') else []).
Proof.
  revert cr ra sock. induction calls as [|evs calls IH]; intros cr ra sock Hcr Hra Hu; cbn [run_calls].
  { by split_and!. }
  pose proof (next_message_refines cr ra sock evs Hcr Hra Hu) as Hn.
  destruct (next_message cr ra sock evs) as [[[[cr1 ra1] sock1] evs1] r].
  destruct Hn as (Hcr1 & Hra1 & Hu1 & Hpost). specialize (IH cr1 ra1 sock1 Hcr1 Hra1 Hu1).
  destruct (run_calls cr1 ra1 sock1 calls) as [[[[cr2 ra2] sock2] ms] ok].
  destruct IH as (I1 & I2 & I3 & I4).
  destruct r as [m|[| | |]| |]; cbn [call_post] in Hpost; try done.
  - split_and!; auto. rewrite drain_eq, Hpost by done. cbn [app]. by f_equal.
  - destruct Hpost as (_ & _ & E). split_and!; auto. rewrite <- I4. by apply drain_same.
  - destruct Hpost as [rest Hr]. split_and!; auto. by rewrite drain_eq, Hr.
  - split_and!; auto. rewrite <- I4. by apply drain_same.
  - split_and!; auto. rewrite <- I4. by apply drain_same.
Qed.

(** ** Progress *)

Definition is_deliver (ev : read_event) : bool :=
  match ev with Deliver _ => true | _ => false end.

(** With an event for every byte and one more, [fill] is never left waiting. *)
Lemma fill_live evs buf filled sock :
  0 ≤ filled ≤ len buf → Forall (λ ev, is_deliver ev = true) evs → len sock < len evs →
  let '(_, _, sock', evs', stop) := fill evs buf filled sock in
  (stop = None ∨ stop = Some (IoErr UnexpectedEof)) ∧
  (stop = None → Forall (λ ev, is_deliver ev = true) evs' ∧ len sock' < len evs').
Proof.
  revert buf filled sock. induction evs as [|ev evs IH]; intros buf filled sock Hf Hd Hl; cbn [fill].
  { pose proof (len_nonneg sock). rewrite len_nil in Hl. lia. }
  destruct (Z.ltb_spec filled (len buf)) as [Hlt|Hge]; [|by auto].
  apply Forall_cons in Hd as Hd'; destruct Hd' as [Hev Hd'].
  destruct ev as [n| |]; [|done..].
  set (got := ztake (Z.min (Z.pos n) (len buf - filled)) sock).
  pose proof (len_ztake_le (Z.min (Z.pos n) (len buf - filled)) sock ltac:(lia)) as Hgl.
  fold got in Hgl. pose proof (len_nonneg got).
  destruct (Z.eqb_spec (len got) 0) as [Hg|Hg]; [split; [by right|done]|].
  assert (len got ≤ len sock) as Hgs.
  { subst got. unfold ztake, len. rewrite length_take. lia. }
  apply IH; [rewrite len_splice; lia|done|]. rewrite len_zdrop by lia.
  rewrite len_cons in Hl. lia.
Qed.

Definition fill_ok (cr : ChunkReader) : Prop :=
  match cr_state cr with
  | Header f => 0 ≤ f ≤ len (header_buf cr)
  | Payload _ f => 0 ≤ f ≤ len (cr_payload cr)
  end.

Lemma next_loop_live fuel cr ra sock evs :
  fill_ok cr → Forall (λ ev, is_deliver ev = true) evs → len sock < len evs →
  (next_loop fuel cr ra sock evs).2 ≠ Dropped ∧ (next_loop fuel cr ra sock evs).2 ≠ IoErr OtherIo.
Proof.
  revert cr ra sock evs. induction fuel as [|fuel IH]; intros cr ra sock evs Hcr Hd Hl; [done|].
  destruct cr as [hb pl [f|h f]]; cbn in Hcr; cbn [next_loop header_buf cr_payload cr_state].
  - pose proof (fill_live evs hb f sock Hcr Hd Hl) as Hfill.
    destruct (fill evs hb f sock) as [[[[buf f'] sock'] evs'] stop]. destruct Hfill as [Hstop Hnext].
    destruct Hstop as [-> | ->]; [|done]. destruct Hnext as [Hd' Hl']; [done|].
    destruct (decode buf) as [h|e|] eqn:Ed; [|done..].
    destruct (Z.leb_spec (h_length h) MAX_CHUNK_PAYLOAD); [|done].
    apply IH; [|done..]. unfold fill_ok; cbn. pose proof (len_nonneg (replicate (Z.to_nat (h_length h)) 0)). lia.
  - pose proof (fill_live evs pl f sock Hcr Hd Hl) as Hfill.
    destruct (fill evs pl f sock) as [[[[buf f'] sock'] evs'] stop]. destruct Hfill as [Hstop Hnext].
    destruct Hstop as [-> | ->]; [|done]. destruct Hnext as [Hd' Hl']; [done|].
    destruct (push ra h buf) as [ra' [[m|]|e|]]; [done| |done..].
    apply IH; [|done..]. unfold fill_ok; cbn. pose proof (len_nonneg hb). lia.
Qed.

Lemma reader_inv_fill_ok cr : reader_inv cr → fill_ok cr.
Proof.
  destruct cr as [hb pl [f|h f]]; unfold reader_inv, fill_ok; cbn; intros; destruct_and?; lia.
Qed.

(** ** [ChunkWriter] *)

(** The bytes queued and not yet on the wire. *)
Definition unsent (w : ChunkWriter) : list Z := zdrop (cw_written w) (cw_pending w).
Definition writer_inv (w : ChunkWriter) : Prop := 0 ≤ cw_written w ≤ len (cw_pending w).

Lemma flush_loop_spec evs w wire :
  writer_inv w →
  let '(w', wire', _, stop) := flush_loop evs w wire in
  writer_inv w' ∧ wire' ++ unsent w' = wire ++ unsent w ∧
  (stop = None → unsent w' = []) ∧
  (∃ sent, wire' = wire ++ sent) ∧
  match stop with Some (Done _) | Some Panicked => False | _ => True end.
Proof.
  revert w wire. induction evs as [|ev evs IH]; intros w wire Hw; cbn [flush_loop];
    destruct (Z.ltb_spec (cw_written w) (len (cw_pending w))) as [Hlt|Hge].
  - split_and!; try done. exists []. by rewrite app_nil_r.
  - split_and!; try done; [intros; by apply zdrop_all|]. exists []. by rewrite app_nil_r.
  - assert (∃ sent, wire = wire ++ sent) by (exists []; by rewrite app_nil_r).
    destruct ev as [n| | |]; [|by split_and!..].
    set (sent := ztake (Z.pos n) (zdrop (cw_written w) (cw_pending w))).
    specialize (IH (mkWriter (cw_pending w) (cw_written w + len sent)) (wire ++ sent)).
    pose proof (len_nonneg sent). destruct Hw as [Hw1 Hw2].
    assert (len sent ≤ len (cw_pending w) - cw_written w) as Hs.
    { subst sent. rewrite <- len_zdrop by lia. unfold ztake, len. rewrite length_take. lia. }
    destruct (flush_loop evs _ _) as [[[w' wire'] evs'] stop].
    destruct IH as (I1 & I2 & I3 & [x I4] & I5); [split; cbn; lia|].
    split_and!; auto; [|exists (sent ++ x); by rewrite I4, <- app_assoc].
    rewrite I2, <- app_assoc. f_equal. unfold unsent; cbn.
    rewrite <- zdrop_zdrop by lia. replace sent with (ztake (len sent) (zdrop (cw_written w) (cw_pending w)))
      at 1 by apply ztake_len_ztake. apply ztake_zdrop.
  - split_and!; try done; [intros; by apply zdrop_all|]. exists []. by rewrite app_nil_r.
Qed.

Lemma flush_spec evs w wire :
  writer_inv w →
  let '(w', wire', r) := flush evs w wire in
  writer_inv w' ∧ wire' ++ unsent w' = wire ++ unsent w ∧ (∃ sent, wire' = wire ++ sent) ∧
  (r = Done tt → w' = ChunkWriter_new) ∧ r ≠ Panicked.
Proof.
  intros Hw. unfold flush. pose proof (flush_loop_spec evs w wire Hw) as H.
  destruct (flush_loop evs w wire) as [[[w' wire'] evs'] [r|]]; destruct H as (H1 & H2 & H3 & H4 & H5).
  - split_and!; auto; intros ->; [done|by destruct H5].
  - specialize (H3 eq_refl). split_and!; auto.
    + by split.
    + rewrite <- H2, H3. done.
    + by repeat case_match.
Qed.

(** The bytes an operation adds to the stream. *)
Definition op_bytes (op : write_op) : list Z :=
  match op with
  | QueueMessage m vc => match Message.to_chunks m vc with Ok cs => concat cs | _ => [] end
  | QueueRaw t ch body => match fragment t ch body with Ok cs => concat cs | _ => [] end
  | Flush _ => []
  end.

Lemma queue_chunks_spec w cs :
  writer_inv w →
  writer_inv (queue_chunks w cs).1 ∧
  unsent (queue_chunks w cs).1 = unsent w ++ match cs with Ok cs => concat cs | _ => [] end.
Proof.
  intros [H1 H2]. destruct cs as [cs|e|]; cbn; [|by rewrite app_nil_r..].
  unfold writer_inv, unsent; cbn. rewrite len_app. pose proof (len_nonneg (concat cs)).
  split; [lia|]. unfold zdrop. apply drop_app_le. len_lia.
Qed.

Lemma do_write_op_spec op w wire :
  writer_inv w →
  let '(w', wire') := do_write_op op (w, wire) in
  writer_inv w' ∧ wire' ++ unsent w' = wire ++ unsent w ++ op_bytes op ∧ (∃ sent, wire' = wire ++ sent).
Proof.
  intros Hw. assert (∃ sent, wire = wire ++ sent) by (exists []; by rewrite app_nil_r).
  destruct op as [m vc|t ch body|evs]; cbn [do_write_op op_bytes]; unfold queue_message, queue_raw.
  - destruct (queue_chunks_spec w (Message.to_chunks m vc) Hw) as [H1 H2].
    split_and!; auto. by rewrite H2.
  - destruct (queue_chunks_spec w (fragment t ch body) Hw) as [H1 H2].
    split_and!; auto. by rewrite H2.
  - pose proof (flush_spec evs w wire Hw) as Hf. destruct (flush evs w wire) as [[w' wire'] r].
    destruct Hf as (H1 & H2 & H3 & _). rewrite app_nil_r. auto.
Qed.

Lemma run_write_ops_spec ops w wire :
  writer_inv w →
  let '(w', wire') := run_write_ops ops (w, wire) in
  writer_inv w' ∧ wire' ++ unsent w' = wire ++ unsent w ++ concat (map op_bytes ops) ∧
  (∃ sent, wire' = wire ++ sent).
Proof.
  unfold run_write_ops. revert w wire. induction ops as [|op ops IH]; intros w wire Hw; cbn [fold_left map concat].
  { rewrite app_nil_r. split_and!; auto. exists []. by rewrite app_nil_r. }
  pose proof (do_write_op_spec op w wire Hw) as Hop. destruct (do_write_op op (w, wire)) as [w1 wire1].
  destruct Hop as (H1 & H2 & [x H3]). specialize (IH w1 wire1 H1).
  destruct (fold_left _ ops (w1, wire1)) as [w2 wire2]. destruct IH as (I1 & I2 & [y I3]).
  split_and!; auto; [|exists (x ++ y); by rewrite I3, H3, app_assoc].
  rewrite I2, app_assoc, H2. by rewrite <- !app_assoc.
Qed.

(** ** A message's chunks on the stream *)

(** A chunk a sender may put on the wire. *)
Definition chunk_ok (c : ChunkHeader * list Z) : Prop :=
  ChunkHeader_wf c.1 ∧ h_length c.1 = len c.2 ∧ Forall u8 c.2.

Lemma chunk_wire_u8 c : chunk_ok c → Forall u8 (chunk_wire c).
Proof.
  intros (Hw & _ & Hu). apply Forall_app. split; [|done].
  exact (wire_bytes (T:=ChunkHeader) c.1 Hw).
Qed.

Lemma chunks_wire_u8 cs : Forall chunk_ok cs → Forall u8 (concat (map chunk_wire cs)).
Proof.
  induction 1 as [|c cs Hc _ IH]; cbn; [constructor|].
  apply Forall_app. auto using chunk_wire_u8.
Qed.

Lemma chunks_chunk_ok t ch payload :
  u8 t → u16 ch → Forall u8 payload → Forall chunk_ok (chunks t ch payload).
Proof.
  intros Ht Hc. induction payload as [l Hl|l Hl IH] using payload_ind; intros Hu.
  - pose proof (chunks_ok t ch l Ht Hc) as Ho. rewrite chunks_small in * by done.
    apply Forall_cons in Ho as [(? & ? & _) _]. constructor; [|constructor]. by split_and!.
  - pose proof (chunks_ok t ch l Ht Hc) as Ho. rewrite chunks_big in * by done.
    apply Forall_cons in Ho as [(? & ? & _) _].
    constructor; [split_and!; [done..|by apply Forall_ztake]|by apply IH, Forall_zdrop].
Qed.

Lemma read_chunk ra c s :
  chunk_ok c → Forall u8 s →
  read_reassembled ra (chunk_wire c ++ s) =
  match push ra c.1 c.2 with
  | (ra, Ok (Some m)) => (ra, s, Done m)
  | (ra, Ok None) => read_reassembled ra s
  | (ra, Err _) => (ra, s, IoErr InvalidData)
  | (ra, Panic) => (ra, s, Panicked)
  end.
Proof.
  intros Hc Hu. pose proof (chunk_wire_u8 c Hc) as Hcu. destruct Hc as (Hw & Hl & Hp).
  unfold chunk_wire in *. rewrite <- app_assoc. apply read_reassembled_chunk; [|apply len_ChunkHeader_wire| |done].
  - rewrite app_assoc. by apply Forall_app.
  - pose proof (decode_wire (T:=ChunkHeader) c.1 [] Hw) as Hd. by rewrite app_nil_r in Hd.
Qed.

(** Chunks that give no result but the last, which delivers [m]. *)
Lemma read_chunks ra cs s n ra' m :
  Forall chunk_ok cs → Forall u8 s →
  push_all ra cs = (ra', replicate n (Ok None) ++ [Ok (Some m)]) →
  read_reassembled ra (concat (map chunk_wire cs) ++ s) = (ra', s, Done m).
Proof.
  intros Hcs Hu. revert ra n. induction Hcs as [|c cs Hc Hcs IH]; intros ra n Hp.
  { by destruct n. }
  cbn [map concat]. rewrite <- app_assoc, read_chunk;
    [|done|by apply Forall_app; auto using chunks_wire_u8].
  destruct c as [h p]. cbn [push_all fst snd] in *. destruct (push ra h p) as [ra1 o].
  destruct (push_all ra1 cs) as [ra2 os] eqn:E2. destruct n as [|n]; cbn in Hp; simplify_eq.
  - destruct cs as [|[h' p'] cs]; cbn in E2; [by simplify_eq|].
    destruct (push ra1 h' p'), (push_all _ cs). simplify_eq.
  - by apply (IH ra1 n).
Qed.

(** ** End to end *)

Definition message_raw (m : Message.t) : RawMessage :=
  mkRaw (Message.msg_type m) (Message.wire m).

Definition sendable (m : Message.t) : Prop := Message.wf m ∧ within_limit (message_raw m).

Lemma to_chunks_wire m vc :
  Message.wf m →
  Message.to_chunks m vc =
  Ok (map chunk_wire (chunks (Message.msg_type m) (Message.channel m vc) (Message.wire m))).
Proof.
  intros Hm. unfold Message.to_chunks. rewrite encode_body_wire by done. apply fragment_chunks.
Qed.

(** The chunks of one sendable message at the head of a stream. *)
Lemma read_sendable m vc s :
  sendable m → u16 vc → Forall u8 s →
  read_reassembled Reassembler_new (op_bytes (QueueMessage m vc) ++ s) =
  (Reassembler_new, s, Done (message_raw m)).
Proof.
  intros [Hm Hl] Hvc Hu. cbn [op_bytes]. rewrite to_chunks_wire by done.
  pose proof (chunks_chunk_ok (Message.msg_type m) (Message.channel m vc) (Message.wire m)
    (msg_type_u8 m) (channel_u16 m vc Hvc) (message_wire_u8 m Hm)) as Hcs.
  pose proof (max_message_len_bounds (Message.msg_type m)). unfold within_limit in Hl; cbn in Hl.
  erewrite read_chunks; [|done|done|].
  2: { apply (push_all_chunks _ _ _ _ []); [apply reasm_inv_new|by right|done|cbn; lia]. }
  by rewrite set_channel_none.
Qed.

Lemma message_bytes_u8 m vc : Message.wf m → u16 vc → Forall u8 (op_bytes (QueueMessage m vc)).
Proof.
  intros Hm Hvc. cbn [op_bytes]. rewrite to_chunks_wire by done.
  apply chunks_wire_u8, chunks_chunk_ok; auto using msg_type_u8, channel_u16, message_wire_u8.
Qed.

Lemma drain_message m vc s :
  sendable m → u16 vc → Forall u8 s →
  drain Reassembler_new (op_bytes (QueueMessage m vc) ++ s) =
  message_raw m :: drain Reassembler_new s.
Proof.
  intros Hm Hvc Hu. rewrite drain_eq by (apply Forall_app; split; [apply message_bytes_u8; [apply Hm|done]|done]).
  by rewrite read_sendable.
Qed.

Lemma read_message_sendable m vc s :
  sendable m → u16 vc → Forall u8 s →
  read_message Reassembler_new (op_bytes (QueueMessage m vc) ++ s) =
  (Reassembler_new, s, Done (Some m)).
Proof.
  intros Hm Hvc Hu. unfold read_message. rewrite read_sendable by done. cbn [message_raw raw_type raw_payload].
  pose proof (decode_known_wire m [] (proj1 Hm)) as Hd. rewrite app_nil_r in Hd. by rewrite Hd.
Qed.

Lemma write_message_written wire m vc :
  Message.wf m → write_message wire m vc Written = (wire ++ op_bytes (QueueMessage m vc), Done tt).
Proof.
  intros Hm. unfold write_message, write_chunks. cbn [op_bytes]. by rewrite to_chunks_wire.
Qed.

(** Operations that queue sendable messages, with flushes anywhere between. *)
Definition queued (op : write_op) : option Message.t :=
  match op with QueueMessage m _ => Some m | _ => None end.

Definition op_sendable (op : write_op) : Prop :=
  match op with
  | QueueMessage m vc => sendable m ∧ u16 vc
  | QueueRaw _ _ _ => False
  | Flush _ => True
  end.

Lemma op_bytes_u8 op : op_sendable op → Forall u8 (op_bytes op).
Proof.
  destruct op as [m vc| |evs]; cbn [op_sendable]; [|done|constructor].
  intros [[Hm _] Hvc]. by apply message_bytes_u8.
Qed.

Lemma ops_bytes_u8 ops : Forall op_sendable ops → Forall u8 (concat (map op_bytes ops)).
Proof.
  induction 1; cbn; [constructor|]. apply Forall_app. auto using op_bytes_u8.
Qed.

Lemma drain_ops ops :
  Forall op_sendable ops →
  drain Reassembler_new (concat (map op_bytes ops)) = map message_raw (omap queued ops).
Proof.
  induction 1 as [|op ops Hop Hops IH]; [by vm_compute|]. cbn [map concat].
  destruct op as [m vc| |evs]; [|done|exact IH].
  destruct Hop as [Hm Hvc]. rewrite drain_message by auto using ops_bytes_u8.
  cbn. by rewrite IH.
Qed.

Lemma sent_decode ops :
  Forall op_sendable ops →
  Forall (λ m, Message.decode_known (raw_type (message_raw m)) (raw_payload (message_raw m))
               = Ok (Some m)) (omap queued ops).
Proof.
  induction 1 as [|op ops Hop _ IH]; [constructor|].
  destruct op as [m vc| |evs]; [|done|exact IH]. constructor; [|exact IH].
  destruct Hop as [[Hm _] _].
  pose proof (decode_known_wire m [] Hm) as Hd. by rewrite app_nil_r in Hd.
Qed.

(** ** Properties *)

(** C7: cancel safety.  Over any byte stream and any sequence of [next_message]
    calls - reads split anywhere, calls dropped at any await, read errors, ends of
    file, in any order - the messages received are exactly the first messages
    the reference reader finds in the stream, and what the reader and the socket
    hold at the end is exactly what yields the rest: nothing is lost, repeated or
    read out of alignment, and no call panics. *)
Theorem chunk_reader_cancel_safe bytes calls :
  Forall u8 bytes →
  let '(cr, ra, sock, ms, ok) := run_calls ChunkReader_new Reassembler_new bytes calls in
  drain Reassembler_new bytes = ms ++ (if ok then drain ra (absorbed cr ++ sock) else []).
Proof.
  intros Hu.
  pose proof (run_calls_drain calls ChunkReader_new Reassembler_new bytes
    reader_inv_new reasm_inv_new Hu) as H.
  destruct (run_calls _ _ _ _) as [[[[cr ra] sock] ms] ok]. by destruct H as (_ & _ & _ & H).
Qed.

Lemma chunk_reader_cancel_safe_witness :
  let calls := [[Deliver 3; Cancel]; [Deliver 2]; [Deliver 100; ReadError]; [Deliver 2; Deliver 9]] in
  let '(cr, ra, sock, ms, ok) :=
    run_calls ChunkReader_new Reassembler_new [5; 0; 0; 0; 2; 0; 0; 0; 7; 8] calls in
  ms = [mkRaw 5 [7; 8]] ∧ ok = true ∧
  drain Reassembler_new [5; 0; 0; 0; 2; 0; 0; 0; 7; 8] = ms ++ drain ra (absorbed cr ++ sock).
Proof.
  pose proof (chunk_reader_cancel_safe [5; 0; 0; 0; 2; 0; 0; 0; 7; 8]
    [[Deliver 3; Cancel]; [Deliver 2]; [Deliver 100; ReadError]; [Deliver 2; Deliver 9]]) as H.
  split; [vm_compute; reflexivity|]. split; [vm_compute; reflexivity|].
  apply H. repeat constructor; discriminate.
Defined.

(** A call that meets neither an error nor a cancellation, and enough reads
    for the bytes there are, returns, with exactly the result and the
    reassembler [read_reassembled] has on the bytes held so far and those to
    come, from any reachable state of the reader. *)
Theorem next_message_complete cr ra sock evs :
  reader_inv cr → reasm_inv ra → Forall u8 (absorbed cr ++ sock) →
  Forall (λ ev, is_deliver ev = true) evs → len sock < len evs →
  let '(_, ra', _, _, r) := next_message cr ra sock evs in
  ∃ rest, read_reassembled ra (absorbed cr ++ sock) = (ra', rest, r).
Proof.
  intros Hcr Hra Hu Hd Hl.
  pose proof (next_message_refines cr ra sock evs Hcr Hra Hu) as Href. unfold next_message in *.
  pose proof (next_loop_live (2 * length evs + 4) cr ra sock evs (reader_inv_fill_ok cr Hcr) Hd Hl) as Hlive.
  destruct (next_loop _ cr ra sock evs) as [[[[cr' ra'] sock'] evs'] r]. cbn [snd] in Hlive.
  destruct Href as (_ & _ & _ & Hpost). destruct Hlive as [L1 L2].
  destruct r as [m|[| | |]| |]; cbn in Hpost; eauto; [|done..]. destruct Hpost as (_ & Hpost & _). eauto.
Qed.

Lemma next_message_complete_witness :
  let '(_, ra', _, _, r) := next_message ChunkReader_new Reassembler_new
    [5; 0; 0; 0; 1; 0; 0; 0; 7] (replicate 10 (Deliver 4)) in
  ∃ rest, read_reassembled Reassembler_new [5; 0; 0; 0; 1; 0; 0; 0; 7] = (ra', rest, r).
Proof.
  apply (next_message_complete ChunkReader_new Reassembler_new
    [5; 0; 0; 0; 1; 0; 0; 0; 7] (replicate 10 (Deliver 4))).
  - exact reader_inv_new.
  - exact reasm_inv_new.
  - vm_compute. repeat constructor; discriminate.
  - repeat constructor.
  - vm_compute. reflexivity.
Defined.

(** Whatever the interleaving of queued messages and flushes, and however
    each flush is cut short, the bytes on the wire followed by those still
    queued are exactly the chunks queued, in order: the wire only ever grows by
    the next of them. *)
Theorem chunk_writer_exact ops :
  let '(w, wire) := run_write_ops ops (ChunkWriter_new, []) in
  wire ++ unsent w = concat (map op_bytes ops) ∧ 0 ≤ cw_written w ≤ len (cw_pending w).
Proof.
  pose proof (run_write_ops_spec ops ChunkWriter_new []) as H.
  destruct (run_write_ops ops _) as [w wire]. destruct H as (Hw & Hb & _); [by split|].
  split; [exact Hb|exact Hw].
Qed.

(** C8: end to end.  Any messages within the limits, queued through a
    [ChunkWriter] with flushes interrupted anywhere and at last completed, then
    read by a [ChunkReader] under any schedule of calls: what is received are
    the first of the messages sent, in order, the rest is what the reader will
    still find, and every one decodes to the message that was sent. *)
Theorem transport_end_to_end ops calls :
  Forall op_sendable ops →
  let '(w, wire) := run_write_ops ops (ChunkWriter_new, []) in
  unsent w = [] →
  let sent := omap queued ops in
  let '(cr, ra, sock, ms, ok) := run_calls ChunkReader_new Reassembler_new wire calls in
  ms ++ (if ok then drain ra (absorbed cr ++ sock) else []) = map message_raw sent ∧
  Forall (λ m, Message.decode_known (raw_type (message_raw m)) (raw_payload (message_raw m))
               = Ok (Some m)) sent.
Proof.
  intros Hops. pose proof (run_write_ops_spec ops ChunkWriter_new []) as Hw.
  destruct (run_write_ops ops _) as [w wire]. destruct Hw as (_ & Hb & _); [by split|].
  intros Hnil. rewrite Hnil, app_nil_r in Hb. cbn [app unsent ChunkWriter_new] in Hb.
  change (unsent ChunkWriter_new) with (@nil Z) in Hb. cbn [app] in Hb. subst wire.
  pose proof (run_calls_drain calls ChunkReader_new Reassembler_new (concat (map op_bytes ops))
    reader_inv_new reasm_inv_new (ops_bytes_u8 ops Hops)) as H.
  destruct (run_calls _ _ _ _) as [[[[cr ra] sock] ms] ok]. destruct H as (_ & _ & _ & H).
  rewrite absorbed_new in H. cbn [app] in H. rewrite <- H, drain_ops by done. split; [done|].
  by apply sent_decode.
Qed.

Lemma transport_end_to_end_witness :
  let ops := [QueueMessage (Message.Ping (mkPing 1 2)) 0; Flush [Accept 3; WriteCancel];
              QueueMessage (Message.TextInput (mkTextInput [104; 105])) 0; Flush [Accept 100]] in
  Forall op_sendable ops ∧
  let '(w, wire) := run_write_ops ops (ChunkWriter_new, []) in
  unsent w = [] ∧
  (run_calls ChunkReader_new Reassembler_new wire [replicate 40 (Deliver 1)]).1.2
    = [message_raw (Message.Ping (mkPing 1 2))] ∧
  Message.decode_known 5 (Message.wire (Message.Ping (mkPing 1 2)))
    = Ok (Some (Message.Ping (mkPing 1 2))).
Proof.
  set (ops := [QueueMessage (Message.Ping (mkPing 1 2)) 0; Flush [Accept 3; WriteCancel];
              QueueMessage (Message.TextInput (mkTextInput [104; 105])) 0; Flush [Accept 100]]).
  assert (Forall op_sendable ops) as Hops.
  { repeat constructor; vm_compute; try reflexivity; discriminate. }
  split; [exact Hops|].
  pose proof (transport_end_to_end ops [replicate 40 (Deliver 1)] Hops) as H.
  assert (unsent (run_write_ops ops (ChunkWriter_new, [])).1 = []) as Hn by (vm_compute; reflexivity).
  destruct (run_write_ops ops (ChunkWriter_new, [])) as [w wire] eqn:E.
  split; [exact Hn|]. specialize (H Hn).
  assert (wire = (run_write_ops ops (ChunkWriter_new, [])).2) as Ew by (rewrite E; reflexivity).
  split; [rewrite Ew; vm_compute; reflexivity|].
  destruct (run_calls ChunkReader_new Reassembler_new wire [replicate 40 (Deliver 1)])
    as [[[[cr ra] sock] ms] ok].
  destruct H as [_ H]. exact (List.Forall_inv H).
Defined.
