(* ===== verification/Handshake.v ===== *)
(** * The handshake

    The agent's side, [negotiate] and [reject] of
    [crates/oxagent/src/handshake.rs], and the client's, [ClientSession::connect]
    of [crates/oxclient/src/session.rs] ([docs/design/OXPROTO.md] section 7).
    Both read a byte stream through [read_message] and append to the other's
    through [write_message].  The token comparison is a parameter, as it is in
    the code.  The fate of each write is given in advance; one more than needed
    is harmless. *)

From S2P Require Import Prelude Cursor Wire MsgType MsgControl MsgInput MsgWindow.
From S2P Require Import Envelope Reassembly ProtoMessage Transport.

(** ** The agent *)

Record Negotiated : Type := mkNegotiated {
  ng_version : Z;
  ng_features : Z;
  ng_codec : Z;
  ng_session_id : Z;
  ng_client_name : list Z;
  ng_display : DisplayLayout
}.

(** [Timeout] and [Busy] are reported by callers of [negotiate]. *)
Inductive HandshakeError : Type :=
| HsIo (k : io_kind)
| Rejected (code : Z) (reason : string)
| Timeout
| Busy.

(** How [negotiate] ends: dropped and panicking calls are kept apart. *)
Inductive hs_result : Type :=
| Agreed (n : Negotiated)
| Refused (e : HandshakeError)
| HsDropped
| HsPanicked.

(** The agent's end of a connection: bytes to read, bytes written. *)
Record Stream : Type := mkStream { st_in : list Z; st_out : list Z }.

Definition fate_at (fates : list write_fate) (i : nat) : write_fate := default Written (fates !! i).

Definition reject (s : Stream) (fates : list write_fate) (code : Z) (message reason : string)
    : Stream * hs_result :=
  let out1 := (write_message (st_out s)
    (Message.Error (mkError code (bytes_of_string message))) channel.CONTROL (fate_at fates 0)).1 in
  let out2 := (write_message out1
    (Message.Close (mkClose close_reason.ERROR)) channel.CONTROL (fate_at fates 1)).1 in
  (mkStream (st_in s) out2, Refused (Rejected code reason)).

Definition negotiate (s : Stream) (ra : Reassembler) (fates : list write_fate) (session_id : Z)
    (supported_codecs : list Z) (verify_token : list Z → bool)
    : Stream * Reassembler * hs_result :=
  let '(ra, rest, r) := read_message ra (st_in s) in
  let s := mkStream rest (st_out s) in
  match r with
  | IoErr k => (s, ra, Refused (HsIo k))
  | Dropped => (s, ra, HsDropped)
  | Panicked => (s, ra, HsPanicked)
  | Done (Some (Message.ClientHello hello)) =>
    if negb (verify_token (ch_auth_token hello)) then
      let '(s, e) := reject s fates error_code.AUTH_FAILED "authentication failed" "token mismatch" in
      (s, ra, e)
    else
      let version := Z.min PROTOCOL_VERSION (ch_version_max hello) in
      if (version <? MIN_SUPPORTED_VERSION) || (version <? ch_version_min hello) then
        let '(s, e) := reject s fates error_code.VERSION_MISMATCH
          "no mutually supported protocol version" "version ranges do not overlap" in
        (s, ra, e)
      else
        match List.find (λ c, bool_decide (c ∈ supported_codecs)) (ch_codecs hello) with
        | None =>
          let '(s, e) := reject s fates error_code.UNSUPPORTED_CODEC
            "no mutually supported codec" "client offered no codec this agent can produce" in
          (s, ra, e)
        | Some chosen =>
          let features := Z.land (ch_features hello) feature.SUPPORTED in
          let '(out, w) := write_message (st_out s)
            (Message.ServerHello (mkServerHello version features session_id chosen))
            channel.CONTROL (fate_at fates 0) in
          let s := mkStream (st_in s) out in
          match w with
          | Done _ => (s, ra, Agreed (mkNegotiated version features chosen session_id
                                        (ch_client_name hello) (ch_display hello)))
          | IoErr k => (s, ra, Refused (HsIo k))
          | Dropped => (s, ra, HsDropped)
          | Panicked => (s, ra, HsPanicked)
          end
        end
  | Done _ =>
    let '(s, e) := reject s fates error_code.PROTOCOL
      "expected ClientHello" "first message was not a ClientHello" in
    (s, ra, e)
  end.

(** ** The client *)

Record SessionConfig : Type := mkConfig {
  cf_auth_token : list Z;
  cf_client_name : list Z;
  cf_codecs : list Z;
  cf_display : DisplayLayout
}.

Definition client_hello (cfg : SessionConfig) : Message.t :=
  Message.ClientHello (mkClientHello MIN_SUPPORTED_VERSION PROTOCOL_VERSION feature.SUPPORTED
    (cf_auth_token cfg) (cf_client_name cfg) (cf_codecs cfg) (cf_display cfg)).

(** What the client learns from the [ServerHello]. *)
Record Session : Type := mkSession {
  sn_version : Z;
  sn_features : Z;
  sn_codec : Z;
  sn_session_id : Z
}.

Inductive connect_result : Type :=
| Connected (s : Session)
| PermissionDenied (auth : bool) (code : Z) (message : list Z)
| UnexpectedMessage (ty : Z)
| ConnectIo (k : io_kind)
| ConnectDropped
| ConnectPanicked.

(** The [loop] of [connect]: unknown messages are skipped.  A turn that goes
    round has taken a whole message from the stream. *)
Fixpoint await_server_hello (fuel : nat) (ra : Reassembler) (inp : list Z)
    : Reassembler * list Z * connect_result :=
  match fuel with
  | O => (ra, inp, ConnectPanicked)
  | S fuel =>
    match read_message ra inp with
    | (ra, inp, Done (Some (Message.ServerHello sh))) =>
      (ra, inp, Connected (mkSession (sh_version sh) (Z.land (sh_features sh) feature.SUPPORTED)
                             (sh_codec sh) (sh_session_id sh)))
    | (ra, inp, Done (Some (Message.Error e))) =>
      (ra, inp, PermissionDenied (err_code e =? error_code.AUTH_FAILED) (err_code e) (err_message e))
    | (ra, inp, Done (Some other)) => (ra, inp, UnexpectedMessage (Message.msg_type other))
    | (ra, inp, Done None) => await_server_hello fuel ra inp
    | (ra, inp, IoErr k) => (ra, inp, ConnectIo k)
    | (ra, inp, Dropped) => (ra, inp, ConnectDropped)
    | (ra, inp, Panicked) => (ra, inp, ConnectPanicked)
    end
  end.

(** [connect] over a stream on which the agent answers: the hello is written,
    then the answer read. *)
Definition connect_send (cfg : SessionConfig) (fate : write_fate) : list Z * io_result unit :=
  write_message [] (client_hello cfg) channel.CONTROL fate.

Definition connect_receive (inp : list Z) : Reassembler * list Z * connect_result :=
  await_server_hello (S (length inp)) Reassembler_new inp.

(** ** The messages of the handshake can be sent *)

Definition message_bytes (m : Message.t) : list Z := op_bytes (QueueMessage m channel.CONTROL).

Definition rejection (code : Z) (message : string) : list Z :=
  message_bytes (Message.Error (mkError code (bytes_of_string message))) ++
  message_bytes (Message.Close (mkClose close_reason.ERROR)).

(** The code and message of each refusal. *)
Definition refusals : list (Z * string) :=
  [(error_code.PROTOCOL, "expected ClientHello"%string);
   (error_code.AUTH_FAILED, "authentication failed"%string);
   (error_code.VERSION_MISMATCH, "no mutually supported protocol version"%string);
   (error_code.UNSUPPORTED_CODEC, "no mutually supported codec"%string)].

Lemma refusal_sendable code message :
  (code, message) ∈ refusals → sendable (Message.Error (mkError code (bytes_of_string message))).
Proof.
  unfold refusals. rewrite !elem_of_cons, elem_of_nil.
  intros [E|[E|[E|[E|[]]]]]; simplify_eq; (split; [split; vm_compute; auto; split; congruence|by vm_compute]).
Qed.

Lemma close_sendable : sendable (Message.Close (mkClose close_reason.ERROR)).
Proof. split; [split; vm_compute; congruence|by vm_compute]. Qed.

Lemma server_hello_sendable version features sid codec :
  u16 version → u64 features → u64 sid → u8 codec →
  sendable (Message.ServerHello (mkServerHello version features sid codec)).
Proof.
  intros. split; [by split_and!|]. unfold within_limit. cbn [message_raw raw_payload raw_type Message.wire].
  rewrite <- (wire_size (T:=ServerHello)) by (by split_and!). by vm_compute.
Qed.

Lemma control_u16 : u16 channel.CONTROL.
Proof. by vm_compute. Qed.

Lemma reject_written s code message reason :
  (code, message) ∈ refusals →
  reject s [] code message reason =
  (mkStream (st_in s) (st_out s ++ rejection code message), Refused (Rejected code reason)).
Proof.
  intros Hin. unfold reject, fate_at. cbn [lookup list_lookup default from_option].
  rewrite (write_message_written _ _ _ (proj1 (refusal_sendable _ _ Hin))). cbn [fst].
  rewrite (write_message_written _ _ _ (proj1 close_sendable)). cbn [fst].
  by rewrite <- app_assoc.
Qed.

Lemma refusal_in i code message : refusals !! i = Some (code, message) → (code, message) ∈ refusals.
Proof. apply list_elem_of_lookup_2. Qed.

Lemma land_supported_u64 x : u64 (Z.land x feature.SUPPORTED).
Proof.
  unfold is_uint. split; [apply Z.land_nonneg; by right|].
  apply Z.le_lt_trans with feature.SUPPORTED; [|by vm_compute].
  assert (Z.land x feature.SUPPORTED = Z.land (x mod 64) feature.SUPPORTED) as ->.
  { apply Z.bits_inj'. intros i Hi. rewrite !Z.land_spec.
    destruct (Z.lt_ge_cases i 6).
    - change 64 with (2 ^ 6). by rewrite Z.mod_pow2_bits_low by lia.
    - assert (Z.testbit feature.SUPPORTED i = false) as ->; [|by rewrite !andb_false_r].
      apply Z.bits_above_log2; [by vm_compute|]. change (Z.log2 feature.SUPPORTED) with 5. lia. }
  pose proof (Z.mod_pos_bound x 64 ltac:(lia)). generalize dependent (x mod 64). intros y Hy.
  change feature.SUPPORTED with 59.
  assert (∀ n, (n < 64)%nat → Z.land (Z.of_nat n) 59 ≤ 59) as Hall.
  { intros n Hn. do 64 (destruct n as [|n]; [by vm_compute|]). lia. }
  specialize (Hall (Z.to_nat y) ltac:(lia)). by rewrite Z2Nat.id in Hall by lia.
Qed.

Lemma find_first {A} (f : A → bool) l x :
  List.find f l = Some x → ∃ l1 l2, l = l1 ++ x :: l2 ∧ f x = true ∧ Forall (λ y, f y = false) l1.
Proof.
  induction l as [|y l IH]; cbn; [done|]. destruct (f y) eqn:E.
  - intros [= ->]. by exists [], l.
  - intros Hf. destruct (IH Hf) as (l1 & l2 & -> & Hx & Hl). exists (y :: l1), l2. auto.
Qed.


(** ** Properties *)

(** Nothing is agreed without authentication.  When [negotiate] agrees,
    the first message read was a [ClientHello] whose token verified; the version
    lies in both peers' ranges; the codec is the first of the client's list the
    agent supports; the features are those both have; and exactly one message
    was taken from the stream and one [ServerHello] with these values written. *)
Theorem negotiate_agreed s ra fates sid supported verify s' ra' n :
  negotiate s ra fates sid supported verify = (s', ra', Agreed n) →
  ∃ h rest l1 l2,
    read_message ra (st_in s) = (ra', rest, Done (Some (Message.ClientHello h))) ∧
    verify (ch_auth_token h) = true ∧
    MIN_SUPPORTED_VERSION ≤ ng_version n ≤ PROTOCOL_VERSION ∧
    ch_version_min h ≤ ng_version n ≤ ch_version_max h ∧
    ch_codecs h = l1 ++ ng_codec n :: l2 ∧ ng_codec n ∈ supported ∧ Forall (λ c, c ∉ supported) l1 ∧
    ng_features n = Z.land (ch_features h) feature.SUPPORTED ∧ ng_session_id n = sid ∧
    ng_client_name n = ch_client_name h ∧ ng_display n = ch_display h ∧
    write_message (st_out s)
      (Message.ServerHello (mkServerHello (ng_version n) (ng_features n) sid (ng_codec n)))
      channel.CONTROL (fate_at fates 0) = (st_out s', Done tt) ∧
    st_in s' = rest.
Proof.
  unfold negotiate. destruct (read_message ra (st_in s)) as [[ra1 rest] r].
  destruct r as [[m|]|k| |]; try done.
  destruct m as [h|m|m|m|m|m|m|m|m|m|m|m|m|m|m|m|m|m|m|m|m|m|m|m|m]; try by cbn.
  destruct (verify (ch_auth_token h)) eqn:Ev; cbn [negb]; [|by cbn].
  destruct (_ || _) eqn:Er; [by cbn|]. apply orb_false_iff in Er as [E1 E2]. bool_to_prop.
  destruct (List.find _ _) as [c|] eqn:Ef; [|by cbn]. cbn [st_out].
  match goal with |- context [write_message ?a ?b ?c ?d] =>
    destruct (write_message a b c d) as [out w] eqn:Ew end.
  destruct w as [[]|k| |]; [|intros E; discriminate E..]. intros [= <- <- <-].
  apply find_first in Ef as (l1 & l2 & Hc & Hs & Hl). apply bool_decide_eq_true in Hs.
  exists h, rest, l1, l2. cbn. split_and!; auto; try lia.
  eapply Forall_impl; [exact Hl|]. intros x Hx. by apply bool_decide_eq_false in Hx.
Qed.

(** C12: a peer without a valid token gets nothing: whatever bytes it sends, on
    any reassembler in order, [negotiate] takes at most one message from it and
    ends with an IO error and nothing written, or refuses it - with the code for
    a wrong first message or for failed authentication - having written one
    [Error] and one [Close] and nothing else.  It neither agrees nor panics. *)
Theorem negotiate_unauthenticated s ra sid supported verify :
  reasm_inv ra → reasm_u8 ra → Forall u8 (st_in s) → (∀ token, verify token = false) →
  let '(s', _, r) := negotiate s ra [] sid supported verify in
  st_in s' = (read_message ra (st_in s)).1.2 ∧
  match r with
  | Refused (HsIo _) => st_out s' = st_out s
  | Refused (Rejected code _) =>
    ∃ message, (code, message) ∈ take 2 refusals ∧ st_out s' = st_out s ++ rejection code message
  | _ => False
  end.
Proof.
  intros Hr Hru Hu Hv. unfold negotiate. pose proof (read_message_total ra (st_in s) Hr Hru Hu) as Ht.
  destruct (read_message ra (st_in s)) as [[ra1 rest] r]. destruct Ht as (_ & _ & _ & Ht).
  assert (∀ i code message reason, refusals !! i = Some (code, message) → (i < 2)%nat →
    let '(s', r') := reject (mkStream rest (st_out s)) [] code message reason in
    st_in s' = rest ∧ ∃ c, r' = Refused (Rejected c reason) ∧
    ∃ message, (c, message) ∈ take 2 refusals ∧ st_out s' = st_out s ++ rejection c message) as Hrej.
  { intros i code message reason Hi Hlt. rewrite reject_written by (by eapply refusal_in). cbn [st_in st_out].
    split; [done|]. eexists. split; [done|]. exists message. split; [|done].
    apply (list_elem_of_lookup_2 _ i). by rewrite lookup_take_lt. }
  destruct r as [[m|]|k| |]; [| |by split|done..].
  - destruct m as [h|m|m|m|m|m|m|m|m|m|m|m|m|m|m|m|m|m|m|m|m|m|m|m|m].
    { rewrite Hv. cbn [negb].
      specialize (Hrej 1%nat _ _ "token mismatch"%string eq_refl ltac:(lia)).
      destruct (reject _ _ _ _ _) as [s' r']. by destruct Hrej as [Hi (c & -> & Hc)]. }
    all: specialize (Hrej 0%nat _ _ "first message was not a ClientHello"%string eq_refl ltac:(lia));
      destruct (reject _ _ _ _ _) as [s' r']; by destruct Hrej as [Hi (c & -> & Hc)].
  - specialize (Hrej 0%nat _ _ "first message was not a ClientHello"%string eq_refl ltac:(lia)).
    destruct (reject _ _ _ _ _) as [s' r']. by destruct Hrej as [Hi (c & -> & Hc)].
Qed.

Lemma negotiate_unauthenticated_witness :
  (negotiate (mkStream [5; 0; 0; 0] []) Reassembler_new [] 7 [1] (λ _, false)).1.1.(st_out) = [].
Proof.
  pose proof (negotiate_unauthenticated (mkStream [5; 0; 0; 0] []) Reassembler_new 7 [1] (λ _, false)
    reasm_inv_new reasm_u8_new ltac:(repeat constructor; vm_compute; congruence) (λ _, eq_refl)) as H.
  destruct (negotiate _ _ _ _ _ _) as [[s' ra'] r] eqn:E.
  assert (r = Refused (HsIo UnexpectedEof)) as -> by (vm_compute in E; congruence).
  exact (proj2 H).
Defined.

(** C13: both ends agree.  A client's hello, sent through the chunk layer, read
    and answered by the agent and the answer read by the client: with a valid
    token and a common codec both hold the same version, features, codec and
    session id, the codec being the client's most preferred one the agent has;
    with a valid token and no common codec, or with an invalid token, the agent
    refuses and the client is told the same code. *)
Theorem handshake_agreement cfg sid supported verify :
  sendable (client_hello cfg) → u64 sid →
  let '(hello, _) := connect_send cfg Written in
  let '(s, _, agent) := negotiate (mkStream hello []) Reassembler_new [] sid supported verify in
  let '(_, _, client) := connect_receive (st_out s) in
  if verify (cf_auth_token cfg) then
    match List.find (λ c, bool_decide (c ∈ supported)) (cf_codecs cfg) with
    | Some codec =>
      agent = Agreed (mkNegotiated PROTOCOL_VERSION feature.SUPPORTED codec sid
                        (cf_client_name cfg) (cf_display cfg)) ∧
      client = Connected (mkSession PROTOCOL_VERSION feature.SUPPORTED codec sid)
    | None =>
      (∃ reason, agent = Refused (Rejected error_code.UNSUPPORTED_CODEC reason)) ∧
      (∃ message, client = PermissionDenied false error_code.UNSUPPORTED_CODEC message)
    end
  else
    (∃ reason, agent = Refused (Rejected error_code.AUTH_FAILED reason)) ∧
    (∃ message, client = PermissionDenied true error_code.AUTH_FAILED message).
Proof.
  intros Hh Hsid. unfold connect_send. rewrite write_message_written by apply Hh. cbn [app].
  unfold negotiate. cbn [st_in].
  rewrite <- (app_nil_r (op_bytes (QueueMessage (client_hello cfg) channel.CONTROL))).
  rewrite read_message_sendable by (done || apply control_u16 || constructor).
  unfold client_hello at 1. cbn [ch_auth_token ch_version_max ch_version_min ch_codecs ch_features
    ch_client_name ch_display st_out].
  assert (∀ code message reason, (code, message) ∈ refusals →
    let '(s, r) := reject (mkStream [] []) [] code message reason in
    r = Refused (Rejected code reason) ∧
    (connect_receive (st_out s)).2 =
      PermissionDenied (code =? error_code.AUTH_FAILED) code (bytes_of_string message)) as Hrej.
  { intros code message reason Hin. rewrite reject_written by done. cbn [st_out st_in app]. split; [done|].
    unfold connect_receive, rejection, message_bytes. cbn [await_server_hello].
    rewrite read_message_sendable; [done|by apply refusal_sendable|apply control_u16|].
    apply message_bytes_u8; [apply close_sendable|apply control_u16]. }
  destruct (verify (cf_auth_token cfg)); cbn [negb].
  - change (_ || _) with false. cbv iota.
    destruct (List.find _ _) as [c|] eqn:Ef.
    + assert (u8 c) as Hc.
      { destruct Hh as [(_ & _ & _ & _ & _ & [_ Hcs] & _) _]. cbn in Hcs.
        apply find_first in Ef as (l1 & l2 & E & _). rewrite E in Hcs.
        apply Forall_app in Hcs as [_ Hcs]. by apply Forall_cons in Hcs as [? _]. }
      assert (sendable (Message.ServerHello (mkServerHello (Z.min PROTOCOL_VERSION PROTOCOL_VERSION)
        (Z.land feature.SUPPORTED feature.SUPPORTED) sid c))) as Hs.
      { by apply server_hello_sendable; [by vm_compute|apply land_supported_u64|..]. }
      unfold fate_at. cbn [lookup list_lookup default from_option].
      rewrite write_message_written by apply Hs. cbn [app st_out st_in].
      unfold connect_receive. cbn [await_server_hello].
      rewrite <- (app_nil_r (op_bytes _)).
      rewrite read_message_sendable by (done || apply control_u16 || constructor). done.
    + specialize (Hrej _ _ "client offered no codec this agent can produce"%string (refusal_in 3 _ _ eq_refl)).
      destruct (reject _ _ _ _ _) as [s r]. destruct Hrej as [-> Hc].
      destruct (connect_receive (st_out s)) as [[? ?] cl]. cbn in Hc. subst cl. split; by eexists.
  - specialize (Hrej _ _ "token mismatch"%string (refusal_in 1 _ _ eq_refl)).
    destruct (reject _ _ _ _ _) as [s r]. destruct Hrej as [-> Hc].
    destruct (connect_receive (st_out s)) as [[? ?] cl]. cbn in Hc. subst cl. split; by eexists.
Qed.

Definition example_config : SessionConfig :=
  mkConfig (bytes_of_string "secret") (bytes_of_string "laptop") [codec.AV1; codec.H264; codec.RAW_BGRA]
    (mkDisplayLayout [mkOutput 1 0 0 1920 1080 1 1 60000]).

Lemma example_config_sendable : sendable (client_hello example_config).
Proof.
  split; [|by vm_compute].
  change (ClientHello_wf (mkClientHello 1 1 feature.SUPPORTED (cf_auth_token example_config)
    (cf_client_name example_config) (cf_codecs example_config) (cf_display example_config))).
  unfold ClientHello_wf, DisplayLayout_wf. cbn [ch_version_min ch_version_max ch_features ch_auth_token
    ch_client_name ch_codecs ch_display].
  split_and!; unfold is_uint, str_ok;
    lazymatch goal with |- Forall _ _ => idtac | |- _ => by vm_compute end.
  - unfold example_config. cbn [cf_codecs]. repeat constructor; by vm_compute.
  - apply Forall_singleton. unfold Output_wf, is_uint, is_sint. cbn. lia.
Qed.

Lemma handshake_agreement_witness :
  let '(hello, _) := connect_send example_config Written in
  let '(s, _, agent) := negotiate (mkStream hello []) Reassembler_new [] 7 [1; 2] (λ _, true) in
  let '(_, _, client) := connect_receive (st_out s) in
  agent = Agreed (mkNegotiated 1 feature.SUPPORTED codec.H264 7 (bytes_of_string "laptop")
                    (mkDisplayLayout [mkOutput 1 0 0 1920 1080 1 1 60000])) ∧
  client = Connected (mkSession 1 feature.SUPPORTED codec.H264 7).
Proof.
  apply (handshake_agreement example_config 7 [1; 2] (λ _, true)).
  - exact example_config_sendable.
  - split; vm_compute; congruence.
Defined.

Lemma negotiate_agreed_witness :
  ∃ n, (negotiate (mkStream (connect_send example_config Written).1 []) Reassembler_new [] 7 [1; 2]
          (λ _, true)).2 = Agreed n ∧ MIN_SUPPORTED_VERSION ≤ ng_version n ∧ ng_codec n ∈ [1; 2].
Proof.
  destruct (negotiate (mkStream (connect_send example_config Written).1 []) Reassembler_new [] 7 [1; 2]
    (λ _, true)) as [[s' ra'] r] eqn:E.
  assert (∃ n, r = Agreed n) as [n ->].
  { vm_compute in E. injection E as <- <- <-. eexists. reflexivity. }
  exists n. split; [reflexivity|].
  destruct (negotiate_agreed _ _ _ _ _ _ _ _ _ E) as
    (h & rest & l1 & l2 & _ & _ & [Hv _] & _ & _ & Hc & _).
  exact (conj Hv Hc).
Defined.
