(* ===== verification/Model.v ===== *)
(** * The client's window model

    [crates/oxclient/src/model.rs]: [WindowModel::apply] turns the agent's
    events into an ordered list of instructions for a display backend.  The
    contract its documentation states - a backend that executes the
    instructions in order stays consistent with the guest - is the refinement
    of this file: [backend] is such a backend and [backend_follows_model] says
    that it always holds exactly the model's windows, in the model's order. *)

From S2P Require Import Prelude Cursor Wire MsgType MsgControl MsgInput MsgWindow.

(** ** Data *)

Record RemoteWindow : Type := mkRemoteWindow {
  rw_window_id : Z;
  rw_video_channel : Z;
  rw_app_id : list Z;
  rw_title : list Z;
  rw_x : Z;
  rw_y : Z;
  rw_width : Z;
  rw_height : Z;
  rw_dpi : Z;
  rw_owner_id : Z;
  rw_minimized : bool;
  rw_maximized : bool;
  rw_resizable : bool;
  rw_has_frame : bool;
  rw_topmost : bool;
  rw_icon : option WindowIcon
}.

(** [flags & bit != 0] *)
Definition has_flag (flags bit : Z) : bool := negb (Z.land flags bit =? 0).

Definition from_opened (m : WindowOpened) : RemoteWindow :=
  mkRemoteWindow (wo_window_id m) (wo_video_channel m) (wo_app_id m) (wo_title m)
    (wo_x m) (wo_y m) (wo_width m) (wo_height m) (wo_dpi m) (wo_owner_id m)
    (has_flag (wo_flags m) window_flag.MINIMIZED)
    (has_flag (wo_flags m) window_flag.MAXIMIZED)
    (has_flag (wo_flags m) window_flag.RESIZABLE)
    (has_flag (wo_flags m) window_flag.HAS_FRAME)
    (has_flag (wo_flags m) window_flag.TOPMOST) None.

(** Assignments to the fields of a borrowed window. *)
Definition set_geometry (w : RemoteWindow) (x y width height : Z) : RemoteWindow :=
  mkRemoteWindow (rw_window_id w) (rw_video_channel w) (rw_app_id w) (rw_title w) x y width height
    (rw_dpi w) (rw_owner_id w) (rw_minimized w) (rw_maximized w) (rw_resizable w) (rw_has_frame w)
    (rw_topmost w) (rw_icon w).

Definition set_title (w : RemoteWindow) (title : list Z) : RemoteWindow :=
  mkRemoteWindow (rw_window_id w) (rw_video_channel w) (rw_app_id w) title (rw_x w) (rw_y w)
    (rw_width w) (rw_height w) (rw_dpi w) (rw_owner_id w) (rw_minimized w) (rw_maximized w)
    (rw_resizable w) (rw_has_frame w) (rw_topmost w) (rw_icon w).

Definition set_show (w : RemoteWindow) (minimized maximized : bool) : RemoteWindow :=
  mkRemoteWindow (rw_window_id w) (rw_video_channel w) (rw_app_id w) (rw_title w) (rw_x w) (rw_y w)
    (rw_width w) (rw_height w) (rw_dpi w) (rw_owner_id w) minimized maximized
    (rw_resizable w) (rw_has_frame w) (rw_topmost w) (rw_icon w).

Definition set_icon (w : RemoteWindow) (icon : option WindowIcon) : RemoteWindow :=
  mkRemoteWindow (rw_window_id w) (rw_video_channel w) (rw_app_id w) (rw_title w) (rw_x w) (rw_y w)
    (rw_width w) (rw_height w) (rw_dpi w) (rw_owner_id w) (rw_minimized w) (rw_maximized w)
    (rw_resizable w) (rw_has_frame w) (rw_topmost w) icon.

Module ModelChange.
Inductive t : Type :=
| Created (id : Z)
| Destroyed (id : Z)
| Moved (id : Z)
| Retitled (id : Z)
| StateChanged (id : Z)
| IconChanged (id : Z)
| Restacked
| Frame (f : FrameData)
| CursorShape (c : CursorShape)
| CursorMoved (window_id x y : Z)
| CursorVisibility (visible : bool)
| AgentError (code : Z) (message : list Z)
| Closed.
End ModelChange.

(** [ClientEvent] of [session.rs]. *)
Module ClientEvent.
Inductive t : Type :=
| WindowOpened (m : MsgWindow.WindowOpened)
| WindowGeometry (m : MsgWindow.WindowGeometry)
| WindowTitle (m : MsgWindow.WindowTitle)
| WindowState (m : MsgWindow.WindowState)
| WindowZOrder (m : MsgWindow.WindowZOrder)
| WindowIcon (m : MsgWindow.WindowIcon)
| WindowClosed (m : MsgWindow.WindowClosed)
| Frame (m : MsgWindow.FrameData)
| CursorShape (m : MsgInput.CursorShape)
| CursorPosition (m : MsgInput.CursorPosition)
| CursorVisibility (m : MsgInput.CursorVisibility)
| Error (m : MsgControl.Error)
| Closed (m : MsgControl.Close).
End ClientEvent.

Record WindowModel : Type := mkModel {
  windows : gmap Z RemoteWindow;
  stack : list Z;
  cursor_visible : bool
}.

Definition WindowModel_new : WindowModel := mkModel ∅ [] true.

(** ** Operations *)

Definition model_get (s : WindowModel) (id : Z) : option RemoteWindow := windows s !! id.

Definition on_opened (s : WindowModel) (m : WindowOpened) : WindowModel * list ModelChange.t :=
  let id := wo_window_id m in
  match windows s !! id with
  | Some _ => (s, [])
  | None =>
    (mkModel (<[id := from_opened m]> (windows s)) (stack s ++ [id]) (cursor_visible s),
     [ModelChange.Created id])
  end.

Definition on_closed (s : WindowModel) (id : Z) : WindowModel * list ModelChange.t :=
  match windows s !! id with
  | None => (s, [])
  | Some _ =>
    (mkModel (delete id (windows s)) (List.filter (λ x, negb (x =? id)) (stack s)) (cursor_visible s),
     [ModelChange.Destroyed id])
  end.

(** [self.windows.get_mut(&id)] with the new contents of the window. *)
Definition put_window (s : WindowModel) (id : Z) (w : RemoteWindow) : WindowModel :=
  mkModel (<[id := w]> (windows s)) (stack s) (cursor_visible s).

Definition on_geometry (s : WindowModel) (m : WindowGeometry) : WindowModel * list ModelChange.t :=
  match windows s !! wg_window_id m with
  | None => (s, [])
  | Some w =>
    if (rw_x w =? wg_x m) && (rw_y w =? wg_y m) &&
       (rw_width w =? wg_width m) && (rw_height w =? wg_height m)
    then (s, [])
    else
      (put_window s (wg_window_id m)
         (set_geometry w (wg_x m) (wg_y m) (wg_width m) (wg_height m)),
       [ModelChange.Moved (wg_window_id m)])
  end.

Definition on_title (s : WindowModel) (m : WindowTitle) : WindowModel * list ModelChange.t :=
  match windows s !! wt_window_id m with
  | None => (s, [])
  | Some w =>
    if bool_decide (rw_title w = wt_title m) then (s, [])
    else (put_window s (wt_window_id m) (set_title w (wt_title m)),
          [ModelChange.Retitled (wt_window_id m)])
  end.

Definition on_state (s : WindowModel) (m : WindowState) : WindowModel * list ModelChange.t :=
  match windows s !! ws_window_id m with
  | None => (s, [])
  | Some w =>
    let minimized := ws_state m =? window_show.MINIMIZED in
    let maximized := ws_state m =? window_show.MAXIMIZED in
    if eqb (rw_minimized w) minimized && eqb (rw_maximized w) maximized then (s, [])
    else (put_window s (ws_window_id m) (set_show w minimized maximized),
          [ModelChange.StateChanged (ws_window_id m)])
  end.

Definition on_icon (s : WindowModel) (m : WindowIcon) : WindowModel * list ModelChange.t :=
  match windows s !! wi_window_id m with
  | None => (s, [])
  | Some w => (put_window s (wi_window_id m) (set_icon w (Some m)),
               [ModelChange.IconChanged (wi_window_id m)])
  end.

(** [stack.iter().position(|&s| s == id)] *)
Fixpoint position (id : Z) (l : list Z) : option nat :=
  match l with
  | [] => None
  | x :: l => if x =? id then Some O else S <$> position id l
  end.

(** [Vec::remove] and [Vec::insert]; the first is only used at a position found
    in the stack and the second at most at its end, so neither can panic. *)
Definition vec_remove (i : nat) (l : list Z) : list Z := take i l ++ drop (S i) l.
Definition vec_insert (i : nat) (x : Z) (l : list Z) : list Z := take i l ++ x :: drop i l.

Definition on_zorder (s : WindowModel) (window_id above_window_id : Z)
    : WindowModel * list ModelChange.t :=
  match windows s !! window_id with
  | None => (s, [])
  | Some _ =>
    match position window_id (stack s) with
    | None => (s, [])
    | Some current =>
      let target :=
        if above_window_id =? 0 then Some O
        else match position above_window_id (stack s) with
             | Some i => if (current <? i)%nat then Some i else Some (S i)
             | None => None
             end in
      match target with
      | None => (s, [])
      | Some target =>
        if (target =? current)%nat then (s, [])
        else
          let rest := vec_remove current (stack s) in
          (mkModel (windows s) (vec_insert (Nat.min target (length rest)) window_id rest)
             (cursor_visible s),
           [ModelChange.Restacked])
      end
    end
  end.

Definition apply (s : WindowModel) (event : ClientEvent.t) : WindowModel * list ModelChange.t :=
  match event with
  | ClientEvent.WindowOpened m => on_opened s m
  | ClientEvent.WindowClosed m => on_closed s (wcl_window_id m)
  | ClientEvent.WindowGeometry m => on_geometry s m
  | ClientEvent.WindowTitle m => on_title s m
  | ClientEvent.WindowState m => on_state s m
  | ClientEvent.WindowZOrder m => on_zorder s (wz_window_id m) (wz_above_window_id m)
  | ClientEvent.WindowIcon m => on_icon s m
  | ClientEvent.Frame f => (s, [ModelChange.Frame f])
  | ClientEvent.CursorShape c => (s, [ModelChange.CursorShape c])
  | ClientEvent.CursorPosition p => (s, [ModelChange.CursorMoved (cp_window_id p) (cp_x p) (cp_y p)])
  | ClientEvent.CursorVisibility v =>
    (mkModel (windows s) (stack s) (cv_visible v), [ModelChange.CursorVisibility (cv_visible v)])
  | ClientEvent.Error e => (s, [ModelChange.AgentError (err_code e) (err_message e)])
  | ClientEvent.Closed _ => (s, [ModelChange.Closed])
  end.

Definition apply_all (s : WindowModel) (events : list ClientEvent.t) : WindowModel :=
  fold_left (λ s e, (apply s e).1) events s.

(** ** Specification: a backend that only executes instructions *)

(** Its native windows, bottom to top, each with what it last read of the
    model, and whether it draws the cursor. *)
Record Backend : Type := mkBackend {
  native : list (Z * RemoteWindow);
  drawn_cursor : bool
}.

Definition update_native (id : Z) (f : RemoteWindow → RemoteWindow) (b : Backend) : Backend :=
  mkBackend (map (λ p, if p.1 =? id then (p.1, f p.2) else p) (native b)) (drawn_cursor b).

(** One instruction.  A backend may look into the model, which is how it learns
    the new title or position; it changes only what the instruction names. *)
Definition execute (s : WindowModel) (b : Backend) (c : ModelChange.t) : Backend :=
  match c with
  | ModelChange.Created id =>
    match windows s !! id with
    | Some w => mkBackend (native b ++ [(id, w)]) (drawn_cursor b)
    | None => b
    end
  | ModelChange.Destroyed id =>
    mkBackend (List.filter (λ p, negb (p.1 =? id)) (native b)) (drawn_cursor b)
  | ModelChange.Moved id =>
    match windows s !! id with
    | Some w => update_native id (λ v, set_geometry v (rw_x w) (rw_y w) (rw_width w) (rw_height w)) b
    | None => b
    end
  | ModelChange.Retitled id =>
    match windows s !! id with
    | Some w => update_native id (λ v, set_title v (rw_title w)) b
    | None => b
    end
  | ModelChange.StateChanged id =>
    match windows s !! id with
    | Some w => update_native id (λ v, set_show v (rw_minimized w) (rw_maximized w)) b
    | None => b
    end
  | ModelChange.IconChanged id =>
    match windows s !! id with
    | Some w => update_native id (λ v, set_icon v (rw_icon w)) b
    | None => b
    end
  | ModelChange.Restacked =>
    mkBackend (omap (λ id, pair id <$> (list_to_map (M:=gmap Z RemoteWindow) (native b) !! id)) (stack s))
      (drawn_cursor b)
  | ModelChange.CursorVisibility v => mkBackend (native b) v
  | _ => b
  end.

Definition execute_all (s : WindowModel) (b : Backend) (cs : list ModelChange.t) : Backend :=
  fold_left (execute s) cs b.

(** The backend and the model side by side, over a sequence of events. *)
Definition run_step (sb : WindowModel * Backend) (e : ClientEvent.t) : WindowModel * Backend :=
  let '(s, b) := sb in let '(s', cs) := apply s e in (s', execute_all s' b cs).

Definition run (events : list ClientEvent.t) : WindowModel * Backend :=
  fold_left run_step events (WindowModel_new, mkBackend [] true).

(** ** Invariant *)

Record model_inv (s : WindowModel) : Prop := {
  mi_nodup : NoDup (stack s);
  mi_stack : ∀ id, id ∈ stack s ↔ is_Some (windows s !! id);
  mi_ids : map_Forall (λ id w, rw_window_id w = id) (windows s)
}.

(** The backend shows what the model says. *)
Definition shows (s : WindowModel) (b : Backend) : Prop :=
  (native b).*1 = stack s ∧
  (∀ id w, (id, w) ∈ native b → windows s !! id = Some w) ∧
  drawn_cursor b = cursor_visible s.

(** ** Positions in the stack *)

Lemma position_Some id l i :
  position id l = Some i → ∃ l1 l2, l = l1 ++ id :: l2 ∧ length l1 = i ∧ id ∉ l1.
Proof.
  revert i. induction l as [|x l IH]; intros i; cbn; [done|].
  destruct (Z.eqb_spec x id) as [->|Hne].
  - intros [= <-]. exists [], l. split_and!; [done..|]. apply not_elem_of_nil.
  - destruct (position id l) as [j|] eqn:E; [|done]. intros [= <-].
    destruct (IH j eq_refl) as (l1 & l2 & -> & <- & Hn). exists (x :: l1), l2.
    split_and!; [done..|]. apply not_elem_of_cons. auto.
Qed.

Lemma position_None id l : position id l = None → id ∉ l.
Proof.
  induction l as [|x l IH]; cbn; [intros _; apply not_elem_of_nil|].
  destruct (Z.eqb_spec x id); [done|]. destruct (position id l); [done|].
  intros _. apply not_elem_of_cons. auto.
Qed.

Lemma position_app id l1 l2 : id ∉ l1 → position id (l1 ++ id :: l2) = Some (length l1).
Proof.
  induction l1 as [|x l1 IH]; cbn; intros Hn.
  - by rewrite Z.eqb_refl.
  - apply not_elem_of_cons in Hn as [? ?]. rewrite (proj2 (Z.eqb_neq x id)) by congruence.
    by rewrite IH.
Qed.

Lemma vec_remove_app l1 x l2 : vec_remove (length l1) (l1 ++ x :: l2) = l1 ++ l2.
Proof.
  unfold vec_remove. rewrite take_app_length. f_equal.
  change (x :: l2) with ([x] ++ l2). rewrite app_assoc.
  replace (S (length l1)) with (length (l1 ++ [x])) by (rewrite length_app; cbn; lia).
  apply drop_app_length.
Qed.

Lemma vec_insert_app l1 x l2 : vec_insert (length l1) x (l1 ++ l2) = l1 ++ x :: l2.
Proof. unfold vec_insert. by rewrite take_app_length, drop_app_length. Qed.

Lemma vec_insert_perm i x l : vec_insert i x l ≡ₚ x :: l.
Proof. unfold vec_insert. rewrite <- Permutation_middle. by rewrite take_drop. Qed.

Lemma filter_neq_id id l : id ∉ l → List.filter (λ x, negb (x =? id)) l = l.
Proof.
  induction l as [|x l IH]; cbn; [done|]. rewrite not_elem_of_cons. intros [? ?].
  rewrite (proj2 (Z.eqb_neq x id)) by congruence. cbn. by rewrite IH.
Qed.

Lemma elem_of_filter_neq id x l :
  x ∈ List.filter (λ x, negb (x =? id)) l ↔ x ∈ l ∧ x ≠ id.
Proof.
  rewrite !list_elem_of_In, filter_In, negb_true_iff, Z.eqb_neq. done.
Qed.

Lemma NoDup_filter_neq id l : NoDup l → NoDup (List.filter (λ x, negb (x =? id)) l).
Proof. rewrite !NoDup_ListNoDup. apply List.NoDup_filter. Qed.

(** ** The operations preserve the invariant *)

Lemma on_zorder_stack s id above :
  windows (on_zorder s id above).1 = windows s ∧ stack (on_zorder s id above).1 ≡ₚ stack s ∧
  cursor_visible (on_zorder s id above).1 = cursor_visible s.
Proof.
  unfold on_zorder. destruct (windows s !! id) as [w|]; [|done].
  destruct (position id (stack s)) as [cur|] eqn:Ep; [|done].
  destruct (if above =? 0 then _ else _) as [t|]; [|done].
  destruct (t =? cur)%nat; [done|]. cbn. split_and!; [done| |done].
  apply position_Some in Ep as (l1 & l2 & El & <- & _). rewrite vec_insert_perm, El, vec_remove_app.
  by rewrite Permutation_middle.
Qed.

Lemma model_inv_new : model_inv WindowModel_new.
Proof.
  split; cbn; [constructor| |apply map_Forall_empty]. intros id.
  rewrite lookup_empty. split; [by intros ?%not_elem_of_nil|by intros [? ?]].
Qed.

Lemma put_window_inv s id w w' :
  model_inv s → windows s !! id = Some w → rw_window_id w' = rw_window_id w →
  model_inv (put_window s id w').
Proof.
  intros [Hn Hs Hi] Hw Hid. split; cbn; [done| |].
  - intros j. rewrite Hs. destruct (decide (j = id)) as [->|];
      [rewrite lookup_insert_eq, Hw; naive_solver|by rewrite lookup_insert_ne].
  - apply map_Forall_insert_2; [|done]. rewrite Hid. by apply Hi.
Qed.

Lemma on_opened_inv s m : model_inv s → model_inv (on_opened s m).1.
Proof.
  intros [Hn Hs Hi]. unfold on_opened.
  destruct (windows s !! wo_window_id m) eqn:Ew; [done|]. split; cbn.
  - apply NoDup_app; split_and!; [done| |apply NoDup_singleton].
    intros x Hx ->%list_elem_of_singleton. apply Hs in Hx. rewrite Ew in Hx. by destruct Hx.
  - intros j. rewrite elem_of_app, list_elem_of_singleton, Hs.
    destruct (decide (j = wo_window_id m)) as [->|];
      [rewrite lookup_insert_eq; naive_solver|rewrite lookup_insert_ne by done; naive_solver].
  - by apply map_Forall_insert_2.
Qed.

Lemma on_closed_inv s id : model_inv s → model_inv (on_closed s id).1.
Proof.
  intros [Hn Hs Hi]. unfold on_closed. destruct (windows s !! id) eqn:Ew; [|done]. split; cbn.
  - by apply NoDup_filter_neq.
  - intros j. rewrite elem_of_filter_neq, Hs. destruct (decide (j = id)) as [->|];
      [rewrite lookup_delete_eq; split; [naive_solver|by intros [? ?]]|
       rewrite lookup_delete_ne by done; naive_solver].
  - by apply map_Forall_delete.
Qed.

Lemma apply_inv s e : model_inv s → model_inv (apply s e).1.
Proof.
  intros Hinv. destruct e as [m|m|m|m|m|m|m|m|m|m|m|m|m]; cbn [apply]; try done.
  - by apply on_opened_inv.
  - unfold on_geometry. destruct (windows s !! _) eqn:E; [|done]. case_match; [done|].
    by eapply put_window_inv.
  - unfold on_title. destruct (windows s !! _) eqn:E; [|done]. case_match; [done|].
    by eapply put_window_inv.
  - unfold on_state. destruct (windows s !! _) eqn:E; [|done]. case_match; [done|].
    by eapply put_window_inv.
  - destruct (on_zorder_stack s (wz_window_id m) (wz_above_window_id m)) as (Ew & Es & _).
    destruct Hinv as [Hn Hs Hi]. split; [by rewrite Es| |by rewrite Ew].
    intros id. by rewrite Es, Ew.
  - unfold on_icon. destruct (windows s !! _) eqn:E; [|done]. by eapply put_window_inv.
  - by apply on_closed_inv.
  - destruct Hinv. by split.
Qed.

(** ** The backend follows *)

(** Updating one window on both sides. *)
Lemma shows_update s b id w f :
  model_inv s → shows s b → windows s !! id = Some w →
  shows (put_window s id (f w)) (update_native id f b).
Proof.
  intros Hinv (H1 & H2 & H3) Hw. unfold shows, update_native; cbn. split_and!; [|  |done].
  - rewrite <- H1, <- list_fmap_compose. apply list_fmap_ext. intros i [j v] _. cbn. by case_match.
  - intros j v Hin. apply list_elem_of_In, in_map_iff in Hin as ([k u] & He & Hin).
    apply list_elem_of_In, H2 in Hin. cbn in He. destruct (Z.eqb_spec k id) as [->|Hne]; simplify_eq/=.
    + by rewrite lookup_insert_eq.
    + by rewrite lookup_insert_ne.
Qed.

Lemma shows_lookup s b id :
  model_inv s → shows s b →
  list_to_map (M:=gmap Z RemoteWindow) (native b) !! id = windows s !! id.
Proof.
  intros Hinv (H1 & H2 & _). apply option_eq. intros w.
  assert (NoDup (native b).*1) as Hnd by (rewrite H1; apply mi_nodup, Hinv).
  rewrite <- elem_of_list_to_map by done. split; [by apply H2|]. intros Hw.
  assert (id ∈ (native b).*1) as Hin by (rewrite H1; apply mi_stack; eauto).
  apply list_elem_of_fmap in Hin as ([j v] & -> & Hin). cbn in Hw.
  by rewrite (H2 j v Hin) in Hw; simplify_eq.
Qed.

Lemma shows_restack s b st :
  model_inv s → shows s b → st ≡ₚ stack s →
  let s' := mkModel (windows s) st (cursor_visible s) in
  shows s' (execute s' b ModelChange.Restacked).
Proof.
  intros Hinv Hsh Hp s'. unfold execute.
  assert (∀ id, id ∈ st → ∃ w, windows s !! id = Some w) as Hin.
  { intros id Hid. apply (mi_stack s Hinv). by rewrite <- Hp. }
  unfold shows; cbn. split_and!; [| |apply Hsh].
  - clear Hp. induction st as [|id st IH]; [done|]. cbn. rewrite (shows_lookup s b) by done.
    destruct (Hin id) as [w ->]; [apply elem_of_cons; auto|]. cbn. f_equal.
    apply IH. intros j Hj. apply Hin, elem_of_cons. auto.
  - intros id w Hm. apply list_elem_of_omap in Hm as (j & _ & Hj).
    rewrite (shows_lookup s b) in Hj by done. destruct (windows s !! j) eqn:E; [|done].
    cbn in Hj. by simplify_eq.
Qed.

Lemma shows_opened s b m :
  shows s b → model_inv s →
  let '(s', cs) := on_opened s m in shows s' (execute_all s' b cs).
Proof.
  intros (H1 & H2 & H3) Hinv. unfold on_opened.
  destruct (windows s !! wo_window_id m) eqn:E; [done|]. cbn. rewrite lookup_insert_eq.
  unfold shows; cbn. split_and!; [by rewrite fmap_app, H1| |done].
  intros id w Hin. apply elem_of_app in Hin as [Hin|Hin%list_elem_of_singleton].
  - apply H2 in Hin. rewrite lookup_insert_ne; [done|]. congruence.
  - simplify_eq. by rewrite lookup_insert_eq.
Qed.

Lemma shows_closed s b id :
  shows s b → let '(s', cs) := on_closed s id in shows s' (execute_all s' b cs).
Proof.
  intros (H1 & H2 & H3). unfold on_closed.
  destruct (windows s !! id) eqn:E; [|done]. unfold shows; cbn. split_and!; [| |done].
  - rewrite <- H1. generalize (native b). intros l. induction l as [|[j v] l IH]; cbn; [done|].
    case_match; cbn; by rewrite IH.
  - intros j v Hin. apply list_elem_of_In, filter_In in Hin as [Hin Hne].
    cbn in Hne. bool_to_prop. rewrite lookup_delete_ne by done. apply H2. by apply list_elem_of_In.
Qed.

Lemma step_shows s b e :
  model_inv s → shows s b →
  let '(s', b') := run_step (s, b) e in shows s' b'.
Proof.
  intros Hinv Hsh. unfold run_step.
  destruct e as [m|m|m|m|m|m|m|m|m|m|m|m|m]; cbn [apply]; try exact Hsh.
  - pose proof (shows_opened s b m Hsh Hinv). by destruct (on_opened s m).
  - unfold on_geometry. destruct (windows s !! _) as [w|] eqn:E; [|done]. case_if; [done|].
    cbn. rewrite lookup_insert_eq. cbn.
    by apply (shows_update s b (wg_window_id m) w
      (λ v, set_geometry v (wg_x m) (wg_y m) (wg_width m) (wg_height m))).
  - unfold on_title. destruct (windows s !! _) as [w|] eqn:E; [|done]. case_if; [done|].
    cbn. rewrite lookup_insert_eq. cbn.
    by apply (shows_update s b (wt_window_id m) w (λ v, set_title v (wt_title m))).
  - unfold on_state. destruct (windows s !! _) as [w|] eqn:E; [|done]. case_if; [done|].
    cbn. rewrite lookup_insert_eq. cbn [rw_minimized rw_maximized set_show].
    by apply (shows_update s b (ws_window_id m) w (λ v, set_show v
      (ws_state m =? window_show.MINIMIZED) (ws_state m =? window_show.MAXIMIZED))).
  - pose proof (on_zorder_stack s (wz_window_id m) (wz_above_window_id m)) as Hz.
    unfold on_zorder in *. repeat case_match; try exact Hsh; cbn in Hz |- *;
      apply (shows_restack s b); try done; apply Hz.
  - unfold on_icon. destruct (windows s !! _) as [w|] eqn:E; [|done].
    cbn. rewrite lookup_insert_eq. cbn.
    by apply (shows_update s b (wi_window_id m) w (λ v, set_icon v (Some m))).
  - pose proof (shows_closed s b (wcl_window_id m) Hsh). by destruct (on_closed s (wcl_window_id m)).
  - destruct Hsh as (? & ? & _). by split_and!.
Qed.
(** ** Restacking *)

Lemma on_zorder_down s id above w a1 a2 b :
  NoDup (stack s) → above ≠ 0 → windows s !! id = Some w →
  stack s = a1 ++ above :: a2 ++ id :: b →
  stack (on_zorder s id above).1 = a1 ++ above :: id :: a2 ++ b.
Proof.
  intros Hnd Ha0 Hw El. unfold on_zorder. rewrite Hw, El in *.
  rewrite (proj2 (Z.eqb_neq above 0)) by done.
  apply NoDup_app in Hnd as (_ & Ha1 & Hnd). apply NoDup_cons in Hnd as [Hab Hnd].
  assert (id ∉ a1 ++ above :: a2) as Hid.
  { apply NoDup_app in Hnd as (_ & Ha2 & _).
    rewrite not_elem_of_app, not_elem_of_cons. split_and!.
    - intros Hx. apply (Ha1 id Hx). rewrite elem_of_cons, elem_of_app, elem_of_cons. auto.
    - intros ->. apply Hab. rewrite elem_of_app, elem_of_cons. auto.
    - intros Hx. apply (Ha2 id Hx). rewrite elem_of_cons. auto. }
  replace (position id (a1 ++ above :: a2 ++ id :: b)) with (Some (length (a1 ++ above :: a2))).
  2: { rewrite app_comm_cons, app_assoc. by rewrite position_app. }
  rewrite position_app by (intros Hx; apply (Ha1 above Hx), elem_of_cons; auto).
  rewrite length_app. cbn [length].
  replace (_ <? _)%nat with false by (symmetry; apply Nat.ltb_ge; lia).
  destruct (Nat.eqb_spec (S (length a1)) (length a1 + S (length a2))) as [He|He].
  - destruct a2; [done|cbn in He; lia].
  - cbn [fst stack].
    replace (length a1 + S (length a2))%nat with (length (a1 ++ above :: a2)) by (by rewrite length_app).
    rewrite app_comm_cons, app_assoc, vec_remove_app. rewrite Nat.min_l by (rewrite !length_app; cbn; lia).
    replace (S (length a1)) with (length (a1 ++ [above])) by (rewrite length_app; cbn; lia).
    replace ((a1 ++ above :: a2) ++ b) with ((a1 ++ [above]) ++ (a2 ++ b)) by (by rewrite <- !app_assoc).
    rewrite vec_insert_app. by rewrite <- app_assoc.
Qed.

Lemma on_zorder_up s id above w a b1 b2 :
  NoDup (stack s) → above ≠ 0 → windows s !! id = Some w →
  stack s = a ++ id :: b1 ++ above :: b2 →
  stack (on_zorder s id above).1 = a ++ b1 ++ above :: id :: b2.
Proof.
  intros Hnd Ha0 Hw El. unfold on_zorder. rewrite Hw, El in *.
  rewrite (proj2 (Z.eqb_neq above 0)) by done.
  apply NoDup_app in Hnd as (_ & Ha & Hnd). apply NoDup_cons in Hnd as [Hid Hnd].
  rewrite position_app by (intros Hx; apply (Ha id Hx), elem_of_cons; auto).
  assert (above ∉ a ++ id :: b1) as Hab.
  { apply NoDup_app in Hnd as (_ & Hb1 & _).
    rewrite not_elem_of_app, not_elem_of_cons. split_and!.
    - intros Hx. apply (Ha above Hx). rewrite elem_of_cons, elem_of_app, elem_of_cons. auto.
    - intros <-. apply Hid. rewrite elem_of_app, elem_of_cons. auto.
    - intros Hx. apply (Hb1 above Hx). rewrite elem_of_cons. auto. }
  replace (position above (a ++ id :: b1 ++ above :: b2)) with (Some (length (a ++ id :: b1))).
  2: { rewrite app_comm_cons, app_assoc. by rewrite position_app. }
  rewrite length_app. cbn [length].
  replace (length a <? _)%nat with true by (symmetry; apply Nat.ltb_lt; lia).
  replace (_ =? length a)%nat with false by (symmetry; apply Nat.eqb_neq; lia).
  cbn [fst stack]. rewrite vec_remove_app. rewrite Nat.min_l by (rewrite !length_app; cbn; lia).
  replace (a ++ b1 ++ above :: b2) with ((a ++ b1 ++ [above]) ++ b2) by (by rewrite <- !app_assoc).
  replace (length a + S (length b1))%nat with (length (a ++ b1 ++ [above]))
    by (rewrite !length_app; cbn; lia).
  rewrite vec_insert_app. by rewrite <- !app_assoc.
Qed.

Lemma filter_one id l1 l2 :
  NoDup (l1 ++ id :: l2) → List.filter (λ x, negb (x =? id)) (l1 ++ id :: l2) = l1 ++ l2.
Proof.
  intros Hnd. apply NoDup_app in Hnd as (_ & H1 & H2). apply NoDup_cons in H2 as [H2 _].
  rewrite List.filter_app. cbn. rewrite Z.eqb_refl. cbn. rewrite !filter_neq_id; [done|done|].
  intros Hx. apply (H1 id Hx), elem_of_cons. auto.
Qed.

(** ** Properties *)

(** The model is always consistent: from the empty model, whatever events
    arrive in whatever order, the stacking order lists every mapped window
    exactly once and nothing else, and every window is filed under its own id. *)
Theorem model_consistent events : model_inv (apply_all WindowModel_new events).
Proof.
  unfold apply_all. generalize model_inv_new. generalize WindowModel_new.
  induction events as [|e events IH]; intros s Hs; cbn; [done|]. by apply IH, apply_inv.
Qed.

(** A backend that only executes the instructions of [apply], in order,
    shows at every moment exactly the model's windows: the same windows, in the
    same stacking order, with the same title, geometry, show state and icon, and
    the same cursor visibility. *)
Theorem backend_follows_model events :
  let '(s, b) := run events in
  (native b).*1 = stack s ∧
  list_to_map (M:=gmap Z RemoteWindow) (native b) = windows s ∧
  drawn_cursor b = cursor_visible s.
Proof.
  assert (∀ s b, model_inv s → shows s b →
    let '(s', b') := fold_left run_step events (s, b) in model_inv s' ∧ shows s' b') as H.
  { induction events as [|e events IH]; intros s b Hs Hb; cbn [fold_left]; [done|].
    pose proof (step_shows s b e Hs Hb) as Hstep. pose proof (apply_inv s e Hs) as Hinv.
    unfold run_step in *. destruct (apply s e) as [s' cs]. by apply IH. }
  specialize (H WindowModel_new (mkBackend [] true) model_inv_new).
  unfold run. destruct (fold_left _ _ _) as [s b]. destruct H as [Hs Hb].
  { split_and!; [done| |done]. by intros ? ? ?%not_elem_of_nil. }
  split_and!; [apply Hb| |apply Hb]. apply map_eq. intros id. by apply shows_lookup.
Qed.

(** [WindowZOrder] with a known reference window puts the window directly
    above it, wherever both were, and keeps the order of all the others;
    reference 0 puts it at the bottom. *)
Theorem zorder_places_above s id above :
  model_inv s → is_Some (windows s !! id) →
  (above = 0 → stack (on_zorder s id above).1 =
               id :: List.filter (λ x, negb (x =? id)) (stack s)) ∧
  (above ≠ 0 → above ≠ id → is_Some (windows s !! above) →
   ∃ l1 l2, List.filter (λ x, negb (x =? id)) (stack s) = l1 ++ above :: l2 ∧
            stack (on_zorder s id above).1 = l1 ++ above :: id :: l2).
Proof.
  intros [Hnd Hs _] [w Hw]. assert (id ∈ stack s) as Hin by (apply Hs; eauto).
  destruct (position id (stack s)) as [c|] eqn:Ec; [|by apply position_None in Ec].
  pose proof Ec as (a & b & El & <- & Hna)%position_Some. split.
  - intros ->. unfold on_zorder. rewrite Hw, Ec. cbn [Z.eqb].
    rewrite El at 3. rewrite El in Hnd. rewrite filter_one by done.
    destruct a as [|x a]; cbn [length Nat.eqb fst stack]; [done|].
    rewrite El. change (S (length a)) with (length (x :: a)). by rewrite vec_remove_app.
  - intros H0 Hne [v Hv]. assert (above ∈ stack s) as Hina by (apply Hs; eauto).
    rewrite El in Hina. apply elem_of_app in Hina as [Ha|Hb].
    + apply list_elem_of_split in Ha as (a1 & a2 & ->). rewrite <- app_assoc in El. cbn in El.
      exists a1, (a2 ++ b). split; [|by eapply on_zorder_down].
      rewrite El in Hnd |- *. rewrite app_comm_cons, app_assoc in Hnd |- *.
      rewrite filter_one by done. by rewrite <- app_assoc.
    + apply elem_of_cons in Hb as [?|Hb]; [done|].
      apply list_elem_of_split in Hb as (b1 & b2 & ->).
      exists (a ++ b1), b2. rewrite <- !app_assoc. split; [|by eapply on_zorder_up].
      rewrite El in Hnd |- *. by apply filter_one.
Qed.

Definition example_window (id : Z) : WindowOpened :=
  mkWindowOpened id 16 1 (bytes_of_string "app") (bytes_of_string "w") 0 0 640 480 96
    window_flag.RESIZABLE 0.

Definition example_model : WindowModel :=
  apply_all WindowModel_new (map (λ id, ClientEvent.WindowOpened (example_window id)) [1; 2; 3]).

Lemma example_model_inv : model_inv example_model.
Proof. repeat (apply on_opened_inv); apply model_inv_new. Qed.

Lemma zorder_places_above_witness :
  ∃ l1 l2, [2; 3] = l1 ++ 3 :: l2 ∧ stack (on_zorder example_model 1 3).1 = l1 ++ 3 :: 1 :: l2.
Proof.
  refine (proj2 (zorder_places_above example_model 1 3 example_model_inv _) _ _ _).
  - vm_compute. eexists. reflexivity.
  - discriminate.
  - discriminate.
  - vm_compute. eexists. reflexivity.
Defined.

(** A [WindowZOrder] naming the window itself as its reference is not a
    no-op: a window that is not on top moves up by one. *)
Theorem zorder_self_moves_up s id w a x b :
  model_inv s → id ≠ 0 → windows s !! id = Some w → stack s = a ++ id :: x :: b →
  stack (on_zorder s id id).1 = a ++ x :: id :: b.
Proof.
  intros [Hnd _ _] H0 Hw El. unfold on_zorder. rewrite Hw, El in *.
  rewrite (proj2 (Z.eqb_neq id 0)) by done.
  apply NoDup_app in Hnd as (_ & Ha & _).
  rewrite position_app by (intros Hx; apply (Ha id Hx), elem_of_cons; auto).
  rewrite Nat.ltb_irrefl. replace (_ =? length a)%nat with false by (symmetry; apply Nat.eqb_neq; lia).
  cbn [fst stack]. rewrite vec_remove_app. rewrite Nat.min_l by (rewrite length_app; cbn; lia).
  replace (S (length a)) with (length (a ++ [x])) by (rewrite length_app; cbn; lia).
  replace (a ++ x :: b) with ((a ++ [x]) ++ b) by (by rewrite <- app_assoc).
  rewrite vec_insert_app. by rewrite <- app_assoc.
Qed.

Lemma zorder_self_moves_up_witness : stack (on_zorder example_model 1 1).1 = [2; 1; 3].
Proof.
  apply (zorder_self_moves_up example_model 1 (from_opened (example_window 1)) [] 2 [3]).
  - exact example_model_inv.
  - discriminate.
  - vm_compute. reflexivity.
  - vm_compute. reflexivity.
Defined.

(** [WindowState] changes the show state only.  Whatever [flags] it
    carries, the resizable, frame and topmost bits of the window stay those of
    its [WindowOpened], and a message that repeats the show state with new flags
    yields no instruction at all. *)
Theorem window_state_flags_ignored s m w :
  windows s !! ws_window_id m = Some w →
  let '(s', cs) := on_state s m in
  (∃ w', windows s' !! ws_window_id m = Some w' ∧
         rw_resizable w' = rw_resizable w ∧ rw_has_frame w' = rw_has_frame w ∧
         rw_topmost w' = rw_topmost w) ∧
  (rw_minimized w = (ws_state m =? window_show.MINIMIZED) →
   rw_maximized w = (ws_state m =? window_show.MAXIMIZED) → s' = s ∧ cs = []).
Proof.
  intros Hw. unfold on_state. rewrite Hw. case_if.
  - split; [by exists w|done].
  - split; [cbn; rewrite lookup_insert_eq; by eexists|].
    intros E1 E2. rewrite E1, E2, !eqb_reflx in Heqb. done.
Qed.

Lemma window_state_flags_ignored_witness :
  on_state example_model (mkWindowState 1 window_show.NORMAL window_flag.TOPMOST) = (example_model, []).
Proof.
  pose proof (window_state_flags_ignored example_model
    (mkWindowState 1 window_show.NORMAL window_flag.TOPMOST) (from_opened (example_window 1))
    ltac:(vm_compute; reflexivity)) as H.
  destruct (on_state example_model _) as [s' cs]. destruct H as [_ H].
  destruct H as [-> ->]; [vm_compute; reflexivity..|reflexivity].
Defined.
