(* ===== verification/Geometry.v ===== *)
(** * Which local geometry changes are the user's

    [crates/oxclient/src/geometry.rs]: [GeometrySync] decides what a native
    window's reported position or size should tell the guest.  An [Instant] is
    a number of milliseconds.  The specification [drag_expected] is stated with
    the first position observed after settling as its only reference; the code
    instead keeps two anchors and adds up displacements. *)

From S2P Require Import Prelude Cursor Wire MsgType MsgControl MsgInput MsgWindow Model.

Definition SETTLE : Z := 750.

Record WindowSync : Type := mkSync {
  settling_until : Z;
  guest_anchor : Z * Z;
  local_anchor : option (Z * Z);
  local_size : option (Z * Z)
}.

Record GeometrySync : Type := mkGeometry { sync_windows : gmap Z WindowSync }.

Definition GeometrySync_new : GeometrySync := mkGeometry ∅.

Definition put_sync (g : GeometrySync) (id : Z) (s : WindowSync) : GeometrySync :=
  mkGeometry (<[id := s]> (sync_windows g)).

Definition geo_created (g : GeometrySync) (now id x y : Z) : GeometrySync :=
  put_sync g id (mkSync (now + SETTLE) (x, y) None None).

Definition guest_moved (g : GeometrySync) (now id x y : Z) : GeometrySync :=
  match sync_windows g !! id with
  | None => g
  | Some _ => put_sync g id (mkSync (now + SETTLE) (x, y) None None)
  end.

Definition geo_forget (g : GeometrySync) (id : Z) : GeometrySync :=
  mkGeometry (delete id (sync_windows g)).

(** [i32::saturating_sub] and [saturating_add]. *)
Definition sat_sub (a b : Z) : Z := sat_sint 32 (a - b).
Definition sat_add (a b : Z) : Z := sat_sint 32 (a + b).

Definition geo_moved (g : GeometrySync) (now id x y : Z) : GeometrySync * option (Z * Z) :=
  match sync_windows g !! id with
  | None => (g, None)
  | Some s =>
    if now <? settling_until s then (g, None)
    else
      let s' := mkSync (settling_until s) (guest_anchor s) (Some (x, y)) (local_size s) in
      match local_anchor s with
      | None => (put_sync g id s', None)
      | Some (previous_x, previous_y) =>
        let dx := sat_sub x previous_x in
        let dy := sat_sub y previous_y in
        if (dx =? 0) && (dy =? 0) then (put_sync g id s', None)
        else
          let target := (sat_add (guest_anchor s).1 dx, sat_add (guest_anchor s).2 dy) in
          (put_sync g id (mkSync (settling_until s) target (Some (x, y)) (local_size s)), Some target)
      end
  end.

Definition geo_resized (g : GeometrySync) (now : Z) (model : WindowModel) (id width height : Z)
    : GeometrySync * option (Z * Z) :=
  if negb (match model_get model id with Some w => rw_resizable w | None => false end) then (g, None)
  else if (width =? 0) || (height =? 0) then (g, None)
  else
    match sync_windows g !! id with
    | None => (g, None)
    | Some s =>
      if now <? settling_until s then (g, None)
      else
        let g' := put_sync g id
          (mkSync (settling_until s) (guest_anchor s) (local_anchor s) (Some (width, height))) in
        match local_size s with
        | None => (g', None)
        | Some previous =>
          if bool_decide (previous = (width, height)) then (g', None) else (g', Some (width, height))
        end
    end.

(** A sequence of position reports of one window: time and position. *)
Fixpoint run_moves (g : GeometrySync) (id : Z) (reports : list (Z * (Z * Z)))
    : GeometrySync * list (option (Z * Z)) :=
  match reports with
  | [] => (g, [])
  | (now, (x, y)) :: reports =>
    let '(g, o) := geo_moved g now id x y in
    let '(g, os) := run_moves g id reports in
    (g, o :: os)
  end.

(** ** Specification *)

(** What a window created at [(gx, gy)] should tell the guest: nothing until
    [deadline]; the first position after it is the reference; every later one is
    sent as the guest's original position translated by how far the window is
    from the reference - unless it has not moved since the last report. *)
Fixpoint drag_expected (deadline gx gy : Z) (ref last : option (Z * Z))
    (reports : list (Z * (Z * Z))) : list (option (Z * Z)) :=
  match reports with
  | [] => []
  | (now, (x, y)) :: reports =>
    if now <? deadline then None :: drag_expected deadline gx gy ref last reports
    else
      match ref with
      | None => None :: drag_expected deadline gx gy (Some (x, y)) (Some (x, y)) reports
      | Some (x0, y0) =>
        (if bool_decide (last = Some (x, y)) then None else Some (gx + (x - x0), gy + (y - y0))) ::
        drag_expected deadline gx gy ref (Some (x, y)) reports
      end
  end.

(** Coordinates far enough from the ends of [i32] that no sum of four
    saturates: a desktop of a billion pixels. *)
Definition coord_ok (p : Z * Z) : Prop := - 2 ^ 29 < p.1 < 2 ^ 29 ∧ - 2 ^ 29 < p.2 < 2 ^ 29.

(** ** Lemmas *)

Lemma sat_id x : - 2 ^ 31 ≤ x < 2 ^ 31 → sat_sint 32 x = x.
Proof. intros. unfold sat_sint. simpl_pow. change (2 ^ 31) with 2147483648 in *. lia. Qed.

Ltac coord_lia :=
  unfold coord_ok in *; cbn [fst snd] in *;
  change (2 ^ 29) with 536870912 in *; change (2 ^ 31) with 2147483648 in *; lia.

Lemma run_moves_expected g id reports until gx gy ref last :
  coord_ok (gx, gy) → Forall (λ r, coord_ok r.2) reports →
  match ref, last with
  | None, None => True
  | Some p0, Some p => coord_ok p0 ∧ coord_ok p
  | _, _ => False
  end →
  (∃ sz, sync_windows g !! id =
    Some (mkSync until
      (match ref, last with
       | Some p0, Some p => (gx + (p.1 - p0.1), gy + (p.2 - p0.2))
       | _, _ => (gx, gy)
       end) last sz)) →
  (run_moves g id reports).2 = drag_expected until gx gy ref last reports.
Proof.
  intros Hg Hr. revert g ref last.
  induction Hr as [|[now [x y]] reports Hxy _ IH]; intros g ref last Hrl [sz Hs]; [done|].
  cbn [run_moves drag_expected]. unfold geo_moved. rewrite Hs. cbn [settling_until local_anchor].
  destruct (now <? until) eqn:En.
  { specialize (IH g ref last Hrl ltac:(by eexists)). destruct (run_moves g id reports).
    cbn in *. by rewrite IH. }
  destruct ref as [[x0 y0]|], last as [[px py]|]; try done; cbn [guest_anchor local_size fst snd].
  - unfold sat_sub, sat_add. cbn [snd] in Hxy. destruct Hrl as [H0 Hp].
    rewrite !(sat_id (_ - _)) by coord_lia.
    destruct ((x - px =? 0) && (y - py =? 0)) eqn:Ez.
    + bool_to_prop. assert (x = px) as -> by lia. assert (y = py) as -> by lia.
      rewrite bool_decide_true by done.
      match goal with |- context [run_moves ?g1 _ _] =>
        specialize (IH g1 (Some (x0, y0)) (Some (px, py)));
        destruct (run_moves g1 id reports) end.
      cbn in *. rewrite IH; [done|done|]. exists sz. by rewrite lookup_insert_eq.
    + rewrite bool_decide_false by (intros [= -> ->]; rewrite !Z.sub_diag in Ez; done).
      rewrite !(sat_id (_ + _)) by coord_lia.
      replace (gx + (px - x0) + (x - px)) with (gx + (x - x0)) by lia.
      replace (gy + (py - y0) + (y - py)) with (gy + (y - y0)) by lia.
      match goal with |- context [run_moves ?g1 _ _] =>
        specialize (IH g1 (Some (x0, y0)) (Some (x, y)));
        destruct (run_moves g1 id reports) end.
      cbn in *. rewrite IH; [done|done|]. exists sz. by rewrite lookup_insert_eq.
  - match goal with |- context [run_moves ?g1 _ _] =>
      specialize (IH g1 (Some (x, y)) (Some (x, y)));
      destruct (run_moves g1 id reports) end.
    cbn in *. rewrite IH; [done|done|]. exists sz. rewrite lookup_insert_eq. do 3 f_equal; f_equal; lia.
Qed.

(** ** Properties *)

(** After a native window is created for a guest window at [(gx, gy)], any
    sequence of position reports sends the guest exactly this: nothing before
    the settling deadline, nothing for the first position after it, and then,
    whenever the window has moved, the guest's own position translated by the
    displacement from that first position.  The displacements the code adds up
    never drift. *)
Theorem drag_is_translation g now id gx gy reports :
  coord_ok (gx, gy) → Forall (λ r, coord_ok r.2) reports →
  (run_moves (geo_created g now id gx gy) id reports).2 =
  drag_expected (now + SETTLE) gx gy None None reports.
Proof.
  intros Hg Hr. apply run_moves_expected; [done..|]. exists None. apply lookup_insert_eq.
Qed.

Lemma drag_is_translation_witness :
  (run_moves (geo_created GeometrySync_new 0 1 100 200) 1
     [(10, (5, 5)); (800, (50, 60)); (810, (53, 60)); (820, (53, 60)); (830, (40, 70))]).2 =
  [None; None; Some (103, 200); None; Some (90, 210)].
Proof.
  apply (drag_is_translation GeometrySync_new 0 1 100 200
    [(10, (5, 5)); (800, (50, 60)); (810, (53, 60)); (820, (53, 60)); (830, (40, 70))]).
  - split; split; vm_compute; reflexivity.
  - repeat constructor; vm_compute; reflexivity.
Defined.

Ltac no_request :=
  split; [done|]; intros (? & ? & ? & ?); destruct_and?; simplify_eq; first [done|congruence|lia].
Ltac not_sent := cbn; split_and!; [by right|no_request|by intros|by intros].

(** A size is asked of the guest only for a resizable window the client
    tracks, settled, with both axes non-zero, that was seen after settling with
    another size before; what is asked is the size reported.  In every other
    case nothing is sent, and while settling nothing is remembered either. *)
Theorem resize_only_on_change g now model id width height :
  let '(g', o) := geo_resized g now model id width height in
  (o = Some (width, height) ∨ o = None) ∧
  (o = Some (width, height) ↔
   ∃ w s previous, model_get model id = Some w ∧ rw_resizable w = true ∧ width ≠ 0 ∧ height ≠ 0 ∧
     sync_windows g !! id = Some s ∧ settling_until s ≤ now ∧
     local_size s = Some previous ∧ previous ≠ (width, height)) ∧
  (∀ s, sync_windows g !! id = Some s → now < settling_until s → g' = g) ∧
  (∀ id', id' ≠ id → sync_windows g' !! id' = sync_windows g !! id').
Proof.
  unfold geo_resized.
  destruct (model_get model id) as [w|]; [|not_sent].
  destruct (rw_resizable w) eqn:Er; [|not_sent]. cbn [negb].
  destruct (Z.eqb_spec width 0); [not_sent|].
  destruct (Z.eqb_spec height 0); [not_sent|]. cbn [orb].
  destruct (sync_windows g !! id) as [s|] eqn:Es; [|not_sent].
  destruct (Z.ltb_spec now (settling_until s)).
  { not_sent. }
  destruct (local_size s) as [p|] eqn:El; [destruct (decide (p = (width, height))) as [->|Hp]|].
  - rewrite bool_decide_true by done. split_and!; [auto| | |].
    + no_request.
    + intros s' ? ?. simplify_eq. lia.
    + intros. cbn. by rewrite lookup_insert_ne.
  - rewrite bool_decide_false by done. split_and!; [auto| | |].
    + split; [|done]. intros _. exists w, s, p. auto 10.
    + intros s' ? ?. simplify_eq. lia.
    + intros. cbn. by rewrite lookup_insert_ne.
  - split_and!; [auto| | |].
    + no_request.
    + intros s' ? ?. simplify_eq. lia.
    + intros. cbn. by rewrite lookup_insert_ne.
Qed.
