(* ===== verification/Registry.v ===== *)
(** * The agent's window registry

    [crates/oxagent/src/registry.rs]: [WindowRegistry] gives native windows
    their protocol ids and video channels.  Ids are never reused, channels are,
    so the point of the invariant is that the channels in use and the free list
    partition the channels ever handed out. *)

From stdpp Require Import sorting.
From S2P Require Import Prelude.

Definition VIDEO_BASE : Z := 16.

Record TrackedWindow : Type := mkTracked { tw_window_id : Z; tw_video_channel : Z }.

Record WindowRegistry : Type := mkRegistry {
  handle_to_window : gmap Z TrackedWindow;
  id_to_handle : gmap Z Z;
  next_window_id : Z;
  free_channels : list Z;
  next_channel : Z
}.

Definition WindowRegistry_new : WindowRegistry := mkRegistry ∅ ∅ 1 [] VIDEO_BASE.

(** [x.checked_add(1).expect(..)] on a [w]-bit counter. *)
Definition bump (w x : Z) : outcome unit Z := add_uint w x 1.

(** [Vec::pop]: the last element and the rest. *)
Definition vec_pop (l : list Z) : option (Z * list Z) :=
  match rev l with [] => None | x :: r => Some (x, rev r) end.

Definition track (r : WindowRegistry) (handle : Z)
    : outcome unit (TrackedWindow * bool * WindowRegistry) :=
  match handle_to_window r !! handle with
  | Some tracked => Ok (tracked, false, r)
  | None =>
    let window_id := next_window_id r in
    next_id ← bump 32 (next_window_id r);
    ch_free_next ←
      match vec_pop (free_channels r) with
      | Some (channel, free) => Ok (channel, free, next_channel r)
      | None => next ← bump 16 (next_channel r); Ok (next_channel r, free_channels r, next)
      end;
    let '(video_channel, free, next) := ch_free_next in
    let tracked := mkTracked window_id video_channel in
    Ok (tracked, true,
        mkRegistry (<[handle := tracked]> (handle_to_window r))
          (<[window_id := handle]> (id_to_handle r)) next_id free next)
  end.

Definition registry_get (r : WindowRegistry) (handle : Z) : option TrackedWindow :=
  handle_to_window r !! handle.

Definition by_id (r : WindowRegistry) (window_id : Z) : option TrackedWindow :=
  handle ← id_to_handle r !! window_id; handle_to_window r !! handle.

Definition forget (r : WindowRegistry) (handle : Z) : WindowRegistry * option TrackedWindow :=
  match handle_to_window r !! handle with
  | None => (r, None)
  | Some tracked =>
    (mkRegistry (delete handle (handle_to_window r)) (delete (tw_window_id tracked) (id_to_handle r))
       (next_window_id r) (free_channels r ++ [tw_video_channel tracked]) (next_channel r),
     Some tracked)
  end.

(** The key [retain_live] sorts by: the window id, 0 for an unknown handle. *)
Definition sort_key (r : WindowRegistry) (h : Z) : Z :=
  match handle_to_window r !! h with Some w => tw_window_id w | None => 0 end.

Fixpoint forget_all (r : WindowRegistry) (handles : list Z) : WindowRegistry * list TrackedWindow :=
  match handles with
  | [] => (r, [])
  | h :: handles =>
    let '(r, o) := forget r h in
    let '(r, removed) := forget_all r handles in
    (r, match o with Some t => t :: removed | None => removed end)
  end.

#[export] Instance sort_le_dec r : RelDecision (λ a b, sort_key r a ≤ sort_key r b).
Proof. intros a b. apply Z_le_dec. Defined.

(** [retain_live]: [keys] is the order in which the hash map yields its keys,
    which Rust leaves unspecified.  The sort by id comes before the removals. *)
Definition retain_live (r : WindowRegistry) (keys live : list Z) : WindowRegistry * list TrackedWindow :=
  let to_remove := List.filter (λ h, negb (bool_decide (h ∈ live))) keys in
  forget_all r (merge_sort (λ a b, sort_key r a ≤ sort_key r b) to_remove).

(** ** Invariant *)

Definition channels_in_use (r : WindowRegistry) : list Z :=
  tw_video_channel <$> (map_to_list (handle_to_window r)).*2.

Record registry_inv (r : WindowRegistry) : Prop := {
  ri_inverse : ∀ h w, handle_to_window r !! h = Some w → id_to_handle r !! tw_window_id w = Some h;
  ri_inverse' : ∀ id h, id_to_handle r !! id = Some h →
                ∃ w, handle_to_window r !! h = Some w ∧ tw_window_id w = id;
  ri_ids : ∀ id h, id_to_handle r !! id = Some h → 1 ≤ id < next_window_id r;
  ri_channels : channels_in_use r ++ free_channels r ≡ₚ
                seqZ VIDEO_BASE (next_channel r - VIDEO_BASE);
  ri_next : 1 ≤ next_window_id r ∧ VIDEO_BASE ≤ next_channel r
}.

(** ** Lemmas *)

Lemma vec_pop_Some l x r : vec_pop l = Some (x, r) → l = r ++ [x].
Proof.
  unfold vec_pop. destruct (rev l) as [|y k] eqn:E; [done|]. intros [= -> <-].
  apply (f_equal (@rev Z)) in E. rewrite rev_involutive in E. by cbn in E.
Qed.

Lemma vec_pop_None l : vec_pop l = None → l = [].
Proof.
  unfold vec_pop. destruct (rev l) as [|y k] eqn:E; [|done]. intros _.
  apply (f_equal (@rev Z)) in E. by rewrite rev_involutive in E.
Qed.

Lemma in_use_insert r m h w :
  m = handle_to_window r → m !! h = None →
  tw_video_channel <$> (map_to_list (<[h := w]> m)).*2 ≡ₚ tw_video_channel w :: channels_in_use r.
Proof. intros -> Hn. unfold channels_in_use. by rewrite map_to_list_insert. Qed.

Lemma in_use_delete r h w :
  handle_to_window r !! h = Some w →
  channels_in_use r ≡ₚ tw_video_channel w :: (tw_video_channel <$> (map_to_list (delete h (handle_to_window r))).*2).
Proof. intros Hw. unfold channels_in_use. rewrite <- (map_to_list_delete _ h w) by done. done. Qed.

Lemma registry_inv_new : registry_inv WindowRegistry_new.
Proof.
  split; cbn.
  - intros h w. by rewrite lookup_empty.
  - intros id h. by rewrite lookup_empty.
  - intros id h. by rewrite lookup_empty.
  - unfold channels_in_use; cbn. by rewrite map_to_list_empty.
  - done.
Qed.

Lemma seqZ_snoc a n : 0 ≤ n → seqZ a (n + 1) ≡ₚ (a + n) :: seqZ a n.
Proof.
  intros. rewrite seqZ_app by lia. rewrite Permutation_app_comm.
  rewrite (seqZ_cons (a + n) 1) by lia. by rewrite (seqZ_nil _ (Z.pred 1)) by lia.
Qed.

Lemma track_inv r h t b r' :
  registry_inv r → track r h = Ok (t, b, r') → registry_inv r'.
Proof.
  intros [H1 H2 H3 H4 [H5 H6]]. unfold track.
  destruct (handle_to_window r !! h) as [w|] eqn:Eh; [by intros; simplify_eq|].
  unfold mbind, outcome_bind, bump, add_uint.
  destruct (Z.ltb_spec (next_window_id r + 1) (2 ^ 32)); [|done].
  assert (∀ ch free next, (tw_video_channel (mkTracked (next_window_id r) ch) :: channels_in_use r) ++ free
            ≡ₚ seqZ VIDEO_BASE (next - VIDEO_BASE) → VIDEO_BASE ≤ next →
    registry_inv (mkRegistry (<[h := mkTracked (next_window_id r) ch]> (handle_to_window r))
      (<[next_window_id r := h]> (id_to_handle r)) (next_window_id r + 1) free next)) as Hmk.
  { intros ch free next Hch Hn. split; cbn.
    - intros h' w' Hl. apply lookup_insert_Some in Hl as [[<- <-]|[Hne Hl]].
      + apply lookup_insert_eq.
      + apply H1 in Hl as Hl'. rewrite lookup_insert_ne; [done|]. apply H3 in Hl'. lia.
    - intros id h' Hl. apply lookup_insert_Some in Hl as [[<- <-]|[Hne Hl]].
      + exists (mkTracked (next_window_id r) ch). by rewrite lookup_insert_eq.
      + destruct (H2 id h' Hl) as (w' & Hw' & Hid). exists w'. rewrite lookup_insert_ne; [done|congruence].
    - intros id h' Hl. apply lookup_insert_Some in Hl as [[<- <-]|[Hne Hl]]; [lia|].
      apply H3 in Hl. lia.
    - unfold channels_in_use; cbn. by rewrite (in_use_insert r).
    - lia. }
  destruct (vec_pop (free_channels r)) as [[c f]|] eqn:Ep.
  - apply vec_pop_Some in Ep. intros; simplify_eq. apply Hmk; [|done].
    rewrite <- H4, Ep. cbn. by rewrite app_assoc, (Permutation_app_comm _ [c]).
  - apply vec_pop_None in Ep. destruct (Z.ltb_spec (next_channel r + 1) (2 ^ 16)); [|done].
    intros; simplify_eq. apply Hmk; [|lia]. cbn. rewrite H4.
    replace (next_channel r + 1 - VIDEO_BASE) with (next_channel r - VIDEO_BASE + 1) by lia.
    rewrite seqZ_snoc by lia. by replace (VIDEO_BASE + (next_channel r - VIDEO_BASE)) with (next_channel r) by lia.
Qed.

Lemma forget_inv r h : registry_inv r → registry_inv (forget r h).1.
Proof.
  intros [H1 H2 H3 H4 H5]. unfold forget.
  destruct (handle_to_window r !! h) as [w|] eqn:Eh; [|done]. split; cbn.
  - intros h' w' Hl. apply lookup_delete_Some in Hl as [Hne Hl]. rewrite lookup_delete_ne; [by apply H1|].
    intros Heq. apply H1 in Hl, Eh. congruence.
  - intros id h' Hl. apply lookup_delete_Some in Hl as [Hne Hl].
    destruct (H2 id h' Hl) as (w' & Hw' & Hid). exists w'. rewrite lookup_delete_ne; [done|congruence].
  - intros id h' Hl. apply lookup_delete_Some in Hl as [Hne Hl]. by apply H3 in Hl.
  - unfold channels_in_use at 1; cbn. rewrite <- H4, (in_use_delete r h w) by done.
    by rewrite app_assoc, (Permutation_app_comm _ [tw_video_channel w]).
  - done.
Qed.

Lemma forget_all_inv hs r : registry_inv r → registry_inv (forget_all r hs).1.
Proof.
  revert r. induction hs as [|h hs IH]; intros r Hr; cbn; [done|].
  pose proof (forget_inv r h Hr). destruct (forget r h) as [r1 o]. specialize (IH r1).
  destruct (forget_all r1 hs). by apply IH.
Qed.

(** Two windows in flight at once have different ids and different channels. *)
Lemma channels_distinct r h1 h2 w1 w2 :
  registry_inv r → handle_to_window r !! h1 = Some w1 → handle_to_window r !! h2 = Some w2 → h1 ≠ h2 →
  tw_window_id w1 ≠ tw_window_id w2 ∧ tw_video_channel w1 ≠ tw_video_channel w2.
Proof.
  intros Hr E1 E2 Hne. split.
  - intros He. apply (ri_inverse r Hr) in E1, E2. congruence.
  - intros He. pose proof (NoDup_seqZ VIDEO_BASE (next_channel r - VIDEO_BASE)) as Hnd.
    rewrite <- (ri_channels r Hr) in Hnd. apply NoDup_app in Hnd as [Hnd _].
    rewrite (in_use_delete r h1 w1) in Hnd by done. apply NoDup_cons in Hnd as [Hin _].
    apply Hin. rewrite He. apply list_elem_of_fmap. exists w2. split; [done|].
    apply list_elem_of_fmap. exists (h2, w2). split; [done|]. apply elem_of_map_to_list.
    by rewrite lookup_delete_ne.
Qed.

Lemma channels_range r h w :
  registry_inv r → handle_to_window r !! h = Some w →
  VIDEO_BASE ≤ tw_video_channel w < next_channel r ∧ tw_video_channel w ∉ free_channels r.
Proof.
  intros Hr E. pose proof (NoDup_seqZ VIDEO_BASE (next_channel r - VIDEO_BASE)) as Hnd.
  rewrite <- (ri_channels r Hr) in Hnd. apply NoDup_app in Hnd as (_ & Hd & _).
  assert (tw_video_channel w ∈ channels_in_use r) as Hin.
  { rewrite (in_use_delete r h w) by done. apply elem_of_cons. auto. }
  split; [|by apply Hd].
  assert (tw_video_channel w ∈ seqZ VIDEO_BASE (next_channel r - VIDEO_BASE)) as Hs.
  { rewrite <- (ri_channels r Hr). apply elem_of_app. auto. }
  apply elem_of_seqZ in Hs. lia.
Qed.

(** ** Removing the windows that are gone *)

Lemma forget_lookup r h h' :
  handle_to_window (forget r h).1 !! h' = if decide (h' = h) then None else handle_to_window r !! h'.
Proof.
  unfold forget. destruct (handle_to_window r !! h) as [w|] eqn:E; cbn.
  - case_decide; subst; [apply lookup_delete_eq|by apply lookup_delete_ne].
  - case_decide; by subst.
Qed.

Lemma forget_all_spec hs r :
  NoDup hs →
  (forget_all r hs).2 = omap (λ h, handle_to_window r !! h) hs ∧
  (∀ h, handle_to_window (forget_all r hs).1 !! h =
        if decide (h ∈ hs) then None else handle_to_window r !! h).
Proof.
  revert r. induction hs as [|h hs IH]; intros r Hnd; cbn.
  { split; [done|]. intros h. rewrite decide_False; [done|]. apply not_elem_of_nil. }
  apply NoDup_cons in Hnd as [Hh Hnd]. pose proof (forget_lookup r h) as Hf.
  destruct (forget r h) as [r1 o] eqn:E. destruct (IH r1 Hnd) as [I1 I2].
  destruct (forget_all r1 hs) as [r2 removed]. cbn [fst snd] in *. split.
  - assert (o = handle_to_window r !! h) as ->.
    { unfold forget in E. destruct (handle_to_window r !! h); by simplify_eq. }
    assert (removed = omap (λ h, handle_to_window r !! h) hs) as ->.
    { rewrite I1. clear -Hh Hf. induction hs as [|x hs IH]; [done|]. cbn.
      apply not_elem_of_cons in Hh as [Hx Hh]. rewrite Hf, decide_False by congruence.
      by rewrite (IH Hh). }
    done.
  - intros h'. rewrite I2, Hf. repeat case_decide; set_solver.
Qed.

#[export] Instance sort_le_total r : Total (λ a b, sort_key r a ≤ sort_key r b).
Proof. intros a b. lia. Qed.
#[export] Instance sort_le_trans r : Transitive (λ a b, sort_key r a ≤ sort_key r b).
Proof. intros a b c. lia. Qed.

(** Handles sorted by id, none twice, yield windows in strictly rising ids. *)
Lemma sorted_windows r hs :
  registry_inv r → NoDup hs → StronglySorted (λ a b, sort_key r a ≤ sort_key r b) hs →
  StronglySorted (λ a b, tw_window_id a < tw_window_id b) (omap (λ h, handle_to_window r !! h) hs).
Proof.
  intros Hr Hnd Hs. induction Hs as [|h hs Hs IH Hle]; cbn; [constructor|].
  apply NoDup_cons in Hnd as [Hh Hnd]. destruct (handle_to_window r !! h) as [w|] eqn:E; [|auto].
  constructor; [auto|]. apply Forall_forall. intros w' Hw'.
  apply list_elem_of_omap in Hw' as (h' & Hin & E').
  rewrite Forall_forall in Hle. specialize (Hle h' Hin). unfold sort_key in Hle. rewrite E, E' in Hle.
  assert (h ≠ h') by congruence. destruct (channels_distinct r h h' w w' Hr E E'); [done|]. lia.
Qed.

Lemma retain_live_spec r keys live :
  registry_inv r → keys ≡ₚ (map_to_list (handle_to_window r)).*1 →
  let '(r', removed) := retain_live r keys live in
  registry_inv r' ∧
  (∀ h, handle_to_window r' !! h = if decide (h ∈ live) then handle_to_window r !! h else None) ∧
  StronglySorted (λ a b, tw_window_id a < tw_window_id b) removed ∧
  (∀ w, w ∈ removed ↔ ∃ h, handle_to_window r !! h = Some w ∧ h ∉ live).
Proof.
  intros Hr Hk. unfold retain_live.
  set (gone := List.filter (λ h, negb (bool_decide (h ∈ live))) keys).
  set (sorted := merge_sort (λ a b, sort_key r a ≤ sort_key r b) gone).
  assert (∀ h, h ∈ gone ↔ is_Some (handle_to_window r !! h) ∧ h ∉ live) as Hgone.
  { intros h. subst gone. rewrite list_elem_of_In, filter_In, negb_true_iff, bool_decide_eq_false.
    rewrite <- list_elem_of_In, Hk, list_elem_of_fmap. split.
    - intros [([h' w] & -> & Hin%elem_of_map_to_list) ?]. split; [by eexists|done].
    - intros [[w Hw] ?]. split; [|done]. exists (h, w). by rewrite elem_of_map_to_list. }
  assert (NoDup gone) as Hnd.
  { subst gone. rewrite NoDup_ListNoDup. apply List.NoDup_filter. rewrite <- NoDup_ListNoDup, Hk.
    apply NoDup_fst_map_to_list. }
  assert (sorted ≡ₚ gone) as Hp by apply merge_sort_Permutation.
  assert (∀ h, h ∈ sorted ↔ is_Some (handle_to_window r !! h) ∧ h ∉ live) as Hsorted.
  { intros h. by rewrite Hp. }
  assert (NoDup sorted) as Hnd' by (by rewrite Hp).
  pose proof (forget_all_inv sorted r Hr) as Hinv.
  destruct (forget_all_spec sorted r Hnd') as [H1 H2].
  destruct (forget_all r sorted) as [r' removed]. cbn [fst snd] in *. split_and!; [done| | |].
  - intros h. rewrite H2. specialize (Hsorted h).
    destruct (handle_to_window r !! h) eqn:E; repeat case_decide; naive_solver.
  - rewrite H1. apply sorted_windows; [done..|]. apply StronglySorted_merge_sort; apply _.
  - intros w. rewrite H1, list_elem_of_omap. split.
    + intros (h & Hin%Hsorted & Hw). exists h. by destruct Hin.
    + intros (h & Hw & Hl). exists h. split; [|done]. apply Hsorted. split; [by eexists|done].
Qed.

(** ** Sequences of calls *)

Inductive registry_op : Type := Track (handle : Z) | Forget (handle : Z).

(** The ids handed out, with the registry at the end. *)
Fixpoint registry_run (r : WindowRegistry) (ops : list registry_op) : outcome unit (list Z * WindowRegistry) :=
  match ops with
  | [] => Ok ([], r)
  | Track h :: ops =>
    x ← track r h;
    let '(w, created, r) := x in
    y ← registry_run r ops;
    Ok (if created : bool then tw_window_id w :: y.1 else y.1, y.2)
  | Forget h :: ops => registry_run (forget r h).1 ops
  end.

Lemma track_created r h t b r' :
  track r h = Ok (t, b, r') →
  if b then tw_window_id t = next_window_id r ∧ next_window_id r' = next_window_id r + 1
  else r' = r.
Proof.
  unfold track. destruct (handle_to_window r !! h); [by intros; simplify_eq|].
  unfold mbind, outcome_bind, bump, add_uint.
  repeat case_match; intros; simplify_eq; done.
Qed.

Lemma forget_next r h : next_window_id (forget r h).1 = next_window_id r.
Proof. unfold forget. by destruct (handle_to_window r !! h). Qed.

Lemma registry_run_spec ops r ids r' :
  registry_inv r → registry_run r ops = Ok (ids, r') →
  registry_inv r' ∧ StronglySorted Z.lt ids ∧ Forall (λ id, next_window_id r ≤ id) ids.
Proof.
  revert r ids. induction ops as [|[h|h] ops IH]; intros r ids Hr E; cbn in E.
  - simplify_eq. split_and!; [done|constructor..].
  - destruct (track r h) as [[[w b] r1]|e|] eqn:Et; [|done..]. cbn in E.
    pose proof (track_inv _ _ _ _ _ Hr Et) as Hr1. pose proof (track_created _ _ _ _ _ Et) as Hc.
    destruct (registry_run r1 ops) as [[ids1 r2]|e|] eqn:Er; [|done..]. cbn in E. simplify_eq.
    destruct (IH r1 ids1 Hr1 Er) as (I1 & I2 & I3). split; [done|].
    destruct b; [|subst r1; done]. destruct Hc as [Hw Hn]. rewrite Hn in I3. split; constructor; auto.
    + eapply Forall_impl; [exact I3|]. cbn. lia.
    + lia.
    + eapply Forall_impl; [exact I3|]. cbn. lia.
  - destruct (IH (forget r h).1 ids (forget_inv r h Hr) E) as (I1 & I2 & I3).
    by rewrite forget_next in I3.
Qed.

(** ** Properties *)

(** Over any sequence of windows appearing and disappearing that does not
    exhaust the id or channel space, the ids handed out are strictly increasing
    - none is ever reused - and two windows tracked at the same time never share
    an id or a video channel; every channel in use lies between the video base
    and the next fresh one and is not on the free list, and looking a window up
    by its id finds it. *)
Theorem registry_no_sharing ops ids r :
  registry_run WindowRegistry_new ops = Ok (ids, r) →
  StronglySorted Z.lt ids ∧
  (∀ h1 h2 w1 w2, registry_get r h1 = Some w1 → registry_get r h2 = Some w2 → h1 ≠ h2 →
     tw_window_id w1 ≠ tw_window_id w2 ∧ tw_video_channel w1 ≠ tw_video_channel w2) ∧
  (∀ h w, registry_get r h = Some w →
     by_id r (tw_window_id w) = Some w ∧
     VIDEO_BASE ≤ tw_video_channel w < next_channel r ∧ tw_video_channel w ∉ free_channels r).
Proof.
  intros E. destruct (registry_run_spec _ _ _ _ registry_inv_new E) as (Hr & Hs & _).
  split_and!; [done| |].
  - intros h1 h2 w1 w2. by apply channels_distinct.
  - intros h w Hw. split; [|by eapply channels_range].
    unfold by_id. rewrite (ri_inverse r Hr h w Hw). exact Hw.
Qed.

Definition registry_example : list registry_op := [Track 100; Track 200; Forget 100; Track 300; Track 200].

Lemma registry_no_sharing_witness :
  ∃ r, registry_run WindowRegistry_new registry_example = Ok ([1; 2; 3], r) ∧
       StronglySorted Z.lt [1; 2; 3] ∧ registry_get r 300 = Some (mkTracked 3 16).
Proof.
  eexists. split; [vm_compute; reflexivity|]. split; [|vm_compute; reflexivity].
  refine (proj1 (registry_no_sharing registry_example [1; 2; 3] _ _)). vm_compute. reflexivity.
Defined.

(** [retain_live] removes exactly the tracked windows whose handle is not
    live, leaves the others alone, and reports the removed ones in strictly
    rising id order, whatever order the hash map yields its keys in. *)
Theorem retain_live_exact r keys live :
  registry_inv r → keys ≡ₚ (map_to_list (handle_to_window r)).*1 →
  let '(r', removed) := retain_live r keys live in
  registry_inv r' ∧
  (∀ h, registry_get r' h = if decide (h ∈ live) then registry_get r h else None) ∧
  StronglySorted (λ a b, tw_window_id a < tw_window_id b) removed ∧
  (∀ w, w ∈ removed ↔ ∃ h, registry_get r h = Some w ∧ h ∉ live).
Proof. apply retain_live_spec. Qed.

Definition registry_sample : WindowRegistry :=
  mkRegistry {[7 := mkTracked 1 16; 5 := mkTracked 2 17]} {[1 := 7; 2 := 5]} 3 [] 18.

Lemma registry_sample_inv : registry_inv registry_sample.
Proof.
  destruct (registry_run WindowRegistry_new [Track 7; Track 5]) as [[ids r]|e|] eqn:E;
    [|by vm_compute in E..].
  destruct (registry_run_spec _ _ _ _ registry_inv_new E) as (Hr & _).
  vm_compute in E. by simplify_eq.
Qed.

Lemma retain_live_exact_witness : (retain_live registry_sample [7; 5] [9]).2 = [mkTracked 1 16; mkTracked 2 17].
Proof.
  pose proof (retain_live_exact registry_sample [7; 5] [9] registry_sample_inv) as H.
  assert ([7; 5] ≡ₚ (map_to_list (handle_to_window registry_sample)).*1) as Hk.
  { vm_compute. repeat constructor. }
  destruct (retain_live registry_sample [7; 5] [9]) as [r' removed] eqn:E.
  destruct (H Hk) as (_ & _ & _ & _). vm_compute in E. by simplify_eq.
Defined.

(** [track] is idempotent: a handle already tracked keeps its id and
    channel and changes nothing; a new handle gets the next id and, when one is
    free, the channel freed last. *)
Lemma track_spec r h :
  (∀ w, registry_get r h = Some w → track r h = Ok (w, false, r)) ∧
  (registry_get r h = None → next_window_id r + 1 < 2 ^ 32 → next_channel r + 1 < 2 ^ 16 →
   ∃ w r', track r h = Ok (w, true, r') ∧ registry_get r' h = Some w ∧
     tw_window_id w = next_window_id r ∧
     tw_video_channel w = List.last (free_channels r) (next_channel r) ∧
     (∀ h', h' ≠ h → registry_get r' h' = registry_get r h')).
Proof.
  unfold registry_get, track. split; [by intros w ->|]. intros -> H1 H2.
  unfold mbind, outcome_bind, bump, add_uint.
  replace (next_window_id r + 1 <? 2 ^ 32) with true by lia.
  replace (next_channel r + 1 <? 2 ^ 16) with true by lia.
  destruct (vec_pop (free_channels r)) as [[c f]|] eqn:Ep.
  - apply vec_pop_Some in Ep as ->. rewrite List.last_last.
    eexists _, _. split_and!; [done|apply lookup_insert_eq|done..|].
    intros h' Hne. by apply lookup_insert_ne.
  - apply vec_pop_None in Ep as ->.
    eexists _, _. split_and!; [done|apply lookup_insert_eq|done..|].
    intros h' Hne. by apply lookup_insert_ne.
Qed.
