(* ===== verification/Pacing.v ===== *)
(** * Frame pacing

    [crates/oxagent/src/pacing.rs]: [FrameBudget], the per-window bound on
    unacknowledged frames.  The specification is the set of outstanding ids; the
    queue is proved to be its increasing enumeration, so that the cumulative
    acknowledgement, a loop at the front of the queue, retires exactly the ids
    up to the one acknowledged. *)

From S2P Require Import Prelude.

Record FrameBudget : Type := mkBudget {
  max_in_flight : Z;
  in_flight_q : list Z;
  next_frame_id : Z;
  dropped : Z;
  sent : Z
}.

(** [FrameBudget::new] of a [u8]. *)
Definition FrameBudget_new (max : Z) : FrameBudget := mkBudget (Z.max max 1) [] 1 0 0.

(** [on_captured]: the [u64] counters are incremented with overflow checks. *)
Definition on_captured (b : FrameBudget) : outcome unit (Z * FrameBudget) :=
  q_d ← (if len (in_flight_q b) >=? max_in_flight b
         then d ← add_uint 64 (dropped b) 1; Ok (tail (in_flight_q b), d)
         else Ok (in_flight_q b, dropped b));
  let id := next_frame_id b in
  next ← add_uint 64 (next_frame_id b) 1;
  s ← add_uint 64 (sent b) 1;
  Ok (id, mkBudget (max_in_flight b) (q_d.1 ++ [id]) next q_d.2 s).

(** The [while let] of [on_ack]: it recurses on the queue it pops. *)
Fixpoint ack_loop (q : list Z) (frame_id : Z) : list Z :=
  match q with
  | [] => []
  | front :: rest => if front <=? frame_id then ack_loop rest frame_id else q
  end.

Definition on_ack (b : FrameBudget) (frame_id : Z) : FrameBudget :=
  mkBudget (max_in_flight b) (ack_loop (in_flight_q b) frame_id) (next_frame_id b) (dropped b) (sent b).

Definition in_flight (b : FrameBudget) : Z := len (in_flight_q b).
Definition has_headroom (b : FrameBudget) : bool := len (in_flight_q b) <? max_in_flight b.

Definition restart (b : FrameBudget) : FrameBudget :=
  mkBudget (max_in_flight b) [] (next_frame_id b) (dropped b) (sent b).

(** A session's calls, in any order. *)
Inductive pacing_op : Type := Captured | Ack (frame_id : Z) | Restart.

Definition pacing_step (b : FrameBudget) (op : pacing_op) : outcome unit FrameBudget :=
  match op with
  | Captured => p ← on_captured b; Ok p.2
  | Ack n => Ok (on_ack b n)
  | Restart => Ok (restart b)
  end.

Fixpoint pacing_run (b : FrameBudget) (ops : list pacing_op) : outcome unit FrameBudget :=
  match ops with
  | [] => Ok b
  | op :: ops => b ← pacing_step b op; pacing_run b ops
  end.

(** ** Invariant *)

Fixpoint increasing (l : list Z) : Prop :=
  match l with
  | [] => True
  | x :: l => Forall (λ y, x < y) l ∧ increasing l
  end.

Record budget_inv (b : FrameBudget) : Prop := {
  bi_max : 1 ≤ max_in_flight b;
  bi_len : len (in_flight_q b) ≤ max_in_flight b;
  bi_inc : increasing (in_flight_q b);
  bi_range : Forall (λ id, 1 ≤ id < next_frame_id b) (in_flight_q b);
  bi_next : next_frame_id b = sent b + 1;
  bi_dropped : 0 ≤ dropped b ∧ dropped b + len (in_flight_q b) ≤ sent b
}.

(** Every counter has room for one more. *)
Definition counters_ok (b : FrameBudget) : Prop := sent b < 2 ^ 64 - 2.

(** ** Lemmas *)

Lemma increasing_app l x : increasing l → Forall (λ y, y < x) l → increasing (l ++ [x]).
Proof.
  induction l as [|y l IH]; cbn; [by repeat constructor|]. intros [H1 H2] [H3 H4]%Forall_cons.
  split; [|auto]. apply Forall_app. split; [done|by repeat constructor].
Qed.

Lemma increasing_tail l : increasing l → increasing (tail l).
Proof. destruct l; cbn; [done|by intros [_ ?]]. Qed.

Lemma Forall_tl {A} (P : A → Prop) l : Forall P l → Forall P (tail l).
Proof. by destruct 1. Qed.

Lemma ack_loop_filter q n : increasing q → ack_loop q n = List.filter (λ id, n <? id) q.
Proof.
  induction q as [|x q IH]; cbn; [done|]. intros [H1 H2].
  destruct (Z.leb_spec x n); destruct (Z.ltb_spec n x); try lia; [auto|]. f_equal.
  clear IH H2. induction H1 as [|y q Hy _ IH]; cbn; [done|].
  replace (n <? y) with true by lia. by f_equal.
Qed.

Lemma ack_loop_suffix q n : ∃ k, q = k ++ ack_loop q n.
Proof.
  induction q as [|x q [k IH]]; cbn; [by exists []|]. case_if; [|by exists []].
  exists (x :: k). cbn. by f_equal.
Qed.

Lemma increasing_suffix k l : increasing (k ++ l) → increasing l.
Proof. induction k; cbn; [done|]. intros [_ ?]. auto. Qed.

Lemma on_captured_ok b :
  budget_inv b → counters_ok b →
  ∃ b', on_captured b = Ok (next_frame_id b, b') ∧ budget_inv b' ∧
        in_flight_q b' = (if has_headroom b then in_flight_q b else tail (in_flight_q b)) ++ [next_frame_id b] ∧
        dropped b' = dropped b + (if has_headroom b then 0 else 1) ∧
        sent b' = sent b + 1 ∧ max_in_flight b' = max_in_flight b.
Proof.
  intros [Hm Hl Hi Hr Hn [Hd1 Hd2]] Hc. unfold counters_ok in Hc. unfold on_captured, has_headroom.
  pose proof (len_nonneg (in_flight_q b)). rewrite Z.geb_leb.
  assert (∀ x, 0 ≤ x < 2 ^ 64 - 1 → add_uint (E:=unit) 64 x 1 = Ok (x + 1)) as Hadd.
  { intros x Hx. unfold add_uint. by replace (x + 1 <? 2 ^ 64) with true by lia. }
  destruct (Z.leb_spec (max_in_flight b) (len (in_flight_q b))) as [Hfull|Hroom].
  - replace (len (in_flight_q b) <? max_in_flight b) with false by lia.
    unfold mbind, outcome_bind. rewrite (Hadd (dropped b)), (Hadd (next_frame_id b)), (Hadd (sent b)) by lia.
    eexists. split_and!; try done.
    destruct (in_flight_q b) as [|x q]; [rewrite len_nil in *; lia|]. cbn [tail] in *.
    destruct Hi as [Hx Hi]. apply Forall_cons in Hr as [Hrx Hr]. rewrite len_cons in *.
    split; cbn -[Z.add]; rewrite ?len_app, ?len_cons; change (len (@nil Z)) with 0; try done; try lia.
    + apply increasing_app; [done|]. eapply Forall_impl; [exact Hr|]. cbn; intros; lia.
    + apply Forall_app. split; [|repeat constructor; lia].
      eapply Forall_impl; [exact Hr|]. cbn; intros; lia.
  - replace (len (in_flight_q b) <? max_in_flight b) with true by lia.
    unfold mbind, outcome_bind. rewrite (Hadd (next_frame_id b)), (Hadd (sent b)), Z.add_0_r by lia.
    eexists. split_and!; try done.
    split; cbn -[Z.add]; rewrite ?len_app, ?len_cons; change (len (@nil Z)) with 0; try done; try lia.
    + apply increasing_app; [done|]. eapply Forall_impl; [exact Hr|]. cbn; intros; lia.
    + apply Forall_app. split; [|repeat constructor; lia].
      eapply Forall_impl; [exact Hr|]. cbn; intros; lia.
Qed.

Lemma on_ack_inv b n : budget_inv b → budget_inv (on_ack b n).
Proof.
  intros [Hm Hl Hi Hr Hn Hd]. destruct (ack_loop_suffix (in_flight_q b) n) as [k Hk].
  rewrite Hk in Hl, Hi, Hr, Hd. rewrite len_app in *. pose proof (len_nonneg k).
  apply Forall_app in Hr as [_ Hr].
  split; cbn; try done; try lia. by eapply increasing_suffix.
Qed.

Lemma restart_inv b : budget_inv b → budget_inv (restart b).
Proof.
  intros [Hm Hl Hi Hr Hn Hd]. pose proof (len_nonneg (in_flight_q b)).
  split; cbn; change (len (@nil Z)) with 0; try done; try lia.
Qed.

Lemma FrameBudget_new_inv max : budget_inv (FrameBudget_new max).
Proof. split; cbn; change (len (@nil Z)) with 0; try done; try lia. Qed.

Lemma pacing_run_inv b ops :
  budget_inv b → sent b + len ops < 2 ^ 64 - 2 →
  ∃ b', pacing_run b ops = Ok b' ∧ budget_inv b' ∧ max_in_flight b' = max_in_flight b ∧
        sent b ≤ sent b' ≤ sent b + len ops.
Proof.
  revert b. induction ops as [|op ops IH]; intros b Hb Hc.
  { exists b. rewrite len_nil. split_and!; [done..|lia|lia]. }
  rewrite len_cons in Hc. pose proof (len_nonneg ops). cbn [pacing_run].
  assert (∃ b1, pacing_step b op = Ok b1 ∧ budget_inv b1 ∧ max_in_flight b1 = max_in_flight b ∧
                sent b ≤ sent b1 ≤ sent b + 1) as (b1 & -> & Hb1 & Hm & Hs).
  { destruct op; cbn [pacing_step].
    - destruct (on_captured_ok b Hb) as (b1 & -> & ? & _ & _ & ? & ?); [unfold counters_ok; lia|].
      exists b1. cbn. split_and!; [done..|lia|lia].
    - exists (on_ack b frame_id). split_and!; [done|by apply on_ack_inv|done|cbn; lia..].
    - exists (restart b). split_and!; [done|by apply restart_inv|done|cbn; lia..]. }
  destruct (IH b1 Hb1) as (b2 & E & Hb2 & Hm2 & Hs2); [lia|].
  exists b2. cbn [mbind outcome_bind]. rewrite len_cons. split_and!; [done|done|congruence|lia..].
Qed.

(** ** Properties *)

(** Whatever sequence of captures, acknowledgements and restarts, below
    2^64 - 2 calls, no counter overflows, at most [max_in_flight] frames are ever
    unacknowledged, their ids are strictly increasing and below the next id, and
    frames abandoned plus frames outstanding never exceed frames sent. *)
Theorem pacing_bounded max ops :
  len ops < 2 ^ 64 - 2 →
  ∃ b, pacing_run (FrameBudget_new max) ops = Ok b ∧
       in_flight b ≤ Z.max max 1 ∧ increasing (in_flight_q b) ∧
       Forall (λ id, 1 ≤ id < next_frame_id b) (in_flight_q b) ∧
       next_frame_id b = sent b + 1 ∧ dropped b + in_flight b ≤ sent b.
Proof.
  intros Hl. destruct (pacing_run_inv (FrameBudget_new max) ops (FrameBudget_new_inv max))
    as (b & E & [Hm Hlen Hi Hr Hn [_ Hd]] & Hmax & _); [cbn; lia|].
  exists b. unfold in_flight. cbn in Hmax. rewrite <- Hmax. auto 10.
Qed.

Lemma pacing_bounded_witness :
  ∃ b, pacing_run (FrameBudget_new 2) [Captured; Captured; Captured; Ack 2] = Ok b ∧
       in_flight b ≤ Z.max 2 1.
Proof.
  destruct (pacing_bounded 2 [Captured; Captured; Captured; Ack 2]) as (b & H1 & H2 & _).
  - vm_compute. reflexivity.
  - exists b. exact (conj H1 H2).
Defined.

(** A capture is always admitted, under a fresh id larger than every id
    before it; with the budget full exactly the oldest outstanding frame is given
    up and counted, otherwise none is. *)
Theorem capture_newest_wins b :
  budget_inv b → counters_ok b →
  ∃ b', on_captured b = Ok (next_frame_id b, b') ∧ budget_inv b' ∧
        Forall (λ id, id < next_frame_id b) (in_flight_q b) ∧
        in_flight_q b' =
          (if has_headroom b then in_flight_q b else tail (in_flight_q b)) ++ [next_frame_id b] ∧
        dropped b' = dropped b + (if has_headroom b then 0 else 1).
Proof.
  intros Hb Hc. destruct (on_captured_ok b Hb Hc) as (b' & E & Hb' & Hq & Hd & _).
  exists b'. split_and!; auto. eapply Forall_impl; [apply Hb|]. cbn. lia.
Qed.

Lemma capture_newest_wins_witness :
  ∃ b', on_captured (mkBudget 2 [4; 5] 6 3 5) = Ok (6, b') ∧ in_flight_q b' = [5; 6].
Proof.
  destruct (capture_newest_wins (mkBudget 2 [4; 5] 6 3 5)) as (b' & H1 & _ & _ & H2 & _).
  - split; cbn; try (vm_compute; discriminate); repeat constructor; vm_compute; congruence.
  - vm_compute. reflexivity.
  - exists b'. exact (conj H1 H2).
Defined.

(** Acknowledgements are cumulative and exact: acknowledging [n] retires
    precisely the outstanding frames up to [n], so a late acknowledgement of a
    dropped frame, or one from before a restart, never retires a newer frame. *)
Lemma ack_cumulative b n :
  budget_inv b →
  in_flight_q (on_ack b n) = List.filter (λ id, n <? id) (in_flight_q b) ∧ budget_inv (on_ack b n).
Proof. intros Hb. split; [apply ack_loop_filter, Hb|by apply on_ack_inv]. Qed.
