(* ===== verification/Latency.v ===== *)
(** * Rolling statistics and clock estimation

    [crates/oxproto/src/latency.rs]: [Samples], a ring buffer of the last [N]
    samples with its statistics, and [ClockSync], the round-trip and offset
    estimate from ping/pong exchanges ([docs/design/OXPROTO.md] section 12.1).

    The ring buffer is proved to be the last [N] elements of the history, the
    percentile to be the nearest-rank percentile, and the offset estimate to be
    as far from the true offset as half the round trip allows. *)

From stdpp Require Import sorting.
From S2P Require Import Prelude.

(** ** [Samples] *)

Record Samples : Type := mkSamples {
  sm_buf : list Z;
  sm_head : nat;
  sm_len : nat;
  sm_capacity : nat
}.

Definition Samples_new (capacity : nat) : Samples := mkSamples [] 0 0 (Nat.max capacity 1).

(** [buf[i]], which panics out of range. *)
Definition at_idx (l : list Z) (i : nat) : outcome unit Z := expect (l !! i).

Definition samples_push (s : Samples) (value_us : Z) : outcome unit Samples :=
  if (sm_len s <? sm_capacity s)%nat then
    Ok (mkSamples (sm_buf s ++ [value_us]) (sm_head s) (S (sm_len s)) (sm_capacity s))
  else if (sm_head s <? length (sm_buf s))%nat then
    Ok (mkSamples (<[sm_head s := value_us]> (sm_buf s))
          ((sm_head s + 1) mod sm_capacity s) (sm_len s) (sm_capacity s))
  else Panic.

Definition samples_is_empty (s : Samples) : bool := (sm_len s =? 0)%nat.

(** The index of the [i]-th oldest sample. *)
Definition sample_idx (s : Samples) (i : nat) : nat :=
  if (sm_len s <? sm_capacity s)%nat then i else ((sm_head s + i) mod sm_capacity s)%nat.

Fixpoint collect (s : Samples) (idxs : list nat) : outcome unit (list Z) :=
  match idxs with
  | [] => Ok []
  | i :: idxs => x ← at_idx (sm_buf s) (sample_idx s i); xs ← collect s idxs; Ok (x :: xs)
  end.

Definition samples_iter (s : Samples) : outcome unit (list Z) := collect s (seq 0 (sm_len s)).

Definition samples_last (s : Samples) : outcome unit (option Z) :=
  if samples_is_empty s then Ok None
  else
    let idx := if (sm_len s <? sm_capacity s)%nat then (sm_len s - 1)%nat
               else ((sm_head s + sm_capacity s - 1) mod sm_capacity s)%nat in
    v ← at_idx (sm_buf s) idx; Ok (Some v).

Definition samples_mean (s : Samples) : outcome unit (option Z) :=
  if samples_is_empty s then Ok None
  else
    xs ← samples_iter s;
    let sum := fold_left (λ acc x, sat_uint 64 (acc + x)) xs 0 in
    Ok (Some (sum / Z.of_nat (sm_len s))).

(** [Iterator::min] and [max]: [None] on an empty iterator. *)
Definition list_min (xs : list Z) : option Z :=
  match xs with [] => None | x :: xs => Some (fold_left Z.min xs x) end.
Definition list_max (xs : list Z) : option Z :=
  match xs with [] => None | x :: xs => Some (fold_left Z.max xs x) end.

Definition samples_min (s : Samples) : outcome unit (option Z) := xs ← samples_iter s; Ok (list_min xs).
Definition samples_max (s : Samples) : outcome unit (option Z) := xs ← samples_iter s; Ok (list_max xs).

Definition samples_percentile (s : Samples) (p : Z) : outcome unit (option Z) :=
  if samples_is_empty s then Ok None
  else
    let p := Z.min p 100 in
    xs ← samples_iter s;
    let sorted := merge_sort Z.le xs in
    let n := len sorted in
    let rank := Z.max 1 (Z.min (div_ceil (p * n) 100) n) in
    v ← at_idx sorted (Z.to_nat (rank - 1)); Ok (Some v).

(** ** [ClockSync] *)

Record ClockSync : Type := mkClock {
  ck_pending : gmap Z Z;
  ck_rtt : Samples;
  ck_offset : option Z;
  ck_offset_rtt : option Z;
  ck_applied_sent_us : option Z
}.

Definition ClockSync_new (window : nat) : ClockSync := mkClock ∅ (Samples_new window) None None None.

Definition on_ping_sent (c : ClockSync) (seq sent_us : Z) : ClockSync :=
  mkClock (<[seq := sent_us]> (ck_pending c)) (ck_rtt c) (ck_offset c) (ck_offset_rtt c)
    (ck_applied_sent_us c).

Definition on_pong (c : ClockSync) (seq agent_us now_us : Z) : outcome unit (option Z * ClockSync) :=
  match ck_pending c !! seq with
  | None => Ok (None, c)
  | Some sent_us =>
    let rtt := sat_uint 64 (now_us - sent_us) in
    samples ← samples_push (ck_rtt c) rtt;
    let pending := delete seq (ck_pending c) in
    if match ck_applied_sent_us c with None => true | Some applied => applied <=? sent_us end then
      let rtt_half := rtt / 2 in
      let midpoint := sat_uint 64 (sent_us + rtt_half) in
      let offset := sat_sint 64 (agent_us - midpoint) in
      Ok (Some rtt, mkClock pending samples (Some offset) (Some rtt) (Some sent_us))
    else
      Ok (Some rtt, mkClock pending samples (ck_offset c) (ck_offset_rtt c) (ck_applied_sent_us c))
  end.

Definition offset_error_bound_us (c : ClockSync) : option Z := (λ r, r / 2) <$> ck_offset_rtt c.

(** [unsigned_abs] keeps [i64::MIN] from overflowing. *)
Definition agent_to_client (agent_us offset_us : Z) : Z :=
  if 0 <=? offset_us then sat_uint 64 (agent_us - Z.abs offset_us)
  else sat_uint 64 (agent_us + Z.abs offset_us).

Definition clock_agent_to_client (c : ClockSync) (agent_us : Z) : option Z :=
  agent_to_client agent_us <$> ck_offset c.

(** ** The ring buffer is the end of the history *)

Record samples_inv (s : Samples) : Prop := {
  si_cap : (1 ≤ sm_capacity s)%nat;
  si_buf : length (sm_buf s) = sm_len s;
  si_len : (sm_len s ≤ sm_capacity s)%nat;
  si_head : (sm_head s < sm_capacity s)%nat;
  si_wrap : (sm_len s < sm_capacity s)%nat → sm_head s = 0%nat
}.

(** Oldest first. *)
Definition contents (s : Samples) : list Z := drop (sm_head s) (sm_buf s) ++ take (sm_head s) (sm_buf s).

(** The last [n] elements. *)
Definition last_n {A} (n : nat) (l : list A) : list A := drop (length l - n) l.

Fixpoint push_samples (s : Samples) (vs : list Z) : outcome unit Samples :=
  match vs with [] => Ok s | v :: vs => s ← samples_push s v; push_samples s vs end.

Lemma length_contents s : samples_inv s → length (contents s) = sm_len s.
Proof.
  intros [_ Hb Hl Hh Hw]. unfold contents. rewrite length_app, length_drop, length_take. lia.
Qed.

Lemma samples_new_inv n : samples_inv (Samples_new n).
Proof. unfold Samples_new. split; cbn; lia. Qed.

Lemma samples_push_spec s v :
  samples_inv s →
  ∃ s', samples_push s v = Ok s' ∧ samples_inv s' ∧ sm_capacity s' = sm_capacity s ∧
        contents s' = if (sm_len s <? sm_capacity s)%nat then contents s ++ [v]
                      else tail (contents s) ++ [v].
Proof.
  intros [Hc Hb Hl Hh Hw]. unfold samples_push.
  destruct (Nat.ltb_spec (sm_len s) (sm_capacity s)) as [Hlt|Hge].
  - eexists. split_and!; [done| |done|].
    + split; cbn; rewrite ?length_app; cbn; lia.
    + unfold contents; cbn. rewrite (Hw Hlt). cbn. by rewrite !drop_0, !app_nil_r.
  - replace (sm_head s <? length (sm_buf s))%nat with true by (symmetry; apply Nat.ltb_lt; lia).
    assert (length (sm_buf s) = sm_capacity s) as Hbl by lia.
    eexists. split_and!; [done| |done|].
    + split; cbn; rewrite ?length_insert; try lia. apply Nat.mod_upper_bound. lia.
    + unfold contents; cbn.
      destruct (lookup_lt_is_Some_2 (sm_buf s) (sm_head s)) as [x Hx]; [lia|].
      rewrite (drop_S _ _ _ Hx), insert_take_drop by lia. cbn [tail app].
      assert (length (take (sm_head s) (sm_buf s)) = sm_head s) as Ht by (rewrite length_take; lia).
      set (t := take (sm_head s) (sm_buf s)) in *. set (d := drop (S (sm_head s)) (sm_buf s)) in *.
      assert (length d = sm_capacity s - S (sm_head s))%nat as Hd by (subst d; rewrite length_drop; lia).
      destruct (Nat.eq_dec (sm_head s + 1) (sm_capacity s)) as [He|He].
      * rewrite He, Nat.Div0.mod_same, drop_0, take_0, app_nil_r.
        destruct d; [|cbn in Hd; lia]. cbn. done.
      * rewrite Nat.mod_small by lia.
        change (v :: d) with ([v] ++ d). rewrite app_assoc.
        replace (sm_head s + 1)%nat with (length (t ++ [v])) by (rewrite length_app; cbn; lia).
        rewrite drop_app_length, take_app_length. by rewrite app_assoc.
Qed.

Lemma contents_lookup s i :
  samples_inv s → (i < sm_len s)%nat → contents s !! i = sm_buf s !! sample_idx s i.
Proof.
  intros [Hc Hb Hl Hh Hw] Hi. unfold contents, sample_idx.
  destruct (Nat.ltb_spec (sm_len s) (sm_capacity s)) as [Hlt|Hge].
  - rewrite (Hw Hlt), drop_0. by rewrite app_nil_r.
  - assert (sm_len s = sm_capacity s) as He by lia.
    destruct (Nat.lt_ge_cases (sm_head s + i) (sm_capacity s)).
    + rewrite Nat.mod_small by done. rewrite lookup_app_l by (rewrite length_drop; lia).
      by rewrite lookup_drop.
    + rewrite lookup_app_r by (rewrite length_drop; lia). rewrite length_drop, Hb, He.
      replace (sm_head s + i)%nat with (i - (sm_capacity s - sm_head s) + 1 * sm_capacity s)%nat by lia.
      rewrite Nat.Div0.mod_add, Nat.mod_small by lia. apply lookup_take_lt. lia.
Qed.

Lemma collect_seq s a n :
  samples_inv s → (a + n ≤ sm_len s)%nat → collect s (seq a n) = Ok (take n (drop a (contents s))).
Proof.
  intros Hs. revert a. induction n as [|n IH]; intros a Hl; [done|]. cbn [seq collect].
  assert (a < length (contents s))%nat as Ha by (rewrite length_contents; [lia|done]).
  destruct (lookup_lt_is_Some_2 _ _ Ha) as [x Hx]. unfold at_idx.
  rewrite <- contents_lookup by (done || lia). rewrite Hx. cbn [expect mbind outcome_bind].
  rewrite IH by lia. cbn [mbind outcome_bind]. by rewrite (drop_S _ _ _ Hx).
Qed.

Lemma samples_iter_contents s : samples_inv s → samples_iter s = Ok (contents s).
Proof.
  intros Hs. unfold samples_iter. rewrite collect_seq by (done || lia). rewrite drop_0.
  by rewrite take_ge by (rewrite length_contents; [lia|done]).
Qed.

Lemma last_n_snoc {A} n (l : list A) x :
  (1 ≤ n)%nat →
  last_n n (l ++ [x]) = (if (length l <? n)%nat then last_n n l else tail (last_n n l)) ++ [x].
Proof.
  intros Hn. unfold last_n. rewrite length_app. cbn [length].
  destruct (Nat.ltb_spec (length l) n) as [Hlt|Hge].
  - replace (length l + 1 - n)%nat with 0%nat by lia. replace (length l - n)%nat with 0%nat by lia.
    by rewrite !drop_0.
  - replace (length l + 1 - n)%nat with (S (length l - n)) by lia.
    destruct (lookup_lt_is_Some_2 l (length l - n)) as [y Hy]; [lia|].
    rewrite (drop_S _ _ _ Hy). cbn [tail]. apply drop_app_le. lia.
Qed.

Lemma length_last_n {A} n (l : list A) : length (last_n n l) = Nat.min n (length l).
Proof. unfold last_n. rewrite length_drop. lia. Qed.

Lemma push_samples_history vs s hist :
  samples_inv s → contents s = last_n (sm_capacity s) hist →
  ∃ s', push_samples s vs = Ok s' ∧ samples_inv s' ∧ sm_capacity s' = sm_capacity s ∧
        contents s' = last_n (sm_capacity s) (hist ++ vs).
Proof.
  revert s hist. induction vs as [|v vs IH]; intros s hist Hs Hc; cbn [push_samples].
  { exists s. by rewrite app_nil_r. }
  destruct (samples_push_spec s v Hs) as (s1 & -> & Hs1 & Hcap & Hc1). cbn [mbind outcome_bind].
  destruct (IH s1 (hist ++ [v]) Hs1) as (s2 & E & Hs2 & Hcap2 & Hc2).
  - rewrite Hc1, Hcap, last_n_snoc by apply Hs. rewrite <- Hc.
    pose proof (length_contents s Hs) as Hl. rewrite Hc, length_last_n in Hl.
    pose proof (si_cap s Hs).
    destruct (Nat.ltb_spec (sm_len s) (sm_capacity s)), (Nat.ltb_spec (length hist) (sm_capacity s));
      try done; lia.
  - exists s2. rewrite Hcap in *. rewrite <- app_assoc in Hc2. by split_and!.
Qed.

(** ** Percentiles *)

Definition count (f : Z → bool) (l : list Z) : Z := len (List.filter f l).

Lemma count_perm f l1 l2 : l1 ≡ₚ l2 → count f l1 = count f l2.
Proof.
  unfold count, len. intros Hp. f_equal. induction Hp; cbn; repeat case_match; cbn; congruence.
Qed.

Lemma count_app f l1 l2 : count f (l1 ++ l2) = count f l1 + count f l2.
Proof. unfold count. rewrite List.filter_app. apply len_app. Qed.

Lemma count_all f l : Forall (λ x, f x = true) l → count f l = len l.
Proof.
  unfold count. induction 1 as [|x l Hx _ IH]; [done|]. cbn. rewrite Hx. by rewrite !len_cons, IH.
Qed.

Lemma count_none f l : Forall (λ x, f x = false) l → count f l = 0.
Proof. unfold count. induction 1 as [|x l Hx _ IH]; [done|]. cbn. by rewrite Hx. Qed.

Lemma count_nonneg f l : 0 ≤ count f l.
Proof. apply len_nonneg. Qed.

(** In a sorted list, the element at [k] has at least [k + 1] elements up to it
    and at most [k] below it. *)
Lemma sorted_rank l k v :
  StronglySorted Z.le l → l !! k = Some v →
  Z.of_nat k + 1 ≤ count (λ x, x <=? v) l ∧ count (λ x, x <? v) l ≤ Z.of_nat k.
Proof.
  intros Hs Hk. rewrite <- (take_drop_middle _ _ _ Hk) in Hs |- *.
  assert (length (take k l) = k) as Ht.
  { rewrite length_take. apply lookup_lt_Some in Hk. lia. }
  apply StronglySorted_app in Hs as (Hcross & _ & Hs2).
  apply StronglySorted_inv in Hs2 as [_ Hafter].
  assert (Forall (λ x, x ≤ v) (take k l)) as Hbefore.
  { apply Forall_forall. intros x Hx. apply Hcross; [done|]. apply elem_of_cons. auto. }
  rewrite !count_app.
  change (v :: drop (S k) l) with ([v] ++ drop (S k) l). rewrite !count_app.
  rewrite (count_all _ (take k l)).
  2: { eapply Forall_impl; [exact Hbefore|]. cbn. intros. by apply Z.leb_le. }
  rewrite (count_all (λ x, x <=? v) [v]) by (repeat constructor; by apply Z.leb_le).
  rewrite (count_none (λ x, x <? v) [v]) by (repeat constructor; apply Z.ltb_irrefl).
  rewrite (count_none (λ x, x <? v) (drop (S k) l)).
  2: { eapply Forall_impl; [exact Hafter|]. cbn. intros. by apply Z.ltb_ge. }
  pose proof (count_nonneg (λ x, x <=? v) (drop (S k) l)).
  assert (count (λ x, x <? v) (take k l) ≤ Z.of_nat k).
  { unfold count, len. pose proof (filter_length_le (λ x, x <? v) (take k l)). lia. }
  unfold len. cbn [length]. lia.
Qed.

Lemma div_ceil_spec a b : 0 < b → b * (div_ceil a b - 1) < a ≤ b * div_ceil a b.
Proof.
  intros Hb. unfold div_ceil. pose proof (Z.div_mod (a + b - 1) b).
  pose proof (Z.mod_pos_bound (a + b - 1) b Hb). nia.
Qed.

Lemma percentile_value s p :
  samples_inv s → (0 < sm_len s)%nat → 0 ≤ p →
  ∃ v, samples_percentile s p = Ok (Some v) ∧ v ∈ contents s ∧
       Z.min p 100 * Z.of_nat (sm_len s) ≤ 100 * count (λ x, x <=? v) (contents s) ∧
       (0 < p → 100 * count (λ x, x <? v) (contents s) < Z.min p 100 * Z.of_nat (sm_len s)).
Proof.
  intros Hs Hl Hp. unfold samples_percentile, samples_is_empty.
  replace (sm_len s =? 0)%nat with false by (symmetry; apply Nat.eqb_neq; lia).
  rewrite samples_iter_contents by done. unfold mbind, outcome_bind.
  set (sorted := merge_sort Z.le (contents s)).
  assert (sorted ≡ₚ contents s) as Hperm by apply merge_sort_Permutation.
  assert (StronglySorted Z.le sorted) as Hsorted by (apply StronglySorted_merge_sort; apply _).
  assert (len sorted = Z.of_nat (sm_len s)) as Hlen.
  { unfold len. by rewrite Hperm, length_contents. }
  rewrite Hlen. set (n := Z.of_nat (sm_len s)). set (q := Z.min p 100).
  pose proof (div_ceil_spec (q * n) 100 ltac:(lia)) as Hc.
  assert (div_ceil (q * n) 100 ≤ n) as Hle by nia.
  set (rank := Z.max 1 (Z.min (div_ceil (q * n) 100) n)).
  destruct (lookup_lt_is_Some_2 sorted (Z.to_nat (rank - 1))) as [v Hv].
  { unfold len in Hlen. lia. }
  unfold at_idx. rewrite Hv. cbn [expect]. exists v.
  destruct (sorted_rank sorted _ _ Hsorted Hv) as [H1 H2].
  rewrite !(count_perm _ _ _ Hperm) in *. split_and!; [done| |lia|].
  - rewrite <- Hperm. by eapply list_elem_of_lookup_2.
  - intros Hp0. assert (1 ≤ div_ceil (q * n) 100) by nia. lia.
Qed.

(** ** Clock lemmas *)

Lemma sat_uint_id w x : is_uint w x → sat_uint w x = x.
Proof. unfold is_uint, sat_uint. lia. Qed.

Lemma sat_sint_id w x : is_sint w x → sat_sint w x = x.
Proof. unfold is_sint, sat_sint. lia. Qed.

(** ** Sums and extremes *)

Lemma fold_min_spec xs x :
  let m := fold_left Z.min xs x in m ∈ x :: xs ∧ Forall (λ y, m ≤ y) (x :: xs).
Proof.
  revert x. induction xs as [|y xs IH]; intros x; cbn.
  { split; [apply elem_of_cons; auto|by repeat constructor]. }
  destruct (IH (Z.min x y)) as [H1 H2]. apply Forall_cons in H2 as [H2 H3]. split.
  - apply elem_of_cons in H1 as [H1|H1]; [|rewrite !elem_of_cons; auto].
    rewrite H1. rewrite !elem_of_cons. destruct (Z.min_spec x y) as [[_ ->]|[_ ->]]; auto.
  - repeat constructor; [lia|lia|done].
Qed.

Lemma fold_max_spec xs x :
  let m := fold_left Z.max xs x in m ∈ x :: xs ∧ Forall (λ y, y ≤ m) (x :: xs).
Proof.
  revert x. induction xs as [|y xs IH]; intros x; cbn.
  { split; [apply elem_of_cons; auto|by repeat constructor]. }
  destruct (IH (Z.max x y)) as [H1 H2]. apply Forall_cons in H2 as [H2 H3]. split.
  - apply elem_of_cons in H1 as [H1|H1]; [|rewrite !elem_of_cons; auto].
    rewrite H1. rewrite !elem_of_cons. destruct (Z.max_spec x y) as [[_ ->]|[_ ->]]; auto.
  - repeat constructor; [lia|lia|done].
Qed.

Definition sum (xs : list Z) : Z := foldr Z.add 0 xs.

Lemma sum_nonneg xs : Forall (λ x, 0 ≤ x) xs → 0 ≤ sum xs.
Proof. unfold sum. induction 1; cbn; lia. Qed.

Lemma fold_sat_sum xs acc :
  0 ≤ acc → Forall (λ x, 0 ≤ x) xs → acc + sum xs < 2 ^ 64 →
  fold_left (λ acc x, sat_uint 64 (acc + x)) xs acc = acc + sum xs.
Proof.
  revert acc. induction xs as [|x xs IH]; intros acc Ha Hx Hs; cbn in *; [lia|].
  apply Forall_cons in Hx as [Hx Hxs].
  pose proof (sum_nonneg xs Hxs). fold (sum xs) in Hs.
  rewrite sat_uint_id by (unfold is_uint; lia). rewrite IH by (done || lia).
  unfold sum. lia.
Qed.

(** ** Properties *)

(** The ring buffer never panics and always holds exactly the last
    [capacity] values recorded, oldest first, whatever their number; [iter]
    yields them in that order. *)
Theorem samples_are_last_n capacity vs :
  ∃ s, push_samples (Samples_new capacity) vs = Ok s ∧ samples_inv s ∧
       samples_iter s = Ok (last_n (Nat.max capacity 1) vs).
Proof.
  destruct (push_samples_history vs (Samples_new capacity) [] (samples_new_inv capacity))
    as (s & E & Hs & _ & Hc); [done|].
  exists s. rewrite samples_iter_contents by done. by rewrite Hc.
Qed.

(** [percentile] is the nearest-rank percentile of the samples held: it is
    one of them, at least p% of them are no larger, and (for p above 0) fewer
    than p% of them are smaller; a p above 100 is taken as 100. *)
Theorem percentile_nearest_rank s p :
  samples_inv s → (0 < sm_len s)%nat → 0 ≤ p →
  ∃ v, samples_percentile s p = Ok (Some v) ∧ v ∈ contents s ∧
       Z.min p 100 * Z.of_nat (sm_len s) ≤ 100 * count (λ x, x <=? v) (contents s) ∧
       (0 < p → 100 * count (λ x, x <? v) (contents s) < Z.min p 100 * Z.of_nat (sm_len s)).
Proof. apply percentile_value. Qed.

Lemma percentile_nearest_rank_witness :
  ∃ v, samples_percentile (mkSamples [30; 10; 20] 0 3 3) 50 = Ok (Some v) ∧ v ∈ [30; 10; 20].
Proof.
  destruct (percentile_nearest_rank (mkSamples [30; 10; 20] 0 3 3) 50) as (v & H1 & H2 & _).
  - split; cbn; lia.
  - cbn. lia.
  - lia.
  - exists v. exact (conj H1 H2).
Defined.

(** The estimate is as good as the round trip.  If the agent's clock is
    [theta] ahead, the ping took [d1] and the pong [d2], then a pong at least as
    recent as the last one applied sets an offset that is off by at most the
    round trip less its half rounded down - exact when the two delays are equal -
    and [offset_error_bound_us] is half the round trip of that same exchange,
    rounded down. *)
Theorem offset_error_bounded c seq sent d1 d2 theta :
  samples_inv (ck_rtt c) → ck_pending c !! seq = Some sent →
  match ck_applied_sent_us c with Some a => a ≤ sent | None => True end →
  0 ≤ d1 → 0 ≤ d2 → u64 sent → u64 (sent + d1 + d2) →
  i64 (d1 + theta - (d1 + d2) / 2) →
  ∃ c' o, on_pong c seq (sent + d1 + theta) (sent + d1 + d2) = Ok (Some (d1 + d2), c') ∧
    ck_offset c' = Some o ∧ offset_error_bound_us c' = Some ((d1 + d2) / 2) ∧
    Z.abs (o - theta) ≤ d1 + d2 - (d1 + d2) / 2 ∧ (d1 = d2 → o = theta).
Proof.
  intros Hs Hp Ha H1 H2 Hu Hu2 Hi. unfold on_pong. rewrite Hp.
  replace (sent + d1 + d2 - sent) with (d1 + d2) by lia.
  rewrite (sat_uint_id 64 (d1 + d2)) by len_lia.
  destruct (samples_push_spec (ck_rtt c) (d1 + d2) Hs) as (s' & -> & _). cbn [mbind outcome_bind].
  replace (match ck_applied_sent_us c with None => true | Some applied => applied <=? sent end)
    with true by (destruct (ck_applied_sent_us c); [symmetry; by apply Z.leb_le|done]).
  assert (0 ≤ (d1 + d2) / 2 ≤ d1 + d2) as Hh.
  { split; [apply Z.div_pos; lia|]. apply Z.div_le_upper_bound; lia. }
  rewrite (sat_uint_id 64 (sent + _)) by len_lia.
  replace (sent + d1 + theta - (sent + (d1 + d2) / 2)) with (d1 + theta - (d1 + d2) / 2) by lia.
  rewrite sat_sint_id by done.
  eexists _, _. split_and!; [done..| |].
  - pose proof (Z.mul_div_le (d1 + d2) 2 ltac:(lia)). lia.
  - intros <-. replace (d1 + d1) with (d1 * 2) by lia. rewrite Z.div_mul by lia. lia.
Qed.

Definition clock_example : ClockSync := on_ping_sent (ClockSync_new 4) 1 100.

Lemma offset_error_bounded_witness :
  ∃ c' o, on_pong clock_example 1 (100 + 7 + 5000) (100 + 7 + 3) = Ok (Some 10, c') ∧
          ck_offset c' = Some o ∧ Z.abs (o - 5000) ≤ 5.
Proof.
  destruct (offset_error_bounded clock_example 1 100 7 3 5000) as (c' & o & E1 & E2 & _ & E3 & _).
  - apply samples_new_inv.
  - reflexivity.
  - exact I.
  - lia.
  - lia.
  - split; vm_compute; congruence.
  - split; vm_compute; congruence.
  - split; vm_compute; congruence.
  - exists c', o. exact (conj E1 (conj E2 E3)).
Defined.

(** The bound of the estimate is rounded down, so on an odd round trip it
    can be one microsecond short of the actual error: with the whole delay on
    the way to the agent, the offset is off by one more than the bound. *)
Theorem offset_bound_one_short :
  ∃ c', on_pong (on_ping_sent (ClockSync_new 4) 1 100) 1 (100 + 3 + 5000) (100 + 3) = Ok (Some 3, c') ∧
        ck_offset c' = Some (5000 + 2) ∧ offset_error_bound_us c' = Some 1.
Proof. eexists. split_and!; vm_compute; reflexivity. Qed.

(** Pongs that should not count do not: one for a ping never sent, or
    already answered, changes nothing; one for an older ping than the one the
    estimate rests on adds a round-trip sample and leaves the estimate and its
    bound alone; and each ping is answered at most once. *)
Theorem pong_never_regresses c seq agent_us now_us :
  samples_inv (ck_rtt c) →
  (ck_pending c !! seq = None → on_pong c seq agent_us now_us = Ok (None, c)) ∧
  (∀ sent, ck_pending c !! seq = Some sent →
   ∃ rtt c', on_pong c seq agent_us now_us = Ok (Some rtt, c') ∧
     ck_pending c' = delete seq (ck_pending c) ∧ samples_inv (ck_rtt c') ∧
     (∀ applied, ck_applied_sent_us c = Some applied → sent < applied →
        ck_offset c' = ck_offset c ∧ offset_error_bound_us c' = offset_error_bound_us c ∧
        ck_applied_sent_us c' = Some applied)).
Proof.
  intros Hs. unfold on_pong. split; [by intros ->|]. intros sent ->.
  destruct (samples_push_spec (ck_rtt c) (sat_uint 64 (now_us - sent)) Hs) as (s' & -> & Hs' & _).
  cbn [mbind outcome_bind]. case_if; eexists _, _; (split_and!; [done..|]).
  - intros a Ha Hlt. rewrite Ha in *. bool_to_prop. lia.
  - intros a Ha Hlt. unfold offset_error_bound_us; cbn. by rewrite Ha.
Qed.

Lemma pong_never_regresses_witness : on_pong clock_example 2 0 200 = Ok (None, clock_example).
Proof. exact (proj1 (pong_never_regresses clock_example 2 0 200 (samples_new_inv 4)) eq_refl). Defined.

(** Converting an agent timestamp back with the offset it was taken at is exact
    as long as both clocks read a [u64]. *)
Lemma agent_to_client_exact t offset :
  u64 t → u64 (t + offset) → agent_to_client (t + offset) offset = t.
Proof.
  intros Ht Ho. unfold agent_to_client. destruct (Z.leb_spec 0 offset).
  - rewrite Z.abs_eq by lia. rewrite sat_uint_id; [lia|]. by replace (t + offset - offset) with t by lia.
  - rewrite Z.abs_neq by lia. rewrite sat_uint_id; [lia|]. by replace (t + offset + - offset) with t by lia.
Qed.

(** The statistics of a non-empty window are those of the samples held: the
    last one is the newest, the minimum and maximum are attained and bound all
    the others, and the mean is the sum divided by the number of samples as long
    as the sum fits a [u64]. *)
Lemma samples_statistics s :
  samples_inv s → (0 < sm_len s)%nat → Forall (λ x, 0 ≤ x) (contents s) → sum (contents s) < 2 ^ 64 →
  ∃ newest lo hi,
    samples_last s = Ok (Some newest) ∧ last (contents s) = Some newest ∧
    samples_min s = Ok (Some lo) ∧ lo ∈ contents s ∧ Forall (λ x, lo ≤ x) (contents s) ∧
    samples_max s = Ok (Some hi) ∧ hi ∈ contents s ∧ Forall (λ x, x ≤ hi) (contents s) ∧
    samples_mean s = Ok (Some (sum (contents s) / Z.of_nat (sm_len s))).
Proof.
  intros Hs Hl Hpos Hsum. pose proof (length_contents s Hs) as Hlen.
  assert (last (contents s) = contents s !! (sm_len s - 1)%nat) as Hlast.
  { rewrite last_lookup, Hlen. f_equal. lia. }
  destruct (lookup_lt_is_Some_2 (contents s) (sm_len s - 1)) as [v Hv]; [lia|].
  unfold samples_last, samples_min, samples_max, samples_mean, samples_is_empty.
  replace (sm_len s =? 0)%nat with false by (symmetry; apply Nat.eqb_neq; lia).
  rewrite samples_iter_contents by done. unfold mbind, outcome_bind.
  rewrite fold_sat_sum by (done || lia).
  rewrite contents_lookup in Hv by (done || lia).
  destruct (contents s) as [|x xs] eqn:Ec; [cbn in Hlen; lia|].
  destruct (fold_min_spec xs x) as [M1 M2]. destruct (fold_max_spec xs x) as [X1 X2].
  exists v, (fold_left Z.min xs x), (fold_left Z.max xs x). split_and!; auto.
  - replace (if (sm_len s <? sm_capacity s)%nat then (sm_len s - 1)%nat
             else ((sm_head s + sm_capacity s - 1) mod sm_capacity s)%nat)
      with (sample_idx s (sm_len s - 1)).
    { unfold at_idx. by rewrite Hv. }
    unfold sample_idx. destruct (Nat.ltb_spec (sm_len s) (sm_capacity s)); [done|].
    f_equal. pose proof (si_len s Hs). lia.
  - rewrite Hlast, <- Ec, contents_lookup by (done || lia). done.
Qed.
