(* ===== verification/Session.v ===== *)
(** * The client session

    [crates/oxclient/src/session.rs] after the handshake: the event loop of
    [ClientSession::next_event] with the pings it answers and the pongs it
    takes, [send], [ping], and [OffsetEstimate], the choice of the exchange the
    clock offset is taken from.

    A turn of the loop awaits writes, then reads, then may read the clock; a
    call is given one schedule per turn.  A call whose schedules run out is a
    future that is not polled again, the same as a dropped one. *)

From S2P Require Import Prelude Cursor Wire MsgType MsgControl MsgInput MsgWindow.
From S2P Require Import Envelope Reassembly ProtoMessage Transport Model Latency.

(** ** [OffsetSample] and [OffsetEstimate] *)

Definition RTT_WINDOW : nat := 128.
Definition OFFSET_CANDIDATES : nat := 64.
Definition CLOCK_DRIFT_PPM : Z := 100.

Record OffsetSample : Type := mkOffsetSample {
  os_rtt_us : Z;
  os_offset_us : Z;
  os_taken_at_us : Z
}.

(** The sum of the two terms is a plain [u64] addition. *)
Definition error_bound_us (s : OffsetSample) (now_us : Z) : outcome unit Z :=
  let age_us := sat_uint 64 (now_us - os_taken_at_us s) in
  add_uint 64 (os_rtt_us s / 2) (sat_uint 64 (age_us * CLOCK_DRIFT_PPM) / 1000000).

Definition estimate_push (recent : list OffsetSample) (sample : OffsetSample) : list OffsetSample :=
  (if (OFFSET_CANDIDATES <=? length recent)%nat then tail recent else recent) ++ [sample].

(** [min_by_key]: the first of the smallest, with the key of each computed. *)
Fixpoint min_by_bound (now_us : Z) (best : OffsetSample) (key : Z) (l : list OffsetSample)
    : outcome unit OffsetSample :=
  match l with
  | [] => Ok best
  | s :: l =>
    k ← error_bound_us s now_us;
    if k <? key then min_by_bound now_us s k l else min_by_bound now_us best key l
  end.

Definition estimate_best (recent : list OffsetSample) (now_us : Z) : outcome unit (option OffsetSample) :=
  match recent with
  | [] => Ok None
  | s :: l => k ← error_bound_us s now_us; b ← min_by_bound now_us s k l; Ok (Some b)
  end.

(** ** The session

    [pending_out] and [pending_written] are a [ChunkWriter] by another name, and
    [queue] and [flush_pending] are its operations, line by line. *)
Record ClientSession : Type := mkClient {
  cs_reassembler : Reassembler;
  cs_chunks : ChunkReader;
  cs_out : ChunkWriter;
  cs_clock_sync : ClockSync;
  cs_offsets : list OffsetSample;
  cs_ping_seq : Z
}.

(** What [connect] leaves: the reassembler of the handshake, the rest fresh. *)
Definition session_start (ra : Reassembler) : ClientSession :=
  mkClient ra ChunkReader_new ChunkWriter_new (ClockSync_new RTT_WINDOW) [] 0.

Definition set_out (s : ClientSession) (w : ChunkWriter) : ClientSession :=
  mkClient (cs_reassembler s) (cs_chunks s) w (cs_clock_sync s) (cs_offsets s) (cs_ping_seq s).
Definition set_read (s : ClientSession) (cr : ChunkReader) (ra : Reassembler) : ClientSession :=
  mkClient ra cr (cs_out s) (cs_clock_sync s) (cs_offsets s) (cs_ping_seq s).
Definition set_clock (s : ClientSession) (c : ClockSync) (offsets : list OffsetSample) : ClientSession :=
  mkClient (cs_reassembler s) (cs_chunks s) (cs_out s) c offsets (cs_ping_seq s).

Definition session_queue (w : ChunkWriter) (msg : Message.t) : ChunkWriter * io_result unit :=
  queue_message w msg channel.CONTROL.
Definition flush_pending (evs : list write_event) (w : ChunkWriter) (wire : list Z) :=
  flush evs w wire.

Definition send (s : ClientSession) (msg : Message.t) (evs : list write_event) (wire : list Z)
    : ClientSession * list Z * io_result unit :=
  match session_queue (cs_out s) msg with
  | (w, Done _) =>
    let '(w, wire, r) := flush_pending evs w wire in (set_out s w, wire, r)
  | (w, r) => (set_out s w, wire, r)
  end.

(** [ping]: the sequence number wraps, the ping is registered, then sent. *)
Definition ping (s : ClientSession) (now_us : Z) (evs : list write_event) (wire : list Z)
    : ClientSession * list Z * io_result unit :=
  let seq := cs_ping_seq s in
  let s := mkClient (cs_reassembler s) (cs_chunks s) (cs_out s)
             (on_ping_sent (cs_clock_sync s) seq now_us) (cs_offsets s) (as_uint 32 (seq + 1)) in
  send s (Message.Ping (mkPing seq now_us)) evs wire.

(** The [Message::Pong] arm. *)
Definition take_pong (s : ClientSession) (p : Pong) (now_us : Z) : outcome unit ClientSession :=
  r ← on_pong (cs_clock_sync s) (pong_seq p) (pong_agent_us p) now_us;
  let '(rtt, c) := r in
  Ok (set_clock s c
        match rtt with
        | Some rtt_us =>
          match ck_offset c with
          | Some offset_us => estimate_push (cs_offsets s) (mkOffsetSample rtt_us offset_us now_us)
          | None => cs_offsets s
          end
        | None => cs_offsets s
        end).

Definition pong_of (p : Ping) : Message.t := Message.Pong (mkPong (ping_seq p) (ping_sent_us p) 0).

(** The arms that surface an event. *)
Definition event_of (m : Message.t) : option ClientEvent.t :=
  match m with
  | Message.WindowOpened m => Some (ClientEvent.WindowOpened m)
  | Message.WindowGeometry m => Some (ClientEvent.WindowGeometry m)
  | Message.WindowTitle m => Some (ClientEvent.WindowTitle m)
  | Message.WindowState m => Some (ClientEvent.WindowState m)
  | Message.WindowZOrder m => Some (ClientEvent.WindowZOrder m)
  | Message.WindowIcon m => Some (ClientEvent.WindowIcon m)
  | Message.WindowClosed m => Some (ClientEvent.WindowClosed m)
  | Message.FrameData m => Some (ClientEvent.Frame m)
  | Message.CursorShape m => Some (ClientEvent.CursorShape m)
  | Message.CursorPosition m => Some (ClientEvent.CursorPosition m)
  | Message.CursorVisibility m => Some (ClientEvent.CursorVisibility m)
  | Message.Error m => Some (ClientEvent.Error m)
  | Message.Close m => Some (ClientEvent.Closed m)
  | _ => None
  end.

(** The [match] of the loop: [None] is its [continue]. *)
Definition on_message (s : ClientSession) (m : Message.t) (now_us : Z)
    : ClientSession * option (io_result (option ClientEvent.t)) :=
  match m with
  | Message.Ping p =>
    match session_queue (cs_out s) (pong_of p) with
    | (w, Done _) => (set_out s w, None)
    | (w, IoErr k) => (set_out s w, Some (IoErr k))
    | (w, Dropped) => (set_out s w, Some Dropped)
    | (w, Panicked) => (set_out s w, Some Panicked)
    end
  | Message.Pong p =>
    match take_pong s p now_us with
    | Ok s => (s, None)
    | _ => (s, Some Panicked)
    end
  | _ =>
    match event_of m with
    | Some e => (s, Some (Done (Some e)))
    | None => (s, None)
    end
  end.

(** What one turn of the loop meets: writes, reads, and the clock. *)
Record turn : Type := mkTurn { t_writes : list write_event; t_reads : list read_event; t_now : Z }.

Fixpoint next_event (turns : list turn) (s : ClientSession) (sock wire : list Z)
    : ClientSession * list Z * list Z * io_result (option ClientEvent.t) :=
  match turns with
  | [] => (s, sock, wire, Dropped)
  | t :: turns =>
    match flush_pending (t_writes t) (cs_out s) wire with
    | (w, wire, IoErr k) => (set_out s w, sock, wire, IoErr k)
    | (w, wire, Dropped) => (set_out s w, sock, wire, Dropped)
    | (w, wire, Panicked) => (set_out s w, sock, wire, Panicked)
    | (w, wire, Done _) =>
      let s := set_out s w in
      match next_message (cs_chunks s) (cs_reassembler s) sock (t_reads t) with
      | (cr, ra, sock, _, IoErr UnexpectedEof) => (set_read s cr ra, sock, wire, Done None)
      | (cr, ra, sock, _, IoErr k) => (set_read s cr ra, sock, wire, IoErr k)
      | (cr, ra, sock, _, Dropped) => (set_read s cr ra, sock, wire, Dropped)
      | (cr, ra, sock, _, Panicked) => (set_read s cr ra, sock, wire, Panicked)
      | (cr, ra, sock, _, Done raw) =>
        let s := set_read s cr ra in
        match Message.decode_known (raw_type raw) (raw_payload raw) with
        | Err _ => (s, sock, wire, IoErr InvalidData)
        | Panic => (s, sock, wire, Panicked)
        | Ok None => next_event turns s sock wire
        | Ok (Some m) =>
          match on_message s m (t_now t) with
          | (s, None) => next_event turns s sock wire
          | (s, Some r) => (s, sock, wire, r)
          end
        end
      end
    end
  end.

(** [clock_offset_us] and [offset_error_bound_us] at a reading of the clock. *)
Definition clock_offset_us (s : ClientSession) (now_us : Z) : outcome unit (option Z) :=
  b ← estimate_best (cs_offsets s) now_us; Ok match b with Some b => Some (os_offset_us b) | None => None end.

Definition session_error_bound_us (s : ClientSession) (now_us : Z) : outcome unit (option Z) :=
  b ← estimate_best (cs_offsets s) now_us;
  match b with
  | Some b => k ← error_bound_us b now_us; Ok (Some k)
  | None => Ok None
  end.

(** ** Specification: what a stream of messages means to a session *)

(** The events it surfaces, up to a message that does not decode. *)
Fixpoint session_events (ms : list RawMessage) : list ClientEvent.t :=
  match ms with
  | [] => []
  | raw :: ms =>
    match Message.decode_known (raw_type raw) (raw_payload raw) with
    | Ok (Some m) => option_list (event_of m) ++ session_events ms
    | Ok None => session_events ms
    | _ => []
    end
  end.

(** The answer a message calls for, and all the answers, as bytes. *)
Definition answer (m : Message.t) : list Z :=
  match m with Message.Ping p => op_bytes (QueueMessage (pong_of p) channel.CONTROL) | _ => [] end.

Fixpoint session_answers (ms : list RawMessage) : list Z :=
  match ms with
  | [] => []
  | raw :: ms =>
    match Message.decode_known (raw_type raw) (raw_payload raw) with
    | Ok (Some m) => answer m ++ session_answers ms
    | Ok None => session_answers ms
    | _ => []
    end
  end.

(** ** Invariant *)

(** The messages still to come: in the reader, and on the socket. *)
Definition held (s : ClientSession) (sock : list Z) : list RawMessage :=
  drain (cs_reassembler s) (absorbed (cs_chunks s) ++ sock).

Record session_inv (s : ClientSession) (sock : list Z) : Prop := {
  se_reader : reader_inv (cs_chunks s);
  se_reasm : reasm_inv (cs_reassembler s);
  se_stream : Forall u8 (absorbed (cs_chunks s) ++ sock);
  se_held : Forall (λ m, Forall u8 (raw_payload m)) (held s sock);
  se_out : writer_inv (cs_out s);
  se_rtt : samples_inv (ck_rtt (cs_clock_sync s))
}.

Lemma drain_u8 ra sock :
  reasm_inv ra → reasm_u8 ra → Forall u8 sock →
  Forall (λ m, Forall u8 (raw_payload m)) (drain ra sock).
Proof.
  remember (length sock) as n eqn:Hn. revert ra sock Hn.
  induction n as [n IH] using (well_founded_induction Nat.lt_wf_0). intros ra sock Hn Hr Hru Hu.
  rewrite drain_eq by done. pose proof (read_reassembled_total ra sock Hr Hru Hu) as H.
  destruct (read_reassembled ra sock) as [[ra' rest] [m|k| |]]; [|constructor..].
  destruct H as (H1 & H2 & H3 & H4 & H5). constructor; [done|]. by eapply (IH (length rest)); [lia|..].
Qed.

Lemma session_inv_start ra sock :
  reasm_inv ra → reasm_u8 ra → Forall u8 sock → session_inv (session_start ra) sock.
Proof.
  intros. split; cbn; [apply reader_inv_new|done|done|by apply drain_u8|by split|apply samples_new_inv].
Qed.

(** The state after a flush, a read, an answer and a pong. *)
Lemma session_inv_out s sock w : session_inv s sock → writer_inv w → session_inv (set_out s w) sock.
Proof. intros [] ?. by split. Qed.

Lemma session_inv_clock s sock c o :
  session_inv s sock → samples_inv (ck_rtt c) → session_inv (set_clock s c o) sock.
Proof. intros [] ?. by split. Qed.

Lemma take_pong_ok s sock p now :
  session_inv s sock →
  ∃ c o, take_pong s p now = Ok (set_clock s c o) ∧ samples_inv (ck_rtt c).
Proof.
  intros Hs. unfold take_pong, on_pong.
  destruct (ck_pending (cs_clock_sync s) !! pong_seq p) as [sent|].
  - destruct (samples_push_spec (ck_rtt (cs_clock_sync s)) (sat_uint 64 (now - sent)) (se_rtt _ _ Hs))
      as (sm & -> & Hsm & _). cbn [mbind outcome_bind].
    case_if; cbn [mbind outcome_bind]; eexists _, _; split; done.
  - cbn [mbind outcome_bind]. eexists _, _. split; [done|]. apply Hs.
Qed.

(** A decoded ping is answered: its pong always fits. *)
Lemma pong_of_wf p : Ping_wf p → Message.wf (pong_of p).
Proof. intros [? ?]. cbn. unfold Pong_wf. cbn. split_and!; [done|done|len_lia]. Qed.

Lemma queue_pong w p :
  Ping_wf p → writer_inv w →
  ∃ w', session_queue w (pong_of p) = (w', Done tt) ∧ writer_inv w' ∧
        unsent w' = unsent w ++ answer (Message.Ping p).
Proof.
  intros Hp Hw. unfold session_queue, queue_message, answer, op_bytes.
  pose proof (queue_chunks_spec w (Message.to_chunks (pong_of p) channel.CONTROL) Hw) as [H1 H2].
  rewrite to_chunks_wire in * by (by apply pong_of_wf). by eexists.
Qed.

(** What a read does to the messages held. *)
Lemma read_held s sock evs :
  session_inv s sock →
  let '(cr, ra, sock', _, r) := next_message (cs_chunks s) (cs_reassembler s) sock evs in
  let s' := set_read s cr ra in
  match r with
  | Done m => session_inv s' sock' ∧ held s sock = m :: held s' sock' ∧ Forall u8 (raw_payload m)
  | IoErr UnexpectedEof => session_inv s' sock' ∧ held s sock = [] ∧ held s' sock' = [] ∧ sock' = []
  | IoErr InvalidData => held s sock = []
  | Dropped | IoErr OtherIo => session_inv s' sock' ∧ held s sock = held s' sock'
  | IoErr WriteZero | Panicked => False
  end.
Proof.
  intros Hs. pose proof (next_message_refines _ _ sock evs (se_reader _ _ Hs) (se_reasm _ _ Hs)
    (se_stream _ _ Hs)) as H.
  destruct (next_message _ _ _ _) as [[[[cr ra] sock'] evs'] r]. destruct H as (H1 & H2 & H3 & H4).
  pose proof (se_held _ _ Hs) as Hh. pose proof (se_stream _ _ Hs) as Hu. cbv zeta.
  assert (∀ l, held s sock = l ++ held (set_read s cr ra) sock' → session_inv (set_read s cr ra) sock') as Hinv.
  { intros l E. rewrite E in Hh. apply Forall_app in Hh as [_ Hh]. by split; try done; apply Hs. }
  assert (∀ rest k, read_reassembled (cs_reassembler s) (absorbed (cs_chunks s) ++ sock) = (ra, rest, IoErr k) →
            held s sock = []) as Hend.
  { intros rest k E. unfold held. by rewrite drain_eq, E. }
  assert (read_reassembled (cs_reassembler s) (absorbed (cs_chunks s) ++ sock) =
          read_reassembled ra (absorbed cr ++ sock') → held s sock = held (set_read s cr ra) sock') as Hsame.
  { intros E. by apply drain_same. }
  destruct r as [m|[| | |]| |]; cbn [call_post] in H4; try done; eauto.
  - assert (held s sock = [m] ++ held (set_read s cr ra) sock') as E.
    { unfold held. by rewrite drain_eq, H4 by done. }
    split_and!; [by eapply Hinv|done|]. rewrite E in Hh. by inversion Hh.
  - destruct H4 as (-> & E1 & E2). specialize (Hend _ _ E1). specialize (Hsame E2).
    split_and!; [by apply (Hinv [])|done|congruence|done].
  - destruct H4 as [rest E]. by eapply Hend.
  - split; [by apply (Hinv []), Hsame|by apply Hsame].
  - split; [by apply (Hinv []), Hsame|by apply Hsame].
Qed.

(** ** One call *)

Definition corrupt (r : io_result (option ClientEvent.t)) : bool :=
  match r with IoErr InvalidData => true | _ => false end.
Definition surfaced (r : io_result (option ClientEvent.t)) : list ClientEvent.t :=
  match r with Done (Some e) => [e] | _ => [] end.

(** A call surfaces the next event of the specification, or none; what it wrote
    and queued are the answers due; the rest is still due.  A corrupt stream
    has no rest. *)
Record step_post (s : ClientSession) (sock wire : list Z) (s' : ClientSession) (sock' wire' : list Z)
    (r : io_result (option ClientEvent.t)) : Prop := {
  sp_inv : corrupt r = false → session_inv s' sock';
  sp_events : session_events (held s sock) =
    surfaced r ++ if corrupt r then [] else session_events (held s' sock');
  sp_wire : ∃ seg, wire' ++ unsent (cs_out s') = wire ++ unsent (cs_out s) ++ seg ∧
    session_answers (held s sock) = seg ++ if corrupt r then [] else session_answers (held s' sock');
  sp_end : match r with Done None => held s' sock' = [] ∧ sock' = [] | Panicked => False | _ => True end
}.

Lemma step_post_trans s sock wire s1 sock1 wire1 s' sock' wire' r seg :
  session_events (held s sock) = session_events (held s1 sock1) →
  wire1 ++ unsent (cs_out s1) = wire ++ unsent (cs_out s) ++ seg →
  session_answers (held s sock) = seg ++ session_answers (held s1 sock1) →
  step_post s1 sock1 wire1 s' sock' wire' r → step_post s sock wire s' sock' wire' r.
Proof.
  intros E1 E2 E3 [P1 P2 (seg' & P3 & P4) P5]. split; [done|congruence| |done].
  exists (seg ++ seg'). split.
  - rewrite P3, app_assoc, E2. by rewrite <- !app_assoc.
  - by rewrite E3, P4, app_assoc.
Qed.

(** A call that ends with the queue as it was, and nothing answered. *)
Lemma sp_wire_same (wire out a a' : list Z) :
  a = a' → ∃ seg, wire ++ out = wire ++ out ++ seg ∧ a = seg ++ a'.
Proof. intros ->. exists []. by rewrite app_nil_r. Qed.

(** A call that ends here, with the state it has. *)
Lemma step_post_stay s sock wire r :
  session_inv s sock → corrupt r = false → surfaced r = [] →
  match r with Done _ | Panicked => False | _ => True end → step_post s sock wire s sock wire r.
Proof.
  intros Hs Hc Hr Hp. split; rewrite ?Hc, ?Hr; try done; [by apply sp_wire_same|]. by destruct r.
Qed.

Lemma step_flush s sock wire evs :
  session_inv s sock →
  let '(w, wire', r) := flush_pending evs (cs_out s) wire in
  session_inv (set_out s w) sock ∧ r ≠ Panicked ∧ (r = Done tt → w = ChunkWriter_new) ∧
  wire' ++ unsent w = wire ++ unsent (cs_out s).
Proof.
  intros Hs. unfold flush_pending. pose proof (flush_spec evs (cs_out s) wire (se_out _ _ Hs)) as H.
  destruct (flush evs (cs_out s) wire) as [[w wire'] r]. destruct H as (H1 & H2 & _ & H3 & H4).
  split_and!; [by apply session_inv_out|done..].
Qed.

(** One message: an event is surfaced, a ping answered, anything else skipped. *)
Lemma on_message_spec s sock m now :
  session_inv s sock → Message.wf m →
  ∃ s', on_message s m now = (s', match event_of m with Some e => Some (Done (Some e)) | None => None end) ∧
        session_inv s' sock ∧ held s' sock = held s sock ∧
        unsent (cs_out s') = unsent (cs_out s) ++ answer m.
Proof.
  intros Hs Hm.
  destruct m; try (exists s; rewrite app_nil_r; split_and!; done).
  - destruct (queue_pong (cs_out s) m Hm (se_out _ _ Hs)) as (w & E & Hw & Hu). exists (set_out s w).
    unfold on_message. rewrite E. split_and!; [done|by apply session_inv_out|done|done].
  - destruct (take_pong_ok s sock m now Hs) as (c & o & E & Hc). exists (set_clock s c o).
    unfold on_message. rewrite E, app_nil_r. split_and!; [done|by apply session_inv_clock|done|done].
Qed.

(** A write fails as a write. *)
Lemma flush_loop_kind evs w wire :
  match (flush_loop evs w wire).2 with Some (IoErr InvalidData) => False | _ => True end.
Proof.
  revert w wire. induction evs as [|ev evs IH]; intros w wire; cbn [flush_loop]; case_if; try done.
  destruct ev; try done. apply IH.
Qed.

Lemma flush_kind evs w wire : (flush_pending evs w wire).2 ≠ IoErr InvalidData.
Proof.
  unfold flush_pending, flush. pose proof (flush_loop_kind evs w wire) as H.
  destruct (flush_loop evs w wire) as [[[w' wire'] evs'] [r|]]; cbn in *.
  - by intros ->.
  - by repeat case_match.
Qed.

(** A turn's message, given what the turns after it do. *)
Lemma message_step turns s sock wire s2 sock2 raw m now :
  (∀ s sock wire, session_inv s sock →
     let '(s', sock', wire', r) := next_event turns s sock wire in step_post s sock wire s' sock' wire' r) →
  session_inv s2 sock2 → held s sock = raw :: held s2 sock2 → cs_out s2 = cs_out s →
  Message.decode_known (raw_type raw) (raw_payload raw) = Ok (Some m) → Message.wf m →
  let '(s', sock', wire', r) :=
    match on_message s2 m now with
    | (s, None) => next_event turns s sock2 wire
    | (s, Some r) => (s, sock2, wire, r)
    end in
  step_post s sock wire s' sock' wire' r.
Proof.
  intros IH Hs2 Hheld Hout Ed Hm.
  destruct (on_message_spec s2 sock2 m now Hs2 Hm) as (s3 & -> & Hs3 & Hh3 & Hu3).
  assert (session_events (held s sock) = option_list (event_of m) ++ session_events (held s2 sock2)) as Hev.
  { rewrite Hheld. cbn. by rewrite Ed. }
  assert (session_answers (held s sock) = answer m ++ session_answers (held s2 sock2)) as Han.
  { rewrite Hheld. cbn. by rewrite Ed. }
  rewrite <- Hh3 in Hev, Han. rewrite Hout in Hu3.
  assert (wire ++ unsent (cs_out s3) = wire ++ unsent (cs_out s) ++ answer m) as Hwire by (by rewrite Hu3).
  destruct (event_of m) as [e|].
  - split; cbn; [done|done|by exists (answer m)|done].
  - specialize (IH s3 sock2 wire Hs3).
    destruct (next_event turns s3 sock2 wire) as [[[s' sock'] wire'] r].
    by eapply step_post_trans; [exact Hev|exact Hwire|exact Han|exact IH].
Qed.

(** A call keeps to the specification, whatever its schedules. *)
Lemma next_event_step turns s sock wire :
  session_inv s sock →
  let '(s', sock', wire', r) := next_event turns s sock wire in
  step_post s sock wire s' sock' wire' r.
Proof.
  revert s sock wire. induction turns as [|t turns IH]; intros s sock wire Hs; cbn [next_event].
  { by apply step_post_stay. }
  pose proof (step_flush s sock wire (t_writes t) Hs) as Hf.
  pose proof (flush_kind (t_writes t) (cs_out s) wire) as Hk.
  destruct (flush_pending (t_writes t) (cs_out s) wire) as [[w wire1] rf].
  destruct Hf as (Hs1 & Hp & _ & Hw). cbn [snd] in Hk. set (s1 := set_out s w) in *.
  assert (∀ s' sock' wire' r, step_post s1 sock wire1 s' sock' wire' r →
                              step_post s sock wire s' sock' wire' r) as Hback.
  { intros * Hpost. apply (step_post_trans s sock wire s1 sock wire1 _ _ _ _ []); [done| |done|exact Hpost].
    cbn. by rewrite app_nil_r, Hw. }
  destruct rf as [[]|k| |]; [| | |done].
  2: { apply Hback, step_post_stay; try done. by destruct k. }
  2: { by apply Hback, step_post_stay. }
  pose proof (read_held s1 sock (t_reads t) Hs1) as Hr.
  destruct (next_message (cs_chunks s1) (cs_reassembler s1) sock (t_reads t)) as [[[[cr ra] sock2] evs2] r].
  cbv zeta in Hr. set (s2 := set_read s1 cr ra) in *.
  destruct r as [raw|[| | |]| |]; try done.
  - destruct Hr as (Hs2 & Hheld & Hraw).
    pose proof (decode_known_total (raw_type raw) (raw_payload raw) Hraw) as Hd.
    destruct (Message.decode_known (raw_type raw) (raw_payload raw)) as [[m|]|e|] eqn:Ed; [| | |done].
    + destruct Hd as [Hm _].
      pose proof (message_step turns s1 sock wire1 s2 sock2 raw m (t_now t) IH Hs2 Hheld eq_refl Ed Hm) as H.
      destruct (on_message s2 m (t_now t)) as [s3 [r|]]; [by apply Hback|].
      destruct (next_event turns s3 sock2 wire1) as [[[s' sock'] wire'] r]. by apply Hback.
    + specialize (IH s2 sock2 wire1 Hs2). destruct (next_event turns s2 sock2 wire1) as [[[s' sock'] wire'] r].
      apply Hback. apply (step_post_trans s1 sock wire1 s2 sock2 wire1 _ _ _ _ []); [| | |exact IH];
        rewrite ?Hheld; cbn; rewrite ?Ed, ?app_nil_r; done.
    + apply Hback. split; cbn; [done| |apply sp_wire_same|done]; rewrite Hheld; cbn; by rewrite Ed.
  - destruct Hr as (Hs2 & H1 & H2 & ->). apply Hback.
    split; cbn; [done| |apply sp_wire_same|done]; by rewrite H1, H2.
  - apply Hback. split; cbn; [done| |apply sp_wire_same|done]; by rewrite Hr.
  - destruct Hr as [Hs2 Hr]. apply Hback. split; cbn; [done| |apply sp_wire_same|done]; by rewrite Hr.
  - destruct Hr as [Hs2 Hr]. apply Hback. split; cbn; [done| |apply sp_wire_same|done]; by rewrite Hr.
Qed.

(** ** A session in use *)

Inductive session_op : Type :=
| Next (turns : list turn)
| Send (msg : Message.t) (evs : list write_event)
| SendPing (now_us : Z) (evs : list write_event).

(** Calls one after the other, until the stream is found corrupt. *)
Fixpoint run_session (ops : list session_op) (s : ClientSession) (sock wire : list Z)
    : ClientSession * list Z * list Z * list ClientEvent.t * bool :=
  match ops with
  | [] => (s, sock, wire, [], true)
  | Next turns :: ops =>
    let '(s, sock, wire, r) := next_event turns s sock wire in
    if corrupt r then (s, sock, wire, [], false)
    else
      let '(s, sock, wire, evs, ok) := run_session ops s sock wire in
      (s, sock, wire, surfaced r ++ evs, ok)
  | Send msg evs :: ops =>
    let '(s, wire, _) := send s msg evs wire in run_session ops s sock wire
  | SendPing now evs :: ops =>
    let '(s, wire, _) := ping s now evs wire in run_session ops s sock wire
  end.

(** What an operation may add to the output. *)
Definition segment (op : session_op) (seg : list Z) : Prop :=
  match op with
  | Next _ => True
  | Send msg _ => seg = op_bytes (QueueMessage msg channel.CONTROL)
  | SendPing now _ => ∃ seq, seg = op_bytes (QueueMessage (Message.Ping (mkPing seq now)) channel.CONTROL)
  end.

(** The bytes that are answers. *)
Definition answered (ops : list session_op) (segs : list (list Z)) : list Z :=
  concat (zip_with (λ op seg, match op with Next _ => seg | _ => [] end) ops segs).

Lemma send_spec s sock msg evs wire :
  session_inv s sock →
  let '(s', wire', _) := send s msg evs wire in
  session_inv s' sock ∧ held s' sock = held s sock ∧
  wire' ++ unsent (cs_out s') = wire ++ unsent (cs_out s) ++ op_bytes (QueueMessage msg channel.CONTROL).
Proof.
  intros Hs. unfold send, session_queue, queue_message, flush_pending, op_bytes.
  destruct (queue_chunks_spec (cs_out s) (Message.to_chunks msg channel.CONTROL) (se_out _ _ Hs)) as [H1 H2].
  destruct (queue_chunks _ _) as [w r]; cbn [fst] in *. rewrite <- H2.
  destruct r as [[]|k| |]; try (split_and!; [by apply session_inv_out|done|done]).
  pose proof (flush_spec evs w wire H1) as Hf. destruct (flush evs w wire) as [[w' wire'] r].
  destruct Hf as (F1 & F2 & _). split_and!; [by apply session_inv_out|done|done].
Qed.

Lemma ping_spec s sock now evs wire :
  session_inv s sock →
  let '(s', wire', _) := ping s now evs wire in
  session_inv s' sock ∧ held s' sock = held s sock ∧
  wire' ++ unsent (cs_out s') = wire ++ unsent (cs_out s) ++
    op_bytes (QueueMessage (Message.Ping (mkPing (cs_ping_seq s) now)) channel.CONTROL).
Proof.
  intros Hs. unfold ping. set (s1 := mkClient _ _ _ _ _ _).
  assert (session_inv s1 sock) as Hs1 by (destruct Hs; by split).
  exact (send_spec s1 sock (Message.Ping (mkPing (cs_ping_seq s) now)) evs wire Hs1).
Qed.

(** What a run promises: the events surfaced are the first of those due, the
    output is one segment per operation, and the segments of the event loop are
    the answers due. *)
Definition run_post (ops : list session_op) (s : ClientSession) (sock wire : list Z)
    (s' : ClientSession) (sock' wire' : list Z) (evs : list ClientEvent.t) (ok : bool) : Prop :=
  session_events (held s sock) = evs ++ (if ok then session_events (held s' sock') else []) ∧
  ∃ segs, Forall2 segment (take (length segs) ops) segs ∧
    wire' ++ unsent (cs_out s') = wire ++ unsent (cs_out s) ++ concat segs ∧
    session_answers (held s sock) = answered ops segs ++ (if ok then session_answers (held s' sock') else []).

Lemma run_post_cons op ops s sock wire s1 sock1 wire1 s' sock' wire' seg ev evs ok :
  segment op seg →
  wire1 ++ unsent (cs_out s1) = wire ++ unsent (cs_out s) ++ seg →
  session_events (held s sock) = ev ++ session_events (held s1 sock1) →
  session_answers (held s sock) = (match op with Next _ => seg | _ => [] end) ++ session_answers (held s1 sock1) →
  run_post ops s1 sock1 wire1 s' sock' wire' evs ok →
  run_post (op :: ops) s sock wire s' sock' wire' (ev ++ evs) ok.
Proof.
  intros Hseg Hw He Ha (I1 & segs & I2 & I3 & I4). split; [by rewrite He, I1, app_assoc|].
  exists (seg :: segs). split_and!; [by constructor| |].
  - rewrite I3, app_assoc, Hw. cbn. by rewrite <- !app_assoc.
  - rewrite Ha, I4. unfold answered. cbn. by rewrite app_assoc.
Qed.

Lemma run_session_spec ops s sock wire :
  session_inv s sock →
  let '(s', sock', wire', evs, ok) := run_session ops s sock wire in
  run_post ops s sock wire s' sock' wire' evs ok.
Proof.
  revert s sock wire. induction ops as [|op ops IH]; intros s sock wire Hs; cbn [run_session].
  { split; [done|]. exists []. cbn. rewrite app_nil_r. by split_and!; [constructor|..]. }
  destruct op as [turns|msg evs|now evs].
  - pose proof (next_event_step turns s sock wire Hs) as Hstep.
    destruct (next_event turns s sock wire) as [[[s1 sock1] wire1] r].
    destruct Hstep as [P1 P2 (seg & P3 & P4) _]. destruct (corrupt r) eqn:Er.
    + split; [by destruct r as [[]|[]| |]|]. exists [seg]. unfold answered. cbn.
      rewrite zip_with_nil_r. cbn. rewrite !app_nil_r. rewrite app_nil_r in P4. split_and!; [by constructor; [|rewrite take_0]|done..].
    + specialize (IH s1 sock1 wire1 (P1 eq_refl)).
      destruct (run_session ops s1 sock1 wire1) as [[[[s' sock'] wire'] evs] ok].
      by apply (run_post_cons _ _ _ _ _ s1 sock1 wire1 _ _ _ seg).
  - pose proof (send_spec s sock msg evs wire Hs) as Hsend.
    destruct (send s msg evs wire) as [[s1 wire1] r]. destruct Hsend as (H1 & H2 & H3).
    specialize (IH s1 sock wire1 H1).
    destruct (run_session ops s1 sock wire1) as [[[[s' sock'] wire'] es] ok].
    eapply (run_post_cons (Send msg evs) _ _ _ _ s1 sock wire1 _ _ _ _ []);
      [exact eq_refl|exact H3|by rewrite H2|by rewrite H2|exact IH].
  - pose proof (ping_spec s sock now evs wire Hs) as Hping.
    destruct (ping s now evs wire) as [[s1 wire1] r]. destruct Hping as (H1 & H2 & H3).
    specialize (IH s1 sock wire1 H1).
    destruct (run_session ops s1 sock wire1) as [[[[s' sock'] wire'] es] ok].
    eapply (run_post_cons (SendPing now evs) _ _ _ _ s1 sock wire1 _ _ _ _ []);
      [by eexists|exact H3|by rewrite H2|by rewrite H2|exact IH].
Qed.

(** ** Progress *)

Definition is_accept (ev : write_event) : bool := match ev with Accept _ => true | _ => false end.

(** A turn that meets no error and no cancellation, with room to write [n]
    bytes and to read [m]. *)
Definition live_turn (n m : Z) (t : turn) : Prop :=
  Forall (λ ev, is_accept ev = true) (t_writes t) ∧ n ≤ len (t_writes t) ∧
  Forall (λ ev, is_deliver ev = true) (t_reads t) ∧ m < len (t_reads t).

Lemma flush_loop_live evs w wire :
  writer_inv w → Forall (λ ev, is_accept ev = true) evs → len (unsent w) ≤ len evs →
  (flush_loop evs w wire).2 = None ∧ Forall (λ ev, is_accept ev = true) (flush_loop evs w wire).1.2.
Proof.
  revert w wire. induction evs as [|ev evs IH]; intros w wire [Hw1 Hw2] Ha Hl; cbn [flush_loop];
    destruct (Z.ltb_spec (cw_written w) (len (cw_pending w))) as [Hlt|Hge]; try done.
  - unfold unsent in Hl. rewrite len_zdrop in Hl by lia. change (len (@nil write_event)) with 0 in Hl. lia.
  - apply Forall_cons in Ha as [Hev Ha]. destruct ev as [n| | |]; try done.
    set (sent := ztake (Z.pos n) (zdrop (cw_written w) (cw_pending w))).
    assert (0 < len sent ≤ len (cw_pending w) - cw_written w) as Hs.
    { subst sent. rewrite <- (len_zdrop (cw_written w) (cw_pending w)) by lia.
      set (rest := zdrop _ _) in *. assert (0 < len rest) by (subst rest; rewrite len_zdrop; lia).
      unfold ztake, len in *. rewrite length_take. lia. }
    apply IH; [split; cbn; lia|done|]. unfold unsent in *; cbn.
    rewrite len_zdrop in * by lia. rewrite len_cons in Hl. lia.
Qed.

Lemma flush_live evs w wire :
  writer_inv w → Forall (λ ev, is_accept ev = true) evs → len (unsent w) ≤ len evs →
  (flush_pending evs w wire).2 = Done tt.
Proof.
  intros Hw Ha Hl. unfold flush_pending, flush. destruct (flush_loop_live evs w wire Hw Ha Hl) as [H1 H2].
  destruct (flush_loop evs w wire) as [[[w' wire'] evs'] stop]. cbn in *. subst stop.
  destruct H2 as [|ev evs' Hev _]; [done|]. by destruct ev.
Qed.

Lemma fill_sock evs buf filled sock : len (fill evs buf filled sock).1.1.2 ≤ len sock.
Proof.
  revert buf filled sock. induction evs as [|ev evs IH]; intros buf filled sock; cbn [fill]; case_if; try done.
  destruct ev; try done. case_if; [done|]. etransitivity; [apply IH|].
  unfold zdrop, len. rewrite length_drop. lia.
Qed.

Lemma next_loop_sock fuel cr ra sock evs : len (next_loop fuel cr ra sock evs).1.1.2 ≤ len sock.
Proof.
  revert cr ra sock evs. induction fuel as [|fuel IH]; intros cr ra sock evs; [done|]. cbn [next_loop].
  destruct (cr_state cr) as [f|h f].
  - pose proof (fill_sock evs (header_buf cr) f sock) as Hf.
    destruct (fill evs (header_buf cr) f sock) as [[[[buf f'] sock'] evs'] [r|]]; cbn in Hf; [done|].
    repeat case_match; try done. by etransitivity; [apply IH|].
  - pose proof (fill_sock evs (cr_payload cr) f sock) as Hf.
    destruct (fill evs (cr_payload cr) f sock) as [[[[buf f'] sock'] evs'] [r|]]; cbn in Hf; [done|].
    repeat case_match; try done. by etransitivity; [apply IH|].
Qed.

(** An answer is one chunk of 28 bytes. *)
Lemma len_answer m : Message.wf m → len (answer m) ≤ 28.
Proof.
  intros Hm. by destruct m.
Qed.

(** With more live turns than messages to come, a call comes back with an event,
    the end of the stream, or the finding that it is corrupt. *)
Lemma next_event_live turns s sock wire n m :
  session_inv s sock → Forall (live_turn n m) turns → 28 ≤ n → len (unsent (cs_out s)) ≤ n → len sock ≤ m →
  (length (held s sock) < length turns)%nat →
  match (next_event turns s sock wire).2 with Done _ | IoErr InvalidData => True | _ => False end.
Proof.
  intros Hs Hlive H28. revert s sock wire Hs.
  induction Hlive as [|t turns (Lw & Lwn & Lr & Lrm) _ IH]; intros s sock wire Hs Hn Hm Hl; [cbn in Hl; lia|].
  cbn [next_event]. pose proof (step_flush s sock wire (t_writes t) Hs) as Hf.
  pose proof (flush_live (t_writes t) (cs_out s) wire (se_out _ _ Hs) Lw ltac:(lia)) as Hd.
  destruct (flush_pending (t_writes t) (cs_out s) wire) as [[w wire1] rf]. cbn [snd] in Hd. subst rf.
  destruct Hf as (Hs1 & _ & Hw & _). specialize (Hw eq_refl). set (s1 := set_out s w) in *.
  pose proof (read_held s1 sock (t_reads t) Hs1) as Hr.
  pose proof (next_loop_live (2 * length (t_reads t) + 4) (cs_chunks s1) (cs_reassembler s1) sock (t_reads t)
    (reader_inv_fill_ok _ (se_reader _ _ Hs1)) Lr ltac:(lia)) as [Hl1 Hl2].
  pose proof (next_loop_sock (2 * length (t_reads t) + 4) (cs_chunks s1) (cs_reassembler s1) sock (t_reads t)) as Hsock.
  change (next_loop _ (cs_chunks s1) (cs_reassembler s1) sock (t_reads t))
    with (next_message (cs_chunks s1) (cs_reassembler s1) sock (t_reads t)) in *.
  destruct (next_message (cs_chunks s1) (cs_reassembler s1) sock (t_reads t)) as [[[[cr ra] sock2] evs2] r].
  cbn in Hl1, Hl2, Hsock. cbv zeta in Hr. set (s2 := set_read s1 cr ra) in *.
  destruct r as [raw|[| | |]| |]; try done. destruct Hr as (Hs2 & Hheld & Hraw).
  change (held s1 sock) with (held s sock) in Hheld. rewrite Hheld in Hl. cbn [length] in Hl.
  pose proof (decode_known_total (raw_type raw) (raw_payload raw) Hraw) as Hdec.
  destruct (Message.decode_known (raw_type raw) (raw_payload raw)) as [[msg|]|e|]; [| |done|done].
  - destruct Hdec as [Hmsg _].
    destruct (on_message_spec s2 sock2 msg (t_now t) Hs2 Hmsg) as (s3 & -> & Hs3 & Hh3 & Hu3).
    destruct (event_of msg); [done|]. apply IH; [done| |lia|rewrite Hh3; lia].
    rewrite Hu3. subst s2 s1. cbn [set_read set_out cs_out]. rewrite Hw. pose proof (len_answer msg Hmsg).
    change (unsent ChunkWriter_new) with (@nil Z). cbn [app]. lia.
  - apply IH; [done| |lia|lia]. subst s2 s1. cbn [set_read set_out cs_out]. rewrite Hw.
    change (unsent ChunkWriter_new) with (@nil Z). change (len (@nil Z)) with 0. lia.
Qed.

(** ** The offset estimate *)

(** No overflow: half a [u64] and a ten-thousandth of one. *)
Lemma error_bound_ok s now :
  u64 (os_rtt_us s) →
  ∃ k, error_bound_us s now = Ok k ∧ os_rtt_us s / 2 ≤ k.
Proof.
  intros [H0 H1]. unfold error_bound_us, add_uint.
  set (d := sat_uint 64 (sat_uint 64 (now - os_taken_at_us s) * CLOCK_DRIFT_PPM)).
  assert (0 ≤ d < 2 ^ 64) as Hd by (subst d; unfold sat_uint; lia).
  assert (0 ≤ d / 1000000 < 2 ^ 62) by (split; [apply Z.div_pos|apply Z.div_lt_upper_bound]; lia).
  assert (0 ≤ os_rtt_us s / 2 < 2 ^ 63) by (split; [apply Z.div_pos|apply Z.div_lt_upper_bound]; lia).
  replace (os_rtt_us s / 2 + d / 1000000 <? 2 ^ 64) with true by lia. eexists. split; [done|]. lia.
Qed.

Lemma min_by_bound_spec now l best key :
  Forall (λ s, u64 (os_rtt_us s)) l → error_bound_us best now = Ok key →
  ∃ b k, min_by_bound now best key l = Ok b ∧ error_bound_us b now = Ok k ∧ b ∈ best :: l ∧ k ≤ key ∧
         ∀ s ks, s ∈ l → error_bound_us s now = Ok ks → k ≤ ks.
Proof.
  intros Hl. revert best key. induction Hl as [|s l Hs _ IH]; intros best key Hb; cbn [min_by_bound].
  { exists best, key. split_and!; [done|done|by apply elem_of_cons; left|lia|].
    intros s ks Hs. by apply not_elem_of_nil in Hs. }
  destruct (error_bound_ok s now Hs) as (ks & Eks & _). rewrite Eks. cbn [mbind outcome_bind].
  destruct (Z.ltb_spec ks key) as [Hlt|Hge].
  - destruct (IH s ks Eks) as (b & k & E & Ek & Hin & Hk & Hall). exists b, k.
    split_and!; [done|done|rewrite !elem_of_cons in *; tauto|lia|].
    intros s' ks' Hs' Eks'. apply elem_of_cons in Hs' as [->|Hs']; [|by eapply Hall].
    rewrite Eks in Eks'. simplify_eq. lia.
  - destruct (IH best key Hb) as (b & k & E & Ek & Hin & Hk & Hall). exists b, k.
    split_and!; [done|done|rewrite !elem_of_cons in *; tauto|lia|].
    intros s' ks' Hs' Eks'. apply elem_of_cons in Hs' as [->|Hs']; [|by eapply Hall].
    rewrite Eks in Eks'. simplify_eq. lia.
Qed.

Lemma estimate_best_spec recent now :
  Forall (λ s, u64 (os_rtt_us s)) recent → recent ≠ [] →
  ∃ b k, estimate_best recent now = Ok (Some b) ∧ error_bound_us b now = Ok k ∧ b ∈ recent ∧
         ∀ s ks, s ∈ recent → error_bound_us s now = Ok ks → k ≤ ks.
Proof.
  intros Hr Hne. destruct Hr as [|s l Hs Hl]; [done|]. cbn [estimate_best].
  destruct (error_bound_ok s now Hs) as (key & Ek & _). rewrite Ek. cbn [mbind outcome_bind].
  destruct (min_by_bound_spec now l s key Hl Ek) as (b & k & -> & Eb & Hin & Hk & Hall).
  exists b, k. split_and!; [done|done|done|]. intros s' ks Hs' Eks.
  apply elem_of_cons in Hs' as [->|Hs']; [|by eapply Hall]. rewrite Ek in Eks. by simplify_eq.
Qed.

(** The candidates are the last [OFFSET_CANDIDATES] samples taken. *)
Lemma estimate_push_last hist s :
  estimate_push (last_n OFFSET_CANDIDATES hist) s = last_n OFFSET_CANDIDATES (hist ++ [s]).
Proof.
  rewrite last_n_snoc by (unfold OFFSET_CANDIDATES; lia). unfold estimate_push. f_equal.
  rewrite length_last_n.
  destruct (Nat.leb_spec OFFSET_CANDIDATES (Nat.min OFFSET_CANDIDATES (length hist))),
           (Nat.ltb_spec (length hist) OFFSET_CANDIDATES); done || lia.
Qed.

Lemma estimate_push_forall (P : OffsetSample → Prop) recent s :
  Forall P recent → P s → Forall P (estimate_push recent s).
Proof.
  intros Hr Hs. unfold estimate_push. apply Forall_app. split; [|by repeat constructor].
  case_if; [|done]. destruct Hr; [constructor|done].
Qed.

(** ** Honesty of the bound *)

Inductive sync_op : Type :=
| SyncPing (now_us : Z)
| SyncPong (p : Pong) (now_us : Z).

Fixpoint run_sync (ops : list sync_op) (s : ClientSession) : outcome unit ClientSession :=
  match ops with
  | [] => Ok s
  | SyncPing now :: ops => run_sync ops (ping s now [] []).1.1
  | SyncPong p now :: ops => s ← take_pong s p now; run_sync ops s
  end.

(** The readings of a clock that never goes back, from [clk] on. *)
Definition op_time (op : sync_op) : Z := match op with SyncPing now => now | SyncPong _ now => now end.

(** An agent whose clock is [theta] ahead of the client's, and which stamps an
    answer between the ping and the pong: [agent_us] was read at a client time
    [t] that lies between the two.  It need not answer in order, or at all. *)
Definition stamped (theta : Z) (s : ClientSession) (op : sync_op) : Prop :=
  match op with
  | SyncPing _ => True
  | SyncPong p now =>
    ∃ t, pong_agent_us p = t + theta ∧ t ≤ now ∧
         ∀ sent, ck_pending (cs_clock_sync s) !! pong_seq p = Some sent → sent ≤ t
  end.

Fixpoint genuine (theta clk : Z) (ops : list sync_op) (s : ClientSession) : Prop :=
  match ops with
  | [] => True
  | op :: ops =>
    clk ≤ op_time op < 2 ^ 62 ∧ stamped theta s op ∧
    match run_sync [op] s with Ok s' => genuine theta (op_time op) ops s' | _ => True end
  end.

Lemma genuine_cons theta clk op ops s s' :
  clk ≤ op_time op < 2 ^ 62 → stamped theta s op → run_sync [op] s = Ok s' →
  genuine theta (op_time op) ops s' → genuine theta clk (op :: ops) s.
Proof. intros Ht Hs E Hg. cbn [genuine]. by rewrite E. Qed.

Definition within (theta rtt offset : Z) : Prop :=
  0 ≤ rtt < 2 ^ 62 ∧ - (rtt / 2) ≤ offset - theta ≤ rtt - rtt / 2.

Record honest (theta clk : Z) (s : ClientSession) : Prop := {
  ho_rtt : samples_inv (ck_rtt (cs_clock_sync s));
  ho_pending : map_Forall (λ _ sent, 0 ≤ sent ≤ clk) (ck_pending (cs_clock_sync s));
  ho_offset : match ck_offset (cs_clock_sync s), ck_applied_sent_us (cs_clock_sync s) with
              | Some o, Some a => ∃ r, within theta r o ∧ 0 ≤ a ∧ a + r ≤ clk
              | None, None => True
              | _, _ => False
              end;
  ho_samples : Forall (λ c, within theta (os_rtt_us c) (os_offset_us c)) (cs_offsets s)
}.

Lemma within_mono theta r r' o : within theta r o → r ≤ r' < 2 ^ 62 → within theta r' o.
Proof.
  intros [H1 H2] H. split; [lia|].
  pose proof (Z.div_mod r 2). pose proof (Z.div_mod r' 2).
  pose proof (Z.mod_pos_bound r 2). pose proof (Z.mod_pos_bound r' 2). lia.
Qed.

(** The arithmetic of an exchange: no saturation, and the estimate is off by the
    distance of the stamp from the midpoint. *)
Lemma exchange_within theta sent now t :
  Z.abs theta < 2 ^ 62 → 0 ≤ sent ≤ t → t ≤ now < 2 ^ 62 →
  sat_uint 64 (now - sent) = now - sent ∧
  within theta (now - sent)
    (sat_sint 64 (t + theta - sat_uint 64 (sent + (now - sent) / 2))).
Proof.
  intros Hth Hs Hn. assert (0 ≤ (now - sent) / 2 ≤ now - sent) as Hd.
  { split; [apply Z.div_pos; lia|]. apply Z.div_le_upper_bound; lia. }
  split; [unfold sat_uint; lia|]. split; [lia|].
  assert (sat_uint 64 (sent + (now - sent) / 2) = sent + (now - sent) / 2) as -> by (unfold sat_uint; lia).
  unfold sat_sint. change (2 ^ (64 - 1)) with (2 ^ 63). lia.
Qed.

Lemma honest_ping theta clk s now :
  honest theta clk s → 0 ≤ clk ≤ now → honest theta now (ping s now [] []).1.1.
Proof.
  intros [H1 H2 H3 H4] Hn.
  assert (∃ w, (ping s now [] []).1.1 =
    set_out (mkClient (cs_reassembler s) (cs_chunks s) (cs_out s)
       (on_ping_sent (cs_clock_sync s) (cs_ping_seq s) now) (cs_offsets s) (as_uint 32 (cs_ping_seq s + 1))) w)
    as [w ->].
  { unfold ping, send. destruct (session_queue _ _) as [w [[]|k| |]]; try by eexists.
    destruct (flush_pending _ _ _) as [[w' wire'] r]. by eexists. }
  split; cbn; [done| | |done].
  - apply map_Forall_insert_2; [lia|]. eapply map_Forall_impl; [exact H2|]. cbn. lia.
  - destruct (ck_offset _), (ck_applied_sent_us _); try done.
    destruct H3 as (r & ? & ? & ?). exists r. split_and!; [done|lia|lia].
Qed.

Lemma honest_pong theta clk s p now :
  Z.abs theta < 2 ^ 62 → honest theta clk s → clk ≤ now < 2 ^ 62 → stamped theta s (SyncPong p now) →
  ∃ s', take_pong s p now = Ok s' ∧ honest theta now s'.
Proof.
  intros Hth [H1 H2 H3 H4] Hn (t & Ht & Htn & Hsent). unfold take_pong, on_pong.
  destruct (ck_pending (cs_clock_sync s) !! pong_seq p) as [sent|] eqn:Ep; cbn [mbind outcome_bind].
  - specialize (Hsent sent eq_refl). pose proof (map_Forall_lookup_1 _ _ _ _ H2 Ep) as Hp. cbn in Hp.
    destruct (exchange_within theta sent now t Hth ltac:(lia) ltac:(lia)) as [Er Hw]. rewrite Er.
    destruct (samples_push_spec (ck_rtt (cs_clock_sync s)) (now - sent) H1) as (sm & -> & Hsm & _).
    cbn [mbind outcome_bind]. rewrite Ht.
    assert (map_Forall (λ _ sent, 0 ≤ sent ≤ now) (delete (pong_seq p) (ck_pending (cs_clock_sync s)))) as Hpend.
    { apply map_Forall_delete. eapply map_Forall_impl; [exact H2|]. cbn. lia. }
    case_if; cbn [mbind outcome_bind ck_offset]; eexists; (split; [done|]).
    + split; cbn; [done|done| |by apply estimate_push_forall].
      exists (now - sent). split_and!; [done|lia|lia].
    + destruct (ck_applied_sent_us (cs_clock_sync s)) as [a|] eqn:Ea; [|done]. bool_to_prop.
      destruct (ck_offset (cs_clock_sync s)) as [o|] eqn:Eo; [|done]. destruct H3 as (r & Hr & Ha & Har).
      split; cbn; rewrite ?Eo, ?Ea; [done|done| |].
      * exists r. split_and!; [done|done|lia].
      * apply estimate_push_forall; [done|]. cbn. apply (within_mono theta r); [done|]. lia.
  - eexists. split; [done|]. split; cbn; [done| | |done].
    + eapply map_Forall_impl; [exact H2|]. cbn. lia.
    + destruct (ck_offset _), (ck_applied_sent_us _); try done.
      destruct H3 as (r & ? & ? & ?). exists r. split_and!; [done|lia|lia].
Qed.

Lemma run_sync_honest theta ops clk s :
  Z.abs theta < 2 ^ 62 → 0 ≤ clk → honest theta clk s → genuine theta clk ops s →
  ∃ s' clk', run_sync ops s = Ok s' ∧ honest theta clk' s'.
Proof.
  intros Hth. revert clk s. induction ops as [|op ops IH]; intros clk s Hc Hh Hg; [by eexists _, _|].
  destruct Hg as (Ht & Hst & Hg). destruct op as [now|p now]; cbn [op_time run_sync] in *.
  - apply (IH now); [lia|by apply (honest_ping theta clk); [|lia]|done].
  - destruct (honest_pong theta clk s p now Hth Hh ltac:(lia) Hst) as (s1 & E & Hh1).
    rewrite E in *. cbn [mbind outcome_bind] in *. apply (IH now); [lia|done..].
Qed.

Lemma honest_start theta ra : honest theta 0 (session_start ra).
Proof. split; cbn; [apply samples_new_inv|apply map_Forall_empty|done|constructor]. Qed.

(** ** Properties *)

(** C3: the session surfaces exactly the events of the agent's messages, and answers exactly its pings, whatever happens to the calls.  For any bytes from the agent and any sequence of [next_event], [send] and [ping] calls - dropped at any await, met by partial reads and writes or by errors - the events returned are the first of those the messages mean, in order, and the others are still due; the output, sent and queued, is one whole segment per call, those of [send] and [ping] being their message, those of [next_event] together the pongs due so far: nothing is lost, repeated or spliced into the middle of another message. *)
Theorem session_faithful ra bytes ops :
  reasm_inv ra → reasm_u8 ra → Forall u8 bytes →
  let '(s, sock, wire, evs, ok) := run_session ops (session_start ra) bytes [] in
  session_events (drain ra bytes) = evs ++ (if ok then session_events (held s sock) else []) ∧
  ∃ segs, Forall2 segment (take (length segs) ops) segs ∧
    wire ++ unsent (cs_out s) = concat segs ∧
    session_answers (drain ra bytes) = answered ops segs ++ (if ok then session_answers (held s sock) else []).
Proof.
  intros Hr Hru Hu. pose proof (run_session_spec ops _ _ [] (session_inv_start ra bytes Hr Hru Hu)) as H.
  by destruct (run_session ops (session_start ra) bytes []) as [[[[s sock] wire] evs] ok].
Qed.

(** A ping with sequence number 7 and a [WindowClosed], as the agent frames them. *)
Definition example_stream : list Z :=
  op_bytes (QueueMessage (Message.Ping (mkPing 7 5)) 0) ++
  op_bytes (QueueMessage (Message.WindowClosed (mkWindowClosed 3)) 0).

Lemma session_faithful_witness :
  let ops := [Next [mkTurn [] [Deliver 9; Cancel] 0];
              Send (Message.TextInput (mkTextInput [104])) [Accept 2; WriteCancel];
              Next [mkTurn (replicate 9 (Accept 4)) (replicate 40 (Deliver 7)) 0;
                    mkTurn (replicate 9 (Accept 4)) (replicate 40 (Deliver 7)) 0]] in
  let '(s, sock, wire, evs, ok) := run_session ops (session_start Reassembler_new) example_stream [] in
  evs = [ClientEvent.WindowClosed (mkWindowClosed 3)] ∧
  session_events (drain Reassembler_new example_stream) = evs ++ (if ok then session_events (held s sock) else []).
Proof.
  intros ops.
  pose proof (session_faithful Reassembler_new example_stream ops reasm_inv_new reasm_u8_new) as H.
  assert ((run_session ops (session_start Reassembler_new) example_stream []).1.2 =
          [ClientEvent.WindowClosed (mkWindowClosed 3)]) as Hev by (vm_compute; reflexivity).
  assert (Forall u8 example_stream) as Hu by (vm_compute; repeat constructor; discriminate).
  specialize (H Hu).
  destruct (run_session ops (session_start Reassembler_new) example_stream []) as [[[[s sock] wire] evs] ok].
  split; [exact Hev|]. destruct H as [H _]. exact H.
Defined.

(** A call to [next_event] comes back.  With no error and no cancellation, more turns than messages to come, and room in each turn for the bytes there are, it returns the first event due, or the end of the stream or the finding of a corrupt one when none is due. *)
Theorem next_event_returns turns s sock wire n m :
  session_inv s sock → Forall (live_turn n m) turns → 28 ≤ n → len (unsent (cs_out s)) ≤ n → len sock ≤ m →
  (length (held s sock) < length turns)%nat →
  match (next_event turns s sock wire).2 with
  | Done (Some e) => head (session_events (held s sock)) = Some e
  | Done None | IoErr InvalidData => session_events (held s sock) = []
  | _ => False
  end.
Proof.
  intros Hs Hl Hn Ho Hm Ht. pose proof (next_event_live turns s sock wire n m Hs Hl Hn Ho Hm Ht) as Hlive.
  pose proof (next_event_step turns s sock wire Hs) as Hstep.
  destruct (next_event turns s sock wire) as [[[s' sock'] wire'] r]. cbn [snd] in *.
  destruct Hstep as [_ P2 _ P4]. rewrite P2.
  destruct r as [[e|]|[| | |]| |]; try done. destruct P4 as [E _]. cbn. by rewrite E.
Qed.

Lemma next_event_returns_witness :
  match (next_event (replicate 3 (mkTurn (replicate 28 (Accept 1)) (replicate 60 (Deliver 7)) 0))
           (session_start Reassembler_new) example_stream []).2 with
  | Done (Some e) => head (session_events (held (session_start Reassembler_new) example_stream)) = Some e
  | Done None | IoErr InvalidData => session_events (held (session_start Reassembler_new) example_stream) = []
  | _ => False
  end.
Proof.
  apply (next_event_returns _ _ _ _ 28 59).
  - apply session_inv_start; [exact reasm_inv_new|exact reasm_u8_new|vm_compute; repeat constructor; discriminate].
  - apply Forall_replicate. split; [repeat constructor|]. split; [vm_compute; discriminate|].
    split; [repeat constructor|vm_compute; reflexivity].
  - lia.
  - vm_compute. discriminate.
  - vm_compute. discriminate.
  - vm_compute. lia.
Defined.

(** C39: the offset reported is honest.  Against an agent whose clock differs by [theta] and which stamps each pong between its ping and its arrival - answering out of order, late or never - the exchange chosen is the candidate with the smallest error bound, and the offset reported is within that bound, plus the microsecond of rounding, of [theta]; also when the pong that completed the candidate was older than the exchange its offset comes from.  Before the first pong nothing is claimed. *)
Theorem session_offset_honest theta ra ops now :
  Z.abs theta < 2 ^ 62 → genuine theta 0 ops (session_start ra) →
  ∃ s, run_sync ops (session_start ra) = Ok s ∧
    match clock_offset_us s now, session_error_bound_us s now with
    | Ok (Some o), Ok (Some k) =>
      Z.abs (o - theta) ≤ k + 1 ∧
      ∀ c kc, c ∈ cs_offsets s → error_bound_us c now = Ok kc → k ≤ kc
    | Ok None, Ok None => cs_offsets s = []
    | _, _ => False
    end.
Proof.
  intros Hth Hg.
  destruct (run_sync_honest theta ops 0 (session_start ra) Hth ltac:(lia) (honest_start theta ra) Hg)
    as (s & clk & E & Hh).
  exists s. split; [done|]. unfold clock_offset_us, session_error_bound_us.
  pose proof (ho_samples _ _ _ Hh) as Hc. destruct (cs_offsets s) as [|c l] eqn:El; [done|]. rewrite <- El in *.
  assert (Forall (λ s, u64 (os_rtt_us s)) (cs_offsets s)) as Hu.
  { eapply Forall_impl; [exact Hc|]. cbn. intros x [? _]. unfold is_uint. lia. }
  destruct (estimate_best_spec (cs_offsets s) now Hu) as (b & k & Eb & Ek & Hin & Hmin); [by rewrite El|].
  rewrite Eb. cbn [mbind outcome_bind]. rewrite Ek. cbn [mbind outcome_bind]. split; [|done].
  rewrite Forall_forall in Hc, Hu. destruct (Hc b Hin) as [Hr Hw].
  destruct (error_bound_ok b now (Hu b Hin)) as (k' & Ek' & Hk'). rewrite Ek in Ek'. simplify_eq.
  pose proof (Z.div_mod (os_rtt_us b) 2). pose proof (Z.mod_pos_bound (os_rtt_us b) 2). lia.
Qed.

(** Two pings; the second is answered first, and the first late. *)
Lemma session_offset_honest_witness :
  let ops := [SyncPing 100; SyncPing 200; SyncPong (mkPong 1 200 1210) 240; SyncPong (mkPong 0 100 1150) 300] in
  ∃ s, run_sync ops (session_start Reassembler_new) = Ok s ∧
    clock_offset_us s 300 = Ok (Some 990) ∧ session_error_bound_us s 300 = Ok (Some 20) ∧
    Z.abs (990 - 1000) ≤ 20 + 1.
Proof.
  intros ops.
  destruct (session_offset_honest 1000 Reassembler_new ops 300) as (s & E & H).
  - lia.
  - eapply genuine_cons; [cbn; lia|exact I|vm_compute; reflexivity|].
    eapply genuine_cons; [cbn; lia|exact I|vm_compute; reflexivity|].
    eapply genuine_cons; [cbn; lia| |vm_compute; reflexivity|].
    { exists 210. split; [reflexivity|]. split; [lia|]. intros sent Hs. vm_compute in Hs. simplify_eq. lia. }
    eapply genuine_cons; [cbn; lia| |vm_compute; reflexivity|exact I].
    exists 150. split; [reflexivity|]. split; [lia|]. intros sent Hs. vm_compute in Hs. simplify_eq. lia.
  - exists s. split; [exact E|].
    assert (∃ s0, run_sync ops (session_start Reassembler_new) = Ok s0 ∧ clock_offset_us s0 300 = Ok (Some 990) ∧
      session_error_bound_us s0 300 = Ok (Some 20)) as (s0 & E0 & H1 & H2).
    { eexists. split; [vm_compute; reflexivity|]. split; vm_compute; reflexivity. }
    rewrite E in E0. injection E0 as ->. rewrite H1, H2 in H. split; [exact H1|]. split; [exact H2|]. apply H.
Defined.
