(* ===== verification/Scancode.v ===== *)
(** * PS/2 set-1 scancodes

    [crates/oxproto/src/scancode.rs]: the physical keys, their scancodes and
    the reverse lookup, a linear search of the table [ALL]. *)

From S2P Require Import Prelude.

Record Scancode : Type := mkScancode { code : Z; extended : bool }.

Module Key.
Inductive t : Type :=
| A | B | C | D | E | F | G | H | I | J | K | L | M | N | O | P | Q | R | S | T | U | V
| W | X | Y | Z | Digit1 | Digit2 | Digit3 | Digit4 | Digit5 | Digit6 | Digit7 | Digit8
| Digit9 | Digit0 | Escape | Minus | Equal | Backspace | Tab | BracketLeft | BracketRight
| Enter | Semicolon | Quote | Backquote | Backslash | Comma | Period | Slash | Space
| CapsLock | LeftShift | RightShift | LeftControl | LeftAlt | F1 | F2 | F3 | F4 | F5 | F6
| F7 | F8 | F9 | F10 | F11 | F12 | NumLock | ScrollLock | Numpad0 | Numpad1 | Numpad2
| Numpad3 | Numpad4 | Numpad5 | Numpad6 | Numpad7 | Numpad8 | Numpad9 | NumpadMultiply
| NumpadSubtract | NumpadAdd | NumpadDecimal | RightControl | RightAlt | NumpadDivide
| NumpadEnter | Home | End | PageUp | PageDown | Insert | Delete | ArrowUp | ArrowDown
| ArrowLeft | ArrowRight | LeftMeta | RightMeta | Menu | PrintScreen.

End Key.

Definition ALL : list Key.t :=
  [Key.A; Key.B; Key.C; Key.D; Key.E; Key.F; Key.G; Key.H; Key.I; Key.J; Key.K; Key.L;
   Key.M; Key.N; Key.O; Key.P; Key.Q; Key.R; Key.S; Key.T; Key.U; Key.V; Key.W; Key.X;
   Key.Y; Key.Z; Key.Digit1; Key.Digit2; Key.Digit3; Key.Digit4; Key.Digit5; Key.Digit6;
   Key.Digit7; Key.Digit8; Key.Digit9; Key.Digit0; Key.Escape; Key.Minus; Key.Equal;
   Key.Backspace; Key.Tab; Key.BracketLeft; Key.BracketRight; Key.Enter; Key.Semicolon;
   Key.Quote; Key.Backquote; Key.Backslash; Key.Comma; Key.Period; Key.Slash; Key.Space;
   Key.CapsLock; Key.LeftShift; Key.RightShift; Key.LeftControl; Key.LeftAlt; Key.F1;
   Key.F2; Key.F3; Key.F4; Key.F5; Key.F6; Key.F7; Key.F8; Key.F9; Key.F10; Key.F11;
   Key.F12; Key.NumLock; Key.ScrollLock; Key.Numpad0; Key.Numpad1; Key.Numpad2;
   Key.Numpad3; Key.Numpad4; Key.Numpad5; Key.Numpad6; Key.Numpad7; Key.Numpad8;
   Key.Numpad9; Key.NumpadMultiply; Key.NumpadSubtract; Key.NumpadAdd; Key.NumpadDecimal;
   Key.RightControl; Key.RightAlt; Key.NumpadDivide; Key.NumpadEnter; Key.Home; Key.End;
   Key.PageUp; Key.PageDown; Key.Insert; Key.Delete; Key.ArrowUp; Key.ArrowDown;
   Key.ArrowLeft; Key.ArrowRight; Key.LeftMeta; Key.RightMeta; Key.Menu; Key.PrintScreen].

Definition scancode (k : Key.t) : Scancode :=
  match k with
  | Key.A => mkScancode 0x1E false
  | Key.B => mkScancode 0x30 false
  | Key.C => mkScancode 0x2E false
  | Key.D => mkScancode 0x20 false
  | Key.E => mkScancode 0x12 false
  | Key.F => mkScancode 0x21 false
  | Key.G => mkScancode 0x22 false
  | Key.H => mkScancode 0x23 false
  | Key.I => mkScancode 0x17 false
  | Key.J => mkScancode 0x24 false
  | Key.K => mkScancode 0x25 false
  | Key.L => mkScancode 0x26 false
  | Key.M => mkScancode 0x32 false
  | Key.N => mkScancode 0x31 false
  | Key.O => mkScancode 0x18 false
  | Key.P => mkScancode 0x19 false
  | Key.Q => mkScancode 0x10 false
  | Key.R => mkScancode 0x13 false
  | Key.S => mkScancode 0x1F false
  | Key.T => mkScancode 0x14 false
  | Key.U => mkScancode 0x16 false
  | Key.V => mkScancode 0x2F false
  | Key.W => mkScancode 0x11 false
  | Key.X => mkScancode 0x2D false
  | Key.Y => mkScancode 0x15 false
  | Key.Z => mkScancode 0x2C false
  | Key.Digit1 => mkScancode 0x02 false
  | Key.Digit2 => mkScancode 0x03 false
  | Key.Digit3 => mkScancode 0x04 false
  | Key.Digit4 => mkScancode 0x05 false
  | Key.Digit5 => mkScancode 0x06 false
  | Key.Digit6 => mkScancode 0x07 false
  | Key.Digit7 => mkScancode 0x08 false
  | Key.Digit8 => mkScancode 0x09 false
  | Key.Digit9 => mkScancode 0x0A false
  | Key.Digit0 => mkScancode 0x0B false
  | Key.Escape => mkScancode 0x01 false
  | Key.Minus => mkScancode 0x0C false
  | Key.Equal => mkScancode 0x0D false
  | Key.Backspace => mkScancode 0x0E false
  | Key.Tab => mkScancode 0x0F false
  | Key.BracketLeft => mkScancode 0x1A false
  | Key.BracketRight => mkScancode 0x1B false
  | Key.Enter => mkScancode 0x1C false
  | Key.Semicolon => mkScancode 0x27 false
  | Key.Quote => mkScancode 0x28 false
  | Key.Backquote => mkScancode 0x29 false
  | Key.Backslash => mkScancode 0x2B false
  | Key.Comma => mkScancode 0x33 false
  | Key.Period => mkScancode 0x34 false
  | Key.Slash => mkScancode 0x35 false
  | Key.Space => mkScancode 0x39 false
  | Key.CapsLock => mkScancode 0x3A false
  | Key.LeftShift => mkScancode 0x2A false
  | Key.RightShift => mkScancode 0x36 false
  | Key.LeftControl => mkScancode 0x1D false
  | Key.LeftAlt => mkScancode 0x38 false
  | Key.F1 => mkScancode 0x3B false
  | Key.F2 => mkScancode 0x3C false
  | Key.F3 => mkScancode 0x3D false
  | Key.F4 => mkScancode 0x3E false
  | Key.F5 => mkScancode 0x3F false
  | Key.F6 => mkScancode 0x40 false
  | Key.F7 => mkScancode 0x41 false
  | Key.F8 => mkScancode 0x42 false
  | Key.F9 => mkScancode 0x43 false
  | Key.F10 => mkScancode 0x44 false
  | Key.F11 => mkScancode 0x57 false
  | Key.F12 => mkScancode 0x58 false
  | Key.NumLock => mkScancode 0x45 false
  | Key.ScrollLock => mkScancode 0x46 false
  | Key.Numpad0 => mkScancode 0x52 false
  | Key.Numpad1 => mkScancode 0x4F false
  | Key.Numpad2 => mkScancode 0x50 false
  | Key.Numpad3 => mkScancode 0x51 false
  | Key.Numpad4 => mkScancode 0x4B false
  | Key.Numpad5 => mkScancode 0x4C false
  | Key.Numpad6 => mkScancode 0x4D false
  | Key.Numpad7 => mkScancode 0x47 false
  | Key.Numpad8 => mkScancode 0x48 false
  | Key.Numpad9 => mkScancode 0x49 false
  | Key.NumpadMultiply => mkScancode 0x37 false
  | Key.NumpadSubtract => mkScancode 0x4A false
  | Key.NumpadAdd => mkScancode 0x4E false
  | Key.NumpadDecimal => mkScancode 0x53 false
  | Key.RightControl => mkScancode 0x1D true
  | Key.RightAlt => mkScancode 0x38 true
  | Key.NumpadDivide => mkScancode 0x35 true
  | Key.NumpadEnter => mkScancode 0x1C true
  | Key.Home => mkScancode 0x47 true
  | Key.End => mkScancode 0x4F true
  | Key.PageUp => mkScancode 0x49 true
  | Key.PageDown => mkScancode 0x51 true
  | Key.Insert => mkScancode 0x52 true
  | Key.Delete => mkScancode 0x53 true
  | Key.ArrowUp => mkScancode 0x48 true
  | Key.ArrowDown => mkScancode 0x50 true
  | Key.ArrowLeft => mkScancode 0x4B true
  | Key.ArrowRight => mkScancode 0x4D true
  | Key.LeftMeta => mkScancode 0x5B true
  | Key.RightMeta => mkScancode 0x5C true
  | Key.Menu => mkScancode 0x5D true
  | Key.PrintScreen => mkScancode 0x7C true
  end.

(** [ALL.iter().copied().find(|&k| ..)] *)
Definition from_scancode (c : Z) (ext : bool) : option Key.t :=
  List.find (λ k, (code (scancode k) =? c) && eqb (extended (scancode k)) ext) ALL.

(** ** Lemmas *)

Lemma ALL_complete k : k ∈ ALL.
Proof. destruct k; repeat first [apply list_elem_of_here | apply list_elem_of_further]. Qed.

Lemma from_scancode_scancode k :
  from_scancode (code (scancode k)) (extended (scancode k)) = Some k.
Proof. by destruct k. Qed.

(** ** Properties *)

(** The table is a bijection between the keys and the scancodes it lists:
    every key is found again from its own scancode - so no two keys share one,
    and none is missing from [ALL] - and a lookup that succeeds returns the key
    with exactly that scancode. *)
Theorem scancode_bijective k c ext :
  k ∈ ALL ∧ (from_scancode c ext = Some k ↔ scancode k = mkScancode c ext).
Proof.
  split; [apply ALL_complete|]. split.
  - intros Hf. apply List.find_some in Hf as [_ Hf]. apply andb_true_iff in Hf as [Hc He].
    apply Z.eqb_eq in Hc. apply eqb_prop in He. destruct (scancode k). cbn in *. by subst.
  - intros E. pose proof (from_scancode_scancode k) as Hf. by rewrite E in Hf.
Qed.

(** Every make code fits the seven bits below the release bit of set 1, and
    none is zero. *)
Theorem scancode_range k : 0 < code (scancode k) < 0x80.
Proof. by destruct k. Qed.
