(* ===== verification/Ber.v ===== *)
(** * BER and PER primitives

    [crates/oxrdp-pdu/src/ber.rs] (definite lengths, booleans, tags) and the PER
    lengths and integers of [crates/oxrdp-pdu/src/send_data.rs] and [mcs.rs].
    [usize] is 64 bits wide. *)

From S2P Require Import Prelude Cursor Wire.

(** ** BER *)

(** [iter().skip_while(|&&b| b == 0)] *)
Fixpoint skip_zeros (bs : list Z) : list Z :=
  match bs with b :: r => if b =? 0 then skip_zeros r else bs | [] => [] end.

Definition length_size (n : Z) : Z := if n <? 0x80 then 1 else 1 + len (skip_zeros (be_bytes 8 n)).

Definition write_length (n : Z) (ctx : string) : writer unit :=
  if n <? 0x80 then write_u8 (as_uint 8 n) ctx
  else
    let stripped := skip_zeros (be_bytes 8 n) in
    if len stripped >? 4 then fail (FieldTooLarge ctx "ber length")
    else write_u8 (Z.lor 0x80 (as_uint 8 (len stripped))) ctx;; write_slice stripped ctx.

(** [for _ in 0..n { len = (len << 8) | byte }] *)
Fixpoint read_length_loop (k : nat) (acc : Z) (ctx : string) : reader Z :=
  match k with
  | O => mret acc
  | S k => b ← read_u8 ctx; read_length_loop k (Z.lor (Z.shiftl acc 8) b) ctx
  end.

Definition read_length (ctx : string) : reader Z :=
  b ← read_u8 ctx;
  if b <? 0x80 then mret b
  else if b =? 0x80 then fail (InvalidLength ctx "indefinite length not allowed")
  else
    let n := Z.land b 0x7F in
    if n >? 4 then fail (InvalidLength ctx "length too large")
    else read_length_loop (Z.to_nat n) 0 ctx.

Definition write_boolean (value : bool) (ctx : string) : writer unit :=
  write_u8 0x01 ctx;; write_u8 0x01 ctx;; write_u8 (if value then 0xFF else 0x00) ctx;; mret tt.

Definition read_boolean (ctx : string) : reader bool :=
  tag ← read_u8 ctx;
  if negb (tag =? 0x01) then fail (InvalidField ctx "ber boolean tag" "unexpected tag")
  else
    n ← read_u8 ctx;
    if negb (n =? 0x01) then fail (InvalidField ctx "ber boolean length" "unexpected length")
    else b ← read_u8 ctx; mret (negb (b =? 0)).

Fixpoint expect_tag (tag : list Z) (ctx : string) : reader unit :=
  match tag with
  | [] => mret tt
  | t :: tag =>
    actual ← read_u8 ctx;
    if negb (actual =? t) then fail (InvalidField ctx "ber tag" "unexpected tag")
    else expect_tag tag ctx
  end.

Definition read_tag_length (tag : list Z) (ctx : string) : reader Z :=
  expect_tag tag ctx;; read_length ctx.

(** ** PER *)

Definition per_length_size (n : Z) : Z := if n <? 0x80 then 1 else 2.

Definition per_write_length (n : Z) (ctx : string) : writer unit :=
  if n <? 0x80 then write_u8 (as_uint 8 n) ctx
  else if n <=? 0x7FFF then
    write_u8 (Z.lor 0x80 (as_uint 8 (Z.shiftr n 8))) ctx;;
    write_u8 (as_uint 8 (Z.land n 0xFF)) ctx;; mret tt
  else fail (FieldTooLarge ctx "per length").

Definition per_read_length (ctx : string) : reader Z :=
  b ← read_u8 ctx;
  if Z.land b 0x80 =? 0 then mret b
  else b2 ← read_u8 ctx; mret (Z.lor (Z.shiftl (Z.land b 0x7F) 8) b2).

(** [u16::checked_sub], an error below the minimum. *)
Definition per_write_integer16 (value min : Z) (ctx : string) : writer unit :=
  field ← lift (if min <=? value then Ok (value - min) else Err (FieldTooLarge ctx "integer16"));
  write_u16_be field ctx.

Definition per_read_integer16 (min : Z) (ctx : string) : reader Z :=
  field ← read_u16_be ctx; mret (sat_uint 16 (field + min)).

(** ** Layouts *)

Definition ber_length_wire (n : Z) : list Z :=
  if n <? 0x80 then [n]
  else (0x80 + len (skip_zeros (be_bytes 4 n))) :: skip_zeros (be_bytes 4 n).

Definition per_length_wire (n : Z) : list Z :=
  if n <? 0x80 then [n] else [0x80 + n / 256; n mod 256].

Arguments ber_length_wire : simpl never.
Arguments per_length_wire : simpl never.

(** ** Lemmas on big-endian values *)

(** The value of the bytes read so far and of those to come. *)
Definition be_acc (acc : Z) (bs : list Z) : Z := fold_left (λ a b, a * 256 + b) bs acc.

Lemma be_acc_value bs : be_acc 0 bs = be_value bs.
Proof.
  unfold be_acc, be_value. rewrite <- fold_left_rev_right. induction (rev bs) as [|b r IH]; [done|].
  cbn [fold_right]. change (le_value (b :: r)) with (b + 256 * le_value r). lia.
Qed.

Lemma skip_zeros_value bs : be_acc 0 (skip_zeros bs) = be_acc 0 bs.
Proof.
  induction bs as [|b bs IH]; [done|]. cbn [skip_zeros]. case_if; [|done]. bool_to_prop. subst b. exact IH.
Qed.

Lemma skip_zeros_length bs : len (skip_zeros bs) ≤ len bs.
Proof.
  induction bs as [|b bs IH]; cbn [skip_zeros]; [done|]. case_if; [|done]. rewrite len_cons. lia.
Qed.

Lemma skip_zeros_u8 bs : Forall u8 bs → Forall u8 (skip_zeros bs).
Proof. induction 1; cbn [skip_zeros]; [constructor|]. case_if; [done|by constructor]. Qed.

Lemma be_bytes_value n x : 0 ≤ x < 256 ^ Z.of_nat n → be_acc 0 (be_bytes n x) = x.
Proof.
  intros. rewrite be_acc_value. unfold be_value, be_bytes. rewrite rev_involutive, le_value_bytes.
  by apply Z.mod_small.
Qed.

(** The upper four bytes of a [u32] in eight bytes are zero. *)
Lemma be_bytes_8_4 n : u32 n → be_bytes 8 n = [0; 0; 0; 0] ++ be_bytes 4 n.
Proof.
  intros [? ?]. unfold be_bytes. rewrite (le_bytes_app 4 4), rev_app_distr.
  change (256 ^ Z.of_nat 4) with (2 ^ 32). by rewrite Z.div_small.
Qed.

Lemma skip_zeros_8_4 n : u32 n → skip_zeros (be_bytes 8 n) = skip_zeros (be_bytes 4 n).
Proof. intros. by rewrite be_bytes_8_4. Qed.

Lemma skip_zeros_4_len n : u32 n → 0x80 ≤ n → 1 ≤ len (skip_zeros (be_bytes 4 n)) ≤ 4.
Proof.
  intros Hn H80. split.
  - destruct (skip_zeros (be_bytes 4 n)) eqn:E; [|rewrite len_cons; pose proof (len_nonneg l); lia].
    pose proof (skip_zeros_value (be_bytes 4 n)) as Hv. rewrite E, be_bytes_value in Hv by (apply Hn).
    cbn in Hv. lia.
  - pose proof (skip_zeros_length (be_bytes 4 n)). rewrite len_be_bytes in *. lia.
Qed.

(** Fewer than five bytes say less than 2^32. *)
Lemma be_acc_bound bs acc :
  Forall u8 bs → 0 ≤ acc → 0 ≤ be_acc acc bs < (acc + 1) * 256 ^ len bs.
Proof.
  intros Hu. revert acc. induction Hu as [|b bs Hb _ IH]; intros acc Ha; unfold be_acc in *; cbn [fold_left].
  { change (len (@nil Z)) with 0. lia. }
  rewrite len_cons. specialize (IH (acc * 256 + b)). unfold is_uint in Hb. simpl_pow.
  pose proof (len_nonneg bs). rewrite Z.pow_add_r by lia. nia.
Qed.

(** ** Reading and writing *)

Lemma reads_length_loop bs acc ctx :
  Forall u8 bs → 0 ≤ acc → reads (read_length_loop (length bs) acc ctx) bs (be_acc acc bs).
Proof.
  intros Hu. revert acc. induction Hu as [|b bs Hb _ IH]; intros acc Ha; cbn [read_length_loop length].
  { apply reads_ret. }
  change (b :: bs) with ([b] ++ bs). eapply reads_bind; [apply reads_u8|].
  unfold is_uint in Hb. rewrite lor_shiftl_add by lia. apply IH. lia.
Qed.

Lemma rspec_length_loop k acc ctx :
  0 ≤ acc →
  rspec (read_length_loop k acc ctx) (λ n, 0 ≤ n < (acc + 1) * 256 ^ Z.of_nat k).
Proof.
  revert acc. induction k as [|k IH]; intros acc Ha; cbn [read_length_loop].
  { apply rspec_ret. change (256 ^ Z.of_nat 0) with 1. lia. }
  eapply rspec_bind; [apply rspec_u8|]. intros b Hb. unfold is_uint in Hb.
  rewrite lor_shiftl_add by lia. simpl_pow.
  eapply rspec_mono; [apply IH; lia|]. cbn beta. intros n Hn.
  rewrite Nat2Z.inj_succ, Z.pow_succ_r by lia. nia.
Qed.

Lemma writes_length n ctx : u32 n → writes (write_length n ctx) (ber_length_wire n).
Proof.
  intros Hn. unfold write_length, ber_length_wire.
  destruct (Z.ltb_spec n 128).
  - rewrite as_uint_id by (unfold is_uint in *; lia). apply writes_u8.
  - rewrite skip_zeros_8_4 by done. pose proof (skip_zeros_4_len n Hn ltac:(lia)) as Hl.
    rewrite Z.gtb_ltb. replace (4 <? len _) with false by lia.
    rewrite as_uint_id by (unfold is_uint; lia).
    replace (Z.lor 128 (len (skip_zeros (be_bytes 4 n)))) with (128 + len (skip_zeros (be_bytes 4 n))).
    2: { assert (∀ k, 1 ≤ k ≤ 4 → 128 + k = Z.lor 128 k) as Hk; [|by apply Hk].
         intros k Hk. assert (k = 1 ∨ k = 2 ∨ k = 3 ∨ k = 4) as [->|[->|[->| ->]]] by lia; done. }
    change (?a :: ?b) with ([a] ++ b). apply writes_bind; eauto with writes.
Qed.

Lemma reads_length n ctx : u32 n → reads (read_length ctx) (ber_length_wire n) n.
Proof.
  intros Hn. unfold read_length, ber_length_wire. destruct (Z.ltb_spec n 128).
  - rewrite <- (app_nil_r [n]). eapply reads_bind; [apply reads_u8|].
    replace (n <? 128) with true by lia. apply reads_ret.
  - pose proof (skip_zeros_4_len n Hn ltac:(lia)) as Hl.
    set (bs := skip_zeros (be_bytes 4 n)) in *.
    change (?a :: bs) with ([a] ++ bs). eapply reads_bind; [apply reads_u8|].
    replace (128 + len bs <? 128) with false by lia.
    replace (128 + len bs =? 128) with false by lia.
    assert (Z.land (128 + len bs) 127 = len bs) as ->.
    { assert (∀ k, 1 ≤ k ≤ 4 → Z.land (128 + k) 127 = k) as Hk; [|by apply Hk].
      intros k Hk. assert (k = 1 ∨ k = 2 ∨ k = 3 ∨ k = 4) as [->|[->|[->| ->]]] by lia; done. }
    rewrite Z.gtb_ltb. replace (4 <? len bs) with false by lia.
    replace (Z.to_nat (len bs)) with (length bs) by (unfold len; lia).
    assert (be_acc 0 bs = n) as Hv.
    { subst bs. rewrite skip_zeros_value, be_bytes_value; [done|apply Hn]. }
    assert (reads (read_length_loop (length bs) 0 ctx) bs (be_acc 0 bs)) as Hr.
    { apply reads_length_loop; [|lia]. subst bs. apply skip_zeros_u8, be_bytes_u8. }
    by rewrite Hv in Hr.
Qed.

Lemma rspec_length ctx : rspec (read_length ctx) u32.
Proof.
  eapply rspec_bind; [apply rspec_u8|]. intros b Hb. case_if.
  { apply rspec_ret. bool_to_prop. unfold is_uint in *. simpl_pow. lia. }
  case_if; [apply rspec_fail|]. cbv zeta. rewrite Z.gtb_ltb. case_if; [apply rspec_fail|]. bool_to_prop.
  eapply rspec_mono; [by apply rspec_length_loop|]. cbn beta. intros n Hn. unfold is_uint.
  split; [lia|]. eapply Z.lt_le_trans; [apply Hn|]. change (2 ^ 32) with (256 ^ 4).
  rewrite Z.mul_1_l. apply Z.pow_le_mono_r; lia.
Qed.

Lemma len_ber_length_wire n : u32 n → len (ber_length_wire n) = length_size n.
Proof.
  intros Hn. unfold ber_length_wire, length_size. destruct (Z.ltb_spec n 128); [done|].
  rewrite skip_zeros_8_4 by done. by rewrite len_cons.
Qed.

Lemma ber_length_wire_u8 n : u32 n → Forall u8 (ber_length_wire n).
Proof.
  intros Hn. unfold ber_length_wire. destruct (Z.ltb_spec n 128).
  - repeat constructor; unfold is_uint in *; simpl_pow; lia.
  - pose proof (skip_zeros_4_len n Hn ltac:(lia)).
    constructor; [len_lia|]. apply skip_zeros_u8, be_bytes_u8.
Qed.

(** The largest length the encoder accepts is the largest the decoder can say. *)
Lemma write_length_too_large n ctx c :
  2 ^ 32 ≤ n < 2 ^ 64 → write_length n ctx c = Err (FieldTooLarge ctx "ber length").
Proof.
  intros Hn. unfold write_length. replace (n <? 128) with false by lia.
  rewrite Z.gtb_ltb. destruct (Z.ltb_spec 4 (len (skip_zeros (be_bytes 8 n)))) as [|Hl]; [done|].
  exfalso. pose proof (skip_zeros_value (be_bytes 8 n)) as Hv.
  rewrite (be_bytes_value 8) in Hv by (change (256 ^ Z.of_nat 8) with (2 ^ 64); lia).
  pose proof (be_acc_bound (skip_zeros (be_bytes 8 n)) 0
    (skip_zeros_u8 _ (be_bytes_u8 8 n)) ltac:(lia)) as Hb.
  rewrite Hv, Z.mul_1_l in Hb.
  assert (256 ^ len (skip_zeros (be_bytes 8 n)) ≤ 256 ^ 4) by (apply Z.pow_le_mono_r; lia).
  lia.
Qed.

(** *** PER *)

Lemma land_128 b : u8 b → (Z.land b 128 =? 0) = (b <? 128).
Proof.
  intros [H0 H1]. simpl_pow. change 128 with (Z.shiftl 1 7) at 1.
  destruct (Z.ltb_spec b 128).
  - apply Z.eqb_eq, Z.bits_inj'. intros i Hi. rewrite Z.land_spec, Z.bits_0.
    destruct (Z.eq_dec i 7) as [->|Hne].
    + rewrite <- (Z.mod_small b (2 ^ 7)) by lia. by rewrite Z.mod_pow2_bits_high by lia.
    + rewrite Z.shiftl_1_l, Z.pow2_bits_false, andb_false_r by lia. done.
  - apply Z.eqb_neq. intros Hz. apply (f_equal (λ z, Z.testbit z 7)) in Hz.
    rewrite Z.land_spec, Z.bits_0, andb_true_r in Hz.
    rewrite Z.testbit_false in Hz by lia. change (2 ^ 7) with 128 in Hz.
    replace (b / 128) with 1 in Hz; [done|]. apply Z.div_unique with (b - 128); lia.
Qed.

Lemma lor_128 x : 0 ≤ x < 128 → Z.lor 128 x = 128 + x.
Proof. intros. change 128 with (Z.shiftl 1 7) at 1. rewrite lor_shiftl_add by lia. lia. Qed.

Lemma land_127 x : Z.land x 127 = x mod 128.
Proof. change 127 with (Z.ones 7). by rewrite Z.land_ones. Qed.

(** The lengths PER can say in its two forms. *)
Definition per_length_ok (n : Z) : Prop := 0 ≤ n ≤ 0x7FFF.

Lemma writes_per_length n ctx : per_length_ok n → writes (per_write_length n ctx) (per_length_wire n).
Proof.
  intros [H0 H1]. unfold per_write_length, per_length_wire. destruct (Z.ltb_spec n 128).
  - rewrite as_uint_id by (unfold is_uint; lia). apply writes_u8.
  - replace (n <=? 32767) with true by lia.
    change (n mod 256) with (n mod 2 ^ 8). rewrite Z.shiftr_div_pow2 by lia.
    change 0xFF with (Z.ones 8). rewrite Z.land_ones by lia.
    assert (0 ≤ n / 256 < 128) by (split; [apply Z.div_pos|apply Z.div_lt_upper_bound]; lia).
    change (2 ^ 8) with 256. pose proof (Z.mod_pos_bound n 256 ltac:(lia)).
    rewrite !as_uint_id, lor_128 by (unfold is_uint; simpl_pow; lia).
    change [?a; ?b] with ([a] ++ [b]). solve_writes.
Qed.

Lemma reads_per_length n ctx : per_length_ok n → reads (per_read_length ctx) (per_length_wire n) n.
Proof.
  intros [H0 H1]. unfold per_read_length, per_length_wire. destruct (Z.ltb_spec n 128).
  - rewrite <- (app_nil_r [n]). eapply reads_bind; [apply reads_u8|].
    rewrite land_128 by (unfold is_uint; simpl_pow; lia). replace (n <? 128) with true by lia. apply reads_ret.
  - assert (0 ≤ n / 256 < 128) by (split; [apply Z.div_pos|apply Z.div_lt_upper_bound]; lia).
    change [?a; ?b] with ([a] ++ [b]). eapply reads_bind; [apply reads_u8|].
    rewrite land_128 by (unfold is_uint; simpl_pow; lia).
    replace (128 + n / 256 <? 128) with false by lia.
    rewrite land_127. replace ((128 + n / 256) mod 128) with (n / 256).
    2: { apply Z.mod_unique with 1; lia. }
    pose proof (reads_bind_ret (read_u8 ctx) (λ b2, Z.lor (Z.shiftl (n / 256) 8) b2) _ _
      (reads_u8 (n mod 256) ctx)) as Hr. cbv beta in Hr.
    pose proof (Z.mod_pos_bound n 256 ltac:(lia)).
    rewrite (lor_shiftl_add 8 (n / 256) (n mod 256)) in Hr by lia.
    replace (n / 256 * 2 ^ 8 + n mod 256) with n in Hr; [done|].
    change (2 ^ 8) with 256. rewrite (Z.div_mod n 256) at 1 by lia. lia.
Qed.

Lemma rspec_per_length ctx : rspec (per_read_length ctx) per_length_ok.
Proof.
  eapply rspec_bind; [apply rspec_u8|]. intros b Hb. rewrite land_128 by done. case_if.
  - apply rspec_ret. bool_to_prop. unfold per_length_ok, is_uint in *. lia.
  - eapply rspec_bind; [apply rspec_u8|]. intros b2 Hb2. apply rspec_ret.
    rewrite land_127. pose proof (Z.mod_pos_bound b 128 ltac:(lia)).
    unfold is_uint in *. rewrite lor_shiftl_add by lia. unfold per_length_ok. simpl_pow. lia.
Qed.

Lemma len_per_length_wire n : len (per_length_wire n) = per_length_size n.
Proof. unfold per_length_wire, per_length_size. by case_if. Qed.

Lemma per_length_wire_u8 n : per_length_ok n → Forall u8 (per_length_wire n).
Proof.
  intros [H0 H1]. unfold per_length_wire. destruct (Z.ltb_spec n 128).
  - repeat constructor; unfold is_uint; simpl_pow; lia.
  - assert (0 ≤ n / 256 < 128) by (split; [apply Z.div_pos|apply Z.div_lt_upper_bound]; lia).
    pose proof (Z.mod_pos_bound n 256 ltac:(lia)).
    repeat constructor; unfold is_uint; simpl_pow; lia.
Qed.

Lemma per_write_length_too_large n ctx c :
  0x7FFF < n → per_write_length n ctx c = Err (FieldTooLarge ctx "per length").
Proof.
  intros. unfold per_write_length. replace (n <? 128) with false by lia.
  by replace (n <=? 32767) with false by lia.
Qed.

Definition integer16_wire (min value : Z) : list Z := be_bytes 2 (value - min).

Arguments integer16_wire : simpl never.

(** A [u16] at or above the minimum. *)
Definition integer16_ok (min value : Z) : Prop := min ≤ value < 2 ^ 16.

Lemma writes_integer16 value min ctx :
  integer16_ok min value → writes (per_write_integer16 value min ctx) (integer16_wire min value).
Proof.
  intros [? ?]. unfold per_write_integer16. replace (min <=? value) with true by lia.
  eapply writes_lift; [done|]. apply writes_u16_be.
Qed.

Lemma reads_integer16 value min ctx :
  0 ≤ min → integer16_ok min value →
  reads (per_read_integer16 min ctx) (integer16_wire min value) value.
Proof.
  intros Hm [? ?].
  assert (u16 (value - min)) as Hu by (unfold is_uint; lia).
  pose proof (reads_bind_ret (read_u16_be ctx) (λ f, sat_uint 16 (f + min)) _ _
    (reads_u16_be (value - min) ctx Hu)) as Hr. cbv beta in Hr.
  replace (sat_uint 16 (value - min + min)) with value in Hr; [done|].
  unfold sat_uint. lia.
Qed.

Lemma rspec_integer16 min ctx :
  0 ≤ min < 2 ^ 16 → rspec (per_read_integer16 min ctx) (integer16_ok min).
Proof.
  intros Hm. eapply rspec_bind; [apply rspec_u16_be|]. intros f Hf. apply rspec_ret.
  unfold integer16_ok, sat_uint, is_uint in *. lia.
Qed.

(** Below the minimum the subtraction would wrap; the encoder refuses. *)
Lemma write_integer16_below value min ctx c :
  value < min → per_write_integer16 value min ctx c = Err (FieldTooLarge ctx "integer16").
Proof.
  intros. unfold per_write_integer16, mbind, stm_bind, lift.
  by replace (min <=? value) with false by lia.
Qed.

Lemma len_integer16_wire min value : len (integer16_wire min value) = 2.
Proof. done. Qed.
Lemma integer16_wire_u8 min value : Forall u8 (integer16_wire min value).
Proof. apply be_bytes_u8. Qed.

#[export] Hint Resolve reads_length reads_per_length reads_integer16 : reads.
#[export] Hint Resolve writes_length writes_per_length writes_integer16 : writes.
#[export] Hint Resolve rspec_length rspec_per_length rspec_integer16 : rspec.
#[export] Hint Resolve ber_length_wire_u8 per_length_wire_u8 integer16_wire_u8 : width.
#[export] Hint Rewrite len_per_length_wire len_integer16_wire : len.

(** ** Automation for PDUs with fixed bytes

    Where a decoder compares a byte it read with a constant, the comparison is
    decided on the way ([tagged_law]); otherwise as [codec_law]. *)
Lemma reads_bind_last {A B} (r : reader A) (f : A → reader B) bs a b :
  reads r bs a → reads (f a) [] b → reads (r ≫= f) bs b.
Proof. intros. rewrite <- (app_nil_r bs). by eapply reads_bind. Qed.

Ltac decide_tags := rewrite ?Z.eqb_refl; cbn [negb].

Ltac solve_reads_tagged :=
  repeat first
    [ eapply reads_bind_ret; solve [eauto with reads width]
    | eapply reads_bind; [solve [eauto with reads width]|]; decide_tags
    | eapply reads_bind_last; [solve [eauto with reads width]|]; decide_tags
    | apply reads_ret ].

Ltac solve_rspec_tagged :=
  repeat first
    [ apply rspec_fail
    | eapply rspec_bind; [solve [eauto with rspec width]|]; intros ? ?; cbv beta in *
    | apply rspec_if; intros ?
    | apply rspec_ret ].

Ltac tagged_law :=
  match goal with
  | |- ∀ m, _ → reads _ _ _ =>
    let H := fresh in intros [] H; codec_unfold; solve_reads_tagged
  | |- rspec _ _ => codec_unfold; solve_rspec_tagged; codec_unfold; split_and?; auto
  | |- _ => codec_law
  end.

(** ** Encoders that refuse

    [errs w n e]: with room for [n] bytes at the cursor, [w] ends with [e]. *)
Definition errs (w : writer unit) (n : Z) (e : EncodeError) : Prop :=
  ∀ pre old, n ≤ len old → w (mkWrite (pre ++ old) (len pre)) = Err e.

Lemma errs_now w e : (∀ c, w c = Err e) → errs w 0 e.
Proof. intros H pre old _. apply H. Qed.

Lemma errs_first (w1 w2 : writer unit) e n : errs w1 n e → errs (w1;; w2) n e.
Proof. intros H pre old Hn. unfold mbind, stm_bind. by rewrite H. Qed.

Lemma errs_bind (w1 w2 : writer unit) bs k n e :
  writes w1 bs → len bs = k → 0 ≤ n → errs w2 n e → errs (w1;; w2) (k + n) e.
Proof.
  intros Hw <- Hn He pre old Hl. pose proof (len_nonneg bs).
  destruct (list_split_len old (len bs) (len old - len bs)) as (o1 & o2 & -> & H1 & H2); [lia..|].
  unfold mbind, stm_bind. rewrite Hw by done.
  specialize (He (pre ++ bs) o2). rewrite <- app_assoc, len_app in He.
  apply He. rewrite len_app in Hl. lia.
Qed.

Lemma encode_vec_errs {T} `{Encode T} (m : T) n e :
  errs (encode m) n e → n ≤ enc_size m → 0 ≤ enc_size m → encode_vec m = Err e.
Proof.
  intros He Hn H0. unfold encode_vec, write_new.
  specialize (He [] (replicate (Z.to_nat (enc_size m)) 0)). cbn [app] in He.
  change (len (@nil Z)) with 0 in He. by rewrite He by (rewrite len_replicate; lia).
Qed.

(** ** Steps every decoder shares *)

Lemma reads_lift {A B} (m : outcome DecodeError A) a (f : A → reader B) bs b :
  m = Ok a → reads (f a) bs b → reads (lift m ≫= f) bs b.
Proof. by intros -> Hf. Qed.

Lemma rspec_peek ctx : rspec (peek_u8 ctx) u8.
Proof.
  intros c Hc Hu. unfold peek_u8, ensure, remaining, mbind, stm_bind, lift, sub_uint, cursor_ok in *.
  replace (rpos c <=? len (rbuf c)) with true by lia.
  destruct (Z.ltb_spec (len (rbuf c) - rpos c) 1) as [|Hr]; [done|]. cbn.
  unfold peek, lift, index. replace (0 <=? rpos c) with true by lia.
  destruct (lookup_lt_is_Some_2 (rbuf c) (Z.to_nat (rpos c))) as [x Hx]; [unfold len in *; lia|].
  rewrite Hx. cbn. split_and!; [|done|lia..]. by eapply Forall_lookup_1 in Hu.
Qed.

Lemma rspec_lift {A B} (m : outcome DecodeError A) (f : A → reader B) P :
  m ≠ Panic → (∀ a, m = Ok a → rspec (f a) P) → rspec (lift m ≫= f) P.
Proof. destruct m as [a|e|]; intros Hp Hf; [by apply Hf|apply rspec_fail|done]. Qed.

Lemma decode_rspec {T} `{Decode T} (P : T → Prop) bytes :
  rspec decode_from P → Forall u8 bytes →
  match decode bytes with Ok m => P m | Err _ => True | Panic => False end.
Proof.
  intros Hr Hu. unfold decode. pose proof (len_nonneg bytes).
  specialize (Hr (read_new bytes) ltac:(split; cbn; lia) Hu).
  by destruct (decode_from (read_new bytes)) as [[m c]|e|]; [apply Hr|..].
Qed.
