(* ===== verification/RdpFrame.v ===== *)
(** * RDP framing: TPKT, X.224 data headers and MCS frames

    [crates/oxrdp-pdu/src/tpkt.rs], [x224.rs] and [frame.rs]: every PDU of the
    RDP path after the connection request travels in a TPKT frame whose 16-bit
    length covers the whole of it, behind a fixed X.224 data header. *)

From S2P Require Import Prelude Cursor Wire Ber.

(** ** [TpktHeader] *)

Definition TPKT_HEADER_LEN : Z := 4.
Definition TPKT_VERSION : Z := 3.

Record TpktHeader : Type := mkTpktHeader { tpkt_length : Z }.

Definition payload_len (h : TpktHeader) : Z := Z.max 0 (tpkt_length h - TPKT_HEADER_LEN).

Definition TpktHeader_decode : reader TpktHeader :=
  version ← read_u8 "TPKT version";
  if negb (version =? TPKT_VERSION) then fail (InvalidField "TPKT" "version" "expected 3")
  else
    _ ← read_u8 "TPKT reserved";
    length ← read_u16_be "TPKT length";
    if length <? TPKT_HEADER_LEN
    then fail (InvalidLength "TPKT" "length is smaller than the header")
    else mret (mkTpktHeader length).

Definition TpktHeader_size (_ : TpktHeader) : Z := TPKT_HEADER_LEN.

Definition TpktHeader_encode (h : TpktHeader) : writer unit :=
  write_u8 TPKT_VERSION "TPKT version";;
  write_u8 0 "TPKT reserved";;
  write_u16_be (tpkt_length h) "TPKT length";;
  mret tt.

#[export] Instance TpktHeader_Encode : Encode TpktHeader :=
  {| enc_size := TpktHeader_size; encode := TpktHeader_encode |}.
#[export] Instance TpktHeader_Decode : Decode TpktHeader := TpktHeader_decode.

(** The lengths the decoder accepts: at least the header itself. *)
Definition TpktHeader_wf (h : TpktHeader) : Prop :=
  u16 (tpkt_length h) ∧ TPKT_HEADER_LEN ≤ tpkt_length h.
Definition TpktHeader_wire (h : TpktHeader) : list Z :=
  [TPKT_VERSION] ++ [0] ++ be_bytes 2 (tpkt_length h).

Arguments TpktHeader_wire : simpl never.

#[export] Hint Unfold TpktHeader_size TpktHeader_encode TpktHeader_decode TpktHeader_Encode
  TpktHeader_Decode TpktHeader_wf TpktHeader_wire tpkt_length TPKT_HEADER_LEN : codec.

(** Every header is written as its layout, the malformed ones too. *)
Lemma writes_tpkt (h : TpktHeader) : writes (encode h) (TpktHeader_wire h).
Proof. codec_unfold. solve_writes. Qed.

#[export, refine] Instance TpktHeader_WireFormat : WireFormat TpktHeader :=
  {| wf := TpktHeader_wf; wire := TpktHeader_wire |}.
Proof.
  - tagged_law.
  - tagged_law.
  - intros [l] [Hl H4]. codec_unfold. cbn [tpkt_length] in *. solve_reads_tagged.
    replace (l <? 4) with false by lia. apply reads_ret.
  - intros h Hh. unfold TpktHeader_wire. solve_bytes; apply byte_wire_u8; len_lia.
  - tagged_law. bool_to_prop. done.
Defined.

(** ** [X224DataHeader] *)

Definition X224_DATA_HEADER_LEN : Z := 3.
Definition X224_DATA_LI : Z := 0x02.
Definition X224_DT_DATA_CODE : Z := 0xF0.
Definition X224_EOT : Z := 0x80.

Inductive X224DataHeader : Type := mkX224DataHeader.

Definition X224DataHeader_decode : reader X224DataHeader :=
  li ← read_u8 "X.224 length indicator";
  if negb (li =? X224_DATA_LI) then fail (InvalidField "X.224 data" "length indicator" "expected 2")
  else
    code ← read_u8 "X.224 TPDU code";
    if negb (code =? X224_DT_DATA_CODE)
    then fail (InvalidField "X.224 data" "TPDU code" "expected DT data (0xF0)")
    else
      eot ← read_u8 "X.224 EOT";
      if negb (eot =? X224_EOT) then fail (InvalidField "X.224 data" "EOT" "expected 0x80")
      else mret mkX224DataHeader.

Definition X224DataHeader_size (_ : X224DataHeader) : Z := X224_DATA_HEADER_LEN.

Definition X224DataHeader_encode (_ : X224DataHeader) : writer unit :=
  write_u8 X224_DATA_LI "X.224 length indicator";;
  write_u8 X224_DT_DATA_CODE "X.224 TPDU code";;
  write_u8 X224_EOT "X.224 EOT";;
  mret tt.

#[export] Instance X224DataHeader_Encode : Encode X224DataHeader :=
  {| enc_size := X224DataHeader_size; encode := X224DataHeader_encode |}.
#[export] Instance X224DataHeader_Decode : Decode X224DataHeader := X224DataHeader_decode.

Definition X224DataHeader_wf (_ : X224DataHeader) : Prop := True.
Definition X224DataHeader_wire (_ : X224DataHeader) : list Z :=
  [X224_DATA_LI] ++ [X224_DT_DATA_CODE] ++ [X224_EOT].

Arguments X224DataHeader_wire : simpl never.

#[export] Hint Unfold X224DataHeader_size X224DataHeader_encode X224DataHeader_decode
  X224DataHeader_Encode X224DataHeader_Decode X224DataHeader_wf X224DataHeader_wire
  X224_DATA_HEADER_LEN : codec.

#[export, refine] Instance X224DataHeader_WireFormat : WireFormat X224DataHeader :=
  {| wf := X224DataHeader_wf; wire := X224DataHeader_wire |}.
Proof.
  - tagged_law.
  - tagged_law.
  - tagged_law.
  - intros h _. unfold X224DataHeader_wire, X224_DATA_LI, X224_DT_DATA_CODE, X224_EOT.
    solve_bytes; apply byte_wire_u8; len_lia.
  - tagged_law.
Defined.

(** ** MCS frames ([frame.rs]) *)

Definition wrap_mcs (payload : list Z) : outcome EncodeError (list Z) :=
  let total := TPKT_HEADER_LEN + X224_DATA_HEADER_LEN + len payload in
  out ← encode_vec (mkTpktHeader (as_uint 16 total));
  x224 ← encode_vec mkX224DataHeader;
  mret (out ++ x224 ++ payload).

Definition mcs_payload (frame : list Z) : outcome DecodeError (list Z) :=
  tpkt ← decode (T:=TpktHeader) frame;
  let fin := Z.min (tpkt_length tpkt) (len frame) in
  if fin <? TPKT_HEADER_LEN + X224_DATA_HEADER_LEN
  then Err (InvalidLength "MCS frame" "frame shorter than TPKT+X224 headers")
  else
    rest ← slice frame TPKT_HEADER_LEN (len frame);
    _ ← decode (T:=X224DataHeader) rest;
    slice frame (TPKT_HEADER_LEN + X224_DATA_HEADER_LEN) fin.

(** ** Properties *)

(** The frame of a payload: a header whose length is taken at 16 bits. *)
Definition mcs_frame (payload : list Z) : list Z :=
  TpktHeader_wire (mkTpktHeader (as_uint 16 (7 + len payload))) ++
  X224DataHeader_wire mkX224DataHeader ++ payload.

Lemma wrap_mcs_ok payload : wrap_mcs payload = Ok (mcs_frame payload).
Proof.
  unfold wrap_mcs. rewrite (encode_vec_writes _ _ (writes_tpkt _)) by done.
  cbn [mbind outcome_bind]. by rewrite (encode_vec_wire (T:=X224DataHeader)) by done.
Qed.

Lemma len_mcs_frame payload : len (mcs_frame payload) = 7 + len payload.
Proof. unfold mcs_frame. rewrite !len_app. change (len (TpktHeader_wire _)) with 4.
  change (len (X224DataHeader_wire _)) with 3. lia. Qed.

Lemma decode_tpkt n rest :
  u16 n → 4 ≤ n → decode (TpktHeader_wire (mkTpktHeader n) ++ rest) = Ok (mkTpktHeader n).
Proof. intros. exact (decode_wire (T:=TpktHeader) (mkTpktHeader n) rest (conj H H0)). Qed.

Lemma decode_x224 rest :
  decode (X224DataHeader_wire mkX224DataHeader ++ rest) = Ok mkX224DataHeader.
Proof. exact (decode_wire (T:=X224DataHeader) mkX224DataHeader rest I). Qed.

(** What [mcs_payload] makes of a frame with any length field: the bytes up to
    the smaller of the field and the buffer. *)
Lemma mcs_payload_frame n payload body rest :
  u16 n → 7 ≤ n → Z.min n (7 + len (payload ++ rest)) = 7 + len payload →
  body = payload ++ rest →
  mcs_payload (TpktHeader_wire (mkTpktHeader n) ++ X224DataHeader_wire mkX224DataHeader ++ body) =
  Ok payload.
Proof.
  intros Hn H7 Hmin ->. unfold mcs_payload.
  rewrite decode_tpkt by (done || lia).
  cbn [mbind outcome_bind tpkt_length].
  set (hd := TpktHeader_wire _).
  assert (len hd = 4) as H4 by done. assert (len (X224DataHeader_wire mkX224DataHeader) = 3) as H3 by done.
  rewrite !len_app, H4, H3. rewrite len_app in Hmin. pose proof (len_nonneg payload).
  replace (4 + (3 + (len payload + len rest))) with (7 + (len payload + len rest)) by lia.
  rewrite Hmin. unfold TPKT_HEADER_LEN, X224_DATA_HEADER_LEN.
  replace (7 + len payload <? 4 + 3) with false by lia.
  rewrite <- (app_nil_r (hd ++ X224DataHeader_wire mkX224DataHeader ++ payload ++ rest)), <- (app_assoc hd).
  rewrite (slice_mid hd _ [] 4) by (rewrite ?len_app; lia). cbn [mbind outcome_bind].
  rewrite decode_x224. cbn [mbind outcome_bind].
  rewrite app_nil_r, (app_assoc hd). apply slice_mid; rewrite len_app; lia.
Qed.

Lemma mcs_payload_of_frame payload rest :
  len payload ≤ 65528 → mcs_payload (mcs_frame payload ++ rest) = Ok payload.
Proof.
  intros Hl. pose proof (len_nonneg payload). pose proof (len_nonneg rest).
  unfold mcs_frame. rewrite <- !app_assoc.
  rewrite as_uint_id by (unfold is_uint; simpl_pow; lia).
  eapply mcs_payload_frame; [unfold is_uint; simpl_pow; lia|lia| |done]. rewrite len_app. lia.
Qed.

(** A payload of at most 65528 bytes survives framing: [wrap_mcs] builds a frame seven bytes longer, and [mcs_payload] gives the payload back from that frame, whatever bytes follow it in the buffer. *)
Theorem mcs_frame_roundtrip payload rest :
  len payload ≤ 65528 →
  ∃ frame, wrap_mcs payload = Ok frame ∧ len frame = 7 + len payload ∧
           mcs_payload (frame ++ rest) = Ok payload.
Proof.
  intros Hl. exists (mcs_frame payload).
  split_and!; [apply wrap_mcs_ok|apply len_mcs_frame|by apply mcs_payload_of_frame].
Qed.

Lemma mcs_frame_roundtrip_witness :
  ∃ frame, wrap_mcs [1; 2; 3; 4] = Ok frame ∧ len frame = 11 ∧
           mcs_payload (frame ++ [9; 9]) = Ok [1; 2; 3; 4].
Proof.
  destruct (mcs_frame_roundtrip [1; 2; 3; 4] [9; 9] ltac:(done)) as (f & ? & ? & ?).
  by exists f.
Defined.

(** What [mcs_payload] returns lies within the length the header says. *)
Lemma mcs_payload_within frame :
  Forall u8 frame →
  match mcs_payload frame with
  | Ok p => len p ≤ 65528 ∧ Forall u8 p ∧ ∃ rest, frame = ztake 7 frame ++ p ++ rest
  | Err _ => True
  | Panic => False
  end.
Proof.
  intros Hu. unfold mcs_payload.
  pose proof (decode_total (T:=TpktHeader) frame Hu) as Ht.
  destruct (decode frame) as [h|e|]; cbn [mbind outcome_bind]; [|done..].
  destruct Ht as [[_ Hh] _]. simpl_pow. unfold TPKT_HEADER_LEN, X224_DATA_HEADER_LEN.
  destruct (Z.ltb_spec (Z.min (tpkt_length h) (len frame)) (4 + 3)) as [|Hm]; [done|].
  rewrite (slice_ok frame 4 (len frame)) by lia. cbn [mbind outcome_bind].
  pose proof (decode_total (T:=X224DataHeader) (ztake (len frame - 4) (zdrop 4 frame))
    ltac:(auto with width)) as Hx.
  destruct (decode (T:=X224DataHeader) _) as [x|e|]; cbn [mbind outcome_bind]; [|done..].
  rewrite slice_ok by lia. set (k := Z.min _ _) in *.
  assert (len (ztake (k - (4 + 3)) (zdrop (4 + 3) frame)) = k - 7) as Hlen.
  { rewrite len_ztake by (rewrite len_zdrop by lia; lia). lia. }
  rewrite Hlen. split_and!; [lia|auto with width|]. exists (zdrop k frame).
  rewrite <- (take_drop (Z.to_nat 7) frame) at 1. f_equal.
  change (drop (Z.to_nat 7) frame) with (zdrop 7 frame). change (4 + 3) with 7.
  rewrite <- (take_drop (Z.to_nat (k - 7)) (zdrop 7 frame)) at 1. f_equal.
  unfold zdrop. rewrite drop_drop. f_equal. lia.
Qed.

(** A payload of more than 65528 bytes is framed without an error under a length taken modulo 2^16, and the frame does not give the payload back: the receiver reads a shorter one or refuses the frame. *)
Theorem wrap_mcs_truncates_length payload :
  Forall u8 payload → 65528 < len payload →
  ∃ frame, wrap_mcs payload = Ok frame ∧ mcs_payload frame ≠ Ok payload.
Proof.
  intros Hu Hl. exists (mcs_frame payload). split; [apply wrap_mcs_ok|]. intros E.
  assert (Forall u8 (mcs_frame payload)) as Hf.
  { unfold mcs_frame. rewrite !Forall_app. split_and!; [|by repeat constructor|done].
    unfold TpktHeader_wire. solve_bytes; apply byte_wire_u8; len_lia. }
  pose proof (mcs_payload_within _ Hf) as Hw. rewrite E in Hw. lia.
Qed.

Lemma wrap_mcs_truncates_length_witness :
  ∃ frame, wrap_mcs (replicate (Z.to_nat 65529) 0) = Ok frame ∧
           mcs_payload frame ≠ Ok (replicate (Z.to_nat 65529) 0).
Proof.
  apply wrap_mcs_truncates_length.
  - apply Forall_replicate. len_lia.
  - rewrite len_replicate; lia.
Defined.
