(* ===== verification/RdpMcs.v ===== *)
(** * MCS domain PDUs and send-data PDUs

    [crates/oxrdp-pdu/src/mcs.rs] and [send_data.rs]: the PDUs that attach a
    user, join channels and carry data on them.  User ids travel as their
    distance from 1001, data behind a PER length. *)

From S2P Require Import Prelude Cursor Wire Ber.

Definition ERECT_DOMAIN_REQUEST : Z := 0x04.
Definition ATTACH_USER_REQUEST : Z := 0x28.
Definition ATTACH_USER_CONFIRM : Z := 0x2E.
Definition CHANNEL_JOIN_REQUEST : Z := 0x38.
Definition CHANNEL_JOIN_CONFIRM : Z := 0x3E.
Definition MCS_USERCHANNEL_BASE : Z := 1001.

#[export] Hint Unfold ERECT_DOMAIN_REQUEST ATTACH_USER_REQUEST ATTACH_USER_CONFIRM
  CHANNEL_JOIN_REQUEST CHANNEL_JOIN_CONFIRM MCS_USERCHANNEL_BASE : codec.

(** [if tag != X { return Err(InvalidField { .. }) }] *)
Definition unexpected_tag (ctx : string) : DecodeError :=
  InvalidField ctx "mcs choice" "unexpected DomainMCSPDU tag".

(** A fixed byte is a byte; a user id at or above the base, and a channel id. *)
#[export] Hint Extern 1 (Forall u8 [_]) => apply byte_wire_u8; len_lia : width.
#[export] Hint Extern 3 (integer16_ok _ _) => (unfold integer16_ok, is_uint in *; simpl_pow; lia) : reads writes.
#[export] Hint Extern 3 (0 ≤ _) => lia : reads.
#[export] Hint Extern 3 (0 ≤ _ < _) => (simpl_pow; lia) : rspec.

(** ** [ErectDomainRequest] *)

Inductive ErectDomainRequest : Type := mkErectDomainRequest.

Definition erect_body : list Z := [0x01; 0x00; 0x01; 0x00].

Definition ErectDomainRequest_size (_ : ErectDomainRequest) : Z := 5.
Definition ErectDomainRequest_encode (_ : ErectDomainRequest) : writer unit :=
  write_u8 ERECT_DOMAIN_REQUEST "MCS ErectDomainRequest";;
  write_slice erect_body "MCS ErectDomainRequest body".
Definition ErectDomainRequest_decode : reader ErectDomainRequest :=
  tag ← read_u8 "MCS ErectDomainRequest";
  if negb (tag =? ERECT_DOMAIN_REQUEST) then fail (unexpected_tag "MCS ErectDomainRequest")
  else
    body ← read_slice 4 "MCS ErectDomainRequest body";
    if negb (bool_decide (body = erect_body))
    then fail (InvalidField "MCS ErectDomainRequest" "erect domain body" "unexpected DomainMCSPDU tag")
    else mret mkErectDomainRequest.

#[export] Instance ErectDomainRequest_Encode : Encode ErectDomainRequest :=
  {| enc_size := ErectDomainRequest_size; encode := ErectDomainRequest_encode |}.
#[export] Instance ErectDomainRequest_Decode : Decode ErectDomainRequest := ErectDomainRequest_decode.

Definition ErectDomainRequest_wire (_ : ErectDomainRequest) : list Z :=
  [ERECT_DOMAIN_REQUEST] ++ erect_body.

#[export] Hint Unfold ErectDomainRequest_size ErectDomainRequest_encode ErectDomainRequest_decode
  ErectDomainRequest_Encode ErectDomainRequest_Decode ErectDomainRequest_wire : codec.

#[export, refine] Instance ErectDomainRequest_WireFormat : WireFormat ErectDomainRequest :=
  {| wf := λ _, True; wire := ErectDomainRequest_wire |}.
Proof.
  - done.
  - tagged_law.
  - intros [] _. codec_unfold. eapply reads_bind; [apply reads_u8|].
    eapply reads_bind_last; [by apply (reads_slice erect_body)|].
    rewrite bool_decide_true by done. apply reads_ret.
  - intros m _. codec_unfold. unfold erect_body. cbn [app]. repeat (constructor; [len_lia|]). constructor.
  - tagged_law.
Defined.

(** ** [AttachUserRequest] *)

Inductive AttachUserRequest : Type := mkAttachUserRequest.

Definition AttachUserRequest_size (_ : AttachUserRequest) : Z := 1.
Definition AttachUserRequest_encode (_ : AttachUserRequest) : writer unit :=
  write_u8 ATTACH_USER_REQUEST "MCS AttachUserRequest".
Definition AttachUserRequest_decode : reader AttachUserRequest :=
  tag ← read_u8 "MCS AttachUserRequest";
  if negb (tag =? ATTACH_USER_REQUEST) then fail (unexpected_tag "MCS AttachUserRequest")
  else mret mkAttachUserRequest.

#[export] Instance AttachUserRequest_Encode : Encode AttachUserRequest :=
  {| enc_size := AttachUserRequest_size; encode := AttachUserRequest_encode |}.
#[export] Instance AttachUserRequest_Decode : Decode AttachUserRequest := AttachUserRequest_decode.

Definition AttachUserRequest_wire (_ : AttachUserRequest) : list Z := [ATTACH_USER_REQUEST].

#[export] Hint Unfold AttachUserRequest_size AttachUserRequest_encode AttachUserRequest_decode
  AttachUserRequest_Encode AttachUserRequest_Decode AttachUserRequest_wire : codec.

#[export, refine] Instance AttachUserRequest_WireFormat : WireFormat AttachUserRequest :=
  {| wf := λ _, True; wire := AttachUserRequest_wire |}.
Proof. all: tagged_law. Defined.

(** ** [AttachUserConfirm] *)

Record AttachUserConfirm : Type := mkAttachUserConfirm {
  attach_result : Z;
  attach_user_id : Z
}.

Definition AttachUserConfirm_size (_ : AttachUserConfirm) : Z := 4.
Definition AttachUserConfirm_encode (m : AttachUserConfirm) : writer unit :=
  write_u8 ATTACH_USER_CONFIRM "MCS AttachUserConfirm";;
  write_u8 (attach_result m) "MCS AttachUserConfirm result";;
  per_write_integer16 (attach_user_id m) MCS_USERCHANNEL_BASE "MCS AttachUserConfirm initiator".
Definition AttachUserConfirm_decode : reader AttachUserConfirm :=
  tag ← read_u8 "MCS AttachUserConfirm";
  if negb (tag =? ATTACH_USER_CONFIRM) then fail (unexpected_tag "MCS AttachUserConfirm")
  else
    result ← read_u8 "MCS AttachUserConfirm result";
    user_id ← per_read_integer16 MCS_USERCHANNEL_BASE "MCS AttachUserConfirm initiator";
    mret (mkAttachUserConfirm result user_id).

#[export] Instance AttachUserConfirm_Encode : Encode AttachUserConfirm :=
  {| enc_size := AttachUserConfirm_size; encode := AttachUserConfirm_encode |}.
#[export] Instance AttachUserConfirm_Decode : Decode AttachUserConfirm := AttachUserConfirm_decode.

Definition AttachUserConfirm_wf (m : AttachUserConfirm) : Prop :=
  u8 (attach_result m) ∧ integer16_ok MCS_USERCHANNEL_BASE (attach_user_id m).
Definition AttachUserConfirm_wire (m : AttachUserConfirm) : list Z :=
  [ATTACH_USER_CONFIRM] ++ [attach_result m] ++
  integer16_wire MCS_USERCHANNEL_BASE (attach_user_id m).

Arguments AttachUserConfirm_wire : simpl never.

#[export] Hint Unfold AttachUserConfirm_size AttachUserConfirm_encode AttachUserConfirm_decode
  AttachUserConfirm_Encode AttachUserConfirm_Decode AttachUserConfirm_wf AttachUserConfirm_wire
  attach_result attach_user_id : codec.

#[export, refine] Instance AttachUserConfirm_WireFormat : WireFormat AttachUserConfirm :=
  {| wf := AttachUserConfirm_wf; wire := AttachUserConfirm_wire |}.
Proof. all: tagged_law. Defined.

(** ** [ChannelJoinRequest] *)

Record ChannelJoinRequest : Type := mkChannelJoinRequest {
  joinreq_user_id : Z;
  joinreq_channel_id : Z
}.

Definition ChannelJoinRequest_size (_ : ChannelJoinRequest) : Z := 5.
Definition ChannelJoinRequest_encode (m : ChannelJoinRequest) : writer unit :=
  write_u8 CHANNEL_JOIN_REQUEST "MCS ChannelJoinRequest";;
  per_write_integer16 (joinreq_user_id m) MCS_USERCHANNEL_BASE "MCS ChannelJoinRequest initiator";;
  per_write_integer16 (joinreq_channel_id m) 0 "MCS ChannelJoinRequest channel id".
Definition ChannelJoinRequest_decode : reader ChannelJoinRequest :=
  tag ← read_u8 "MCS ChannelJoinRequest";
  if negb (tag =? CHANNEL_JOIN_REQUEST) then fail (unexpected_tag "MCS ChannelJoinRequest")
  else
    user_id ← per_read_integer16 MCS_USERCHANNEL_BASE "MCS ChannelJoinRequest initiator";
    channel_id ← per_read_integer16 0 "MCS ChannelJoinRequest channel id";
    mret (mkChannelJoinRequest user_id channel_id).

#[export] Instance ChannelJoinRequest_Encode : Encode ChannelJoinRequest :=
  {| enc_size := ChannelJoinRequest_size; encode := ChannelJoinRequest_encode |}.
#[export] Instance ChannelJoinRequest_Decode : Decode ChannelJoinRequest := ChannelJoinRequest_decode.

Definition ChannelJoinRequest_wf (m : ChannelJoinRequest) : Prop :=
  integer16_ok MCS_USERCHANNEL_BASE (joinreq_user_id m) ∧ integer16_ok 0 (joinreq_channel_id m).
Definition ChannelJoinRequest_wire (m : ChannelJoinRequest) : list Z :=
  [CHANNEL_JOIN_REQUEST] ++ integer16_wire MCS_USERCHANNEL_BASE (joinreq_user_id m) ++
  integer16_wire 0 (joinreq_channel_id m).

Arguments ChannelJoinRequest_wire : simpl never.

#[export] Hint Unfold ChannelJoinRequest_size ChannelJoinRequest_encode ChannelJoinRequest_decode
  ChannelJoinRequest_Encode ChannelJoinRequest_Decode ChannelJoinRequest_wf ChannelJoinRequest_wire
  joinreq_user_id joinreq_channel_id : codec.

#[export, refine] Instance ChannelJoinRequest_WireFormat : WireFormat ChannelJoinRequest :=
  {| wf := ChannelJoinRequest_wf; wire := ChannelJoinRequest_wire |}.
Proof. all: tagged_law. Defined.

(** ** [ChannelJoinConfirm] *)

Record ChannelJoinConfirm : Type := mkChannelJoinConfirm {
  joinconf_result : Z;
  joinconf_user_id : Z;
  joinconf_requested_channel_id : Z;
  joinconf_channel_id : Z
}.

Definition ChannelJoinConfirm_size (_ : ChannelJoinConfirm) : Z := 8.
Definition ChannelJoinConfirm_encode (m : ChannelJoinConfirm) : writer unit :=
  write_u8 CHANNEL_JOIN_CONFIRM "MCS ChannelJoinConfirm";;
  write_u8 (joinconf_result m) "MCS ChannelJoinConfirm result";;
  per_write_integer16 (joinconf_user_id m) MCS_USERCHANNEL_BASE "MCS ChannelJoinConfirm initiator";;
  per_write_integer16 (joinconf_requested_channel_id m) 0 "MCS ChannelJoinConfirm requested channel id";;
  per_write_integer16 (joinconf_channel_id m) 0 "MCS ChannelJoinConfirm channel id".
Definition ChannelJoinConfirm_decode : reader ChannelJoinConfirm :=
  tag ← read_u8 "MCS ChannelJoinConfirm";
  if negb (tag =? CHANNEL_JOIN_CONFIRM) then fail (unexpected_tag "MCS ChannelJoinConfirm")
  else
    result ← read_u8 "MCS ChannelJoinConfirm result";
    user_id ← per_read_integer16 MCS_USERCHANNEL_BASE "MCS ChannelJoinConfirm initiator";
    requested_channel_id ← per_read_integer16 0 "MCS ChannelJoinConfirm requested channel id";
    channel_id ← per_read_integer16 0 "MCS ChannelJoinConfirm channel id";
    mret (mkChannelJoinConfirm result user_id requested_channel_id channel_id).

#[export] Instance ChannelJoinConfirm_Encode : Encode ChannelJoinConfirm :=
  {| enc_size := ChannelJoinConfirm_size; encode := ChannelJoinConfirm_encode |}.
#[export] Instance ChannelJoinConfirm_Decode : Decode ChannelJoinConfirm := ChannelJoinConfirm_decode.

Definition ChannelJoinConfirm_wf (m : ChannelJoinConfirm) : Prop :=
  u8 (joinconf_result m) ∧ integer16_ok MCS_USERCHANNEL_BASE (joinconf_user_id m) ∧
  integer16_ok 0 (joinconf_requested_channel_id m) ∧ integer16_ok 0 (joinconf_channel_id m).
Definition ChannelJoinConfirm_wire (m : ChannelJoinConfirm) : list Z :=
  [CHANNEL_JOIN_CONFIRM] ++ [joinconf_result m] ++
  integer16_wire MCS_USERCHANNEL_BASE (joinconf_user_id m) ++
  integer16_wire 0 (joinconf_requested_channel_id m) ++ integer16_wire 0 (joinconf_channel_id m).

Arguments ChannelJoinConfirm_wire : simpl never.

#[export] Hint Unfold ChannelJoinConfirm_size ChannelJoinConfirm_encode ChannelJoinConfirm_decode
  ChannelJoinConfirm_Encode ChannelJoinConfirm_Decode ChannelJoinConfirm_wf ChannelJoinConfirm_wire
  joinconf_result joinconf_user_id joinconf_requested_channel_id joinconf_channel_id : codec.

#[export, refine] Instance ChannelJoinConfirm_WireFormat : WireFormat ChannelJoinConfirm :=
  {| wf := ChannelJoinConfirm_wf; wire := ChannelJoinConfirm_wire |}.
Proof. all: tagged_law. Defined.

(** * Send-data PDUs ([send_data.rs]) *)

Definition SEND_DATA_REQUEST : Z := 0x64.
Definition SEND_DATA_INDICATION : Z := 0x68.
Definition DATA_PRIORITY_SEGMENTATION : Z := 0x70.

(** [u16::checked_sub] *)
Definition checked_sub (a b : Z) : option Z := if b <=? a then Some (a - b) else None.

#[export] Hint Unfold SEND_DATA_REQUEST SEND_DATA_INDICATION DATA_PRIORITY_SEGMENTATION : codec.

(** Data a PER length can announce. *)
Definition data_ok (d : list Z) : Prop := Forall u8 d ∧ per_length_ok (len d).

Lemma data_ok_bytes d : data_ok d → Forall u8 d.
Proof. by intros [? _]. Qed.
Lemma data_ok_len d : data_ok d → per_length_ok (len d).
Proof. by intros [_ ?]. Qed.

#[export] Hint Resolve data_ok_bytes data_ok_len : width reads writes.

(** The initiator field: written as a checked difference, read back as a
    saturating sum. *)
Lemma writes_initiator i e (w : writer unit) bs ctx :
  integer16_ok 1001 i → writes w bs →
  writes (x ← lift (ok_or (checked_sub i 1001) e); write_u16_be x ctx;; w)
         (integer16_wire 1001 i ++ bs).
Proof.
  intros [? ?] Hb. unfold checked_sub. replace (1001 <=? i) with true by lia.
  eapply writes_lift; [done|]. apply writes_bind; [apply writes_u16_be|done].
Qed.

Lemma reads_initiator i ctx : integer16_ok 1001 i → reads (read_u16_be ctx) (integer16_wire 1001 i) (i - 1001).
Proof. intros [? ?]. apply reads_u16_be. unfold is_uint. lia. Qed.

Lemma initiator_back i : integer16_ok 1001 i → sat_uint 16 (i - 1001 + 1001) = i.
Proof. unfold integer16_ok, sat_uint. lia. Qed.

Lemma initiator_ok f : u16 f → integer16_ok 1001 (sat_uint 16 (f + 1001)).
Proof. unfold is_uint, integer16_ok, sat_uint. lia. Qed.

#[export] Hint Resolve initiator_ok : width.

Ltac solve_send_data :=
  eapply rspec_bind; [apply rspec_u16_be|]; intros ? ?;
  eapply rspec_bind; [apply rspec_u8|]; intros ? _;
  eapply rspec_bind; [apply rspec_per_length|]; intros ? [? ?];
  eapply rspec_bind; [by apply rspec_slice|]; intros ? [<- ?];
  apply rspec_ret; codec_unfold; split_and!; auto with width; by split.

(** ** [SendDataRequest] *)

Record SendDataRequest : Type := mkSendDataRequest {
  sdreq_initiator : Z;
  sdreq_channel_id : Z;
  sdreq_user_data : list Z
}.

Definition SendDataRequest_size (m : SendDataRequest) : Z :=
  1 + 2 + 2 + 1 + per_length_size (len (sdreq_user_data m)) + len (sdreq_user_data m).
Definition SendDataRequest_encode (m : SendDataRequest) : writer unit :=
  write_u8 SEND_DATA_REQUEST "SendDataRequest";;
  initiator ← lift (ok_or (checked_sub (sdreq_initiator m) MCS_USERCHANNEL_BASE)
                          (FieldTooLarge "SendDataRequest" "initiator"));
  write_u16_be initiator "SendDataRequest";;
  write_u16_be (sdreq_channel_id m) "SendDataRequest";;
  write_u8 DATA_PRIORITY_SEGMENTATION "SendDataRequest";;
  per_write_length (len (sdreq_user_data m)) "SendDataRequest";;
  write_slice (sdreq_user_data m) "SendDataRequest";;
  mret tt.
Definition SendDataRequest_decode : reader SendDataRequest :=
  choice ← read_u8 "SendDataRequest";
  if negb (choice =? SEND_DATA_REQUEST)
  then fail (InvalidField "SendDataRequest" "mcs choice" "unexpected send-data tag")
  else
    field ← read_u16_be "SendDataRequest";
    let initiator := sat_uint 16 (field + MCS_USERCHANNEL_BASE) in
    channel_id ← read_u16_be "SendDataRequest";
    _ ← read_u8 "SendDataRequest";
    n ← per_read_length "SendDataRequest";
    user_data ← read_slice n "SendDataRequest";
    mret (mkSendDataRequest initiator channel_id user_data).

#[export] Instance SendDataRequest_Encode : Encode SendDataRequest :=
  {| enc_size := SendDataRequest_size; encode := SendDataRequest_encode |}.
#[export] Instance SendDataRequest_Decode : Decode SendDataRequest := SendDataRequest_decode.

Definition SendDataRequest_wf (m : SendDataRequest) : Prop :=
  integer16_ok MCS_USERCHANNEL_BASE (sdreq_initiator m) ∧ u16 (sdreq_channel_id m) ∧
  data_ok (sdreq_user_data m).
Definition SendDataRequest_wire (m : SendDataRequest) : list Z :=
  [SEND_DATA_REQUEST] ++ integer16_wire MCS_USERCHANNEL_BASE (sdreq_initiator m) ++
  be_bytes 2 (sdreq_channel_id m) ++ [DATA_PRIORITY_SEGMENTATION] ++
  per_length_wire (len (sdreq_user_data m)) ++ sdreq_user_data m.

Arguments SendDataRequest_wire : simpl never.

#[export] Hint Unfold SendDataRequest_size SendDataRequest_encode SendDataRequest_decode SendDataRequest_Encode SendDataRequest_Decode SendDataRequest_wf SendDataRequest_wire
  sdreq_initiator sdreq_channel_id sdreq_user_data : codec.

#[export, refine] Instance SendDataRequest_WireFormat : WireFormat SendDataRequest :=
  {| wf := SendDataRequest_wf; wire := SendDataRequest_wire |}.
Proof.
  - tagged_law.
  - intros [i c d] Hm. codec_unfold. apply writes_bind; [apply writes_u8|].
    apply writes_initiator; [done|]. solve_writes.
  - intros [i c d] Hm. codec_unfold. eapply reads_bind; [apply reads_u8|]. decide_tags.
    eapply reads_bind; [by apply reads_initiator|]. rewrite initiator_back by done.
    solve_reads_tagged. eapply reads_bind_last; [by apply reads_slice|apply reads_ret].
  - tagged_law.
  - codec_unfold. eapply rspec_bind; [apply rspec_u8|]. intros tag _.
    apply rspec_if; intros _; [apply rspec_fail|].
    eapply rspec_bind; [apply rspec_u16_be|]. intros f Hf. cbv zeta. solve_send_data.
Defined.

(** ** [SendDataIndication] *)

Record SendDataIndication : Type := mkSendDataIndication {
  sdind_initiator : Z;
  sdind_channel_id : Z;
  sdind_user_data : list Z
}.

Definition SendDataIndication_size (m : SendDataIndication) : Z :=
  1 + 2 + 2 + 1 + per_length_size (len (sdind_user_data m)) + len (sdind_user_data m).
Definition SendDataIndication_encode (m : SendDataIndication) : writer unit :=
  write_u8 SEND_DATA_INDICATION "SendDataIndication";;
  initiator ← lift (ok_or (checked_sub (sdind_initiator m) MCS_USERCHANNEL_BASE)
                          (FieldTooLarge "SendDataIndication" "initiator"));
  write_u16_be initiator "SendDataIndication";;
  write_u16_be (sdind_channel_id m) "SendDataIndication";;
  write_u8 DATA_PRIORITY_SEGMENTATION "SendDataIndication";;
  per_write_length (len (sdind_user_data m)) "SendDataIndication";;
  write_slice (sdind_user_data m) "SendDataIndication";;
  mret tt.
Definition SendDataIndication_decode : reader SendDataIndication :=
  choice ← read_u8 "SendDataIndication";
  if negb (choice =? SEND_DATA_INDICATION)
  then fail (InvalidField "SendDataIndication" "mcs choice" "unexpected send-data tag")
  else
    field ← read_u16_be "SendDataIndication";
    let initiator := sat_uint 16 (field + MCS_USERCHANNEL_BASE) in
    channel_id ← read_u16_be "SendDataIndication";
    _ ← read_u8 "SendDataIndication";
    n ← per_read_length "SendDataIndication";
    user_data ← read_slice n "SendDataIndication";
    mret (mkSendDataIndication initiator channel_id user_data).

#[export] Instance SendDataIndication_Encode : Encode SendDataIndication :=
  {| enc_size := SendDataIndication_size; encode := SendDataIndication_encode |}.
#[export] Instance SendDataIndication_Decode : Decode SendDataIndication := SendDataIndication_decode.

Definition SendDataIndication_wf (m : SendDataIndication) : Prop :=
  integer16_ok MCS_USERCHANNEL_BASE (sdind_initiator m) ∧ u16 (sdind_channel_id m) ∧
  data_ok (sdind_user_data m).
Definition SendDataIndication_wire (m : SendDataIndication) : list Z :=
  [SEND_DATA_INDICATION] ++ integer16_wire MCS_USERCHANNEL_BASE (sdind_initiator m) ++
  be_bytes 2 (sdind_channel_id m) ++ [DATA_PRIORITY_SEGMENTATION] ++
  per_length_wire (len (sdind_user_data m)) ++ sdind_user_data m.

Arguments SendDataIndication_wire : simpl never.

#[export] Hint Unfold SendDataIndication_size SendDataIndication_encode SendDataIndication_decode SendDataIndication_Encode SendDataIndication_Decode SendDataIndication_wf SendDataIndication_wire
  sdind_initiator sdind_channel_id sdind_user_data : codec.

#[export, refine] Instance SendDataIndication_WireFormat : WireFormat SendDataIndication :=
  {| wf := SendDataIndication_wf; wire := SendDataIndication_wire |}.
Proof.
  - tagged_law.
  - intros [i c d] Hm. codec_unfold. apply writes_bind; [apply writes_u8|].
    apply writes_initiator; [done|]. solve_writes.
  - intros [i c d] Hm. codec_unfold. eapply reads_bind; [apply reads_u8|]. decide_tags.
    eapply reads_bind; [by apply reads_initiator|]. rewrite initiator_back by done.
    solve_reads_tagged. eapply reads_bind_last; [by apply reads_slice|apply reads_ret].
  - tagged_law.
  - codec_unfold. eapply rspec_bind; [apply rspec_u8|]. intros tag _.
    apply rspec_if; intros _; [apply rspec_fail|].
    eapply rspec_bind; [apply rspec_u16_be|]. intros f Hf. cbv zeta. solve_send_data.
Defined.

(** ** Properties *)

(** The laws every PDU of this file has: what is encoded is decoded, with any
    bytes behind it, and no bytes make the decoder panic or return a value out
    of range. *)
Definition sound_codec (T : Type) `{WireFormat T} : Prop :=
  (∀ (m : T) rest, wf m → ∃ bytes, encode_vec m = Ok bytes ∧ len bytes = enc_size m ∧
                     decode (bytes ++ rest) = Ok m) ∧
  (∀ bytes, Forall u8 bytes →
     match decode (T:=T) bytes with Ok m => wf m | Err _ => True | Panic => False end).

Lemma sound_codec_all T `{WireFormat T} : sound_codec T.
Proof.
  split; [|apply decode_total]. intros m rest Hm. exists (wire m).
  split_and!; [by apply encode_vec_wire|by rewrite wire_size|by apply decode_wire].
Qed.

(** Every MCS domain PDU and send-data PDU round-trips through its encoder and decoder, into a buffer of exactly the announced size, and its decoder is total on bytes: it never panics and never yields a user id below 1001 or data longer than a PER length can say. *)
Theorem mcs_pdus_sound :
  sound_codec ErectDomainRequest ∧ sound_codec AttachUserRequest ∧ sound_codec AttachUserConfirm ∧
  sound_codec ChannelJoinRequest ∧ sound_codec ChannelJoinConfirm ∧
  sound_codec SendDataRequest ∧ sound_codec SendDataIndication.
Proof. split_and!; apply sound_codec_all. Qed.

(** *** The encoder of a send-data request on every branch *)

Lemma send_data_low_initiator m :
  sdreq_initiator m < 1001 →
  encode_vec m = Err (FieldTooLarge "SendDataRequest" "initiator").
Proof.
  intros Hi. assert (0 ≤ per_length_size (len (sdreq_user_data m))) by (unfold per_length_size; case_if; lia).
  pose proof (len_nonneg (sdreq_user_data m)).
  eapply (encode_vec_errs m (1 + 0)); [|cbn; unfold SendDataRequest_size; lia..].
  eapply errs_bind; [apply writes_u8|done|lia|]. apply errs_now. intros c.
  unfold checked_sub, mbind, stm_bind, lift, MCS_USERCHANNEL_BASE.
  by replace (1001 <=? sdreq_initiator m) with false by lia.
Qed.

Lemma send_data_long m :
  integer16_ok 1001 (sdreq_initiator m) → 0x7FFF < len (sdreq_user_data m) →
  encode_vec m = Err (FieldTooLarge "SendDataRequest" "per length").
Proof.
  intros [Hi _] Hl. assert (0 ≤ per_length_size (len (sdreq_user_data m))) by (unfold per_length_size; case_if; lia).
  eapply (encode_vec_errs m (1 + (2 + (2 + (1 + 0))))); [|cbn; unfold SendDataRequest_size; lia..].
  eapply errs_bind; [apply writes_u8|done|lia|].
  unfold checked_sub, MCS_USERCHANNEL_BASE.
  replace (1001 <=? sdreq_initiator m) with true by lia.
  change (lift (ok_or (Some ?x) ?e) ≫= ?f) with (f x). cbv beta.
  eapply errs_bind; [apply writes_u16_be|done|lia|].
  eapply errs_bind; [apply writes_u16_be|done|lia|].
  eapply errs_bind; [apply writes_u8|done|lia|].
  apply errs_first, errs_now. intros c. by apply per_write_length_too_large.
Qed.

(** Encoding a send-data request gives exactly its layout when the initiator is a user channel and the data fits a PER length, an error naming the initiator when it is below 1001, and an error naming the length when the data is longer; a length is never truncated. *)
Theorem send_data_encode_cases m :
  u16 (sdreq_initiator m) → u16 (sdreq_channel_id m) → Forall u8 (sdreq_user_data m) →
  encode_vec m =
    if sdreq_initiator m <? 1001 then Err (FieldTooLarge "SendDataRequest" "initiator")
    else if 0x7FFF <? len (sdreq_user_data m) then Err (FieldTooLarge "SendDataRequest" "per length")
    else Ok (SendDataRequest_wire m).
Proof.
  intros Hi Hc Hu. unfold is_uint in Hi. destruct (Z.ltb_spec (sdreq_initiator m) 1001).
  { by apply send_data_low_initiator. }
  destruct (Z.ltb_spec 0x7FFF (len (sdreq_user_data m))).
  { apply send_data_long; [split; lia|done]. }
  refine (encode_vec_wire (T:=SendDataRequest) m _). pose proof (len_nonneg (sdreq_user_data m)).
  split_and!; [split; unfold MCS_USERCHANNEL_BASE; lia|done|split; [done|split; lia]].
Qed.

Lemma send_data_encode_cases_witness :
  encode_vec (mkSendDataRequest 1007 1003 [0xAA; 0xBB]) =
  Ok [0x64; 0x00; 0x06; 0x03; 0xEB; 0x70; 0x02; 0xAA; 0xBB].
Proof.
  rewrite send_data_encode_cases; [reflexivity|..]; cbn;
    [len_lia|len_lia|repeat (constructor; [len_lia|]); constructor].
Defined.
