(* ===== verification/RdpConnect.v ===== *)
(** * Connection negotiation: X.224 connection request and confirm

    [crates/oxrdp-pdu/src/nego.rs] and [connect.rs]: the three negotiation
    structures, and the two TPDUs that carry them behind a one-byte length
    indicator, the request with an optional [mstshash] cookie. *)

From S2P Require Import Prelude Cursor Wire Ber.

Definition RDP_NEG_LEN : Z := 8.
Definition TYPE_NEG_REQ : Z := 0x01.
Definition TYPE_NEG_RSP : Z := 0x02.
Definition TYPE_NEG_FAILURE : Z := 0x03.

#[export] Hint Unfold RDP_NEG_LEN TYPE_NEG_REQ TYPE_NEG_RSP TYPE_NEG_FAILURE : codec.
#[export] Hint Extern 1 (Forall u8 [_]) => apply byte_wire_u8; len_lia : width.
#[export] Hint Extern 1 (is_uint _ 8) => len_lia : reads.

(** ** [NegotiationRequest] *)

Record NegotiationRequest : Type := mkNegotiationRequest {
  negreq_flags : Z;
  negreq_requested_protocols : Z
}.

Definition NegotiationRequest_size (_ : NegotiationRequest) : Z := RDP_NEG_LEN.
Definition NegotiationRequest_encode (m : NegotiationRequest) : writer unit :=
  write_u8 TYPE_NEG_REQ "RDP_NEG_REQ";;
  write_u8 (negreq_flags m) "RDP_NEG_REQ";;
  write_u16_le (as_uint 16 RDP_NEG_LEN) "RDP_NEG_REQ";;
  write_u32_le (negreq_requested_protocols m) "RDP_NEG_REQ";;
  mret tt.
Definition NegotiationRequest_decode : reader NegotiationRequest :=
  typ ← read_u8 "RDP_NEG_REQ";
  if negb (typ =? TYPE_NEG_REQ) then fail (InvalidField "RDP_NEG_REQ" "type" "unexpected negotiation type")
  else
    flags ← read_u8 "RDP_NEG_REQ";
    length ← read_u16_le "RDP_NEG_REQ";
    if negb (length =? RDP_NEG_LEN) then fail (InvalidLength "RDP_NEG_REQ" "length must be 8")
    else v ← read_u32_le "RDP_NEG_REQ"; mret (mkNegotiationRequest flags v).

#[export] Instance NegotiationRequest_Encode : Encode NegotiationRequest :=
  {| enc_size := NegotiationRequest_size; encode := NegotiationRequest_encode |}.
#[export] Instance NegotiationRequest_Decode : Decode NegotiationRequest := NegotiationRequest_decode.

Definition NegotiationRequest_wf (m : NegotiationRequest) : Prop := u8 (negreq_flags m) ∧ u32 (negreq_requested_protocols m).
Definition NegotiationRequest_wire (m : NegotiationRequest) : list Z :=
  [TYPE_NEG_REQ] ++ [negreq_flags m] ++ le_bytes 2 RDP_NEG_LEN ++ le_bytes 4 (negreq_requested_protocols m).

Arguments NegotiationRequest_wire : simpl never.

#[export] Hint Unfold NegotiationRequest_size NegotiationRequest_encode NegotiationRequest_decode NegotiationRequest_Encode NegotiationRequest_Decode NegotiationRequest_wf NegotiationRequest_wire
  negreq_flags negreq_requested_protocols : codec.

#[export, refine] Instance NegotiationRequest_WireFormat : WireFormat NegotiationRequest :=
  {| wf := NegotiationRequest_wf; wire := NegotiationRequest_wire |}.
Proof. all: tagged_law. Defined.

(** ** [NegotiationResponse] *)

Record NegotiationResponse : Type := mkNegotiationResponse {
  negrsp_flags : Z;
  negrsp_selected_protocol : Z
}.

Definition NegotiationResponse_size (_ : NegotiationResponse) : Z := RDP_NEG_LEN.
Definition NegotiationResponse_encode (m : NegotiationResponse) : writer unit :=
  write_u8 TYPE_NEG_RSP "RDP_NEG_RSP";;
  write_u8 (negrsp_flags m) "RDP_NEG_RSP";;
  write_u16_le (as_uint 16 RDP_NEG_LEN) "RDP_NEG_RSP";;
  write_u32_le (negrsp_selected_protocol m) "RDP_NEG_RSP";;
  mret tt.
Definition NegotiationResponse_decode : reader NegotiationResponse :=
  typ ← read_u8 "RDP_NEG_RSP";
  if negb (typ =? TYPE_NEG_RSP) then fail (InvalidField "RDP_NEG_RSP" "type" "unexpected negotiation type")
  else
    flags ← read_u8 "RDP_NEG_RSP";
    length ← read_u16_le "RDP_NEG_RSP";
    if negb (length =? RDP_NEG_LEN) then fail (InvalidLength "RDP_NEG_RSP" "length must be 8")
    else v ← read_u32_le "RDP_NEG_RSP"; mret (mkNegotiationResponse flags v).

#[export] Instance NegotiationResponse_Encode : Encode NegotiationResponse :=
  {| enc_size := NegotiationResponse_size; encode := NegotiationResponse_encode |}.
#[export] Instance NegotiationResponse_Decode : Decode NegotiationResponse := NegotiationResponse_decode.

Definition NegotiationResponse_wf (m : NegotiationResponse) : Prop := u8 (negrsp_flags m) ∧ u32 (negrsp_selected_protocol m).
Definition NegotiationResponse_wire (m : NegotiationResponse) : list Z :=
  [TYPE_NEG_RSP] ++ [negrsp_flags m] ++ le_bytes 2 RDP_NEG_LEN ++ le_bytes 4 (negrsp_selected_protocol m).

Arguments NegotiationResponse_wire : simpl never.

#[export] Hint Unfold NegotiationResponse_size NegotiationResponse_encode NegotiationResponse_decode NegotiationResponse_Encode NegotiationResponse_Decode NegotiationResponse_wf NegotiationResponse_wire
  negrsp_flags negrsp_selected_protocol : codec.

#[export, refine] Instance NegotiationResponse_WireFormat : WireFormat NegotiationResponse :=
  {| wf := NegotiationResponse_wf; wire := NegotiationResponse_wire |}.
Proof. all: tagged_law. Defined.

(** ** [NegotiationFailure] *)

Record NegotiationFailure : Type := mkNegotiationFailure {
  negfail_failure_code : Z
}.

Definition NegotiationFailure_size (_ : NegotiationFailure) : Z := RDP_NEG_LEN.
Definition NegotiationFailure_encode (m : NegotiationFailure) : writer unit :=
  write_u8 TYPE_NEG_FAILURE "RDP_NEG_FAILURE";;
  write_u8 0 "RDP_NEG_FAILURE";;
  write_u16_le (as_uint 16 RDP_NEG_LEN) "RDP_NEG_FAILURE";;
  write_u32_le (negfail_failure_code m) "RDP_NEG_FAILURE";;
  mret tt.
Definition NegotiationFailure_decode : reader NegotiationFailure :=
  typ ← read_u8 "RDP_NEG_FAILURE";
  if negb (typ =? TYPE_NEG_FAILURE) then fail (InvalidField "RDP_NEG_FAILURE" "type" "unexpected negotiation type")
  else
    _ ← read_u8 "RDP_NEG_FAILURE";
    length ← read_u16_le "RDP_NEG_FAILURE";
    if negb (length =? RDP_NEG_LEN) then fail (InvalidLength "RDP_NEG_FAILURE" "length must be 8")
    else v ← read_u32_le "RDP_NEG_FAILURE"; mret (mkNegotiationFailure v).

#[export] Instance NegotiationFailure_Encode : Encode NegotiationFailure :=
  {| enc_size := NegotiationFailure_size; encode := NegotiationFailure_encode |}.
#[export] Instance NegotiationFailure_Decode : Decode NegotiationFailure := NegotiationFailure_decode.

Definition NegotiationFailure_wf (m : NegotiationFailure) : Prop := u32 (negfail_failure_code m).
Definition NegotiationFailure_wire (m : NegotiationFailure) : list Z :=
  [TYPE_NEG_FAILURE] ++ [0] ++ le_bytes 2 RDP_NEG_LEN ++ le_bytes 4 (negfail_failure_code m).

Arguments NegotiationFailure_wire : simpl never.

#[export] Hint Unfold NegotiationFailure_size NegotiationFailure_encode NegotiationFailure_decode NegotiationFailure_Encode NegotiationFailure_Decode NegotiationFailure_wf NegotiationFailure_wire
  negfail_failure_code : codec.

#[export, refine] Instance NegotiationFailure_WireFormat : WireFormat NegotiationFailure :=
  {| wf := NegotiationFailure_wf; wire := NegotiationFailure_wire |}.
Proof. all: tagged_law. Defined.

(** ** [String::from_utf8_lossy]

    Every maximal invalid piece becomes U+FFFD; [second3] and [second4] are the
    ranges a second byte has under a given first byte. *)
Definition REPLACEMENT : list Z := [0xEF; 0xBF; 0xBD].
Definition cont (c : Z) : bool := between 0x80 0xBF c.
Definition second3 (b c : Z) : bool :=
  if b =? 0xE0 then between 0xA0 0xBF c else if b =? 0xED then between 0x80 0x9F c else cont c.
Definition second4 (b c : Z) : bool :=
  if b =? 0xF0 then between 0x90 0xBF c else if b =? 0xF4 then between 0x80 0x8F c else cont c.

Fixpoint utf8_lossy (bs : list Z) : list Z :=
  match bs with
  | [] => []
  | b :: r =>
    if between 0 0x7F b then b :: utf8_lossy r
    else if between 0xC2 0xDF b then
      match r with
      | c1 :: r1 => if cont c1 then b :: c1 :: utf8_lossy r1 else REPLACEMENT ++ utf8_lossy r
      | [] => REPLACEMENT
      end
    else if between 0xE0 0xEF b then
      match r with
      | c1 :: r1 =>
        if second3 b c1 then
          match r1 with
          | c2 :: r2 => if cont c2 then b :: c1 :: c2 :: utf8_lossy r2 else REPLACEMENT ++ utf8_lossy r1
          | [] => REPLACEMENT
          end
        else REPLACEMENT ++ utf8_lossy r
      | [] => REPLACEMENT
      end
    else if between 0xF0 0xF4 b then
      match r with
      | c1 :: r1 =>
        if second4 b c1 then
          match r1 with
          | c2 :: r2 =>
            if cont c2 then
              match r2 with
              | c3 :: r3 =>
                if cont c3 then b :: c1 :: c2 :: c3 :: utf8_lossy r3 else REPLACEMENT ++ utf8_lossy r2
              | [] => REPLACEMENT
              end
            else REPLACEMENT ++ utf8_lossy r1
          | [] => REPLACEMENT
          end
        else REPLACEMENT ++ utf8_lossy r
      | [] => REPLACEMENT
      end
    else REPLACEMENT ++ utf8_lossy r
  end.

(** ** X.224 connection request and confirm ([connect.rs]) *)

Definition CR_CDT : Z := 0xE0.
Definition CC_CDT : Z := 0xD0.
(** [b"Cookie: mstshash="] *)
Definition COOKIE_PREFIX : list Z :=
  [67; 111; 111; 107; 105; 101; 58; 32; 109; 115; 116; 115; 104; 97; 115; 104; 61].
Definition FIXED_HEADER_LEN : Z := 6.

Record ConnectionRequest : Type := mkConnectionRequest {
  cr_cookie : option (list Z);
  cr_negotiation : option NegotiationRequest
}.

Inductive NegotiationConfirm : Type :=
| Response (r : NegotiationResponse)
| Failure (f : NegotiationFailure).

Record ConnectionConfirm : Type := mkConnectionConfirm { cc_negotiation : option NegotiationConfirm }.

Definition cr_variable_size (m : ConnectionRequest) : Z :=
  let cookie_len := from_option (λ c, len COOKIE_PREFIX + len c + 2) 0 (cr_cookie m) in
  let nego_len := from_option NegotiationRequest_size 0 (cr_negotiation m) in
  cookie_len + nego_len.

Definition ConnectionRequest_size (m : ConnectionRequest) : Z :=
  1 + FIXED_HEADER_LEN + cr_variable_size m.

Definition ConnectionRequest_encode (m : ConnectionRequest) : writer unit :=
  li ← lift (ok_or (try_from_uint 8 (FIXED_HEADER_LEN + cr_variable_size m))
                   (FieldTooLarge "X.224 CR" "length indicator"));
  write_u8 li "X.224 CR LI";;
  write_u8 CR_CDT "X.224 CR CDT";;
  write_u16_be 0 "X.224 CR DST-REF";;
  write_u16_be 0 "X.224 CR SRC-REF";;
  write_u8 0 "X.224 CR CLASS-OPTION";;
  match cr_cookie m with
  | Some cookie =>
    write_slice COOKIE_PREFIX "X.224 CR cookie prefix";;
    write_slice cookie "X.224 CR cookie identifier";;
    write_slice [13; 10] "X.224 CR cookie terminator"
  | None => mret tt
  end;;
  match cr_negotiation m with Some n => encode n | None => mret tt end;;
  mret tt.

(** A [ReadCursor::new] over a slice: what it returns, the outer cursor left alone. *)
Definition in_sub {A} (bs : list Z) (r : reader A) : reader A := λ c,
  match r (read_new bs) with
  | Ok (a, _) => Ok (a, c)
  | Err e => Err e
  | Panic => Panic
  end.

(** [li.checked_sub(FIXED_HEADER_LEN)] *)
Definition variable_len (li : Z) (ctx : string) : outcome DecodeError Z :=
  if FIXED_HEADER_LEN <=? li then Ok (li - FIXED_HEADER_LEN)
  else Err (InvalidLength ctx "LI smaller than fixed header length").

(** [windows(2).position(|w| w == b"\r\n")] *)
Fixpoint find_crlf (bs : list Z) : option Z :=
  match bs with
  | a :: ((b :: _) as r) =>
    if (a =? 13) && (b =? 10) then Some 0 else (λ k, k + 1) <$> find_crlf r
  | _ => None
  end.

Definition starts_with (bs p : list Z) : bool := bool_decide (ztake (len p) bs = p).

(** [if sub_cursor.is_empty() { None } else { Some(NegotiationRequest::decode(..)?) }] *)
Definition decode_cr_negotiation : reader (option NegotiationRequest) :=
  e ← is_empty;
  if (e : bool) then mret None else n ← NegotiationRequest_decode; mret (Some n).

Definition ConnectionRequest_decode : reader ConnectionRequest :=
  li ← read_u8 "X.224 CR LI";
  cdt ← read_u8 "X.224 CR CDT";
  if negb (cdt =? CR_CDT) then fail (InvalidField "X.224 CR" "tpdu code" "expected CR-CDT 0xE0")
  else
    _ ← read_u16_be "X.224 CR DST-REF";
    _ ← read_u16_be "X.224 CR SRC-REF";
    _ ← read_u8 "X.224 CR CLASS-OPTION";
    n ← lift (variable_len li "X.224 CR");
    sub ← read_slice n "X.224 CR variable part";
    if starts_with sub COOKIE_PREFIX then
      body ← in_sub sub (
        _ ← read_slice (len COOKIE_PREFIX) "X.224 CR cookie prefix";
        n ← remaining;
        read_slice n "X.224 CR cookie body");
      crlf_pos ← lift (ok_or (find_crlf body)
                             (InvalidField "X.224 CR" "cookie" "missing CR LF terminator"));
      cookie ← lift (slice body 0 crlf_pos);
      rest ← lift (slice body (crlf_pos + 2) (len body));
      negotiation ← in_sub rest decode_cr_negotiation;
      mret (mkConnectionRequest (Some (utf8_lossy cookie)) negotiation)
    else
      negotiation ← in_sub sub decode_cr_negotiation;
      mret (mkConnectionRequest None negotiation).

Definition NegotiationConfirm_size (n : NegotiationConfirm) : Z :=
  match n with Response r => NegotiationResponse_size r | Failure f => NegotiationFailure_size f end.
Definition NegotiationConfirm_encode (n : NegotiationConfirm) : writer unit :=
  match n with Response r => NegotiationResponse_encode r | Failure f => NegotiationFailure_encode f end.

Definition cc_variable_size (m : ConnectionConfirm) : Z :=
  from_option NegotiationConfirm_size 0 (cc_negotiation m).

Definition ConnectionConfirm_size (m : ConnectionConfirm) : Z :=
  1 + FIXED_HEADER_LEN + cc_variable_size m.

Definition ConnectionConfirm_encode (m : ConnectionConfirm) : writer unit :=
  li ← lift (ok_or (try_from_uint 8 (FIXED_HEADER_LEN + cc_variable_size m))
                   (FieldTooLarge "X.224 CC" "length indicator"));
  write_u8 li "X.224 CC LI";;
  write_u8 CC_CDT "X.224 CC CDT";;
  write_u16_be 0 "X.224 CC DST-REF";;
  write_u16_be 0 "X.224 CC SRC-REF";;
  write_u8 0 "X.224 CC CLASS-OPTION";;
  match cc_negotiation m with Some n => NegotiationConfirm_encode n | None => mret tt end;;
  mret tt.

Definition decode_cc_negotiation : reader (option NegotiationConfirm) :=
  e ← is_empty;
  if (e : bool) then mret None
  else
    nego_type ← peek_u8 "X.224 CC negotiation type";
    if nego_type =? 0x02 then r ← NegotiationResponse_decode; mret (Some (Response r))
    else if nego_type =? 0x03 then f ← NegotiationFailure_decode; mret (Some (Failure f))
    else fail (InvalidField "X.224 CC" "negotiation type" "expected 0x02 or 0x03").

Definition ConnectionConfirm_decode : reader ConnectionConfirm :=
  li ← read_u8 "X.224 CC LI";
  cdt ← read_u8 "X.224 CC CDT";
  if negb (cdt =? CC_CDT) then fail (InvalidField "X.224 CC" "tpdu code" "expected CC-CDT 0xD0")
  else
    _ ← read_u16_be "X.224 CC DST-REF";
    _ ← read_u16_be "X.224 CC SRC-REF";
    _ ← read_u8 "X.224 CC CLASS-OPTION";
    n ← lift (variable_len li "X.224 CC");
    sub ← read_slice n "X.224 CC variable part";
    negotiation ← in_sub sub decode_cc_negotiation;
    mret (mkConnectionConfirm negotiation).

#[export] Instance ConnectionRequest_Encode : Encode ConnectionRequest :=
  {| enc_size := ConnectionRequest_size; encode := ConnectionRequest_encode |}.
#[export] Instance ConnectionRequest_Decode : Decode ConnectionRequest := ConnectionRequest_decode.
#[export] Instance ConnectionConfirm_Encode : Encode ConnectionConfirm :=
  {| enc_size := ConnectionConfirm_size; encode := ConnectionConfirm_encode |}.
#[export] Instance ConnectionConfirm_Decode : Decode ConnectionConfirm := ConnectionConfirm_decode.

Example connection_request_bytes :
  encode_vec (mkConnectionRequest (Some [101; 108; 116; 111; 110]) (Some (mkNegotiationRequest 0 1))) =
  Ok ([38; 0xE0; 0; 0; 0; 0; 0] ++ COOKIE_PREFIX ++ [101; 108; 116; 111; 110; 13; 10] ++
      [0x01; 0x00; 0x08; 0x00; 0x01; 0x00; 0x00; 0x00]).
Proof. reflexivity. Qed.

(** ** Lemmas on the lossy conversion *)

Lemma utf8_valid_replacement bs : utf8_valid (REPLACEMENT ++ bs) = utf8_valid bs.
Proof. done. Qed.

(** The result is a [String]: valid UTF-8. *)
Lemma utf8_lossy_valid bs : utf8_valid (utf8_lossy bs) = true.
Proof.
  remember (length bs) as n eqn:Hn. revert bs Hn.
  induction n as [n IH] using (well_founded_induction Nat.lt_wf_0). intros [|b r] Hn; [done|].
  assert (∀ r', (length r' < n)%nat → utf8_valid (utf8_lossy r') = true) as IH' by (intros; by eapply IH).
  cbn [utf8_lossy]. cbn [length] in Hn. clear IH.
  destruct (between 0 127 b) eqn:E1.
  { cbn [utf8_valid]. rewrite E1. apply IH'. lia. }
  destruct (between 194 223 b) eqn:E2.
  { destruct r as [|c1 r1]; [done|]. destruct (cont c1) eqn:C1.
    - cbn [utf8_valid]. rewrite E1, E2. unfold cont in C1. rewrite C1. apply IH'. cbn in Hn. lia.
    - rewrite utf8_valid_replacement. apply IH'. lia. }
  destruct (between 224 239 b) eqn:E3.
  { destruct r as [|c1 r1]; [done|]. destruct (second3 b c1) eqn:C1.
    2: { rewrite utf8_valid_replacement. apply IH'. lia. }
    destruct r1 as [|c2 r2]; [done|]. destruct (cont c2) eqn:C2.
    - cbn [utf8_valid]. rewrite E1, E2, E3. unfold second3, cont in *. rewrite C1, C2.
      apply IH'. cbn in Hn. lia.
    - rewrite utf8_valid_replacement. apply IH'. cbn in *. lia. }
  destruct (between 240 244 b) eqn:E4.
  { destruct r as [|c1 r1]; [done|]. destruct (second4 b c1) eqn:C1.
    2: { rewrite utf8_valid_replacement. apply IH'. lia. }
    destruct r1 as [|c2 r2]; [done|]. destruct (cont c2) eqn:C2.
    2: { rewrite utf8_valid_replacement. apply IH'. cbn in *. lia. }
    destruct r2 as [|c3 r3]; [done|]. destruct (cont c3) eqn:C3.
    - cbn [utf8_valid]. rewrite E1, E2, E3, E4. unfold second4, cont in *. rewrite C1, C2, C3.
      apply IH'. cbn in Hn. lia.
    - rewrite utf8_valid_replacement. apply IH'. cbn in *. lia. }
  rewrite utf8_valid_replacement. apply IH'. lia.
Qed.

(** Valid UTF-8 is kept as it is. *)
Lemma utf8_lossy_id bs : utf8_valid bs = true → utf8_lossy bs = bs.
Proof.
  remember (length bs) as n eqn:Hn. revert bs Hn.
  induction n as [n IH] using (well_founded_induction Nat.lt_wf_0). intros [|b r] Hn Hv; [done|].
  assert (∀ r', (length r' < n)%nat → utf8_valid r' = true → utf8_lossy r' = r') as IH' by (intros; by eapply IH).
  cbn [utf8_lossy]. cbn [utf8_valid] in Hv. cbn [length] in Hn. clear IH.
  destruct (between 0 127 b); [rewrite IH'; [done|lia|done]|].
  destruct (between 194 223 b).
  { destruct r as [|c1 r1]; [done|]. apply andb_true_iff in Hv as [C1 Hv]. unfold cont. rewrite C1, IH'; [done| |done].
    cbn in Hn. lia. }
  destruct (between 224 239 b).
  { destruct r as [|c1 [|c2 r2]]; [done..|]. rewrite !andb_true_iff in Hv. destruct Hv as [[C1 C2] Hv].
    change (second3 b c1 = true) in C1. change (cont c2 = true) in C2. rewrite C1, C2, IH'; [done| |done].
    cbn in Hn. lia. }
  destruct (between 240 244 b); [|done].
  destruct r as [|c1 [|c2 [|c3 r3]]]; [done..|]. rewrite !andb_true_iff in Hv.
  destruct Hv as [[[C1 C2] C3] Hv]. change (second4 b c1 = true) in C1. change (cont c2 = true) in C2.
  change (cont c3 = true) in C3. rewrite C1, C2, C3, IH'; [done| |done]. cbn in Hn. lia.
Qed.

(** ** Lemmas on the cookie *)

Lemma find_crlf_cons a b r :
  find_crlf (a :: b :: r) = if (a =? 13) && (b =? 10) then Some 0 else (λ k, k + 1) <$> find_crlf (b :: r).
Proof. done. Qed.

(** The terminator is found right after a cookie that contains none. *)
Lemma find_crlf_app c rest :
  find_crlf c = None → find_crlf (c ++ [13; 10] ++ rest) = Some (len c).
Proof.
  induction c as [|a c IH]; [done|]. intros Hn. destruct c as [|b c].
  - cbn [app]. rewrite find_crlf_cons. rewrite andb_false_r. done.
  - rewrite find_crlf_cons in Hn. cbn [app]. rewrite find_crlf_cons. case_if; [done|].
    destruct (find_crlf (b :: c)) eqn:E; [done|]. cbn [app] in IH. rewrite IH by done.
    cbn. by rewrite !len_cons, Z.add_comm.
Qed.

Lemma find_crlf_range bs k : find_crlf bs = Some k → 0 ≤ k ∧ k + 2 ≤ len bs.
Proof.
  revert k. induction bs as [|a [|b r] IH]; intros k Hk; [done..|]. rewrite find_crlf_cons in Hk.
  pose proof (len_nonneg r). case_match; simplify_eq.
  - rewrite !len_cons. lia.
  - destruct (find_crlf (b :: r)) as [k'|]; simplify_eq/=. specialize (IH k' eq_refl).
    rewrite len_cons. lia.
Qed.

(** ** Lemmas on sub-cursors *)

Lemma reads_in_sub {A} (r : reader A) bs rest a : reads r bs a → reads (in_sub (bs ++ rest) r) [] a.
Proof.
  intros Hr pre post. unfold in_sub, read_new. specialize (Hr [] rest). cbn [app] in Hr.
  change (len (@nil Z)) with 0 in *. rewrite Hr. cbn [app]. by rewrite Z.add_0_r.
Qed.

Lemma rspec_in_sub {A} (r : reader A) bs P : Forall u8 bs → rspec r P → rspec (in_sub bs r) P.
Proof.
  intros Hb Hr c Hc Hu. unfold in_sub. specialize (Hr (read_new bs)). cbn in Hr.
  pose proof (len_nonneg bs). specialize (Hr ltac:(split; cbn; lia) Hb).
  destruct (r (read_new bs)) as [[a c']|e|]; [|done..]. destruct Hr as [HP _]. auto with lia.
Qed.

(** A decoder behind the emptiness test, on a buffer that is not empty. *)
Lemma sub_nonempty {A} (bs : list Z) (c f : reader A) :
  0 < len bs → (e ← is_empty; if (e : bool) then c else f) (read_new bs) = f (read_new bs).
Proof.
  intros Hl. unfold is_empty, remaining, read_new, mbind, stm_bind, lift, sub_uint. cbn.
  replace (0 <=? len bs) with true by lia. by replace (len bs - 0 =? 0) with false by lia.
Qed.

Lemma decode_exact {A} `{WireFormat A} (m : A) :
  wf m → decode_from (read_new (wire m)) = Ok (m, mkRead (wire m) (len (wire m))).
Proof.
  intros Hm. pose proof (wire_decode m Hm [] []) as Hr. rewrite app_nil_r in Hr. exact Hr.
Qed.

Definition opt_wire {A} (w : A → list Z) (o : option A) : list Z := from_option w [] o.

Lemma reads_cr_negotiation o :
  from_option NegotiationRequest_wf True o →
  reads (in_sub (opt_wire NegotiationRequest_wire o) decode_cr_negotiation) [] o.
Proof.
  intros Ho pre post. cbn [app]. rewrite Z.add_0_r. destruct o as [n|]; [|done].
  unfold in_sub, opt_wire, decode_cr_negotiation. cbn [from_option] in *.
  rewrite sub_nonempty by done. unfold mbind, stm_bind.
  pose proof (decode_exact (A:=NegotiationRequest) n Ho) as Hd. cbn in Hd.
  unfold decode_from, NegotiationRequest_Decode in Hd. by rewrite Hd.
Qed.

(** The peeked type byte selects the structure that starts with it. *)
Definition NegotiationConfirm_wf (n : NegotiationConfirm) : Prop :=
  match n with Response r => NegotiationResponse_wf r | Failure f => NegotiationFailure_wf f end.
Definition NegotiationConfirm_wire (n : NegotiationConfirm) : list Z :=
  match n with Response r => NegotiationResponse_wire r | Failure f => NegotiationFailure_wire f end.

Lemma peek_first b bs ctx : head bs = Some b → peek_u8 ctx (read_new bs) = Ok (b, read_new bs).
Proof.
  destruct bs as [|? r]; intros [= ->]. unfold peek_u8, ensure, remaining, read_new, mbind, stm_bind, lift, sub_uint. cbn.
  rewrite len_cons. pose proof (len_nonneg r).
  replace (0 <=? 1 + len r) with true by lia. by replace (1 + len r - 0 <? 1) with false by lia.
Qed.

Lemma reads_cc_negotiation o :
  from_option NegotiationConfirm_wf True o →
  reads (in_sub (opt_wire NegotiationConfirm_wire o) decode_cc_negotiation) [] o.
Proof.
  intros Ho pre post. cbn [app]. rewrite Z.add_0_r. destruct o as [n|]; [|done].
  unfold in_sub, opt_wire, decode_cc_negotiation. cbn [from_option] in *.
  rewrite sub_nonempty by (by destruct n). unfold mbind, stm_bind.
  destruct n as [m|m]; cbn [NegotiationConfirm_wire NegotiationConfirm_wf] in *.
  - rewrite (peek_first 2) by done. cbv beta iota. change (2 =? 2) with true. cbv beta iota.
    pose proof (decode_exact (A:=NegotiationResponse) m Ho) as Hd. cbn in Hd.
    unfold decode_from, NegotiationResponse_Decode in Hd. by rewrite Hd.
  - rewrite (peek_first 3) by done. cbv beta iota. change (3 =? 2) with false. change (3 =? 3) with true.
    cbv beta iota. pose proof (decode_exact (A:=NegotiationFailure) m Ho) as Hd. cbn in Hd.
    unfold decode_from, NegotiationFailure_Decode in Hd. by rewrite Hd.
Qed.

(** ** Layout of the two TPDUs *)

Definition cookie_wire (c : list Z) : list Z := COOKIE_PREFIX ++ c ++ [13; 10].

(** A cookie is a string without a line end. *)
Definition cookie_ok (c : list Z) : Prop := utf8_valid c = true ∧ find_crlf c = None.

Definition tpdu_header (li code : Z) : list Z := [li] ++ [code] ++ be_bytes 2 0 ++ be_bytes 2 0 ++ [0].

Definition cr_variable (m : ConnectionRequest) : list Z :=
  opt_wire cookie_wire (cr_cookie m) ++ opt_wire NegotiationRequest_wire (cr_negotiation m).
Definition ConnectionRequest_wire (m : ConnectionRequest) : list Z :=
  tpdu_header (6 + cr_variable_size m) CR_CDT ++ cr_variable m.

Definition ConnectionRequest_wf (m : ConnectionRequest) : Prop :=
  from_option cookie_ok True (cr_cookie m) ∧
  from_option NegotiationRequest_wf True (cr_negotiation m).

Definition cc_variable (m : ConnectionConfirm) : list Z :=
  opt_wire NegotiationConfirm_wire (cc_negotiation m).
Definition ConnectionConfirm_wire (m : ConnectionConfirm) : list Z :=
  tpdu_header (6 + cc_variable_size m) CC_CDT ++ cc_variable m.
Definition ConnectionConfirm_wf (m : ConnectionConfirm) : Prop :=
  from_option NegotiationConfirm_wf True (cc_negotiation m).

Lemma len_cr_variable m : len (cr_variable m) = cr_variable_size m.
Proof.
  destruct m as [[c|] [n|]]; unfold cr_variable, cr_variable_size, opt_wire, cookie_wire;
    cbn [from_option cr_cookie cr_negotiation];
    rewrite ?len_app; change (len [13; 10]) with 2; try change (len (NegotiationRequest_wire n)) with 8;
    change (len (@nil Z)) with 0; unfold NegotiationRequest_size, RDP_NEG_LEN; lia.
Qed.

Lemma len_cc_variable m : len (cc_variable m) = cc_variable_size m.
Proof. by destruct m as [[[r|f]|]]. Qed.

(** The fixed part, then the variable one. *)
Lemma writes_cr m :
  6 + cr_variable_size m ≤ 255 → writes (encode m) (ConnectionRequest_wire m).
Proof.
  intros Hl. change (encode m) with (ConnectionRequest_encode m). unfold ConnectionRequest_encode, FIXED_HEADER_LEN.
  pose proof (len_nonneg (cr_variable m)). rewrite len_cr_variable in *.
  eapply writes_lift; [by rewrite try_from_uint_ok by (unfold is_uint; simpl_pow; lia)|].
  unfold ConnectionRequest_wire, tpdu_header, cr_variable, opt_wire, cookie_wire. rewrite <- !app_assoc.
  do 5 (apply writes_bind; [solve [eauto with writes]|]).
  apply writes_bind.
  - destruct (cr_cookie m) as [c|]; cbn [from_option]; [|apply writes_ret]. solve_writes.
  - apply writes_bind_ret. destruct (cr_negotiation m) as [n|] eqn:En; cbn [from_option]; [|apply writes_ret].
    unfold NegotiationRequest_wire. codec_unfold. solve_writes.
Qed.

Lemma writes_cc m : writes (encode m) (ConnectionConfirm_wire m).
Proof.
  change (encode m) with (ConnectionConfirm_encode m). unfold ConnectionConfirm_encode, FIXED_HEADER_LEN.
  assert (0 ≤ cc_variable_size m ≤ 8) by (by destruct m as [[[r|f]|]]).
  eapply writes_lift; [by rewrite try_from_uint_ok by (unfold is_uint; simpl_pow; lia)|].
  unfold ConnectionConfirm_wire, tpdu_header, cc_variable, opt_wire. rewrite <- !app_assoc.
  do 5 (apply writes_bind; [solve [eauto with writes]|]).
  apply writes_bind_ret. destruct (cc_negotiation m) as [[r|f]|]; cbn [from_option]; [..|apply writes_ret];
    unfold NegotiationConfirm_encode, NegotiationConfirm_wire; codec_unfold; solve_writes.
Qed.

(** The fixed part of both decoders, up to the variable part. *)
Lemma variable_len_ok li ctx : 6 ≤ li → variable_len li ctx = Ok (li - 6).
Proof. intros. unfold variable_len, FIXED_HEADER_LEN. by replace (6 <=? li) with true by lia. Qed.

Lemma zero_u16 : u16 0.
Proof. len_lia. Qed.

(** The cookie part of the variable field, with anything behind it. *)
Lemma reads_cookie_body c rest :
  reads (in_sub (cookie_wire c ++ rest)
          (_ ← read_slice (len COOKIE_PREFIX) "X.224 CR cookie prefix";
           n ← remaining; read_slice n "X.224 CR cookie body")) [] (c ++ [13; 10] ++ rest).
Proof.
  intros pre post. cbn [app]. rewrite Z.add_0_r. unfold in_sub, cookie_wire. rewrite <- !app_assoc.
  set (body := c ++ [13; 10] ++ rest).
  pose proof (reads_slice COOKIE_PREFIX (len COOKIE_PREFIX) "X.224 CR cookie prefix" eq_refl [] body) as H1.
  cbn [app] in H1. change (len (@nil Z)) with 0 in H1. rewrite Z.add_0_l in H1.
  unfold read_new, mbind, stm_bind. cbn [app]. rewrite H1.
  assert (remaining (mkRead (COOKIE_PREFIX ++ body) (len COOKIE_PREFIX)) =
          Ok (len body, mkRead (COOKIE_PREFIX ++ body) (len COOKIE_PREFIX))) as Hrem.
  { unfold remaining, lift, sub_uint. cbn [rbuf rpos]. rewrite len_app. pose proof (len_nonneg body).
    replace (len COOKIE_PREFIX <=? len COOKIE_PREFIX + len body) with true by lia. repeat f_equal. lia. }
  rewrite Hrem.
  pose proof (reads_slice body (len body) "X.224 CR cookie body" eq_refl COOKIE_PREFIX []) as H2.
  rewrite app_nil_r in H2. by rewrite H2.
Qed.

Lemma starts_with_cookie c rest : starts_with (cookie_wire c ++ rest) COOKIE_PREFIX = true.
Proof.
  unfold starts_with, cookie_wire. rewrite <- app_assoc. apply bool_decide_true. by apply ztake_app_len.
Qed.

Lemma reads_cr m :
  ConnectionRequest_wf m → 6 + cr_variable_size m ≤ 255 →
  reads ConnectionRequest_decode (ConnectionRequest_wire m) m.
Proof.
  intros [Hc Hn] Hl. pose proof (len_cr_variable m) as Hv. pose proof (len_nonneg (cr_variable m)).
  unfold ConnectionRequest_decode, ConnectionRequest_wire, tpdu_header. rewrite <- !app_assoc.
  do 2 (eapply reads_bind; [apply reads_u8|]). decide_tags.
  do 2 (eapply reads_bind; [apply reads_u16_be, zero_u16|]). eapply reads_bind; [apply reads_u8|].
  eapply reads_lift; [apply variable_len_ok; lia|].
  eapply reads_bind_last; [apply reads_slice; lia|].
  destruct m as [[c|] n]; unfold cr_variable in *; cbn [cr_cookie cr_negotiation opt_wire from_option] in *.
  - destruct Hc as [Hc Hf]. rewrite starts_with_cookie.
    set (nw := from_option NegotiationRequest_wire [] n) in *.
    eapply reads_bind_nil; [apply reads_cookie_body|].
    eapply reads_lift; [by rewrite find_crlf_app|].
    eapply reads_lift; [by apply (slice_mid [] c)|].
    eapply reads_lift.
    { rewrite (app_assoc c), <- (app_nil_r nw). apply slice_mid; by rewrite ?app_nil_r, !len_app. }
    eapply reads_bind_nil; [by apply reads_cr_negotiation|].
    rewrite utf8_lossy_id by done. apply reads_ret.
  - cbn [app]. replace (starts_with _ COOKIE_PREFIX) with false by (by destruct n).
    eapply reads_bind_nil; [by apply reads_cr_negotiation|]. apply reads_ret.
Qed.

Lemma reads_cc m :
  ConnectionConfirm_wf m → reads ConnectionConfirm_decode (ConnectionConfirm_wire m) m.
Proof.
  intros Hn. assert (0 ≤ cc_variable_size m ≤ 8) by (by destruct m as [[[r|f]|]]).
  unfold ConnectionConfirm_decode, ConnectionConfirm_wire, tpdu_header. rewrite <- !app_assoc.
  do 2 (eapply reads_bind; [apply reads_u8|]). decide_tags.
  do 2 (eapply reads_bind; [apply reads_u16_be, zero_u16|]). eapply reads_bind; [apply reads_u8|].
  eapply reads_lift; [apply variable_len_ok; lia|].
  eapply reads_bind_last; [apply reads_slice; rewrite len_cc_variable; lia|].
  eapply reads_bind_nil; [by apply reads_cc_negotiation|]. destruct m. apply reads_ret.
Qed.

(** ** Totality *)

Lemma rspec_cr_negotiation :
  rspec decode_cr_negotiation (from_option NegotiationRequest_wf True).
Proof.
  eapply rspec_bind; [apply rspec_is_empty|]. intros [] _; [by apply rspec_ret|].
  eapply rspec_bind; [apply (wire_total (T:=NegotiationRequest))|]. intros n Hn. by apply rspec_ret.
Qed.

Lemma rspec_cc_negotiation :
  rspec decode_cc_negotiation (from_option NegotiationConfirm_wf True).
Proof.
  eapply rspec_bind; [apply rspec_is_empty|]. intros [] _; [by apply rspec_ret|].
  eapply rspec_bind; [apply rspec_peek|]. intros t _.
  case_if; [|case_if; [|apply rspec_fail]].
  - eapply rspec_bind; [apply (wire_total (T:=NegotiationResponse))|]. intros n Hn. by apply rspec_ret.
  - eapply rspec_bind; [apply (wire_total (T:=NegotiationFailure))|]. intros n Hn. by apply rspec_ret.
Qed.

Lemma variable_len_cases li ctx : variable_len li ctx ≠ Panic ∧ ∀ n, variable_len li ctx = Ok n → 0 ≤ n.
Proof.
  unfold variable_len, FIXED_HEADER_LEN. destruct (Z.leb_spec 6 li); split; try done; intros n [= <-]; lia.
Qed.

(** What a decoded request carries: a cookie that is a string, and a
    negotiation structure in range. *)
Definition ConnectionRequest_sane (m : ConnectionRequest) : Prop :=
  from_option (λ c, utf8_valid c = true) True (cr_cookie m) ∧
  from_option NegotiationRequest_wf True (cr_negotiation m).

(** The body read behind the prefix is made of bytes. *)
Lemma rspec_cookie_body :
  rspec (_ ← read_slice (len COOKIE_PREFIX) "X.224 CR cookie prefix";
         n ← remaining; read_slice n "X.224 CR cookie body") (Forall u8).
Proof.
  eapply rspec_bind; [by apply rspec_slice|]. intros _ _.
  eapply rspec_bind; [apply rspec_remaining|]. intros n Hn.
  eapply rspec_mono; [by apply rspec_slice|]. by intros bs [_ ?].
Qed.

Lemma rspec_cr : rspec ConnectionRequest_decode ConnectionRequest_sane.
Proof.
  do 2 (eapply rspec_bind; [apply rspec_u8|]; intros ? _). case_if; [apply rspec_fail|].
  do 2 (eapply rspec_bind; [apply rspec_u16_be|]; intros ? _).
  eapply rspec_bind; [apply rspec_u8|]; intros ? _.
  apply rspec_lift; [apply variable_len_cases|]. intros n Hn. apply variable_len_cases in Hn.
  eapply rspec_bind; [by apply rspec_slice|]. intros sub [_ Hs]. case_if.
  - eapply rspec_bind; [apply rspec_in_sub; [done|apply rspec_cookie_body]|]. intros body Hb.
    destruct (find_crlf body) as [k|] eqn:Ek; [|apply rspec_fail]. apply find_crlf_range in Ek.
    apply rspec_lift; [done|]. intros ? [= <-].
    rewrite !slice_ok by lia. apply rspec_lift; [done|]. intros ? [= <-].
    apply rspec_lift; [done|]. intros ? [= <-].
    eapply rspec_bind; [apply rspec_in_sub; [auto with width|apply rspec_cr_negotiation]|].
    intros o Ho. apply rspec_ret. split; [apply utf8_lossy_valid|done].
  - eapply rspec_bind; [apply rspec_in_sub; [done|apply rspec_cr_negotiation]|].
    intros o Ho. by apply rspec_ret.
Qed.

Lemma rspec_cc : rspec ConnectionConfirm_decode ConnectionConfirm_wf.
Proof.
  do 2 (eapply rspec_bind; [apply rspec_u8|]; intros ? _). case_if; [apply rspec_fail|].
  do 2 (eapply rspec_bind; [apply rspec_u16_be|]; intros ? _).
  eapply rspec_bind; [apply rspec_u8|]; intros ? _.
  apply rspec_lift; [apply variable_len_cases|]. intros n Hn. apply variable_len_cases in Hn.
  eapply rspec_bind; [by apply rspec_slice|]. intros sub [_ Hs].
  eapply rspec_bind; [apply rspec_in_sub; [done|apply rspec_cc_negotiation]|].
  intros o Ho. by apply rspec_ret.
Qed.

(** ** Properties *)

(** A connection request with any cookie free of line ends and any negotiation structure round-trips when it fits the one-byte length indicator; when it does not, the encoder reports the length indicator and writes nothing. *)
Theorem connection_request_roundtrip m rest :
  ConnectionRequest_wf m →
  (6 + cr_variable_size m ≤ 255 →
     ∃ bytes, encode_vec m = Ok bytes ∧ len bytes = ConnectionRequest_size m ∧
              decode (bytes ++ rest) = Ok m) ∧
  (255 < 6 + cr_variable_size m →
     encode_vec m = Err (FieldTooLarge "X.224 CR" "length indicator")).
Proof.
  intros Hm. pose proof (len_cr_variable m) as Hv. pose proof (len_nonneg (cr_variable m)). split; intros Hl.
  - assert (len (ConnectionRequest_wire m) = ConnectionRequest_size m) as Hs.
    { unfold ConnectionRequest_wire, ConnectionRequest_size, FIXED_HEADER_LEN. rewrite len_app, Hv.
      change (len (tpdu_header _ _)) with 7. lia. }
    exists (ConnectionRequest_wire m). split_and!; [|done|].
    + apply encode_vec_writes; [by apply writes_cr|done].
    + apply decode_reads. by apply reads_cr.
  - apply (encode_vec_errs m 0).
    + apply errs_now. intros c. cbn. unfold ConnectionRequest_encode, FIXED_HEADER_LEN, mbind, stm_bind, lift.
      by rewrite try_from_uint_none by (simpl_pow; lia).
    + cbn. unfold ConnectionRequest_size, FIXED_HEADER_LEN. lia.
    + cbn. unfold ConnectionRequest_size, FIXED_HEADER_LEN. lia.
Qed.

(** Whatever bytes a peer sends, decoding a connection request or confirm never panics; a decoded cookie is valid UTF-8 and a decoded negotiation structure is in range; and every connection confirm round-trips. *)
Theorem connection_decode_safe :
  (∀ bytes, Forall u8 bytes →
     match decode (T:=ConnectionRequest) bytes with
     | Ok m => ConnectionRequest_sane m | Err _ => True | Panic => False end) ∧
  (∀ bytes, Forall u8 bytes →
     match decode (T:=ConnectionConfirm) bytes with
     | Ok m => ConnectionConfirm_wf m | Err _ => True | Panic => False end) ∧
  (∀ (m : ConnectionConfirm) rest, ConnectionConfirm_wf m →
     ∃ bytes, encode_vec m = Ok bytes ∧ decode (bytes ++ rest) = Ok m).
Proof.
  split_and!.
  - intros. apply decode_rspec; [apply rspec_cr|done].
  - intros. apply decode_rspec; [apply rspec_cc|done].
  - intros m rest Hm. exists (ConnectionConfirm_wire m). split.
    + apply encode_vec_writes; [apply writes_cc|]. by destruct m as [[[r|f]|]].
    + apply decode_reads. by apply reads_cc.
Qed.

Lemma connection_request_roundtrip_witness :
  ∃ bytes, encode_vec (mkConnectionRequest (Some [101; 108]) (Some (mkNegotiationRequest 0 1))) = Ok bytes ∧
           decode (bytes ++ [7]) = Ok (mkConnectionRequest (Some [101; 108]) (Some (mkNegotiationRequest 0 1))).
Proof.
  destruct (connection_request_roundtrip (mkConnectionRequest (Some [101; 108]) (Some (mkNegotiationRequest 0 1))) [7])
    as [H _].
  - split; [done|]. unfold NegotiationRequest_wf. cbn. split; len_lia.
  - destruct H as (bytes & ? & _ & ?); [done|]. exists bytes. split; assumption.
Defined.
