(* ===== verification/RdpGcc.v ===== *)
(** * Connect parameters: domain parameters and GCC data blocks

    [crates/oxrdp-pdu/src/domain_params.rs], [gcc.rs] and [gcc_server.rs]: the
    MCS domain parameters as BER integers, and the data blocks client and
    server exchange inside Connect-Initial and Connect-Response. *)

From S2P Require Import Prelude Cursor Wire Ber.

(** ** BER integers ([domain_params.rs]) *)

(** [while i < 3 && be[i] == 0 { i += 1; }], then [be[i..]] *)
Fixpoint skip_leading (n : nat) (bs : list Z) : list Z :=
  match n, bs with
  | S n, b :: r => if b =? 0 then skip_leading n r else bs
  | _, _ => bs
  end.

(** [content[0]] exists: at most three of the four bytes are skipped. *)
Definition integer_content (value : Z) : list Z :=
  let content := skip_leading 3 (be_bytes 4 value) in
  match content with
  | c0 :: _ => if negb (Z.land c0 0x80 =? 0) then 0x00 :: content else content
  | [] => []
  end.

Definition integer_size (value : Z) : Z :=
  let c := len (integer_content value) in 1 + length_size c + c.

Definition write_integer (value : Z) (ctx : string) : writer unit :=
  let c := integer_content value in
  write_u8 0x02 ctx;; write_length (len c) ctx;; write_slice c ctx.

(** [for _ in 0..len { v = (v << 8) | byte }] on a [u32]: what is shifted past
    the top is lost. *)
Fixpoint read_integer_loop (k : nat) (v : Z) (ctx : string) : reader Z :=
  match k with
  | O => mret v
  | S k => b ← read_u8 ctx; read_integer_loop k (Z.lor (as_uint 32 (Z.shiftl v 8)) b) ctx
  end.

Definition read_integer (ctx : string) : reader Z :=
  tag ← read_u8 ctx;
  if negb (tag =? 0x02) then fail (InvalidField ctx "ber tag" "expected INTEGER 0x02")
  else
    n ← read_length ctx;
    if (n =? 0) || (n >? 5) then fail (InvalidLength ctx "bad INTEGER length")
    else read_integer_loop (Z.to_nat n) 0 ctx.

Definition integer_wire (v : Z) : list Z :=
  [0x02] ++ ber_length_wire (len (integer_content v)) ++ integer_content v.

Arguments integer_wire : simpl never.
Arguments integer_content : simpl never.

(** *** The content of an integer *)

Lemma skip_leading_value n bs : be_acc 0 (skip_leading n bs) = be_acc 0 bs.
Proof.
  revert bs. induction n as [|n IH]; intros [|b bs]; [done..|]. cbn [skip_leading].
  case_if; [|done]. bool_to_prop. subst b. rewrite IH. done.
Qed.

Lemma skip_leading_u8 n bs : Forall u8 bs → Forall u8 (skip_leading n bs).
Proof.
  revert bs. induction n as [|n IH]; intros [|b bs] H; [done..|]. cbn [skip_leading].
  inversion H; subst. case_if; auto.
Qed.

Lemma skip_leading_len n bs :
  Z.of_nat n < len bs → len bs - Z.of_nat n ≤ len (skip_leading n bs) ≤ len bs.
Proof.
  revert bs. induction n as [|n IH]; intros [|b bs] H; cbn [skip_leading]; try len_lia.
  case_if; [|len_lia]. rewrite len_cons in *. specialize (IH bs). lia.
Qed.

Lemma integer_content_spec v :
  u32 v → be_acc 0 (integer_content v) = v ∧ 1 ≤ len (integer_content v) ≤ 5 ∧
          Forall u8 (integer_content v).
Proof.
  intros Hv. unfold integer_content.
  pose proof (skip_leading_value 3 (be_bytes 4 v)) as Hval.
  rewrite be_bytes_value in Hval by apply Hv.
  pose proof (skip_leading_len 3 (be_bytes 4 v)) as Hl. rewrite len_be_bytes in Hl. specialize (Hl ltac:(lia)).
  pose proof (skip_leading_u8 3 _ (be_bytes_u8 4 v)) as Hu.
  destruct (skip_leading 3 (be_bytes 4 v)) as [|c0 r] eqn:E; [change (len (@nil Z)) with 0 in Hl; lia|].
  case_if; [|by split_and!; [..|lia|lia|]].
  split_and!; [done|rewrite len_cons; lia..|]. constructor; [len_lia|done].
Qed.

Lemma integer_content_len v : u32 v → 1 ≤ len (integer_content v) ≤ 5.
Proof. intros. by apply integer_content_spec. Qed.

(** *** Reading and writing *)

Lemma shift_in_byte A b :
  u8 b → Z.lor (as_uint 32 (Z.shiftl (A mod 2 ^ 32) 8)) b = (A * 256 + b) mod 2 ^ 32.
Proof.
  intros Hb. assert (0 ≤ b < 2 ^ 8) by exact Hb. rewrite Z.shiftl_mul_pow2 by lia. unfold as_uint.
  rewrite Z.mul_mod_idemp_l by done.
  assert (∀ x, (x * 256) mod 2 ^ 32 = Z.shiftl (x mod 2 ^ 24) 8) as Hs.
  { intros x. rewrite Z.shiftl_mul_pow2 by lia. change (2 ^ 32) with (2 ^ 24 * 2 ^ 8).
    change 256 with (2 ^ 8). by rewrite Z.mul_mod_distr_r by lia. }
  change (2 ^ 8) with 256. rewrite Hs, lor_shiftl_add by lia.
  pose proof (Z.mod_pos_bound A (2 ^ 24) ltac:(lia)).
  rewrite (Z.div_mod A (2 ^ 24)) at 2 by lia.
  replace ((2 ^ 24 * (A / 2 ^ 24) + A mod 2 ^ 24) * 256 + b)
    with (A mod 2 ^ 24 * 2 ^ 8 + b + A / 2 ^ 24 * 2 ^ 32) by lia.
  rewrite Z.mod_add by done. symmetry. apply Z.mod_small. lia.
Qed.

Lemma reads_integer_loop bs A ctx :
  Forall u8 bs →
  reads (read_integer_loop (length bs) (A mod 2 ^ 32) ctx) bs (be_acc A bs mod 2 ^ 32).
Proof.
  intros Hu. revert A. induction Hu as [|b bs Hb _ IH]; intros A; cbn [read_integer_loop length].
  { apply reads_ret. }
  change (b :: bs) with ([b] ++ bs). eapply reads_bind; [apply reads_u8|].
  rewrite shift_in_byte by done. apply IH.
Qed.

Lemma rspec_integer_loop k A ctx : rspec (read_integer_loop k (A mod 2 ^ 32) ctx) u32.
Proof.
  revert A. induction k as [|k IH]; intros A; cbn [read_integer_loop].
  { apply rspec_ret. apply Z.mod_pos_bound. lia. }
  eapply rspec_bind; [apply rspec_u8|]. intros b Hb. rewrite shift_in_byte by done. apply IH.
Qed.

(** The reader takes the value of the content modulo 2^32. *)
Lemma reads_integer_content bs ctx :
  Forall u8 bs → 1 ≤ len bs ≤ 5 →
  reads (read_integer ctx) ([0x02] ++ ber_length_wire (len bs) ++ bs) (be_acc 0 bs mod 2 ^ 32).
Proof.
  intros Hu Hl. eapply reads_bind; [apply reads_u8|]. decide_tags.
  eapply reads_bind; [apply reads_length; len_lia|]. rewrite Z.gtb_ltb.
  replace (len bs =? 0) with false by lia. replace (5 <? len bs) with false by lia. cbn [orb].
  replace (Z.to_nat (len bs)) with (length bs) by (unfold len; lia).
  change 0 with (0 mod 2 ^ 32) at 1. by apply reads_integer_loop.
Qed.

Lemma reads_integer v ctx : u32 v → reads (read_integer ctx) (integer_wire v) v.
Proof.
  intros Hv. destruct (integer_content_spec v Hv) as (Hval & Hl & Hu).
  pose proof (reads_integer_content _ ctx Hu Hl) as Hr. rewrite Hval, Z.mod_small in Hr by apply Hv.
  exact Hr.
Qed.

Lemma rspec_integer ctx : rspec (read_integer ctx) u32.
Proof.
  eapply rspec_bind; [apply rspec_u8|]. intros tag _. case_if; [apply rspec_fail|].
  eapply rspec_bind; [apply rspec_length|]. intros n Hn. case_if; [apply rspec_fail|].
  change 0 with (0 mod 2 ^ 32). apply rspec_integer_loop.
Qed.

Lemma writes_integer v ctx : u32 v → writes (write_integer v ctx) (integer_wire v).
Proof.
  intros Hv. pose proof (integer_content_len v Hv). unfold write_integer, integer_wire.
  apply writes_bind; [apply writes_u8|]. apply writes_bind; [apply writes_length; len_lia|apply writes_slice].
Qed.

Lemma len_integer_wire v : u32 v → len (integer_wire v) = integer_size v.
Proof.
  intros Hv. pose proof (integer_content_len v Hv). unfold integer_wire, integer_size.
  rewrite !len_app, len_ber_length_wire by len_lia. change (len [2]) with 1. lia.
Qed.

Lemma integer_wire_u8 v : u32 v → Forall u8 (integer_wire v).
Proof.
  intros Hv. destruct (integer_content_spec v Hv) as (_ & Hl & Hu). unfold integer_wire.
  rewrite !Forall_app. split_and!; [apply byte_wire_u8; len_lia|apply ber_length_wire_u8; len_lia|done].
Qed.

#[export] Hint Resolve reads_integer : reads.
#[export] Hint Resolve writes_integer : writes.
#[export] Hint Resolve rspec_integer : rspec.
#[export] Hint Resolve integer_wire_u8 : width.

Lemma integer_size_bound v : u32 v → 3 ≤ integer_size v ≤ 7.
Proof.
  intros Hv. pose proof (integer_content_len v Hv). unfold integer_size, length_size.
  replace (len (integer_content v) <? 128) with true by lia. lia.
Qed.

(** ** [DomainParameters] *)

Record DomainParameters : Type := mkDomainParameters {
  max_channel_ids : Z;
  max_user_ids : Z;
  max_token_ids : Z;
  num_priorities : Z;
  min_throughput : Z;
  max_height : Z;
  max_mcs_pdu_size : Z;
  protocol_version : Z
}.

Definition target : DomainParameters := mkDomainParameters 34 2 0 1 0 1 65535 2.
Definition minimum : DomainParameters := mkDomainParameters 1 1 1 1 0 1 1056 2.
Definition maximum : DomainParameters := mkDomainParameters 65535 64535 65535 1 0 1 65535 2.

Definition fields (m : DomainParameters) : list Z :=
  [max_channel_ids m; max_user_ids m; max_token_ids m; num_priorities m;
   min_throughput m; max_height m; max_mcs_pdu_size m; protocol_version m].

Definition content_len (m : DomainParameters) : Z := foldr Z.add 0 (map integer_size (fields m)).

Definition DomainParameters_size (m : DomainParameters) : Z :=
  let n := content_len m in 1 + length_size n + n.
Definition DomainParameters_encode (m : DomainParameters) : writer unit :=
  let n := content_len m in
  write_u8 0x30 "domain params sequence tag";;
  write_length n "domain params sequence length";;
  write_each (λ v, write_integer v "domain params integer") (fields m).
Definition DomainParameters_decode : reader DomainParameters :=
  tag ← read_u8 "domain params sequence tag";
  if negb (tag =? 0x30)
  then fail (InvalidField "domain params sequence tag" "ber tag" "expected SEQUENCE 0x30")
  else
    _ ← read_length "domain params sequence length";
    a ← read_integer "max_channel_ids";
    b ← read_integer "max_user_ids";
    c ← read_integer "max_token_ids";
    d ← read_integer "num_priorities";
    e ← read_integer "min_throughput";
    f ← read_integer "max_height";
    g ← read_integer "max_mcs_pdu_size";
    h ← read_integer "protocol_version";
    mret (mkDomainParameters a b c d e f g h).

#[export] Instance DomainParameters_Encode : Encode DomainParameters :=
  {| enc_size := DomainParameters_size; encode := DomainParameters_encode |}.
#[export] Instance DomainParameters_Decode : Decode DomainParameters := DomainParameters_decode.

Definition DomainParameters_wf (m : DomainParameters) : Prop := Forall u32 (fields m).
Definition DomainParameters_wire (m : DomainParameters) : list Z :=
  [0x30] ++ ber_length_wire (content_len m) ++ concat (map integer_wire (fields m)).

Arguments DomainParameters_wire : simpl never.
Arguments content_len : simpl never.

Lemma content_len_wire l : Forall u32 l → len (concat (map integer_wire l)) = foldr Z.add 0 (map integer_size l).
Proof. induction 1 as [|v l Hv _ IH]; cbn; [done|]. by rewrite len_app, len_integer_wire, IH. Qed.

Lemma content_len_bound m : DomainParameters_wf m → 0 ≤ content_len m ≤ 56.
Proof.
  unfold DomainParameters_wf, content_len. intros H.
  assert (0 ≤ foldr Z.add 0 (map integer_size (fields m)) ≤ 7 * len (fields m)) as Hb.
  { induction H as [|v l Hv _ IH]; cbn; [done|]. pose proof (integer_size_bound v Hv). rewrite len_cons. lia. }
  change (len (fields m)) with 8 in Hb. lia.
Qed.

#[export, refine] Instance DomainParameters_WireFormat : WireFormat DomainParameters :=
  {| wf := DomainParameters_wf; wire := DomainParameters_wire |}.
Proof.
  - intros m Hm. pose proof (content_len_bound m Hm).
    change (DomainParameters_size m = len (DomainParameters_wire m)).
    unfold DomainParameters_size, DomainParameters_wire.
    rewrite !len_app, len_ber_length_wire, content_len_wire by (done || len_lia).
    fold (content_len m). change (len [48]) with 1. lia.
  - intros m Hm. pose proof (content_len_bound m Hm). cbn. unfold DomainParameters_encode, DomainParameters_wire.
    apply writes_bind; [apply writes_u8|]. apply writes_bind; [apply writes_length; len_lia|].
    apply writes_each. eapply Forall_impl; [exact Hm|]. intros v Hv. by apply writes_integer.
  - intros m Hm. pose proof (content_len_bound m Hm). unfold decode_from, DomainParameters_Decode, DomainParameters_decode, DomainParameters_wire.
    eapply reads_bind; [apply reads_u8|]. decide_tags.
    eapply reads_bind; [apply reads_length; len_lia|]. destruct m.
    unfold DomainParameters_wf, fields in Hm. cbn [map concat fields max_channel_ids max_user_ids
      max_token_ids num_priorities min_throughput max_height max_mcs_pdu_size protocol_version] in *.
    rewrite !Forall_cons in Hm. destruct_and?.
    repeat (eapply reads_bind; [by apply reads_integer|]). apply reads_ret.
  - intros m Hm. pose proof (content_len_bound m Hm). unfold DomainParameters_wire.
    rewrite !Forall_app. split_and!; [apply byte_wire_u8; len_lia|apply ber_length_wire_u8; len_lia|].
    apply Forall_concat, Forall_map. eapply Forall_impl; [exact Hm|]. apply integer_wire_u8.
  - unfold decode_from, DomainParameters_Decode, DomainParameters_decode. solve_rspec_tagged.
    unfold DomainParameters_wf, fields. cbn. rewrite !Forall_cons. by split_and!.
Defined.

(** * Client data blocks ([gcc.rs]) *)

Definition CS_CORE : Z := 0xC001.
Definition CS_SECURITY : Z := 0xC002.
Definition CS_NET : Z := 0xC003.
Definition CS_CORE_LEN : Z := 216.

#[export] Hint Unfold CS_CORE CS_SECURITY CS_NET CS_CORE_LEN : codec.

Definition read_ud_header (expected_type : Z) (ctx : string) : reader Z :=
  ty ← read_u16_le ctx;
  if negb (ty =? expected_type)
  then fail (InvalidField ctx "ud type" "unexpected GCC block type")
  else n ← read_u16_le ctx; mret n.

Definition ud_header_wire (ty n : Z) : list Z := le_bytes 2 ty ++ le_bytes 2 n.

Arguments ud_header_wire : simpl never.

Lemma reads_ud_header ty n ctx : u16 ty → u16 n → reads (read_ud_header ty ctx) (ud_header_wire ty n) n.
Proof.
  intros. eapply reads_bind; [by apply reads_u16_le|]. decide_tags.
  eapply reads_bind_last; [by apply reads_u16_le|apply reads_ret].
Qed.

Lemma rspec_ud_header ty ctx : rspec (read_ud_header ty ctx) u16.
Proof. unfold read_ud_header. solve_rspec_tagged. done. Qed.

Lemma len_ud_header ty n : len (ud_header_wire ty n) = 4.
Proof. done. Qed.
Lemma ud_header_u8 ty n : Forall u8 (ud_header_wire ty n).
Proof. unfold ud_header_wire. solve_bytes. Qed.

#[export] Hint Resolve rspec_ud_header : rspec.
#[export] Hint Resolve ud_header_u8 : width.
#[export] Hint Rewrite len_ud_header : len.

(** ** [ClientCoreData] *)

Record ClientCoreData : Type := mkClientCoreData {
  core_version : Z;
  desktop_width : Z;
  desktop_height : Z;
  color_depth : Z;
  sas_sequence : Z;
  keyboard_layout : Z;
  client_build : Z;
  client_name : list Z;
  keyboard_type : Z;
  keyboard_subtype : Z;
  keyboard_function_key : Z;
  ime_file_name : list Z
}.

Definition ClientCoreData_size (_ : ClientCoreData) : Z := CS_CORE_LEN.
Definition ClientCoreData_encode (m : ClientCoreData) : writer unit :=
  write_u16_le CS_CORE "GCC CS_CORE";;
  write_u16_le CS_CORE_LEN "GCC CS_CORE";;
  write_u32_le (core_version m) "GCC CS_CORE";;
  write_u16_le (desktop_width m) "GCC CS_CORE";;
  write_u16_le (desktop_height m) "GCC CS_CORE";;
  write_u16_le (color_depth m) "GCC CS_CORE";;
  write_u16_le (sas_sequence m) "GCC CS_CORE";;
  write_u32_le (keyboard_layout m) "GCC CS_CORE";;
  write_u32_le (client_build m) "GCC CS_CORE";;
  write_slice (client_name m) "GCC CS_CORE";;
  write_u32_le (keyboard_type m) "GCC CS_CORE";;
  write_u32_le (keyboard_subtype m) "GCC CS_CORE";;
  write_u32_le (keyboard_function_key m) "GCC CS_CORE";;
  write_slice (ime_file_name m) "GCC CS_CORE";;
  write_u16_le (color_depth m) "GCC CS_CORE";;
  write_u16_le 1 "GCC CS_CORE";;
  write_u32_le 0 "GCC CS_CORE";;
  write_u16_le 0x0018 "GCC CS_CORE";;
  write_u16_le 0x0007 "GCC CS_CORE";;
  write_u16_le 0x0001 "GCC CS_CORE";;
  write_slice (replicate 64 0) "GCC CS_CORE";;
  write_u8 0 "GCC CS_CORE";;
  write_u8 0 "GCC CS_CORE";;
  write_u32_le 0x00000001 "GCC CS_CORE";;
  mret tt.
Definition ClientCoreData_decode : reader ClientCoreData :=
  n ← read_ud_header CS_CORE "GCC CS_CORE";
  if n <? 132
  then fail (InvalidLength "GCC CS_CORE" "CS_CORE block shorter than the 132-byte mandatory part")
  else
    version ← read_u32_le "GCC CS_CORE";
    desktop_width ← read_u16_le "GCC CS_CORE";
    desktop_height ← read_u16_le "GCC CS_CORE";
    color_depth ← read_u16_le "GCC CS_CORE";
    sas_sequence ← read_u16_le "GCC CS_CORE";
    keyboard_layout ← read_u32_le "GCC CS_CORE";
    client_build ← read_u32_le "GCC CS_CORE";
    client_name ← read_array 32 "GCC CS_CORE";
    keyboard_type ← read_u32_le "GCC CS_CORE";
    keyboard_subtype ← read_u32_le "GCC CS_CORE";
    keyboard_function_key ← read_u32_le "GCC CS_CORE";
    ime_file_name ← read_array 64 "GCC CS_CORE";
    extended ← lift (sub_uint n 132);
    when (extended >? 0) (_ ← read_slice extended "GCC CS_CORE"; mret tt);;
    mret (mkClientCoreData version desktop_width desktop_height color_depth sas_sequence
            keyboard_layout client_build client_name keyboard_type keyboard_subtype
            keyboard_function_key ime_file_name).

#[export] Instance ClientCoreData_Encode : Encode ClientCoreData :=
  {| enc_size := ClientCoreData_size; encode := ClientCoreData_encode |}.
#[export] Instance ClientCoreData_Decode : Decode ClientCoreData := ClientCoreData_decode.

Definition bytes_of (n : Z) (bs : list Z) : Prop := len bs = n ∧ Forall u8 bs.

Definition ClientCoreData_wf (m : ClientCoreData) : Prop :=
  u32 (core_version m) ∧ u16 (desktop_width m) ∧ u16 (desktop_height m) ∧ u16 (color_depth m) ∧
  u16 (sas_sequence m) ∧ u32 (keyboard_layout m) ∧ u32 (client_build m) ∧ bytes_of 32 (client_name m) ∧
  u32 (keyboard_type m) ∧ u32 (keyboard_subtype m) ∧ u32 (keyboard_function_key m) ∧
  bytes_of 64 (ime_file_name m).

(** The 84 bytes behind the mandatory part, which the decoder skips. *)
Definition cs_core_extended (depth : Z) : list Z :=
  le_bytes 2 depth ++ le_bytes 2 1 ++ le_bytes 4 0 ++ le_bytes 2 0x0018 ++ le_bytes 2 0x0007 ++
  le_bytes 2 0x0001 ++ replicate 64 0 ++ [0] ++ [0] ++ le_bytes 4 0x00000001.

Definition ClientCoreData_wire (m : ClientCoreData) : list Z :=
  ud_header_wire CS_CORE CS_CORE_LEN ++ le_bytes 4 (core_version m) ++ le_bytes 2 (desktop_width m) ++
  le_bytes 2 (desktop_height m) ++ le_bytes 2 (color_depth m) ++ le_bytes 2 (sas_sequence m) ++
  le_bytes 4 (keyboard_layout m) ++ le_bytes 4 (client_build m) ++ client_name m ++
  le_bytes 4 (keyboard_type m) ++ le_bytes 4 (keyboard_subtype m) ++
  le_bytes 4 (keyboard_function_key m) ++ ime_file_name m ++ cs_core_extended (color_depth m).

Arguments ClientCoreData_wire : simpl never.
Arguments cs_core_extended : simpl never.

Lemma len_cs_core_extended d : len (cs_core_extended d) = 84.
Proof. done. Qed.
Lemma cs_core_extended_u8 d : Forall u8 (cs_core_extended d).
Proof.
  unfold cs_core_extended. rewrite !Forall_app.
  split_and!; auto with width; first [apply byte_wire_u8; len_lia|apply Forall_replicate; len_lia].
Qed.
#[export] Hint Rewrite len_cs_core_extended : len.

Lemma reads_bytes_of n bs ctx : bytes_of n bs → reads (read_array n ctx) bs bs.
Proof. intros [<- _]. by apply reads_array. Qed.

#[export] Hint Resolve reads_bytes_of : reads.
#[export] Hint Unfold ClientCoreData_size ClientCoreData_encode ClientCoreData_decode
  ClientCoreData_Encode ClientCoreData_Decode ClientCoreData_wf
  core_version desktop_width desktop_height color_depth sas_sequence keyboard_layout client_build
  client_name keyboard_type keyboard_subtype keyboard_function_key ime_file_name : codec.

Lemma writes_ud_header ty n ctx ctx' (w : writer unit) bs :
  writes w bs → writes (write_u16_le ty ctx;; write_u16_le n ctx';; w) (ud_header_wire ty n ++ bs).
Proof.
  intros. unfold ud_header_wire. rewrite <- app_assoc.
  apply writes_bind; [apply writes_u16_le|]. by apply writes_bind; [apply writes_u16_le|].
Qed.

#[export, refine] Instance ClientCoreData_WireFormat : WireFormat ClientCoreData :=
  {| wf := ClientCoreData_wf; wire := ClientCoreData_wire |}.
Proof.
  - intros m Hm. unfold ClientCoreData_wire. codec_unfold. unfold bytes_of in *. destruct_and?.
    autorewrite with len. lia.
  - intros m Hm. unfold ClientCoreData_wire, cs_core_extended. codec_unfold.
    apply writes_ud_header. solve_writes.
  - intros [] Hm. unfold ClientCoreData_wire. codec_unfold.
    eapply reads_bind; [by apply reads_ud_header|]. change (216 <? 132) with false. cbv iota.
    solve_reads_tagged. change (lift (sub_uint 216 132) ≫= ?f) with (f 84). cbv beta.
    change (84 >? 0) with true. unfold when. eapply reads_bind_last; [|apply reads_ret].
    by eapply reads_bind_last; [apply reads_slice|apply reads_ret].
  - intros m Hm. unfold ClientCoreData_wire. codec_unfold. unfold bytes_of in *. destruct_and?.
    rewrite !Forall_app. split_and!; auto using cs_core_extended_u8 with width.
  - codec_unfold. eapply rspec_bind; [apply rspec_ud_header|]. intros n Hn.
    case_if; [apply rspec_fail|]. bool_to_prop. solve_rspec_tagged.
    unfold sub_uint. replace (132 <=? n) with true by lia.
    apply rspec_lift; [done|]. intros k [= <-]. eapply (rspec_bind _ _ (λ _, True)).
    { unfold when. case_if; [|by apply rspec_ret]. eapply rspec_bind; [apply rspec_slice; lia|].
      intros ? _. by apply rspec_ret. }
    intros _ _. apply rspec_ret. codec_unfold. unfold bytes_of. split_and?; auto.
Defined.

(** ** [ClientSecurityData] *)

Record ClientSecurityData : Type := mkClientSecurityData {
  encryption_methods : Z;
  ext_encryption_methods : Z
}.

Definition ClientSecurityData_size (_ : ClientSecurityData) : Z := 12.
Definition ClientSecurityData_encode (m : ClientSecurityData) : writer unit :=
  write_u16_le CS_SECURITY "GCC CS_SECURITY";;
  write_u16_le 12 "GCC CS_SECURITY";;
  write_u32_le (encryption_methods m) "GCC CS_SECURITY";;
  write_u32_le (ext_encryption_methods m) "GCC CS_SECURITY";;
  mret tt.
Definition ClientSecurityData_decode : reader ClientSecurityData :=
  n ← read_ud_header CS_SECURITY "GCC CS_SECURITY";
  if negb (n =? 12)
  then fail (InvalidLength "GCC CS_SECURITY" "expected CS_SECURITY block length of 12 bytes")
  else
    encryption_methods ← read_u32_le "GCC CS_SECURITY";
    ext_encryption_methods ← read_u32_le "GCC CS_SECURITY";
    mret (mkClientSecurityData encryption_methods ext_encryption_methods).

#[export] Instance ClientSecurityData_Encode : Encode ClientSecurityData :=
  {| enc_size := ClientSecurityData_size; encode := ClientSecurityData_encode |}.
#[export] Instance ClientSecurityData_Decode : Decode ClientSecurityData := ClientSecurityData_decode.

Definition ClientSecurityData_wf (m : ClientSecurityData) : Prop :=
  u32 (encryption_methods m) ∧ u32 (ext_encryption_methods m).
Definition ClientSecurityData_wire (m : ClientSecurityData) : list Z :=
  ud_header_wire CS_SECURITY 12 ++ le_bytes 4 (encryption_methods m) ++ le_bytes 4 (ext_encryption_methods m).

Arguments ClientSecurityData_wire : simpl never.

#[export] Hint Unfold ClientSecurityData_size ClientSecurityData_encode ClientSecurityData_decode
  ClientSecurityData_Encode ClientSecurityData_Decode ClientSecurityData_wf ClientSecurityData_wire
  encryption_methods ext_encryption_methods : codec.

#[export, refine] Instance ClientSecurityData_WireFormat : WireFormat ClientSecurityData :=
  {| wf := ClientSecurityData_wf; wire := ClientSecurityData_wire |}.
Proof.
  - codec_law.
  - intros m Hm. codec_unfold. apply writes_ud_header. solve_writes.
  - intros [] Hm. codec_unfold. eapply reads_bind; [by apply reads_ud_header|]. decide_tags.
    solve_reads_tagged.
  - codec_law.
  - tagged_law.
Defined.

(** ** [ClientNetworkData] *)

Record ChannelDef : Type := mkChannelDef { channel_name : list Z; channel_options : Z }.

Record ClientNetworkData : Type := mkClientNetworkData { channels : list ChannelDef }.

Definition ClientNetworkData_size (m : ClientNetworkData) : Z := 4 + 4 + len (channels m) * 12.

Definition write_channel_def (ch : ChannelDef) : writer unit :=
  write_slice (channel_name ch) "GCC CS_NET";; write_u32_le (channel_options ch) "GCC CS_NET".

Definition ClientNetworkData_encode (m : ClientNetworkData) : writer unit :=
  let total_len := ClientNetworkData_size m in
  if total_len >? 65535 then fail (FieldTooLarge "GCC CS_NET" "length")
  else
    write_u16_le CS_NET "GCC CS_NET";;
    write_u16_le (as_uint 16 total_len) "GCC CS_NET";;
    if len (channels m) >? 4294967295 then fail (FieldTooLarge "GCC CS_NET" "channelCount")
    else
      write_u32_le (as_uint 32 (len (channels m))) "GCC CS_NET";;
      write_each write_channel_def (channels m).

Definition read_channel_def : reader ChannelDef :=
  name ← read_array 8 "GCC CS_NET";
  options ← read_u32_le "GCC CS_NET";
  mret (mkChannelDef name options).

Definition ClientNetworkData_decode : reader ClientNetworkData :=
  n ← read_ud_header CS_NET "GCC CS_NET";
  channel_count ← read_u32_le "GCC CS_NET";
  if channel_count >? 4294967295 / 12
  then fail (InvalidField "GCC CS_NET" "channelCount" "channel count too large")
  else
    channel_bytes ← lift (ok_or (try_from_uint 32 (channel_count * 12))
      (InvalidField "GCC CS_NET" "channelCount" "overflow calculating total length"));
    expected_len ← lift (ok_or (try_from_uint 32 (channel_bytes + 8))
      (InvalidField "GCC CS_NET" "channelCount" "overflow calculating total length"));
    if negb (n =? as_uint 16 expected_len)
    then fail (InvalidLength "GCC CS_NET" "CS_NET length does not match channel count")
    else
      channels ← read_times (Z.to_nat channel_count) read_channel_def;
      mret (mkClientNetworkData channels).

#[export] Instance ClientNetworkData_Encode : Encode ClientNetworkData :=
  {| enc_size := ClientNetworkData_size; encode := ClientNetworkData_encode |}.
#[export] Instance ClientNetworkData_Decode : Decode ClientNetworkData := ClientNetworkData_decode.

Definition ChannelDef_wf (ch : ChannelDef) : Prop :=
  bytes_of 8 (channel_name ch) ∧ u32 (channel_options ch).

(** What the decoder returns: the channel count is a [u32] whose block length
    fits [u32], not one whose block length fits the 16-bit field. *)
Definition ClientNetworkData_sane (m : ClientNetworkData) : Prop :=
  Forall ChannelDef_wf (channels m) ∧ ClientNetworkData_size m < 2 ^ 32.

(** What the encoder accepts. *)
Definition ClientNetworkData_wf (m : ClientNetworkData) : Prop :=
  Forall ChannelDef_wf (channels m) ∧ ClientNetworkData_size m ≤ 65535.

Definition ChannelDef_wire (ch : ChannelDef) : list Z := channel_name ch ++ le_bytes 4 (channel_options ch).

(** A CS_NET block under any length field. *)
Definition cs_net_wire (n : Z) (m : ClientNetworkData) : list Z :=
  ud_header_wire CS_NET n ++ le_bytes 4 (len (channels m)) ++ concat (map ChannelDef_wire (channels m)).

Arguments cs_net_wire : simpl never.

Lemma len_channel_defs l : Forall ChannelDef_wf l → len (concat (map ChannelDef_wire l)) = len l * 12.
Proof.
  induction 1 as [|ch l [[Hn _] _] _ IH]; cbn; [done|]. unfold ChannelDef_wire at 1.
  rewrite !len_app, IH, Hn, len_cons, len_le_bytes. lia.
Qed.

Lemma len_cs_net_wire n m : Forall ChannelDef_wf (channels m) → len (cs_net_wire n m) = ClientNetworkData_size m.
Proof.
  intros. unfold cs_net_wire, ClientNetworkData_size. autorewrite with len.
  rewrite len_channel_defs by done. lia.
Qed.

Lemma writes_cs_net m : ClientNetworkData_wf m → writes (encode m) (cs_net_wire (ClientNetworkData_size m) m).
Proof.
  intros [Hch Hs]. cbn. unfold ClientNetworkData_encode. unfold ClientNetworkData_size in *.
  pose proof (len_nonneg (channels m)). rewrite !Z.gtb_ltb.
  replace (65535 <? 4 + 4 + len (channels m) * 12) with false by lia.
  rewrite !as_uint_id by (unfold is_uint; simpl_pow; lia). apply writes_ud_header.
  replace (4294967295 <? len (channels m)) with false by lia.
  apply writes_bind; [apply writes_u32_le|]. apply writes_each.
  eapply Forall_impl; [exact Hch|]. intros ch _.
  apply writes_bind; [apply writes_slice|apply writes_u32_le].
Qed.

(** The decoder accepts a block whose length field is the block's length
    modulo 2^16. *)
Lemma reads_cs_net m :
  ClientNetworkData_sane m →
  reads decode_from (cs_net_wire (as_uint 16 (ClientNetworkData_size m)) m) m.
Proof.
  intros [Hch Hs]. unfold ClientNetworkData_size in *. pose proof (len_nonneg (channels m)).
  change (2 ^ 32) with 4294967296 in Hs.
  unfold decode_from, ClientNetworkData_Decode, ClientNetworkData_decode, cs_net_wire.
  eapply reads_bind; [apply reads_ud_header; [done|by apply as_uint_range]|].
  eapply reads_bind; [apply reads_u32_le; unfold is_uint; simpl_pow; lia|].
  rewrite Z.gtb_ltb. change (4294967295 / 12) with 357913941.
  replace (357913941 <? len (channels m)) with false by lia.
  eapply reads_lift; [by rewrite try_from_uint_ok by (unfold is_uint; simpl_pow; lia)|].
  eapply reads_lift; [by rewrite try_from_uint_ok by (unfold is_uint; simpl_pow; lia)|].
  replace (len (channels m) * 12 + 8) with (4 + 4 + len (channels m) * 12) by lia. decide_tags.
  destruct m as [chs]. eapply reads_bind_last; [|apply reads_ret].
  apply reads_times; [cbn [channels]; unfold len; lia|]. eapply Forall_impl; [exact Hch|].
  intros [nm op] [Hn Ho]. eapply reads_bind; [by apply reads_bytes_of|].
  eapply reads_bind_last; [by apply reads_u32_le|apply reads_ret].
Qed.

Lemma rspec_channel_def : rspec read_channel_def ChannelDef_wf.
Proof. unfold read_channel_def. solve_rspec_tagged. by split. Qed.

Lemma rspec_cs_net : rspec ClientNetworkData_decode ClientNetworkData_sane.
Proof.
  eapply rspec_bind; [apply rspec_ud_header|]. intros n Hn.
  eapply rspec_bind; [apply rspec_u32_le|]. intros k Hk. case_if; [apply rspec_fail|].
  apply rspec_lift; [by unfold try_from_uint; case_if|]. intros cb Hcb.
  apply rspec_lift; [by unfold try_from_uint; case_if|]. intros el Hel.
  unfold try_from_uint in *. destruct (_ && _) eqn:E1 in Hcb; [|done]. injection Hcb as <-.
  destruct (_ && _) eqn:E2 in Hel; [|done]. injection Hel as <-. bool_to_prop.
  case_if; [apply rspec_fail|]. unfold is_uint in Hk.
  eapply rspec_bind; [apply rspec_times, rspec_channel_def|]. intros l [Hl Hw]. apply rspec_ret.
  split; [done|]. unfold ClientNetworkData_size. cbn [channels]. unfold len. lia.
Qed.

(** * Server data blocks ([gcc_server.rs]) *)

Definition SC_CORE : Z := 0x0C01.
Definition SC_NET : Z := 0x0C03.

#[export] Hint Unfold SC_CORE SC_NET : codec.

(** ** [ServerCoreData] *)

Record ServerCoreData : Type := mkServerCoreData {
  sc_version : Z;
  client_requested_protocols : option Z;
  early_capability_flags : option Z
}.

Definition ServerCoreData_size (m : ServerCoreData) : Z :=
  4 + 4 + match client_requested_protocols m with
          | Some _ => 4 + match early_capability_flags m with Some _ => 4 | None => 0 end
          | None => 0
          end.
Definition ServerCoreData_encode (m : ServerCoreData) : writer unit :=
  length ← lift (ok_or (try_from_uint 16 (ServerCoreData_size m)) (FieldTooLarge "GCC SC_CORE" "length"));
  write_u16_le SC_CORE "ud type";;
  write_u16_le length "ud length";;
  write_u32_le (sc_version m) "version";;
  match client_requested_protocols m with
  | Some protocols =>
    write_u32_le protocols "clientRequestedProtocols";;
    match early_capability_flags m with
    | Some flags => write_u32_le flags "earlyCapabilityFlags"
    | None => mret tt
    end
  | None => mret tt
  end;;
  mret tt.
Definition ServerCoreData_decode : reader ServerCoreData :=
  ud_type ← read_u16_le "ud type";
  if negb (ud_type =? SC_CORE) then fail (InvalidField "GCC SC_CORE" "ud type" "unexpected GCC block type")
  else
    length ← read_u16_le "ud length";
    content ← lift (if 4 <=? length then Ok (length - 4)
                    else Err (InvalidLength "GCC SC_CORE" "length smaller than header"));
    if content <? 4 then fail (NotEnoughBytes "GCC SC_CORE" 4 content)
    else
      version ← read_u32_le "version";
      protocols ← (if 8 <=? content
                   then p ← read_u32_le "clientRequestedProtocols"; mret (Some p)
                   else mret None);
      flags ← (if 12 <=? content
               then f ← read_u32_le "earlyCapabilityFlags"; mret (Some f)
               else mret None);
      mret (mkServerCoreData version protocols flags).

#[export] Instance ServerCoreData_Encode : Encode ServerCoreData :=
  {| enc_size := ServerCoreData_size; encode := ServerCoreData_encode |}.
#[export] Instance ServerCoreData_Decode : Decode ServerCoreData := ServerCoreData_decode.

(** Flags are written only behind the protocols. *)
Definition ServerCoreData_wf (m : ServerCoreData) : Prop :=
  u32 (sc_version m) ∧ from_option u32 True (client_requested_protocols m) ∧
  from_option u32 True (early_capability_flags m) ∧
  (client_requested_protocols m = None → early_capability_flags m = None).

Definition opt_u32_wire (o : option Z) : list Z := from_option (le_bytes 4) [] o.
Definition ServerCoreData_wire (m : ServerCoreData) : list Z :=
  ud_header_wire SC_CORE (ServerCoreData_size m) ++ le_bytes 4 (sc_version m) ++
  opt_u32_wire (client_requested_protocols m) ++ opt_u32_wire (early_capability_flags m).

Arguments ServerCoreData_wire : simpl never.

Ltac sc_core_cases m H :=
  destruct m as [v [p|] [f|]]; destruct H as (?Hv & ?Hp & ?Hf & ?Hn); cbn [from_option
    sc_version client_requested_protocols early_capability_flags] in *;
  try (discriminate (Hn eq_refl)).

Lemma rspec_opt_u32 (b : bool) ctx :
  rspec (if b then p ← read_u32_le ctx; mret (Some p) else mret None)
        (λ o, from_option u32 True o ∧ (o = None ↔ b = false)).
Proof.
  destruct b; [eapply rspec_bind; [apply rspec_u32_le|]; intros|]; apply rspec_ret; by split.
Qed.

Lemma reads_some_u32 p ctx : u32 p → reads (p ← read_u32_le ctx; mret (Some p)) (le_bytes 4 p) (Some p).
Proof. intros. by eapply reads_bind_last; [apply reads_u32_le|apply reads_ret]. Qed.
#[local] Hint Resolve reads_some_u32 reads_ret : reads.

#[export, refine] Instance ServerCoreData_WireFormat : WireFormat ServerCoreData :=
  {| wf := ServerCoreData_wf; wire := ServerCoreData_wire |}.
Proof.
  - intros m Hm. sc_core_cases m Hm; done.
  - intros m Hm. unfold encode, ServerCoreData_Encode, ServerCoreData_encode, ServerCoreData_wire, opt_u32_wire.
    sc_core_cases m Hm; (eapply writes_lift; [done|]); apply writes_ud_header;
      (apply writes_bind; [apply writes_u32_le|]); apply writes_bind_ret; solve_writes; apply writes_ret.
  - intros m Hm. unfold decode_from, ServerCoreData_Decode, ServerCoreData_decode, ServerCoreData_wire, ud_header_wire.
    rewrite <- app_assoc. eapply reads_bind; [by apply reads_u16_le|]. decide_tags.
    eapply reads_bind; [apply reads_u16_le; sc_core_cases m Hm; done|].
    sc_core_cases m Hm; unfold opt_u32_wire; cbn [from_option]; (eapply reads_lift; [done|]).
    + change (ServerCoreData_size _ - 4) with 12. cbn [Z.ltb Z.leb Z.compare Pos.compare Pos.compare_cont].
      solve_reads_tagged.
    + change (ServerCoreData_size _ - 4) with 8. cbn [Z.ltb Z.leb Z.compare Pos.compare Pos.compare_cont].
      solve_reads_tagged.
    + change (ServerCoreData_size _ - 4) with 4. cbn [Z.ltb Z.leb Z.compare Pos.compare Pos.compare_cont].
      solve_reads_tagged.
  - intros m Hm. unfold ServerCoreData_wire, opt_u32_wire. sc_core_cases m Hm; solve_bytes.
  - unfold decode_from, ServerCoreData_Decode, ServerCoreData_decode.
    eapply rspec_bind; [apply rspec_u16_le|]. intros ty _. case_if; [apply rspec_fail|].
    eapply rspec_bind; [apply rspec_u16_le|]. intros n Hn.
    apply rspec_lift; [by case_if|]. intros k _. case_if; [apply rspec_fail|].
    eapply rspec_bind; [apply rspec_u32_le|]. intros v Hv.
    eapply rspec_bind; [apply rspec_opt_u32|]. intros p [Hp Hp'].
    eapply rspec_bind; [apply rspec_opt_u32|]. intros f [Hf Hf']. apply rspec_ret.
    split_and!; [done..|]. cbn. intros H. apply Hp' in H. apply Hf'. bool_to_prop. lia.
Defined.

(** ** [ServerNetworkData] *)

Record ServerNetworkData : Type := mkServerNetworkData {
  mcs_channel_id : Z;
  channel_ids : list Z
}.

Definition odd_len {A} (l : list A) : bool := len l mod 2 =? 1.

Definition ServerNetworkData_size (m : ServerNetworkData) : Z :=
  4 + 2 + 2 + len (channel_ids m) * 2 + (if odd_len (channel_ids m) then 2 else 0).
Definition ServerNetworkData_encode (m : ServerNetworkData) : writer unit :=
  length ← lift (ok_or (try_from_uint 16 (ServerNetworkData_size m)) (FieldTooLarge "GCC SC_NET" "length"));
  write_u16_le SC_NET "ud type";;
  write_u16_le length "ud length";;
  write_u16_le (mcs_channel_id m) "mcsChannelId";;
  count ← lift (ok_or (try_from_uint 16 (len (channel_ids m))) (FieldTooLarge "GCC SC_NET" "channelCount"));
  write_u16_le count "channelCount";;
  write_each (λ id, write_u16_le id "channelId") (channel_ids m);;
  when (odd_len (channel_ids m)) (write_u16_le 0x0000 "alignmentPad");;
  mret tt.
Definition ServerNetworkData_decode : reader ServerNetworkData :=
  ud_type ← read_u16_le "ud type";
  if negb (ud_type =? SC_NET) then fail (InvalidField "GCC SC_NET" "ud type" "unexpected GCC block type")
  else
    _ ← read_u16_le "ud length";
    mcs_channel_id ← read_u16_le "mcsChannelId";
    channel_count ← read_u16_le "channelCount";
    channel_ids ← read_times (Z.to_nat channel_count) (read_u16_le "channelId");
    when (channel_count mod 2 =? 1) (_ ← read_u16_le "alignmentPad"; mret tt);;
    mret (mkServerNetworkData mcs_channel_id channel_ids).

#[export] Instance ServerNetworkData_Encode : Encode ServerNetworkData :=
  {| enc_size := ServerNetworkData_size; encode := ServerNetworkData_encode |}.
#[export] Instance ServerNetworkData_Decode : Decode ServerNetworkData := ServerNetworkData_decode.

(** The decoder takes the count for what it says and does not look at the
    length; the encoder needs the length to fit 16 bits. *)
Definition ServerNetworkData_sane (m : ServerNetworkData) : Prop :=
  u16 (mcs_channel_id m) ∧ Forall u16 (channel_ids m) ∧ u16 (len (channel_ids m)).
Definition ServerNetworkData_wf (m : ServerNetworkData) : Prop :=
  u16 (mcs_channel_id m) ∧ Forall u16 (channel_ids m) ∧ ServerNetworkData_size m < 2 ^ 16.

Definition sc_net_body (m : ServerNetworkData) : list Z :=
  le_bytes 2 (mcs_channel_id m) ++ le_bytes 2 (len (channel_ids m)) ++
  concat (map (le_bytes 2) (channel_ids m)) ++ (if odd_len (channel_ids m) then le_bytes 2 0 else []).

(** An SC_NET block under any length field. *)
Definition sc_net_wire (n : Z) (m : ServerNetworkData) : list Z := ud_header_wire SC_NET n ++ sc_net_body m.

Arguments sc_net_wire : simpl never.
Arguments sc_net_body : simpl never.

Lemma len_u16s l : len (concat (map (le_bytes 2) l)) = len l * 2.
Proof. induction l as [|x l IH]; cbn; [done|]. rewrite len_app, IH, len_cons, len_le_bytes. lia. Qed.

Lemma len_sc_net_wire n m : len (sc_net_wire n m) = ServerNetworkData_size m.
Proof.
  unfold sc_net_wire, sc_net_body, ServerNetworkData_size. autorewrite with len. rewrite len_u16s.
  destruct (odd_len (channel_ids m)); [change (len (le_bytes 2 0)) with 2|change (len (@nil Z)) with 0]; lia.
Qed.

Lemma sc_net_wf_count m : ServerNetworkData_wf m → u16 (len (channel_ids m)).
Proof.
  intros (_ & _ & Hs). unfold ServerNetworkData_size in Hs. pose proof (len_nonneg (channel_ids m)).
  unfold is_uint. destruct (odd_len (channel_ids m)); lia.
Qed.

Lemma writes_sc_net m : ServerNetworkData_wf m → writes (encode m) (sc_net_wire (ServerNetworkData_size m) m).
Proof.
  intros Hm. pose proof (sc_net_wf_count m Hm) as Hc. destruct Hm as (Hi & Hids & Hs).
  unfold encode, ServerNetworkData_Encode, ServerNetworkData_encode, sc_net_wire, sc_net_body.
  eapply writes_lift.
  { rewrite try_from_uint_ok; [done|]. split; [|done]. pose proof (len_nonneg (sc_net_wire 0 m)).
    by rewrite len_sc_net_wire in *. }
  apply writes_ud_header. apply writes_bind; [apply writes_u16_le|].
  eapply writes_lift; [by rewrite try_from_uint_ok|]. apply writes_bind; [apply writes_u16_le|].
  apply writes_bind; [apply writes_each, Forall_true; intros; apply writes_u16_le|].
  apply writes_bind_ret. unfold when. destruct (odd_len (channel_ids m)); [apply writes_u16_le|apply writes_ret].
Qed.

Lemma reads_sc_net n m : u16 n → ServerNetworkData_sane m → reads decode_from (sc_net_wire n m) m.
Proof.
  intros Hn (Hi & Hids & Hc). unfold decode_from, ServerNetworkData_Decode, ServerNetworkData_decode.
  unfold sc_net_wire, sc_net_body, ud_header_wire. rewrite <- !app_assoc.
  eapply reads_bind; [by apply reads_u16_le|]. decide_tags.
  do 3 (eapply reads_bind; [by apply reads_u16_le|]).
  eapply reads_bind.
  { apply reads_times; [unfold len; lia|]. eapply Forall_impl; [exact Hids|]. intros. by apply reads_u16_le. }
  fold (odd_len (channel_ids m)). destruct m as [i ids]. cbn [channel_ids mcs_channel_id].
  eapply reads_bind_last; [|apply reads_ret]. unfold when. destruct (odd_len ids); [|apply reads_ret].
  by eapply reads_bind_last; [apply reads_u16_le|apply reads_ret].
Qed.

Lemma rspec_sc_net : rspec ServerNetworkData_decode ServerNetworkData_sane.
Proof.
  eapply rspec_bind; [apply rspec_u16_le|]. intros ty _. case_if; [apply rspec_fail|].
  do 2 (eapply rspec_bind; [apply rspec_u16_le|]; intros ? ?).
  eapply rspec_bind; [apply rspec_u16_le|]. intros k Hk.
  eapply rspec_bind; [apply rspec_times, rspec_u16_le|]. intros ids [Hl Hids].
  eapply (rspec_bind _ _ (λ _, True)).
  { unfold when. case_if; [|by apply rspec_ret]. eapply rspec_bind; [apply rspec_u16_le|].
    intros. by apply rspec_ret. }
  intros _ _. apply rspec_ret. split_and!; [done..|]. cbn. unfold is_uint, len in *. lia.
Qed.

(** ** Properties *)

(** A codec whose encoder accepts [ok] values and whose decoder returns [sane]
    ones: the encoder fills exactly the size it announces, the decoder gives
    the value back from those bytes with anything behind them, and no bytes make
    it panic. *)
Definition codec_within {T} `{Encode T, Decode T} (ok sane : T → Prop) : Prop :=
  (∀ (m : T) rest, ok m → ∃ bytes, encode_vec m = Ok bytes ∧ len bytes = enc_size m ∧
                     decode (bytes ++ rest) = Ok m) ∧
  (∀ bytes, Forall u8 bytes →
     match decode (T:=T) bytes with Ok m => sane m | Err _ => True | Panic => False end).

Lemma codec_within_intro {T} `{Encode T, Decode T} (ok sane : T → Prop) (w : T → list Z) :
  (∀ m, ok m → writes (encode m) (w m) ∧ enc_size m = len (w m) ∧ reads decode_from (w m) m) →
  rspec (decode_from (T:=T)) sane → codec_within ok sane.
Proof.
  intros Hw Hr. split; [|intros; by apply decode_rspec]. intros m rest Hm. destruct (Hw m Hm) as (? & ? & ?).
  exists (w m). split_and!; [by apply encode_vec_writes|done|by apply decode_reads].
Qed.

Lemma codec_within_wire T `{WireFormat T} : codec_within (T:=T) wf wf.
Proof.
  apply (codec_within_intro _ _ wire); [|apply wire_total].
  intros m Hm. split_and!; [by apply wire_encode|by apply wire_size|by apply wire_decode].
Qed.

Lemma cs_net_codec : codec_within ClientNetworkData_wf ClientNetworkData_sane.
Proof.
  apply (codec_within_intro _ _ (λ m, cs_net_wire (ClientNetworkData_size m) m)); [|apply rspec_cs_net].
  intros m Hm. split_and!; [by apply writes_cs_net|by rewrite len_cs_net_wire by apply Hm|].
  destruct Hm as [Hch Hs]. pose proof (len_nonneg (channels m)).
  pose proof (reads_cs_net m) as Hr. rewrite as_uint_id in Hr.
  - apply Hr. split; [done|]. lia.
  - unfold is_uint, ClientNetworkData_size in *. simpl_pow. lia.
Qed.

Lemma sc_net_codec : codec_within ServerNetworkData_wf ServerNetworkData_sane.
Proof.
  apply (codec_within_intro _ _ (λ m, sc_net_wire (ServerNetworkData_size m) m)); [|apply rspec_sc_net].
  intros m Hm. pose proof (sc_net_wf_count m Hm).
  split_and!; [by apply writes_sc_net|by rewrite len_sc_net_wire|].
  destruct Hm as (? & ? & ?). apply reads_sc_net; [|by split_and!].
  split; [|done]. rewrite <- (len_sc_net_wire 0). apply len_nonneg.
Qed.

(** the MCS domain parameters and the five GCC data blocks round-trip through their encoders and decoders into buffers of exactly the announced size, whatever follows them, and no bytes make a decoder panic: it refuses them or returns fields in their ranges. *)
Theorem gcc_blocks_sound :
  codec_within DomainParameters_wf DomainParameters_wf ∧
  codec_within ClientCoreData_wf ClientCoreData_wf ∧
  codec_within ClientSecurityData_wf ClientSecurityData_wf ∧
  codec_within ClientNetworkData_wf ClientNetworkData_sane ∧
  codec_within ServerCoreData_wf ServerCoreData_wf ∧
  codec_within ServerNetworkData_wf ServerNetworkData_sane.
Proof.
  split_and!.
  - exact (codec_within_wire DomainParameters).
  - exact (codec_within_wire ClientCoreData).
  - exact (codec_within_wire ClientSecurityData).
  - exact cs_net_codec.
  - exact (codec_within_wire ServerCoreData).
  - exact sc_net_codec.
Qed.

(** a CS_NET block of 16384 channels whose length field says 8 bytes is accepted: the decoder compares the field with the expected length taken modulo 2^16, so a block longer than the field can say passes the check. *)
Theorem cs_net_length_wraps chs rest :
  Forall ChannelDef_wf chs → len chs = 16384 →
  decode (cs_net_wire 8 (mkClientNetworkData chs) ++ rest) = Ok (mkClientNetworkData chs).
Proof.
  intros Hch Hl. apply decode_reads. pose proof (reads_cs_net (mkClientNetworkData chs)) as Hr.
  unfold ClientNetworkData_sane, ClientNetworkData_size in Hr. cbn [channels] in Hr. rewrite Hl in Hr.
  apply Hr. by split.
Qed.

Lemma cs_net_length_wraps_witness :
  ∃ chs, len chs = 16384 ∧
    decode (cs_net_wire 8 (mkClientNetworkData chs) ++ [0]) = Ok (mkClientNetworkData chs).
Proof.
  assert (len (replicate (Z.to_nat 16384) (mkChannelDef (replicate 8 0) 0)) = 16384) as Hl
    by (apply len_replicate; lia).
  assert (Forall ChannelDef_wf (replicate (Z.to_nat 16384) (mkChannelDef (replicate 8 0) 0))) as Hw.
  { apply Forall_replicate. split; [split; [done|]; apply Forall_replicate; len_lia|cbn; len_lia]. }
  revert Hl Hw. generalize (replicate (Z.to_nat 16384) (mkChannelDef (replicate 8 0) 0)).
  intros chs Hl Hw. exists chs. split; [exact Hl|]. exact (cs_net_length_wraps chs [0] Hw Hl).
Defined.
