(* ===== verification/RdpConference.v ===== *)
(** * MCS Connect-Initial and Connect-Response

    [crates/oxrdp-pdu/src/connect_initial.rs] and [connect_response.rs]: the
    client's parameters wrapped in a GCC conference create request, and the
    parser of the server's answer, which finds the server's data blocks behind
    the [McDn] key and walks them.  [usize] is 64 bits wide. *)

From S2P Require Import Prelude Cursor Wire Ber RdpGcc.

(** ** Lengths appended to a vector ([connect_initial.rs]) *)

Definition per_append_length (out : list Z) (n : Z) : list Z :=
  if n <? 0x80 then out ++ [as_uint 8 n]
  else out ++ [Z.lor 0x80 (as_uint 8 (Z.shiftr n 8)); as_uint 8 (Z.land n 0xFF)].

(** [while v > 0 { bytes.insert(0, (v & 0xFF) as u8); v >>= 8; }]: a [usize] is
    exhausted after eight shifts. *)
Fixpoint length_bytes (fuel : nat) (v : Z) (bytes : list Z) : list Z :=
  match fuel with
  | O => bytes
  | S fuel =>
    if v >? 0 then length_bytes fuel (Z.shiftr v 8) (as_uint 8 (Z.land v 0xFF) :: bytes) else bytes
  end.

Definition ber_append_length (out : list Z) (n : Z) : list Z :=
  if n <? 0x80 then out ++ [as_uint 8 n]
  else
    let bytes := length_bytes 8 n [] in
    (out ++ [Z.lor 0x80 (as_uint 8 (len bytes))]) ++ bytes.

(** ** [ConnectInitial] *)

Record ConnectInitial : Type := mkConnectInitial {
  ci_core : ClientCoreData;
  ci_security : ClientSecurityData;
  ci_network : ClientNetworkData
}.

Definition T124_OID : list Z := [0x00; 0x05; 0x00; 0x14; 0x7C; 0x00; 0x01].
Definition CREATE_REQUEST : list Z := [0x00; 0x08; 0x00; 0x10; 0x00; 0x01; 0xC0; 0x00].
Definition DUCA : list Z := [0x44; 0x75; 0x63; 0x61].

Definition to_bytes (m : ConnectInitial) : outcome EncodeError (list Z) :=
  core ← encode_vec (ci_core m);
  security ← encode_vec (ci_security m);
  network ← encode_vec (ci_network m);
  let user_data := core ++ security ++ network in
  let udlen := len user_data in
  let gcc := per_append_length T124_OID (udlen + 14) in
  let gcc := gcc ++ CREATE_REQUEST in
  let gcc := gcc ++ DUCA in
  let gcc := per_append_length gcc udlen in
  let gcc := gcc ++ user_data in
  let body := [0x04; 0x01; 0x01] ++ [0x04; 0x01; 0x01] ++ [0x01; 0x01; 0xFF] in
  t ← encode_vec target;
  mn ← encode_vec minimum;
  mx ← encode_vec maximum;
  let body := body ++ t ++ mn ++ mx in
  let body := body ++ [0x04] in
  let body := ber_append_length body (len gcc) in
  let body := body ++ gcc in
  let out := ber_append_length [0x7F; 0x65] (len body) in
  mret (out ++ body).

(** ** Lengths read back ([connect_response.rs]) *)

Definition read_ber_length (ctx : string) : reader Z :=
  b ← read_u8 ctx;
  if b <? 0x80 then mret b
  else
    let n := Z.land b 0x7F in
    if (n =? 0) || (n >? 4) then fail (InvalidLength ctx "invalid BER length form")
    else read_length_loop (Z.to_nat n) 0 ctx.

Definition read_per_length (ctx : string) : reader Z :=
  b ← read_u8 ctx;
  if Z.land b 0x80 =? 0 then mret b
  else b2 ← read_u8 ctx; mret (Z.lor (Z.shiftl (Z.land b 0x7F) 8) b2).

(** ** [find_pattern] *)

Fixpoint find_pattern_loop (k : nat) (i : Z) (haystack needle : list Z) : outcome DecodeError (option Z) :=
  match k with
  | O => Ok None
  | S k =>
    w ← slice haystack i (i + len needle);
    if bool_decide (w = needle) then Ok (Some i) else find_pattern_loop k (i + 1) haystack needle
  end.

Definition find_pattern (haystack needle : list Z) : outcome DecodeError (option Z) :=
  if (len needle =? 0) || (len haystack <? len needle) then Ok None
  else
    fin ← sub_uint (len haystack) (len needle);
    find_pattern_loop (Z.to_nat (fin + 1)) 0 haystack needle.

(** ** [ConnectResponse] *)

Record ConnectResponse : Type := mkConnectResponse {
  cr_result : Z;
  server_core : option ServerCoreData;
  server_network : option ServerNetworkData
}.

(** [u16::from_le_bytes([b[i], b[i + 1]])] *)
Definition u16_at (b : list Z) (i : Z) : outcome DecodeError Z :=
  lo ← index b i; hi ← index b (i + 1); mret (le_value [lo; hi]).

(** The [while off + 4 <= blocks.len()] loop.  A block is at least four bytes
    long, so that [S (length blocks)] iterations are never used up; the branch
    without fuel is not reached ([blocks_loop_fuel]). *)
Fixpoint blocks_loop (fuel : nat) (blocks : list Z) (off : Z)
    (core : option ServerCoreData) (network : option ServerNetworkData) :
    outcome DecodeError (option ServerCoreData * option ServerNetworkData) :=
  match fuel with
  | O => Panic
  | S fuel =>
    if off + 4 <=? len blocks then
      ty ← u16_at blocks off;
      blen ← u16_at blocks (off + 2);
      if (blen <? 4) || (len blocks <? off + blen)
      then Err (InvalidLength "GCC server block" "bad block length")
      else
        block_bytes ← slice blocks off (off + blen);
        if ty =? 0x0C01 then
          c ← decode (T:=ServerCoreData) block_bytes;
          blocks_loop fuel blocks (off + blen) (Some c) network
        else if ty =? 0x0C03 then
          n ← decode (T:=ServerNetworkData) block_bytes;
          blocks_loop fuel blocks (off + blen) core (Some n)
        else blocks_loop fuel blocks (off + blen) core network
    else Ok (core, network)
  end.

Definition parse_blocks (blocks : list Z) :
    outcome DecodeError (option ServerCoreData * option ServerNetworkData) :=
  blocks_loop (S (length blocks)) blocks 0 None None.

Definition MCDN : list Z := [0x4D; 0x63; 0x44; 0x6E].

(** The fields of Connect-Response up to the GCC user data. *)
Definition connect_response_header : reader (Z * list Z) :=
  tag0 ← read_u8 "MCS Connect-Response";
  tag1 ← read_u8 "MCS Connect-Response";
  if negb (tag0 =? 0x7F) || negb (tag1 =? 0x66)
  then fail (InvalidField "MCS Connect-Response" "tag" "expected 0x7F 0x66")
  else
    _ ← read_ber_length "MCS Connect-Response";
    result_tag ← read_u8 "MCS Connect-Response";
    if negb (result_tag =? 0x0A)
    then fail (InvalidField "MCS Connect-Response" "result tag" "expected 0x0A")
    else
      result_len ← read_ber_length "MCS Connect-Response";
      result ← read_u8 "MCS Connect-Response";
      when (result_len >? 1) (_ ← read_slice (result_len - 1) "MCS Connect-Response"; mret tt);;
      cci_tag ← read_u8 "MCS Connect-Response";
      if negb (cci_tag =? 0x02)
      then fail (InvalidField "MCS Connect-Response" "calledConnectId tag" "expected 0x02")
      else
        cci_len ← read_ber_length "MCS Connect-Response";
        _ ← read_slice cci_len "MCS Connect-Response";
        dp_tag ← read_u8 "MCS Connect-Response";
        if negb (dp_tag =? 0x30)
        then fail (InvalidField "MCS Connect-Response" "DomainParameters tag" "expected 0x30")
        else
          dp_len ← read_ber_length "MCS Connect-Response";
          _ ← read_slice dp_len "MCS Connect-Response";
          ud_tag ← read_u8 "MCS Connect-Response";
          if negb (ud_tag =? 0x04)
          then fail (InvalidField "MCS Connect-Response" "userData tag" "expected 0x04")
          else
            ud_len ← read_ber_length "MCS Connect-Response";
            gcc_cc_resp ← read_slice ud_len "MCS Connect-Response";
            mret (result, gcc_cc_resp).

(** The GCC part: the blocks behind the key and its PER length. *)
Definition gcc_blocks (gcc_cc_resp : list Z) : outcome DecodeError (list Z) :=
  found ← find_pattern gcc_cc_resp MCDN;
  match found with
  | None => Err (InvalidField "GCC Conference Create Response" "h221 key" "McDn not found")
  | Some mcdn_pos =>
    after_mcdn ← slice gcc_cc_resp (mcdn_pos + 4) (len gcc_cc_resp);
    match read_per_length "GCC Conference Create Response" (read_new after_mcdn) with
    | Ok (_, c) => slice after_mcdn (position c) (len after_mcdn)
    | Err e => Err e
    | Panic => Panic
    end
  end.

Definition from_bytes (data : list Z) : outcome DecodeError ConnectResponse :=
  match connect_response_header (read_new data) with
  | Ok ((result, gcc_cc_resp), _) =>
    blocks ← gcc_blocks gcc_cc_resp;
    cn ← parse_blocks blocks;
    mret (mkConnectResponse result (fst cn) (snd cn))
  | Err e => Err e
  | Panic => Panic
  end.

(** ** Lemmas on appended lengths *)

Lemma be_bytes_snoc n v : be_bytes (S n) v = be_bytes n (v / 256) ++ [v mod 256].
Proof. unfold be_bytes. change (le_bytes (S n) v) with (v mod 256 :: le_bytes n (v / 256)). done. Qed.

Lemma skip_zeros_snoc l x :
  skip_zeros (l ++ [x]) = match skip_zeros l with [] => skip_zeros [x] | _ => skip_zeros l ++ [x] end.
Proof.
  induction l as [|y l IH]; [done|]. cbn [app skip_zeros]. case_if; [done|]. done.
Qed.

Lemma skip_zeros_zero n : skip_zeros (be_bytes n 0) = [].
Proof.
  induction n as [|n IH]; [done|]. rewrite be_bytes_snoc, skip_zeros_snoc.
  change (0 / 256) with 0. rewrite IH. done.
Qed.

Lemma skip_zeros_nonzero n v : 0 < v < 256 ^ Z.of_nat n → skip_zeros (be_bytes n v) ≠ [].
Proof.
  intros Hv E. pose proof (skip_zeros_value (be_bytes n v)) as Hval.
  rewrite E, be_bytes_value in Hval by lia. cbn in Hval. lia.
Qed.

(** The loop yields the big-endian bytes without leading zeros. *)
Lemma length_bytes_spec fuel v acc :
  0 ≤ v < 256 ^ Z.of_nat fuel → length_bytes fuel v acc = skip_zeros (be_bytes fuel v) ++ acc.
Proof.
  revert v acc. induction fuel as [|n IH]; intros v acc Hv; [done|]. cbn [length_bytes].
  rewrite Z.gtb_ltb. destruct (Z.ltb_spec 0 v).
  - rewrite Nat2Z.inj_succ, Z.pow_succ_r in Hv by lia.
    rewrite Z.shiftr_div_pow2 by lia. change 0xFF with (Z.ones 8). rewrite Z.land_ones by lia.
    change (2 ^ 8) with 256. pose proof (Z.mod_pos_bound v 256 ltac:(lia)).
    rewrite as_uint_id by (unfold is_uint; simpl_pow; lia).
    assert (0 ≤ v / 256 < 256 ^ Z.of_nat n) by (split; [apply Z.div_pos; lia|apply Z.div_lt_upper_bound; lia]).
    rewrite IH by done. rewrite be_bytes_snoc, skip_zeros_snoc.
    destruct (Z.eq_dec (v / 256) 0) as [E|E].
    + rewrite E, skip_zeros_zero. cbn [skip_zeros app].
      pose proof (Z.div_mod v 256 ltac:(lia)). by replace (v mod 256 =? 0) with false by lia.
    + destruct (skip_zeros (be_bytes n (v / 256))) eqn:Es; [|by rewrite <- app_assoc].
      by apply skip_zeros_nonzero in Es; [|lia].
  - assert (v = 0) as -> by lia. by rewrite skip_zeros_zero.
Qed.

Lemma lor_128_small k : 1 ≤ k ≤ 4 → Z.lor 128 k = 128 + k.
Proof. intros. apply lor_128. lia. Qed.

Lemma ber_append_length_wire out n : u32 n → ber_append_length out n = out ++ ber_length_wire n.
Proof.
  intros Hn. unfold ber_append_length, ber_length_wire. unfold is_uint in Hn. simpl_pow.
  destruct (Z.ltb_spec n 128).
  - by rewrite as_uint_id by (unfold is_uint; simpl_pow; lia).
  - rewrite length_bytes_spec by (change (256 ^ Z.of_nat 8) with (2 ^ 64); lia).
    rewrite app_nil_r, skip_zeros_8_4 by (unfold is_uint; simpl_pow; lia).
    pose proof (skip_zeros_4_len n ltac:(unfold is_uint; simpl_pow; lia) ltac:(lia)).
    rewrite as_uint_id by (unfold is_uint; simpl_pow; lia). rewrite lor_128_small by lia.
    by rewrite <- app_assoc.
Qed.

Lemma per_append_length_wire out n : per_length_ok n → per_append_length out n = out ++ per_length_wire n.
Proof.
  intros [? ?]. unfold per_append_length, per_length_wire. destruct (Z.ltb_spec n 128).
  - by rewrite as_uint_id by (unfold is_uint; simpl_pow; lia).
  - rewrite Z.shiftr_div_pow2 by lia. change 0xFF with (Z.ones 8). rewrite Z.land_ones by lia.
    change (2 ^ 8) with 256. pose proof (Z.mod_pos_bound n 256 ltac:(lia)).
    assert (0 ≤ n / 256 < 128) by (split; [apply Z.div_pos|apply Z.div_lt_upper_bound]; lia).
    rewrite !as_uint_id by (unfold is_uint; simpl_pow; lia). by rewrite lor_128 by lia.
Qed.

(** ** Lemmas on lengths read back *)

Lemma reads_ber_length n ctx : u32 n → reads (read_ber_length ctx) (ber_length_wire n) n.
Proof.
  intros Hn pre post. pose proof (reads_length n ctx Hn pre post) as Hr.
  unfold ber_length_wire in *. destruct (Z.ltb_spec n 128) as [Hs|Hl].
  { unfold read_ber_length, read_length, mbind, stm_bind in *.
    rewrite reads_u8 in *. by replace (n <? 128) with true in * by lia. }
  pose proof (skip_zeros_4_len n Hn Hl) as Hk. set (bs := skip_zeros (be_bytes 4 n)) in *.
  unfold read_ber_length, read_length, mbind, stm_bind in *.
  change ((128 + len bs) :: bs) with ([128 + len bs] ++ bs) in *. rewrite <- app_assoc in *.
  rewrite reads_u8 in *. replace (128 + len bs <? 128) with false in * by lia.
  replace (128 + len bs =? 128) with false in Hr by lia.
  rewrite land_127 in *. replace ((128 + len bs) mod 128) with (len bs) in * by (apply Z.mod_unique with 1; lia).
  rewrite Z.gtb_ltb in *. replace (4 <? len bs) with false in * by lia.
  by replace (len bs =? 0) with false by lia.
Qed.

Lemma rspec_ber_length ctx : rspec (read_ber_length ctx) u32.
Proof.
  eapply rspec_bind; [apply rspec_u8|]. intros b Hb. case_if.
  { apply rspec_ret. bool_to_prop. unfold is_uint in *. simpl_pow. lia. }
  cbv zeta. rewrite Z.gtb_ltb. case_if; [apply rspec_fail|].
  match goal with H : _ || _ = false |- _ => apply orb_false_iff in H as [_ ?] end. bool_to_prop.
  eapply rspec_mono; [by apply rspec_length_loop|]. cbn beta. intros n Hn. unfold is_uint.
  split; [lia|]. eapply Z.lt_le_trans; [apply Hn|]. change (2 ^ 32) with (256 ^ 4).
  rewrite Z.mul_1_l. apply Z.pow_le_mono_r; lia.
Qed.

Lemma reads_resp_per_length n ctx : per_length_ok n → reads (read_per_length ctx) (per_length_wire n) n.
Proof. apply reads_per_length. Qed.
Lemma rspec_resp_per_length ctx : rspec (read_per_length ctx) per_length_ok.
Proof. apply rspec_per_length. Qed.

#[export] Hint Resolve reads_ber_length : reads.
#[export] Hint Resolve rspec_ber_length : rspec.

(** ** Lemmas on the search *)

Definition occurs_at (haystack needle : list Z) (i : Z) : Prop :=
  ztake (len needle) (zdrop i haystack) = needle.

Lemma find_pattern_loop_spec k i hay needle :
  0 ≤ i → i + Z.of_nat k + len needle ≤ len hay + 1 →
  match find_pattern_loop k i hay needle with
  | Ok (Some j) => i ≤ j < i + Z.of_nat k ∧ occurs_at hay needle j ∧
                   ∀ i', i ≤ i' < j → ¬ occurs_at hay needle i'
  | Ok None => ∀ i', i ≤ i' < i + Z.of_nat k → ¬ occurs_at hay needle i'
  | _ => False
  end.
Proof.
  revert i. induction k as [|k IH]; intros i Hi Hk; cbn [find_pattern_loop]; [intros; lia|].
  pose proof (len_nonneg needle). rewrite slice_ok by lia. cbn [mbind outcome_bind].
  replace (i + len needle - i) with (len needle) by lia.
  destruct (bool_decide_reflect (ztake (len needle) (zdrop i hay) = needle)) as [Ho|Ho].
  { cbv iota. split_and!; [lia..|done|]. intros; lia. }
  cbv iota. specialize (IH (i + 1) ltac:(lia) ltac:(lia)).
  destruct (find_pattern_loop k (i + 1) hay needle) as [[j|]|e|]; [| |done..].
  - destruct IH as (? & ? & Hn). split_and!; [lia..|done|]. intros i' Hi'.
    destruct (Z.eq_dec i' i) as [->|]; [done|]. apply Hn. lia.
  - intros i' Hi'. destruct (Z.eq_dec i' i) as [->|]; [done|]. apply IH. lia.
Qed.

(** The first occurrence of a non-empty pattern, or none at any position. *)
Lemma find_pattern_spec hay needle :
  0 < len needle →
  match find_pattern hay needle with
  | Ok (Some j) => 0 ≤ j ≤ len hay - len needle ∧ occurs_at hay needle j ∧
                   ∀ i, 0 ≤ i < j → ¬ occurs_at hay needle i
  | Ok None => ∀ i, 0 ≤ i ≤ len hay - len needle → ¬ occurs_at hay needle i
  | _ => False
  end.
Proof.
  intros Hn. unfold find_pattern. replace (len needle =? 0) with false by lia. cbn [orb].
  destruct (Z.ltb_spec (len hay) (len needle)); [intros; lia|].
  unfold sub_uint. replace (len needle <=? len hay) with true by lia. cbn [mbind outcome_bind].
  pose proof (find_pattern_loop_spec (Z.to_nat (len hay - len needle + 1)) 0 hay needle ltac:(lia) ltac:(lia)) as Hl.
  destruct (find_pattern_loop _ 0 hay needle) as [[j|]|e|]; [| |done..].
  - destruct Hl as (? & ? & ?). split_and!; [lia..|done|done].
  - intros i Hi. apply Hl. lia.
Qed.

Lemma find_pattern_first hay needle j :
  0 < len needle → 0 ≤ j → occurs_at hay needle j → j + len needle ≤ len hay →
  (∀ i, 0 ≤ i < j → ¬ occurs_at hay needle i) → find_pattern hay needle = Ok (Some j).
Proof.
  intros Hn Hj Ho Hl Hf. pose proof (find_pattern_spec hay needle Hn) as Hs.
  destruct (find_pattern hay needle) as [[k|]|e|]; [|destruct (Hs j ltac:(lia) Ho)|done..].
  destruct Hs as (Hk & Hok & Hfk). do 2 f_equal.
  destruct (Z.lt_trichotomy k j) as [H|[H|H]]; [|done|].
  - destruct (Hf k ltac:(lia) Hok).
  - destruct (Hfk j ltac:(lia) Ho).
Qed.

(** ** Lemmas on the block walk *)

Lemma index_ok {E} (l : list Z) i : 0 ≤ i < len l → ∃ x, index (E:=E) l i = Ok x ∧ x ∈ l.
Proof.
  intros Hi. unfold index. replace (0 <=? i) with true by lia.
  destruct (lookup_lt_is_Some_2 l (Z.to_nat i)) as [x Hx]; [unfold len in *; lia|].
  exists x. rewrite Hx. split; [done|]. by eapply list_elem_of_lookup_2.
Qed.

Lemma u16_at_ok b i : Forall u8 b → 0 ≤ i → i + 2 ≤ len b → ∃ v, u16_at b i = Ok v ∧ u16 v.
Proof.
  intros Hu Hi Hl. destruct (index_ok (E:=DecodeError) b i ltac:(lia)) as (x & Hx & Ix).
  destruct (index_ok (E:=DecodeError) b (i + 1) ltac:(lia)) as (y & Hy & Iy).
  exists (le_value [x; y]). unfold u16_at. rewrite Hx. cbn [mbind outcome_bind]. rewrite Hy.
  split; [done|]. rewrite Forall_forall in Hu. apply le_value_uint; [done|].
  repeat constructor; by apply Hu.
Qed.

Lemma index_app {E} (pre post : list Z) x i : i = len pre → index (E:=E) (pre ++ x :: post) i = Ok x.
Proof.
  intros ->. unfold index. pose proof (len_nonneg pre). replace (0 <=? len pre) with true by lia.
  rewrite lookup_app_r by (unfold len; lia). replace (_ - _)%nat with 0%nat by (unfold len; lia). done.
Qed.

Lemma u16_at_app pre v post i : u16 v → i = len pre → u16_at (pre ++ le_bytes 2 v ++ post) i = Ok v.
Proof.
  intros Hv ->. pose proof (le_value_bytes_uint 2 16 v eq_refl Hv) as Hval.
  change (le_bytes 2 v) with ([v mod 256] ++ [v / 256 mod 256]) in *. unfold u16_at. cbn [app].
  rewrite (index_app pre _ _ (len pre)) by done. cbn [mbind outcome_bind].
  change (v mod 256 :: ?r) with ([v mod 256] ++ r). rewrite app_assoc.
  rewrite index_app by (rewrite len_app; done). cbn [mbind outcome_bind]. unfold mret, outcome_ret.
  f_equal. exact Hval.
Qed.

(** One iteration, once the block is cut out: what the block contributes. *)
Definition take_block (ty : Z) (block : list Z) (cn : option ServerCoreData * option ServerNetworkData) :
    outcome DecodeError (option ServerCoreData * option ServerNetworkData) :=
  if ty =? 0x0C01 then c ← decode (T:=ServerCoreData) block; mret (Some c, snd cn)
  else if ty =? 0x0C03 then n ← decode (T:=ServerNetworkData) block; mret (fst cn, Some n)
  else mret cn.

Lemma blocks_loop_step fuel blocks off core net ty blen :
  off + 4 ≤ len blocks → u16_at blocks off = Ok ty → u16_at blocks (off + 2) = Ok blen →
  0 ≤ off → 4 ≤ blen → off + blen ≤ len blocks →
  blocks_loop (S fuel) blocks off core net =
  (cn ← take_block ty (ztake blen (zdrop off blocks)) (core, net);
   blocks_loop fuel blocks (off + blen) (fst cn) (snd cn)).
Proof.
  intros H4 Hty Hbl Ho Hb Hl. cbn [blocks_loop]. replace (off + 4 <=? len blocks) with true by lia.
  rewrite Hty, Hbl. cbn [mbind outcome_bind]. replace (blen <? 4) with false by lia.
  replace (len blocks <? off + blen) with false by lia. cbn [orb].
  rewrite slice_ok by lia. cbn [mbind outcome_bind]. replace (off + blen - off) with blen by lia.
  unfold take_block. case_if; [|case_if]; cbn [fst snd].
  - by destruct (decode (T:=ServerCoreData) _).
  - by destruct (decode (T:=ServerNetworkData) _).
  - done.
Qed.

Lemma take_block_safe ty block cn : Forall u8 block → take_block ty block cn ≠ Panic.
Proof.
  intros Hu. unfold take_block. case_if; [|case_if; [|done]].
  - pose proof (decode_total (T:=ServerCoreData) block Hu) as Hd. by destruct (decode block).
  - pose proof (decode_rspec (T:=ServerNetworkData) _ block rspec_sc_net Hu) as Hd. by destruct (decode block).
Qed.

(** More fuel than bytes left is enough: the walk ends, and further fuel does
    not change its result. *)
Lemma blocks_loop_fuel fuel1 fuel2 blocks off core net :
  Forall u8 blocks → 0 ≤ off → len blocks - off < Z.of_nat fuel1 → len blocks - off < Z.of_nat fuel2 →
  (0 < fuel1)%nat → (0 < fuel2)%nat →
  blocks_loop fuel1 blocks off core net ≠ Panic ∧
  blocks_loop fuel1 blocks off core net = blocks_loop fuel2 blocks off core net.
Proof.
  intros Hu. revert fuel2 off core net. induction fuel1 as [|f1 IH]; intros fuel2 off core net Ho H1 H2 P1 P2; [lia|].
  destruct fuel2 as [|f2]; [lia|]. destruct (Z.le_gt_cases (off + 4) (len blocks)) as [H4|H4].
  2: { cbn [blocks_loop]. replace (off + 4 <=? len blocks) with false by lia. done. }
  destruct (u16_at_ok blocks off Hu Ho ltac:(lia)) as (ty & Hty & _).
  destruct (u16_at_ok blocks (off + 2) Hu ltac:(lia) ltac:(lia)) as (bl & Hbl & _).
  destruct (decide (4 ≤ bl ∧ off + bl ≤ len blocks)) as [[Hb Hl]|Hbad].
  - rewrite !(blocks_loop_step _ _ _ _ _ ty bl) by done.
    pose proof (take_block_safe ty (ztake bl (zdrop off blocks)) (core, net) ltac:(auto with width)) as Hs.
    destruct (take_block _ _ _) as [cn|e|]; cbn [mbind outcome_bind]; [|done..].
    apply IH; lia.
  - cbn [blocks_loop]. replace (off + 4 <=? len blocks) with true by lia.
    rewrite Hty, Hbl. cbn [mbind outcome_bind].
    assert ((bl <? 4) || (len blocks <? off + bl) = true) as -> by lia. done.
Qed.

(** *** Well-formed block sequences *)

(** A data block as it travels: type, length of the whole block, body. *)
Definition block_wire (b : Z * list Z) : list Z := ud_header_wire (fst b) (4 + len (snd b)) ++ snd b.
Definition block_ok (b : Z * list Z) : Prop := u16 (fst b) ∧ u16 (4 + len (snd b)).

(** What a sequence of blocks says: each block is decoded in turn, a later one
    of the same kind replaces an earlier one, unknown kinds are skipped. *)
Fixpoint collect (bs : list (Z * list Z)) (cn : option ServerCoreData * option ServerNetworkData) :
    outcome DecodeError (option ServerCoreData * option ServerNetworkData) :=
  match bs with
  | [] => Ok cn
  | b :: bs => cn ← take_block (fst b) (block_wire b) cn; collect bs cn
  end.

Lemma len_block_wire b : len (block_wire b) = 4 + len (snd b).
Proof. unfold block_wire. rewrite len_app, len_ud_header. done. Qed.

Lemma blocks_loop_collect bs tail pre fuel core net :
  Forall block_ok bs → len tail < 4 →
  (length (concat (map block_wire bs) ++ tail) < fuel)%nat →
  blocks_loop fuel (pre ++ concat (map block_wire bs) ++ tail) (len pre) core net =
  collect bs (core, net).
Proof.
  intros Hok Ht. revert pre fuel core net. induction Hok as [|b bs [Hty Hbl] _ IH]; intros pre fuel core net Hf.
  { cbn [map concat app] in *. destruct fuel as [|f]; [lia|]. cbn [blocks_loop collect]. rewrite len_app.
    by replace (len pre + 4 <=? len pre + len tail) with false by lia. }
  destruct fuel as [|f]; [lia|]. cbn [map concat] in *. rewrite <- !app_assoc in *.
  set (rest := concat (map block_wire bs) ++ tail) in *.
  pose proof (len_block_wire b) as Hlen. pose proof (len_nonneg (snd b)). pose proof (len_nonneg rest).
  pose proof (len_nonneg pre).
  rewrite (blocks_loop_step _ _ _ _ _ (fst b) (len (block_wire b))).
  - unfold zdrop at 1. replace (ztake (len (block_wire b)) (drop (Z.to_nat (len pre)) (pre ++ block_wire b ++ rest)))
      with (block_wire b).
    2: { change (drop (Z.to_nat (len pre)) ?l) with (zdrop (len pre) l). rewrite zdrop_app_len by done.
         by rewrite ztake_app_len. }
    cbn [collect]. destruct (take_block (fst b) (block_wire b) (core, net)) as [[c n]|e|]; cbn [mbind outcome_bind]; [|done..].
    specialize (IH (pre ++ block_wire b) f c n). rewrite <- app_assoc, len_app in IH. apply IH.
    rewrite length_app in Hf. unfold len in *. lia.
  - rewrite !len_app. lia.
  - unfold block_wire, ud_header_wire. rewrite <- !app_assoc. by apply u16_at_app.
  - unfold block_wire at 1, ud_header_wire. rewrite <- !app_assoc, Hlen.
    rewrite (app_assoc pre). apply u16_at_app; [done|]. rewrite len_app, len_le_bytes. lia.
  - lia.
  - lia.
  - rewrite !len_app. lia.
Qed.

Lemma parse_blocks_collect bs tail :
  Forall block_ok bs → len tail < 4 →
  parse_blocks (concat (map block_wire bs) ++ tail) = collect bs (None, None).
Proof. intros H H0. exact (blocks_loop_collect bs tail [] _ None None H H0 (Nat.lt_succ_diag_r _)). Qed.

(** *** What the walk returns is well formed *)

Definition blocks_typed (cn : option ServerCoreData * option ServerNetworkData) : Prop :=
  from_option ServerCoreData_wf True (fst cn) ∧ from_option ServerNetworkData_sane True (snd cn).

Lemma take_block_typed ty block cn cn' :
  Forall u8 block → blocks_typed cn → take_block ty block cn = Ok cn' → blocks_typed cn'.
Proof.
  intros Hu [Hc Hn]. unfold take_block. case_if; [|case_if; [|by intros [= <-]]].
  - pose proof (decode_total (T:=ServerCoreData) block Hu) as Hd.
    destruct (decode block) as [c|e|]; [|done..]. intros [= <-]. by split.
  - pose proof (decode_rspec (T:=ServerNetworkData) _ block rspec_sc_net Hu) as Hd.
    destruct (decode block) as [n|e|]; [|done..]. intros [= <-]. by split.
Qed.

Lemma blocks_loop_typed fuel blocks off core net cn :
  Forall u8 blocks → 0 ≤ off → blocks_typed (core, net) →
  blocks_loop fuel blocks off core net = Ok cn → blocks_typed cn.
Proof.
  intros Hu. revert off core net. induction fuel as [|f IH]; intros off core net Ho Ht E; [done|].
  destruct (Z.le_gt_cases (off + 4) (len blocks)) as [H4|H4].
  2: { cbn [blocks_loop] in E. replace (off + 4 <=? len blocks) with false in E by lia. by injection E as <-. }
  destruct (u16_at_ok blocks off Hu Ho ltac:(lia)) as (ty & Hty & _).
  destruct (u16_at_ok blocks (off + 2) Hu ltac:(lia) ltac:(lia)) as (bl & Hbl & _).
  destruct (decide (4 ≤ bl ∧ off + bl ≤ len blocks)) as [[Hb Hl]|Hbad].
  - rewrite (blocks_loop_step _ _ _ _ _ ty bl) in E by done.
    destruct (take_block ty _ _) as [[c n]|e|] eqn:Et; [|done..]. cbn [mbind outcome_bind fst snd] in E.
    eapply IH; [|by eapply take_block_typed in Et; [|auto with width|]|exact E]. lia.
  - cbn [blocks_loop] in E. replace (off + 4 <=? len blocks) with true in E by lia.
    rewrite Hty, Hbl in E. cbn [mbind outcome_bind] in E.
    assert ((bl <? 4) || (len blocks <? off + bl) = true) as Hc by lia. by rewrite Hc in E.
Qed.

(** ** The parser as a whole *)

Lemma rspec_response_header : rspec connect_response_header (λ p, u8 (fst p) ∧ Forall u8 (snd p)).
Proof.
  unfold connect_response_header. solve_rspec_tagged.
  eapply (rspec_bind _ _ (λ _, True)).
  { unfold when. rewrite Z.gtb_ltb. case_if; [|by apply rspec_ret]. bool_to_prop.
    eapply rspec_bind; [apply rspec_slice; lia|]. intros. by apply rspec_ret. }
  intros _ _. eapply rspec_bind; [apply rspec_u8|]. intros ? _. case_if; [apply rspec_fail|].
  eapply rspec_bind; [apply rspec_ber_length|]. intros ? Hl1. unfold is_uint in Hl1.
  eapply rspec_bind; [apply rspec_slice; lia|]. intros ? _.
  eapply rspec_bind; [apply rspec_u8|]. intros ? _. case_if; [apply rspec_fail|].
  eapply rspec_bind; [apply rspec_ber_length|]. intros ? Hl2. unfold is_uint in Hl2.
  eapply rspec_bind; [apply rspec_slice; lia|]. intros ? _.
  eapply rspec_bind; [apply rspec_u8|]. intros ? _. case_if; [apply rspec_fail|].
  eapply rspec_bind; [apply rspec_ber_length|]. intros ? Hl3. unfold is_uint in Hl3.
  eapply rspec_bind; [apply rspec_slice; lia|]. intros ? [_ ?]. by apply rspec_ret.
Qed.

Lemma gcc_blocks_safe gcc :
  Forall u8 gcc → match gcc_blocks gcc with Ok b => Forall u8 b | Err _ => True | Panic => False end.
Proof.
  intros Hu. unfold gcc_blocks. pose proof (find_pattern_spec gcc MCDN eq_refl) as Hf.
  destruct (find_pattern gcc MCDN) as [[j|]|e|]; cbn [mbind outcome_bind]; [|done..].
  destruct Hf as (Hj & _ & _). change (len MCDN) with 4 in Hj.
  rewrite slice_ok by lia. cbn [mbind outcome_bind]. set (a := ztake _ _).
  assert (Forall u8 a) as Ha by (unfold a; auto with width).
  pose proof (rspec_resp_per_length "GCC Conference Create Response" (read_new a)) as Hr.
  pose proof (len_nonneg a). specialize (Hr ltac:(split; cbn; lia) Ha).
  destruct (read_per_length _ (read_new a)) as [[n c]|e|]; [|done..].
  destruct Hr as (_ & Hb & Hp & Hc). unfold cursor_ok in Hc. rewrite Hb in Hc. cbn in *.
  unfold position. rewrite slice_ok by lia. auto with width.
Qed.

Definition ConnectResponse_typed (r : ConnectResponse) : Prop :=
  u8 (cr_result r) ∧ blocks_typed (server_core r, server_network r).

Lemma from_bytes_typed data :
  Forall u8 data →
  match from_bytes data with Ok r => ConnectResponse_typed r | Err _ => True | Panic => False end.
Proof.
  intros Hu. unfold from_bytes. pose proof (len_nonneg data).
  pose proof (rspec_response_header (read_new data) ltac:(split; cbn; lia) Hu) as Hr.
  destruct (connect_response_header (read_new data)) as [[[r gcc] c]|e|]; [|done..].
  destruct Hr as ([Hres Hg] & _). cbn [fst snd] in *.
  pose proof (gcc_blocks_safe gcc Hg) as Hb. destruct (gcc_blocks gcc) as [b|e|]; cbn [mbind outcome_bind]; [|done..].
  pose proof (len_nonneg b). unfold parse_blocks.
  destruct (blocks_loop_fuel (S (length b)) (S (length b)) b 0 None None Hb) as [Hnp _];
    [unfold len; lia..|].
  destruct (blocks_loop (S (length b)) b 0 None None) as [cn|e|] eqn:E; cbn [mbind outcome_bind]; [|done..].
  split; [done|]. apply blocks_loop_typed in E; [by destruct cn|done|lia|by split].
Qed.

(** *** The layout of a response *)

(** The GCC user data: anything that does not hold the key, the key, the length
    of the blocks, the blocks. *)
Definition gcc_response (prefix blocks : list Z) : list Z :=
  prefix ++ MCDN ++ per_length_wire (len blocks) ++ blocks.

Definition response_body (result : Z) (cci dp gcc : list Z) : list Z :=
  [0x0A] ++ ber_length_wire 1 ++ [result] ++ [0x02] ++ ber_length_wire (len cci) ++ cci ++
  [0x30] ++ ber_length_wire (len dp) ++ dp ++ [0x04] ++ ber_length_wire (len gcc) ++ gcc.

Definition response_wire (result : Z) (cci dp gcc : list Z) : list Z :=
  [0x7F] ++ [0x66] ++ ber_length_wire (len (response_body result cci dp gcc)) ++
  response_body result cci dp gcc.

(** The key first occurs where it is put. *)
Definition key_free (prefix rest : list Z) : Prop :=
  ∀ i, 0 ≤ i < len prefix → ¬ occurs_at (prefix ++ MCDN ++ rest) MCDN i.

Lemma reads_response_header result cci dp gcc :
  u32 (len (response_body result cci dp gcc)) →
  reads connect_response_header (response_wire result cci dp gcc) (result, gcc).
Proof.
  intros Hb. assert (u32 (len cci) ∧ u32 (len dp) ∧ u32 (len gcc)) as (Hc & Hd & Hg).
  { unfold response_body in Hb. rewrite !len_app in Hb. pose proof (len_nonneg cci). pose proof (len_nonneg dp).
    pose proof (len_nonneg gcc). pose proof (len_nonneg (ber_length_wire 1)).
    pose proof (len_nonneg (ber_length_wire (len cci))). pose proof (len_nonneg (ber_length_wire (len dp))).
    pose proof (len_nonneg (ber_length_wire (len gcc))). rewrite !len_cons in Hb.
    change (len (@nil Z)) with 0 in Hb. unfold is_uint in *. simpl_pow. lia. }
  unfold connect_response_header, response_wire. do 2 (eapply reads_bind; [apply reads_u8|]). decide_tags. cbn [orb].
  eapply reads_bind; [by apply reads_ber_length|]. unfold response_body.
  eapply reads_bind; [apply reads_u8|]. decide_tags.
  eapply reads_bind; [by apply reads_ber_length|]. eapply reads_bind; [apply reads_u8|].
  change (1 >? 1) with false. unfold when. eapply reads_bind_nil; [apply reads_ret|].
  eapply reads_bind; [apply reads_u8|]. decide_tags.
  eapply reads_bind; [by apply reads_ber_length|]. eapply reads_bind; [by apply reads_slice|].
  eapply reads_bind; [apply reads_u8|]. decide_tags.
  eapply reads_bind; [by apply reads_ber_length|]. eapply reads_bind; [by apply reads_slice|].
  eapply reads_bind; [apply reads_u8|]. decide_tags.
  eapply reads_bind; [by apply reads_ber_length|]. eapply reads_bind_last; [by apply reads_slice|apply reads_ret].
Qed.

Lemma gcc_blocks_layout prefix blocks :
  per_length_ok (len blocks) → key_free prefix (per_length_wire (len blocks) ++ blocks) →
  gcc_blocks (gcc_response prefix blocks) = Ok blocks.
Proof.
  intros Hp Hk. unfold gcc_blocks, gcc_response. set (rest := per_length_wire (len blocks) ++ blocks) in *.
  assert (len MCDN = 4) as H4 by done.
  assert (find_pattern (prefix ++ MCDN ++ rest) MCDN = Ok (Some (len prefix))) as ->.
  { apply find_pattern_first; [done|apply len_nonneg| | |exact Hk].
    - unfold occurs_at. rewrite zdrop_app_len by done. by apply ztake_app_len.
    - rewrite !len_app. pose proof (len_nonneg rest). lia. }
  cbn [mbind outcome_bind]. rewrite app_assoc, <- (app_nil_r rest) at 1.
  rewrite slice_mid by (rewrite ?len_app, ?H4, ?app_nil_r, ?len_app; lia). cbn [mbind outcome_bind].
  pose proof (reads_resp_per_length _ "GCC Conference Create Response" Hp [] blocks) as Hr.
  cbn [app] in Hr. fold rest in Hr. change (len (@nil Z)) with 0 in Hr. unfold read_new. rewrite Hr.
  unfold position. cbn [rpos]. subst rest. rewrite <- (app_nil_r blocks) at 2.
  apply slice_mid; rewrite ?len_app; lia.
Qed.

(** ** Properties *)



Lemma from_bytes_layout result cci dp prefix bs tail rest :
  let blocks := concat (map block_wire bs) ++ tail in
  Forall block_ok bs → len tail < 4 → per_length_ok (len blocks) →
  key_free prefix (per_length_wire (len blocks) ++ blocks) →
  u32 (len (response_body result cci dp (gcc_response prefix blocks))) →
  from_bytes (response_wire result cci dp (gcc_response prefix blocks) ++ rest) =
  (cn ← collect bs (None, None); mret (mkConnectResponse result (fst cn) (snd cn))).
Proof.
  intros blocks Hok Ht Hp Hk Hb. unfold from_bytes, read_new.
  pose proof (reads_response_header result cci dp _ Hb [] rest) as Hr. cbn [app] in Hr.
  change (len (@nil Z)) with 0 in Hr. rewrite Hr, gcc_blocks_layout by done. cbn [mbind outcome_bind].
  unfold blocks. by rewrite parse_blocks_collect.
Qed.

(** the response a server builds (any called-connect-id and domain parameters, a GCC prefix free of the key, any sequence of data blocks) is parsed to its result code and to what the blocks say: each known block decoded in order, a later block of a kind replacing an earlier one, blocks of unknown kinds and up to three trailing bytes ignored. *)
Theorem connect_response_parses result cci dp prefix bs tail rest :
  let blocks := concat (map block_wire bs) ++ tail in
  Forall block_ok bs → len tail < 4 → per_length_ok (len blocks) →
  key_free prefix (per_length_wire (len blocks) ++ blocks) →
  u32 (len (response_body result cci dp (gcc_response prefix blocks))) →
  from_bytes (response_wire result cci dp (gcc_response prefix blocks) ++ rest) =
  (cn ← collect bs (None, None); mret (mkConnectResponse result (fst cn) (snd cn))).
Proof. apply from_bytes_layout. Qed.

(** A server's two blocks, as blocks. *)
Lemma core_block m :
  ServerCoreData_wire m = block_wire (SC_CORE, le_bytes 4 (sc_version m) ++
    opt_u32_wire (client_requested_protocols m) ++ opt_u32_wire (early_capability_flags m)) ∨
  (client_requested_protocols m = None ∧ early_capability_flags m ≠ None).
Proof. destruct m as [v [p|] [f|]]; [by left..|by right|by left]. Qed.

Lemma net_block n : sc_net_wire (ServerNetworkData_size n) n = block_wire (SC_NET, sc_net_body n).
Proof.
  unfold block_wire, sc_net_wire. cbn [fst snd]. do 2 f_equal.
  rewrite <- (len_sc_net_wire 0). unfold sc_net_wire. by rewrite len_app, len_ud_header.
Qed.

(** A response with a core and a network block gives both back. *)
Lemma collect_core_net core net :
  ServerCoreData_wf core → ServerNetworkData_wf net →
  ∃ b1 b2, Forall block_ok [b1; b2] ∧
    block_wire b1 = ServerCoreData_wire core ∧
    block_wire b2 = sc_net_wire (ServerNetworkData_size net) net ∧
    collect [b1; b2] (None, None) = Ok (Some core, Some net).
Proof.
  intros Hc Hn. pose proof (sc_net_wf_count net Hn). destruct (core_block core) as [Hb|[H1 H2]].
  2: { destruct Hc as (_ & _ & _ & Hx). by destruct H2; apply Hx. }
  pose proof (net_block net) as Hb2.
  assert (4 + len (sc_net_body net) = ServerNetworkData_size net) as Hl.
  { rewrite <- (len_sc_net_wire 0). unfold sc_net_wire. by rewrite len_app, len_ud_header. }
  eexists _, _. split_and!; [|symmetry; exact Hb|symmetry; exact Hb2|].
  - constructor; [split; [done|]|constructor; [split; [done|]|constructor]].
    + destruct core as [v [p|] [f|]]; done.
    + cbn [snd]. rewrite Hl. split; [|apply Hn]. rewrite <- (len_sc_net_wire 0). apply len_nonneg.
  - cbn [collect]. rewrite <- Hb, <- Hb2. unfold take_block. cbn [fst snd].
    change (SC_CORE =? 3073) with true. change (SC_NET =? 3073) with false. change (SC_NET =? 3075) with true.
    cbv iota. pose proof (decode_wire (T:=ServerCoreData) core [] Hc) as D1. rewrite app_nil_r in D1.
    cbn [wire ServerCoreData_WireFormat] in D1. rewrite D1. cbn [mbind outcome_bind].
    assert (decode (sc_net_wire (ServerNetworkData_size net) net) = Ok net) as ->; [|done].
    rewrite <- (app_nil_r (sc_net_wire _ _)). apply decode_reads, reads_sc_net.
    + split; [|apply Hn]. rewrite <- (len_sc_net_wire 0). apply len_nonneg.
    + destruct Hn as (? & ? & ?). by split_and!.
Qed.

Lemma connect_response_parses_witness :
  let b1 := (SC_CORE, le_bytes 4 0x00080004 ++ le_bytes 4 1) in
  let b2 := (0x0C02, le_bytes 4 0 ++ le_bytes 4 0) in
  let b3 := (SC_NET, le_bytes 2 1003 ++ le_bytes 2 1 ++ le_bytes 2 1004 ++ le_bytes 2 0) in
  let blocks := concat (map block_wire [b1; b2; b3]) ++ [0] in
  from_bytes (response_wire 0 [0] [] (gcc_response [0x00; 0x05] blocks) ++ [7]) =
  Ok (mkConnectResponse 0 (Some (mkServerCoreData 0x00080004 (Some 1) None))
                          (Some (mkServerNetworkData 1003 [1004]))).
Proof.
  intros b1 b2 b3 blocks.
  transitivity (cn ← collect [b1; b2; b3] (None, None); mret (mkConnectResponse 0 (fst cn) (snd cn))); [|reflexivity].
  apply (connect_response_parses 0 [0] [] [0x00; 0x05] [b1; b2; b3] [0] [7]).
  - repeat (constructor; [split; split; vm_compute; congruence|]). constructor.
  - reflexivity.
  - split; vm_compute; congruence.
  - intros i Hi. change (len [0; 5]) with 2 in Hi.
    assert (i = 0 ∨ i = 1) as [-> | ->] by lia; vm_compute; discriminate.
  - split; vm_compute; congruence.
Defined.

(** *** The request *)

Definition ConnectInitial_wf (m : ConnectInitial) : Prop :=
  ClientCoreData_wf (ci_core m) ∧ ClientSecurityData_wf (ci_security m) ∧ ClientNetworkData_wf (ci_network m).

Definition ci_user_data (m : ConnectInitial) : list Z :=
  ClientCoreData_wire (ci_core m) ++ ClientSecurityData_wire (ci_security m) ++
  cs_net_wire (ClientNetworkData_size (ci_network m)) (ci_network m).

(** Every length in front of what it measures. *)
Definition with_per_length (bs : list Z) : list Z := per_length_wire (len bs) ++ bs.
Definition with_ber_length (bs : list Z) : list Z := ber_length_wire (len bs) ++ bs.

Definition ci_gcc (m : ConnectInitial) : list Z :=
  T124_OID ++ with_per_length (CREATE_REQUEST ++ DUCA ++ with_per_length (ci_user_data m)).
Definition ci_body (m : ConnectInitial) : list Z :=
  [0x04; 0x01; 0x01; 0x04; 0x01; 0x01; 0x01; 0x01; 0xFF] ++ DomainParameters_wire target ++
  DomainParameters_wire minimum ++ DomainParameters_wire maximum ++ [0x04] ++ with_ber_length (ci_gcc m).
Definition ci_wire (m : ConnectInitial) : list Z := [0x7F; 0x65] ++ with_ber_length (ci_body m).

Lemma len_ci_user_data m :
  ConnectInitial_wf m → len (ci_user_data m) = 216 + 12 + ClientNetworkData_size (ci_network m).
Proof.
  intros (Hc & Hs & Hn). unfold ci_user_data. rewrite !len_app, len_cs_net_wire by apply Hn.
  pose proof (wire_size (T:=ClientCoreData) (ci_core m) Hc) as H1.
  pose proof (wire_size (T:=ClientSecurityData) (ci_security m) Hs) as H2.
  cbn [wire ClientCoreData_WireFormat ClientSecurityData_WireFormat] in H1, H2. rewrite <- H1, <- H2.
  cbn. unfold ClientCoreData_size, ClientSecurityData_size, CS_CORE_LEN. lia.
Qed.

Lemma domain_params_wf : DomainParameters_wf target ∧ DomainParameters_wf minimum ∧ DomainParameters_wf maximum.
Proof. split_and!; (repeat (constructor; [split; vm_compute; congruence|])); constructor. Qed.

Lemma per_append_length_wraps n :
  0x80 ≤ n → reads (read_per_length "length") (per_append_length [] n) (n mod 0x8000).
Proof.
  intros Hn. unfold per_append_length. replace (n <? 128) with false by lia. cbn [app].
  rewrite Z.shiftr_div_pow2 by lia. change 0xFF with (Z.ones 8). rewrite Z.land_ones by lia.
  unfold as_uint. change (2 ^ 8) with 256. rewrite (Z.mod_mod n 256) by lia.
  set (h := n / 256 mod 256). assert (0 ≤ h < 256) as Hh by (apply Z.mod_pos_bound; lia).
  assert (Z.land (Z.lor 128 h) 128 ≠ 0) as Hbit.
  { intros E. apply (f_equal (λ z, Z.testbit z 7)) in E. by rewrite Z.land_spec, Z.lor_spec in E. }
  assert (Z.land (Z.lor 128 h) 127 = h mod 128) as Hlow.
  { rewrite Z.land_lor_distr_l. change (Z.land 128 127) with 0. by rewrite Z.lor_0_l, land_127. }
  change [?a; ?b] with ([a] ++ [b]). eapply reads_bind; [apply reads_u8|].
  replace (Z.land (Z.lor 128 h) 128 =? 0) with false by lia. rewrite Hlow.
  eapply reads_bind_last; [apply reads_u8|]. pose proof (Z.mod_pos_bound n 256 ltac:(lia)).
  rewrite lor_shiftl_add by lia. replace (n mod 32768) with (h mod 128 * 2 ^ 8 + n mod 256); [apply reads_ret|].
  change 32768 with (256 * 128). rewrite Z.rem_mul_r by lia. unfold h.
  assert ((n / 256) mod 256 mod 128 = (n / 256) mod 128) as ->; [|change (2 ^ 8) with 256; lia].
  change 256 with (128 * 2) at 2. rewrite Z.rem_mul_r by lia.
  rewrite Z.mul_comm, Z.mod_add, Z.mod_mod by lia. done.
Qed.

Lemma to_bytes_layout m :
  ConnectInitial_wf m → len (ci_user_data m) + 14 ≤ 0x7FFF → to_bytes m = Ok (ci_wire m).
Proof.
  intros Hm Hl.
  pose proof (len_ci_user_data m Hm) as Hud. destruct Hm as (Hc & Hs & Hn).
  pose proof (len_nonneg (channels (ci_network m))). unfold ClientNetworkData_size in Hud.
  unfold to_bytes.
  rewrite (encode_vec_wire (T:=ClientCoreData) (ci_core m)) by exact Hc.
  rewrite (encode_vec_wire (T:=ClientSecurityData) (ci_security m)) by exact Hs.
  cbn [mbind outcome_bind wire ClientCoreData_WireFormat ClientSecurityData_WireFormat].
  rewrite (encode_vec_writes _ _ (writes_cs_net _ Hn)) by (by rewrite len_cs_net_wire by apply Hn).
  cbn [mbind outcome_bind]. fold (ci_user_data m).
  rewrite !per_append_length_wire by (split; lia).
  assert (T124_OID ++ per_length_wire (len (ci_user_data m) + 14) = T124_OID ++
    per_length_wire (len (CREATE_REQUEST ++ DUCA ++ with_per_length (ci_user_data m)))) as ->.
  { do 2 f_equal. unfold with_per_length. rewrite !len_app, len_per_length_wire. unfold per_length_size.
    replace (len (ci_user_data m) <? 128) with false by lia.
    change (len CREATE_REQUEST) with 8. change (len DUCA) with 4. lia. }
  rewrite <- !app_assoc. fold (with_per_length (ci_user_data m)).
  fold (with_per_length (CREATE_REQUEST ++ DUCA ++ with_per_length (ci_user_data m))). fold (ci_gcc m).
  destruct domain_params_wf as (Ht & Hmin & Hmax).
  rewrite (encode_vec_wire (T:=DomainParameters) target) by exact Ht.
  rewrite (encode_vec_wire (T:=DomainParameters) minimum) by exact Hmin.
  rewrite (encode_vec_wire (T:=DomainParameters) maximum) by exact Hmax.
  cbn [mbind outcome_bind wire DomainParameters_WireFormat].
  assert (len (ci_gcc m) = len (ci_user_data m) + 23) as Hg.
  { unfold ci_gcc, with_per_length. rewrite !len_app, !len_per_length_wire.
    unfold per_length_size. change (len CREATE_REQUEST) with 8. change (len DUCA) with 4. change (len T124_OID) with 7.
    replace (len (ci_user_data m) <? 128) with false by lia.
    replace (8 + (4 + (2 + len (ci_user_data m))) <? 128) with false by lia. lia. }
  rewrite !(ber_append_length_wire _ (len (ci_gcc m))) by (unfold is_uint; simpl_pow; lia). rewrite <- !app_assoc.
  change ([4; 1; 1] ++ [4; 1; 1] ++ [1; 1; 255] ++ ?x) with ([4; 1; 1; 4; 1; 1; 1; 1; 255] ++ x).
  fold (with_ber_length (ci_gcc m)). fold (ci_body m).
  rewrite ber_append_length_wire; [done|]. unfold ci_body, with_ber_length.
  rewrite !len_app, Hg, len_ber_length_wire by (unfold is_uint; simpl_pow; lia).
  unfold length_size. replace (len (ci_user_data m) + 23 <? 128) with false by lia.
  rewrite skip_zeros_8_4 by (unfold is_uint; simpl_pow; lia).
  pose proof (skip_zeros_4_len (len (ci_user_data m) + 23) ltac:(unfold is_uint; simpl_pow; lia) ltac:(lia)).
  change (len (DomainParameters_wire target)) with 28. change (len (DomainParameters_wire minimum)) with 27.
  change (len (DomainParameters_wire maximum)) with 34. rewrite !len_cons. change (len (@nil Z)) with 0.
  unfold is_uint. simpl_pow. lia.
Qed.

(** Connect-Initial is encoded as the nested structure of MCS, GCC and the three client blocks with every length in front of exactly the bytes it measures, as long as the user data and its 14 bytes of framing fit a two-byte PER length (2709 channels); a longer length is not refused but written modulo 2^15, so that it reads back shorter. *)
Theorem connect_initial_layout :
  (∀ m, ConnectInitial_wf m → len (ci_user_data m) + 14 ≤ 0x7FFF → to_bytes m = Ok (ci_wire m)) ∧
  (∀ n, 0x8000 ≤ n → reads (read_per_length "length") (per_append_length [] n) (n mod 0x8000)).
Proof.
  split; [intros; by apply to_bytes_layout|]. intros. apply per_append_length_wraps. lia.
Qed.

(** The parameters the connector's tests use. *)
Definition sample_ci : ConnectInitial :=
  mkConnectInitial
    (mkClientCoreData 0x00080004 1024 768 0xCA01 0xAA03 0x0409 2600
       (bytes_of_string "oxrdp" ++ replicate 27 0) 4 0 12 (replicate 64 0))
    (mkClientSecurityData 0 0)
    (mkClientNetworkData [mkChannelDef (bytes_of_string "rdpdr" ++ [0; 0; 0]) 0x80800000]).

Lemma sample_ci_wf : ConnectInitial_wf sample_ci.
Proof.
  assert (∀ x, 0 ≤ x → x < 2 ^ 16 → u16 x) as H16 by (by split).
  assert (∀ x, 0 ≤ x → x < 2 ^ 32 → u32 x) as H32 by (by split).
  unfold ConnectInitial_wf, ClientCoreData_wf, ClientSecurityData_wf, ClientNetworkData_wf, bytes_of, sample_ci.
  cbn [ci_core ci_security ci_network core_version desktop_width desktop_height color_depth sas_sequence
       keyboard_layout client_build client_name keyboard_type keyboard_subtype keyboard_function_key
       ime_file_name encryption_methods ext_encryption_methods channels].
  split; [|split; [|split; [|done]]].
  - split_and!; first [by apply H16|by apply H32|done|idtac].
    + change (bytes_of_string "oxrdp") with [111; 120; 114; 100; 112]. rewrite Forall_app. split.
      * repeat (constructor; [split; lia|]). constructor.
      * apply Forall_replicate. split; lia.
    + apply Forall_replicate. split; lia.
  - split; apply H32; lia.
  - constructor; [|constructor]. split; [split; [done|]|apply H32; cbn [channel_options]; lia].
    change (bytes_of_string "rdpdr" ++ [0; 0; 0]) with [114; 100; 112; 100; 114; 0; 0; 0].
    repeat (constructor; [split; lia|]). constructor.
Qed.

Lemma connect_initial_layout_witness :
  ∃ bytes, to_bytes sample_ci = Ok bytes ∧ len bytes = 378 ∧ bytes = ci_wire sample_ci.
Proof.
  exists (ci_wire sample_ci). split; [|split; reflexivity].
  refine (proj1 connect_initial_layout sample_ci sample_ci_wf _). vm_compute. congruence.
Defined.
