(* ===== verification/RdpShare.v ===== *)
(** * Security, share, capability, licensing and client-info PDUs

    [crates/oxrdp-pdu/src/security.rs], [share.rs], [finalize.rs], [caps.rs],
    [active.rs], [license.rs] and [client_info.rs]: what travels in send-data
    PDUs once the channels are joined.  A Rust [String] is its UTF-8 bytes. *)

From S2P Require Import Prelude Cursor Wire Ber RdpGcc.

(** ** [SecurityHeader] *)

Definition SECURITY_HEADER_LEN : Z := 4.
Definition EXCHANGE_PKT : Z := 0x0001.
Definition ENCRYPT : Z := 0x0008.
Definition INFO_PKT : Z := 0x0040.
Definition LICENSE_PKT : Z := 0x0080.

Record SecurityHeader : Type := mkSecurityHeader { sec_flags : Z; sec_flags_hi : Z }.

Definition SecurityHeader_new (flags : Z) : SecurityHeader := mkSecurityHeader flags 0.

Definition SecurityHeader_decode : reader SecurityHeader :=
  flags ← read_u16_le "security header flags";
  flags_hi ← read_u16_le "security header flagsHi";
  mret (mkSecurityHeader flags flags_hi).
Definition SecurityHeader_size (_ : SecurityHeader) : Z := SECURITY_HEADER_LEN.
Definition SecurityHeader_encode (m : SecurityHeader) : writer unit :=
  write_u16_le (sec_flags m) "security header flags";;
  write_u16_le (sec_flags_hi m) "security header flagsHi";;
  mret tt.

#[export] Instance SecurityHeader_Encode : Encode SecurityHeader :=
  {| enc_size := SecurityHeader_size; encode := SecurityHeader_encode |}.
#[export] Instance SecurityHeader_Decode : Decode SecurityHeader := SecurityHeader_decode.

Definition SecurityHeader_wf (m : SecurityHeader) : Prop := u16 (sec_flags m) ∧ u16 (sec_flags_hi m).
Definition SecurityHeader_wire (m : SecurityHeader) : list Z :=
  le_bytes 2 (sec_flags m) ++ le_bytes 2 (sec_flags_hi m).

Arguments SecurityHeader_wire : simpl never.
#[export] Hint Unfold SecurityHeader_size SecurityHeader_encode SecurityHeader_decode
  SecurityHeader_Encode SecurityHeader_Decode SecurityHeader_wf SecurityHeader_wire
  sec_flags sec_flags_hi SECURITY_HEADER_LEN : codec.

#[export, refine] Instance SecurityHeader_WireFormat : WireFormat SecurityHeader :=
  {| wf := SecurityHeader_wf; wire := SecurityHeader_wire |}.
Proof. all: codec_law. Defined.

(** ** [ShareControlHeader] *)

Definition TS_PROTOCOL_VERSION : Z := 0x0010.
Definition PDU_DEMAND_ACTIVE : Z := 1.
Definition PDU_CONFIRM_ACTIVE : Z := 3.
Definition PDU_DEACTIVATE_ALL : Z := 6.
Definition PDU_DATA : Z := 7.

Record ShareControlHeader : Type := mkShareControlHeader {
  total_length : Z;
  sc_pdu_type : Z;
  sc_pdu_source : Z
}.

Definition ShareControlHeader_new (pdu_type pdu_source total : Z) : ShareControlHeader :=
  mkShareControlHeader total (Z.lor pdu_type TS_PROTOCOL_VERSION) pdu_source.

Definition kind (m : ShareControlHeader) : Z := Z.land (sc_pdu_type m) 0x000F.

Definition ShareControlHeader_size (_ : ShareControlHeader) : Z := 6.
Definition ShareControlHeader_encode (m : ShareControlHeader) : writer unit :=
  write_u16_le (total_length m) "share control total_length";;
  write_u16_le (sc_pdu_type m) "share control pdu_type";;
  write_u16_le (sc_pdu_source m) "share control pdu_source";;
  mret tt.
Definition ShareControlHeader_decode : reader ShareControlHeader :=
  total_length ← read_u16_le "share control total_length";
  pdu_type ← read_u16_le "share control pdu_type";
  pdu_source ← read_u16_le "share control pdu_source";
  mret (mkShareControlHeader total_length pdu_type pdu_source).

#[export] Instance ShareControlHeader_Encode : Encode ShareControlHeader :=
  {| enc_size := ShareControlHeader_size; encode := ShareControlHeader_encode |}.
#[export] Instance ShareControlHeader_Decode : Decode ShareControlHeader := ShareControlHeader_decode.

Definition ShareControlHeader_wf (m : ShareControlHeader) : Prop :=
  u16 (total_length m) ∧ u16 (sc_pdu_type m) ∧ u16 (sc_pdu_source m).
Definition ShareControlHeader_wire (m : ShareControlHeader) : list Z :=
  le_bytes 2 (total_length m) ++ le_bytes 2 (sc_pdu_type m) ++ le_bytes 2 (sc_pdu_source m).

Arguments ShareControlHeader_wire : simpl never.
#[export] Hint Unfold ShareControlHeader_size ShareControlHeader_encode ShareControlHeader_decode
  ShareControlHeader_Encode ShareControlHeader_Decode ShareControlHeader_wf ShareControlHeader_wire
  total_length sc_pdu_type sc_pdu_source : codec.

#[export, refine] Instance ShareControlHeader_WireFormat : WireFormat ShareControlHeader :=
  {| wf := ShareControlHeader_wf; wire := ShareControlHeader_wire |}.
Proof. all: codec_law. Defined.

(** ** [ShareDataHeader] *)

Definition PDU2_UPDATE : Z := 2.
Definition PDU2_CONTROL : Z := 20.
Definition PDU2_SYNCHRONIZE : Z := 31.
Definition PDU2_FONT_LIST : Z := 39.
Definition PDU2_FONT_MAP : Z := 40.

Record ShareDataHeader : Type := mkShareDataHeader {
  sd_control : ShareControlHeader;
  sd_share_id : Z;
  stream_id : Z;
  uncompressed_length : Z;
  pdu_type2 : Z;
  compressed_type : Z;
  compressed_length : Z
}.

Definition ShareDataHeader_size (_ : ShareDataHeader) : Z := 18.
Definition ShareDataHeader_encode (m : ShareDataHeader) : writer unit :=
  ShareControlHeader_encode (sd_control m);;
  write_u32_le (sd_share_id m) "share data share_id";;
  write_u8 0 "share data pad1";;
  write_u8 (stream_id m) "share data stream_id";;
  write_u16_le (uncompressed_length m) "share data uncompressed_length";;
  write_u8 (pdu_type2 m) "share data pdu_type2";;
  write_u8 (compressed_type m) "share data compressed_type";;
  write_u16_le (compressed_length m) "share data compressed_length";;
  mret tt.
Definition ShareDataHeader_decode : reader ShareDataHeader :=
  control ← ShareControlHeader_decode;
  share_id ← read_u32_le "share data share_id";
  _ ← read_u8 "share data pad1";
  stream_id ← read_u8 "share data stream_id";
  uncompressed_length ← read_u16_le "share data uncompressed_length";
  pdu_type2 ← read_u8 "share data pdu_type2";
  compressed_type ← read_u8 "share data compressed_type";
  compressed_length ← read_u16_le "share data compressed_length";
  mret (mkShareDataHeader control share_id stream_id uncompressed_length pdu_type2
          compressed_type compressed_length).

#[export] Instance ShareDataHeader_Encode : Encode ShareDataHeader :=
  {| enc_size := ShareDataHeader_size; encode := ShareDataHeader_encode |}.
#[export] Instance ShareDataHeader_Decode : Decode ShareDataHeader := ShareDataHeader_decode.

Definition ShareDataHeader_wf (m : ShareDataHeader) : Prop :=
  ShareControlHeader_wf (sd_control m) ∧ u32 (sd_share_id m) ∧ u8 (stream_id m) ∧
  u16 (uncompressed_length m) ∧ u8 (pdu_type2 m) ∧ u8 (compressed_type m) ∧ u16 (compressed_length m).
Definition ShareDataHeader_wire (m : ShareDataHeader) : list Z :=
  ShareControlHeader_wire (sd_control m) ++ le_bytes 4 (sd_share_id m) ++ [0] ++ [stream_id m] ++
  le_bytes 2 (uncompressed_length m) ++ [pdu_type2 m] ++ [compressed_type m] ++
  le_bytes 2 (compressed_length m).

Arguments ShareDataHeader_wire : simpl never.

Lemma reads_control m : ShareControlHeader_wf m → reads ShareControlHeader_decode (ShareControlHeader_wire m) m.
Proof. exact (wire_decode (T:=ShareControlHeader) m). Qed.
Lemma writes_control m : ShareControlHeader_wf m → writes (ShareControlHeader_encode m) (ShareControlHeader_wire m).
Proof. exact (wire_encode (T:=ShareControlHeader) m). Qed.
Lemma rspec_control : rspec ShareControlHeader_decode ShareControlHeader_wf.
Proof. exact (wire_total (T:=ShareControlHeader)). Qed.

#[export, refine] Instance ShareDataHeader_WireFormat : WireFormat ShareDataHeader :=
  {| wf := ShareDataHeader_wf; wire := ShareDataHeader_wire |}.
Proof.
  - intros m _. unfold ShareDataHeader_wire. autorewrite with len. done.
  - intros m (Hc & _). unfold encode, ShareDataHeader_Encode, ShareDataHeader_encode, ShareDataHeader_wire.
    apply writes_bind; [by apply writes_control|]. solve_writes.
  - intros [] Hm. unfold ShareDataHeader_wf in Hm. cbn in Hm. destruct_and?.
    unfold decode_from, ShareDataHeader_Decode, ShareDataHeader_decode, ShareDataHeader_wire.
    cbn [sd_control sd_share_id stream_id uncompressed_length pdu_type2 compressed_type compressed_length].
    eapply reads_bind; [by apply reads_control|]. solve_reads.
  - intros m (Hc & Hm). pose proof (wire_bytes (T:=ShareControlHeader) (sd_control m) Hc). destruct_and?.
    unfold ShareDataHeader_wire. rewrite !Forall_app. split_and!; eauto with width.
  - unfold decode_from, ShareDataHeader_Decode, ShareDataHeader_decode.
    eapply rspec_bind; [apply rspec_control|]. intros ? ?. solve_rspec. unfold ShareDataHeader_wf. by split_and!.
Defined.

(** ** Finalization PDUs *)

Definition REQUEST_CONTROL : Z := 0x0001.
Definition GRANTED_CONTROL : Z := 0x0002.
Definition DETACH : Z := 0x0003.
Definition COOPERATE : Z := 0x0004.
Definition SYNCMSGTYPE_SYNC : Z := 0x0001.

Record SynchronizePdu : Type := mkSynchronizePdu { target_user : Z }.

Definition SynchronizePdu_size (_ : SynchronizePdu) : Z := 4.
Definition SynchronizePdu_encode (m : SynchronizePdu) : writer unit :=
  write_u16_le SYNCMSGTYPE_SYNC "finalize";; write_u16_le (target_user m) "finalize";; mret tt.
Definition SynchronizePdu_decode : reader SynchronizePdu :=
  _ ← read_u16_le "finalize"; target_user ← read_u16_le "finalize"; mret (mkSynchronizePdu target_user).

#[export] Instance SynchronizePdu_Encode : Encode SynchronizePdu :=
  {| enc_size := SynchronizePdu_size; encode := SynchronizePdu_encode |}.
#[export] Instance SynchronizePdu_Decode : Decode SynchronizePdu := SynchronizePdu_decode.

Definition SynchronizePdu_wf (m : SynchronizePdu) : Prop := u16 (target_user m).
Definition SynchronizePdu_wire (m : SynchronizePdu) : list Z :=
  le_bytes 2 SYNCMSGTYPE_SYNC ++ le_bytes 2 (target_user m).

Arguments SynchronizePdu_wire : simpl never.
#[export] Hint Unfold SYNCMSGTYPE_SYNC SynchronizePdu_size SynchronizePdu_encode SynchronizePdu_decode
  SynchronizePdu_Encode SynchronizePdu_Decode SynchronizePdu_wf SynchronizePdu_wire target_user : codec.

#[export] Hint Extern 3 (is_uint _ _) => (split; [lia|simpl_pow; lia]) : reads.

#[export, refine] Instance SynchronizePdu_WireFormat : WireFormat SynchronizePdu :=
  {| wf := SynchronizePdu_wf; wire := SynchronizePdu_wire |}.
Proof. all: codec_law. Defined.

Record ControlPdu : Type := mkControlPdu { action : Z; grant_id : Z; control_id : Z }.

Definition ControlPdu_size (_ : ControlPdu) : Z := 8.
Definition ControlPdu_encode (m : ControlPdu) : writer unit :=
  write_u16_le (action m) "finalize";; write_u16_le (grant_id m) "finalize";;
  write_u32_le (control_id m) "finalize";; mret tt.
Definition ControlPdu_decode : reader ControlPdu :=
  action ← read_u16_le "finalize"; grant_id ← read_u16_le "finalize";
  control_id ← read_u32_le "finalize"; mret (mkControlPdu action grant_id control_id).

#[export] Instance ControlPdu_Encode : Encode ControlPdu :=
  {| enc_size := ControlPdu_size; encode := ControlPdu_encode |}.
#[export] Instance ControlPdu_Decode : Decode ControlPdu := ControlPdu_decode.

Definition ControlPdu_wf (m : ControlPdu) : Prop := u16 (action m) ∧ u16 (grant_id m) ∧ u32 (control_id m).
Definition ControlPdu_wire (m : ControlPdu) : list Z :=
  le_bytes 2 (action m) ++ le_bytes 2 (grant_id m) ++ le_bytes 4 (control_id m).

Arguments ControlPdu_wire : simpl never.
#[export] Hint Unfold ControlPdu_size ControlPdu_encode ControlPdu_decode ControlPdu_Encode ControlPdu_Decode
  ControlPdu_wf ControlPdu_wire action grant_id control_id : codec.

#[export, refine] Instance ControlPdu_WireFormat : WireFormat ControlPdu :=
  {| wf := ControlPdu_wf; wire := ControlPdu_wire |}.
Proof. all: codec_law. Defined.

Inductive FontListPdu : Type := mkFontListPdu.

Definition FontListPdu_size (_ : FontListPdu) : Z := 8.
Definition FontListPdu_encode (_ : FontListPdu) : writer unit :=
  write_u16_le 0 "finalize";; write_u16_le 0 "finalize";;
  write_u16_le 0x0003 "finalize";; write_u16_le 0x0032 "finalize";; mret tt.
Definition FontListPdu_decode : reader FontListPdu :=
  _ ← read_u16_le "finalize"; _ ← read_u16_le "finalize";
  _ ← read_u16_le "finalize"; _ ← read_u16_le "finalize"; mret mkFontListPdu.

#[export] Instance FontListPdu_Encode : Encode FontListPdu :=
  {| enc_size := FontListPdu_size; encode := FontListPdu_encode |}.
#[export] Instance FontListPdu_Decode : Decode FontListPdu := FontListPdu_decode.

Definition FontListPdu_wf (_ : FontListPdu) : Prop := True.
Definition FontListPdu_wire (_ : FontListPdu) : list Z :=
  le_bytes 2 0 ++ le_bytes 2 0 ++ le_bytes 2 0x0003 ++ le_bytes 2 0x0032.

Arguments FontListPdu_wire : simpl never.
#[export] Hint Unfold FontListPdu_size FontListPdu_encode FontListPdu_decode FontListPdu_Encode
  FontListPdu_Decode FontListPdu_wf FontListPdu_wire : codec.

#[export, refine] Instance FontListPdu_WireFormat : WireFormat FontListPdu :=
  {| wf := FontListPdu_wf; wire := FontListPdu_wire |}.
Proof. all: tagged_law. Defined.

(** ** Capability sets ([caps.rs]): encoders only *)

Definition CAP_GENERAL : Z := 0x0001.
Definition CAP_BITMAP : Z := 0x0002.
Definition CAP_ORDER : Z := 0x0003.
Definition CAP_POINTER : Z := 0x0008.
Definition CAP_INPUT : Z := 0x000D.
Definition CAP_VIRTUAL_CHANNEL : Z := 0x0014.

Record GeneralCapabilitySet : Type := mkGeneralCapabilitySet {
  os_major : Z; os_minor : Z; gen_protocol_version : Z; extra_flags : Z
}.

Definition GeneralCapabilitySet_default : GeneralCapabilitySet := mkGeneralCapabilitySet 1 3 0x0200 0x040D.

Definition GeneralCapabilitySet_size (_ : GeneralCapabilitySet) : Z := 24.
Definition GeneralCapabilitySet_encode (m : GeneralCapabilitySet) : writer unit :=
  write_u16_le CAP_GENERAL "general capability set type";;
  write_u16_le 24 "general capability set length";;
  write_u16_le (os_major m) "os major";;
  write_u16_le (os_minor m) "os minor";;
  write_u16_le (gen_protocol_version m) "protocol version";;
  write_u16_le 0 "pad2octetsA";;
  write_u16_le 0 "generalCompressionTypes";;
  write_u16_le (extra_flags m) "extra flags";;
  write_u16_le 0 "updateCapabilityFlag";;
  write_u16_le 0 "remoteUnshareFlag";;
  write_u16_le 0 "generalCompressionLevel";;
  write_u8 0 "refreshRectSupport";;
  write_u8 0 "suppressOutputSupport";;
  mret tt.

Record BitmapCapabilitySet : Type := mkBitmapCapabilitySet {
  preferred_bits_per_pixel : Z; cap_desktop_width : Z; cap_desktop_height : Z
}.

Definition BitmapCapabilitySet_size (_ : BitmapCapabilitySet) : Z := 28.
Definition BitmapCapabilitySet_encode (m : BitmapCapabilitySet) : writer unit :=
  write_u16_le CAP_BITMAP "bitmap capability set type";;
  write_u16_le 28 "bitmap capability set length";;
  write_u16_le (preferred_bits_per_pixel m) "preferred bits per pixel";;
  write_u16_le 1 "receive1BitPerPixel";;
  write_u16_le 1 "receive4BitsPerPixel";;
  write_u16_le 1 "receive8BitsPerPixel";;
  write_u16_le (cap_desktop_width m) "desktop width";;
  write_u16_le (cap_desktop_height m) "desktop height";;
  write_u16_le 0 "pad";;
  write_u16_le 1 "desktopResizeFlag";;
  write_u16_le 1 "bitmapCompressionFlag";;
  write_u8 0 "highColorFlags";;
  write_u8 0 "drawingFlags";;
  write_u16_le 1 "multipleRectangleSupport";;
  write_u16_le 0 "pad2octetsB";;
  mret tt.

Record InputCapabilitySet : Type := mkInputCapabilitySet {
  input_flags : Z; cap_keyboard_layout : Z; cap_keyboard_type : Z;
  cap_keyboard_subtype : Z; cap_keyboard_function_key : Z
}.

Definition InputCapabilitySet_default : InputCapabilitySet :=
  mkInputCapabilitySet (Z.lor (Z.lor (Z.lor 0x0001 0x0004) 0x0020) 0x0080) 0x0409 4 0 12.

Definition InputCapabilitySet_size (_ : InputCapabilitySet) : Z := 88.
Definition InputCapabilitySet_encode (m : InputCapabilitySet) : writer unit :=
  write_u16_le CAP_INPUT "input capability set type";;
  write_u16_le 88 "input capability set length";;
  write_u16_le (input_flags m) "input flags";;
  write_u16_le 0 "pad2octetsA";;
  write_u32_le (cap_keyboard_layout m) "keyboard layout";;
  write_u32_le (cap_keyboard_type m) "keyboard type";;
  write_u32_le (cap_keyboard_subtype m) "keyboard subtype";;
  write_u32_le (cap_keyboard_function_key m) "keyboard function key";;
  write_slice (replicate 64 0) "input imeFileName";;
  mret tt.

#[export] Instance GeneralCapabilitySet_Encode : Encode GeneralCapabilitySet :=
  {| enc_size := GeneralCapabilitySet_size; encode := GeneralCapabilitySet_encode |}.
#[export] Instance BitmapCapabilitySet_Encode : Encode BitmapCapabilitySet :=
  {| enc_size := BitmapCapabilitySet_size; encode := BitmapCapabilitySet_encode |}.
#[export] Instance InputCapabilitySet_Encode : Encode InputCapabilitySet :=
  {| enc_size := InputCapabilitySet_size; encode := InputCapabilitySet_encode |}.

Definition default_client_capabilities (width height bpp : Z) : outcome EncodeError (Z * list Z) :=
  g ← encode_vec GeneralCapabilitySet_default;
  b ← encode_vec (mkBitmapCapabilitySet bpp width height);
  i ← encode_vec InputCapabilitySet_default;
  mret (3, g ++ b ++ i).

(** ** Demand Active and Confirm Active ([active.rs]) *)

Record DemandActive : Type := mkDemandActive { da_pdu_source : Z; da_share_id : Z }.

Definition DemandActive_read : reader DemandActive :=
  ctrl ← ShareControlHeader_decode;
  if negb (kind ctrl =? PDU_DEMAND_ACTIVE)
  then fail (InvalidField "Demand Active" "pdu type" "not a Demand Active PDU")
  else
    share_id ← read_u32_le "Demand Active";
    length_source_descriptor ← read_u16_le "Demand Active";
    _ ← read_u16_le "Demand Active";
    _ ← read_slice length_source_descriptor "Demand Active";
    mret (mkDemandActive (sc_pdu_source ctrl) share_id).

Definition DemandActive_from_bytes (data : list Z) : outcome DecodeError DemandActive :=
  match DemandActive_read (read_new data) with
  | Ok (d, _) => Ok d
  | Err e => Err e
  | Panic => Panic
  end.

Definition SOURCE_DESCRIPTOR : list Z := [0x6F; 0x78; 0x72; 0x64; 0x70; 0x00].

Definition build_confirm_active (share_id pdu_source width height bpp : Z) : outcome EncodeError (list Z) :=
  nc ← default_client_capabilities width height bpp;
  let num_caps := fst nc in
  let caps := snd nc in
  let length_combined_capabilities := 2 + 2 + len caps in
  let body := le_bytes 4 share_id ++ le_bytes 2 0x03EA ++
              le_bytes 2 (as_uint 16 (len SOURCE_DESCRIPTOR)) ++
              le_bytes 2 (as_uint 16 length_combined_capabilities) ++
              SOURCE_DESCRIPTOR ++ le_bytes 2 num_caps ++ le_bytes 2 0 ++ caps in
  let total_length := as_uint 16 (6 + len body) in
  out ← encode_vec (ShareControlHeader_new PDU_CONFIRM_ACTIVE pdu_source total_length);
  mret (out ++ body).

(** ** [LicensePdu] *)

Definition ERROR_ALERT : Z := 0xFF.
Definition STATUS_VALID_CLIENT : Z := 0x00000007.

Record LicensePdu : Type := mkLicensePdu { lic_msg_type : Z; lic_flags : Z; lic_error_code : option Z }.

Definition is_proceed (m : LicensePdu) : bool :=
  (lic_msg_type m =? ERROR_ALERT) && bool_decide (lic_error_code m = Some STATUS_VALID_CLIENT).

Definition LicensePdu_decode : reader LicensePdu :=
  msg_type ← read_u8 "license bMsgType";
  flags ← read_u8 "license flags";
  _ ← read_u16_le "license wMsgSize";
  error_code ← (if msg_type =? ERROR_ALERT
                then e ← read_u32_le "license dwErrorCode"; mret (Some e)
                else mret None);
  mret (mkLicensePdu msg_type flags error_code).

#[export] Instance LicensePdu_Decode : Decode LicensePdu := LicensePdu_decode.

(** ** [ClientInfo] *)

(** The characters of a UTF-8 string, as code points. *)
Fixpoint utf8_chars (bs : list Z) : list Z :=
  match bs with
  | [] => []
  | b :: r =>
    if b <? 0x80 then b :: utf8_chars r
    else if b <? 0xE0 then
      match r with
      | c1 :: r1 => (b - 0xC0) * 64 + (c1 - 0x80) :: utf8_chars r1
      | _ => []
      end
    else if b <? 0xF0 then
      match r with
      | c1 :: c2 :: r2 => (b - 0xE0) * 4096 + (c1 - 0x80) * 64 + (c2 - 0x80) :: utf8_chars r2
      | _ => []
      end
    else
      match r with
      | c1 :: c2 :: c3 :: r3 =>
        (b - 0xF0) * 262144 + (c1 - 0x80) * 4096 + (c2 - 0x80) * 64 + (c3 - 0x80) :: utf8_chars r3
      | _ => []
      end
  end.

(** [char::encode_utf16] *)
Definition char_utf16 (c : Z) : list Z :=
  if c <? 0x10000 then [c]
  else [0xD800 + (c - 0x10000) / 0x400; 0xDC00 + (c - 0x10000) mod 0x400].

Definition utf16_units (s : list Z) : list Z := concat (map char_utf16 (utf8_chars s)).

Definition utf16le (s : list Z) : list Z := concat (map (le_bytes 2) (utf16_units s)).

Record ExtendedInfo : Type := mkExtendedInfo {
  client_address : list Z;
  client_dir : list Z;
  time_zone : list Z;
  session_id : Z;
  performance_flags : Z
}.

Definition ExtendedInfo_default : ExtendedInfo :=
  mkExtendedInfo (bytes_of_string "0.0.0.0") [] (replicate 172 0) 0 0.

Record ClientInfo : Type := mkClientInfo {
  code_page : Z;
  info_flags : Z;
  domain : list Z;
  username : list Z;
  password : list Z;
  alternate_shell : list Z;
  working_dir : list Z;
  extended : ExtendedInfo
}.

(** It never returns an error. *)
Definition ClientInfo_to_bytes (m : ClientInfo) : list Z :=
  let out := le_bytes 4 (code_page m) ++ le_bytes 4 (info_flags m) in
  let domain_bytes := utf16le (domain m) in
  let username_bytes := utf16le (username m) in
  let password_bytes := utf16le (password m) in
  let alternate_shell_bytes := utf16le (alternate_shell m) in
  let working_dir_bytes := utf16le (working_dir m) in
  let out := out ++ le_bytes 2 (as_uint 16 (len domain_bytes)) ++
    le_bytes 2 (as_uint 16 (len username_bytes)) ++ le_bytes 2 (as_uint 16 (len password_bytes)) ++
    le_bytes 2 (as_uint 16 (len alternate_shell_bytes)) ++ le_bytes 2 (as_uint 16 (len working_dir_bytes)) in
  let out := out ++ domain_bytes ++ [0; 0] ++ username_bytes ++ [0; 0] ++ password_bytes ++ [0; 0] ++
    alternate_shell_bytes ++ [0; 0] ++ working_dir_bytes ++ [0; 0] in
  let client_address_bytes := utf16le (client_address (extended m)) in
  let client_dir_bytes := utf16le (client_dir (extended m)) in
  out ++ le_bytes 2 0x0002 ++ le_bytes 2 (as_uint 16 (len client_address_bytes + 2)) ++
    client_address_bytes ++ [0; 0] ++ le_bytes 2 (as_uint 16 (len client_dir_bytes + 2)) ++
    client_dir_bytes ++ [0; 0] ++ time_zone (extended m) ++ le_bytes 4 (session_id (extended m)) ++
    le_bytes 4 (performance_flags (extended m)).

(** ** UTF-16 *)

(** A Unicode scalar value: no surrogate, at most U+10FFFF. *)
Definition scalar (c : Z) : Prop := 0 ≤ c < 0xD800 ∨ 0xE000 ≤ c < 0x110000.

(** What the units say. *)
Fixpoint utf16_decode (us : list Z) : list Z :=
  match us with
  | [] => []
  | u :: r =>
    if between 0xD800 0xDBFF u then
      match r with
      | v :: r' => 0x10000 + (u - 0xD800) * 0x400 + (v - 0xDC00) :: utf16_decode r'
      | [] => []
      end
    else u :: utf16_decode r
  end.

Fixpoint units_of (bs : list Z) : list Z :=
  match bs with a :: b :: r => le_value [a; b] :: units_of r | _ => [] end.

Lemma utf8_chars_scalar bs : utf8_valid bs = true → Forall scalar (utf8_chars bs).
Proof.
  remember (length bs) as n eqn:Hn. revert bs Hn.
  induction n as [n IH] using (well_founded_induction Nat.lt_wf_0).
  intros [|b r] Hn Hv; [constructor|]. cbn [utf8_valid utf8_chars] in *. cbn in Hn.
  assert (∀ r', (length r' < n)%nat → utf8_valid r' = true → Forall scalar (utf8_chars r')) as IH'.
  { intros. by eapply IH. }
  destruct (between 0 127 b) eqn:E1; [apply between_spec in E1|].
  { replace (b <? 128) with true by lia. constructor; [left; lia|]. apply IH'; [lia|done]. }
  destruct (between 194 223 b) eqn:E2; [apply between_spec in E2|].
  { replace (b <? 128) with false by lia. replace (b <? 224) with true by lia.
    destruct r as [|c1 r1]; [done|]. between_to_prop.
    constructor; [left; lia|]. apply IH'; [cbn in *; lia|done]. }
  destruct (between 224 239 b) eqn:E3; [apply between_spec in E3|].
  { replace (b <? 128) with false by lia. replace (b <? 224) with false by lia.
    replace (b <? 240) with true by lia. destruct r as [|c1 [|c2 r2]]; [done..|].
    between_to_prop; (constructor; [unfold scalar; lia|apply IH'; [cbn in *; lia|done]]). }
  destruct (between 240 244 b) eqn:E4; [apply between_spec in E4|done].
  replace (b <? 128) with false by lia. replace (b <? 224) with false by lia.
  replace (b <? 240) with false by lia. destruct r as [|c1 [|c2 [|c3 r3]]]; [done..|].
  between_to_prop; (constructor; [unfold scalar; lia|apply IH'; [cbn in *; lia|done]]).
Qed.

Lemma char_utf16_u16 c : scalar c → Forall u16 (char_utf16 c).
Proof.
  unfold scalar, char_utf16, is_uint. intros Hc. simpl_pow. case_if; bool_to_prop.
  - constructor; [lia|constructor].
  - pose proof (Z.mod_pos_bound (c - 0x10000) 0x400 ltac:(lia)).
    assert (0 ≤ (c - 0x10000) / 0x400 < 0x400) by (split; [apply Z.div_pos|apply Z.div_lt_upper_bound]; lia).
    constructor; [lia|constructor; [lia|constructor]].
Qed.

Lemma utf16_decode_chars cs : Forall scalar cs → utf16_decode (concat (map char_utf16 cs)) = cs.
Proof.
  induction 1 as [|c cs Hc _ IH]; [done|]. cbn [map concat]. unfold char_utf16 at 1. unfold scalar in *.
  destruct (Z.ltb_spec c 0x10000); cbn [app utf16_decode].
  - assert (between 0xD800 0xDBFF c = false) as -> by (unfold between; lia). by rewrite IH.
  - pose proof (Z.mod_pos_bound (c - 0x10000) 0x400 ltac:(lia)).
    assert (0 ≤ (c - 0x10000) / 0x400 < 0x400) by (split; [apply Z.div_pos|apply Z.div_lt_upper_bound]; lia).
    assert (between 0xD800 0xDBFF (0xD800 + (c - 0x10000) / 0x400) = true) as -> by (unfold between; lia).
    rewrite IH. f_equal. pose proof (Z.div_mod (c - 0x10000) 0x400 ltac:(lia)). lia.
Qed.

Lemma units_of_bytes us : Forall u16 us → units_of (concat (map (le_bytes 2) us)) = us.
Proof.
  induction 1 as [|u us Hu _ IH]; [done|]. cbn [map concat].
  change (le_bytes 2 u) with [u mod 256; u / 256 mod 256]. cbn [app units_of]. rewrite IH. f_equal.
  exact (le_value_bytes_uint 2 16 u eq_refl Hu).
Qed.

(** The characters come back from the bytes. *)
Definition utf16_text (bs : list Z) : list Z := utf16_decode (units_of bs).

Lemma utf16_text_le s : utf8_valid s = true → utf16_text (utf16le s) = utf8_chars s.
Proof.
  intros Hs. pose proof (utf8_chars_scalar s Hs) as Hc. unfold utf16_text, utf16le, utf16_units.
  rewrite units_of_bytes; [by apply utf16_decode_chars|].
  apply Forall_concat, Forall_map. eapply Forall_impl; [exact Hc|]. apply char_utf16_u16.
Qed.

(** ** Layouts of the activation PDUs *)

Definition caps_wire (width height bpp : Z) : list Z :=
  (le_bytes 2 CAP_GENERAL ++ le_bytes 2 24 ++ le_bytes 2 1 ++ le_bytes 2 3 ++ le_bytes 2 0x0200 ++
   le_bytes 2 0 ++ le_bytes 2 0 ++ le_bytes 2 0x040D ++ le_bytes 2 0 ++ le_bytes 2 0 ++ le_bytes 2 0 ++
   [0] ++ [0]) ++
  (le_bytes 2 CAP_BITMAP ++ le_bytes 2 28 ++ le_bytes 2 bpp ++ le_bytes 2 1 ++ le_bytes 2 1 ++
   le_bytes 2 1 ++ le_bytes 2 width ++ le_bytes 2 height ++ le_bytes 2 0 ++ le_bytes 2 1 ++
   le_bytes 2 1 ++ [0] ++ [0] ++ le_bytes 2 1 ++ le_bytes 2 0) ++
  (le_bytes 2 CAP_INPUT ++ le_bytes 2 88 ++ le_bytes 2 0x00A5 ++ le_bytes 2 0 ++ le_bytes 4 0x0409 ++
   le_bytes 4 4 ++ le_bytes 4 0 ++ le_bytes 4 12 ++ replicate 64 0).

Arguments caps_wire : simpl never.

Lemma default_caps_wire width height bpp :
  default_client_capabilities width height bpp = Ok (3, caps_wire width height bpp).
Proof.
  unfold default_client_capabilities, caps_wire.
  erewrite (encode_vec_writes GeneralCapabilitySet_default); [|cbn; unfold GeneralCapabilitySet_encode; solve_writes|done].
  cbn [mbind outcome_bind].
  erewrite (encode_vec_writes (mkBitmapCapabilitySet bpp width height)); [|cbn; unfold BitmapCapabilitySet_encode; solve_writes|done].
  cbn [mbind outcome_bind].
  erewrite (encode_vec_writes InputCapabilitySet_default); [|cbn; unfold InputCapabilitySet_encode; solve_writes|done].
  done.
Qed.

(** A Demand Active PDU up to the capability sets, as a server sends it. *)
Definition demand_active_wire (total source share_id : Z) (descriptor : list Z) (n_caps : Z) : list Z :=
  ShareControlHeader_wire (ShareControlHeader_new PDU_DEMAND_ACTIVE source total) ++ le_bytes 4 share_id ++
  le_bytes 2 (len descriptor) ++ le_bytes 2 n_caps ++ descriptor.

Lemma kind_new t s n : 0 ≤ t < 16 → kind (ShareControlHeader_new t s n) = t.
Proof.
  intros Ht. unfold kind, ShareControlHeader_new, TS_PROTOCOL_VERSION. cbn.
  rewrite Z.land_lor_distr_l. change (Z.land 16 15) with 0. rewrite Z.lor_0_r.
  change 15 with (Z.ones 4). rewrite Z.land_ones by lia. by apply Z.mod_small.
Qed.

Lemma new_wf t s n : 0 ≤ t < 16 → u16 s → u16 n → ShareControlHeader_wf (ShareControlHeader_new t s n).
Proof.
  intros Ht Hs Hn. unfold ShareControlHeader_wf, ShareControlHeader_new, TS_PROTOCOL_VERSION. cbn. split_and!; [done| |done].
  pose proof (lor_shiftl_add 4 1 t ltac:(lia) Ht) as E. change (Z.shiftl 1 4) with 16 in E.
  rewrite Z.lor_comm, E. unfold is_uint. simpl_pow. lia.
Qed.

Lemma reads_demand_active total source share_id descriptor n_caps :
  u16 total → u16 source → u32 share_id → u16 (len descriptor) → u16 n_caps →
  reads DemandActive_read (demand_active_wire total source share_id descriptor n_caps)
        (mkDemandActive source share_id).
Proof.
  intros. unfold DemandActive_read, demand_active_wire.
  eapply reads_bind; [apply reads_control; by apply new_wf|]. rewrite kind_new by done. decide_tags.
  eapply reads_bind; [by apply reads_u32_le|]. do 2 (eapply reads_bind; [by apply reads_u16_le|]).
  eapply reads_bind_last; [by apply reads_slice|apply reads_ret].
Qed.

Lemma rspec_demand_active : rspec DemandActive_read (λ d, u16 (da_pdu_source d) ∧ u32 (da_share_id d)).
Proof.
  eapply rspec_bind; [apply rspec_control|]. intros ctrl (_ & _ & Hs). case_if; [apply rspec_fail|].
  eapply rspec_bind; [apply rspec_u32_le|]. intros sid Hsid.
  eapply rspec_bind; [apply rspec_u16_le|]. intros n Hn.
  eapply rspec_bind; [apply rspec_u16_le|]. intros ? _.
  eapply rspec_bind; [apply rspec_slice, Hn|]. intros ? _. by apply rspec_ret.
Qed.

(** The body of a Confirm Active PDU. *)
Definition confirm_body (share_id width height bpp : Z) : list Z :=
  le_bytes 4 share_id ++ le_bytes 2 0x03EA ++ le_bytes 2 (len SOURCE_DESCRIPTOR) ++
  le_bytes 2 (4 + len (caps_wire width height bpp)) ++ SOURCE_DESCRIPTOR ++
  le_bytes 2 3 ++ le_bytes 2 0 ++ caps_wire width height bpp.

Lemma len_caps_wire width height bpp : len (caps_wire width height bpp) = 140.
Proof. done. Qed.

Lemma len_confirm_body share_id width height bpp : len (confirm_body share_id width height bpp) = 160.
Proof. done. Qed.

Lemma confirm_active_wire share_id pdu_source width height bpp :
  u16 pdu_source →
  build_confirm_active share_id pdu_source width height bpp =
  Ok (ShareControlHeader_wire (ShareControlHeader_new PDU_CONFIRM_ACTIVE pdu_source 166) ++
      confirm_body share_id width height bpp).
Proof.
  intros Hs. unfold build_confirm_active. rewrite default_caps_wire. cbn [mbind outcome_bind fst snd].
  change (as_uint 16 (2 + 2 + len (caps_wire width height bpp))) with (4 + len (caps_wire width height bpp)).
  change (as_uint 16 (len SOURCE_DESCRIPTOR)) with (len SOURCE_DESCRIPTOR).
  fold (confirm_body share_id width height bpp). rewrite len_confirm_body.
  change (as_uint 16 (6 + 160)) with 166.
  rewrite (encode_vec_wire (T:=ShareControlHeader)) by (apply new_wf; [done|done|by split]). done.
Qed.

(** ** The layout of the client info packet

    A reader of TS_INFO_PACKET that follows the announced lengths, decoding each
    string to its characters. *)
Definition read_text (n : Z) : reader (list Z) :=
  bs ← read_slice n "text"; _ ← read_slice 2 "terminator"; mret (utf16_text bs).

Record InfoView : Type := mkInfoView {
  iv_code_page : Z;
  iv_flags : Z;
  iv_texts : list (list Z);
  iv_address : list Z;
  iv_dir : list Z;
  iv_time_zone : list Z;
  iv_session_id : Z;
  iv_performance_flags : Z
}.

Definition read_client_info : reader InfoView :=
  code_page ← read_u32_le "codePage";
  flags ← read_u32_le "flags";
  n1 ← read_u16_le "cbDomain";
  n2 ← read_u16_le "cbUserName";
  n3 ← read_u16_le "cbPassword";
  n4 ← read_u16_le "cbAlternateShell";
  n5 ← read_u16_le "cbWorkingDir";
  t1 ← read_text n1;
  t2 ← read_text n2;
  t3 ← read_text n3;
  t4 ← read_text n4;
  t5 ← read_text n5;
  _ ← read_u16_le "clientAddressFamily";
  na ← read_u16_le "cbClientAddress";
  address ← read_text (na - 2);
  nd ← read_u16_le "cbClientDir";
  dir ← read_text (nd - 2);
  time_zone ← read_slice 172 "clientTimeZone";
  session_id ← read_u32_le "clientSessionId";
  performance_flags ← read_u32_le "performanceFlags";
  mret (mkInfoView code_page flags [t1; t2; t3; t4; t5] address dir time_zone session_id performance_flags).

(** What the packet means to say. *)
Definition info_view (m : ClientInfo) : InfoView :=
  mkInfoView (code_page m) (info_flags m)
    (map utf8_chars [domain m; username m; password m; alternate_shell m; working_dir m])
    (utf8_chars (client_address (extended m))) (utf8_chars (client_dir (extended m)))
    (time_zone (extended m)) (session_id (extended m)) (performance_flags (extended m)).

(** A string of the packet: valid UTF-8 whose UTF-16 form fits its length
    field, which for the two extended strings counts the terminator. *)
Definition text_ok (s : list Z) : Prop := utf8_valid s = true ∧ len (utf16le s) < 65536.
Definition ext_text_ok (s : list Z) : Prop := utf8_valid s = true ∧ len (utf16le s) + 2 < 65536.

Definition ClientInfo_wf (m : ClientInfo) : Prop :=
  u32 (code_page m) ∧ u32 (info_flags m) ∧
  Forall text_ok [domain m; username m; password m; alternate_shell m; working_dir m] ∧
  ext_text_ok (client_address (extended m)) ∧ ext_text_ok (client_dir (extended m)) ∧
  bytes_of 172 (time_zone (extended m)) ∧ u32 (session_id (extended m)) ∧ u32 (performance_flags (extended m)).

Lemma reads_text s n : utf8_valid s = true → n = len (utf16le s) → reads (read_text n) (utf16le s ++ [0; 0]) (utf8_chars s).
Proof.
  intros Hs ->. rewrite <- (utf16_text_le s Hs). eapply reads_bind; [by apply reads_slice|].
  eapply reads_bind_last; [by apply (reads_slice [0; 0])|apply reads_ret].
Qed.

Lemma reads_text_then {B} s n (f : list Z → reader B) bs b :
  utf8_valid s = true → n = len (utf16le s) → reads (f (utf8_chars s)) bs b →
  reads (read_text n ≫= f) (utf16le s ++ [0; 0] ++ bs) b.
Proof. intros. rewrite (app_assoc (utf16le s)). eapply reads_bind; [by apply reads_text|done]. Qed.

Lemma reads_client_info m : ClientInfo_wf m → reads read_client_info (ClientInfo_to_bytes m) (info_view m).
Proof.
  intros (Hcp & Hfl & Ht & Ha & Hd & [Htz _] & Hsid & Hpf).
  rewrite !Forall_cons in Ht. destruct Ht as ((?&?) & (?&?) & (?&?) & (?&?) & (?&?) & _).
  destruct Ha as [? ?], Hd as [? ?].
  assert (∀ s k, 0 ≤ k → len (utf16le s) + k < 65536 → u16 (len (utf16le s) + k)) as Hu
    by (intros; pose proof (len_nonneg (utf16le s)); unfold is_uint; simpl_pow; lia).
  assert (∀ s, len (utf16le s) < 65536 → u16 (len (utf16le s))) as Hu0
    by (intros; pose proof (len_nonneg (utf16le s)); unfold is_uint; simpl_pow; lia).
  unfold read_client_info, ClientInfo_to_bytes. cbv zeta. rewrite !as_uint_id by (apply Hu || apply Hu0; lia).
  rewrite <- !app_assoc.
  do 2 (eapply reads_bind; [by apply reads_u32_le|]).
  do 5 (eapply reads_bind; [apply reads_u16_le; by apply Hu0|]).
  do 5 (apply reads_text_then; [done|done|]).
  eapply reads_bind; [by apply reads_u16_le|].
  eapply reads_bind; [apply reads_u16_le, Hu; lia|]. apply reads_text_then; [done|lia|].
  eapply reads_bind; [apply reads_u16_le, Hu; lia|]. apply reads_text_then; [done|lia|].
  eapply reads_bind; [by apply reads_slice|]. eapply reads_bind; [by apply reads_u32_le|].
  eapply reads_bind_last; [by apply reads_u32_le|apply reads_ret].
Qed.

(** ** Properties *)

Lemma license_decode_total bytes :
  Forall u8 bytes →
  match decode (T:=LicensePdu) bytes with
  | Ok m => u8 (lic_msg_type m) ∧ u8 (lic_flags m) ∧ from_option u32 True (lic_error_code m) ∧
            (lic_error_code m = None ↔ lic_msg_type m ≠ ERROR_ALERT)
  | Err _ => True
  | Panic => False
  end.
Proof.
  apply decode_rspec. unfold decode_from, LicensePdu_Decode, LicensePdu_decode.
  eapply rspec_bind; [apply rspec_u8|]. intros t Ht. eapply rspec_bind; [apply rspec_u8|]. intros f Hf.
  eapply rspec_bind; [apply rspec_u16_le|]. intros ? _.
  eapply rspec_bind; [apply (rspec_opt_u32 (t =? ERROR_ALERT))|]. intros o [Ho Hb]. apply rspec_ret. cbn.
  split_and!; [done..|]. rewrite Hb, Z.eqb_neq. done.
Qed.

(** the security, share-control, share-data, synchronize, control and font-list PDUs round-trip through their encoders and decoders whatever follows them; no bytes make one of their decoders, or those of the licensing and Demand Active PDUs, panic or return a field out of range; and a licensing PDU carries an error code exactly when it is an error alert. *)
Theorem share_pdus_sound :
  codec_within SecurityHeader_wf SecurityHeader_wf ∧
  codec_within ShareControlHeader_wf ShareControlHeader_wf ∧
  codec_within ShareDataHeader_wf ShareDataHeader_wf ∧
  codec_within SynchronizePdu_wf SynchronizePdu_wf ∧
  codec_within ControlPdu_wf ControlPdu_wf ∧
  codec_within FontListPdu_wf FontListPdu_wf ∧
  ∀ bytes, Forall u8 bytes →
    match decode (T:=LicensePdu) bytes with
    | Ok m => u8 (lic_msg_type m) ∧ u8 (lic_flags m) ∧ from_option u32 True (lic_error_code m) ∧
              (lic_error_code m = None ↔ lic_msg_type m ≠ ERROR_ALERT)
    | Err _ => True
    | Panic => False
    end ∧
    match DemandActive_from_bytes bytes with
    | Ok d => u16 (da_pdu_source d) ∧ u32 (da_share_id d)
    | Err _ => True
    | Panic => False
    end.
Proof.
  split_and!.
  - exact (codec_within_wire SecurityHeader).
  - exact (codec_within_wire ShareControlHeader).
  - exact (codec_within_wire ShareDataHeader).
  - exact (codec_within_wire SynchronizePdu).
  - exact (codec_within_wire ControlPdu).
  - exact (codec_within_wire FontListPdu).
  - intros bytes Hu. split; [by apply license_decode_total|]. unfold DemandActive_from_bytes.
    pose proof (len_nonneg bytes).
    pose proof (rspec_demand_active (read_new bytes) ltac:(split; cbn; lia) Hu) as Hr.
    destruct (DemandActive_read (read_new bytes)) as [[d c]|e|]; [|done..]. apply Hr.
Qed.

(** Activation: from a Demand Active PDU with any source descriptor the client recovers the share id, and the Confirm Active it builds with that id is a PDU whose header announces exactly its length, carries the confirm type and the client's channel, repeats the share id, and announces capability sets of exactly the bytes that follow. *)
Theorem activation_exchange total source share_id descriptor n_caps rest user width height bpp :
  u16 total → u16 source → u32 share_id → u16 (len descriptor) → u16 n_caps → u16 user →
  ∃ d confirm h,
    DemandActive_from_bytes (demand_active_wire total source share_id descriptor n_caps ++ rest) = Ok d ∧
    build_confirm_active (da_share_id d) user width height bpp = Ok confirm ∧
    decode confirm = Ok h ∧ kind h = PDU_CONFIRM_ACTIVE ∧ sc_pdu_source h = user ∧
    total_length h = len confirm ∧
    confirm = ShareControlHeader_wire h ++ le_bytes 4 share_id ++ le_bytes 2 0x03EA ++
      le_bytes 2 (len SOURCE_DESCRIPTOR) ++ le_bytes 2 (len (le_bytes 2 3 ++ le_bytes 2 0 ++ caps_wire width height bpp)) ++
      SOURCE_DESCRIPTOR ++ le_bytes 2 3 ++ le_bytes 2 0 ++ caps_wire width height bpp.
Proof.
  intros Ht Hs Hid Hd Hn Hu. set (h := ShareControlHeader_new PDU_CONFIRM_ACTIVE user 166).
  assert (ShareControlHeader_wf h) as Hh by (apply new_wf; [done|done|by split]).
  exists (mkDemandActive source share_id), (ShareControlHeader_wire h ++ confirm_body share_id width height bpp), h.
  pose proof (reads_demand_active total source share_id descriptor n_caps Ht Hs Hid Hd Hn [] rest) as Hr.
  cbn [app] in Hr. change (len (@nil Z)) with 0 in Hr.
  split_and!; [|by rewrite confirm_active_wire| |by apply kind_new|done|done|done].
  - unfold DemandActive_from_bytes, read_new. by rewrite Hr.
  - exact (decode_wire (T:=ShareControlHeader) h _ Hh).
Qed.

Lemma activation_exchange_witness :
  ∃ d confirm, DemandActive_from_bytes (demand_active_wire 24 1002 0x103EA [0x52; 0x44; 0x50; 0] 0 ++ []) = Ok d ∧
    build_confirm_active (da_share_id d) 1007 1024 768 16 = Ok confirm ∧ len confirm = 166.
Proof.
  destruct (activation_exchange 24 1002 0x103EA [0x52; 0x44; 0x50; 0] 0 [] 1007 1024 768 16)
    as (d & confirm & h & Hd & Hc & _ & _ & _ & _ & E); [split; vm_compute; congruence..|].
  exists d, confirm. split; [exact Hd|]. split; [exact Hc|]. rewrite E. reflexivity.
Defined.

(** the client info packet can be read back by following its announced lengths: code page, flags, the characters of the five logon strings, address and directory, time zone, session id and performance flags, for valid UTF-8 strings whose UTF-16 form fits the 16-bit length fields. *)
Theorem client_info_roundtrip m rest :
  ClientInfo_wf m →
  ∃ c, read_client_info (read_new (ClientInfo_to_bytes m ++ rest)) = Ok (info_view m, c) ∧
       position c = len (ClientInfo_to_bytes m).
Proof.
  intros Hm. pose proof (reads_client_info m Hm [] rest) as Hr. cbn [app] in Hr.
  change (len (@nil Z)) with 0 in Hr. unfold read_new. rewrite Hr. by eexists.
Qed.

Lemma client_info_roundtrip_witness :
  let m := mkClientInfo 0 0x33 [] [0x75; 0xC3; 0xBC; 0xF0; 0x9F; 0x98; 0x80] (bytes_of_string "pw") [] []
             ExtendedInfo_default in
  ∃ c, read_client_info (read_new (ClientInfo_to_bytes m ++ [9])) = Ok (info_view m, c) ∧
       position c = len (ClientInfo_to_bytes m).
Proof.
  intros m. apply (client_info_roundtrip m [9]).
  split; [split; cbn; lia|]. split; [split; cbn; lia|].
  split; [repeat (constructor; [split; reflexivity|]); constructor|].
  split; [split; reflexivity|]. split; [split; reflexivity|].
  split; [split; [reflexivity|apply Forall_replicate; split; lia]|].
  split; split; cbn; lia.
Defined.
