(* ===== verification/RdpConnector.v ===== *)
(** * The RDP connection sequence

    [crates/oxrdp-core/src/connector.rs]: the state machine that takes a client
    from the X.224 connection request through TLS, Connect-Initial, user
    attachment and channel joins to a joined session, one server frame at a
    time.  It performs no I/O: every call returns what the caller has to send
    or do.  A method that returns an error keeps the fields it has already
    assigned, so that the monad below keeps the state on errors. *)

From S2P Require Import Prelude Cursor Wire Ber RdpFrame RdpMcs RdpConnect RdpGcc RdpConference.

(** ** Data *)

Inductive CoreOutput : Type :=
| SendData (bytes : list Z)
| UpgradeToTls
| OutConnected (selected_protocol user_channel io_channel : Z).

Inductive ConnectorState : Type :=
| Initial
| SentConnectionRequest
| NeedTls
| SentConnectInitial
| SentErectAttach
| JoiningChannels
| Connected.

#[export] Instance ConnectorState_eq_dec : EqDecision ConnectorState.
Proof. solve_decision. Defined.

Record ConnectorConfig : Type := mkConnectorConfig {
  cookie : option (list Z);
  requested_protocols : Z;
  cfg_core : ClientCoreData;
  cfg_security : ClientSecurityData;
  cfg_network : ClientNetworkData
}.

Inductive CoreError : Type :=
| CoreDecode (e : DecodeError)
| CoreEncode (e : EncodeError)
| UnexpectedState
| NegotiationFailed (code : Z)
| ConnectResponseFailed (result : Z)
| ChannelJoinFailed (channel : Z).

Record ClientConnector : Type := mkConnector {
  config : ConnectorConfig;
  state : ConnectorState;
  selected_protocol : Z;
  user_id : Z;
  io_channel : Z;
  join_queue : list Z;
  join_index : Z
}.

Definition connector_new (cfg : ConnectorConfig) : ClientConnector := mkConnector cfg Initial 0 0 0 [] 0.

Definition is_connected (c : ClientConnector) : bool := bool_decide (state c = Connected).

(** ** Methods: a result and the state it leaves, also on an error *)

Definition conn (A : Type) : Type := ClientConnector → outcome CoreError A * ClientConnector.

#[export] Instance conn_ret : MRet conn := λ _ a c, (Ok a, c).
#[export] Instance conn_bind : MBind conn := λ _ _ f m c,
  match m c with
  | (Ok a, c') => f a c'
  | (Err e, c') => (Err e, c')
  | (Panic, c') => (Panic, c')
  end.

Definition throw {A} (e : CoreError) : conn A := λ c, (Err e, c).
Definition get : conn ClientConnector := λ c, (Ok c, c).
Definition modify (f : ClientConnector → ClientConnector) : conn unit := λ c, (Ok tt, f c).

(** [?] on the results of the PDU layer, through [From<DecodeError>] and
    [From<EncodeError>]. *)
Definition dec {A} (m : outcome DecodeError A) : conn A := λ c, (map_err CoreDecode m, c).
Definition enc {A} (m : outcome EncodeError A) : conn A := λ c, (map_err CoreEncode m, c).
(** An operation that can only panic. *)
Definition pure {A} (m : outcome CoreError A) : conn A := λ c, (m, c).

Definition set_state (s : ConnectorState) (c : ClientConnector) : ClientConnector :=
  mkConnector (config c) s (selected_protocol c) (user_id c) (io_channel c) (join_queue c) (join_index c).
Definition set_selected (p : Z) (c : ClientConnector) : ClientConnector :=
  mkConnector (config c) (state c) p (user_id c) (io_channel c) (join_queue c) (join_index c).
Definition set_channels (io : Z) (q : list Z) (c : ClientConnector) : ClientConnector :=
  mkConnector (config c) (state c) (selected_protocol c) (user_id c) io q (join_index c).
Definition set_user (u : Z) (c : ClientConnector) : ClientConnector :=
  mkConnector (config c) (state c) (selected_protocol c) u (io_channel c) (join_queue c) (join_index c).
Definition set_queue (q : list Z) (i : Z) (c : ClientConnector) : ClientConnector :=
  mkConnector (config c) (state c) (selected_protocol c) (user_id c) (io_channel c) q i.

(** ** The handlers *)

Definition start : conn (list CoreOutput) :=
  c ← get;
  if negb (bool_decide (state c = Initial)) then throw UnexpectedState
  else
    let cr := mkConnectionRequest (cookie (config c))
                (Some (mkNegotiationRequest 0 (requested_protocols (config c)))) in
    x224 ← enc (encode_vec cr);
    header ← enc (encode_vec (mkTpktHeader (as_uint 16 (TPKT_HEADER_LEN + len x224))));
    let frame := header ++ x224 in
    modify (set_state SentConnectionRequest);;
    mret [SendData frame].

Definition send_connect_initial : conn (list CoreOutput) :=
  c ← get;
  let ci := mkConnectInitial (cfg_core (config c)) (cfg_security (config c)) (cfg_network (config c)) in
  bytes ← enc (to_bytes ci);
  frame ← enc (wrap_mcs bytes);
  modify (set_state SentConnectInitial);;
  mret [SendData frame].

Definition send_channel_join : conn (list CoreOutput) :=
  c ← get;
  channel_id ← pure (index (join_queue c) (join_index c));
  let req := mkChannelJoinRequest (user_id c) channel_id in
  bytes ← enc (encode_vec req);
  frame ← enc (wrap_mcs bytes);
  modify (set_state JoiningChannels);;
  mret [SendData frame].

Definition resume_after_tls : conn (list CoreOutput) :=
  c ← get;
  if negb (bool_decide (state c = NeedTls)) then throw UnexpectedState else send_connect_initial.

(** [nego::protocol::RDP] *)
Definition PROTOCOL_RDP : Z := 0.

Definition handle_connection_confirm (frame : list Z) : conn (list CoreOutput) :=
  _ ← dec (decode (T:=TpktHeader) frame);
  body ← dec (slice frame TPKT_HEADER_LEN (len frame));
  cc ← dec (decode (T:=ConnectionConfirm) body);
  match cc_negotiation cc with
  | Some (Failure f) => throw (NegotiationFailed (negfail_failure_code f))
  | Some (Response r) =>
    modify (set_selected (negrsp_selected_protocol r));;
    if negb (negrsp_selected_protocol r =? PROTOCOL_RDP) then
      modify (set_state NeedTls);; mret [UpgradeToTls]
    else send_connect_initial
  | None => send_connect_initial
  end.

Definition handle_connect_response (frame : list Z) : conn (list CoreOutput) :=
  payload ← dec (mcs_payload frame);
  resp ← dec (from_bytes payload);
  if negb (cr_result resp =? 0) then throw (ConnectResponseFailed (cr_result resp))
  else
    let io := from_option mcs_channel_id 0 (server_network resp) in
    let virtual_ids := from_option channel_ids [] (server_network resp) in
    modify (set_channels io virtual_ids);;
    e ← enc (encode_vec mkErectDomainRequest);
    erect ← enc (wrap_mcs e);
    a ← enc (encode_vec mkAttachUserRequest);
    attach ← enc (wrap_mcs a);
    modify (set_state SentErectAttach);;
    mret [SendData erect; SendData attach].

Definition handle_attach_user_confirm (frame : list Z) : conn (list CoreOutput) :=
  payload ← dec (mcs_payload frame);
  confirm ← dec (decode (T:=AttachUserConfirm) payload);
  if negb (attach_result confirm =? 0) then throw (ConnectResponseFailed (attach_result confirm))
  else
    modify (set_user (attach_user_id confirm));;
    c ← get;
    let q := [user_id c; io_channel c] ++ join_queue c in
    modify (set_queue q 0);;
    send_channel_join.

Definition handle_channel_join_confirm (frame : list Z) : conn (list CoreOutput) :=
  payload ← dec (mcs_payload frame);
  confirm ← dec (decode (T:=ChannelJoinConfirm) payload);
  if negb (joinconf_result confirm =? 0) then throw (ChannelJoinFailed (joinconf_channel_id confirm))
  else
    c ← get;
    i ← pure (add_uint 64 (join_index c) 1);
    modify (set_queue (join_queue c) i);;
    if i <? len (join_queue c) then send_channel_join
    else
      modify (set_state Connected);;
      mret [OutConnected (selected_protocol c) (user_id c) (io_channel c)].

Definition step (frame : list Z) : conn (list CoreOutput) :=
  c ← get;
  match state c with
  | SentConnectionRequest => handle_connection_confirm frame
  | SentConnectInitial => handle_connect_response frame
  | SentErectAttach => handle_attach_user_confirm frame
  | JoiningChannels => handle_channel_join_confirm frame
  | _ => throw UnexpectedState
  end.

(** ** Runs: any calls in any order *)

Inductive event : Type :=
| EStart
| EResume
| EFrame (frame : list Z).

Definition call (e : event) : conn (list CoreOutput) :=
  match e with EStart => start | EResume => resume_after_tls | EFrame f => step f end.

(** The outputs of the calls that succeeded, in order, and the state left. *)
Inductive runs (cfg : ConnectorConfig) : list event → list CoreOutput → ClientConnector → Prop :=
| runs_new : runs cfg [] [] (connector_new cfg)
| runs_ok es h c e o c' :
    runs cfg es h c → call e c = (Ok o, c') → runs cfg (es ++ [e]) (h ++ o) c'
| runs_err es h c e err c' :
    runs cfg es h c → call e c = (Err err, c') → runs cfg (es ++ [e]) h c'.

(** ** What the connector has sent, state by state *)

Definition request_of (cfg : ConnectorConfig) : ConnectionRequest :=
  mkConnectionRequest (cookie cfg) (Some (mkNegotiationRequest 0 (requested_protocols cfg))).
Definition initial_of (cfg : ConnectorConfig) : ConnectInitial :=
  mkConnectInitial (cfg_core cfg) (cfg_security cfg) (cfg_network cfg).

(** The frames of the sequence. *)
Definition request_output (x224 : list Z) : CoreOutput :=
  SendData (TpktHeader_wire (mkTpktHeader (as_uint 16 (4 + len x224))) ++ x224).
Definition mcs_output (payload : list Z) : CoreOutput := SendData (mcs_frame payload).
Definition join_output (u ch : Z) : CoreOutput := mcs_output (ChannelJoinRequest_wire (mkChannelJoinRequest u ch)).
Definition erect_attach : list CoreOutput :=
  [mcs_output (ErectDomainRequest_wire mkErectDomainRequest);
   mcs_output (AttachUserRequest_wire mkAttachUserRequest)].
Definition tls_part (p : Z) : list CoreOutput := if p =? PROTOCOL_RDP then [] else [UpgradeToTls].

(** The outputs up to and including Connect-Initial. *)
Definition opening (cfg : ConnectorConfig) (p : Z) (h : list CoreOutput) : Prop :=
  ∃ x224 ci, encode_vec (request_of cfg) = Ok x224 ∧ to_bytes (initial_of cfg) = Ok ci ∧
             h = request_output x224 :: tls_part p ++ [mcs_output ci].

(** The state's fields, and what has been sent when it is reached. *)
Definition good (cfg : ConnectorConfig) (c : ClientConnector) (h : list CoreOutput) : Prop :=
  config c = cfg ∧
  match state c with
  | Initial => selected_protocol c = 0 ∧ h = []
  | SentConnectionRequest =>
    selected_protocol c = 0 ∧ ∃ x224, encode_vec (request_of cfg) = Ok x224 ∧ h = [request_output x224]
  | NeedTls =>
    selected_protocol c ≠ PROTOCOL_RDP ∧
    ∃ x224, encode_vec (request_of cfg) = Ok x224 ∧ h = [request_output x224; UpgradeToTls]
  | SentConnectInitial => opening cfg (selected_protocol c) h
  | SentErectAttach =>
    u16 (io_channel c) ∧ Forall u16 (join_queue c) ∧ len (join_queue c) < 2 ^ 16 ∧
    ∃ h0, opening cfg (selected_protocol c) h0 ∧ h = h0 ++ erect_attach
  | JoiningChannels =>
    integer16_ok 1001 (user_id c) ∧ Forall u16 (join_queue c) ∧ len (join_queue c) < 2 ^ 16 + 2 ∧
    (∃ vids, join_queue c = user_id c :: io_channel c :: vids) ∧
    0 ≤ join_index c < len (join_queue c) ∧
    ∃ h0, opening cfg (selected_protocol c) h0 ∧
          h = h0 ++ erect_attach ++ map (join_output (user_id c)) (ztake (join_index c + 1) (join_queue c))
  | Connected =>
    (∃ vids, join_queue c = user_id c :: io_channel c :: vids) ∧
    ∃ h0, opening cfg (selected_protocol c) h0 ∧
          h = h0 ++ erect_attach ++ map (join_output (user_id c)) (join_queue c) ++
              [OutConnected (selected_protocol c) (user_id c) (io_channel c)]
  end.

(** A call's result is good for the history [h] before it. *)
Definition good_result (cfg : ConnectorConfig) (h : list CoreOutput)
    (r : outcome CoreError (list CoreOutput) * ClientConnector) : Prop :=
  match r with
  | (Ok o, c') => good cfg c' (h ++ o)
  | (Err _, c') => good cfg c' h
  | (Panic, _) => False
  end.

Lemma good_bind_dec {A} cfg h (m : outcome DecodeError A) f c :
  m ≠ Panic → good cfg c h → (∀ a, m = Ok a → good_result cfg h (f a c)) →
  good_result cfg h ((dec m ≫= f) c).
Proof. intros Hp Hg Hf. unfold mbind, conn_bind, dec. destruct m; cbn; [by apply Hf|done|done]. Qed.

Lemma good_bind_enc {A} cfg h (m : outcome EncodeError A) f c :
  m ≠ Panic → good cfg c h → (∀ a, m = Ok a → good_result cfg h (f a c)) →
  good_result cfg h ((enc m ≫= f) c).
Proof. intros Hp Hg Hf. unfold mbind, conn_bind, enc. destruct m; cbn; [by apply Hf|done|done]. Qed.

(** *** The encoders of the handlers do not panic *)

Lemma write_ensure_safe n ctx c : 0 ≤ wpos c ≤ len (wbuf c) → write_ensure n ctx c ≠ Panic.
Proof.
  intros Hc. unfold write_ensure, write_remaining, mbind, stm_bind, lift, sub_uint.
  replace (wpos c <=? len (wbuf c)) with true by lia. by case_if.
Qed.

(** [wsafe w]: from an in-range cursor [w] does not panic and stays in range. *)
Definition wsafe (w : writer unit) : Prop :=
  ∀ c, 0 ≤ wpos c ≤ len (wbuf c) →
    match w c with
    | Ok (_, c') => 0 ≤ wpos c' ≤ len (wbuf c')
    | Err _ => True
    | Panic => False
    end.

Lemma wsafe_slice src ctx : wsafe (write_slice src ctx).
Proof.
  intros c Hc. unfold write_slice, write_ensure, write_remaining, mbind, stm_bind, lift, sub_uint.
  replace (wpos c <=? len (wbuf c)) with true by lia.
  destruct (Z.ltb_spec (len (wbuf c) - wpos c) (len src)) as [|Hl]; [done|]. cbn.
  unfold copy_from_slice. pose proof (len_nonneg src). rewrite slice_ok by lia. cbn [wpos wbuf].
  rewrite !len_app, len_ztake, len_zdrop by lia. lia.
Qed.

Lemma wsafe_bind (w1 w2 : writer unit) : wsafe w1 → wsafe w2 → wsafe (w1;; w2).
Proof.
  intros H1 H2 c Hc. unfold mbind, stm_bind. specialize (H1 c Hc).
  destruct (w1 c) as [[[] c']|e|]; [by apply H2|done..].
Qed.

Lemma wsafe_ret : wsafe (mret tt).
Proof. by intros c Hc. Qed.
Lemma wsafe_fail e : wsafe (fail e).
Proof. by intros c Hc. Qed.
Lemma wsafe_lift {A} (m : outcome EncodeError A) (f : A → writer unit) :
  m ≠ Panic → (∀ a, m = Ok a → wsafe (f a)) → wsafe (lift m ≫= f).
Proof. destruct m as [a|e|]; intros Hp Hf; [by apply Hf|apply wsafe_fail|done]. Qed.

Lemma encode_vec_safe {T} `{Encode T} (m : T) : wsafe (encode m) → 0 ≤ enc_size m → encode_vec m ≠ Panic.
Proof.
  intros Hw Hs. unfold encode_vec, write_new.
  specialize (Hw (mkWrite (replicate (Z.to_nat (enc_size m)) 0) 0)). cbn in Hw.
  rewrite len_replicate in Hw by lia. specialize (Hw ltac:(lia)).
  by destruct (encode m _) as [[]| |].
Qed.

Lemma request_encode_safe cfg : encode_vec (request_of cfg) ≠ Panic.
Proof.
  apply encode_vec_safe.
  - change (wsafe (ConnectionRequest_encode (request_of cfg))). unfold ConnectionRequest_encode.
    apply wsafe_lift; [by unfold try_from_uint; case_if|]. intros li _.
    do 5 (apply wsafe_bind; [apply wsafe_slice|]). apply wsafe_bind.
    + destruct (cr_cookie _); [|apply wsafe_ret]. do 2 (apply wsafe_bind; [apply wsafe_slice|]). apply wsafe_slice.
    + apply wsafe_bind; [|apply wsafe_ret]. cbn. unfold NegotiationRequest_encode.
      do 4 (apply wsafe_bind; [apply wsafe_slice|]). apply wsafe_ret.
  - cbn. unfold ConnectionRequest_size, FIXED_HEADER_LEN. rewrite <- len_cr_variable.
    pose proof (len_nonneg (cr_variable (request_of cfg))). lia.
Qed.

Lemma wsafe_each {T} (f : T → writer unit) xs : (∀ x, wsafe (f x)) → wsafe (write_each f xs).
Proof. intros Hf. induction xs; cbn; [apply wsafe_ret|by apply wsafe_bind]. Qed.

Lemma cs_net_encode_safe (m : ClientNetworkData) : encode_vec m ≠ Panic.
Proof.
  apply encode_vec_safe.
  - cbn. unfold ClientNetworkData_encode. cbv zeta. case_if; [apply wsafe_fail|].
    do 2 (apply wsafe_bind; [apply wsafe_slice|]). case_if; [apply wsafe_fail|].
    apply wsafe_bind; [apply wsafe_slice|]. apply wsafe_each. intros ch.
    apply wsafe_bind; apply wsafe_slice.
  - cbn. unfold ClientNetworkData_size. pose proof (len_nonneg (channels m)). lia.
Qed.

Lemma outcome_bind_safe {E A B} (m : outcome E A) (f : A → outcome E B) :
  m ≠ Panic → (∀ a, f a ≠ Panic) → (m ≫= f) ≠ Panic.
Proof. intros Hm Hf. destruct m as [a|e|]; [apply Hf|discriminate|by destruct Hm]. Qed.

Lemma to_bytes_safe ci : to_bytes ci ≠ Panic.
Proof.
  destruct domain_params_wf as (Ht & Hmin & Hmax). unfold to_bytes.
  apply outcome_bind_safe.
  { apply encode_vec_safe; [|done]. cbn. unfold ClientCoreData_encode.
    repeat (apply wsafe_bind; [apply wsafe_slice|]). apply wsafe_ret. }
  intros core. apply outcome_bind_safe.
  { apply encode_vec_safe; [|done]. cbn. unfold ClientSecurityData_encode.
    repeat (apply wsafe_bind; [apply wsafe_slice|]). apply wsafe_ret. }
  intros sec. apply outcome_bind_safe; [apply cs_net_encode_safe|]. intros net. cbv zeta.
  rewrite (encode_vec_wire (T:=DomainParameters) target) by exact Ht.
  rewrite (encode_vec_wire (T:=DomainParameters) minimum) by exact Hmin.
  rewrite (encode_vec_wire (T:=DomainParameters) maximum) by exact Hmax. done.
Qed.

(** *** Each handler keeps the history *)

Lemma wrap_mcs_bind {A} payload (f : list Z → conn A) c :
  (enc (wrap_mcs payload) ≫= f) c = f (mcs_frame payload) c.
Proof. unfold mbind, conn_bind, enc. by rewrite wrap_mcs_ok. Qed.

(** Connect-Initial can be sent from any state in which what precedes it has
    been sent. *)
Lemma send_connect_initial_good cfg h c x224 :
  good cfg c h → encode_vec (request_of cfg) = Ok x224 →
  h = request_output x224 :: tls_part (selected_protocol c) →
  good_result cfg h (send_connect_initial c).
Proof.
  intros Hg Hx Hh. pose proof Hg as [Hcfg _]. unfold send_connect_initial. change ((get ≫= ?f) c) with (f c c). cbv beta zeta.
  rewrite Hcfg. fold (initial_of cfg). apply good_bind_enc; [apply to_bytes_safe|done|].
  intros ci Hci. rewrite wrap_mcs_bind. split; [done|]. cbn. exists x224, ci. split_and!; [done..|].
  rewrite Hh. done.
Qed.

Lemma start_good cfg h c : good cfg c h → good_result cfg h (start c).
Proof.
  intros Hg. pose proof Hg as [Hcfg Hs]. unfold start. change ((get ≫= ?f) c) with (f c c). cbv beta.
  destruct (bool_decide_reflect (state c = Initial)) as [E|E]; cbn [negb]; [|done].
  cbv zeta. rewrite Hcfg. fold (request_of cfg).
  apply good_bind_enc; [apply request_encode_safe|done|]. intros x Hx.
  rewrite (encode_vec_writes (mkTpktHeader _) _ (writes_tpkt _)) by done.
  change ((enc (Ok ?b) ≫= ?f) ?c) with (f b c). cbv beta.
  rewrite E in Hs. destruct Hs as [Hsel ->]. split; [done|]. cbn. split; [done|]. by exists x.
Qed.

Lemma resume_good cfg h c : good cfg c h → good_result cfg h (resume_after_tls c).
Proof.
  intros Hg. pose proof Hg as [Hcfg Hs]. unfold resume_after_tls. change ((get ≫= ?f) c) with (f c c). cbv beta.
  destruct (bool_decide_reflect (state c = NeedTls)) as [E|E]; cbn [negb]; [|done].
  rewrite E in Hs. destruct Hs as (Hp & x & Hx & ->). eapply send_connect_initial_good; [done|done|].
  unfold tls_part. by replace (selected_protocol c =? PROTOCOL_RDP) with false by (symmetry; by apply Z.eqb_neq).
Qed.

(** A read that succeeded had its bytes. *)
Lemma read_array_inv n ctx c bs c' :
  0 ≤ n → read_array n ctx c = Ok (bs, c') →
  rbuf c' = rbuf c ∧ rpos c' = rpos c + n ∧ rpos c' ≤ len (rbuf c).
Proof.
  intros Hn. unfold read_array, ensure, remaining, mbind, stm_bind, lift, sub_uint.
  destruct (rpos c <=? len (rbuf c)); [|done]. destruct (Z.ltb_spec (len (rbuf c) - rpos c) n); [done|]. cbn.
  unfold advance. destruct (slice _ _ _); [|done..]. intros [= <- <-]. cbn. split_and!; [done|done|lia].
Qed.

Lemma read_u8_inv ctx c x c' :
  read_u8 ctx c = Ok (x, c') → rbuf c' = rbuf c ∧ rpos c' = rpos c + 1 ∧ rpos c' ≤ len (rbuf c).
Proof.
  unfold read_u8, mbind, stm_bind. destruct (read_array 1 ctx c) as [[bs c1]|e|] eqn:E; [|done..].
  unfold lift. destruct (index bs 0); [|done..]. intros [= <- <-]. by eapply read_array_inv.
Qed.

Lemma read_u16_be_inv ctx c x c' :
  read_u16_be ctx c = Ok (x, c') → rbuf c' = rbuf c ∧ rpos c' = rpos c + 2 ∧ rpos c' ≤ len (rbuf c).
Proof.
  unfold read_u16_be, mbind, stm_bind. destruct (read_array 2 ctx c) as [[bs c1]|e|] eqn:E; [|done..].
  intros [= <- <-]. by eapply read_array_inv.
Qed.

Lemma tpkt_decode_len frame t : decode (T:=TpktHeader) frame = Ok t → 4 ≤ len frame.
Proof.
  unfold decode, decode_from, TpktHeader_Decode, TpktHeader_decode, mbind, stm_bind.
  destruct (read_u8 _ (read_new frame)) as [[v c1]|e|] eqn:E1; [|done..].
  destruct (negb _); [done|]. destruct (read_u8 _ c1) as [[r c2]|e|] eqn:E2; [|done..].
  destruct (read_u16_be _ c2) as [[n c3]|e|] eqn:E3; [|done..]. intros _.
  apply read_u8_inv in E1 as (B1 & P1 & _). apply read_u8_inv in E2 as (B2 & P2 & _).
  apply read_u16_be_inv in E3 as (_ & P3 & L3). rewrite B2, B1 in L3. cbn in *. lia.
Qed.

Lemma decode_cc_safe bytes : Forall u8 bytes → decode (T:=ConnectionConfirm) bytes ≠ Panic.
Proof. intros Hu. pose proof (decode_rspec (T:=ConnectionConfirm) _ bytes rspec_cc Hu). by destruct (decode _). Qed.

Lemma confirm_good cfg h c frame :
  Forall u8 frame → good cfg c h → state c = SentConnectionRequest →
  good_result cfg h (handle_connection_confirm frame c).
Proof.
  intros Hu Hg E. pose proof Hg as [Hcfg Hs]. rewrite E in Hs. destruct Hs as (Hsel & x & Hx & Hh).
  unfold handle_connection_confirm, TPKT_HEADER_LEN.
  pose proof (decode_total (T:=TpktHeader) frame Hu) as Ht.
  apply good_bind_dec; [by intros Ep; rewrite Ep in Ht|done|]. intros t Et.
  pose proof (tpkt_decode_len frame t Et) as Hl.
  apply good_bind_dec; [by rewrite slice_ok by lia|done|]. intros body Eb.
  rewrite slice_ok in Eb by lia. injection Eb as <-.
  apply good_bind_dec; [apply decode_cc_safe; auto with width|done|]. intros cc _.
  destruct (cc_negotiation cc) as [[r|f]|]; [|done|].
  - change ((modify ?g ≫= ?f) c) with (f tt (g c)). cbv beta.
    destruct (Z.eqb_spec (negrsp_selected_protocol r) PROTOCOL_RDP) as [Ep|Ep]; cbn [negb].
    + eapply send_connect_initial_good; [|done|].
      * split; [done|]. cbn. rewrite E. split; [done|]. by exists x.
      * cbn. unfold tls_part. rewrite Ep. done.
    + split; [done|]. cbn. split; [done|]. exists x. by rewrite Hh.
  - eapply send_connect_initial_good; [done|done|]. unfold tls_part. rewrite Hsel. done.
Qed.

Lemma mcs_payload_safe frame : Forall u8 frame → mcs_payload frame ≠ Panic.
Proof. intros Hu. pose proof (mcs_payload_within frame Hu). by destruct (mcs_payload frame). Qed.

Lemma mcs_payload_u8 frame p : Forall u8 frame → mcs_payload frame = Ok p → Forall u8 p.
Proof. intros Hu E. pose proof (mcs_payload_within frame Hu) as H. rewrite E in H. apply H. Qed.

Lemma response_good cfg h c frame :
  Forall u8 frame → good cfg c h → state c = SentConnectInitial →
  good_result cfg h (handle_connect_response frame c).
Proof.
  intros Hu Hg E. pose proof Hg as [Hcfg Hs]. rewrite E in Hs. unfold handle_connect_response.
  apply good_bind_dec; [by apply mcs_payload_safe|done|]. intros p Ep. apply mcs_payload_u8 in Ep; [|done].
  pose proof (from_bytes_typed p Ep) as Hr.
  apply good_bind_dec; [by intros Eq; rewrite Eq in Hr|done|]. intros resp Er. rewrite Er in Hr.
  destruct Hr as (_ & _ & Hn). cbn [fst snd] in Hn. case_if; [done|]. cbv zeta.
  change ((modify ?g ≫= ?f) c) with (f tt (g c)). cbv beta.
  rewrite (encode_vec_wire (T:=ErectDomainRequest)) by done.
  change ((enc (Ok ?b) ≫= ?f) ?c) with (f b c). cbv beta. rewrite wrap_mcs_bind.
  rewrite (encode_vec_wire (T:=AttachUserRequest)) by done.
  change ((enc (Ok ?b) ≫= ?f) ?c) with (f b c). cbv beta. rewrite wrap_mcs_bind.
  split; [done|]. cbn. destruct (server_network resp) as [n|]; cbn in *.
  - destruct Hn as (? & ? & Hl). split_and!; [done..|apply Hl|by exists h].
  - split_and!; [by split|constructor|done|by exists h].
Qed.

(** The next join request, when the fields are in range. *)
Lemma send_channel_join_ok c ch :
  integer16_ok 1001 (user_id c) → Forall u16 (join_queue c) →
  0 ≤ join_index c → join_queue c !! Z.to_nat (join_index c) = Some ch →
  send_channel_join c = (Ok [join_output (user_id c) ch], set_state JoiningChannels c).
Proof.
  intros Hu Hq Hi Hch. unfold send_channel_join. change ((get ≫= ?f) c) with (f c c). cbv beta.
  unfold index. replace (0 <=? join_index c) with true by lia. rewrite Hch. cbn [expect].
  change ((pure (Ok ?b) ≫= ?f) ?c) with (f b c). cbv beta zeta.
  assert (u16 ch) as Hc by (by eapply Forall_lookup_1 in Hq).
  rewrite (encode_vec_wire (T:=ChannelJoinRequest)).
  - change ((enc (Ok ?b) ≫= ?f) ?c) with (f b c). cbv beta. by rewrite wrap_mcs_bind.
  - split; [done|]. cbn. split; apply Hc.
Qed.

Lemma ztake_succ {A} (l : list A) i x :
  0 ≤ i → l !! Z.to_nat i = Some x → ztake (i + 1) l = ztake i l ++ [x].
Proof.
  intros Hi Hx. unfold ztake. replace (Z.to_nat (i + 1)) with (S (Z.to_nat i)) by lia.
  by apply take_S_r.
Qed.

Lemma attach_good cfg h c frame :
  Forall u8 frame → good cfg c h → state c = SentErectAttach →
  good_result cfg h (handle_attach_user_confirm frame c).
Proof.
  intros Hu Hg E. pose proof Hg as [Hcfg Hs]. rewrite E in Hs. unfold handle_attach_user_confirm.
  apply good_bind_dec; [by apply mcs_payload_safe|done|]. intros p Ep. apply mcs_payload_u8 in Ep; [|done].
  pose proof (decode_total (T:=AttachUserConfirm) p Ep) as Hr.
  apply good_bind_dec; [by intros Eq; rewrite Eq in Hr|done|]. intros k Ek. rewrite Ek in Hr.
  destruct Hr as [_ Huid]. case_if; [done|].
  change ((modify ?g ≫= ?f) c) with (f tt (g c)). cbv beta.
  change ((get ≫= ?f) ?c) with (f c c). cbv beta zeta.
  change ((modify ?g ≫= ?f) ?c) with (f tt (g c)). cbv beta.
  destruct Hs as (Hio & Hq & Hl & h0 & Hop & Hh). set (u := attach_user_id k) in *.
  assert (u16 u) as Hu16 by (unfold integer16_ok, MCS_USERCHANNEL_BASE, is_uint in *; lia).
  assert (Forall u16 (u :: io_channel c :: join_queue c)) as Hqq by (constructor; [done|by constructor]).
  rewrite (send_channel_join_ok _ u); [|done|exact Hqq|done|done].
  split; [done|]. cbn. split_and!; [exact Huid|exact Hqq|rewrite !len_cons; lia|by eexists|done| |].
  - rewrite !len_cons. pose proof (len_nonneg (join_queue c)). lia.
  - exists h0. split; [done|]. rewrite Hh, <- app_assoc. done.
Qed.

Lemma join_good cfg h c frame :
  Forall u8 frame → good cfg c h → state c = JoiningChannels →
  good_result cfg h (handle_channel_join_confirm frame c).
Proof.
  intros Hu Hg E. pose proof Hg as [Hcfg Hs]. rewrite E in Hs. unfold handle_channel_join_confirm.
  apply good_bind_dec; [by apply mcs_payload_safe|done|]. intros p Ep. apply mcs_payload_u8 in Ep; [|done].
  pose proof (decode_total (T:=ChannelJoinConfirm) p Ep) as Hr.
  apply good_bind_dec; [by intros Eq; rewrite Eq in Hr|done|]. intros k _.
  destruct Hs as (Huid & Hq & Hl & Hv & Hi & h0 & Hop & Hh). case_if; [done|].
  change ((get ≫= ?f) ?c) with (f c c). cbv beta. unfold add_uint.
  replace (join_index c + 1 <? 2 ^ 64) with true by lia.
  change ((pure (Ok ?b) ≫= ?f) ?c) with (f b c). cbv beta.
  change ((modify ?g ≫= ?f) ?c) with (f tt (g c)). cbv beta.
  destruct (Z.ltb_spec (join_index c + 1) (len (join_queue c))) as [Hlt|Hge].
  - destruct (lookup_lt_is_Some_2 (join_queue c) (Z.to_nat (join_index c + 1))) as [ch Hch]; [unfold len in *; lia|].
    rewrite (send_channel_join_ok _ ch); [|done|done|cbn; lia|done].
    split; [done|]. cbn. split_and!; [done..|lia|lia|]. exists h0. split; [done|].
    rewrite (ztake_succ _ (join_index c + 1) ch) by (done || lia).
    rewrite map_app, Hh, <- !app_assoc. done.
  - split; [done|]. cbn. split; [done|]. exists h0. split; [done|].
    rewrite Hh, (ztake_all _ (join_index c + 1)) by lia. by rewrite <- !app_assoc.
Qed.

(** No call with a frame of bytes panics, and each keeps the history. *)
Definition event_ok (e : event) : Prop := match e with EFrame f => Forall u8 f | _ => True end.

Lemma call_good cfg h c e : event_ok e → good cfg c h → good_result cfg h (call e c).
Proof.
  intros He Hg. destruct e as [| |f]; cbn [call]; [by apply start_good|by apply resume_good|].
  unfold step. change ((get ≫= ?k) c) with (k c c). cbv beta.
  destruct (state c) eqn:E; try exact Hg.
  - by apply confirm_good.
  - by apply response_good.
  - by apply attach_good.
  - by apply join_good.
Qed.

Lemma runs_good cfg es h c : Forall event_ok es → runs cfg es h c → good cfg c h.
Proof.
  intros He Hr. induction Hr as [|es h c e o c' _ IH Hc|es h c e err c' _ IH Hc].
  - split; done.
  - apply Forall_app in He as [He1 He2]. inversion He2; subst.
    pose proof (call_good cfg h c e ltac:(done) (IH He1)) as Hg. by rewrite Hc in Hg.
  - apply Forall_app in He as [He1 He2]. inversion He2; subst.
    pose proof (call_good cfg h c e ltac:(done) (IH He1)) as Hg. by rewrite Hc in Hg.
Qed.

(** ** A server that goes along *)

(** The server's side of a run: the protocol it selects, the user id it hands
    out, its data blocks. *)
Record server : Type := mkServer {
  srv_protocol : Z;
  srv_user : Z;
  srv_core : ServerCoreData;
  srv_net : ServerNetworkData;
  srv_cci : list Z;
  srv_dp : list Z;
  srv_prefix : list Z
}.

Definition srv_confirm (s : server) : ConnectionConfirm :=
  mkConnectionConfirm (Some (Response (mkNegotiationResponse 0 (srv_protocol s)))).
Definition confirm_frame (s : server) : list Z :=
  TpktHeader_wire (mkTpktHeader (4 + len (ConnectionConfirm_wire (srv_confirm s)))) ++
  ConnectionConfirm_wire (srv_confirm s).
Definition srv_blocks (s : server) : list Z :=
  ServerCoreData_wire (srv_core s) ++ sc_net_wire (ServerNetworkData_size (srv_net s)) (srv_net s).
Definition srv_response (s : server) : list Z :=
  response_wire 0 (srv_cci s) (srv_dp s) (gcc_response (srv_prefix s) (srv_blocks s)).
Definition attach_frame (s : server) : list Z :=
  mcs_frame (AttachUserConfirm_wire (mkAttachUserConfirm 0 (srv_user s))).
Definition join_frame (s : server) (ch : Z) : list Z :=
  mcs_frame (ChannelJoinConfirm_wire (mkChannelJoinConfirm 0 (srv_user s) ch ch)).

Definition srv_channels (s : server) : list Z :=
  srv_user s :: mcs_channel_id (srv_net s) :: channel_ids (srv_net s).

(** The calls a caller makes with such a server. *)
Definition script (s : server) : list event :=
  [EStart; EFrame (confirm_frame s)] ++ (if srv_protocol s =? PROTOCOL_RDP then [] else [EResume]) ++
  [EFrame (mcs_frame (srv_response s)); EFrame (attach_frame s)] ++
  map (λ ch, EFrame (join_frame s ch)) (srv_channels s).

Definition server_ok (s : server) : Prop :=
  u32 (srv_protocol s) ∧ integer16_ok 1001 (srv_user s) ∧
  ServerCoreData_wf (srv_core s) ∧ ServerNetworkData_wf (srv_net s) ∧
  per_length_ok (len (srv_blocks s)) ∧
  key_free (srv_prefix s) (per_length_wire (len (srv_blocks s)) ++ srv_blocks s) ∧
  len (srv_response s) ≤ 65528.

Definition config_ok (cfg : ConnectorConfig) : Prop :=
  6 + cr_variable_size (request_of cfg) ≤ 255 ∧ ConnectInitial_wf (initial_of cfg) ∧
  len (ci_user_data (initial_of cfg)) + 14 ≤ 0x7FFF.

Lemma start_ok cfg c :
  config_ok cfg → config c = cfg → state c = Initial →
  ∃ x224, encode_vec (request_of cfg) = Ok x224 ∧
          start c = (Ok [request_output x224], set_state SentConnectionRequest c).
Proof.
  intros (Hcr & _) Hc Hs. unfold start. change ((get ≫= ?f) c) with (f c c). cbv beta.
  rewrite bool_decide_true by done. cbn [negb]. cbv zeta. rewrite Hc. fold (request_of cfg).
  assert (len (ConnectionRequest_wire (request_of cfg)) = ConnectionRequest_size (request_of cfg)) as Hl.
  { unfold ConnectionRequest_wire, ConnectionRequest_size, FIXED_HEADER_LEN. rewrite len_app, len_cr_variable.
    change (len (tpdu_header _ _)) with 7. lia. }
  rewrite (encode_vec_writes (request_of cfg) _ (writes_cr _ Hcr)) by (symmetry; exact Hl).
  change ((enc (Ok ?b) ≫= ?f) ?c) with (f b c). cbv beta.
  rewrite (encode_vec_writes (mkTpktHeader _) _ (writes_tpkt _)) by done. eexists. split; done.
Qed.

Lemma send_ci_ok cfg c :
  config_ok cfg → config c = cfg →
  send_connect_initial c = (Ok [mcs_output (ci_wire (initial_of cfg))], set_state SentConnectInitial c).
Proof.
  intros (_ & Hwf & Hl) Hc. unfold send_connect_initial. change ((get ≫= ?f) c) with (f c c). cbv beta zeta.
  rewrite Hc. fold (initial_of cfg). rewrite to_bytes_layout by done.
  change ((enc (Ok ?b) ≫= ?f) ?c) with (f b c). cbv beta. by rewrite wrap_mcs_bind.
Qed.

Lemma confirm_frame_body s :
  u32 (srv_protocol s) →
  decode (T:=TpktHeader) (confirm_frame s) = Ok (mkTpktHeader 19) ∧
  slice (E:=DecodeError) (confirm_frame s) 4 (len (confirm_frame s)) = Ok (ConnectionConfirm_wire (srv_confirm s)) ∧
  decode (ConnectionConfirm_wire (srv_confirm s)) = Ok (srv_confirm s).
Proof.
  intros Hp. unfold confirm_frame. change (4 + len (ConnectionConfirm_wire (srv_confirm s))) with 19.
  split_and!; [by apply decode_tpkt| |].
  - rewrite <- (app_nil_r (ConnectionConfirm_wire _)). apply slice_mid; [done|].
    rewrite app_nil_r, len_app. change (len (TpktHeader_wire _)) with 4. lia.
  - rewrite <- (app_nil_r (ConnectionConfirm_wire _)). apply decode_reads, reads_cc. split; [|done]. cbn. len_lia.
Qed.

Lemma confirm_ok cfg s c :
  config_ok cfg → server_ok s → config c = cfg →
  handle_connection_confirm (confirm_frame s) c =
  (Ok (if srv_protocol s =? PROTOCOL_RDP then [mcs_output (ci_wire (initial_of cfg))] else [UpgradeToTls]),
   set_state (if srv_protocol s =? PROTOCOL_RDP then SentConnectInitial else NeedTls)
     (set_selected (srv_protocol s) c)).
Proof.
  intros Hcfg (Hp & _) Hc. destruct (confirm_frame_body s Hp) as (H1 & H2 & H3).
  unfold handle_connection_confirm. rewrite H1. change ((dec (Ok ?b) ≫= ?f) ?c) with (f b c). cbv beta.
  unfold TPKT_HEADER_LEN. rewrite H2. change ((dec (Ok ?b) ≫= ?f) ?c) with (f b c). cbv beta.
  rewrite H3. change ((dec (Ok ?b) ≫= ?f) ?c) with (f b c). cbv beta. cbn [srv_confirm cc_negotiation negrsp_selected_protocol].
  change ((modify ?g ≫= ?f) c) with (f tt (g c)). cbv beta.
  destruct (srv_protocol s =? PROTOCOL_RDP); cbn [negb]; [|done].
  exact (send_ci_ok cfg (set_selected (srv_protocol s) c) Hcfg Hc).
Qed.

Lemma response_parsed s :
  server_ok s →
  from_bytes (srv_response s) = Ok (mkConnectResponse 0 (Some (srv_core s)) (Some (srv_net s))).
Proof.
  intros (_ & _ & Hc & Hn & Hp & Hk & Hl). destruct (collect_core_net _ _ Hc Hn) as (b1 & b2 & Hok & E1 & E2 & Hcol).
  assert (srv_blocks s = concat (map block_wire [b1; b2]) ++ []) as Eb.
  { unfold srv_blocks. cbn [map concat]. by rewrite E1, E2, !app_nil_r. }
  rewrite <- (app_nil_r (srv_response s)). unfold srv_response. rewrite Eb in *.
  rewrite from_bytes_layout; [by rewrite Hcol|done|done|done|done|].
  unfold srv_response, response_wire in Hl. rewrite Eb in Hl. rewrite !len_app in Hl.
  pose proof (len_nonneg (ber_length_wire (len (response_body 0 (srv_cci s) (srv_dp s)
    (gcc_response (srv_prefix s) (concat (map block_wire [b1; b2]) ++ [])))))).
  change (len [127]) with 1 in Hl. change (len [102]) with 1 in Hl.
  pose proof (len_nonneg (response_body 0 (srv_cci s) (srv_dp s)
    (gcc_response (srv_prefix s) (concat (map block_wire [b1; b2]) ++ [])))).
  unfold is_uint. simpl_pow. lia.
Qed.

Lemma mcs_payload_exact payload : len payload ≤ 65528 → mcs_payload (mcs_frame payload) = Ok payload.
Proof. intros. rewrite <- (app_nil_r (mcs_frame payload)). by apply mcs_payload_of_frame. Qed.

Lemma response_ok s c :
  server_ok s →
  handle_connect_response (mcs_frame (srv_response s)) c =
  (Ok erect_attach, set_state SentErectAttach (set_channels (mcs_channel_id (srv_net s)) (channel_ids (srv_net s)) c)).
Proof.
  intros Hs. pose proof Hs as (_ & _ & _ & _ & _ & _ & Hl). unfold handle_connect_response.
  rewrite mcs_payload_exact by done. change ((dec (Ok ?b) ≫= ?f) ?c) with (f b c). cbv beta.
  rewrite response_parsed by done. change ((dec (Ok ?b) ≫= ?f) ?c) with (f b c). cbv beta.
  cbn [cr_result Z.eqb negb server_network from_option]. cbv zeta.
  change ((modify ?g ≫= ?f) c) with (f tt (g c)). cbv beta.
  rewrite (encode_vec_wire (T:=ErectDomainRequest)) by done.
  change ((enc (Ok ?b) ≫= ?f) ?c) with (f b c). cbv beta. rewrite wrap_mcs_bind.
  rewrite (encode_vec_wire (T:=AttachUserRequest)) by done.
  change ((enc (Ok ?b) ≫= ?f) ?c) with (f b c). cbv beta. by rewrite wrap_mcs_bind.
Qed.

(** The state while channels are joined, [i] confirmed so far. *)
Definition joining (s : server) (c : ClientConnector) (i : Z) : ClientConnector :=
  mkConnector (config c) JoiningChannels (selected_protocol c) (srv_user s) (mcs_channel_id (srv_net s))
    (srv_channels s) i.

Lemma srv_channels_u16 s : server_ok s → Forall u16 (srv_channels s).
Proof.
  intros (_ & Hu & _ & (Hi & Hids & _) & _). constructor; [|by constructor].
  unfold integer16_ok, is_uint in *. lia.
Qed.

Lemma attach_ok s c :
  server_ok s → io_channel c = mcs_channel_id (srv_net s) → join_queue c = channel_ids (srv_net s) →
  handle_attach_user_confirm (attach_frame s) c = (Ok [join_output (srv_user s) (srv_user s)], joining s c 0).
Proof.
  intros Hs Hio Hq. pose proof (srv_channels_u16 s Hs) as Hch. destruct Hs as (_ & Hu & _).
  unfold handle_attach_user_confirm, attach_frame. rewrite mcs_payload_exact by done.
  change ((dec (Ok ?b) ≫= ?f) ?c) with (f b c). cbv beta.
  assert (AttachUserConfirm_wf (mkAttachUserConfirm 0 (srv_user s))) as Hw by (split; [cbn; len_lia|done]).
  pose proof (decode_wire (T:=AttachUserConfirm) (mkAttachUserConfirm 0 (srv_user s)) [] Hw) as Hd.
  rewrite app_nil_r in Hd. cbn [wire AttachUserConfirm_WireFormat] in Hd. rewrite Hd.
  change ((dec (Ok ?b) ≫= ?f) ?c) with (f b c). cbv beta. cbn [attach_result attach_user_id Z.eqb negb].
  change ((modify ?g ≫= ?f) c) with (f tt (g c)). cbv beta.
  change ((get ≫= ?f) ?c) with (f c c). cbv beta zeta.
  change ((modify ?g ≫= ?f) ?c) with (f tt (g c)). cbv beta.
  cbn [set_user user_id io_channel join_queue]. rewrite Hio, Hq. fold (srv_channels s). cbn [app].
  change (srv_user s :: mcs_channel_id (srv_net s) :: channel_ids (srv_net s)) with (srv_channels s).
  rewrite (send_channel_join_ok _ (srv_user s)); [|done|exact Hch|done|done]. unfold joining. by rewrite <- Hio.
Qed.

Lemma join_ok s c i ch :
  server_ok s → 0 ≤ i → srv_channels s !! Z.to_nat i = Some ch →
  ∃ o, handle_channel_join_confirm (join_frame s ch) (joining s c i) =
       (Ok o, if i + 1 <? len (srv_channels s) then joining s c (i + 1)
              else set_state Connected (joining s c (i + 1))) ∧
       (i + 1 = len (srv_channels s) →
        o = [OutConnected (selected_protocol c) (srv_user s) (mcs_channel_id (srv_net s))]) ∧
       ∀ ch', srv_channels s !! Z.to_nat (i + 1) = Some ch' → o = [join_output (srv_user s) ch'].
Proof.
  intros Hs Hi Hch. pose proof (srv_channels_u16 s Hs) as Hu16.
  assert (u16 ch) as Hc by (by eapply Forall_lookup_1 in Hu16).
  assert (len (srv_channels s) < 2 ^ 17) as Hlen.
  { destruct Hs as (_ & _ & _ & Hn & _). apply sc_net_wf_count in Hn. unfold srv_channels. rewrite !len_cons.
    unfold is_uint in Hn. lia. }
  apply lookup_lt_Some in Hch as Hlt. destruct Hs as (_ & Hu & _).
  unfold handle_channel_join_confirm, join_frame. rewrite mcs_payload_exact by done.
  change ((dec (Ok ?b) ≫= ?f) ?c) with (f b c). cbv beta.
  assert (ChannelJoinConfirm_wf (mkChannelJoinConfirm 0 (srv_user s) ch ch)) as Hw.
  { split_and!; cbn; [len_lia|done|split; apply Hc|split; apply Hc]. }
  pose proof (decode_wire (T:=ChannelJoinConfirm) _ [] Hw) as Hd.
  rewrite app_nil_r in Hd. cbn [wire ChannelJoinConfirm_WireFormat] in Hd. rewrite Hd.
  change ((dec (Ok ?b) ≫= ?f) ?c) with (f b c). cbv beta. cbn [joinconf_result Z.eqb negb].
  change ((get ≫= ?f) ?c) with (f c c). cbv beta. cbn [joining join_index join_queue selected_protocol user_id io_channel].
  unfold add_uint. replace (i + 1 <? 2 ^ 64) with true by (unfold len in *; lia).
  change ((pure (Ok ?b) ≫= ?f) ?c) with (f b c). cbv beta.
  change ((modify ?g ≫= ?f) ?c) with (f tt (g c)). cbv beta.
  destruct (Z.ltb_spec (i + 1) (len (srv_channels s))) as [H|H].
  - destruct (lookup_lt_is_Some_2 (srv_channels s) (Z.to_nat (i + 1))) as [ch' Hch']; [unfold len in *; lia|].
    rewrite (send_channel_join_ok _ ch'); [|done|done|cbn; lia|done]. eexists. split; [done|]. split; [lia|].
    intros ch2 Hch2. by rewrite Hch' in Hch2; injection Hch2 as ->.
  - eexists. split; [done|]. split; [done|]. intros ch2 Hch2. apply lookup_lt_Some in Hch2. unfold len in *. lia.
Qed.

Lemma runs_step cfg es h c e o c' :
  runs cfg es h c → call e c = (Ok o, c') → runs cfg (es ++ [e]) (h ++ o) c'.
Proof. apply runs_ok. Qed.

(** Confirming the channels that are left ends the sequence. *)
Lemma joins_complete cfg s es h c i :
  server_ok s → 0 ≤ i < len (srv_channels s) → runs cfg es h (joining s c i) →
  ∃ h', runs cfg (es ++ map (λ ch, EFrame (join_frame s ch)) (zdrop i (srv_channels s))) h'
          (set_state Connected (joining s c (len (srv_channels s)))) ∧
        last h' = Some (OutConnected (selected_protocol c) (srv_user s) (mcs_channel_id (srv_net s))).
Proof.
  intros Hs Hi Hr. remember (Z.to_nat (len (srv_channels s) - i)) as n eqn:Hn.
  revert es h i Hi Hr Hn. induction n as [|n IH]; intros es h i Hi Hr Hn; [lia|].
  destruct (lookup_lt_is_Some_2 (srv_channels s) (Z.to_nat i)) as [ch Hch]; [unfold len in *; lia|].
  assert (zdrop i (srv_channels s) = ch :: zdrop (i + 1) (srv_channels s)) as ->.
  { unfold zdrop. replace (Z.to_nat (i + 1)) with (S (Z.to_nat i)) by lia. by apply drop_S. }
  destruct (join_ok s c i ch Hs ltac:(lia) Hch) as (o & Ho & Hlast & _). cbn [map].
  change (?a :: ?l) with ([a] ++ l). rewrite app_assoc.
  assert (runs cfg (es ++ [EFrame (join_frame s ch)]) (h ++ o) (if i + 1 <? len (srv_channels s) then joining s c (i + 1)
              else set_state Connected (joining s c (i + 1)))) as Hr' by (eapply runs_step; [exact Hr|exact Ho]).
  destruct (Z.ltb_spec (i + 1) (len (srv_channels s))).
  - apply (IH _ (h ++ o) (i + 1)); [lia|done|lia].
  - assert (i + 1 = len (srv_channels s)) as E by lia. rewrite (zdrop_all _ (i + 1)) by lia. cbn [map]. rewrite app_nil_r.
    rewrite E in Hr'. eexists. split; [exact Hr'|]. rewrite (Hlast E). by rewrite last_app.
Qed.

Lemma script_runs cfg s :
  config_ok cfg → server_ok s →
  ∃ h c, runs cfg (script s) h c ∧ state c = Connected ∧ join_queue c = srv_channels s ∧
         last h = Some (OutConnected (srv_protocol s) (srv_user s) (mcs_channel_id (srv_net s))).
Proof.
  intros Hcfg Hs. pose proof Hs as (_ & _ & _ & Hn & _).
  assert (0 ≤ 0 < len (srv_channels s)) as Hlen
    by (unfold srv_channels; rewrite !len_cons; pose proof (len_nonneg (channel_ids (srv_net s))); lia).
  destruct (start_ok cfg (connector_new cfg) Hcfg eq_refl eq_refl) as (x1 & _ & H1).
  pose proof (runs_step cfg [] [] _ EStart _ _ (runs_new cfg) H1) as R1.
  set (c1 := set_state SentConnectionRequest (connector_new cfg)) in *.
  pose proof (confirm_ok cfg s c1 Hcfg Hs eq_refl) as H2.
  assert (call (EFrame (confirm_frame s)) c1 = _) as C2 by exact H2.
  pose proof (runs_step cfg _ _ _ _ _ _ R1 C2) as R2. clear H2 C2.
  (* whichever protocol, Connect-Initial is out *)
  assert (∃ h3, runs cfg ([EStart; EFrame (confirm_frame s)] ++ (if srv_protocol s =? PROTOCOL_RDP then [] else [EResume]))
            h3 (set_state SentConnectInitial (set_selected (srv_protocol s) c1))) as [h3 R3].
  { destruct (srv_protocol s =? PROTOCOL_RDP) eqn:Ep; [rewrite app_nil_r; eexists; exact R2|].
    set (c2 := set_state NeedTls (set_selected (srv_protocol s) c1)) in *.
    pose proof (send_ci_ok cfg c2 Hcfg eq_refl) as H3. eexists.
    eapply (runs_step cfg _ _ c2 EResume); [exact R2|]. exact H3. }
  set (c3 := set_state SentConnectInitial (set_selected (srv_protocol s) c1)) in *.
  pose proof (response_ok s c3 Hs) as H4.
  assert (call (EFrame (mcs_frame (srv_response s))) c3 = _) as C4 by exact H4.
  pose proof (runs_step cfg _ _ _ _ _ _ R3 C4) as R4.
  set (c4 := set_state SentErectAttach _) in *.
  pose proof (attach_ok s c4 Hs eq_refl eq_refl) as H5.
  assert (call (EFrame (attach_frame s)) c4 = _) as C5 by exact H5.
  pose proof (runs_step cfg _ _ _ _ _ _ R4 C5) as R5.
  destruct (joins_complete cfg s _ _ c4 0 Hs Hlen R5) as (h6 & R6 & Hlast).
  rewrite zdrop_0 in R6. exists h6. eexists. split; [|split; [|split; [|exact Hlast]]].
  - unfold script. rewrite <- !app_assoc in R6. cbn [app] in R6 |- *. exact R6.
  - done.
  - done.
Qed.

(** ** Properties *)


(** With a server that answers (any selected protocol, any user id, any core and network blocks within their ranges), the connector reaches the connected state after one call per server frame plus the start and the TLS resumption, having joined exactly the channels the server named, and ends by reporting the selected protocol, the user channel and the I/O channel. *)
Theorem connector_completes cfg s :
  config_ok cfg → server_ok s →
  ∃ h c, runs cfg (script s) h c ∧ state c = Connected ∧ join_queue c = srv_channels s ∧
         last h = Some (OutConnected (srv_protocol s) (srv_user s) (mcs_channel_id (srv_net s))).
Proof. apply script_runs. Qed.

Definition sample_config : ConnectorConfig :=
  mkConnectorConfig (Some (bytes_of_string "user")) 1 (ci_core sample_ci) (ci_security sample_ci) (ci_network sample_ci).
Definition sample_server : server :=
  mkServer 1 1007 (mkServerCoreData 0x00080004 (Some 1) None) (mkServerNetworkData 1003 [1004]) [0] []
    [0x00; 0x05; 0x00; 0x14; 0x7C; 0x00; 0x01].

Lemma sample_config_ok : config_ok sample_config.
Proof. split; [vm_compute; congruence|]. split; [exact sample_ci_wf|vm_compute; congruence]. Qed.

Lemma sample_server_ok : server_ok sample_server.
Proof.
  split; [split; vm_compute; congruence|]. split; [split; vm_compute; congruence|].
  split; [split_and!; cbn; (done || split; vm_compute; congruence)|].
  split; [split_and!; [split; vm_compute; congruence|constructor; [split; vm_compute; congruence|constructor]|reflexivity]|].
  split; [split; vm_compute; congruence|].
  split; [|vm_compute; congruence].
  intros i Hi. change (len (srv_prefix sample_server)) with 7 in Hi.
  assert (i = 0 ∨ i = 1 ∨ i = 2 ∨ i = 3 ∨ i = 4 ∨ i = 5 ∨ i = 6)
    as [->|[->|[->|[->|[->|[->| ->]]]]]] by lia; vm_compute; discriminate.
Qed.

Lemma connector_completes_witness :
  ∃ h c, runs sample_config (script sample_server) h c ∧ state c = Connected ∧
         join_queue c = [1007; 1003; 1004] ∧ last h = Some (OutConnected 1 1007 1003).
Proof. exact (connector_completes sample_config sample_server sample_config_ok sample_server_ok). Defined.

