(* ===== verification/RdpIo.v ===== *)
(** * The connection driver

    [crates/oxrdp-io/src/frame.rs] and [connect.rs]: reading and writing whole
    TPKT frames on a stream, and [connect], which drives the connector over a
    socket, upgrades it to TLS when told to, and returns the session.

    The socket is the bytes the peer will send, followed by its end; writing
    succeeds for a given number of frames and fails from then on.  TLS is a
    parameter: what the peer says inside the tunnel, or a failure. *)

From S2P Require Import Prelude Cursor Wire Ber RdpFrame RdpMcs RdpConnect RdpGcc RdpConference RdpConnector.

Inductive IoError : Type :=
| UnexpectedEof
| InvalidData
| Unsupported
| InvalidInput
| TlsFailed
| WriteFailed.

(** ** Frames on a stream ([frame.rs]) *)

(** [read_exact]: that many bytes, or the end of the stream. *)
Definition read_exact (n : Z) (input : list Z) : outcome IoError (list Z * list Z) :=
  if len input <? n then Err UnexpectedEof else Ok (ztake n input, zdrop n input).

Definition read_frame (input : list Z) : outcome IoError (list Z * list Z) :=
  hr ← read_exact TPKT_HEADER_LEN input;
  tpkt ← map_err (λ _, InvalidData) (decode (T:=TpktHeader) (fst hr));
  let total := tpkt_length tpkt in
  if total <? TPKT_HEADER_LEN then Err InvalidData
  else
    rest ← sub_uint total TPKT_HEADER_LEN;
    br ← read_exact rest (snd hr);
    Ok (fst hr ++ fst br, snd br).

(** What has been written where, and how many more frames the socket takes. *)
Record wire_log : Type := mkLog {
  plain_out : list (list Z);
  tls_out : list (list Z);
  room : nat
}.

Definition write_plain (bytes : list Z) (w : wire_log) : outcome IoError wire_log :=
  match room w with
  | O => Err WriteFailed
  | S r => Ok (mkLog (plain_out w ++ [bytes]) (tls_out w) r)
  end.
Definition write_tls (bytes : list Z) (w : wire_log) : outcome IoError wire_log :=
  match room w with
  | O => Err WriteFailed
  | S r => Ok (mkLog (plain_out w) (tls_out w ++ [bytes]) r)
  end.

(** ** [connect] *)

Record Session : Type := mkSession {
  ses_selected_protocol : Z;
  ses_user_channel : Z;
  ses_io_channel : Z
}.

(** [for out in connector.start()? { if let SendData(bytes) = out { .. } }].
    The log is returned with an error too: a write cannot be taken back. *)
Fixpoint send_start (outs : list CoreOutput) (w : wire_log) : outcome IoError unit * wire_log :=
  match outs with
  | [] => (Ok tt, w)
  | SendData bytes :: outs =>
    match write_plain bytes w with
    | Ok w => send_start outs w
    | Err e => (Err e, w)
    | Panic => (Panic, w)
    end
  | _ :: outs => send_start outs w
  end.

(** The outputs of the negotiation step: whether to upgrade. *)
Fixpoint send_confirm (outs : list CoreOutput) (upgrade : bool) (w : wire_log) : outcome IoError bool * wire_log :=
  match outs with
  | [] => (Ok upgrade, w)
  | UpgradeToTls :: outs => send_confirm outs true w
  | SendData bytes :: outs =>
    match write_plain bytes w with
    | Ok w => send_confirm outs upgrade w
    | Err e => (Err e, w)
    | Panic => (Panic, w)
    end
  | OutConnected _ _ _ :: outs => send_confirm outs upgrade w
  end.

(** [for out in outputs.drain(..)]: a session ends the loop. *)
Fixpoint send_outputs (outs : list CoreOutput) (w : wire_log) : outcome IoError (option Session) * wire_log :=
  match outs with
  | [] => (Ok None, w)
  | SendData bytes :: outs =>
    match write_tls bytes w with
    | Ok w => send_outputs outs w
    | Err e => (Err e, w)
    | Panic => (Panic, w)
    end
  | UpgradeToTls :: _ => (Err InvalidData, w)
  | OutConnected p u io :: _ => (Ok (Some (mkSession p u io)), w)
  end.

(** A connector's error becomes the I/O error [InvalidData] ([core_err]). *)

(** The [loop]: send, then read a frame and step.  Every iteration reads at
    least the four bytes of a header, so that one more iteration than there are
    bytes is never used up ([connect_loop_fuel]). *)
Fixpoint connect_loop (fuel : nat) (outs : list CoreOutput) (c : ClientConnector) (input : list Z) (w : wire_log) :
    outcome IoError Session * wire_log :=
  match fuel with
  | O => (Panic, w)
  | S fuel =>
    match send_outputs outs w with
    | (Ok (Some s), w) => (Ok s, w)
    | (Ok None, w) =>
      match read_frame input with
      | Ok (frame, rest) =>
        match step frame c with
        | (Ok outs, c) => connect_loop fuel outs c rest w
        | (Err _, _) => (Err InvalidData, w)
        | (Panic, _) => (Panic, w)
        end
      | Err e => (Err e, w)
      | Panic => (Panic, w)
      end
    | (Err e, w) => (Err e, w)
    | (Panic, w) => (Panic, w)
    end
  end.

Section Connect.

(** The third-party calls: does the name parse as a server name, and what the
    tunnel over the rest of the plain stream yields. *)
Variable server_name_ok : bool.
Variable tls_connect : list Z → option (list Z).

(** The result, and what was written. *)
Definition connect (cfg : ConnectorConfig) (input : list Z) (room : nat) : outcome IoError Session * wire_log :=
  let w0 := mkLog [] [] room in
  match start (connector_new cfg) with
  | (Err _, _) => (Err InvalidData, w0)
  | (Panic, _) => (Panic, w0)
  | (Ok outs, c) =>
    match send_start outs w0 with
    | (Err e, w) => (Err e, w)
    | (Panic, w) => (Panic, w)
    | (Ok _, w) =>
      match read_frame input with
      | Err e => (Err e, w)
      | Panic => (Panic, w)
      | Ok (cc, rest) =>
        match step cc c with
        | (Err _, _) => (Err InvalidData, w)
        | (Panic, _) => (Panic, w)
        | (Ok outs, c) =>
          match send_confirm outs false w with
          | (Err e, w) => (Err e, w)
          | (Panic, w) => (Panic, w)
          | (Ok upgrade, w) =>
            if negb upgrade then (Err Unsupported, w)
            else if negb server_name_ok then (Err InvalidInput, w)
            else
              match tls_connect rest with
              | None => (Err TlsFailed, w)
              | Some tunnel =>
                match resume_after_tls c with
                | (Err _, _) => (Err InvalidData, w)
                | (Panic, _) => (Panic, w)
                | (Ok outs, c) => connect_loop (S (length tunnel)) outs c tunnel w
                end
              end
          end
        end
      end
    end
  end.

End Connect.

(** ** Lemmas on frames *)

(** A whole frame: a TPKT header that announces exactly its bytes. *)
Definition frame_ok (f : list Z) : Prop :=
  7 ≤ len f < 2 ^ 16 ∧ ∃ body, f = TpktHeader_wire (mkTpktHeader (len f)) ++ body.

Lemma read_frame_ok f rest : frame_ok f → read_frame (f ++ rest) = Ok (f, rest).
Proof.
  intros (Hl & body & Ef). assert (len f = 4 + len body) as Hb.
  { rewrite Ef at 1. rewrite len_app. change (len (TpktHeader_wire _)) with 4. done. }
  pose proof (len_nonneg rest). pose proof (len_nonneg body). unfold read_frame, read_exact, TPKT_HEADER_LEN.
  rewrite len_app. replace (len f + len rest <? 4) with false by lia. cbn [mbind outcome_bind fst snd].
  set (hd := TpktHeader_wire (mkTpktHeader (len f))) in *. assert (len hd = 4) as H4 by done.
  assert (ztake 4 (f ++ rest) = hd) as ->
    by (rewrite Ef, <- app_assoc; by apply ztake_app_len).
  assert (zdrop 4 (f ++ rest) = body ++ rest) as ->
    by (rewrite Ef, <- app_assoc; by apply zdrop_app_len).
  assert (decode hd = Ok (mkTpktHeader (len f))) as ->.
  { rewrite <- (app_nil_r hd). unfold hd. apply decode_tpkt; [unfold is_uint; lia|lia]. }
  cbn [map_err mbind outcome_bind tpkt_length]. replace (len f <? 4) with false by lia.
  unfold sub_uint. replace (4 <=? len f) with true by lia. cbn [mbind outcome_bind].
  rewrite len_app. replace (len body + len rest <? len f - 4) with false by lia. cbn [mbind outcome_bind fst snd].
  replace (len f - 4) with (len body) by lia. rewrite ztake_app_len, zdrop_app_len by done. by rewrite <- Ef.
Qed.

(** What is read is what was next on the stream. *)
Lemma read_frame_inv input :
  Forall u8 input →
  match read_frame input with
  | Ok (f, rest) => input = f ++ rest ∧ 4 ≤ len f
  | Err _ => True
  | Panic => False
  end.
Proof.
  intros Hu. unfold read_frame, read_exact, TPKT_HEADER_LEN.
  destruct (Z.ltb_spec (len input) 4); cbn [mbind outcome_bind]; [done|]. cbn [fst snd].
  pose proof (decode_total (T:=TpktHeader) (ztake 4 input) ltac:(auto with width)) as Ht.
  destruct (decode (T:=TpktHeader) (ztake 4 input)) as [t|e|]; cbn [map_err mbind outcome_bind]; [|done..].
  destruct Ht as [_ H4]. unfold TPKT_HEADER_LEN in H4. replace (tpkt_length t <? 4) with false by lia.
  unfold sub_uint. replace (4 <=? tpkt_length t) with true by lia. cbn [mbind outcome_bind].
  rewrite len_zdrop by lia. destruct (Z.ltb_spec (len input - 4) (tpkt_length t - 4)); cbn [mbind outcome_bind]; [done|].
  cbn [fst snd]. split.
  - by rewrite <- app_assoc, ztake_zdrop, ztake_zdrop.
  - rewrite len_app, len_ztake, len_ztake; [lia|rewrite len_zdrop by lia; lia|lia].
Qed.

Lemma mcs_frame_ok payload : len payload ≤ 65528 → frame_ok (mcs_frame payload).
Proof.
  intros Hl. pose proof (len_nonneg payload). unfold frame_ok. rewrite len_mcs_frame.
  split; [change (2 ^ 16) with 65536; lia|]. unfold mcs_frame.
  rewrite as_uint_id by (unfold is_uint; simpl_pow; lia). by eexists.
Qed.

Lemma confirm_frame_ok s : frame_ok (confirm_frame s).
Proof.
  unfold frame_ok, confirm_frame. change (4 + len (ConnectionConfirm_wire (srv_confirm s))) with 19.
  rewrite len_app. change (len (TpktHeader_wire _)) with 4. change (len (ConnectionConfirm_wire (srv_confirm s))) with 15.
  split; [lia|]. by eexists.
Qed.

(** ** Lemmas on the steps of [connect] *)

(** The negotiation step either asks for TLS and sends nothing, or sends
    Connect-Initial. *)
Lemma confirm_outcomes cfg c frame o c' :
  config c = cfg → handle_connection_confirm frame c = (Ok o, c') →
  (o = [UpgradeToTls] ∧ state c' = NeedTls) ∨
  (∃ ci, to_bytes (initial_of cfg) = Ok ci ∧ o = [mcs_output ci] ∧ state c' = SentConnectInitial).
Proof.
  intros Hc.
  assert (∀ c1, config c1 = cfg → send_connect_initial c1 = (Ok o, c') →
    ∃ ci, to_bytes (initial_of cfg) = Ok ci ∧ o = [mcs_output ci] ∧ state c' = SentConnectInitial) as Hci.
  { intros c1 Hc1. unfold send_connect_initial. change ((get ≫= ?f) c1) with (f c1 c1). cbv beta zeta. rewrite Hc1.
    fold (initial_of cfg). unfold mbind at 1, conn_bind at 1, enc at 1.
    destruct (to_bytes (initial_of cfg)) as [ci|e|]; cbn [map_err]; [|done..]. rewrite wrap_mcs_bind.
    intros [= <- <-]. by exists ci. }
  unfold handle_connection_confirm, mbind at 1, conn_bind at 1, dec at 1.
  destruct (decode (T:=TpktHeader) frame); cbn [map_err]; [|done..].
  unfold mbind at 1, conn_bind at 1, dec at 1. destruct (slice _ _ _) as [body|e|]; cbn [map_err]; [|done..].
  unfold mbind at 1, conn_bind at 1, dec at 1. destruct (decode (T:=ConnectionConfirm) body) as [cc|e|]; cbn [map_err]; [|done..].
  destruct (cc_negotiation cc) as [[r|f]|]; [|done|intros E; right; by apply (Hci c)].
  change ((modify ?g ≫= ?f) c) with (f tt (g c)). cbv beta. case_if.
  - intros [= <- <-]. by left.
  - intros E. right. by apply (Hci (set_selected (negrsp_selected_protocol r) c)).
Qed.

Lemma start_outcome cfg o c :
  start (connector_new cfg) = (Ok o, c) →
  ∃ x224, encode_vec (request_of cfg) = Ok x224 ∧ o = [request_output x224] ∧
          c = set_state SentConnectionRequest (connector_new cfg).
Proof.
  unfold start. change ((get ≫= ?f) ?c) with (f c c). cbv beta. cbn [bool_decide negb]. cbv zeta.
  cbn [connector_new state config]. rewrite bool_decide_true by done. cbn [negb]. fold (request_of cfg).
  unfold mbind at 1, conn_bind at 1, enc at 1.
  destruct (encode_vec (request_of cfg)) as [x|e|]; cbn [map_err]; [|done..].
  rewrite (encode_vec_writes (mkTpktHeader _) _ (writes_tpkt _)) by done.
  intros [= <- <-]. by exists x.
Qed.

(** The frames among the outputs. *)
Definition frames (h : list CoreOutput) : list (list Z) :=
  omap (λ o, match o with SendData b => Some b | _ => None end) h.

Lemma frames_app h1 h2 : frames (h1 ++ h2) = frames h1 ++ frames h2.
Proof. apply omap_app. Qed.

(** In a history that holds the connected notice or the TLS upgrade, these say
    what the state holds. *)
Lemma tls_part_in p : UpgradeToTls ∈ tls_part p → p ≠ PROTOCOL_RDP.
Proof. unfold tls_part. destruct (Z.eqb_spec p PROTOCOL_RDP); [|done]. by intros ?%elem_of_nil. Qed.

Lemma opening_upgrade cfg p h : opening cfg p h → UpgradeToTls ∈ h → p ≠ PROTOCOL_RDP.
Proof.
  intros (x & ci & _ & _ & ->) [E|Hin]%elem_of_cons; [done|].
  apply elem_of_app in Hin as [Hin|Hin]; [by apply tls_part_in|]. by apply list_elem_of_singleton in Hin.
Qed.

Lemma not_in_joins u l : UpgradeToTls ∉ map (join_output u) l.
Proof. induction l as [|x l IH]; cbn; [apply not_elem_of_nil|]. by intros [?|?]%elem_of_cons. Qed.

Lemma good_upgrade cfg c h : good cfg c h → UpgradeToTls ∈ h → selected_protocol c ≠ PROTOCOL_RDP.
Proof.
  intros [_ Hg] Hin. destruct (state c).
  - destruct Hg as [_ ->]. by apply elem_of_nil in Hin.
  - destruct Hg as (_ & x & _ & ->). by apply list_elem_of_singleton in Hin.
  - apply Hg.
  - by eapply opening_upgrade.
  - destruct Hg as (_ & _ & _ & h0 & Ho & ->). apply elem_of_app in Hin as [Hin|Hin]; [by eapply opening_upgrade|].
    apply elem_of_cons in Hin as [?|Hin]; [done|]. by apply list_elem_of_singleton in Hin.
  - destruct Hg as (_ & _ & _ & _ & _ & h0 & Ho & ->). rewrite !elem_of_app in Hin.
    destruct Hin as [Hin|[Hin|Hin]]; [by eapply opening_upgrade| |by apply not_in_joins in Hin].
    apply elem_of_cons in Hin as [?|Hin]; [done|]. by apply list_elem_of_singleton in Hin.
  - destruct Hg as (_ & h0 & Ho & ->). rewrite !elem_of_app in Hin.
    destruct Hin as [Hin|[Hin|[Hin|Hin]]]; [by eapply opening_upgrade| |by apply not_in_joins in Hin|].
    + apply elem_of_cons in Hin as [?|Hin]; [done|]. by apply list_elem_of_singleton in Hin.
    + by apply list_elem_of_singleton in Hin.
Qed.

(** No connected notice before the end. *)
Definition notice (o : CoreOutput) : bool := match o with OutConnected _ _ _ => true | _ => false end.

Lemma opening_quiet cfg p h : opening cfg p h → forallb (λ o, negb (notice o)) h = true.
Proof. intros (x & ci & _ & _ & ->). cbn. rewrite forallb_app. unfold tls_part. by destruct (p =? PROTOCOL_RDP). Qed.

Lemma joins_quiet u l : forallb (λ o, negb (notice o)) (map (join_output u) l) = true.
Proof. by induction l. Qed.

Lemma good_notice cfg c h :
  good cfg c h →
  forallb (λ o, negb (notice o)) h = true ∨
  ∃ h', h = h' ++ [OutConnected (selected_protocol c) (user_id c) (io_channel c)] ∧
        forallb (λ o, negb (notice o)) h' = true ∧ state c = Connected.
Proof.
  intros [_ Hg]. destruct (state c) eqn:E; [left..|right].
  - by destruct Hg as [_ ->].
  - by destruct Hg as (_ & x & _ & ->).
  - by destruct Hg as (_ & x & _ & ->).
  - by eapply opening_quiet.
  - destruct Hg as (_ & _ & _ & h0 & Ho & ->). rewrite forallb_app. by rewrite (opening_quiet _ _ _ Ho).
  - destruct Hg as (_ & _ & _ & _ & _ & h0 & Ho & ->).
    by rewrite !forallb_app, (opening_quiet _ _ _ Ho), joins_quiet.
  - destruct Hg as (_ & h0 & Ho & ->).
    exists (h0 ++ erect_attach ++ map (join_output (user_id c)) (join_queue c)). split; [by rewrite <- !app_assoc|].
    split; [|done]. by rewrite !forallb_app, (opening_quiet _ _ _ Ho), joins_quiet.
Qed.

Lemma send_outputs_spec outs w :
  match send_outputs outs w with
  | (r, w') =>
    r ≠ Panic ∧ plain_out w' = plain_out w ∧
    (r = Ok None → tls_out w' = tls_out w ++ frames outs) ∧
    ∀ s, r = Ok (Some s) →
      ∃ o1 o2, outs = o1 ++ OutConnected (ses_selected_protocol s) (ses_user_channel s) (ses_io_channel s) :: o2 ∧
               tls_out w' = tls_out w ++ frames o1
  end.
Proof.
  revert w. induction outs as [|o outs IH]; intros w; cbn [send_outputs].
  { split_and!; [done|done| |done]. by rewrite app_nil_r. }
  destruct o as [b| |p u io].
  - unfold write_tls. destruct (room w) as [|r]; [done|]. specialize (IH (mkLog (plain_out w) (tls_out w ++ [b]) r)).
    destruct (send_outputs outs _) as [res w']. destruct IH as (Hp & Hpl & Hn & Hs). cbn [plain_out tls_out] in *.
    split_and!; [done|done| |].
    + intros E. rewrite (Hn E), <- app_assoc. done.
    + intros s E. destruct (Hs s E) as (o1 & o2 & -> & ->). exists (SendData b :: o1), o2. by rewrite <- app_assoc.
  - done.
  - split_and!; [done|done|done|]. intros s [= <-]. exists [], outs. cbn. by rewrite app_nil_r.
Qed.

(** What a finished run has sent inside the tunnel. *)
Definition tunnel_frames (ci : list Z) (u io : Z) (vids : list Z) : list (list Z) :=
  mcs_frame ci :: frames erect_attach ++ frames (map (join_output u) (u :: io :: vids)).

Definition tunnelled (cfg : ConnectorConfig) (s : Session) (w : wire_log) : Prop :=
  ses_selected_protocol s ≠ PROTOCOL_RDP ∧
  ∃ ci vids, to_bytes (initial_of cfg) = Ok ci ∧
             tls_out w = tunnel_frames ci (ses_user_channel s) (ses_io_channel s) vids.

(** The last outputs, when they hold the notice. *)
Lemma finished_run cfg c h1 outs o1 o2 cr tls p u io :
  good cfg c (h1 ++ outs) → UpgradeToTls ∈ h1 → frames h1 = cr :: tls →
  outs = o1 ++ OutConnected p u io :: o2 →
  p ≠ PROTOCOL_RDP ∧ ∃ ci vids, to_bytes (initial_of cfg) = Ok ci ∧ tls ++ frames o1 = tunnel_frames ci u io vids.
Proof.
  intros Hg Hup Hf ->. assert (UpgradeToTls ∈ h1 ++ o1 ++ OutConnected p u io :: o2) as Hin by (apply elem_of_app; by left).
  pose proof (good_upgrade _ _ _ Hg Hin) as Hp. destruct (good_notice _ _ _ Hg) as [Hq|(h' & E & Hq & Es)].
  { rewrite !forallb_app in Hq. cbn in Hq. by rewrite !andb_false_r in Hq. }
  rewrite app_assoc in E. change (OutConnected p u io :: o2) with ([OutConnected p u io] ++ o2) in E.
  assert (o2 = [] ∧ OutConnected p u io = OutConnected (selected_protocol c) (user_id c) (io_channel c) ∧ h' = h1 ++ o1)
    as (-> & Eo & ->).
  { destruct o2 as [|o2 l _] using rev_ind.
    - rewrite app_nil_r in E. apply app_inj_tail in E as [E1 E2]. by subst.
    - rewrite !app_assoc in E. apply app_inj_tail in E as [<- _]. rewrite !forallb_app in Hq. cbn in Hq.
      by rewrite !andb_false_r in Hq. }
  injection Eo as -> -> ->. destruct Hg as [_ Hg]. rewrite Es in Hg. destruct Hg as ((vids & Hv) & h0 & (x & ci & _ & Hci & ->) & Eh).
  split; [done|]. exists ci, vids. split; [done|].
  apply (f_equal frames) in Eh. rewrite !frames_app, Hf, Hv in Eh.
  replace (frames (request_output x :: tls_part (selected_protocol c) ++ [mcs_output ci]))
    with ((TpktHeader_wire (mkTpktHeader (as_uint 16 (4 + len x))) ++ x) :: [mcs_frame ci]) in Eh.
  2: { unfold tls_part. by destruct (selected_protocol c =? PROTOCOL_RDP). }
  change (frames [OutConnected _ _ _]) with (@nil (list Z)) in Eh. cbn [app] in Eh. rewrite !app_nil_r in Eh.
  injection Eh as _ Eh. exact Eh.
Qed.

Lemma connect_loop_spec cfg fuel outs c input w h1 cr :
  Forall u8 input → (length input < fuel)%nat → good cfg c (h1 ++ outs) → UpgradeToTls ∈ h1 →
  frames h1 = cr :: tls_out w →
  match connect_loop fuel outs c input w with
  | (r, w') => r ≠ Panic ∧ plain_out w' = plain_out w ∧ ∀ s, r = Ok s → tunnelled cfg s w'
  end.
Proof.
  revert outs c input w h1. induction fuel as [|fuel IH]; intros outs c input w h1 Hu Hf Hg Hup Hfr; [lia|].
  cbn [connect_loop]. pose proof (send_outputs_spec outs w) as Hs.
  destruct (send_outputs outs w) as [[[s|]|e|] w']; destruct Hs as (Hp & Hpl & Hn & Hsome); [| |done..].
  - destruct (Hsome s eq_refl) as (o1 & o2 & Eo & Et). split_and!; [done|done|]. intros ? [= <-].
    destruct (finished_run _ _ _ _ _ _ _ _ _ _ _ Hg Hup Hfr Eo) as (Hsel & ci & vids & Hci & Htls).
    split; [done|]. exists ci, vids. split; [done|]. by rewrite Et.
  - pose proof (read_frame_inv input Hu) as Hr. destruct (read_frame input) as [[f rest]|e|]; [|done..].
    destruct Hr as [-> H4]. apply Forall_app in Hu as [Huf Hur].
    pose proof (call_good cfg (h1 ++ outs) c (EFrame f) Huf Hg) as Hc. cbn [call] in Hc.
    destruct (step f c) as [[outs'|e|] c']; [|done..]. cbn [good_result] in Hc.
    specialize (IH outs' c' rest w' (h1 ++ outs) Hur). rewrite Hpl in IH. apply IH.
    + rewrite length_app in Hf. unfold len in H4. lia.
    + exact Hc.
    + apply elem_of_app. by left.
    + rewrite frames_app, Hfr, (Hn eq_refl). done.
Qed.

(** More iterations than bytes change nothing. *)
Lemma connect_loop_fuel f1 f2 outs c input w :
  Forall u8 input → (length input < f1)%nat → (length input < f2)%nat →
  connect_loop f1 outs c input w = connect_loop f2 outs c input w.
Proof.
  revert f2 outs c input w. induction f1 as [|f1 IH]; intros f2 outs c input w Hu H1 H2; [lia|].
  destruct f2 as [|f2]; [lia|]. cbn [connect_loop]. destruct (send_outputs outs w) as [[[s|]|e|] w']; [done| |done..].
  pose proof (read_frame_inv input Hu) as Hr. destruct (read_frame input) as [[f rest]|e|]; [|done..].
  destruct Hr as [-> H4]. apply Forall_app in Hu as [_ Hur]. destruct (step f c) as [[outs'|e|] c']; [|done..].
  rewrite length_app in H1, H2. unfold len in H4. apply IH; [done|lia..].
Qed.

(** ** [connect] on any input *)

(** What left in the clear: nothing, the connection request, or that and
    Connect-Initial, the last only when the server is turned down. *)
Definition clear_part (cfg : ConnectorConfig) (r : outcome IoError Session) (out : list (list Z)) : Prop :=
  out = [] ∨
  ∃ x224, encode_vec (request_of cfg) = Ok x224 ∧
    (out = frames [request_output x224] ∨
     ∃ ci, to_bytes (initial_of cfg) = Ok ci ∧ r = Err Unsupported ∧
           out = frames [request_output x224; mcs_output ci]).

Lemma connect_spec sn tls cfg input room :
  Forall u8 input → (∀ x t, tls x = Some t → Forall u8 t) →
  match connect sn tls cfg input room with
  | (r, w) =>
    r ≠ Panic ∧ clear_part cfg r (plain_out w) ∧
    ∀ s, r = Ok s → (∃ x224, encode_vec (request_of cfg) = Ok x224 ∧ plain_out w = frames [request_output x224]) ∧
                    tunnelled cfg s w
  end.
Proof.
  intros Hu Ht. unfold connect. cbv zeta.
  assert (good cfg (connector_new cfg) []) as G0 by (split; done).
  pose proof (call_good cfg [] (connector_new cfg) EStart I G0) as G1. cbn [call] in G1.
  destruct (start (connector_new cfg)) as [[o1|e|] c1] eqn:E1; [|split_and!; [done|by left|done]|done].
  destruct (start_outcome _ _ _ E1) as (x & Hx & -> & ->). cbn [good_result app] in G1.
  cbn [send_start request_output]. unfold write_plain. cbn [RdpIo.room]. destruct room as [|rm]; [split_and!; [done|by left|done]|].
  cbn [plain_out tls_out app].
  assert (∀ r, r ≠ Panic → (∀ s, r ≠ Ok s) → ∀ w, plain_out w = frames [request_output x] → r ≠ Panic ∧ clear_part cfg r (plain_out w) ∧
    ∀ s, r = Ok s → (∃ x224, encode_vec (request_of cfg) = Ok x224 ∧ plain_out w = frames [request_output x224]) ∧
                    tunnelled cfg s w) as Hfail.
  { intros r Hr Hr' w Hw. split_and!; [done| |intros s E; by destruct (Hr' s)]. rewrite Hw. right. exists x. split; [done|by left]. }
  pose proof (read_frame_inv input Hu) as Hrf. destruct (read_frame input) as [[cc rest]|e|]; [|by apply Hfail|done].
  destruct Hrf as [-> _]. apply Forall_app in Hu as [Hucc _].
  pose proof (call_good cfg _ _ (EFrame cc) Hucc G1) as G2. cbn [call] in G2.
  unfold step in *. change ((get ≫= ?f) ?c) with (f c c) in *. cbv beta in *. cbn [set_state state] in *.
  destruct (handle_connection_confirm cc _) as [[o2|e|] c2] eqn:E2; [|by apply Hfail|done].
  cbn [good_result] in G2. destruct (confirm_outcomes cfg (set_state SentConnectionRequest (connector_new cfg)) _ _ _ eq_refl E2) as [[-> Es]|(ci & Hci & -> & Es)].
  2: { cbn [send_confirm mcs_output]. unfold write_plain. cbn [RdpIo.room plain_out tls_out]. destruct rm as [|rm]; [by apply Hfail|].
       cbn [negb app]. split_and!; [done| |done]. right. exists x. split; [done|]. right. exists ci. by split_and!. }
  cbn [send_confirm negb]. destruct sn; cbn [negb]; [|by apply Hfail].
  destruct (tls rest) as [tun|] eqn:Etl; [|by apply Hfail].
  pose proof (call_good cfg _ _ EResume I G2) as G3. cbn [call] in G3.
  destruct (resume_after_tls c2) as [[o3|e|] c3]; [|by apply Hfail|done]. cbn [good_result] in G3.
  pose proof (connect_loop_spec cfg (S (length tun)) o3 c3 tun (mkLog (frames [request_output x]) [] rm)
    ([request_output x] ++ [UpgradeToTls]) (TpktHeader_wire (mkTpktHeader (as_uint 16 (4 + len x))) ++ x)
    (Ht _ _ Etl) ltac:(lia) G3 ltac:(apply elem_of_app; right; by left) eq_refl) as Hl.
  change [TpktHeader_wire (mkTpktHeader (as_uint 16 (4 + len x))) ++ x] with (frames [request_output x]).
  destruct (connect_loop _ o3 c3 tun _) as [r w]. destruct Hl as (Hp & Hpl & Hs). cbn [plain_out] in Hpl.
  split_and!; [done| |].
  - right. exists x. split; [done|]. left. by rewrite Hpl.
  - intros s Er. split; [|by apply Hs]. exists x. by rewrite Hpl.
Qed.

(** ** [connect] with a server that answers *)

Lemma good_step_frames s : server_ok s →
  frame_ok (mcs_frame (srv_response s)) ∧ frame_ok (attach_frame s) ∧ ∀ ch, frame_ok (join_frame s ch).
Proof. intros (_ & _ & _ & _ & _ & _ & Hl). split_and!; [by apply mcs_frame_ok|by apply mcs_frame_ok|]. intros. by apply mcs_frame_ok. Qed.

(** What such a server says inside the tunnel. *)
Definition tunnel_input (s : server) : list Z :=
  mcs_frame (srv_response s) ++ attach_frame s ++ concat (map (join_frame s) (srv_channels s)).

(** Outputs that are frames are written, room permitting. *)
Lemma send_outputs_frames bs w :
  (length bs ≤ room w)%nat →
  send_outputs (map SendData bs) w = (Ok None, mkLog (plain_out w) (tls_out w ++ bs) (room w - length bs)).
Proof.
  revert w. induction bs as [|b bs IH]; intros w Hr; cbn [map send_outputs].
  { destruct w. cbn. by rewrite app_nil_r, Nat.sub_0_r. }
  unfold write_tls. destruct (room w) as [|r] eqn:Er; [cbn in Hr; lia|]. rewrite IH by (cbn in *; lia).
  cbn. by rewrite <- app_assoc.
Qed.

(** One round of the loop: the outputs are frames, a whole frame comes in, the
    connector accepts it. *)
Lemma connect_loop_round fuel bs c f rest w o c' :
  (length bs ≤ room w)%nat → frame_ok f → step f c = (Ok o, c') →
  connect_loop (S fuel) (map SendData bs) c (f ++ rest) w =
  connect_loop fuel o c' rest (mkLog (plain_out w) (tls_out w ++ bs) (room w - length bs)).
Proof.
  intros Hr Hf Hs. cbn [connect_loop]. rewrite send_outputs_frames by done. rewrite read_frame_ok by done. by rewrite Hs.
Qed.

Lemma joins_connect fuel s c i b w :
  server_ok s → 0 ≤ i < len (srv_channels s) → (length (srv_channels s) ≤ fuel)%nat →
  (length (srv_channels s) - Z.to_nat i ≤ room w)%nat →
  ∃ w', connect_loop (S fuel) [SendData b] (joining s c i)
          (concat (map (join_frame s) (zdrop i (srv_channels s)))) w =
        (Ok (mkSession (selected_protocol c) (srv_user s) (mcs_channel_id (srv_net s))), w').
Proof.
  intros Hs Hi Hf Hr. destruct (good_step_frames s Hs) as (_ & _ & Hok).
  remember (Z.to_nat (len (srv_channels s) - i)) as n eqn:Hn.
  assert (n ≤ fuel)%nat as Hf' by (unfold len in *; lia). clear Hf.
  revert fuel i b w Hi Hf' Hr Hn. induction n as [|n IH]; intros fuel i b w Hi Hf Hr Hn; [lia|].
  destruct (lookup_lt_is_Some_2 (srv_channels s) (Z.to_nat i)) as [ch Hch]; [unfold len in *; lia|].
  assert (zdrop i (srv_channels s) = ch :: zdrop (i + 1) (srv_channels s)) as ->.
  { unfold zdrop. replace (Z.to_nat (i + 1)) with (S (Z.to_nat i)) by lia. by apply drop_S. }
  destruct (join_ok s c i ch Hs ltac:(lia) Hch) as (o & Ho & Hlast & Hnext). cbn [map concat].
  rewrite (connect_loop_round fuel [b] (joining s c i) (join_frame s ch) _ w o _ ltac:(cbn; unfold len in *; lia) (Hok ch) Ho).
  destruct (Z.ltb_spec (i + 1) (len (srv_channels s))).
  - destruct fuel as [|fuel]; [lia|].
    destruct (lookup_lt_is_Some_2 (srv_channels s) (Z.to_nat (i + 1))) as [ch' Hch']; [unfold len in *; lia|].
    rewrite (Hnext ch' Hch'). apply (IH fuel (i + 1)); [lia|lia|cbn [RdpIo.room length]; unfold len in *; lia|lia].
  - rewrite (Hlast ltac:(lia)). destruct fuel as [|fuel]; [lia|]. cbn [connect_loop send_outputs]. by eexists.
Qed.

Lemma length_joins s l : (length l ≤ length (concat (map (join_frame s) l)))%nat.
Proof.
  induction l as [|ch l IH]; cbn [map concat length]; [lia|]. rewrite length_app.
  assert (length (join_frame s ch) = 15%nat) as -> by done. lia.
Qed.

Lemma connect_ok tls cfg s rest room :
  config_ok cfg → server_ok s → srv_protocol s ≠ PROTOCOL_RDP → tls rest = Some (tunnel_input s) →
  (4 + length (srv_channels s) ≤ room)%nat →
  ∃ w, connect true tls cfg (confirm_frame s ++ rest) room =
       (Ok (mkSession (srv_protocol s) (srv_user s) (mcs_channel_id (srv_net s))), w).
Proof.
  intros Hcfg Hs Hp Ht Hr. destruct (good_step_frames s Hs) as (F1 & F2 & _). unfold connect. cbv zeta.
  destruct (start_ok cfg (connector_new cfg) Hcfg eq_refl eq_refl) as (x & _ & ->).
  cbn [send_start request_output]. unfold write_plain. cbn [RdpIo.room plain_out tls_out].
  destruct room as [|room]; [lia|]. rewrite (read_frame_ok (confirm_frame s) rest (confirm_frame_ok s)).
  set (c1 := set_state SentConnectionRequest (connector_new cfg)).
  change (step (confirm_frame s) c1) with (handle_connection_confirm (confirm_frame s) c1).
  rewrite (confirm_ok cfg s c1 Hcfg Hs eq_refl).
  replace (srv_protocol s =? PROTOCOL_RDP) with false by (symmetry; by apply Z.eqb_neq).
  cbn [send_confirm negb]. rewrite Ht.
  set (c2 := set_state NeedTls (set_selected (srv_protocol s) c1)).
  change (resume_after_tls c2) with (send_connect_initial c2).
  rewrite (send_ci_ok cfg c2 Hcfg eq_refl). set (c3 := set_state SentConnectInitial c2).
  assert (∃ f, length (tunnel_input s) = S (S f) ∧ (length (srv_channels s) ≤ f)%nat) as (f & -> & Hf).
  { unfold tunnel_input. rewrite !length_app. pose proof (length_joins s (srv_channels s)).
    destruct F1 as [[Hl _] _]. unfold len in Hl. exists (length (mcs_frame (srv_response s)) +
      (length (attach_frame s) + length (concat (map (join_frame s) (srv_channels s)))) - 2)%nat. lia. }
  unfold tunnel_input. change [mcs_output (ci_wire (initial_of cfg))] with (map SendData [mcs_frame (ci_wire (initial_of cfg))]).
  erewrite (connect_loop_round (S (S f)) _ c3); [|cbn [RdpIo.room length]; lia|exact F1|exact (response_ok s c3 Hs)].
  cbn [RdpIo.room plain_out tls_out length]. set (c4 := set_state SentErectAttach _).
  change erect_attach with (map SendData (frames erect_attach)).
  erewrite (connect_loop_round (S f) _ c4);
    [|change (length (frames erect_attach)) with 2%nat; cbn [RdpIo.room]; lia|exact F2|exact (attach_ok s c4 Hs eq_refl eq_refl)].
  rewrite <- (zdrop_0 (srv_channels s)).
  eapply (joins_connect f s c4 0); [done| |done|].
  2: { change (length (frames erect_attach)) with 2%nat. cbn [RdpIo.room]. change (Z.to_nat 0) with 0%nat. lia. }
  unfold srv_channels. rewrite !len_cons. pose proof (len_nonneg (channel_ids (srv_net s))). lia.
Qed.

(** ** Properties *)

(** a whole frame is read off the stream and nothing behind it; whatever bytes come, reading a frame never panics, and what it returns together with the rest is the stream. *)
Theorem read_frame_exact :
  (∀ f rest, frame_ok f → read_frame (f ++ rest) = Ok (f, rest)) ∧
  (∀ payload, len payload ≤ 65528 → frame_ok (mcs_frame payload)) ∧
  (∀ input, Forall u8 input →
     match read_frame input with
     | Ok (f, rest) => input = f ++ rest ∧ 4 ≤ len f
     | Err _ => True
     | Panic => False
     end).
Proof. split_and!; [apply read_frame_ok|apply mcs_frame_ok|apply read_frame_inv]. Qed.



(** Connecting to a server that selects a TLS protocol and answers inside the tunnel returns a session with the selected protocol, the user channel and the I/O channel the server assigned, provided the socket takes the four opening frames and one per channel. *)
Theorem connect_completes tls cfg s rest room :
  config_ok cfg → server_ok s → srv_protocol s ≠ PROTOCOL_RDP → tls rest = Some (tunnel_input s) →
  (4 + length (srv_channels s) ≤ room)%nat →
  ∃ w, connect true tls cfg (confirm_frame s ++ rest) room =
       (Ok (mkSession (srv_protocol s) (srv_user s) (mcs_channel_id (srv_net s))), w).
Proof. apply connect_ok. Qed.

Lemma connect_completes_witness :
  ∃ w, connect true (λ _, Some (tunnel_input sample_server)) sample_config (confirm_frame sample_server ++ [1; 2]) 7 =
       (Ok (mkSession 1 1007 1003), w).
Proof.
  apply (connect_completes (λ _, Some (tunnel_input sample_server)) sample_config sample_server [1; 2] 7
    sample_config_ok sample_server_ok); [discriminate|reflexivity|cbn; lia].
Defined.

(** a server that selects plain RDP security is turned down, but only after Connect-Initial, with the client's name and parameters, has been written to it in the clear. *)
Theorem connect_initial_in_clear sn tls cfg s rest room :
  config_ok cfg → server_ok s → srv_protocol s = PROTOCOL_RDP → (2 ≤ room)%nat →
  ∃ x224 w, encode_vec (request_of cfg) = Ok x224 ∧
    connect sn tls cfg (confirm_frame s ++ rest) room = (Err Unsupported, w) ∧
    plain_out w = frames [request_output x224; mcs_output (ci_wire (initial_of cfg))].
Proof.
  intros Hcfg Hs Hp Hr. unfold connect. cbv zeta.
  destruct (start_ok cfg (connector_new cfg) Hcfg eq_refl eq_refl) as (x & Hx & ->).
  cbn [send_start request_output]. unfold write_plain. cbn [RdpIo.room plain_out tls_out].
  destruct room as [|[|room]]; [lia..|]. rewrite (read_frame_ok (confirm_frame s) rest (confirm_frame_ok s)).
  set (c1 := set_state SentConnectionRequest (connector_new cfg)).
  change (step (confirm_frame s) c1) with (handle_connection_confirm (confirm_frame s) c1).
  rewrite (confirm_ok cfg s c1 Hcfg Hs eq_refl), Hp. exists x. eexists. split; [done|]. split; [reflexivity|reflexivity].
Qed.

(** The same server without TLS. *)
Definition plain_server (s : server) : server :=
  mkServer PROTOCOL_RDP (srv_user s) (srv_core s) (srv_net s) (srv_cci s) (srv_dp s) (srv_prefix s).

Lemma plain_server_ok : server_ok (plain_server sample_server).
Proof. destruct sample_server_ok as [_ H]. split; [by split|exact H]. Qed.

Lemma connect_initial_in_clear_witness :
  ∃ x224 w, encode_vec (request_of sample_config) = Ok x224 ∧
    connect true (λ _, None) sample_config (confirm_frame (plain_server sample_server) ++ []) 2 = (Err Unsupported, w) ∧
    plain_out w = frames [request_output x224; mcs_output (ci_wire (initial_of sample_config))].
Proof.
  apply (connect_initial_in_clear true (λ _, None) sample_config (plain_server sample_server) [] 2 sample_config_ok);
    [exact plain_server_ok|reflexivity|lia].
Defined.
