(* ===== verification/H264.v ===== *)
(** * Annex-B reframing and the SPS reader of the agent

    [crates/oxagent/src/h264.rs]: splitting an Annex-B byte stream into NAL
    units, reframing an encoder's access unit into the order the protocol
    requires with its parameter sets on every keyframe, and the Exp-Golomb
    reader that walks a sequence parameter set.

    A loop over [data[i..]] is a recursion over the bytes that are left, with
    the index beside them. *)

From S2P Require Import Prelude.

(** ** NAL units *)

Definition NAL_SLICE : Z := 1.
Definition NAL_SLICE_IDR : Z := 5.
Definition NAL_SEI : Z := 6.
Definition NAL_SPS : Z := 7.
Definition NAL_PPS : Z := 8.
Definition NAL_AUD : Z := 9.

Record Nal : Type := mkNal { nal_kind : Z; nal_payload : list Z }.

(** The start codes: where each begins and how long it is. *)
Fixpoint find_starts (rest : list Z) (i : Z) : list (Z * Z) :=
  match rest with
  | a :: ((b :: c :: r3) as r1) =>
    if (a =? 0) && (b =? 0) then
      if c =? 1 then (i, 3) :: find_starts r3 (i + 3)
      else
        match r3 with
        | d :: r4 =>
          if (c =? 0) && (d =? 1) then (i, 4) :: find_starts r4 (i + 4) else find_starts r1 (i + 1)
        | [] => find_starts r1 (i + 1)
        end
    else find_starts r1 (i + 1)
  | _ => []
  end.

(** [payload[0] & 0x1F]: a unit that is kept is not empty. *)
Definition make_nal (payload : list Z) : Nal := mkNal (Z.land (hd 0 payload) 0x1F) payload.

Fixpoint cut_units (data : list Z) (starts : list (Z * Z)) : list Nal :=
  match starts with
  | [] => []
  | (pos, code_len) :: starts =>
    let payload_start := pos + code_len in
    let payload_end := match starts with (next, _) :: _ => next | [] => len data end in
    if payload_end <=? payload_start then cut_units data starts
    else make_nal (ztake (payload_end - payload_start) (zdrop payload_start data)) :: cut_units data starts
  end.

Definition split_annexb (data : list Z) : list Nal := cut_units data (find_starts data 0).

(** ** Reframing *)

Record ParamSets : Type := mkParamSets { cached_sps : list Z; cached_pps : list Z }.

Definition ParamSets_default : ParamSets := mkParamSets [] [].

Definition is_complete (p : ParamSets) : bool :=
  negb (len (cached_sps p) =? 0) && negb (len (cached_pps p) =? 0).

Definition START_CODE : list Z := [0; 0; 0; 1].

Definition push_nal (out payload : list Z) : list Z := out ++ START_CODE ++ payload.

(** The local variables of the loop over the units. *)
Record sorted : Type := mkSorted {
  s_aud : option (list Z);
  s_sei : list (list Z);
  s_sps : option (list Z);
  s_pps : option (list Z);
  s_slices : list (list Z);
  s_trailing : list (list Z);
  s_is_idr : bool
}.

Definition sorted_new : sorted := mkSorted None [] None None [] [] false.

Definition sort_nal (s : sorted) (nal : Nal) : sorted :=
  let k := nal_kind nal in
  let p := nal_payload nal in
  if (k =? NAL_AUD) && bool_decide (s_aud s = None) then
    mkSorted (Some p) (s_sei s) (s_sps s) (s_pps s) (s_slices s) (s_trailing s) (s_is_idr s)
  else if k =? NAL_SEI then
    mkSorted (s_aud s) (s_sei s ++ [p]) (s_sps s) (s_pps s) (s_slices s) (s_trailing s) (s_is_idr s)
  else if k =? NAL_SPS then
    mkSorted (s_aud s) (s_sei s) (Some p) (s_pps s) (s_slices s) (s_trailing s) (s_is_idr s)
  else if k =? NAL_PPS then
    mkSorted (s_aud s) (s_sei s) (s_sps s) (Some p) (s_slices s) (s_trailing s) (s_is_idr s)
  else if k =? NAL_SLICE_IDR then
    mkSorted (s_aud s) (s_sei s) (s_sps s) (s_pps s) (s_slices s ++ [p]) (s_trailing s) true
  else if k =? NAL_SLICE then
    mkSorted (s_aud s) (s_sei s) (s_sps s) (s_pps s) (s_slices s ++ [p]) (s_trailing s) (s_is_idr s)
  else
    mkSorted (s_aud s) (s_sei s) (s_sps s) (s_pps s) (s_slices s) (s_trailing s ++ [p]) (s_is_idr s).

Definition push_opt (out : list Z) (p : option (list Z)) : list Z := from_option (push_nal out) out p.

(** [sps.or(if cached.sps.is_empty() { None } else { Some(..) })] *)
Definition or_cached (own : option (list Z)) (cached : list Z) : option (list Z) :=
  match own with
  | Some s => Some s
  | None => if len cached =? 0 then None else Some cached
  end.

Definition reframe (raw : list Z) (cached : ParamSets) : list Z * bool * ParamSets :=
  let s := fold_left sort_nal (split_annexb raw) sorted_new in
  let cached := mkParamSets (from_option id (cached_sps cached) (s_sps s))
                            (from_option id (cached_pps cached) (s_pps s)) in
  let out := push_opt [] (s_aud s) in
  let out := fold_left push_nal (s_sei s) out in
  let out := if s_is_idr s then
               push_opt (push_opt out (or_cached (s_sps s) (cached_sps cached)))
                        (or_cached (s_pps s) (cached_pps cached))
             else out in
  let out := fold_left push_nal (s_slices s) out in
  let out := fold_left push_nal (s_trailing s) out in
  (out, s_is_idr s, cached).

(** ** Diagnostics *)

Definition nal_summary (data : list Z) : list (Z * Z * Z) :=
  map (λ nal, (nal_kind nal, Z.land (Z.shiftr (hd 0 (nal_payload nal)) 5) 0x3, len (nal_payload nal)))
      (split_annexb data).

Definition nal_type_name (kind : Z) : string :=
  if kind =? NAL_SLICE then "SLICE"
  else if kind =? NAL_SLICE_IDR then "SLICE_IDR"
  else if kind =? NAL_SEI then "SEI"
  else if kind =? NAL_SPS then "SPS"
  else if kind =? NAL_PPS then "PPS"
  else if kind =? NAL_AUD then "AUD"
  else "OTHER".

Definition sps_profile (payload : list Z) : option (Z * Z * Z) :=
  profile_idc ← payload !! 1%nat;
  constraint_flags ← payload !! 2%nat;
  level_idc ← payload !! 3%nat;
  Some (profile_idc, constraint_flags, level_idc).

(** [into_iter().find(..)] *)
Definition first_sps (raw : list Z) : option Nal :=
  List.find (λ nal, nal_kind nal =? NAL_SPS) (split_annexb raw).

Definition first_sps_profile (raw : list Z) : option (Z * Z * Z) :=
  nal ← first_sps raw; sps_profile (nal_payload nal).

(** ** Emulation prevention *)

Fixpoint unescape_loop (payload : list Z) (zero_run : Z) : list Z :=
  match payload with
  | [] => []
  | byte :: r =>
    if (2 <=? zero_run) && (byte =? 0x03) then unescape_loop r 0
    else byte :: unescape_loop r (if byte =? 0 then zero_run + 1 else 0)
  end.

Definition unescape_rbsp (payload : list Z) : list Z := unescape_loop payload 0.

(** ** [BitReader] *)

Record BitReader : Type := mkBitReader { br_data : list Z; bit_pos : Z }.

Definition bits A := BitReader → option (A * BitReader).
#[export] Instance bits_ret : MRet bits := λ _ a r, Some (a, r).
#[export] Instance bits_bind : MBind bits := λ _ _ f m r,
  match m r with Some (a, r') => f a r' | None => None end.

Definition no_bits {A} : bits A := λ _, None.

Definition BitReader_new (data : list Z) : BitReader := mkBitReader data 0.

Definition bit : bits Z := λ r,
  match br_data r !! Z.to_nat (bit_pos r / 8) with
  | Some byte =>
    let shift := 7 - bit_pos r mod 8 in
    Some (Z.land (Z.shiftr byte shift) 1, mkBitReader (br_data r) (bit_pos r + 1))
  | None => None
  end.

(** [for _ in 0..n { value = (value << 1) | self.bit()? }] on a [u32]. *)
Fixpoint u_loop (n : nat) (value : Z) : bits Z :=
  match n with
  | O => mret value
  | S n => b ← bit; u_loop n (Z.lor (as_uint 32 (Z.shiftl value 1)) b)
  end.

Definition u (n : Z) : bits Z := u_loop (Z.to_nat n) 0.

(** [while self.bit()? == 0]: at most 32 rounds, the thirty-second gives up. *)
Fixpoint zeros_loop (fuel : nat) (leading_zeros : Z) : bits Z :=
  match fuel with
  | O => no_bits
  | S fuel =>
    b ← bit;
    if b =? 0 then
      let n := leading_zeros + 1 in
      if n >? 31 then no_bits else zeros_loop fuel n
    else mret leading_zeros
  end.

Definition ue : bits Z :=
  leading_zeros ← zeros_loop 33 0;
  if leading_zeros =? 0 then mret 0
  else suffix ← u leading_zeros; mret (Z.shiftl 1 leading_zeros - 1 + suffix).

Definition se : bits Z :=
  code ← ue;
  let magnitude := div_ceil code 2 in
  mret (if code mod 2 =? 0 then - as_sint 32 magnitude else as_sint 32 magnitude).

(** ** The fields of a sequence parameter set *)

Definition SPS_PROFILES_WITH_CHROMA_BLOCK : list Z :=
  [100; 110; 122; 244; 44; 83; 86; 118; 128; 138; 139; 134; 135].

Record SpsRefFrameInfo : Type := mkSpsRefFrameInfo { max_num_ref_frames : Z; pic_order_cnt_type : Z }.

Fixpoint skip_se (n : nat) : bits unit :=
  match n with O => mret tt | S n => _ ← se; skip_se n end.

(** The walk from the parameter set id to [max_num_ref_frames]. *)
Definition read_ref_frame_info : bits SpsRefFrameInfo :=
  _ ← ue;
  _ ← ue;
  poc_type ← ue;
  (if poc_type =? 0 then _ ← ue; mret tt
   else if poc_type =? 1 then
     _ ← u 1;
     _ ← se;
     _ ← se;
     n ← ue;
     if n >? 255 then no_bits else skip_se (Z.to_nat n)
   else mret tt);;
  max_num_ref_frames ← ue;
  mret (mkSpsRefFrameInfo max_num_ref_frames poc_type).

Definition sps_ref_frame_info (payload : list Z) : option SpsRefFrameInfo :=
  profile_idc ← payload !! 1%nat;
  if bool_decide (profile_idc ∈ SPS_PROFILES_WITH_CHROMA_BLOCK) then None
  else if len payload <? 4 then None
  else fst <$> read_ref_frame_info (BitReader_new (unescape_rbsp (zdrop 4 payload))).

Definition first_sps_ref_frame_info (raw : list Z) : option SpsRefFrameInfo :=
  nal ← first_sps raw; sps_ref_frame_info (nal_payload nal).

(** ** Splitting, by pieces *)

(** The bytes in front of the first start code, and those behind each code. *)
Fixpoint pieces (rest : list Z) : list Z * list (list Z) :=
  match rest with
  | a :: ((b :: c :: r3) as r1) =>
    let keep := let '(h, ps) := pieces r1 in (a :: h, ps) in
    let code r := let '(h, ps) := pieces r in ([], h :: ps) in
    if (a =? 0) && (b =? 0) then
      if c =? 1 then code r3
      else match r3 with
           | d :: r4 => if (c =? 0) && (d =? 1) then code r4 else keep
           | [] => keep
           end
    else keep
  | _ => (rest, [])
  end.

(** The three ways a position is treated. *)
Inductive at_code : list Z → Z → list Z → Prop :=
| code3 r : at_code (0 :: 0 :: 1 :: r) 3 r
| code4 r : at_code (0 :: 0 :: 0 :: 1 :: r) 4 r.

Lemma starts_pieces_cases rest :
  (∃ n r, at_code rest n r ∧ (∀ i, find_starts rest i = (i, n) :: find_starts r (i + n)) ∧
          pieces rest = ([], fst (pieces r) :: snd (pieces r))) ∨
  (∃ a r, rest = a :: r ∧ (∀ i, find_starts rest i = find_starts r (i + 1)) ∧
          pieces rest = (a :: fst (pieces r), snd (pieces r))) ∨
  rest = [].
Proof.
  destruct rest as [|a [|b [|c r3]]]; [by right; right|right; left; by eexists _, _|right; left; by eexists _, _|].
  assert ((∀ i, find_starts (a :: b :: c :: r3) i = find_starts (b :: c :: r3) (i + 1)) ∧
    pieces (a :: b :: c :: r3) = (let '(h, ps) := pieces (b :: c :: r3) in (a :: h, ps)) ∨
    (∃ n r, at_code (a :: b :: c :: r3) n r ∧
      (∀ i, find_starts (a :: b :: c :: r3) i = (i, n) :: find_starts r (i + n)) ∧
      pieces (a :: b :: c :: r3) = (let '(h, ps) := pieces r in ([], h :: ps)))) as H.
  { cbn [find_starts pieces]. destruct (Z.eqb_spec a 0); [|by left]. destruct (Z.eqb_spec b 0); [|by left]. cbn [andb].
    destruct (Z.eqb_spec c 1); [right; subst; by eexists _, _; split_and!; [apply code3|..]|].
    destruct r3 as [|d r4]; [by left|]. destruct (Z.eqb_spec c 0); [|by left].
    destruct (Z.eqb_spec d 1); [|by left]. right. subst. by eexists _, _; split_and!; [apply code4|..]. }
  destruct H as [[H1 H2]|(n & r & Hc & H1 & H2)].
  - right; left. exists a, (b :: c :: r3). split; [done|]. split; [done|]. rewrite H2. by destruct (pieces (b :: c :: r3)).
  - left. exists n, r. split; [done|]. split; [done|]. rewrite H2. by destruct (pieces r).
Qed.

Lemma at_code_length rest n r : at_code rest n r → len rest = n + len r ∧ (length r < length rest)%nat ∧ 0 < n.
Proof. by destruct 1; rewrite ?len_cons; split_and!; cbn; lia. Qed.

(** Induction along the scan. *)
Lemma scan_ind (P : list Z → Prop) :
  P [] →
  (∀ rest n r, at_code rest n r → (∀ i, find_starts rest i = (i, n) :: find_starts r (i + n)) →
     pieces rest = ([], fst (pieces r) :: snd (pieces r)) → P r → P rest) →
  (∀ a r, (∀ i, find_starts (a :: r) i = find_starts r (i + 1)) →
     pieces (a :: r) = (a :: fst (pieces r), snd (pieces r)) → P r → P (a :: r)) →
  ∀ rest, P rest.
Proof.
  intros H0 Hc Hk rest. remember (length rest) as n eqn:Hn. revert rest Hn.
  induction n as [n IH] using (well_founded_induction Nat.lt_wf_0). intros rest Hn.
  destruct (starts_pieces_cases rest) as [(k & r & Hat & Hs & Hp)|[(a & r & -> & Hs & Hp)| ->]]; [| |done].
  - eapply Hc; [done|done|done|]. apply at_code_length in Hat as (_ & ? & _). by eapply IH; [|reflexivity]; lia.
  - apply Hk; [done|done|]. eapply IH; [|reflexivity]. cbn in Hn. lia.
Qed.

(** The next start code is where the current piece ends. *)
Lemma next_start rest : ∀ i,
  match find_starts rest i with (n, _) :: _ => n | [] => i + len rest end = i + len (fst (pieces rest)).
Proof.
  induction rest as [|rest n r Hat Hs Hp IH|a r Hs Hp IH] using scan_ind; intros i; [done| |].
  - rewrite Hs, Hp. cbn. change (len (@nil Z)) with 0. lia.
  - rewrite Hs, Hp. cbn [fst]. rewrite !len_cons. specialize (IH (i + 1)).
    destruct (find_starts r (i + 1)) as [|[n ?] ?]; lia.
Qed.

(** A piece's first bytes are the stream's. *)
Lemma pieces_prefix rest : ∃ t, rest = fst (pieces rest) ++ t.
Proof.
  induction rest as [|rest n r Hat Hs Hp IH|a r Hs Hp IH] using scan_ind.
  - by exists [].
  - rewrite Hp. by eexists.
  - rewrite Hp. destruct IH as [t IH]. exists t. cbn. by rewrite <- IH.
Qed.

Definition nonempty (p : list Z) : bool := negb (len p =? 0).

Lemma nonempty_true p : nonempty p = true ↔ p ≠ [].
Proof. unfold nonempty. destruct p; [done|]. rewrite len_cons. pose proof (len_nonneg p). split; [done|]. intros _. lia. Qed.

(** Splitting keeps the pieces behind the start codes that are not empty. *)
Lemma cut_units_pieces pre rest :
  cut_units (pre ++ rest) (find_starts rest (len pre)) = map make_nal (filter nonempty (snd (pieces rest))).
Proof.
  revert pre. induction rest as [|rest n r Hat Hs Hp IH|a r Hs Hp IH] using scan_ind; intros pre; [done| |].
  - rewrite Hs, Hp. cbn [cut_units snd]. destruct (at_code_length _ _ _ Hat) as (Hl & _ & Hn).
    assert (∃ code, rest = code ++ r ∧ len code = n) as (code & -> & Hcode).
    { destruct Hat; [by exists [0; 0; 1]|by exists [0; 0; 0; 1]]. }
    specialize (IH (pre ++ code)). rewrite <- app_assoc, len_app, Hcode in IH.
    pose proof (next_start r (len pre + n)) as Hnext.
    assert (match find_starts r (len pre + n) with (next, _) :: _ => next | [] => len (pre ++ code ++ r) end =
            len pre + n + len (fst (pieces r))) as ->.
    { destruct (find_starts r (len pre + n)) as [|[k ?] ?]; [|done]. rewrite !len_app. lia. }
    destruct (pieces_prefix r) as [t Ht]. set (p := fst (pieces r)) in *.
    pose proof (len_nonneg p).
    assert (filter nonempty (p :: snd (pieces r)) = (if nonempty p then [p] else []) ++ filter nonempty (snd (pieces r))) as ->
      by (rewrite filter_cons; unfold decide; by destruct (nonempty p)).
    rewrite map_app, <- IH. destruct (Z.leb_spec (len pre + n + len p) (len pre + n)) as [Hle|Hgt].
    + assert (p = []) as -> by (apply len_0_nil; lia). done.
    + assert (nonempty p = true) as -> by (apply nonempty_true; intros E; rewrite E in Hgt; change (len (@nil Z)) with 0 in Hgt; lia).
      cbn [map app]. f_equal. f_equal. rewrite Ht, app_assoc.
      rewrite zdrop_app_len by (rewrite len_app; lia). apply ztake_app_len. lia.
  - rewrite Hs, Hp. cbn [snd]. specialize (IH (pre ++ [a])). rewrite <- app_assoc, len_app in IH. exact IH.
Qed.

Lemma split_pieces data : split_annexb data = map make_nal (filter nonempty (snd (pieces data))).
Proof. exact (cut_units_pieces [] data). Qed.

(** *** Payloads hold no start code *)

Fixpoint has_code (p : list Z) : bool :=
  match p with
  | a :: ((b :: c :: _) as r) => ((a =? 0) && (b =? 0) && (c =? 1)) || has_code r
  | _ => false
  end.

(** A payload a stream can carry: something, without a start code in it. *)
Definition payload_ok (p : list Z) : Prop := p ≠ [] ∧ has_code p = false.

Lemma pieces_no_code rest : Forall (λ p, has_code p = false) (fst (pieces rest) :: snd (pieces rest)).
Proof.
  induction rest as [|rest n r Hat Hs Hp IH|a r Hs Hp IH] using scan_ind.
  - by repeat constructor.
  - rewrite Hp. by constructor.
  - rewrite Hp. cbn [fst snd]. inversion IH as [|? ? Hh Ht]; subst. constructor; [|done].
    destruct (pieces_prefix r) as [t Hr]. destruct (fst (pieces r)) as [|b [|c h]] eqn:E; [done..|].
    cbn [has_code]. apply orb_false_iff. split; [|exact Hh].
    destruct (Z.eqb_spec a 0); [|done]. destruct (Z.eqb_spec b 0); [|done]. destruct (Z.eqb_spec c 1); [|done].
    subst. exfalso. cbn in Hp. destruct (pieces (h ++ t)). discriminate.
Qed.

Lemma split_payload_ok data : Forall (λ n, payload_ok (nal_payload n) ∧ n = make_nal (nal_payload n)) (split_annexb data).
Proof.
  rewrite split_pieces. apply Forall_map. pose proof (pieces_no_code data) as H. inversion H as [|? ? _ Ht]; subst.
  apply Forall_forall. intros p [Hn Hin]%list_elem_of_filter. rewrite Forall_forall in Ht.
  split; [|done]. split; [by apply nonempty_true, Is_true_eq_true|by apply Ht].
Qed.

(** ** Splitting what was put together *)

Definition annexb (ps : list (list Z)) : list Z := concat (map (λ p, START_CODE ++ p) ps).

Lemma annexb_app ps qs : annexb (ps ++ qs) = annexb ps ++ annexb qs.
Proof. unfold annexb. by rewrite map_app, concat_app. Qed.

(** A unit's payload is scanned over, up to the next unit. *)
Lemma pieces_payload p ps : has_code p = false → pieces (p ++ annexb ps) = (p ++ fst (pieces (annexb ps)), snd (pieces (annexb ps))).
Proof.
  induction p as [|a p IH]; intros Hc; [cbn [app]; by destruct (pieces (annexb ps))|].
  assert (pieces (p ++ annexb ps) = (p ++ fst (pieces (annexb ps)), snd (pieces (annexb ps)))) as IH'.
  { apply IH. destruct p as [|b [|c p]]; [done..|]. cbn [has_code] in Hc. by apply orb_false_iff in Hc as [_ ?]. }
  destruct (starts_pieces_cases ((a :: p) ++ annexb ps)) as [(n & r & Hat & _)|[(a' & r & E & _ & Hp)|E]]; [|..|done].
  - exfalso. remember ((a :: p) ++ annexb ps) as l eqn:El. destruct Hat.
    + destruct p as [|b [|c p]].
      * destruct ps as [|q ps]; [done|]. unfold annexb in El. cbn in El. congruence.
      * destruct ps as [|q ps]; [done|]. unfold annexb in El. cbn in El. congruence.
      * cbn in El. injection El as <- <- <- _. done.
    + destruct p as [|b [|c [|d p]]].
      * destruct ps as [|q ps]; [done|]. unfold annexb in El. cbn in El. congruence.
      * destruct ps as [|q ps]; [done|]. unfold annexb in El. cbn in El. congruence.
      * destruct ps as [|q ps]; [done|]. unfold annexb in El. cbn in El. congruence.
      * cbn in El. injection El as <- <- <- <- _. cbn in Hc. done.
  - injection E as <- <-. rewrite Hp, IH'. done.
Qed.

Lemma pieces_annexb ps :
  Forall payload_ok ps → pieces (annexb ps) = ([], ps).
Proof.
  induction 1 as [|p ps [Hne Hc] _ IH]; [done|].
  change (annexb (p :: ps)) with (0 :: 0 :: 0 :: 1 :: (p ++ annexb ps)). cbn [pieces]. cbn [Z.eqb Pos.eqb andb].
  rewrite pieces_payload by done. by rewrite IH, app_nil_r.
Qed.

Lemma filter_nonempty ps : Forall payload_ok ps → filter nonempty ps = ps.
Proof.
  induction 1 as [|p ps [Hne _] _ IH]; [done|]. rewrite filter_cons, IH.
  rewrite decide_True; [done|]. apply Is_true_eq_left. by apply nonempty_true.
Qed.

Lemma split_annexb_units ps : Forall payload_ok ps → split_annexb (annexb ps) = map make_nal ps.
Proof. intros Hps. rewrite split_pieces, pieces_annexb by done. cbn [snd]. by rewrite filter_nonempty. Qed.

(** ** What reframing puts where *)

Definition is_kind (k : Z) (n : Nal) : bool := nal_kind n =? k.
Definition of_kind (k : Z) (ns : list Nal) : list (list Z) := map nal_payload (List.filter (is_kind k) ns).
Definition is_slice (n : Nal) : bool := is_kind NAL_SLICE n || is_kind NAL_SLICE_IDR n.

(** Everything else, in order: unknown kinds, and access unit delimiters after
    the first. *)
Fixpoint others (seen_aud : bool) (ns : list Nal) : list (list Z) :=
  match ns with
  | [] => []
  | n :: ns =>
    if is_kind NAL_AUD n then
      if seen_aud then nal_payload n :: others true ns else others true ns
    else if is_kind NAL_SEI n || is_kind NAL_SPS n || is_kind NAL_PPS n || is_slice n then others seen_aud ns
    else nal_payload n :: others seen_aud ns
  end.

(** The last one, or what was there before. *)
Definition newest (k : Z) (ns : list Nal) (old : option (list Z)) : option (list Z) :=
  match last (of_kind k ns) with Some p => Some p | None => old end.

Definition has_idr (ns : list Nal) : bool := existsb (is_kind NAL_SLICE_IDR) ns.

(** The sorted units of a list, on top of those sorted so far. *)
Definition sorted_onto (s : sorted) (ns : list Nal) : sorted :=
  mkSorted (match s_aud s with Some a => Some a | None => head (of_kind NAL_AUD ns) end)
           (s_sei s ++ of_kind NAL_SEI ns) (newest NAL_SPS ns (s_sps s)) (newest NAL_PPS ns (s_pps s))
           (s_slices s ++ map nal_payload (List.filter is_slice ns))
           (s_trailing s ++ others (negb (bool_decide (s_aud s = None))) ns)
           (s_is_idr s || has_idr ns).

Lemma last_cons_or {A} (x : A) l d : match last (x :: l) with Some y => Some y | None => d end =
  match last l with Some y => Some y | None => Some x end.
Proof. rewrite last_cons. by destruct (last l). Qed.

Lemma newest_same k n ns old : is_kind k n = true → newest k (n :: ns) old = newest k ns (Some (nal_payload n)).
Proof. intros E. unfold newest, of_kind. cbn [List.filter]. rewrite E. cbn [map]. apply last_cons_or. Qed.
Lemma newest_other k n ns old : is_kind k n = false → newest k (n :: ns) old = newest k ns old.
Proof. intros E. unfold newest, of_kind. cbn [List.filter]. by rewrite E. Qed.

Lemma sort_all ns s : fold_left sort_nal ns s = sorted_onto s ns.
Proof.
  revert s. induction ns as [|n ns IH]; intros s; cbn [fold_left].
  { unfold sorted_onto, newest. destruct s as [[a|] sei sps pps sl tr idr]; cbn; rewrite !app_nil_r, orb_false_r; done. }
  rewrite IH. clear IH. destruct s as [aud sei sps pps sl tr idr]. unfold sort_nal. cbn [s_aud s_sei s_sps s_pps s_slices s_trailing s_is_idr].
  assert (∀ k, is_kind k n = (nal_kind n =? k)) as Hk by done.
  unfold sorted_onto, of_kind, has_idr. cbn [List.filter existsb others]. unfold is_slice.
  destruct (Z.eqb_spec (nal_kind n) NAL_AUD) as [E|E1].
  { rewrite (newest_other NAL_SPS), (newest_other NAL_PPS) by (rewrite Hk, E; done). rewrite !Hk, E. cbn.
    destruct aud; cbn; rewrite <- ?app_assoc; done. }
  cbn [andb]. destruct (Z.eqb_spec (nal_kind n) NAL_SEI) as [E|E2].
  { rewrite (newest_other NAL_SPS), (newest_other NAL_PPS) by (rewrite Hk, E; done). rewrite !Hk, E. cbn.
    rewrite <- ?app_assoc. done. }
  destruct (Z.eqb_spec (nal_kind n) NAL_SPS) as [E|E3].
  { rewrite (newest_same NAL_SPS), (newest_other NAL_PPS) by (rewrite Hk, E; done). rewrite !Hk, E. cbn. done. }
  destruct (Z.eqb_spec (nal_kind n) NAL_PPS) as [E|E4].
  { rewrite (newest_other NAL_SPS), (newest_same NAL_PPS) by (rewrite Hk, E; done). rewrite !Hk, E. cbn. done. }
  rewrite (newest_other NAL_SPS), (newest_other NAL_PPS) by (rewrite Hk; by apply Z.eqb_neq).
  rewrite !Hk. apply Z.eqb_neq in E1 as ->, E2 as ->, E3 as ->, E4 as ->.
  destruct (Z.eqb_spec (nal_kind n) NAL_SLICE_IDR) as [E|E5].
  { rewrite !E. cbn. rewrite <- ?app_assoc, orb_true_r. done. }
  destruct (Z.eqb_spec (nal_kind n) NAL_SLICE) as [E|E6]; cbn; rewrite <- ?app_assoc; done.
Qed.

(** The parameter set a keyframe goes out with. *)
Definition param (k : Z) (ns : list Nal) (cached : list Z) : option (list Z) :=
  or_cached (last (of_kind k ns)) cached.

Definition opt_list {A} (o : option A) : list A := from_option (λ x, [x]) [] o.

(** The order the protocol asks for: a delimiter, SEI, on a keyframe the
    parameter sets, the slices, the rest. *)
Definition layout (ns : list Nal) (cached : ParamSets) : list (list Z) :=
  opt_list (head (of_kind NAL_AUD ns)) ++ of_kind NAL_SEI ns ++
  (if has_idr ns then
     opt_list (param NAL_SPS ns (cached_sps cached)) ++ opt_list (param NAL_PPS ns (cached_pps cached))
   else []) ++
  map nal_payload (List.filter is_slice ns) ++ others false ns.

Definition refreshed (ns : list Nal) (cached : ParamSets) : ParamSets :=
  mkParamSets (from_option id (cached_sps cached) (last (of_kind NAL_SPS ns)))
              (from_option id (cached_pps cached) (last (of_kind NAL_PPS ns))).

Lemma push_nals ps out : fold_left push_nal ps out = out ++ annexb ps.
Proof.
  revert out. induction ps as [|p ps IH]; intros out; cbn [fold_left]; [by rewrite app_nil_r|].
  rewrite IH. unfold push_nal. rewrite <- !app_assoc. done.
Qed.

Lemma push_opt_annexb o out : push_opt out o = out ++ annexb (opt_list o).
Proof. destruct o as [p|]; cbn; [|by rewrite app_nil_r]. unfold push_nal, annexb. cbn. by rewrite app_nil_r. Qed.

Lemma or_cached_refreshed own cached : or_cached own (from_option id cached own) = or_cached own cached.
Proof. by destruct own. Qed.

Lemma reframe_layout raw cached :
  reframe raw cached =
  (annexb (layout (split_annexb raw) cached), has_idr (split_annexb raw), refreshed (split_annexb raw) cached).
Proof.
  unfold reframe. rewrite sort_all. set (ns := split_annexb raw). unfold sorted_onto, newest.
  cbn [sorted_new s_aud s_sei s_sps s_pps s_slices s_trailing s_is_idr app orb negb]. rewrite bool_decide_true by done.
  cbn [negb]. replace (match last (of_kind NAL_SPS ns) with Some p => Some p | None => None end)
    with (last (of_kind NAL_SPS ns)) by (by destruct (last _)).
  replace (match last (of_kind NAL_PPS ns) with Some p => Some p | None => None end)
    with (last (of_kind NAL_PPS ns)) by (by destruct (last _)).
  fold (refreshed ns cached). cbn [cached_sps cached_pps refreshed].
  rewrite !push_nals, !push_opt_annexb, !or_cached_refreshed. fold (param NAL_SPS ns (cached_sps cached)).
  fold (param NAL_PPS ns (cached_pps cached)). f_equal. f_equal. unfold layout.
  destruct (has_idr ns); rewrite !annexb_app, <- ?app_assoc; done.
Qed.

(** *** What is in the layout can be split again *)

Definition entry_ok (k : Z) (p : list Z) : Prop := p = [] ∨ (payload_ok p ∧ nal_kind (make_nal p) = k).
Definition cache_ok (c : ParamSets) : Prop := entry_ok NAL_SPS (cached_sps c) ∧ entry_ok NAL_PPS (cached_pps c).

Definition nals_ok (ns : list Nal) : Prop :=
  Forall (λ n, payload_ok (nal_payload n) ∧ n = make_nal (nal_payload n)) ns.

Lemma of_kind_ok k ns : nals_ok ns → Forall (λ p, payload_ok p ∧ nal_kind (make_nal p) = k) (of_kind k ns).
Proof.
  intros Hns. unfold of_kind. apply Forall_map, Forall_forall. intros n [Hk Hin]%list_elem_of_In%filter_In%and_comm.
  apply list_elem_of_In in Hin. unfold nals_ok in Hns. rewrite Forall_forall in Hns. destruct (Hns n Hin) as [Hp E]. split; [done|].
  rewrite <- E. by apply Z.eqb_eq.
Qed.

Lemma last_ok {A} (P : A → Prop) l x : Forall P l → last l = Some x → P x.
Proof. intros Hl E. apply last_Some in E as [l' ->]. apply Forall_app in Hl as [_ Hx]. by inversion Hx. Qed.

Lemma param_ok k ns cached p :
  nals_ok ns → entry_ok k cached → param k ns cached = Some p → payload_ok p ∧ nal_kind (make_nal p) = k.
Proof.
  intros Hns Hc. unfold param, or_cached. destruct (last (of_kind k ns)) as [q|] eqn:E.
  - intros [= <-]. by eapply last_ok in E; [|apply of_kind_ok].
  - case_if; [done|]. intros [= <-]. destruct Hc as [->|?]; done.
Qed.

Lemma others_ok b ns : nals_ok ns → Forall payload_ok (others b ns).
Proof.
  intros Hns. revert b. induction Hns as [|n ns [Hp _] _ IH]; intros b; cbn [others]; [constructor|].
  repeat case_if; auto.
Qed.

Lemma layout_ok ns cached : nals_ok ns → cache_ok cached → Forall payload_ok (layout ns cached).
Proof.
  intros Hns [Hs Hpp]. unfold layout. rewrite !Forall_app.
  assert (∀ k, Forall payload_ok (of_kind k ns)) as Hk.
  { intros k. eapply Forall_impl; [by apply of_kind_ok|]. by intros p [? _]. }
  split_and!.
  - destruct (of_kind NAL_AUD ns) eqn:E; [constructor|]. specialize (Hk NAL_AUD). rewrite E in Hk.
    inversion Hk; subst. by apply Forall_singleton.
  - done.
  - destruct (has_idr ns); [|constructor]. apply Forall_app. split.
    + destruct (param NAL_SPS ns (cached_sps cached)) eqn:E; [|constructor].
      apply Forall_singleton. by eapply param_ok in E as [? _].
    + destruct (param NAL_PPS ns (cached_pps cached)) eqn:E; [|constructor].
      apply Forall_singleton. by eapply param_ok in E as [? _].
  - apply Forall_map, Forall_forall. intros n [_ Hin]%list_elem_of_In%filter_In%and_comm.
    apply list_elem_of_In in Hin. unfold nals_ok in Hns. rewrite Forall_forall in Hns. by apply Hns.
  - by apply others_ok.
Qed.

Lemma refreshed_ok ns cached : nals_ok ns → cache_ok cached → cache_ok (refreshed ns cached).
Proof.
  intros Hns [Hs Hpp]. split; cbn.
  - destruct (last (of_kind NAL_SPS ns)) eqn:E; [|done]. right. by eapply last_ok in E; [|apply of_kind_ok].
  - destruct (last (of_kind NAL_PPS ns)) eqn:E; [|done]. right. by eapply last_ok in E; [|apply of_kind_ok].
Qed.

(** C32: whatever an encoder emits (three- or four-byte start codes, units in any order, parameter sets repeated or not), reframing gives a stream that splits into exactly: the first access unit delimiter, the SEI units, on a keyframe an SPS and a PPS (its own newest or the cached ones), the slices, and every other unit in order; it is a keyframe exactly when a unit is an IDR slice, and the cache then holds the newest parameter sets seen. *)
Theorem reframe_correct raw cached :
  cache_ok cached →
  ∃ out, reframe raw cached = (out, has_idr (split_annexb raw), refreshed (split_annexb raw) cached) ∧
         split_annexb out = map make_nal (layout (split_annexb raw) cached) ∧
         cache_ok (refreshed (split_annexb raw) cached).
Proof.
  intros Hc. exists (annexb (layout (split_annexb raw) cached)).
  assert (nals_ok (split_annexb raw)) as Hns by apply split_payload_ok.
  split_and!; [apply reframe_layout|by apply split_annexb_units, layout_ok|by apply refreshed_ok].
Qed.

Lemma reframe_correct_witness :
  let raw := [0; 0; 1; 0x65; 0x88; 0; 0; 0; 1; 0x09; 0xF0] in
  let cached := mkParamSets [0x67; 0x42] [0x68; 0xCE] in
  ∃ out, reframe raw cached = (out, true, cached) ∧
         split_annexb out = map make_nal [[0x09; 0xF0]; [0x67; 0x42]; [0x68; 0xCE]; [0x65; 0x88]].
Proof.
  intros raw cached. destruct (reframe_correct raw cached) as (out & H1 & H2 & _).
  - split; right; (split; [split; [discriminate|reflexivity]|reflexivity]).
  - exists out. split; [exact H1|exact H2].
Defined.

(** ** Emulation prevention *)

(** What a conforming encoder does to a payload (ITU-T H.264, 7.4.1.1): behind
    two zero bytes, a byte of at most three is preceded by a [0x03]. *)
Fixpoint escape_loop (payload : list Z) (zero_run : Z) : list Z :=
  match payload with
  | [] => []
  | byte :: r =>
    if (zero_run =? 2) && (byte <=? 3) then 3 :: byte :: escape_loop r (if byte =? 0 then 1 else 0)
    else byte :: escape_loop r (if byte =? 0 then zero_run + 1 else 0)
  end.

Definition escape_rbsp (payload : list Z) : list Z := escape_loop payload 0.

Lemma unescape_escape_loop p z : 0 ≤ z ≤ 2 → Forall (λ b, 0 ≤ b) p → unescape_loop (escape_loop p z) z = p.
Proof.
  intros Hz Hp. revert z Hz. induction Hp as [|b p Hb _ IH]; intros z Hz; [done|]. cbn [escape_loop].
  destruct (Z.eqb_spec z 2) as [->|Hz2]; cbn [andb].
  - destruct (Z.leb_spec b 3); cbn [unescape_loop Z.leb Z.eqb Z.compare Pos.compare Pos.compare_cont Pos.eqb andb].
    + rewrite IH by (case_if; lia). done.
    + rewrite (proj2 (Z.eqb_neq b 3)), (proj2 (Z.eqb_neq b 0)) by lia. rewrite IH by lia. done.
  - cbn [unescape_loop]. rewrite (proj2 (Z.leb_gt 2 z)) by lia. cbn [andb]. rewrite IH by (case_if; lia). done.
Qed.

Lemma unescape_escape p : Forall (λ b, 0 ≤ b) p → unescape_rbsp (escape_rbsp p) = p.
Proof. apply unescape_escape_loop. lia. Qed.

(** ** The bits of a payload *)

(** The [n] low bits of a number, the highest first. *)
Fixpoint msb_bits (n : nat) (v : Z) : list bool :=
  match n with O => [] | S n => Z.testbit v (Z.of_nat n) :: msb_bits n v end.

Definition bits_of (data : list Z) : list bool := concat (map (msb_bits 8) data).

Definition remaining (r : BitReader) : list bool := drop (Z.to_nat (bit_pos r)) (bits_of (br_data r)).

Lemma bits_of_lookup data q k :
  (k < 8)%nat → bits_of data !! (q * 8 + k)%nat = (λ b, Z.testbit b (7 - Z.of_nat k)) <$> data !! q.
Proof.
  intros Hk. revert q. induction data as [|b data IH]; intros q; [done|].
  change (bits_of (b :: data)) with (msb_bits 8 b ++ bits_of data). destruct q as [|q].
  - do 8 (destruct k as [|k]; [done|]). lia.
  - rewrite lookup_app_r by (cbn; lia). cbn [lookup list_lookup]. rewrite <- IH. f_equal. cbn [length msb_bits]. lia.
Qed.

(** [bit] takes the next bit. *)
Lemma bit_next r b rest :
  0 ≤ bit_pos r → remaining r = b :: rest → bit r = Some (Z.b2z b, mkBitReader (br_data r) (bit_pos r + 1)).
Proof.
  intros Hp Hr. unfold bit.
  assert (bits_of (br_data r) !! Z.to_nat (bit_pos r) = Some b) as Hb.
  { rewrite <- (Nat.add_0_r (Z.to_nat _)), <- lookup_drop. fold (remaining r). by rewrite Hr. }
  replace (Z.to_nat (bit_pos r)) with (Z.to_nat (bit_pos r / 8) * 8 + Z.to_nat (bit_pos r mod 8))%nat in Hb.
  2: { pose proof (Z.div_mod (bit_pos r) 8). pose proof (Z.mod_pos_bound (bit_pos r) 8).
       pose proof (Z.div_pos (bit_pos r) 8). lia. }
  pose proof (Z.mod_pos_bound (bit_pos r) 8). rewrite bits_of_lookup in Hb by lia.
  apply fmap_Some in Hb as (byte & -> & ->). do 2 f_equal. rewrite Z2Nat.id by lia.
  change 1 with (Z.ones 1) at 1. rewrite Z.land_ones, Z.shiftr_div_pow2 by lia.
  rewrite Z.testbit_spec' by lia. done.
Qed.

(** The reader takes exactly these bits and gives this value. *)
Definition takes {A} (m : bits A) (bs : list bool) (a : A) : Prop :=
  ∀ r rest, 0 ≤ bit_pos r → remaining r = bs ++ rest → m r = Some (a, mkBitReader (br_data r) (bit_pos r + len bs)).

Lemma takes_ret {A} (a : A) : takes (mret a) [] a.
Proof. intros [d p] rest _ _. cbn. by rewrite Z.add_0_r. Qed.

Lemma takes_bind {A B} (m : bits A) (f : A → bits B) bs bs' a b :
  takes m bs a → takes (f a) bs' b → takes (m ≫= f) (bs ++ bs') b.
Proof.
  intros Hm Hf r rest Hp Hr. rewrite <- app_assoc in Hr. unfold mbind, bits_bind. rewrite (Hm r _ Hp Hr).
  rewrite (Hf _ rest); cbn [bit_pos br_data].
  - rewrite len_app. do 3 f_equal. lia.
  - pose proof (len_nonneg bs). lia.
  - unfold remaining in *. cbn [bit_pos br_data].
    rewrite Z2Nat.inj_add, <- drop_drop, Hr by (try lia; apply len_nonneg).
    unfold len. by rewrite Nat2Z.id, drop_app_length.
Qed.

(** Returning a value that is [v] in other words. *)
Ltac takes_value v :=
  match goal with |- takes (mret ?t) _ _ => replace t with v by lia end; apply takes_ret.

Lemma takes_bit b : takes bit [b] (Z.b2z b).
Proof. intros r rest Hp Hr. by eapply bit_next. Qed.

Lemma takes_u_loop n acc v :
  (n <= 32)%nat → 0 ≤ acc < 2 ^ (32 - Z.of_nat n) →
  takes (u_loop n acc) (msb_bits n v) (acc * 2 ^ Z.of_nat n + v mod 2 ^ Z.of_nat n).
Proof.
  revert acc. induction n as [|n IH]; intros acc Hn Ha; cbn [u_loop msb_bits].
  - rewrite Z.pow_0_r, Z.mod_1_r. replace (acc * 1 + 0) with acc by lia. apply takes_ret.
  - apply (takes_bind _ _ [Z.testbit v (Z.of_nat n)] (msb_bits n v) _ _ (takes_bit _)).
    assert (2 ^ (32 - Z.of_nat n) = 2 * 2 ^ (32 - Z.of_nat (S n))) as Hpow.
    { rewrite <- Z.pow_succ_r by lia. f_equal. lia. }
    assert (2 ^ (32 - Z.of_nat n) ≤ 2 ^ 32) by (apply Z.pow_le_mono_r; lia).
    assert (0 ≤ Z.b2z (Z.testbit v (Z.of_nat n)) < 2) as Hb by (destruct (Z.testbit v (Z.of_nat n)); cbn; lia).
    assert (Z.lor (as_uint 32 (Z.shiftl acc 1)) (Z.b2z (Z.testbit v (Z.of_nat n))) = 2 * acc + Z.b2z (Z.testbit v (Z.of_nat n))) as ->.
    { unfold as_uint. rewrite Z.mod_small by (rewrite Z.shiftl_mul_pow2; lia). rewrite lor_shiftl_add; lia. }
    replace (acc * 2 ^ Z.of_nat (S n) + v mod 2 ^ Z.of_nat (S n))
      with ((2 * acc + Z.b2z (Z.testbit v (Z.of_nat n))) * 2 ^ Z.of_nat n + v mod 2 ^ Z.of_nat n).
    2: { rewrite Nat2Z.inj_succ, Z.pow_succ_r, (Z.mul_comm 2 (2 ^ _)), Z.rem_mul_r, Z.testbit_spec' by lia. lia. }
    apply IH; [lia|]. lia.
Qed.

(** ** Exponential Golomb codes *)

(** ITU-T H.264, 9.1: as many zeros as the number plus one has bits behind its
    highest, then those bits; a signed value alternates. *)
Definition write_ue (v : Z) : list bool :=
  let n := Z.to_nat (Z.log2 (v + 1)) in replicate n false ++ msb_bits (S n) (v + 1).

Definition signed_code (v : Z) : Z := if v <=? 0 then -2 * v else 2 * v - 1.
Definition write_se (v : Z) : list bool := write_ue (signed_code v).

(** What fits the reader's [u32] and [i32]. *)
Definition ue_ok (v : Z) : Prop := 0 ≤ v ≤ 2 ^ 32 - 2.
Definition se_ok (v : Z) : Prop := - 2 ^ 31 < v < 2 ^ 31.

Lemma takes_zeros k fuel lz :
  (k < fuel)%nat → 0 ≤ lz → lz + Z.of_nat k ≤ 31 →
  takes (zeros_loop fuel lz) (replicate k false ++ [true]) (lz + Z.of_nat k).
Proof.
  revert fuel lz. induction k as [|k IH]; intros fuel lz Hf Hlz Hk; (destruct fuel as [|fuel]; [lia|]); cbn [zeros_loop].
  - rewrite Z.add_0_r. apply (takes_bind _ _ [true] [] _ _ (takes_bit true)). apply takes_ret.
  - apply (takes_bind _ _ [false] (replicate k false ++ [true]) _ _ (takes_bit false)). cbn [Z.b2z Z.eqb].
    rewrite Z.gtb_ltb, (proj2 (Z.ltb_ge 31 (lz + 1))) by lia.
    replace (lz + Z.of_nat (S k)) with (lz + 1 + Z.of_nat k) by lia. apply IH; lia.
Qed.

Lemma log2_split x : 0 < x → x = 2 ^ Z.log2 x + x mod 2 ^ Z.log2 x.
Proof.
  intros Hx. pose proof (Z.log2_spec x Hx) as [Hl Hh]. rewrite Z.pow_succ_r in Hh by apply Z.log2_nonneg.
  rewrite <- (Z.mod_add x (-1)) by lia. rewrite Z.mod_small by lia. lia.
Qed.

Lemma takes_ue v : ue_ok v → takes ue (write_ue v) v.
Proof.
  intros Hv. unfold ue_ok in Hv. set (x := v + 1). pose proof (log2_split x ltac:(lia)) as Hx.
  assert (0 ≤ Z.log2 x ≤ 31) as Hn.
  { split; [apply Z.log2_nonneg|]. apply Z.lt_succ_r, Z.log2_lt_pow2; lia. }
  unfold ue, write_ue. fold x. set (n := Z.to_nat (Z.log2 x)).
  assert (Z.log2 x = Z.of_nat n) as Hlog by lia. cbn [msb_bits].
  assert (Z.testbit x (Z.of_nat n) = true) as -> by (rewrite <- Hlog; apply Z.bit_log2; lia).
  change (true :: msb_bits n x) with ([true] ++ msb_bits n x). rewrite app_assoc.
  eapply takes_bind; [apply (takes_zeros n 33 0); lia|]. rewrite Z.add_0_l, <- Hlog.
  destruct (Z.eqb_spec (Z.log2 x) 0) as [E|E].
  - assert (n = 0%nat) as -> by lia. rewrite E, Z.pow_0_r, Z.mod_1_r in Hx. replace v with 0 by lia. apply takes_ret.
  - rewrite <- (app_nil_r (msb_bits n x)). eapply takes_bind; [apply (takes_u_loop n 0 x); [lia|]|].
    { split; [lia|]. apply Z.pow_pos_nonneg; lia. }
    rewrite Z.shiftl_mul_pow2, <- Hlog by lia. takes_value v.
Qed.

Lemma takes_se v : se_ok v → takes se (write_se v) v.
Proof.
  unfold se_ok. intros Hv. unfold se, write_se. rewrite <- (app_nil_r (write_ue _)).
  eapply takes_bind; [apply takes_ue; unfold ue_ok, signed_code; case_if; lia|].
  assert (as_sint 32 (div_ceil (signed_code v) 2) = Z.abs v) as Hm.
  { rewrite <- (as_sint_as_uint 32 (Z.abs v)) by (try lia; unfold is_sint; lia). f_equal.
    unfold as_uint, div_ceil, signed_code. rewrite Z.mod_small by lia.
    destruct (Z.leb_spec v 0); Z.to_euclidean_division_equations; lia. }
  rewrite Hm. assert ((if signed_code v mod 2 =? 0 then - Z.abs v else Z.abs v) = v) as ->; [|apply takes_ret].
  unfold signed_code. destruct (Z.leb_spec v 0).
  - replace (-2 * v) with (- v * 2) by lia. rewrite Z.mod_mul, Z.eqb_refl by lia. lia.
  - replace (2 * v - 1) with (1 + (v - 1) * 2) by lia. rewrite Z.mod_add by lia. change (1 mod 2 =? 0) with false. cbv iota. lia.
Qed.

(** ** A sequence parameter set, as an encoder writes it *)

Inductive poc : Type :=
| PocLsb (log2_max_lsb_minus4 : Z)
| PocCycle (always_zero : bool) (non_ref top_to_bottom : Z) (offsets : list Z)
| PocOther (type : Z).

Record sps_fields : Type := mkSpsFields { f_id : Z; f_log2_max_frame_num : Z; f_poc : poc; f_ref_frames : Z }.

Definition poc_type (p : poc) : Z := match p with PocLsb _ => 0 | PocCycle _ _ _ _ => 1 | PocOther t => t end.

Definition poc_bits (p : poc) : list bool :=
  match p with
  | PocLsb n => write_ue n
  | PocCycle z a b offs => [z] ++ write_se a ++ write_se b ++ write_ue (len offs) ++ concat (map write_se offs)
  | PocOther _ => []
  end.

Definition sps_bits (f : sps_fields) : list bool :=
  write_ue (f_id f) ++ write_ue (f_log2_max_frame_num f) ++ write_ue (poc_type (f_poc f)) ++
  poc_bits (f_poc f) ++ write_ue (f_ref_frames f).

Definition poc_ok (p : poc) : Prop :=
  match p with
  | PocLsb n => ue_ok n
  | PocCycle _ a b offs => se_ok a ∧ se_ok b ∧ len offs ≤ 255 ∧ Forall se_ok offs
  | PocOther t => 2 ≤ t ∧ ue_ok t
  end.

Definition sps_ok (f : sps_fields) : Prop :=
  ue_ok (f_id f) ∧ ue_ok (f_log2_max_frame_num f) ∧ poc_ok (f_poc f) ∧ ue_ok (f_ref_frames f).

Lemma takes_skip_se offs : Forall se_ok offs → takes (skip_se (length offs)) (concat (map write_se offs)) tt.
Proof. induction 1 as [|o offs Ho _ IH]; cbn; [apply takes_ret|]. eapply takes_bind; [by apply takes_se|done]. Qed.

Lemma takes_poc p : poc_ok p →
  takes (if poc_type p =? 0 then _ ← ue; mret tt
         else if poc_type p =? 1 then
           _ ← u 1; _ ← se; _ ← se; n ← ue; if n >? 255 then no_bits else skip_se (Z.to_nat n)
         else mret tt) (poc_bits p) tt.
Proof.
  destruct p as [n|z a b offs|t]; cbn [poc_ok poc_type poc_bits]; intros H.
  - rewrite <- (app_nil_r (write_ue n)). eapply takes_bind; [by apply takes_ue|apply takes_ret].
  - destruct H as (Ha & Hb & Hl & Hf). cbn [Z.eqb Pos.eqb].
    assert (takes (u 1) [z] (Z.b2z z)) as Hu.
    { pose proof (takes_u_loop 1 0 (Z.b2z z) ltac:(lia) ltac:(lia)) as Hu. by destruct z. }
    eapply takes_bind; [exact Hu|]. eapply takes_bind; [by apply takes_se|]. eapply takes_bind; [by apply takes_se|].
    pose proof (len_nonneg offs). eapply takes_bind; [by apply takes_ue; unfold ue_ok; lia|].
    rewrite Z.gtb_ltb, (proj2 (Z.ltb_ge 255 (len offs))) by lia. unfold len. rewrite Nat2Z.id. by apply takes_skip_se.
  - destruct H as [H2 _]. rewrite (proj2 (Z.eqb_neq t 0)), (proj2 (Z.eqb_neq t 1)) by lia. apply takes_ret.
Qed.

Lemma poc_type_ok p : poc_ok p → ue_ok (poc_type p).
Proof. destruct p; cbn; unfold ue_ok; lia. Qed.

Lemma takes_ref_frame_info f :
  sps_ok f → takes read_ref_frame_info (sps_bits f) (mkSpsRefFrameInfo (f_ref_frames f) (poc_type (f_poc f))).
Proof.
  intros (Hi & Hl & Hp & Hr). unfold read_ref_frame_info, sps_bits.
  eapply takes_bind; [by apply takes_ue|]. eapply takes_bind; [by apply takes_ue|].
  eapply takes_bind; [by apply takes_ue, poc_type_ok|]. eapply takes_bind; [by apply takes_poc|].
  rewrite <- (app_nil_r (write_ue _)). eapply takes_bind; [by apply takes_ue|apply takes_ret].
Qed.

(** For every sequence parameter set an encoder can write outside the profiles with a chroma block (any picture order count type, any offsets and cycle of at most 255, all fields in the range of their 32-bit type, with emulation prevention applied), the parser reports exactly the number of reference frames and the picture order count type that were coded, whatever follows them. *)
Theorem sps_ref_frame_info_correct header profile constraints level body f rest :
  profile ∉ SPS_PROFILES_WITH_CHROMA_BLOCK → sps_ok f → Forall (λ b, 0 ≤ b) body → bits_of body = sps_bits f ++ rest →
  sps_ref_frame_info (header :: profile :: constraints :: level :: escape_rbsp body) =
  Some (mkSpsRefFrameInfo (f_ref_frames f) (poc_type (f_poc f))).
Proof.
  intros Hprof Hf Hbody Hbits. unfold sps_ref_frame_info. cbn [lookup list_lookup mbind option_bind].
  rewrite bool_decide_false by done. pose proof (len_nonneg (escape_rbsp body)).
  rewrite (proj2 (Z.ltb_ge _ _)) by (rewrite !len_cons; lia).
  change (zdrop 4 (header :: profile :: constraints :: level :: escape_rbsp body)) with (escape_rbsp body).
  rewrite unescape_escape by done. by rewrite (takes_ref_frame_info f Hf (BitReader_new body) rest).
Qed.

Lemma sps_ref_frame_info_correct_witness :
  sps_ref_frame_info [0x67; 66; 0xC0; 31; 0xD6; 0xDA; 0x90; 0; 0; 3; 0] = Some (mkSpsRefFrameInfo 3 1).
Proof.
  apply (sps_ref_frame_info_correct 0x67 66 0xC0 31 [0xD6; 0xDA; 0x90; 0; 0; 0]
           (mkSpsFields 0 0 (PocCycle true 0 (-1) [1; 0]) 3) (replicate 26 false)).
  - apply (bool_decide_eq_true _). reflexivity.
  - unfold sps_ok. cbn [f_id f_log2_max_frame_num f_poc f_ref_frames poc_ok]. unfold ue_ok, se_ok, len. cbn [length].
    split_and!; try lia. repeat constructor; lia.
  - repeat constructor; lia.
  - reflexivity.
Defined.

(** Zero bytes before the next start code stay with the unit before them. *)
Example split_keeps_trailing_zeros :
  split_annexb [0; 0; 0; 1; 0x67; 0; 0; 0; 0; 0; 1; 0x68] = [mkNal 7 [0x67; 0; 0]; mkNal 8 [0x68]].
Proof. reflexivity. Qed.
