(* ===== verification/AnnexB.v ===== *)
(** * The client's Annex-B reader

    [crates/oxclient/src/decode/annexb.rs]: what the client reads in the NAL
    headers of an access unit, whether it can start a decode, which units it
    holds and in which profile it is coded. The theorems at the end put it
    beside the agent's writer of [H264]: on what the agent reframes, the two
    sides see the same units. *)

From stdpp Require Import pretty.
From S2P Require Import Prelude H264.

Definition NAL_IDR : Z := 5.

(** ** The scans: [while index + 3 < data.len()] *)

Definition short_code (a b c : Z) : bool := (a =? 0) && (b =? 0) && (c =? 1).

Fixpoint contains_idr (data : list Z) : bool :=
  match data with
  | a :: ((b :: c :: header :: r) as r1) =>
    if short_code a b c then
      if (Z.land header 0x80 =? 0) && (Z.land header 0x1f =? NAL_IDR) then true else contains_idr r
    else contains_idr r1
  | _ => false
  end.

Record NalUnit : Type := mkNalUnit { nal_type : Z; ref_idc : Z; nal_len : Z }.

(** The index of each header byte. *)
Fixpoint header_starts (data : list Z) (index : Z) : list Z :=
  match data with
  | a :: ((b :: c :: header :: r) as r1) =>
    if short_code a b c then index + 3 :: header_starts r (index + 4) else header_starts r1 (index + 1)
  | _ => []
  end.

Definition unit_end (data : list Z) (start : Z) (next : option Z) : Z :=
  match next with
  | None => len data
  | Some next =>
    let short := Z.max 0 (next - 3) in
    if (short >? start) && (nth (Z.to_nat (short - 1)) data 0 =? 0) then short - 1 else short
  end.

Fixpoint units_from (data : list Z) (starts : list Z) : list NalUnit :=
  match starts with
  | [] => []
  | start :: starts =>
    let header := nth (Z.to_nat start) data 0 in
    mkNalUnit (Z.land header 0x1f) (Z.land (Z.shiftr header 5) 0x03)
              (Z.max 0 (unit_end data start (head starts) - start)) :: units_from data starts
  end.

Definition units (data : list Z) : list NalUnit := units_from data (header_starts data 0).

Definition has_parameter_sets (data : list Z) : bool :=
  existsb (λ unit, (nal_type unit =? NAL_SPS) || (nal_type unit =? NAL_PPS)) (units data).

Definition slices_are_non_reference (data : list Z) : option bool :=
  let slices := List.filter (λ unit, (nal_type unit =? NAL_SLICE) || (nal_type unit =? NAL_IDR)) (units data) in
  if len slices =? 0 then None else Some (forallb (λ unit, ref_idc unit =? 0) slices).

(** The H.264 name of a unit type. *)
Definition name (nal_type : Z) : string :=
  if nal_type =? 1 then "slice"
  else if (2 <=? nal_type) && (nal_type <=? 4) then "partition-" +:+ pretty nal_type
  else if nal_type =? 5 then "IDR"
  else if nal_type =? 6 then "SEI"
  else if nal_type =? 7 then "SPS"
  else if nal_type =? 8 then "PPS"
  else if nal_type =? 9 then "AUD"
  else if nal_type =? 10 then "end-of-sequence"
  else if nal_type =? 11 then "end-of-stream"
  else if nal_type =? 12 then "filler"
  else if nal_type =? 13 then "SPS-extension"
  else if nal_type =? 14 then "prefix"
  else if nal_type =? 15 then "subset-SPS"
  else if nal_type =? 19 then "auxiliary-slice"
  else if nal_type =? 20 then "slice-extension"
  else "type-" +:+ pretty nal_type.

Definition describe_unit (unit : NalUnit) : string :=
  name (nal_type unit) +:+ "/" +:+ pretty (ref_idc unit) +:+ "(" +:+ pretty (nal_len unit) +:+ ")".

Definition describe (data : list Z) : string :=
  let us := units data in
  if len us =? 0 then "no NAL units in " +:+ pretty (len data) +:+ " bytes"
  else String.concat " " (map describe_unit us).

(** ** Profiles *)

Record StreamProfile : Type := mkStreamProfile { profile_idc : Z; constraints : Z; level_idc : Z }.

Definition is_constrained_baseline (p : StreamProfile) : bool :=
  (profile_idc p =? 66) && negb (Z.land (constraints p) 0x40 =? 0).

Definition profile_name (p : StreamProfile) : string :=
  let i := profile_idc p in
  if (i =? 66) && is_constrained_baseline p then "Constrained Baseline"
  else if i =? 66 then "Baseline"
  else if i =? 77 then "Main"
  else if i =? 88 then "Extended"
  else if i =? 100 then "High"
  else if i =? 110 then "High 10"
  else if i =? 122 then "High 4:2:2"
  else if i =? 244 then "High 4:4:4 Predictive"
  else "unrecognised profile".

Definition level (p : StreamProfile) : string :=
  pretty (level_idc p / 10) +:+ "." +:+ pretty (level_idc p mod 10).

(** [data.get(header + 1..header + 4)?] gives up on the first SPS that is too
    short. *)
Fixpoint stream_profile (data : list Z) : option StreamProfile :=
  match data with
  | a :: ((b :: c :: header :: r) as r1) =>
    if short_code a b c then
      if (Z.land header 0x80 =? 0) && (Z.land header 0x1f =? NAL_SPS) then
        match r with
        | p :: cs :: l :: _ => Some (mkStreamProfile p cs l)
        | _ => None
        end
      else stream_profile r
    else stream_profile r1
  | _ => None
  end.

(** ** What the scans find *)

(** The bytes from each header on. *)
Fixpoint bodies (data : list Z) : list (list Z) :=
  match data with
  | a :: ((b :: c :: header :: r) as r1) =>
    if short_code a b c then (header :: r) :: bodies r else bodies r1
  | _ => []
  end.

(** Induction along a scan. *)
Lemma client_scan_ind (P : list Z → Prop) :
  (∀ data, (length data ≤ 3)%nat → P data) →
  (∀ header r, P r → P (0 :: 0 :: 1 :: header :: r)) →
  (∀ a b c header r, short_code a b c = false → P (b :: c :: header :: r) → P (a :: b :: c :: header :: r)) →
  ∀ data, P data.
Proof.
  intros H0 Hc Hk data. remember (length data) as n eqn:Hn. revert data Hn.
  induction n as [n IH] using (well_founded_induction Nat.lt_wf_0). intros data Hn.
  destruct data as [|a [|b [|c [|h r]]]]; try (apply H0; cbn; lia). cbn in Hn.
  destruct (short_code a b c) eqn:E.
  - unfold short_code in E. bool_to_prop. subst. apply Hc. by eapply IH; [|reflexivity]; lia.
  - apply Hk; [done|]. eapply IH; [|reflexivity]. cbn. lia.
Qed.

Definition header_ok (k : Z) (body : list Z) : bool :=
  (Z.land (hd 0 body) 0x80 =? 0) && (Z.land (hd 0 body) 0x1f =? k).

Lemma contains_idr_bodies data : contains_idr data = existsb (header_ok NAL_IDR) (bodies data).
Proof.
  induction data as [data Hs|h r IH|a b c h r Hc IH] using client_scan_ind.
  - destruct data as [|a [|b [|c [|h r]]]]; cbn in Hs; try done; lia.
  - change (bodies (0 :: 0 :: 1 :: h :: r)) with ((h :: r) :: bodies r). cbn [existsb]. rewrite <- IH.
    unfold header_ok. cbn [hd]. cbn [contains_idr]. change (short_code 0 0 1) with true. cbv iota.
    by destruct ((Z.land h 0x80 =? 0) && (Z.land h 0x1f =? NAL_IDR)).
  - cbn [contains_idr bodies]. rewrite Hc. exact IH.
Qed.

Definition body_profile (body : list Z) : option StreamProfile :=
  match body with
  | _ :: p :: cs :: l :: _ => Some (mkStreamProfile p cs l)
  | _ => None
  end.

Lemma stream_profile_bodies data : stream_profile data = List.find (header_ok NAL_SPS) (bodies data) ≫= body_profile.
Proof.
  induction data as [data Hs|h r IH|a b c h r Hc IH] using client_scan_ind.
  - destruct data as [|a [|b [|c [|h r]]]]; cbn in Hs; try done; lia.
  - change (bodies (0 :: 0 :: 1 :: h :: r)) with ((h :: r) :: bodies r). cbn [List.find stream_profile].
    unfold header_ok at 1. cbn [hd]. change (short_code 0 0 1) with true. cbv iota.
    by destruct ((Z.land h 0x80 =? 0) && (Z.land h 0x1f =? NAL_SPS)).
  - cbn [stream_profile bodies]. rewrite Hc. exact IH.
Qed.

Lemma header_starts_bodies data i : header_starts data i = map (λ body, i + len data - len body) (bodies data).
Proof.
  revert i. induction data as [data Hs|h r IH|a b c h r Hc IH] using client_scan_ind; intros i.
  - destruct data as [|a [|b [|c [|h r]]]]; cbn in Hs; try done; lia.
  - change (bodies (0 :: 0 :: 1 :: h :: r)) with ((h :: r) :: bodies r).
    change (header_starts (0 :: 0 :: 1 :: h :: r) i) with (i + 3 :: header_starts r (i + 4)).
    cbn [map]. rewrite IH, !len_cons. f_equal; [lia|]. apply map_ext. intros body. lia.
  - cbn [header_starts bodies]. rewrite Hc. etrans; [apply IH|]. apply map_ext. intros body. rewrite !len_cons. lia.
Qed.

(** ** On a stream of units *)

(** Each unit and what follows it. *)
Fixpoint unit_bodies (ps : list (list Z)) : list (list Z) :=
  match ps with [] => [] | p :: ps => (p ++ annexb ps) :: unit_bodies ps end.

(** A scan passes over bytes without a start code, up to the next unit. *)
Lemma bodies_skip p ps : has_code p = false → bodies (p ++ annexb ps) = bodies (annexb ps).
Proof.
  induction p as [|a p IH]; intros Hc; [done|].
  assert (has_code p = false) as Hp.
  { destruct p as [|b [|c p]]; [done..|]. cbn [has_code] in Hc. by apply orb_false_iff in Hc as [_ ?]. }
  rewrite <- IH by done. cbn [app].
  destruct (p ++ annexb ps) as [|b [|c [|h r]]] eqn:E; [done..|]. cbn [bodies].
  assert (short_code a b c = false) as ->; [|done]. unfold short_code.
  destruct p as [|b' [|c' p]]; cbn in E.
  - destruct ps as [|q ps]; [done|]. injection E as <- <- <- _. by rewrite !andb_false_r.
  - destruct ps as [|q ps]; [done|]. injection E as <- <- <- _. by rewrite !andb_false_r.
  - injection E as -> -> _. cbn [has_code] in Hc. by apply orb_false_iff in Hc as [? _].
Qed.

Lemma bodies_annexb ps : Forall payload_ok ps → bodies (annexb ps) = unit_bodies ps.
Proof.
  induction 1 as [|p ps [Hne Hc] _ IH]; [done|]. destruct p as [|h p]; [done|].
  change (annexb ((h :: p) :: ps)) with (0 :: 0 :: 0 :: 1 :: h :: (p ++ annexb ps)).
  cbn [bodies unit_bodies app]. change (short_code 0 0 0) with false. change (short_code 0 0 1) with true. cbv iota.
  rewrite bodies_skip, IH; [done|]. destruct p as [|b [|c p]]; [done..|]. cbn [has_code] in Hc.
  by apply orb_false_iff in Hc as [_ ?].
Qed.

Definition unit_of (p : list Z) : NalUnit :=
  mkNalUnit (Z.land (hd 0 p) 0x1f) (Z.land (Z.shiftr (hd 0 p) 5) 0x03) (len p).

Lemma hd_app_nonempty (p q : list Z) : p ≠ [] → hd 0 (p ++ q) = hd 0 p.
Proof. by destruct p. Qed.

Lemma nth_prefix (pre : list Z) x r : nth (Z.to_nat (len pre)) (pre ++ x :: r) 0 = x.
Proof. unfold len. rewrite Nat2Z.id, app_nth2 by lia. by rewrite Nat.sub_diag. Qed.

(** A unit ends where the next start code's leading zero is. *)
Lemma unit_end_annexb pre p ps :
  p ≠ [] →
  unit_end (pre ++ p ++ annexb ps) (len pre)
    (head (map (λ body, len (pre ++ p ++ annexb ps) - len body) (unit_bodies ps))) = len pre + len p.
Proof.
  intros Hne. assert (0 < len p) by (destruct p; [done|]; rewrite len_cons; pose proof (len_nonneg p); lia).
  pose proof (len_nonneg pre). destruct ps as [|q ps]; cbn [unit_bodies map head unit_end].
  - rewrite !len_app. change (len (annexb [])) with 0. lia.
  - replace (Z.max 0 _) with (len (pre ++ p) + 1).
    2: { change (annexb (q :: ps)) with (START_CODE ++ q ++ annexb ps). rewrite !len_app.
         change (len START_CODE) with 4. pose proof (len_nonneg q). pose proof (len_nonneg (annexb ps)). lia. }
    rewrite len_app at 1. rewrite (proj2 (Z.gtb_lt _ _)) by lia.
    replace (len (pre ++ p) + 1 - 1) with (len (pre ++ p)) by lia. rewrite app_assoc.
    change (annexb (q :: ps)) with (0 :: [0; 0; 1] ++ q ++ annexb ps). rewrite nth_prefix. cbn. by rewrite len_app.
Qed.

Lemma units_from_annexb ps : ∀ pre, Forall payload_ok ps →
  units_from (pre ++ annexb ps) (map (λ body, len (pre ++ annexb ps) - len body) (unit_bodies ps)) = map unit_of ps.
Proof.
  induction ps as [|p ps IH]; intros pre Hps; [done|]. inversion Hps as [|? ? [Hne Hc] Hps']; subst.
  cbn [unit_bodies map units_from].
  specialize (IH (pre ++ START_CODE ++ p) Hps').
  change (annexb (p :: ps)) with (START_CODE ++ p ++ annexb ps).
  replace (pre ++ START_CODE ++ p ++ annexb ps) with ((pre ++ START_CODE) ++ p ++ annexb ps) by (by rewrite <- !app_assoc).
  replace ((pre ++ START_CODE ++ p) ++ annexb ps) with ((pre ++ START_CODE) ++ p ++ annexb ps) in IH by (by rewrite <- !app_assoc).
  rewrite IH. f_equal. set (pre' := pre ++ START_CODE).
  replace (len (pre' ++ p ++ annexb ps) - len (p ++ annexb ps)) with (len pre') by (rewrite (len_app pre'); lia).
  rewrite unit_end_annexb by done. destruct p as [|h p]; [done|]. cbn [app]. rewrite nth_prefix. unfold unit_of.
  cbn [hd]. f_equal. pose proof (len_nonneg (h :: p)). lia.
Qed.

Lemma units_annexb ps : Forall payload_ok ps → units (annexb ps) = map unit_of ps.
Proof.
  intros Hps. unfold units. rewrite header_starts_bodies, bodies_annexb by done.
  rewrite <- (units_from_annexb ps []) by done. cbn [app]. f_equal.
Qed.

Lemma find_unit_bodies (f : Z → bool) ps :
  Forall payload_ok ps →
  List.find (λ b, f (hd 0 b)) (unit_bodies ps) = None ∧ List.find (λ p, f (hd 0 p)) ps = None ∨
  (∃ p r, List.find (λ p, f (hd 0 p)) ps = Some p ∧ List.find (λ b, f (hd 0 b)) (unit_bodies ps) = Some (p ++ r)).
Proof.
  induction 1 as [|p ps [Hne _] _ IH]; [by left|]. cbn [unit_bodies List.find]. rewrite hd_app_nonempty by done.
  destruct (f (hd 0 p)); [right; by eexists _, _|exact IH].
Qed.

Lemma contains_idr_annexb ps : Forall payload_ok ps → contains_idr (annexb ps) = existsb (header_ok NAL_IDR) ps.
Proof.
  intros Hps. rewrite contains_idr_bodies, bodies_annexb by done.
  induction Hps as [|p ps [Hne _] _ IH]; [done|]. cbn [unit_bodies existsb]. rewrite IH. unfold header_ok.
  by rewrite hd_app_nonempty.
Qed.

Lemma stream_profile_annexb ps p :
  Forall payload_ok ps → List.find (header_ok NAL_SPS) ps = Some p → 4 ≤ len p →
  stream_profile (annexb ps) = (λ t, mkStreamProfile t.1.1 t.1.2 t.2) <$> sps_profile p.
Proof.
  intros Hps Hf Hlen. rewrite stream_profile_bodies, bodies_annexb by done.
  destruct (find_unit_bodies (λ h, (Z.land h 0x80 =? 0) && (Z.land h 0x1f =? NAL_SPS)) ps Hps)
    as [[_ E]|(p' & r & E & E')].
  - unfold header_ok in Hf. congruence.
  - unfold header_ok in *. rewrite E'. rewrite Hf in E. injection E as <-.
    destruct p as [|a [|b [|c [|d p]]]]; rewrite ?len_cons in Hlen; try (change (len (@nil Z)) with 0 in Hlen; lia). done.
Qed.

(** ** The agent's stream, read by the client *)

Definition kind_of (p : list Z) : Z := nal_kind (make_nal p).

Lemma existsb_none {A} (f : A → bool) l : Forall (λ x, f x = false) l → existsb f l = false.
Proof. induction 1 as [|x l Hx _ IH]; [done|]. cbn. by rewrite Hx. Qed.

Lemma of_kind_only k ns : nals_ok ns → Forall (λ p, kind_of p = k) (of_kind k ns).
Proof. intros H. eapply Forall_impl; [by apply of_kind_ok|]. by intros p [_ ?]. Qed.

Lemma others_kinds b ns :
  nals_ok ns → Forall (λ p, kind_of p ∉ [NAL_SLICE; NAL_SLICE_IDR; NAL_SEI; NAL_SPS; NAL_PPS]) (others b ns).
Proof.
  intros Hns. revert b. induction Hns as [|n ns [_ Hn] _ IH]; intros b; cbn [others]; [constructor|].
  assert (nal_kind n = kind_of (nal_payload n)) as Hk by (rewrite Hn at 1; done).
  unfold is_slice, is_kind. rewrite Hk. destruct (Z.eqb_spec (kind_of (nal_payload n)) NAL_AUD) as [E|_].
  - destruct b; [|by apply IH]. constructor; [|by apply IH]. rewrite E. by apply (bool_decide_eq_true _).
  - match goal with |- context [if ?b then _ else _] => destruct b eqn:E end; [by apply IH|].
    constructor; [|by apply IH]. rewrite !orb_false_iff, !Z.eqb_neq in E. rewrite !not_elem_of_cons.
    pose proof (not_elem_of_nil (kind_of (nal_payload n))). tauto.
Qed.

Lemma head_forall {A} (P : A → Prop) l : Forall P l → Forall P (opt_list (head l)).
Proof. destruct 1; [constructor|]. by apply Forall_singleton. Qed.

Lemma param_kind k ns cached :
  nals_ok ns → entry_ok k cached → Forall (λ p, kind_of p = k) (opt_list (param k ns cached)).
Proof.
  intros Hns Hc. destruct (param k ns cached) as [p|] eqn:E; [|constructor]. apply Forall_singleton.
  by eapply param_ok in E as [_ ?].
Qed.

(** Only the slices of a layout hold what is looked for in slices. *)
Lemma existsb_layout_slices f ns cached :
  nals_ok ns → cache_ok cached →
  (∀ p, f p = true → kind_of p = NAL_SLICE_IDR) →
  existsb f (layout ns cached) = existsb (λ n, f (nal_payload n)) ns.
Proof.
  intros Hns [Hs Hp] Hf. unfold layout. rewrite !existsb_app.
  assert (∀ p, kind_of p ≠ NAL_SLICE_IDR → f p = false) as Hno.
  { intros p Hk. destruct (f p) eqn:E; [|done]. by apply Hf in E. }
  assert (∀ k l, k ≠ NAL_SLICE_IDR → Forall (λ p, kind_of p = k) l → existsb f l = false) as Hkind.
  { intros k l Hk Hl. apply existsb_none. eapply Forall_impl; [exact Hl|]. intros p Ep. apply Hno. congruence. }
  rewrite (Hkind NAL_AUD) by (done || by apply head_forall, of_kind_only).
  rewrite (Hkind NAL_SEI) by (done || by apply of_kind_only).
  assert (existsb f (others false ns) = false) as ->.
  { apply existsb_none. eapply Forall_impl; [by apply others_kinds|]. intros p Hin. apply Hno. cbn in Hin. set_solver. }
  rewrite orb_false_r. cbn [orb].
  assert (existsb f (if has_idr ns then opt_list (param NAL_SPS ns (cached_sps cached)) ++
            opt_list (param NAL_PPS ns (cached_pps cached)) else []) = false) as ->.
  { destruct (has_idr ns); [|done]. rewrite existsb_app.
    by rewrite (Hkind NAL_SPS), (Hkind NAL_PPS) by (done || by apply param_kind). }
  cbn [orb]. clear Hs Hp. induction Hns as [|n ns [_ Hn] _ IH]; [done|]. cbn [List.filter existsb].
  destruct (is_slice n) eqn:E; cbn [map existsb]; rewrite IH; [done|].
  rewrite (Hno (nal_payload n)); [done|]. unfold kind_of. rewrite <- Hn. unfold is_slice, is_kind in E.
  rewrite orb_false_iff, !Z.eqb_neq in E. tauto.
Qed.

Lemma is_slice_kind ns : nals_ok ns →
  Forall (λ p, kind_of p = NAL_SLICE ∨ kind_of p = NAL_SLICE_IDR) (map nal_payload (List.filter is_slice ns)).
Proof.
  induction 1 as [|n ns [_ Hn] _ IH]; [constructor|]. cbn [List.filter]. destruct (is_slice n) eqn:E; [|done].
  constructor; [|done]. unfold kind_of. rewrite <- Hn. unfold is_slice, is_kind in E.
  rewrite orb_true_iff, !Z.eqb_eq in E. tauto.
Qed.

Definition is_param_set (p : list Z) : bool := (kind_of p =? NAL_SPS) || (kind_of p =? NAL_PPS).

Lemma params_on_keyframes_only ns cached :
  nals_ok ns → cache_ok cached → has_idr ns = false → existsb is_param_set (layout ns cached) = false.
Proof.
  intros Hns Hc Hi. unfold layout. rewrite Hi. apply existsb_none. rewrite !Forall_app. unfold is_param_set. split_and!.
  - eapply Forall_impl; [by apply head_forall, of_kind_only|]. intros p Ep. cbv beta in *. by rewrite Ep.
  - eapply Forall_impl; [by apply of_kind_only|]. intros p Ep. cbv beta in *. by rewrite Ep.
  - constructor.
  - eapply Forall_impl; [by apply is_slice_kind|]. intros p [Ep|Ep]; by rewrite Ep.
  - eapply Forall_impl; [by apply others_kinds|]. intros p Hin. cbn in Hin. rewrite !not_elem_of_cons in Hin.
    apply orb_false_iff. rewrite !Z.eqb_neq. tauto.
Qed.

Lemma params_on_every_keyframe ns cached :
  nals_ok ns → cache_ok cached → has_idr ns = true → is_complete (refreshed ns cached) = true →
  existsb is_param_set (layout ns cached) = true.
Proof.
  intros Hns [Hs _] Hi Hfull. unfold layout. rewrite Hi, !existsb_app. unfold is_complete, refreshed in Hfull.
  cbn [cached_sps cached_pps] in Hfull. apply andb_true_iff in Hfull as [Hfull _].
  assert (existsb is_param_set (opt_list (param NAL_SPS ns (cached_sps cached))) = true) as ->.
  { destruct (param NAL_SPS ns (cached_sps cached)) as [p|] eqn:E.
    - eapply param_ok in E as [_ E]; [|done..]. cbn. unfold is_param_set, kind_of. by rewrite E.
    - unfold param, or_cached in E. destruct (last (of_kind NAL_SPS ns)); [done|].
      cbn in Hfull. by destruct (len (cached_sps cached) =? 0). }
  cbn. by rewrite !orb_true_r.
Qed.

(** The [forbidden_zero_bit] of a header. *)
Definition forbidden_clear (p : list Z) : bool := Z.land (hd 0 p) 0x80 =? 0.

Lemma idr_seen ns :
  nals_ok ns → Forall (λ n, forbidden_clear (nal_payload n) = true) ns →
  existsb (λ n, header_ok NAL_IDR (nal_payload n)) ns = has_idr ns.
Proof.
  unfold nals_ok. intros Hns Hf. induction Hf as [|n ns Hn _ IH]; [done|].
  inversion Hns as [|? ? [_ E] Hns']; subst. unfold has_idr in *. cbn [existsb]. rewrite IH by done. f_equal.
  unfold header_ok, is_kind. rewrite E. unfold forbidden_clear in Hn. rewrite E in Hn. by rewrite Hn.
Qed.

(** C33: whatever the encoder emitted and whatever parameter sets were cached, the client's reader finds in the reframed access unit exactly the units the agent laid out, with the same types, reference bits and lengths; it sees an IDR slice only in what the agent flags as a keyframe, and exactly there when the encoder's headers have their forbidden bit clear; a frame that is no keyframe carries no parameter sets, and a keyframe carries them as soon as both are known. *)
Theorem client_reads_agent_stream raw cached out key cached' :
  cache_ok cached → reframe raw cached = (out, key, cached') →
  units out = map unit_of (layout (split_annexb raw) cached) ∧
  (contains_idr out = true → key = true) ∧
  (Forall (λ n, forbidden_clear (nal_payload n) = true) (split_annexb raw) → contains_idr out = key) ∧
  (key = false → has_parameter_sets out = false) ∧
  (key = true → is_complete cached' = true → has_parameter_sets out = true).
Proof.
  rewrite reframe_layout. intros Hc [= <- <- <-]. set (ns := split_annexb raw).
  assert (nals_ok ns) as Hns by apply split_payload_ok.
  assert (Forall payload_ok (layout ns cached)) as Hl by (by apply layout_ok).
  assert (has_parameter_sets (annexb (layout ns cached)) = existsb is_param_set (layout ns cached)) as Hps.
  { unfold has_parameter_sets. rewrite units_annexb by done. induction (layout ns cached) as [|p l IH]; [done|].
    cbn. inversion Hl; subst. by rewrite IH. }
  assert (contains_idr (annexb (layout ns cached)) = existsb (λ n, header_ok NAL_IDR (nal_payload n)) ns) as Hidr.
  { rewrite contains_idr_annexb by done. apply existsb_layout_slices; [done|done|]. intros p Hp.
    unfold header_ok in Hp. apply andb_true_iff in Hp as [_ Hp]. by apply Z.eqb_eq. }
  rewrite Hps, Hidr. split_and!.
  - by apply units_annexb.
  - intros (n & Hin & Hn)%existsb_exists. apply existsb_exists. exists n. split; [done|].
    apply list_elem_of_In in Hin. unfold nals_ok in Hns. rewrite Forall_forall in Hns. destruct (Hns n Hin) as [_ E].
    unfold header_ok in Hn. apply andb_true_iff in Hn as [_ Hn]. unfold is_kind. by rewrite E.
  - intros Hf. by apply idr_seen.
  - intros Hi. by apply params_on_keyframes_only.
  - intros Hi. by apply params_on_every_keyframe.
Qed.

Lemma client_reads_agent_stream_witness :
  let raw := [0; 0; 1; 0x67; 0x42; 0xC0; 0x1F; 0; 0; 1; 0x68; 0xCE; 0; 0; 1; 0x65; 0x88] in
  let out := annexb [[0x67; 0x42; 0xC0; 0x1F]; [0x68; 0xCE]; [0x65; 0x88]] in
  contains_idr out = true ∧ units out = [mkNalUnit 7 3 4; mkNalUnit 8 3 2; mkNalUnit 5 3 2].
Proof.
  intros raw out.
  destruct (client_reads_agent_stream raw ParamSets_default out true (mkParamSets [0x67; 0x42; 0xC0; 0x1F] [0x68; 0xCE]))
    as (H1 & _ & H2 & _ & _).
  - split; by left.
  - reflexivity.
  - split; [apply H2; repeat constructor|exact H1].
Defined.
