(* ===== verification/Yuv.v ===== *)
(** * Pixel conversion on both sides

    [crates/oxclient/src/decode/yuv.rs]: I420 planes to packed BGRA, eight
    pixels at a time with a scalar tail, and
    [crates/oxagent/src/nv12.rs]: packed BGRA to NV12.

    The vector type of the [wide] package is a class of operations with the
    laws its documentation gives: lane by lane, wrapping, arithmetic shift.
    The run-time dispatch around [convert_picture] chooses between compilations
    of the same body and is left out. Overflow of [usize] and [i32] arithmetic
    outside the vectors is a panic. *)

From S2P Require Import Prelude.

Abbreviation run := (outcome Empty_set).

(** ** Checked arithmetic *)

Definition checked_usize (x : Z) : option Z := try_from_uint 64 x.
Definition mul_usize (a b : Z) : run Z := expect (checked_usize (a * b)).
Definition in_i32 (x : Z) : run Z := if (- 2 ^ 31 <=? x) && (x <? 2 ^ 31) then Ok x else Panic.

(** ** [chunks_exact] and its remainder *)

Definition chunks_exact {A} (n : nat) (l : list A) : list (list A) :=
  map (λ i, take n (drop (i * n) l)) (seq 0 (length l / n)).
Definition remainder {A} (n : nat) (l : list A) : list A := drop (length l / n * n) l.

(** ** [yuv.rs] *)

Record I420Planes : Type := mkI420 {
  p_y : list Z; p_u : list Z; p_v : list Z;
  p_width : Z; p_height : Z;
  y_stride : Z; u_stride : Z; v_stride : Z
}.

Definition plane_fits (plane : list Z) (rows stride row_bytes : Z) : bool :=
  match (offset ← (last ← checked_usize (rows - 1); checked_usize (last * stride)); checked_usize (offset + row_bytes)) with
  | Some needed => needed <=? len plane
  | None => false
  end.

Definition is_addressable (p : I420Planes) : bool :=
  if (p_width p =? 0) || (p_height p =? 0) then false
  else
    let chroma_width := div_ceil (p_width p) 2 in
    let chroma_height := div_ceil (p_height p) 2 in
    if (y_stride p <? p_width p) || (u_stride p <? chroma_width) || (v_stride p <? chroma_width) then false
    else plane_fits (p_y p) (p_height p) (y_stride p) (p_width p)
         && plane_fits (p_u p) chroma_height (u_stride p) chroma_width
         && plane_fits (p_v p) chroma_height (v_stride p) chroma_width.

Definition Y_SCALE : Z := 76309.
Definition R_V : Z := 104597.
Definition G_U : Z := -25675.
Definition G_V : Z := -53279.
Definition B_U : Z := 132201.
Definition HALF : Z := Z.shiftl 1 15.

(** *** The scalar reference *)

Definition clamp_u8 (q16 : Z) : run Z :=
  s ← in_i32 (q16 + HALF);
  let value := Z.shiftr s 16 in
  Ok (as_uint 8 (Z.min (Z.max value 0) 255)).

Definition chroma_offsets (cb cr : Z) : run (Z * Z * Z) :=
  cb ← in_i32 (cb - 128);
  cr ← in_i32 (cr - 128);
  blue ← in_i32 (B_U * cb);
  gu ← in_i32 (G_U * cb);
  gv ← in_i32 (G_V * cr);
  green ← in_i32 (gu + gv);
  red ← in_i32 (R_V * cr);
  Ok (blue, green, red).

(** The four bytes of a pixel. *)
Definition write_pixel (luma blue green red : Z) : run (list Z) :=
  s ← in_i32 (luma - 16);
  l ← in_i32 (Y_SCALE * s);
  qb ← in_i32 (l + blue);
  b ← clamp_u8 qb;
  qg ← in_i32 (l + green);
  g ← clamp_u8 qg;
  qr ← in_i32 (l + red);
  r ← clamp_u8 qr;
  Ok [b; g; r; 0xff].

(** Two pixels for each chroma sample; [zip] stops at the shortest. *)
Fixpoint pair_loop (pairs lumas : list (list Z)) (cb cr : list Z) : run (list Z) :=
  match pairs, lumas, cb, cr with
  | _ :: pairs, luma :: lumas, b :: cb, r :: cr =>
    o ← chroma_offsets b r;
    let '(blue, green, red) := o in
    first ← index luma 0;
    p1 ← write_pixel first blue green red;
    second ← index luma 1;
    p2 ← write_pixel second blue green red;
    rest ← pair_loop pairs lumas cb cr;
    Ok (p1 ++ p2 ++ rest)
  | _, _, _, _ => Ok (concat pairs)
  end.

Definition convert_row (luma cb cr out : list Z) : run (list Z) :=
  if negb (len out =? len luma * 4) then Panic
  else
    body ← pair_loop (chunks_exact 8 out) (chunks_exact 2 luma) cb cr;
    let tail := remainder 8 out in
    if len tail =? 0 then Ok body
    else
      last ← sub_uint (len cb) 1;
      b ← index cb last;
      r ← index cr last;
      o ← chroma_offsets b r;
      let '(blue, green, red) := o in
      final ← sub_uint (len luma) 1;
      y ← index luma final;
      p ← write_pixel y blue green red;
      Ok (body ++ p).

(** *** The vector path *)

Class I32x8 : Type := {
  vec : Type;
  vec_from : list Z → vec;
  to_array : vec → list Z;
  vec_add : vec → vec → vec;
  vec_mul : vec → vec → vec;
  vec_shr : vec → Z → vec;
  vec_max : vec → vec → vec;
  vec_min : vec → vec → vec
}.

Class I32x8Laws `{I32x8} : Prop := {
  from_to l : length l = 8%nat → Forall i32 l → to_array (vec_from l) = l;
  add_lanes a b : to_array (vec_add a b) = zip_with (λ x y, as_sint 32 (x + y)) (to_array a) (to_array b);
  mul_lanes a b : to_array (vec_mul a b) = zip_with (λ x y, as_sint 32 (x * y)) (to_array a) (to_array b);
  shr_lanes a n : 0 ≤ n < 32 → to_array (vec_shr a n) = map (λ x, Z.shiftr x n) (to_array a);
  max_lanes a b : to_array (vec_max a b) = zip_with Z.max (to_array a) (to_array b);
  min_lanes a b : to_array (vec_min a b) = zip_with Z.min (to_array a) (to_array b)
}.

Fixpoint pixels (blue green red : list Z) : list Z :=
  match blue, green, red with
  | b :: blue, g :: green, r :: red =>
    [as_uint 8 b; as_uint 8 g; as_uint 8 r; 0xff] ++ pixels blue green red
  | _, _, _ => []
  end.

Section Vector.
Context `{I32x8}.

Definition splat (x : Z) : vec := vec_from (replicate 8 x).

(** One step of the loop: eight luma samples, four of each chroma. *)
Definition octet (luma cb cr : list Z) : list Z :=
  let y := vec_mul (vec_from (map (λ s, s - 16) luma)) (splat Y_SCALE) in
  let u := vec_from (flat_map (λ s, [s - 128; s - 128]) cb) in
  let v := vec_from (flat_map (λ s, [s - 128; s - 128]) cr) in
  let finish q := to_array (vec_min (vec_max (vec_shr (vec_add q (splat HALF)) 16) (splat 0)) (splat 255)) in
  let blue := finish (vec_add y (vec_mul u (splat B_U))) in
  let green := finish (vec_add (vec_add y (vec_mul u (splat G_U))) (vec_mul v (splat G_V))) in
  let red := finish (vec_add y (vec_mul v (splat R_V))) in
  pixels blue green red.

Fixpoint octet_loop (octets lumas cbs crs : list (list Z)) : list Z :=
  match octets, lumas, cbs, crs with
  | _ :: octets, luma :: lumas, cb :: cbs, cr :: crs => octet luma cb cr ++ octet_loop octets lumas cbs crs
  | _, _, _, _ => concat octets
  end.

Definition convert_row_vector (luma cb cr out : list Z) : run (list Z) :=
  let body := octet_loop (chunks_exact 32 out) (chunks_exact 8 luma) (chunks_exact 4 cb) (chunks_exact 4 cr) in
  let whole := len luma - len luma mod 8 in
  if whole <? len luma then
    l ← slice luma whole (len luma);
    b ← slice cb (whole / 2) (len cb);
    r ← slice cr (whole / 2) (len cr);
    tail ← convert_row l b r (remainder 32 out);
    Ok (body ++ tail)
  else Ok (body ++ remainder 32 out).

(** [&plane[at..][..n]] *)
Definition row_of (plane : list Z) (row stride n : Z) : run (list Z) :=
  pos ← mul_usize row stride;
  rest ← slice plane pos (len plane);
  slice rest 0 n.

(** [for row in row..height], writing each row in place. *)
Fixpoint convert_rows (p : I420Planes) (n : nat) (row : Z) (out : list Z) : run (list Z) :=
  match n with
  | O => Ok out
  | S n =>
    let chroma_width := div_ceil (p_width p) 2 in
    luma ← row_of (p_y p) row (y_stride p) (p_width p);
    cb ← row_of (p_u p) (row / 2) (u_stride p) chroma_width;
    cr ← row_of (p_v p) (row / 2) (v_stride p) chroma_width;
    w4 ← mul_usize (p_width p) 4;
    rw ← mul_usize row (p_width p);
    pos ← mul_usize rw 4;
    rest ← slice out pos (len out);
    old ← slice rest 0 w4;
    new ← convert_row_vector luma cb cr old;
    convert_rows p n (row + 1) (ztake pos out ++ new ++ zdrop (pos + w4) out)
  end.

Definition convert_picture (p : I420Planes) (out : list Z) : run (list Z) :=
  convert_rows p (Z.to_nat (p_height p)) 0 out.

Definition i420_to_bgra (p : I420Planes) : run (option (list Z)) :=
  if negb (is_addressable p) then Ok None
  else
    match (pixels ← checked_usize (p_width p * p_height p); checked_usize (pixels * 4)) with
    | None => Ok None
    | Some n => bgra ← convert_picture p (replicate (Z.to_nat n) 0); Ok (Some bgra)
    end.
End Vector.

(** ** [nv12.rs] *)

Definition luma (r g b : Z) : Z :=
  as_uint 8 (Z.min (Z.max (Z.shiftr (77 * r + 150 * g + 29 * b) 8) 0) 255).

Definition chroma (r g b : Z) : Z * Z :=
  let u := Z.shiftr (-43 * r - 85 * g + 128 * b) 8 + 128 in
  let v := Z.shiftr (128 * r - 107 * g - 21 * b) 8 + 128 in
  (as_uint 8 (Z.min (Z.max u 0) 255), as_uint 8 (Z.min (Z.max v 0) 255)).

(** The blue, green and red of pixel [col] of a row. *)
Definition pixel_at (src_row : list Z) (col : nat) : Z * Z * Z :=
  (nth (col * 4 + 2) src_row 0, nth (col * 4 + 1) src_row 0, nth (col * 4) src_row 0).

(** [&bgra[row * width * 4..(row + 1) * width * 4]] *)
Definition src_row (bgra : list Z) (width row : nat) : list Z :=
  take (width * 4) (drop (row * width * 4) bgra).

(** [(0..n).step_by(2)] *)
Definition step_by2 (n : nat) : list nat := map (λ i, 2 * i)%nat (seq 0 ((n + 1) / 2)).

(** One row's pass over the luma plane, and one even row's over the chroma
    plane: each sample is stored where the code stores it. *)
Definition put_luma (bgra : list Z) (width : nat) (y_plane : list Z) (row : nat) : list Z :=
  fold_left (λ plane col, let '(r, g, b) := pixel_at (src_row bgra width row) col in
                          <[(row * width + col)%nat := luma r g b]> plane) (seq 0 width) y_plane.

Definition put_chroma (bgra : list Z) (width : nat) (uv_plane : list Z) (row : nat) : list Z :=
  fold_left (λ plane col, let '(r, g, b) := pixel_at (src_row bgra width row) col in
                          let '(u, v) := chroma r g b in
                          <[(row / 2 * width + (col + 1))%nat := v]> (<[(row / 2 * width + col)%nat := u]> plane))
            (step_by2 width) uv_plane.

Definition bgra_to_nv12 (bgra : list Z) (width height : nat) : run (list Z) :=
  if negb (Nat.even width) then Panic
  else if negb (Nat.even height) then Panic
  else if negb (length bgra =? width * height * 4)%nat then Panic
  else
    let y_plane := replicate (width * height) 0 in
    let uv_plane := replicate (width * (height / 2)) 0 in
    Ok (fold_left (put_luma bgra width) (seq 0 height) y_plane ++
        fold_left (put_chroma bgra width) (step_by2 height) uv_plane).

(** ** The reference: one pixel from one sample of each plane *)

Definition clamp_q16 (q : Z) : Z := Z.max 0 (Z.min 255 ((q + 32768) / 65536)).

Definition bgra_pixel (y u v : Z) : list Z :=
  let l := 76309 * (y - 16) in
  [clamp_q16 (l + 132201 * (u - 128));
   clamp_q16 (l + -25675 * (u - 128) + -53279 * (v - 128));
   clamp_q16 (l + 104597 * (v - 128)); 255].

(** A row: each chroma sample serves two pixels. *)
Fixpoint row_ref (luma cb cr : list Z) : list Z :=
  match luma, cb, cr with
  | y1 :: y2 :: luma, u :: cb, v :: cr => bgra_pixel y1 u v ++ bgra_pixel y2 u v ++ row_ref luma cb cr
  | [y1], u :: _, v :: _ => bgra_pixel y1 u v
  | _, _, _ => []
  end.

(** *** Arithmetic that fits *)

Lemma in_i32_ok x : - 2 ^ 31 ≤ x < 2 ^ 31 → in_i32 x = Ok x.
Proof. intros H. unfold in_i32. rewrite (proj2 (Z.leb_le _ _)), (proj2 (Z.ltb_lt _ _)) by lia. done. Qed.

Lemma clamp_u8_ok q : - 2 ^ 31 ≤ q < 2 ^ 31 - 32768 → clamp_u8 q = Ok (clamp_q16 q).
Proof.
  intros Hq. unfold clamp_u8, HALF. change (Z.shiftl 1 15) with 32768. rewrite in_i32_ok by lia. cbn.
  f_equal. rewrite Z.shiftr_div_pow2 by lia. change (2 ^ 16) with 65536. unfold as_uint, clamp_q16.
  rewrite Z.mod_small; lia.
Qed.

Ltac fits := unfold is_uint, Y_SCALE, R_V, G_U, G_V, B_U in *; lia.

Ltac run_i32 := repeat (rewrite in_i32_ok by fits; cbn [mbind outcome_bind]).

Definition offsets (u v : Z) : Z * Z * Z :=
  (B_U * (u - 128), G_U * (u - 128) + G_V * (v - 128), R_V * (v - 128)).

Lemma chroma_offsets_ok u v : u8 u → u8 v → chroma_offsets u v = Ok (offsets u v).
Proof. intros Hu Hv. unfold chroma_offsets. by run_i32. Qed.

Lemma write_pixel_ok y u v :
  u8 y → u8 u → u8 v →
  (let '(blue, green, red) := offsets u v in write_pixel y blue green red) = Ok (bgra_pixel y u v).
Proof.
  intros Hy Hu Hv. unfold offsets, write_pixel. run_i32. rewrite !clamp_u8_ok by fits. cbn [mbind outcome_bind].
  by rewrite Z.add_assoc.
Qed.

(** ** Chunks *)

Lemma chunks_exact_app {A} n (c l : list A) :
  (0 < n)%nat → length c = n → chunks_exact n (c ++ l) = c :: chunks_exact n l.
Proof.
  intros Hn Hc. unfold chunks_exact. rewrite length_app, Hc.
  replace ((n + length l) / n)%nat with (S (length l / n)).
  2: { replace (n + length l)%nat with (length l + 1 * n)%nat by lia. rewrite Nat.div_add by lia. lia. }
  cbn [seq map]. f_equal.
  - by rewrite drop_0, <- Hc, take_app_length.
  - rewrite <- seq_shift, map_map. apply map_ext. intros i.
    replace (S i * n)%nat with (length c + i * n)%nat by lia. by rewrite drop_app_add'.
Qed.

Lemma chunks_exact_short {A} n (l : list A) : (length l < n)%nat → chunks_exact n l = [].
Proof. intros H. unfold chunks_exact. by rewrite Nat.div_small. Qed.

Lemma remainder_app {A} n (c l : list A) : (0 < n)%nat → length c = n → remainder n (c ++ l) = remainder n l.
Proof.
  intros Hn Hc. unfold remainder. rewrite length_app, Hc.
  replace (n + length l)%nat with (length l + 1 * n)%nat by lia. rewrite Nat.div_add by lia.
  replace ((length l / n + 1) * n)%nat with (length c + length l / n * n)%nat by lia. by rewrite drop_app_add'.
Qed.

Lemma remainder_short {A} n (l : list A) : (length l < n)%nat → remainder n l = l.
Proof. intros H. unfold remainder. by rewrite Nat.div_small. Qed.

(** The first [n] elements, split off. *)
Lemma split_first {A} n (l : list A) : (n <= length l)%nat → ∃ c r, l = c ++ r ∧ length c = n.
Proof. intros H. exists (take n l), (drop n l). rewrite take_drop, length_take. split; [done|lia]. Qed.

(** ** The scalar row *)

(** The lengths a row and its chroma have. *)
Definition row_shape (luma cb cr out : list Z) : Prop :=
  len out = 4 * len luma ∧ len cb = div_ceil (len luma) 2 ∧ len cr = len cb ∧
  Forall u8 luma ∧ Forall u8 cb ∧ Forall u8 cr.

Definition last_index (l : list Z) : run Z := i ← sub_uint (len l) 1; index l i.

Lemma last_index_cons x l : l ≠ [] → last_index (x :: l) = last_index l.
Proof.
  intros Hl. destruct l as [|y l]; [done|]. pose proof (len_nonneg l).
  unfold last_index, sub_uint. rewrite !len_cons. rewrite !(proj2 (Z.leb_le _ _)) by lia. cbn [mbind outcome_bind].
  unfold index. rewrite !(proj2 (Z.leb_le _ _)) by lia.
  replace (Z.to_nat (1 + (1 + len l) - 1)) with (S (Z.to_nat (1 + len l - 1))) by lia. done.
Qed.

(** The odd pixel at the end of a row, if there is one. *)
Definition odd_tail (luma cb cr tail : list Z) : run (list Z) :=
  if len tail =? 0 then Ok []
  else
    b ← last_index cb; r ← last_index cr; o ← chroma_offsets b r;
    let '(blue, green, red) := o in
    y ← last_index luma; write_pixel y blue green red.

Lemma convert_row_parts luma cb cr out :
  len out = len luma * 4 → len cr = len cb →
  convert_row luma cb cr out =
  (body ← pair_loop (chunks_exact 8 out) (chunks_exact 2 luma) cb cr;
   t ← odd_tail luma cb cr (remainder 8 out); Ok (body ++ t)).
Proof.
  intros Hlen Hcr. unfold convert_row. rewrite Hlen, Z.eqb_refl. cbn [negb].
  destruct (pair_loop _ _ _ _) as [body| |]; [|done..]. cbn [mbind outcome_bind]. unfold odd_tail, last_index.
  destruct (len (remainder 8 out) =? 0); cbn [mbind outcome_bind]; [by rewrite app_nil_r|]. rewrite Hcr.
  destruct (sub_uint (len cb) 1) as [i| |]; [|done..]. cbn [mbind outcome_bind].
  destruct (index cb i); [|done..]. cbn [mbind outcome_bind].
  destruct (index cr i); [|done..]. cbn [mbind outcome_bind].
  destruct (chroma_offsets _ _) as [[[bl gr] re]| |]; [|done..]. cbn [mbind outcome_bind].
  destruct (sub_uint (len luma) 1); [|done..]. cbn [mbind outcome_bind]. by destruct (index luma _).
Qed.

Lemma row_shape_step luma cb cr out y1 y2 u v o8 :
  length o8 = 8%nat → row_shape (y1 :: y2 :: luma) (u :: cb) (v :: cr) (o8 ++ out) →
  row_shape luma cb cr out ∧ u8 y1 ∧ u8 y2 ∧ u8 u ∧ u8 v.
Proof.
  intros Ho (Hout & Hcb & Hcr & Hl & Hb & Hr). rewrite !Forall_cons in *. unfold row_shape, div_ceil in *.
  rewrite ?len_app, ?len_cons in *. assert (len o8 = 8) by (unfold len; lia).
  replace (1 + (1 + len luma) + 2 - 1) with (len luma + 2 - 1 + 1 * 2) in Hcb by lia. rewrite Z.div_add in Hcb by lia.
  split_and!; try tauto; lia.
Qed.

Lemma len_pos_cons {A} (l : list A) : 0 < len l → ∃ x r, l = x :: r.
Proof. destruct l as [|x r]; [done|]. by eexists _, _. Qed.

(** A row of at least two pixels has chroma for them and room for them. *)
Lemma row_shape_two luma cb cr out y1 y2 :
  row_shape (y1 :: y2 :: luma) cb cr out →
  ∃ u cb' v cr' o8 out', cb = u :: cb' ∧ cr = v :: cr' ∧ out = o8 ++ out' ∧ length o8 = 8%nat.
Proof.
  intros (Hout & Hcb & Hcr & _). pose proof (len_nonneg luma). rewrite !len_cons in *.
  assert (0 < len cb) as Hpos by (rewrite Hcb; unfold div_ceil; Z.to_euclidean_division_equations; lia).
  destruct (len_pos_cons cb Hpos) as (u & cb' & ->). destruct (len_pos_cons cr) as (v & cr' & ->); [lia|].
  destruct (split_first 8 out) as (o8 & out' & -> & Ho); [unfold len in *; lia|]. by eexists _, _, _, _, _, _.
Qed.

Lemma odd_tail_cons y1 y2 u v luma cb cr out :
  row_shape luma cb cr out →
  odd_tail (y1 :: y2 :: luma) (u :: cb) (v :: cr) (remainder 8 out) = odd_tail luma cb cr (remainder 8 out).
Proof.
  intros (Hout & Hcb & Hcr & _). unfold odd_tail. destruct (Z.eqb_spec (len (remainder 8 out)) 0) as [|Hne]; [done|].
  assert (luma ≠ []) as Hl.
  { intros ->. assert (out = []) as -> by (apply len_0_nil; done). done. }
  assert (0 < len luma) by (pose proof (len_nonneg luma); destruct (Z.eq_dec (len luma) 0) as [E|]; [by apply len_0_nil in E|lia]).
  assert (0 < len cb) as Hb by (rewrite Hcb; unfold div_ceil; Z.to_euclidean_division_equations; lia).
  destruct (len_pos_cons cb Hb) as (? & ? & ->). destruct (len_pos_cons cr) as (? & ? & ->); [lia|].
  rewrite (last_index_cons u), (last_index_cons v), (last_index_cons y1), (last_index_cons y2) by done. done.
Qed.

Lemma convert_row_one y1 cb cr out : row_shape [y1] cb cr out → convert_row [y1] cb cr out = Ok (row_ref [y1] cb cr).
Proof.
  intros (Hout & Hcb & Hcr & Hl & Hb & Hr). rewrite convert_row_parts by lia.
  change (len [y1]) with 1 in *. change (div_ceil 1 2) with 1 in Hcb.
  destruct (len_pos_cons cb) as (u & cb' & ->); [lia|]. destruct (len_pos_cons cr) as (v & cr' & ->); [lia|].
  rewrite !len_cons in *. assert (cb' = []) as -> by (apply len_0_nil; lia). assert (cr' = []) as -> by (apply len_0_nil; lia).
  rewrite (chunks_exact_short 8), (remainder_short 8) by (unfold len in Hout; lia).
  cbn [pair_loop concat mbind outcome_bind]. unfold odd_tail. rewrite Hout. cbn [Z.eqb Z.mul Pos.mul].
  change (last_index [u]) with (@Ok Empty_set Z u). change (last_index [v]) with (@Ok Empty_set Z v).
  change (last_index [y1]) with (@Ok Empty_set Z y1). cbn [mbind outcome_bind].
  change (4 * 1 =? 0) with false. cbv iota. rewrite Forall_singleton in Hl, Hb, Hr. rewrite chroma_offsets_ok by done. cbn [mbind outcome_bind].
  pose proof (write_pixel_ok y1 u v Hl Hb Hr) as Hp. destruct (offsets u v) as [[bl gr] re]. by rewrite Hp.
Qed.

Lemma convert_row_two y1 y2 luma u cb v cr o8 out :
  length o8 = 8%nat → row_shape (y1 :: y2 :: luma) (u :: cb) (v :: cr) (o8 ++ out) →
  convert_row (y1 :: y2 :: luma) (u :: cb) (v :: cr) (o8 ++ out) =
  (rest ← convert_row luma cb cr out; Ok (bgra_pixel y1 u v ++ bgra_pixel y2 u v ++ rest)).
Proof.
  intros Ho Hs. destruct (row_shape_step _ _ _ _ _ _ _ _ _ Ho Hs) as (Hs' & ? & ? & ? & ?).
  pose proof Hs as (Hout & _ & Hcr & _). pose proof Hs' as (Hout' & _ & Hcr' & _). rewrite !convert_row_parts by lia.
  rewrite (chunks_exact_app 8), (remainder_app 8), odd_tail_cons by (done || lia).
  change (y1 :: y2 :: luma) with ([y1; y2] ++ luma). rewrite (chunks_exact_app 2 [y1; y2]) by (done || lia).
  cbn [pair_loop]. rewrite chroma_offsets_ok by done.
  pose proof (write_pixel_ok y1 u v) as Hp1. pose proof (write_pixel_ok y2 u v) as Hp2.
  cbn [mbind outcome_bind]. destruct (offsets u v) as [[bl gr] re].
  change (index [y1; y2] 0) with (@Ok Empty_set Z y1). change (index [y1; y2] 1) with (@Ok Empty_set Z y2).
  cbn [mbind outcome_bind]. rewrite Hp1, Hp2 by done. cbn [mbind outcome_bind].
  destruct (pair_loop (chunks_exact 8 out) (chunks_exact 2 luma) cb cr) as [body| |]; [|done..]. cbn [mbind outcome_bind].
  destruct (odd_tail luma cb cr (remainder 8 out)) as [t| |]; [|done..]. cbn [mbind outcome_bind]. by rewrite <- !app_assoc.
Qed.

Lemma convert_row_ref luma cb cr out : row_shape luma cb cr out → convert_row luma cb cr out = Ok (row_ref luma cb cr).
Proof.
  remember (length luma) as n eqn:Hn. revert luma cb cr out Hn.
  induction n as [n IH] using (well_founded_induction Nat.lt_wf_0). intros luma cb cr out Hn Hs.
  destruct luma as [|y1 [|y2 luma]].
  - destruct Hs as (Hout & _). by assert (out = []) as -> by (apply len_0_nil; rewrite Hout; done).
  - by apply convert_row_one.
  - destruct (row_shape_two _ _ _ _ _ _ Hs) as (u & cb' & v & cr' & o8 & out' & -> & -> & -> & Ho).
    rewrite convert_row_two by done. destruct (row_shape_step _ _ _ _ _ _ _ _ _ Ho Hs) as (Hs' & _).
    by rewrite (IH (length luma) ltac:(cbn in Hn; lia) luma cb' cr' out' eq_refl Hs').
Qed.

(** ** The vector row *)

(** One lane of the vector arithmetic. *)
Definition lane (q : Z) : Z := as_uint 8 (Z.min (Z.max (Z.shiftr (as_sint 32 (q + HALF)) 16) 0) 255).

Lemma as_sint_id x : - 2 ^ 31 ≤ x < 2 ^ 31 → as_sint 32 x = x.
Proof.
  intros Hx. unfold as_sint. simpl_pow. destruct (Z.lt_ge_cases x 0).
  - rewrite <- (Z.mod_add x 1), Z.mod_small by lia. rewrite (proj2 (Z.ltb_ge _ _)); lia.
  - rewrite Z.mod_small by lia. by rewrite (proj2 (Z.ltb_lt _ _)) by lia.
Qed.

Lemma lane_ok q : - 2 ^ 31 ≤ q < 2 ^ 31 - 32768 → lane q = clamp_q16 q.
Proof.
  intros Hq. pose proof (clamp_u8_ok q Hq) as E. unfold clamp_u8 in E. unfold lane. unfold HALF in *.
  change (Z.shiftl 1 15) with 32768 in *. rewrite in_i32_ok in E by lia. rewrite as_sint_id by lia.
  by injection E.
Qed.

Lemma lane_pixel y u v :
  u8 y → u8 u → u8 v →
  [lane (as_sint 32 (as_sint 32 ((y - 16) * Y_SCALE) + as_sint 32 ((u - 128) * B_U)));
   lane (as_sint 32 (as_sint 32 (as_sint 32 ((y - 16) * Y_SCALE) + as_sint 32 ((u - 128) * G_U)) + as_sint 32 ((v - 128) * G_V)));
   lane (as_sint 32 (as_sint 32 ((y - 16) * Y_SCALE) + as_sint 32 ((v - 128) * R_V))); 0xff] = bgra_pixel y u v.
Proof.
  intros Hy Hu Hv. rewrite (as_sint_id ((y - 16) * _)), !(as_sint_id ((u - 128) * _)), !(as_sint_id ((v - 128) * _)) by fits.
  rewrite (as_sint_id (_ + _ * G_U)), !(as_sint_id (_ + _)), !lane_ok by fits.
  by rewrite (Z.mul_comm (y - 16)), !(Z.mul_comm (u - 128)), !(Z.mul_comm (v - 128)).
Qed.

Lemma pixels_cons qb qg qr bs gs rs :
  pixels (Z.min (Z.max (Z.shiftr (as_sint 32 (qb + HALF)) 16) 0) 255 :: bs)
         (Z.min (Z.max (Z.shiftr (as_sint 32 (qg + HALF)) 16) 0) 255 :: gs)
         (Z.min (Z.max (Z.shiftr (as_sint 32 (qr + HALF)) 16) 0) 255 :: rs) =
  [lane qb; lane qg; lane qr; 0xff] ++ pixels bs gs rs.
Proof. done. Qed.

Ltac split_forall :=
  repeat match goal with Hf : Forall _ (_ :: _) |- _ => apply Forall_cons_1 in Hf as [? ?] end.

Lemma eight {A} (l : list A) : length l = 8%nat → ∃ a b c d e f g h, l = [a; b; c; d; e; f; g; h].
Proof. do 9 (destruct l as [|? l]; try done). intros _. by eexists _, _, _, _, _, _, _, _. Qed.
Lemma four {A} (l : list A) : length l = 4%nat → ∃ a b c d, l = [a; b; c; d].
Proof. do 5 (destruct l as [|? l]; try done). intros _. by eexists _, _, _, _. Qed.

Lemma slice_whole {E A} (l : list A) : @slice E A l 0 (len l) = Ok l.
Proof.
  unfold slice. pose proof (len_nonneg l). rewrite !(proj2 (Z.leb_le _ _)) by lia. cbn [andb]. f_equal.
  unfold ztake, zdrop, len. rewrite Z.sub_0_r, Nat2Z.id. cbn [Z.to_nat drop]. by rewrite take_ge.
Qed.

Lemma slice_app {E A} (c l : list A) k a b :
  len c = k → 0 ≤ a → @slice E A (c ++ l) (k + a) (k + b) = slice l a b.
Proof.
  intros <- Ha. unfold slice. rewrite len_app. pose proof (len_nonneg c).
  replace (0 <=? len c + a) with (0 <=? a) by (rewrite !(proj2 (Z.leb_le _ _)); lia).
  replace (len c + a <=? len c + b) with (a <=? b) by (destruct (Z.leb_spec a b), (Z.leb_spec (len c + a) (len c + b)); lia).
  replace (len c + b <=? len c + len l) with (b <=? len l)
    by (destruct (Z.leb_spec b (len l)), (Z.leb_spec (len c + b) (len c + len l)); lia).
  replace (len c + b - (len c + a)) with (b - a) by lia. case_if; [|done]. f_equal. f_equal. unfold zdrop.
  rewrite Z2Nat.inj_add by lia. unfold len. by rewrite Nat2Z.id, drop_app_add.
Qed.

Section VectorLaws.
Context `{I32x8Laws}.

Lemma splat_lanes x : i32 x → to_array (splat x) = replicate 8 x.
Proof. intros Hx. apply from_to; [done|]. by apply Forall_replicate. Qed.

Lemma octet_ref luma cb cr :
  length luma = 8%nat → length cb = 4%nat → length cr = 4%nat → Forall u8 luma → Forall u8 cb → Forall u8 cr →
  octet luma cb cr = row_ref luma cb cr.
Proof.
  intros Hl Hb Hr Fl Fb Fr. destruct (eight luma Hl) as (y0 & y1 & y2 & y3 & y4 & y5 & y6 & y7 & ->).
  destruct (four cb Hb) as (u0 & u1 & u2 & u3 & ->). destruct (four cr Hr) as (v0 & v1 & v2 & v3 & ->).
  split_forall.
  unfold octet. rewrite !min_lanes, !max_lanes, !shr_lanes, !add_lanes, !mul_lanes by lia.
  rewrite !splat_lanes by (split; [discriminate|reflexivity]).
  rewrite !from_to by (try reflexivity; cbn [map flat_map app]; rewrite !Forall_cons; unfold is_uint, is_sint in *;
    split_and!; try lia; constructor).
  cbn [map flat_map app zip_with replicate]. rewrite !pixels_cons, !lane_pixel by done. reflexivity.
Qed.

Lemma vector_row_short luma cb cr out :
  len luma < 8 → row_shape luma cb cr out → convert_row_vector luma cb cr out = Ok (row_ref luma cb cr).
Proof.
  intros Hl Hs. pose proof Hs as (Hout & _). unfold convert_row_vector.
  rewrite (chunks_exact_short 32), (remainder_short 32) by (unfold len in *; lia). cbn [octet_loop concat app].
  rewrite (Z.mod_small (len luma)), Z.sub_diag by (pose proof (len_nonneg luma); lia).
  destruct (Z.ltb_spec 0 (len luma)) as [|Hle].
  - change (0 / 2) with 0. rewrite !slice_whole. cbn [mbind outcome_bind]. by rewrite convert_row_ref.
  - assert (luma = []) as -> by (apply len_0_nil; pose proof (len_nonneg luma); lia).
    by assert (out = []) as -> by (apply len_0_nil; done).
Qed.

Lemma vector_row_step l8 c4 d4 o32 luma cb cr out :
  length l8 = 8%nat → length c4 = 4%nat → length d4 = 4%nat → length o32 = 32%nat →
  convert_row_vector (l8 ++ luma) (c4 ++ cb) (d4 ++ cr) (o32 ++ out) =
  (rest ← convert_row_vector luma cb cr out; Ok (octet l8 c4 d4 ++ rest)).
Proof.
  intros Hl Hc Hd Ho. unfold convert_row_vector.
  rewrite (chunks_exact_app 32), (chunks_exact_app 8), !(chunks_exact_app 4), (remainder_app 32) by (done || lia).
  cbn [octet_loop]. rewrite !len_app. replace (len l8) with 8 by (unfold len; lia).
  replace (len c4) with 4 by (unfold len; lia). replace (len d4) with 4 by (unfold len; lia).
  replace ((8 + len luma) mod 8) with (len luma mod 8) by (rewrite <- (Z.mod_add (len luma) 1) by lia; f_equal; lia).
  pose proof (len_nonneg luma). pose proof (Z.mod_pos_bound (len luma) 8). pose proof (Z.mod_le (len luma) 8).
  set (w := len luma - len luma mod 8). assert (0 ≤ w) by lia.
  replace (8 + len luma - len luma mod 8) with (8 + w) by lia.
  replace ((8 + w) / 2) with (4 + w / 2) by (replace (8 + w) with (w + 4 * 2) by lia; rewrite Z.div_add; lia).
  assert (0 ≤ w / 2) by (apply Z.div_pos; lia).
  rewrite !slice_app by (lia || (unfold len; lia)).
  destruct (Z.ltb_spec w (len luma)), (Z.ltb_spec (8 + w) (8 + len luma)); try lia.
  - destruct (slice luma w (len luma)); [|done..]. cbn [mbind outcome_bind].
    destruct (slice cb (w / 2) (len cb)); [|done..]. cbn [mbind outcome_bind].
    destruct (slice cr (w / 2) (len cr)); [|done..]. cbn [mbind outcome_bind].
    destruct (convert_row _ _ _ _); [|done..]. cbn [mbind outcome_bind]. by rewrite <- app_assoc.
  - cbn [mbind outcome_bind]. by rewrite <- app_assoc.
Qed.

Lemma row_shape_block luma cb cr out :
  8 ≤ len luma → row_shape luma cb cr out →
  ∃ l8 luma' c4 cb' d4 cr' o32 out',
    luma = l8 ++ luma' ∧ cb = c4 ++ cb' ∧ cr = d4 ++ cr' ∧ out = o32 ++ out' ∧
    length l8 = 8%nat ∧ length c4 = 4%nat ∧ length d4 = 4%nat ∧ length o32 = 32%nat ∧
    Forall u8 l8 ∧ Forall u8 c4 ∧ Forall u8 d4 ∧ row_shape luma' cb' cr' out'.
Proof.
  intros Hl (Hout & Hcb & Hcr & Fl & Fb & Fr).
  assert (4 ≤ len cb) by (rewrite Hcb; unfold div_ceil; Z.to_euclidean_division_equations; lia).
  destruct (split_first 8 luma) as (l8 & luma' & -> & Hl8); [unfold len in *; lia|].
  destruct (split_first 4 cb) as (c4 & cb' & -> & Hc4); [unfold len in *; lia|].
  destruct (split_first 4 cr) as (d4 & cr' & -> & Hd4); [unfold len in *; lia|].
  destruct (split_first 32 out) as (o32 & out' & -> & Ho); [unfold len in *; lia|].
  apply Forall_app in Fl as [? ?], Fb as [? ?], Fr as [? ?]. exists l8, luma', c4, cb', d4, cr', o32, out'.
  split_and!; try done. rewrite !len_app in *.
  assert (len l8 = 8 ∧ len c4 = 4 ∧ len d4 = 4 ∧ len o32 = 32) as (? & ? & ? & ?) by (unfold len; lia).
  unfold row_shape. split_and!; try done; try lia. unfold div_ceil in *.
  replace (len l8 + len luma' + 2 - 1) with (len luma' + 2 - 1 + 4 * 2) in Hcb by lia. rewrite Z.div_add in Hcb; lia.
Qed.

Lemma row_ref_app l8 c4 d4 luma cb cr :
  length l8 = 8%nat → length c4 = 4%nat → length d4 = 4%nat →
  row_ref (l8 ++ luma) (c4 ++ cb) (d4 ++ cr) = row_ref l8 c4 d4 ++ row_ref luma cb cr.
Proof.
  intros Hl Hc Hd. destruct (eight l8 Hl) as (? & ? & ? & ? & ? & ? & ? & ? & ->).
  destruct (four c4 Hc) as (? & ? & ? & ? & ->). destruct (four d4 Hd) as (? & ? & ? & ? & ->).
  cbn [app row_ref]. by rewrite <- !app_assoc.
Qed.

(** Eight at a time or one at a time, the row is the reference's. *)
Lemma vector_row_ref luma cb cr out :
  row_shape luma cb cr out → convert_row_vector luma cb cr out = Ok (row_ref luma cb cr).
Proof.
  remember (length luma) as n eqn:Hn. revert luma cb cr out Hn.
  induction n as [n IH] using (well_founded_induction Nat.lt_wf_0). intros luma cb cr out Hn Hs.
  destruct (Z.lt_ge_cases (len luma) 8) as [Hlt|Hge]; [by apply vector_row_short|].
  destruct (row_shape_block _ _ _ _ Hge Hs)
    as (l8 & luma' & c4 & cb' & d4 & cr' & o32 & out' & -> & -> & -> & -> & Hl & Hc & Hd & Ho & Fl & Fc & Fd & Hs').
  rewrite vector_row_step, row_ref_app, octet_ref by done. rewrite length_app in Hn.
  by rewrite (IH (length luma') ltac:(lia) luma' cb' cr' out' eq_refl Hs').
Qed.
End VectorLaws.

(** ** The picture *)

(** A plane's samples of one row. *)
Definition plane_row (plane : list Z) (row stride n : Z) : list Z := ztake n (zdrop (row * stride) plane).

Definition picture_row (p : I420Planes) (row : Z) : list Z :=
  let chroma_width := div_ceil (p_width p) 2 in
  row_ref (plane_row (p_y p) row (y_stride p) (p_width p))
          (plane_row (p_u p) (row / 2) (u_stride p) chroma_width)
          (plane_row (p_v p) (row / 2) (v_stride p) chroma_width).

(** What the types of the fields guarantee. *)
Definition planes_typed (p : I420Planes) : Prop :=
  u64 (p_width p) ∧ u64 (p_height p) ∧ 0 ≤ y_stride p ∧ 0 ≤ u_stride p ∧ 0 ≤ v_stride p ∧
  Forall u8 (p_y p) ∧ Forall u8 (p_u p) ∧ Forall u8 (p_v p).

(** The planes hold every sample the picture needs, at addresses that exist. *)
Definition plane_holds (plane : list Z) (rows stride row_bytes : Z) : Prop :=
  (rows - 1) * stride + row_bytes ≤ len plane ∧ (rows - 1) * stride + row_bytes < 2 ^ 64.

Definition addressable (p : I420Planes) : Prop :=
  let chroma_width := div_ceil (p_width p) 2 in
  let chroma_height := div_ceil (p_height p) 2 in
  0 < p_width p ∧ 0 < p_height p ∧
  p_width p ≤ y_stride p ∧ chroma_width ≤ u_stride p ∧ chroma_width ≤ v_stride p ∧
  plane_holds (p_y p) (p_height p) (y_stride p) (p_width p) ∧
  plane_holds (p_u p) chroma_height (u_stride p) chroma_width ∧
  plane_holds (p_v p) chroma_height (v_stride p) chroma_width.

Lemma checked_usize_spec x : checked_usize x = if decide (u64 x) then Some x else None.
Proof.
  unfold checked_usize, try_from_uint. destruct (Z.leb_spec 0 x), (Z.ltb_spec x (2 ^ 64)), (decide (u64 x)) as [Hd|Hd]; cbn;
    try done; unfold is_uint in Hd; lia.
Qed.

Lemma plane_fits_spec plane rows stride n :
  0 < rows < 2 ^ 64 → 0 ≤ stride → 0 < n → plane_fits plane rows stride n = true ↔ plane_holds plane rows stride n.
Proof.
  intros Hr Hs Hn. unfold plane_fits, plane_holds. rewrite checked_usize_spec, decide_True by (unfold is_uint; lia).
  cbn [mbind option_bind]. rewrite checked_usize_spec.
  assert (0 ≤ (rows - 1) * stride) by (apply Z.mul_nonneg_nonneg; lia).
  destruct (decide (u64 ((rows - 1) * stride))) as [H1|H1]; cbn [mbind option_bind]; [|unfold is_uint in H1; split; [done|lia]].
  rewrite checked_usize_spec. destruct (decide (u64 ((rows - 1) * stride + n))) as [H2|H2]; unfold is_uint in *.
  - rewrite Z.leb_le. lia.
  - split; [done|lia].
Qed.

Lemma is_addressable_spec p : planes_typed p → is_addressable p = true ↔ addressable p.
Proof.
  intros (Hw & Hh & Hys & Hus & Hvs & _). unfold is_addressable, addressable, is_uint in *.
  destruct (Z.eqb_spec (p_width p) 0); [split; [done|lia]|]. destruct (Z.eqb_spec (p_height p) 0); [split; [done|lia]|].
  cbn [orb]. set (cw := div_ceil (p_width p) 2). set (ch := div_ceil (p_height p) 2).
  assert (0 < cw < 2 ^ 64 ∧ 0 < ch < 2 ^ 64) as [Hcw Hch] by (unfold cw, ch, div_ceil; Z.to_euclidean_division_equations; lia).
  destruct (Z.ltb_spec (y_stride p) (p_width p)); [split; [done|lia]|].
  destruct (Z.ltb_spec (u_stride p) cw); [split; [done|lia]|].
  destruct (Z.ltb_spec (v_stride p) cw); [split; [done|lia]|]. cbn [orb].
  rewrite !andb_true_iff, !plane_fits_spec by lia. split; [intros [[? ?] ?]; split_and!; (done || lia)|tauto].
Qed.

Lemma mul_usize_ok a b : 0 ≤ a * b < 2 ^ 64 → mul_usize a b = Ok (a * b).
Proof. intros H. unfold mul_usize. by rewrite checked_usize_spec, decide_True by (unfold is_uint; lia). Qed.

Lemma row_of_ok plane rows row stride n :
  plane_holds plane rows stride n → 0 ≤ row < rows → 0 ≤ stride → 0 < n →
  row_of plane row stride n = Ok (plane_row plane row stride n).
Proof.
  intros [Hlen Hmax] Hrow Hs Hn. assert (0 ≤ row * stride ≤ (rows - 1) * stride) by nia.
  unfold row_of. rewrite mul_usize_ok by lia. cbn [mbind outcome_bind]. rewrite slice_ok by lia. cbn [mbind outcome_bind].
  assert (ztake (len plane - row * stride) (zdrop (row * stride) plane) = zdrop (row * stride) plane) as ->.
  { unfold ztake. apply take_ge. unfold zdrop, len. rewrite length_drop. lia. }
  rewrite slice_ok by (try lia; rewrite len_zdrop; lia). unfold plane_row. by rewrite Z.sub_0_r.
Qed.

Lemma plane_row_len plane rows row stride n :
  plane_holds plane rows stride n → 0 ≤ row < rows → 0 ≤ stride → 0 < n → len (plane_row plane row stride n) = n.
Proof.
  intros [Hlen Hmax] Hrow Hs Hn. assert (0 ≤ row * stride ≤ (rows - 1) * stride) by nia.
  unfold plane_row. rewrite len_ztake; [done|]. rewrite len_zdrop; lia.
Qed.

Lemma plane_row_bytes plane row stride n : Forall u8 plane → Forall u8 (plane_row plane row stride n).
Proof. intros H. by apply Forall_take, Forall_drop. Qed.

(** The shape a row has in the picture. *)
Lemma picture_row_shape p row old :
  planes_typed p → addressable p → 0 ≤ row < p_height p → len old = p_width p * 4 →
  row_shape (plane_row (p_y p) row (y_stride p) (p_width p))
            (plane_row (p_u p) (row / 2) (u_stride p) (div_ceil (p_width p) 2))
            (plane_row (p_v p) (row / 2) (v_stride p) (div_ceil (p_width p) 2)) old ∧
  row_of (p_y p) row (y_stride p) (p_width p) = Ok (plane_row (p_y p) row (y_stride p) (p_width p)) ∧
  row_of (p_u p) (row / 2) (u_stride p) (div_ceil (p_width p) 2) =
    Ok (plane_row (p_u p) (row / 2) (u_stride p) (div_ceil (p_width p) 2)) ∧
  row_of (p_v p) (row / 2) (v_stride p) (div_ceil (p_width p) 2) =
    Ok (plane_row (p_v p) (row / 2) (v_stride p) (div_ceil (p_width p) 2)).
Proof.
  intros (_ & _ & Hys & Hus & Hvs & Fy & Fu & Fv) (Hw & Hh & ? & ? & ? & Py & Pu & Pv) Hrow Hold.
  assert (0 < div_ceil (p_width p) 2) by (unfold div_ceil; Z.to_euclidean_division_equations; lia).
  assert (0 ≤ row / 2 < div_ceil (p_height p) 2) by (unfold div_ceil; Z.to_euclidean_division_equations; lia).
  split_and!; [|by eapply row_of_ok..]. unfold row_shape.
  rewrite (plane_row_len (p_y p) (p_height p)), (plane_row_len (p_u p) (div_ceil (p_height p) 2)),
    (plane_row_len (p_v p) (div_ceil (p_height p) 2)) by (done || lia).
  split_and!; try done; try lia; by apply plane_row_bytes.
Qed.

(** *** Blocks of equal length *)

Lemma concat_drop {A} k (xs : list (list A)) i j x :
  Forall (λ y, length y = k) xs → xs !! i = Some x → (j <= k)%nat →
  drop (i * k + j) (concat xs) = drop j x ++ concat (drop (S i) xs).
Proof.
  intros Hxs. revert i. induction Hxs as [|y xs Hy _ IH]; intros i Hi Hj; [done|]. destruct i as [|i].
  - injection Hi as ->. cbn [Nat.mul Nat.add concat]. rewrite drop_app_le by lia. done.
  - cbn [concat]. replace (S i * k + j)%nat with (length y + (i * k + j))%nat by lia. rewrite drop_app_add. by apply IH.
Qed.

Lemma concat_block {A} k (xs : list (list A)) i j n x :
  Forall (λ y, length y = k) xs → xs !! i = Some x → (j + n <= k)%nat →
  take n (drop (i * k + j) (concat xs)) = take n (drop j x).
Proof.
  intros Hxs Hi Hj. rewrite (concat_drop _ _ _ _ x) by (done || lia). apply take_app_le. rewrite length_drop.
  rewrite Forall_lookup in Hxs. specialize (Hxs _ _ Hi). cbn in Hxs. lia.
Qed.

Lemma concat_length {A} k (xs : list (list A)) : Forall (λ y, length y = k) xs → length (concat xs) = (length xs * k)%nat.
Proof. induction 1 as [|y xs Hy _ IH]; [done|]. cbn. by rewrite length_app, Hy, IH. Qed.

Definition row_pixel (luma cb cr : list Z) (i : nat) : list Z :=
  bgra_pixel (nth i luma 0) (nth (i / 2) cb 0) (nth (i / 2) cr 0).

Lemma row_ref_pixels luma cb cr out :
  row_shape luma cb cr out → row_ref luma cb cr = concat (map (row_pixel luma cb cr) (seq 0 (length luma))).
Proof.
  remember (length luma) as n eqn:Hn. revert luma cb cr out Hn.
  induction n as [n IH] using (well_founded_induction Nat.lt_wf_0). intros luma cb cr out -> Hs.
  destruct luma as [|y1 [|y2 luma]].
  - done.
  - destruct Hs as (_ & Hcb & Hcr & _). change (div_ceil (len [y1]) 2) with 1 in Hcb.
    destruct (len_pos_cons cb) as (u & cb' & ->); [lia|]. destruct (len_pos_cons cr) as (v & cr' & ->); [lia|].
    cbn [row_ref length seq map concat]. by rewrite app_nil_r.
  - destruct (row_shape_two _ _ _ _ _ _ Hs) as (u & cb' & v & cr' & o8 & out' & -> & -> & -> & Ho).
    destruct (row_shape_step _ _ _ _ _ _ _ _ _ Ho Hs) as (Hs' & _). cbn [row_ref length seq map concat].
    rewrite (IH (length luma) ltac:(cbn; lia) luma cb' cr' out' eq_refl Hs').
    rewrite <- !seq_shift, !map_map. do 3 f_equal. apply map_ext. intros i. unfold row_pixel.
    replace (S (S i) / 2)%nat with (S (i / 2)); [done|].
    replace (S (S i)) with (i + 1 * 2)%nat by lia. rewrite Nat.div_add; lia.
Qed.

Lemma bgra_pixel_length y u v : length (bgra_pixel y u v) = 4%nat.
Proof. done. Qed.

Lemma row_pixels_length luma cb cr n : Forall (λ x, length x = 4%nat) (map (row_pixel luma cb cr) (seq 0 n)).
Proof. apply Forall_map, Forall_true. intros i. done. Qed.

Lemma row_ref_length luma cb cr out : row_shape luma cb cr out → length (row_ref luma cb cr) = (length luma * 4)%nat.
Proof.
  intros Hs. rewrite (row_ref_pixels _ _ _ out Hs), (concat_length 4) by apply row_pixels_length.
  by rewrite length_map, length_seq.
Qed.

Lemma row_ref_pixel luma cb cr out i :
  row_shape luma cb cr out → (i < length luma)%nat → take 4 (drop (i * 4) (row_ref luma cb cr)) = row_pixel luma cb cr i.
Proof.
  intros Hs Hi. rewrite (row_ref_pixels _ _ _ out Hs), <- (Nat.add_0_r (i * 4)).
  rewrite (concat_block 4 _ _ _ _ (row_pixel luma cb cr i)); [done|apply row_pixels_length| |done].
  by rewrite list_lookup_fmap, lookup_seq_lt.
Qed.

Lemma nth_plane_row plane row stride n i :
  0 ≤ row * stride → 0 ≤ i < n → nth (Z.to_nat i) (plane_row plane row stride n) 0 = nth (Z.to_nat (row * stride + i)) plane 0.
Proof.
  intros Hrs Hi. unfold plane_row, ztake, zdrop. rewrite !nth_lookup, lookup_take, lookup_drop, decide_True by lia.
  by rewrite Z2Nat.inj_add by lia.
Qed.

Section Picture.
Context `{I32x8Laws}.

Definition rows_from (p : I420Planes) (n : nat) (row : Z) : list (list Z) :=
  map (λ i, picture_row p (row + Z.of_nat i)) (seq 0 n).

Lemma rows_from_step p n row : rows_from p (S n) row = picture_row p row :: rows_from p n (row + 1).
Proof.
  unfold rows_from. cbn [seq map]. rewrite Z.add_0_r. f_equal. rewrite <- seq_shift, map_map. apply map_ext.
  intros i. f_equal. lia.
Qed.

Lemma convert_rows_ref p n row front back :
  planes_typed p → addressable p → 0 ≤ row → row + Z.of_nat n = p_height p → p_width p * p_height p * 4 < 2 ^ 64 →
  len front = row * (p_width p * 4) → len back = Z.of_nat n * (p_width p * 4) →
  convert_rows p n row (front ++ back) = Ok (front ++ concat (rows_from p n row)).
Proof.
  intros Ht Ha Hrow Hn Hmax. revert row front back Hrow Hn.
  induction n as [|n IH]; intros row front back Hrow Hn Hf Hb.
  { assert (back = []) as -> by (apply len_0_nil; lia). done. }
  assert (0 < p_width p ∧ 0 < p_height p) as [Hw Hh] by (unfold addressable in Ha; lia).
  assert (∃ old back', back = old ++ back' ∧ len old = p_width p * 4 ∧ len back' = Z.of_nat n * (p_width p * 4))
    as (old & back' & -> & Hold & Hback).
  { exists (ztake (p_width p * 4) back), (zdrop (p_width p * 4) back).
    rewrite ztake_zdrop, len_ztake, len_zdrop by nia. split_and!; (done || lia). }
  destruct (picture_row_shape p row old) as (Hs & Ey & Eu & Ev); [done|done|lia|done|].
  cbn [convert_rows]. rewrite Ey. cbn [mbind outcome_bind]. rewrite Eu. cbn [mbind outcome_bind].
  rewrite Ev. cbn [mbind outcome_bind].
  rewrite (mul_usize_ok (p_width p)) by nia. cbn [mbind outcome_bind].
  rewrite (mul_usize_ok row) by nia. cbn [mbind outcome_bind].
  rewrite (mul_usize_ok (row * p_width p)) by nia. cbn [mbind outcome_bind].
  replace (row * p_width p * 4) with (len front + 0) by lia.
  rewrite len_app, slice_app by lia. rewrite slice_whole. cbn [mbind outcome_bind].
  rewrite (slice_mid [] old back') by (rewrite ?Hold; done). cbn [mbind outcome_bind].
  rewrite vector_row_ref by done. cbn [mbind outcome_bind].
  rewrite Z.add_0_r, ztake_app_len by done.
  assert (zdrop (len front + p_width p * 4) (front ++ old ++ back') = back') as ->.
  { rewrite app_assoc, zdrop_app_len; [done|]. rewrite len_app. lia. }
  pose proof (row_ref_length _ _ _ _ Hs) as Hrl. destruct Hs as (Hol & _).
  rewrite app_assoc, IH; [|lia|lia| |done].
  - rewrite rows_from_step. cbn [concat]. by rewrite <- app_assoc.
  - rewrite len_app, Hf. unfold len in *. lia.
Qed.

Lemma i420_picture p :
  planes_typed p → addressable p → p_width p * p_height p * 4 < 2 ^ 64 →
  i420_to_bgra p = Ok (Some (concat (rows_from p (Z.to_nat (p_height p)) 0))).
Proof.
  intros Ht Ha Hmax. unfold i420_to_bgra. rewrite (proj2 (is_addressable_spec p Ht) Ha). cbn [negb].
  assert (0 < p_width p ∧ 0 < p_height p) as [Hw Hh] by (unfold addressable in Ha; lia).
  rewrite checked_usize_spec, decide_True by (unfold is_uint; nia). cbn [mbind option_bind].
  rewrite checked_usize_spec, decide_True by (unfold is_uint; nia). unfold convert_picture.
  change (replicate (Z.to_nat (p_width p * p_height p * 4)) 0) with ([] ++ replicate (Z.to_nat (p_width p * p_height p * 4)) 0).
  rewrite convert_rows_ref; [done|done|done|lia|lia|done|done|]. rewrite len_replicate; nia.
Qed.

Lemma rows_lengths p :
  planes_typed p → addressable p →
  Forall (λ x, length x = Z.to_nat (p_width p * 4)) (rows_from p (Z.to_nat (p_height p)) 0).
Proof.
  intros Ht Ha. assert (0 < p_width p) by (unfold addressable in Ha; lia).
  apply Forall_map, Forall_forall. intros i Hi%elem_of_seq.
  destruct (picture_row_shape p (0 + Z.of_nat i) (replicate (Z.to_nat (p_width p * 4)) 0) Ht Ha ltac:(lia)) as (Hs & _).
  { rewrite len_replicate; lia. }
  unfold picture_row. rewrite (row_ref_length _ _ _ _ Hs). destruct Hs as (Hol & _).
  rewrite len_replicate in Hol by lia. unfold len in Hol. lia.
Qed.

Lemma picture_len p :
  planes_typed p → addressable p →
  len (concat (rows_from p (Z.to_nat (p_height p)) 0)) = p_width p * p_height p * 4.
Proof.
  intros Ht Ha. unfold len. rewrite (concat_length _ _ (rows_lengths p Ht Ha)). unfold rows_from.
  rewrite length_map, length_seq. unfold addressable in Ha. nia.
Qed.

(** The four bytes of each pixel. *)
Lemma picture_pixel p row col :
  planes_typed p → addressable p → 0 ≤ row < p_height p → 0 ≤ col < p_width p →
  ztake 4 (zdrop ((row * p_width p + col) * 4) (concat (rows_from p (Z.to_nat (p_height p)) 0))) =
  bgra_pixel (nth (Z.to_nat (row * y_stride p + col)) (p_y p) 0)
             (nth (Z.to_nat (row / 2 * u_stride p + col / 2)) (p_u p) 0)
             (nth (Z.to_nat (row / 2 * v_stride p + col / 2)) (p_v p) 0).
Proof.
  intros Ht Ha Hr Hc. assert (len (replicate (Z.to_nat (p_width p * 4)) 0) = p_width p * 4) as Hold by (rewrite len_replicate; lia).
  unfold ztake, zdrop. replace (Z.to_nat ((row * p_width p + col) * 4))
    with (Z.to_nat row * Z.to_nat (p_width p * 4) + Z.to_nat col * 4)%nat by nia.
  rewrite (concat_block _ _ _ _ _ (picture_row p row) (rows_lengths p Ht Ha)); [| |cbn; nia].
  2: { unfold rows_from. rewrite list_lookup_fmap, lookup_seq_lt by lia. cbn. do 2 f_equal. lia. }
  destruct (picture_row_shape p row _ Ht Ha Hr Hold) as (Hs & _). unfold picture_row.
  rewrite (row_ref_pixel _ _ _ _ _ Hs) by (destruct Hs as (Hol & _); unfold len in *; lia). unfold row_pixel.
  assert (Z.to_nat col / 2 = Z.to_nat (col / 2))%nat as -> by (rewrite Z2Nat.inj_div; [done|lia|lia]).
  assert (0 ≤ row / 2) by (apply Z.div_pos; lia).
  assert (0 ≤ col / 2 < div_ceil (p_width p) 2) by (unfold div_ceil; Z.to_euclidean_division_equations; lia).
  destruct Ht as (_ & _ & ? & ? & ? & _). rewrite !nth_plane_row; (done || lia || (apply Z.mul_nonneg_nonneg; lia)).
Qed.
End Picture.

Lemma i420_cases `{I32x8Laws} p :
  planes_typed p →
  i420_to_bgra p = Ok None ∨ ∃ bgra, i420_to_bgra p = Ok (Some bgra) ∧ len bgra = p_width p * p_height p * 4.
Proof.
  intros Ht. destruct (is_addressable p) eqn:E; [|left; unfold i420_to_bgra; by rewrite E].
  pose proof E as Ha. apply is_addressable_spec in Ha; [|done].
  destruct (Z.lt_ge_cases (p_width p * p_height p * 4) (2 ^ 64)) as [Hlt|Hge].
  - right. eexists. split; [by apply i420_picture|by apply picture_len].
  - left. unfold i420_to_bgra. rewrite E. cbn [negb]. rewrite checked_usize_spec. case_decide; [|done].
    cbn [mbind option_bind]. rewrite checked_usize_spec, decide_False; [done|]. unfold is_uint. lia.
Qed.

(** C31: converting a decoded picture never panics, whatever the planes, strides and dimensions a decoder hands over: if the planes do not hold the picture (or it would not fit an address space) there is no result, and otherwise the result has four bytes for each pixel, and the pixel at every row and column is the fixed-point conversion of its own luma sample and of the chroma sample it shares with its neighbours, exactly as the scalar formula gives it, odd widths and heights included. The eight-lane path, with any vectors that work lane by lane, computes the same bytes. *)
Theorem i420_to_bgra_exact `{I32x8Laws} p :
  planes_typed p →
  (addressable p ∧ p_width p * p_height p * 4 < 2 ^ 64 →
   ∃ bgra, i420_to_bgra p = Ok (Some bgra) ∧ len bgra = p_width p * p_height p * 4 ∧
     ∀ row col, 0 ≤ row < p_height p → 0 ≤ col < p_width p →
       ztake 4 (zdrop ((row * p_width p + col) * 4) bgra) =
       bgra_pixel (nth (Z.to_nat (row * y_stride p + col)) (p_y p) 0)
                  (nth (Z.to_nat (row / 2 * u_stride p + col / 2)) (p_u p) 0)
                  (nth (Z.to_nat (row / 2 * v_stride p + col / 2)) (p_v p) 0)) ∧
  (¬ (addressable p ∧ p_width p * p_height p * 4 < 2 ^ 64) → i420_to_bgra p = Ok None).
Proof.
  intros Ht. split.
  - intros [Ha Hmax]. eexists. split_and!; [by apply i420_picture|by apply picture_len|].
    intros row col Hr Hc. by apply picture_pixel.
  - intros Hno. unfold i420_to_bgra. destruct (is_addressable p) eqn:E; [|done]. cbn [negb].
    apply is_addressable_spec in E; [|done]. rewrite checked_usize_spec. case_decide; [|done]. cbn [mbind option_bind].
    rewrite checked_usize_spec, decide_False; [done|]. unfold is_uint. intros [_ Hlt]. by apply Hno.
Qed.

(** Vectors as lists of lanes. *)
#[export] Instance list_lanes : I32x8 := {|
  vec := list Z; vec_from l := l; to_array v := v;
  vec_add := zip_with (λ x y, as_sint 32 (x + y)); vec_mul := zip_with (λ x y, as_sint 32 (x * y));
  vec_shr a n := map (λ x, Z.shiftr x n) a; vec_max := zip_with Z.max; vec_min := zip_with Z.min
|}.

#[export] Instance list_lanes_laws : I32x8Laws.
Proof. by constructor. Qed.

(** Three by one, with a padded luma stride. *)
Lemma i420_to_bgra_exact_witness :
  ∃ bgra, i420_to_bgra (mkI420 [16; 128; 235; 0] [128; 128] [128; 240] 3 1 4 2 2) = Ok (Some bgra) ∧
          ztake 4 (zdrop 8 bgra) = [255; 164; 255; 255].
Proof.
  destruct (i420_to_bgra_exact (mkI420 [16; 128; 235; 0] [128; 128] [128; 240] 3 1 4 2 2)) as [Hex _].
  - unfold planes_typed, is_uint. cbn. split_and!; try lia; repeat constructor; unfold is_uint; lia.
  - destruct Hex as (bgra & H1 & _ & H2).
    + repeat split; first [reflexivity|discriminate].
    + exists bgra. split; [exact H1|]. etrans; [apply (H2 0 2); cbn; lia|reflexivity].
Defined.

(** ** The agent's planes *)

(** The red, green and blue of a pixel of the picture. *)
Definition source_pixel (bgra : list Z) (width row col : nat) : Z * Z * Z :=
  let at_ k := nth ((row * width + col) * 4 + k) bgra 0 in (at_ 2%nat, at_ 1%nat, at_ 0%nat).

Lemma pixel_at_source bgra width row col :
  (col < width)%nat → pixel_at (src_row bgra width row) col = source_pixel bgra width row col.
Proof.
  intros Hc. unfold pixel_at, src_row, source_pixel.
  assert (∀ k, (k < 4)%nat → nth (col * 4 + k) (take (width * 4) (drop (row * width * 4) bgra)) 0 =
                             nth ((row * width + col) * 4 + k) bgra 0) as Hn.
  { intros k Hk. rewrite !nth_lookup, lookup_take, lookup_drop, decide_True by lia. do 2 f_equal. lia. }
  rewrite <- (Nat.add_0_r (col * 4)) at 3. rewrite !Hn by lia. done.
Qed.

(** Storing a list of samples at their places. *)
Definition write (plane : list Z) (w : nat * Z) : list Z := <[w.1 := w.2]> plane.

Lemma written_length ws plane : length (fold_left write ws plane) = length plane.
Proof. revert plane. induction ws as [|w ws IH]; intros plane; [done|]. cbn. rewrite IH. apply length_insert. Qed.

Lemma writes_other ws plane i : i ∉ ws.*1 → fold_left write ws plane !! i = plane !! i.
Proof.
  revert plane. induction ws as [|w ws IH]; intros plane Hi; [done|]. cbn in *. apply not_elem_of_cons in Hi as [Hne Hi].
  rewrite IH by done. by apply list_lookup_insert_ne.
Qed.

Lemma writes_lookup ws plane i x :
  NoDup ws.*1 → (i, x) ∈ ws → (i < length plane)%nat → fold_left write ws plane !! i = Some x.
Proof.
  revert plane. induction ws as [|w ws IH]; intros plane Hnd Hin Hi; [by apply not_elem_of_nil in Hin|].
  cbn in *. apply NoDup_cons in Hnd as [Hw Hnd]. apply elem_of_cons in Hin as [<-|Hin].
  - rewrite writes_other by done. unfold write. cbn. by apply list_lookup_insert_eq.
  - apply IH; [done|done|]. unfold write. by rewrite length_insert.
Qed.

Lemma fold_writes {A} (f : A → list (nat * Z)) (step : list Z → A → list Z) xs plane :
  (∀ plane x, x ∈ xs → step plane x = fold_left write (f x) plane) →
  fold_left step xs plane = fold_left write (flat_map f xs) plane.
Proof.
  revert plane. induction xs as [|x xs IH]; intros plane Hs; [done|]. cbn [fold_left flat_map].
  rewrite fold_left_app, Hs by left. apply IH. intros p y Hy. apply Hs. by right.
Qed.

(** Row after row of [w] indices is all of them. *)
Lemma rows_of_seq w h : flat_map (λ r, seq (r * w) w) (seq 0 h) = seq 0 (h * w).
Proof.
  induction h as [|h IH]; [done|]. rewrite seq_S, flat_map_app, IH. cbn [flat_map].
  rewrite app_nil_r, Nat.add_0_l, <- seq_app. f_equal. lia.
Qed.

Lemma step_by2_even n : Nat.even n = true → step_by2 n = map (λ i, 2 * i)%nat (seq 0 (n / 2)).
Proof.
  intros [k ->]%Nat.even_spec. unfold step_by2. do 2 f_equal.
  replace (2 * k + 1)%nat with (1 + k * 2)%nat by lia. rewrite Nat.div_add by lia.
  replace (2 * k)%nat with (k * 2)%nat by lia. by rewrite Nat.div_mul by lia.
Qed.

Definition luma_of (t : Z * Z * Z) : Z := let '(r, g, b) := t in luma r g b.
Definition chroma_of (t : Z * Z * Z) : Z * Z := let '(r, g, b) := t in chroma r g b.

Definition luma_writes (bgra : list Z) (w row : nat) : list (nat * Z) :=
  flat_map (λ col, [((row * w + col)%nat, luma_of (source_pixel bgra w row col))]) (seq 0 w).

(** The samples of the pixel block [i], [j]. *)
Definition block_writes (bgra : list Z) (w i j : nat) : list (nat * Z) :=
  let uv := chroma_of (source_pixel bgra w (2 * i) (2 * j)) in
  [((i * w + j * 2)%nat, uv.1); ((i * w + j * 2 + 1)%nat, uv.2)].

Definition chroma_writes (bgra : list Z) (w i : nat) : list (nat * Z) := flat_map (block_writes bgra w i) (seq 0 (w / 2)).

Lemma put_luma_writes bgra w plane row : put_luma bgra w plane row = fold_left write (luma_writes bgra w row) plane.
Proof.
  unfold put_luma. apply fold_writes. intros p col Hc%elem_of_seq. rewrite pixel_at_source by lia.
  by destruct (source_pixel bgra w row col) as [[r g] b].
Qed.

Lemma fold_left_map {A B} (f : A → B) (step : list Z → B → list Z) xs plane :
  fold_left step (map f xs) plane = fold_left (λ p x, step p (f x)) xs plane.
Proof. revert plane. induction xs as [|x xs IH]; intros plane; [done|]. apply IH. Qed.

Lemma put_chroma_writes bgra w plane i :
  Nat.even w = true → put_chroma bgra w plane (2 * i) = fold_left write (chroma_writes bgra w i) plane.
Proof.
  intros Hw. unfold put_chroma. rewrite step_by2_even, fold_left_map by done. apply fold_writes. intros p j Hj%elem_of_seq.
  assert (2 * j < w)%nat by (pose proof (Nat.div_mod w 2); lia). rewrite pixel_at_source by done.
  unfold block_writes. destruct (source_pixel bgra w (2 * i) (2 * j)) as [[r g] b]. cbn [chroma_of].
  destruct (chroma r g b) as [cu cv]. cbn [fold_left fst snd]. unfold write. cbn [fst snd].
  replace (2 * i / 2)%nat with i by (rewrite Nat.mul_comm, Nat.div_mul; lia).
  by rewrite (Nat.mul_comm 2 j), Nat.add_assoc.
Qed.

Lemma flat_map_fst {A} (f : A → list (nat * Z)) xs : (flat_map f xs).*1 = flat_map (λ x, (f x).*1) xs.
Proof. induction xs as [|x xs IH]; [done|]. cbn [flat_map]. by rewrite fmap_app, IH. Qed.

Lemma luma_writes_fst bgra w row : (luma_writes bgra w row).*1 = seq (row * w) w.
Proof.
  unfold luma_writes. rewrite flat_map_fst. cbn [fmap list_fmap fst].
  generalize (row * w)%nat as a. intros a. induction w as [|w IH]; [done|].
  rewrite !seq_S, flat_map_app, IH. done.
Qed.

Lemma chroma_writes_fst bgra w i : Nat.even w = true → (chroma_writes bgra w i).*1 = seq (i * w) w.
Proof.
  intros [k ->]%Nat.even_spec. unfold chroma_writes. rewrite flat_map_fst. unfold block_writes. cbn [fmap list_fmap fst].
  replace (2 * k / 2)%nat with k by (rewrite Nat.mul_comm, Nat.div_mul; lia). generalize (i * (2 * k))%nat as a. intros a.
  induction k as [|k IH]; [done|]. rewrite seq_S, flat_map_app, IH. cbn [flat_map app].
  replace (2 * S k)%nat with (2 * k + 2)%nat by lia. rewrite seq_app. cbn [seq]. do 2 f_equal; [lia|]. f_equal. lia.
Qed.

(** All the writes of a plane go to different places. *)
Lemma plane_writes_nodup f w h :
  (∀ r, (f r : list (nat * Z)).*1 = seq (r * w) w) → NoDup (flat_map f (seq 0 h)).*1.
Proof.
  intros Hf. rewrite flat_map_fst. assert (flat_map (λ r, (f r).*1) (seq 0 h) = seq 0 (h * w)) as ->.
  { rewrite <- rows_of_seq. apply flat_map_ext. done. }
  apply NoDup_seq.
Qed.

Lemma luma_lookup bgra w h row col :
  (row < h)%nat → (col < w)%nat →
  fold_left write (flat_map (luma_writes bgra w) (seq 0 h)) (replicate (w * h) 0) !! (row * w + col)%nat =
  Some (luma_of (source_pixel bgra w row col)).
Proof.
  intros Hr Hc. apply writes_lookup; [apply (plane_writes_nodup _ w), luma_writes_fst| |rewrite length_replicate; nia].
  apply list_elem_of_In, in_flat_map. exists row. split; [apply in_seq; lia|].
  apply in_flat_map. exists col. split; [apply in_seq; lia|]. by left.
Qed.

Lemma chroma_lookup bgra w h i j k x :
  Nat.even w = true → (i < h)%nat → (j < w / 2)%nat → (i * w + j * 2 + k, x)%nat ∈ block_writes bgra w i j →
  fold_left write (flat_map (chroma_writes bgra w) (seq 0 h)) (replicate (w * h) 0) !! (i * w + j * 2 + k)%nat = Some x.
Proof.
  intros Hw Hi Hj Hin.
  assert (k ≤ 1)%nat as Hk.
  { unfold block_writes in Hin. rewrite !elem_of_cons in Hin. destruct Hin as [[= ?]|[[= ?]|Hin]]; [lia|lia|].
    by apply not_elem_of_nil in Hin. }
  assert (j * 2 + 1 < w)%nat by (apply Nat.even_spec in Hw as [m ->]; rewrite Nat.mul_comm, Nat.div_mul in Hj; lia).
  apply writes_lookup.
  - apply (plane_writes_nodup _ w). intros r. by apply chroma_writes_fst.
  - apply list_elem_of_In, in_flat_map. exists i. split; [apply in_seq; lia|].
    apply in_flat_map. exists j. split; [apply in_seq; lia|]. by apply list_elem_of_In.
  - rewrite length_replicate. nia.
Qed.

Lemma half_lt n m : Nat.even m = true → (n < m)%nat → (n / 2 < m / 2)%nat.
Proof.
  intros [k ->]%Nat.even_spec Hn. rewrite (Nat.mul_comm 2 k), Nat.div_mul by lia.
  apply Nat.Div0.div_lt_upper_bound. lia.
Qed.

(** The agent's conversion to NV12 panics unless the dimensions are even and the buffer has four bytes a pixel; then every luma sample is the luma of its own pixel and every chroma pair the chroma of the top-left pixel of its two-by-two block, at the places NV12 puts them, and nothing else is in the buffer. *)
Theorem nv12_exact bgra width height :
  (Nat.even width = true ∧ Nat.even height = true ∧ length bgra = (width * height * 4)%nat →
   ∃ out, bgra_to_nv12 bgra width height = Ok out ∧
     length out = (width * height + width * (height / 2))%nat ∧
     ∀ row col, (row < height)%nat → (col < width)%nat →
       let uv := chroma_of (source_pixel bgra width (2 * (row / 2)) (2 * (col / 2))) in
       out !! (row * width + col)%nat = Some (luma_of (source_pixel bgra width row col)) ∧
       out !! (width * height + (row / 2 * width + col / 2 * 2))%nat = Some uv.1 ∧
       out !! (width * height + (row / 2 * width + col / 2 * 2 + 1))%nat = Some uv.2) ∧
  (¬ (Nat.even width = true ∧ Nat.even height = true ∧ length bgra = (width * height * 4)%nat) →
   bgra_to_nv12 bgra width height = Panic).
Proof.
  split; [intros (Hw & Hh & Hlen)|].
  - unfold bgra_to_nv12. rewrite Hw, Hh, Hlen, Nat.eqb_refl. cbn [negb]. eexists. split; [reflexivity|].
    rewrite (fold_writes (luma_writes bgra width)) by (intros; apply put_luma_writes).
    rewrite step_by2_even, fold_left_map, (fold_writes (chroma_writes bgra width)) by (done || intros; by apply put_chroma_writes).
    rewrite length_app, !written_length, !length_replicate. split; [done|]. intros row col Hr Hc.
    assert (row * width + col < width * height)%nat by nia.
    rewrite lookup_app_l by (by rewrite written_length, length_replicate).
    rewrite !lookup_app_r; rewrite ?written_length, ?length_replicate; try lia.
    rewrite !(Nat.add_comm (width * height)), !Nat.add_sub.
    pose proof (half_lt row height Hh Hr). pose proof (half_lt col width Hw Hc). split_and!; [by apply luma_lookup|..].
    + rewrite <- (Nat.add_0_r (row / 2 * width + col / 2 * 2)). apply chroma_lookup; [done..|].
      rewrite Nat.add_0_r. left.
    + apply chroma_lookup; [done..|]. right. left.
  - intros Hno. unfold bgra_to_nv12. destruct (Nat.even width); [|done]. destruct (Nat.even height); [|done].
    cbn [negb]. destruct (Nat.eqb_spec (length bgra) (width * height * 4)); [|done]. exfalso. tauto.
Qed.

(** ** Both ends together *)

(** A grey pixel: the agent's samples, read by the client with nothing lost in
    between. *)
Definition grey_shown (g : Z) : run (list Z) :=
  let '(u, v) := chroma g g g in
  o ← chroma_offsets u v;
  let '(blue, green, red) := o in write_pixel (luma g g g) blue green red.

Definition grey_check (g : Z) : bool :=
  match grey_shown g with
  | Ok [b; g'; r; _] =>
    (b =? g') && (b =? r) && implb (g <=? 16) (b =? 0) && implb (235 <=? g) (b =? 255) &&
    Bool.eqb (b =? g) ((g =? 0) || ((111 <=? g) && (g <=? 116)) || (g =? 255))
  | _ => false
  end.

(** The two ends do not use the same range: the agent writes full-range samples and the client reads them as video range, so even a lossless codec changes what is shown. Every grey up to 16 is shown as black, every grey from 235 up as white, and the only greys that come back as themselves are black, white and the six from 111 to 116. *)
Theorem colour_ranges_differ g :
  u8 g →
  ∃ s a, grey_shown g = Ok [s; s; s; a] ∧
    (g ≤ 16 → s = 0) ∧ (235 ≤ g → s = 255) ∧ (s = g ↔ g = 0 ∨ 111 ≤ g ≤ 116 ∨ g = 255).
Proof.
  intros Hg. assert (forallb grey_check (seqZ 0 256) = true) as Hall by (vm_compute; reflexivity).
  rewrite forallb_forall in Hall. specialize (Hall g). unfold grey_check in Hall.
  rewrite <- list_elem_of_In, elem_of_seqZ in Hall. unfold is_uint in Hg. specialize (Hall ltac:(lia)).
  destruct (grey_shown g) as [[|b [|g' [|r [|a [|]]]]]| |]; try done.
  rewrite !andb_true_iff, !Z.eqb_eq, !implb_true_iff, Bool.eqb_true_iff in Hall.
  destruct Hall as ((((<- & <-) & H0) & H1) & H2). exists b, a. rewrite !Z.leb_le, !Z.eqb_eq in *.
  split_and!; [done|done|done|]. rewrite <- (Z.eqb_eq b g), H2, !orb_true_iff, andb_true_iff, !Z.leb_le, !Z.eqb_eq. lia.
Qed.

Lemma colour_ranges_differ_witness : ∃ s a, grey_shown 32 = Ok [s; s; s; a] ∧ s ≠ 32.
Proof.
  destruct (colour_ranges_differ 32) as (s & a & H1 & _ & _ & H2); [split; [discriminate|reflexivity]|].
  exists s, a. split; [exact H1|]. intros E. apply H2 in E. lia.
Defined.
