(* ===== verification/Decode.v ===== *)
(** * Frame decode on the client

    [crates/oxclient/src/decode/mod.rs] and [decode/h264.rs]: the decoders that
    turn a wire frame into pixels the presenter can show, one for each window.
    The codec of the [openh264] package is a class of operations about which
    nothing is assumed but the types of the planes it returns; the crate's
    [h264] feature is a boolean. Log lines and the dump of rejected units to a
    file are left out, the flags that decide about them are kept. *)

From S2P Require Import Prelude Cursor Wire MsgType MsgControl MsgInput MsgWindow H264 AnnexB Yuv.

Definition MAX_DECODED_PIXELS : Z := Z.shiftl 16 20.

Inductive DecodeError : Type :=
| UnsupportedCodec (codec : Z)
| Init (codec : Z) (detail : string)
| PayloadLength (expected actual : Z)
| GeometryError (width height : Z)
| Bitstream (detail : string).

Definition checked_geometry (width height : Z) : outcome DecodeError (Z * Z) :=
  let too_big := match checked_usize (width * height) with
                 | None => true
                 | Some pixels => pixels >? MAX_DECODED_PIXELS
                 end in
  if (width =? 0) || (height =? 0) || (width >? 65535) || (height >? 65535) || too_big
  then Err (GeometryError width height)
  else Ok (width, height).

(** [trait Decoder] *)
Class Decoder (D : Type) : Type := {
  dec_codec : D → Z;
  dec_decode : D → FrameData → D * outcome DecodeError (option FrameData)
}.

(** ** [PassthroughDecoder] *)

Inductive PassthroughDecoder : Type := Passthrough.

Definition passthrough_decode (frame : FrameData) : outcome DecodeError (option FrameData) :=
  g ← checked_geometry (fd_width frame) (fd_height frame);
  let '(width, height) := g in
  let expected := width * height * 4 in
  if negb (len (fd_data frame) =? expected) then Err (PayloadLength expected (len (fd_data frame)))
  else Ok (Some frame).

#[export] Instance passthrough_decoder : Decoder PassthroughDecoder := {|
  dec_codec _ := codec.RAW_BGRA;
  dec_decode d frame := (d, passthrough_decode frame)
|}.

(** ** [H264Decoder] *)

(** [openh264::decoder::Decoder] *)
Class OpenH264 : Type := {
  oh : Type;
  oh_new : outcome string oh;
  oh_decode : oh → list Z → oh * outcome string (option I420Planes)
}.

(** The planes are bytes and the sizes machine integers. *)
Class OpenH264Typed `{OpenH264} : Prop := {
  oh_decode_typed s data s' p : oh_decode s data = (s', Ok (Some p)) → planes_typed p
}.

Section Decoders.
Context `{OpenH264} `{I32x8}.
Variable feature_h264 : bool.

Record H264Decoder : Type := mkH264Decoder {
  inner : oh;
  awaiting_keyframe : bool;
  warned_about_parameter_sets : bool;
  dropped_while_resyncing : Z;
  reported_profile : bool
}.

Definition H264Decoder_new : outcome DecodeError H264Decoder :=
  inner ← map_err (Init codec.H264) oh_new;
  Ok (mkH264Decoder inner true false 0 false).

Definition report_rejection (d : H264Decoder) (frame : FrameData) : H264Decoder :=
  if negb (is_keyframe frame) && negb (warned_about_parameter_sets d) && has_parameter_sets (fd_data frame)
  then mkH264Decoder (inner d) (awaiting_keyframe d) true (dropped_while_resyncing d) (reported_profile d)
  else d.

Definition report_profile (d : H264Decoder) (frame : FrameData) : H264Decoder :=
  if reported_profile d then d
  else match stream_profile (fd_data frame) with
       | None => d
       | Some _ => mkH264Decoder (inner d) (awaiting_keyframe d) (warned_about_parameter_sets d)
                                 (dropped_while_resyncing d) true
       end.

Definition lift_run {A} (m : run A) : outcome DecodeError A :=
  match m with Ok a => Ok a | Err e => match e with end | Panic => Panic end.

(** What becomes of a decoded picture. *)
Definition convert_yuv (yuv : I420Planes) : outcome DecodeError (option (Z * Z * list Z)) :=
  _ ← checked_geometry (p_width yuv) (p_height yuv);
  bgra ← lift_run (i420_to_bgra yuv);
  match bgra with
  | Some bgra => Ok (Some (p_width yuv, p_height yuv, bgra))
  | None => Err (Bitstream "decoded picture is smaller than its declared geometry")
  end.

Definition picture_of (r : outcome string (option I420Planes)) : outcome DecodeError (option (Z * Z * list Z)) :=
  match r with
  | Ok None => Ok None
  | Ok (Some yuv) => convert_yuv yuv
  | Err error => Err (Bitstream error)
  | Panic => Panic
  end.

Definition h264_decode (d : H264Decoder) (frame : FrameData) : H264Decoder * outcome DecodeError (option FrameData) :=
  if awaiting_keyframe d && negb (is_keyframe frame || contains_idr (fd_data frame)) then
    (mkH264Decoder (inner d) (awaiting_keyframe d) (warned_about_parameter_sets d)
                   (sat_uint 32 (dropped_while_resyncing d + 1)) (reported_profile d), Ok None)
  else
    let d :=
      if awaiting_keyframe d then
        mkH264Decoder (inner d) false (warned_about_parameter_sets d)
                      (if dropped_while_resyncing d >? 0 then 0 else dropped_while_resyncing d) (reported_profile d)
      else d in
    let d := report_profile d frame in
    let '(inner', r) := oh_decode (inner d) (fd_data frame) in
    let d := mkH264Decoder inner' (awaiting_keyframe d) (warned_about_parameter_sets d)
                           (dropped_while_resyncing d) (reported_profile d) in
    match picture_of r with
    | Ok None => (d, Ok None)
    | Ok (Some (width, height, data)) =>
      (d, Ok (Some (mkFrameData (fd_window_id frame) (fd_frame_id frame) codec.RAW_BGRA (fd_flags frame)
                      (as_uint 16 width) (as_uint 16 height) (fd_captured_us frame) (fd_encoded_us frame) data)))
    | Err error =>
      let d := report_rejection d frame in
      (mkH264Decoder (inner d) true (warned_about_parameter_sets d) (dropped_while_resyncing d)
                     (reported_profile d), Err error)
    | Panic => (d, Panic)
    end.

#[export] Instance h264_decoder : Decoder H264Decoder := {|
  dec_codec _ := codec.H264;
  dec_decode := h264_decode
|}.

(** ** Choosing a decoder *)

Definition preferred_codecs : list Z :=
  if feature_h264 then [codec.H264; codec.RAW_BGRA] else [codec.RAW_BGRA].

Definition supports_codec (c : Z) : bool := bool_decide (c ∈ preferred_codecs).

(** [Box<dyn Decoder>] *)
Inductive AnyDecoder : Type :=
| AnyPassthrough (d : PassthroughDecoder)
| AnyH264 (d : H264Decoder).

#[export] Instance any_decoder : Decoder AnyDecoder := {|
  dec_codec d := match d with AnyPassthrough d => dec_codec d | AnyH264 d => dec_codec d end;
  dec_decode d frame :=
    match d with
    | AnyPassthrough d => let '(d, r) := dec_decode d frame in (AnyPassthrough d, r)
    | AnyH264 d => let '(d, r) := dec_decode d frame in (AnyH264 d, r)
    end
|}.

Definition new_decoder (c : Z) : outcome DecodeError AnyDecoder :=
  if c =? codec.RAW_BGRA then Ok (AnyPassthrough Passthrough)
  else if feature_h264 && (c =? codec.H264) then d ← H264Decoder_new; Ok (AnyH264 d)
  else Err (UnsupportedCodec c).

(** ** [WindowDecoders] *)

Record WindowDecoders : Type := mkWindowDecoders { decoders : gmap Z AnyDecoder }.

Definition WindowDecoders_new : WindowDecoders := mkWindowDecoders ∅.

Definition windows_decode (ws : WindowDecoders) (frame : FrameData) :
    WindowDecoders * outcome DecodeError (option FrameData) :=
  let window_id := fd_window_id frame in
  let wire_codec := fd_codec frame in
  let stale := match decoders ws !! window_id with
               | None => true
               | Some decoder => negb (dec_codec decoder =? wire_codec)
               end in
  match (if stale then d ← new_decoder wire_codec; Ok (<[window_id := d]> (decoders ws)) else Ok (decoders ws)) with
  | Ok ds =>
    match ds !! window_id with
    | Some d => let '(d, r) := dec_decode d frame in (mkWindowDecoders (<[window_id := d]> ds), r)
    | None => (mkWindowDecoders ds, Panic)
    end
  | Err e => (ws, Err e)
  | Panic => (ws, Panic)
  end.

Definition windows_forget (ws : WindowDecoders) (window_id : Z) : WindowDecoders :=
  mkWindowDecoders (delete window_id (decoders ws)).
End Decoders.

(** ** What leaves a decoder can be shown *)

(** What the presenter accepts: packed BGRA of a size it can hold. *)
Definition presentable (f : FrameData) : Prop :=
  fd_codec f = codec.RAW_BGRA ∧ 0 < fd_width f ≤ 65535 ∧ 0 < fd_height f ≤ 65535 ∧
  fd_width f * fd_height f ≤ 2 ^ 24 ∧ len (fd_data f) = fd_width f * fd_height f * 4.

(** The frame's identity and its times on the agent's clock. *)
Definition same_frame (f g : FrameData) : Prop :=
  fd_window_id g = fd_window_id f ∧ fd_frame_id g = fd_frame_id f ∧ fd_flags g = fd_flags f ∧
  fd_captured_us g = fd_captured_us f ∧ fd_encoded_us g = fd_encoded_us f.

Lemma checked_geometry_ok w h a b :
  0 ≤ w → 0 ≤ h → checked_geometry w h = Ok (a, b) →
  a = w ∧ b = h ∧ 0 < w ≤ 65535 ∧ 0 < h ≤ 65535 ∧ w * h ≤ 2 ^ 24.
Proof.
  intros Hw Hh. unfold checked_geometry. match goal with |- context [if ?c then _ else _] => destruct c eqn:Hno end; [done|].
  intros [= <- <-]. rewrite !orb_false_iff, !Z.eqb_neq, !Z.gtb_ltb, !Z.ltb_ge, checked_usize_spec in Hno.
  destruct Hno as ((((? & ?) & ?) & ?) & Hbig). case_decide; [|done]. rewrite Z.gtb_ltb, Z.ltb_ge in Hbig.
  change MAX_DECODED_PIXELS with (2 ^ 24) in Hbig. lia.
Qed.

Lemma checked_geometry_no_panic w h : checked_geometry w h ≠ Panic.
Proof. unfold checked_geometry. by case_if. Qed.

Lemma passthrough_spec f g :
  0 ≤ fd_width f → 0 ≤ fd_height f → fd_codec f = codec.RAW_BGRA →
  passthrough_decode f = Ok (Some g) → g = f ∧ presentable g.
Proof.
  intros Hw Hh Hc. unfold passthrough_decode.
  destruct (checked_geometry (fd_width f) (fd_height f)) as [[w h]| |] eqn:E; [|done..]. cbn [mbind outcome_bind].
  apply checked_geometry_ok in E as (-> & -> & ? & ? & ?); [|done..].
  destruct (Z.eqb_spec (len (fd_data f)) (fd_width f * fd_height f * 4)); [|done]. intros [= <-].
  by split; [|split_and!; try tauto].
Qed.

Section DecoderFacts.
Context `{OpenH264Typed} `{I32x8Laws}.

Lemma convert_yuv_spec yuv :
  planes_typed yuv →
  convert_yuv yuv ≠ Panic ∧
  ∀ w h bgra, convert_yuv yuv = Ok (Some (w, h, bgra)) →
    0 < w ≤ 65535 ∧ 0 < h ≤ 65535 ∧ w * h ≤ 2 ^ 24 ∧ len bgra = w * h * 4.
Proof.
  intros Ht. unfold convert_yuv. pose proof (checked_geometry_no_panic (p_width yuv) (p_height yuv)) as Hn.
  destruct (checked_geometry (p_width yuv) (p_height yuv)) as [[w h]| |] eqn:E; [|done..]. cbn [mbind outcome_bind].
  pose proof Ht as ([Hw _] & [Hh _] & _).
  apply checked_geometry_ok in E as (-> & -> & ? & ? & ?); [|done..].
  destruct (i420_cases yuv Ht) as [->|(bgra & -> & Hlen)]; cbn [lift_run mbind outcome_bind]; [done|].
  split; [done|]. intros w h b [= <- <- <-]. by split_and!; try tauto.
Qed.

(** Whatever the codec does, a picture that leaves the decoder can be shown,
    and only the codec itself can panic. *)
Lemma h264_decode_spec d f d' r :
  h264_decode d f = (d', r) →
  (r = Panic → (oh_decode (inner d) (fd_data f)).2 = Panic) ∧
  (∀ g, r = Ok (Some g) → presentable g ∧ same_frame f g).
Proof.
  unfold h264_decode. case_if; [by intros [= <- <-]|]. set (d1 := report_profile _ f).
  assert (inner d1 = inner d) as ->.
  { unfold d1, report_profile. destruct (awaiting_keyframe d); cbn [reported_profile inner];
      (case_if; [done|]); by destruct (stream_profile (fd_data f)). }
  destruct (oh_decode (inner d) (fd_data f)) as [i' q] eqn:E.
  assert (picture_of q = Panic → q = Panic) as Hp.
  { destruct q as [[yuv|]| |]; cbn [picture_of]; [|done..]. intros Hq.
    apply oh_decode_typed in E. by apply convert_yuv_spec in E as [? _]. }
  assert (∀ w h bgra, picture_of q = Ok (Some (w, h, bgra)) →
    0 < w ≤ 65535 ∧ 0 < h ≤ 65535 ∧ w * h ≤ 2 ^ 24 ∧ len bgra = w * h * 4) as Hok.
  { destruct q as [[yuv|]| |]; cbn [picture_of]; [|done..]. apply oh_decode_typed in E. by apply convert_yuv_spec. }
  cbn [snd]. destruct (picture_of q) as [[[[w h] bgra]|]| |] eqn:Eq; intros [= <- <-]; split; try done.
  - intros g [= <-]. destruct (Hok w h bgra eq_refl) as (? & ? & ? & ?). unfold presentable, same_frame, as_uint. cbn.
    rewrite !Z.mod_small by lia. split_and!; (done || lia).
  - intros _. by apply Hp.
Qed.

Lemma H264Decoder_new_panic : H264Decoder_new = Panic → oh_new = Panic.
Proof. unfold H264Decoder_new. by destruct oh_new. Qed.

(** Only the codec can panic. *)
Definition codec_panics (data : list Z) : Prop := oh_new = Panic ∨ ∃ s, (oh_decode s data).2 = Panic.

Lemma any_decode_spec (d : AnyDecoder) f d' r :
  0 ≤ fd_width f → 0 ≤ fd_height f → dec_codec d = fd_codec f → dec_decode d f = (d', r) →
  (r = Panic → codec_panics (fd_data f)) ∧ (∀ g, r = Ok (Some g) → presentable g ∧ same_frame f g).
Proof.
  intros Hw Hh Hc. destruct d as [d|d]; cbn [dec_decode any_decoder passthrough_decoder h264_decoder].
  - intros [= <- <-]. cbn in Hc. split.
    + unfold passthrough_decode. pose proof (checked_geometry_no_panic (fd_width f) (fd_height f)).
      destruct (checked_geometry _ _) as [[w h]| |]; [|done..]. cbn. by case_if.
    + intros g Hg. destruct (passthrough_spec f g Hw Hh (eq_sym Hc) Hg) as [-> ?]. by split.
  - destruct (h264_decode d f) as [d1 r1] eqn:E. intros [= <- <-]. apply h264_decode_spec in E as [Hp Hg].
    split; [|done]. intros Hr. right. eexists. by apply Hp.
Qed.

Lemma new_decoder_spec feat c :
  (new_decoder feat c = Panic → oh_new = Panic) ∧ ∀ d, new_decoder feat c = Ok d → dec_codec d = c.
Proof.
  unfold new_decoder. destruct (Z.eqb_spec c codec.RAW_BGRA) as [->|]; [split; [done|]; by intros d [= <-]|].
  destruct feat; cbn [andb]; [|by split]. destruct (Z.eqb_spec c codec.H264) as [->|]; [|by split].
  pose proof H264Decoder_new_panic as Hp. destruct H264Decoder_new as [d| |]; cbn; [|by split|split; [auto|done]].
  split; [done|]. by intros ? [= <-].
Qed.
End DecoderFacts.

(** C34: for every frame off the wire and whatever the H.264 codec answers, what the client's decoders hand on is packed BGRA of at most 65535 pixels a side and 2^24 in all, with exactly four bytes a pixel and the window, frame id, flags and timestamps of the frame it came from; a window's frame leaves the other windows' decoders alone; and nothing but the codec package itself can panic. *)
Theorem decoders_presentable `{OpenH264Typed} `{I32x8Laws} feat ws f ws' r :
  0 ≤ fd_width f → 0 ≤ fd_height f → windows_decode feat ws f = (ws', r) →
  (∀ g, r = Ok (Some g) → presentable g ∧ same_frame f g) ∧
  (∀ w, w ≠ fd_window_id f → decoders ws' !! w = decoders ws !! w) ∧
  (r = Panic → codec_panics (fd_data f)).
Proof.
  intros Hw Hh. unfold windows_decode. set (stale := match decoders ws !! fd_window_id f with None => true | _ => _ end).
  destruct (new_decoder_spec feat (fd_codec f)) as [Hnp Hnc].
  destruct stale eqn:Hs.
  - destruct (new_decoder feat (fd_codec f)) as [d| |]; cbn [mbind outcome_bind].
    + rewrite lookup_insert_eq. destruct (dec_decode d f) as [d1 r1] eqn:E. intros [= <- <-].
      apply any_decode_spec in E as [Hp Hg]; [|done|done|by apply Hnc]. split_and!; [done| |done].
      intros w Hne. cbn. by rewrite !lookup_insert_ne.
    + by intros [= <- <-].
    + intros [= <- <-]. split_and!; [done|done|]. intros _. left. by apply Hnp.
  - unfold stale in Hs. destruct (decoders ws !! fd_window_id f) as [d|] eqn:Hd; [|done].
    destruct (dec_decode d f) as [d1 r1] eqn:E. intros [= <- <-]. apply negb_false_iff, Z.eqb_eq in Hs.
    apply any_decode_spec in E as [Hp Hg]; [|done..]. split_and!; [done| |done].
    intros w Hne. cbn. by rewrite lookup_insert_ne.
Qed.

(** A codec that shows a flat two-by-two picture for everything. *)
#[export] Instance flat_codec : OpenH264 := {|
  oh := unit; oh_new := Ok tt;
  oh_decode s _ := (s, Ok (Some (mkI420 [235; 235; 16; 16] [128] [128] 2 2 2 1 1)))
|}.

#[export] Instance flat_codec_typed : OpenH264Typed.
Proof.
  constructor. intros s data s' p [= <- <-].
  unfold planes_typed, is_uint. cbn. split_and!; try lia; repeat constructor; unfold is_uint; lia.
Qed.

Lemma decoders_presentable_witness :
  let f := mkFrameData 7 41 codec.H264 1 2 2 10 20 [0; 0; 1; 0x65] in
  ∃ ws' g, windows_decode true WindowDecoders_new f = (ws', Ok (Some g)) ∧ presentable g.
Proof.
  intros f. destruct (windows_decode true WindowDecoders_new f) as [ws' r] eqn:E.
  destruct (decoders_presentable true WindowDecoders_new f ws' r) as (H1 & _ & _); [discriminate|discriminate|exact E|].
  destruct r as [[g|]| |]; [|vm_compute in E; discriminate..].
  exists ws', g. split; [reflexivity|]. apply (H1 g eq_refl).
Defined.

(** ** Waiting for a keyframe *)

Section Gate.
Context `{OpenH264} `{I32x8}.

Definition startable (f : FrameData) : bool := is_keyframe f || contains_idr (fd_data f).

(** The codec is given the frame. *)
Definition consulted (d : H264Decoder) (f : FrameData) : bool := negb (awaiting_keyframe d && negb (startable f)).

(** Each frame with the decoder it met, what that gave and what it left. *)
Fixpoint h264_trace (d : H264Decoder) (fs : list FrameData) :
    list (H264Decoder * FrameData * outcome DecodeError (option FrameData) * H264Decoder) :=
  match fs with
  | [] => []
  | f :: fs => let '(d', r) := h264_decode d f in (d, f, r, d') :: h264_trace d' fs
  end.

Lemma skipped d f : consulted d f = false →
  ∃ d', h264_decode d f = (d', Ok None) ∧ inner d' = inner d ∧ awaiting_keyframe d' = true.
Proof.
  unfold consulted. intros E%negb_false_iff. unfold h264_decode. unfold startable in E. rewrite E.
  apply andb_true_iff in E as [E _]. eexists. by split_and!.
Qed.

Lemma report_profile_awaiting d f : awaiting_keyframe (report_profile d f) = awaiting_keyframe d.
Proof. unfold report_profile. case_if; [done|]. by destruct (stream_profile (fd_data f)). Qed.

(** A decoder that is in step had a frame to start from, and no error since. *)
Lemma in_step_after d f d' r :
  h264_decode d f = (d', r) → awaiting_keyframe d' = false →
  (∀ e, r ≠ Err e) ∧ (awaiting_keyframe d = false ∨ startable f = true).
Proof.
  intros E Ha. destruct (consulted d f) eqn:Hc.
  - assert (awaiting_keyframe d = false ∨ startable f = true) as Hor.
    { unfold consulted in Hc. destruct (awaiting_keyframe d), (startable f); auto. }
    split; [|done]. intros e ->. revert E. unfold h264_decode.
    case_if; [by intros [= <-]|]. destruct (oh_decode _ _) as [i q]. destruct (picture_of q) as [[[[w h] b]|]| |]; try done.
    by intros [= <- <-].
  - destruct (skipped d f Hc) as (d2 & E2 & _ & Ha2). rewrite E in E2. injection E2 as -> _. congruence.
Qed.

Lemma trace_step fs : ∀ d k e f r e', h264_trace d fs !! k = Some (e, f, r, e') → h264_decode e f = (e', r).
Proof.
  induction fs as [|g fs IH]; intros d k e f r e' Hk; [done|]. cbn [h264_trace] in Hk.
  destruct (h264_decode d g) as [d1 r1] eqn:E. destruct k as [|k]; [by injection Hk as <- <- <- <-|by eapply IH].
Qed.

(** Between [j] and [k] nothing was rejected. *)
Definition no_error_between {A B} (l : list (A * outcome DecodeError (option FrameData) * B)) (j k : nat) : Prop :=
  ∀ i x, (j <= i < k)%nat → l !! i = Some x → ∀ e, x.1.2 ≠ Err e.

Lemma no_error_cons {A B} (x : A * outcome DecodeError (option FrameData) * B) l j k :
  no_error_between l j k → no_error_between (x :: l) (S j) (S k).
Proof. intros Hl i y Hi Hy. destruct i as [|i]; [lia|]. apply (Hl i); [lia|done]. Qed.

Lemma gate_from fs : ∀ d k e f r e',
  h264_trace d fs !! k = Some (e, f, r, e') → consulted e f = true →
  (awaiting_keyframe d = false ∧ no_error_between (h264_trace d fs) 0 k) ∨
  ∃ j fj, (j <= k)%nat ∧ fs !! j = Some fj ∧ startable fj = true ∧ no_error_between (h264_trace d fs) j k.
Proof.
  induction fs as [|g fs IH]; intros d k e f r e' Hk Hc; [done|]. cbn [h264_trace] in *.
  destruct (h264_decode d g) as [d1 r1] eqn:E. destruct k as [|k].
  - injection Hk as -> -> -> ->. unfold consulted in Hc.
    destruct (awaiting_keyframe e) eqn:Ha; [right|left; split; [done|]; intros i ? ?; lia].
    exists 0%nat, f. split_and!; [lia|done|by destruct (startable f)|]. intros i ? ?. lia.
  - specialize (IH d1 k e f r e' Hk Hc). destruct IH as [[Ha Hn]|(j & fj & Hj & Hf & Hs & Hn)].
    + destruct (in_step_after _ _ _ _ E Ha) as [Hr Hor].
      assert (no_error_between ((d, g, r1, d1) :: h264_trace d1 fs) 0 (S k)) as Hn'.
      { intros i y Hi Hy. destruct i as [|i]; [by injection Hy as <-|]. apply (Hn i); [lia|done]. }
      destruct Hor as [Hd|Hg]; [by left|]. right. exists 0%nat, g. split_and!; [lia|done|done|done].
    + right. exists (S j), fj. split_and!; [lia|done|done|by apply no_error_cons].
Qed.
End Gate.

(** Over any run of frames and whatever the codec answers, the decoder gives the codec a frame only when, since the start or the last rejected frame, there was one to start from (flagged as a keyframe or carrying an IDR slice); until then it answers nothing, without touching the codec, and it takes the first one that comes. *)
Theorem h264_waits_for_keyframe `{OpenH264} `{I32x8} d fs k e f r e' :
  awaiting_keyframe d = true → h264_trace d fs !! k = Some (e, f, r, e') →
  (consulted e f = true →
   ∃ j fj, (j <= k)%nat ∧ fs !! j = Some fj ∧ startable fj = true ∧ no_error_between (h264_trace d fs) j k) ∧
  (consulted e f = false → r = Ok None ∧ inner e' = inner e ∧ startable f = false).
Proof.
  intros Hd Hk. split; intros Hc.
  - destruct (gate_from fs d k e f r e' Hk Hc) as [[Ha _]|?]; [congruence|done].
  - pose proof (trace_step fs _ _ _ _ _ _ Hk) as E. destruct (skipped e f Hc) as (d2 & E2 & Hi & _). rewrite E in E2. injection E2 as <- ->. split_and!; [done|done|].
    unfold consulted in Hc. by destruct (awaiting_keyframe e), (startable f).
Qed.

Lemma h264_waits_for_keyframe_witness :
  let d := mkH264Decoder tt true false 0 false in
  let inter := mkFrameData 7 40 codec.H264 0 2 2 10 20 [0; 0; 1; 0x41] in
  let key := mkFrameData 7 41 codec.H264 0 2 2 10 20 [0; 0; 1; 0x65] in
  ∃ j fj, (j <= 2)%nat ∧ [inter; key; inter] !! j = Some fj ∧ startable fj = true.
Proof.
  intros d inter key.
  destruct (h264_trace d [inter; key; inter] !! 2%nat) as [[[[e f] r] e']|] eqn:E; [|vm_compute in E; discriminate].
  destruct (h264_waits_for_keyframe d [inter; key; inter] 2 e f r e') as [H1 _]; [reflexivity|exact E|].
  destruct H1 as (j & fj & Hj & Hf & Hs & _).
  - vm_compute in E. injection E as <- <- _ _. reflexivity.
  - exists j, fj. split; [exact Hj|]. split; [exact Hf|exact Hs].
Defined.
