(* ===== verification/Channel.v ===== *)
(** * Bounded channels

    The multi-producer channel of the runtime, as a class of operations tied by
    its laws to what its documentation says of the queued elements, the capacity
    and the two ends. The decode workers of the client and the writer task of
    the agent both hang behind one. *)

From S2P Require Import Prelude.

Inductive send_result : Type := Sent | Full | Closed.

(** What its documentation speaks of. *)
Record chan_view (A : Type) : Type := mkView { v_queued : list A; v_capacity : Z; v_tx : bool; v_rx : bool }.
Arguments mkView {A} _ _ _ _.
Arguments v_queued {A} _.
Arguments v_capacity {A} _.
Arguments v_tx {A} _.
Arguments v_rx {A} _.

Section View.
Context {A : Type}.
Implicit Types v : chan_view A.

Definition v_channel (n : Z) : chan_view A := mkView [] n true true.

(** Whether an element could be sent now. *)
Definition v_room v : send_result :=
  if negb (v_rx v) then Closed else if v_capacity v <=? len (v_queued v) then Full else Sent.

Definition v_try_send v (a : A) : chan_view A * send_result :=
  match v_room v with
  | Sent => (mkView (v_queued v ++ [a]) (v_capacity v) (v_tx v) (v_rx v), Sent)
  | r => (v, r)
  end.

(** The element taken, if any; nothing while the receiver must wait. *)
Definition v_recv v : option (chan_view A * option A) :=
  match v_queued v with
  | a :: r => Some (mkView r (v_capacity v) (v_tx v) (v_rx v), Some a)
  | [] => if v_tx v then None else Some (v, None)
  end.

Definition v_drop_tx v : chan_view A := mkView (v_queued v) (v_capacity v) false (v_rx v).
Definition v_drop_rx v : chan_view A := mkView [] (v_capacity v) (v_tx v) false.
End View.

Class Channel (A : Type) : Type := {
  chan : Type;
  channel : Z → chan;
  try_send : chan → A → chan * send_result;
  (** [try_reserve]: a permit, whose [send] is then a [try_send] that succeeds. *)
  try_reserve : chan → send_result;
  blocking_recv : chan → option (chan * option A);
  drop_tx : chan → chan;
  drop_rx : chan → chan;
  view : chan → chan_view A
}.

Class ChannelLaws (A : Type) `{Channel A} : Prop := {
  channel_view n : view (channel n) = v_channel n;
  try_send_view c a : (view (try_send c a).1, (try_send c a).2) = v_try_send (view c) a;
  try_reserve_view c : try_reserve c = v_room (view c);
  recv_view c : (λ '(c', o), (view c', o)) <$> blocking_recv c = v_recv (view c);
  drop_tx_view c : view (drop_tx c) = v_drop_tx (view c);
  drop_rx_view c : view (drop_rx c) = v_drop_rx (view c)
}.

(** ** What the laws give *)

Section Facts.
Context `{ChannelLaws A}.

Lemma try_send_cases c a c' r :
  try_send c a = (c', r) →
  match r with
  | Sent => v_rx (view c) = true ∧ len (v_queued (view c)) < v_capacity (view c) ∧
            view c' = mkView (v_queued (view c) ++ [a]) (v_capacity (view c)) (v_tx (view c)) (v_rx (view c))
  | _ => view c' = view c
  end.
Proof.
  intros E. pose proof (try_send_view c a) as Hv. rewrite E in Hv. cbn [fst snd] in Hv. unfold v_try_send, v_room in Hv.
  destruct (v_rx (view c)) eqn:Erx; cbn [negb] in Hv; [|by injection Hv as -> ->].
  destruct (Z.leb_spec (v_capacity (view c)) (len (v_queued (view c)))); injection Hv as -> ->; done.
Qed.

Lemma recv_cases c c' o :
  blocking_recv c = Some (c', o) →
  match o with
  | Some a => view c = mkView (a :: v_queued (view c')) (v_capacity (view c')) (v_tx (view c')) (v_rx (view c'))
  | None => view c' = view c ∧ v_queued (view c) = []
  end.
Proof.
  intros E. pose proof (recv_view c) as Hv. rewrite E in Hv. cbn in Hv. unfold v_recv in Hv.
  destruct (view c) as [[|a r] cap tx rx]; cbn in Hv.
  - destruct tx; [done|]. by injection Hv as -> ->.
  - by injection Hv as -> ->.
Qed.
End Facts.

(** ** An instance *)

#[export] Instance view_channel A : Channel A := {|
  chan := chan_view A; channel := v_channel; try_send := v_try_send; try_reserve := v_room; blocking_recv := v_recv;
  drop_tx := v_drop_tx; drop_rx := v_drop_rx; view c := c
|}.

#[export] Instance view_channel_laws A : ChannelLaws A.
Proof.
  constructor; try done.
  - intros c f. cbn. by destruct (v_try_send c f).
  - intros c. cbn. by destruct (v_recv c) as [[c' o]|].
Qed.
