(* ===== verification/Pipeline.v ===== *)
(** * Decode workers

    [crates/oxclient/src/decode/pipeline.rs]: one queue and one thread for each
    window. The operations of [DecodePipeline] and one round of a worker's loop
    are functions; their interleaving is a step function on a system of all the
    workers ever started, driven by events. What the environment decides comes
    with an event: whether a thread starts, the clock, whether the sink still
    takes frames.

    The queue is a [Channel]. A sender that was cloned may outlive the one the
    pipeline held, so the channel closes at some event after the pipeline let
    go. *)

From S2P Require Import Prelude Cursor Wire MsgType MsgControl MsgInput MsgWindow H264 AnnexB Yuv Decode Channel.

Definition QUEUE_DEPTH : Z := 4.

Inductive FrameReport : Type :=
| Decoded (window_id frame_id decoded_us : Z)
| Dropped (window_id frame_id finished_us : Z).

Definition report_window_id (r : FrameReport) : Z := match r with Decoded w _ _ | Dropped w _ _ => w end.
Definition report_frame_id (r : FrameReport) : Z := match r with Decoded _ f _ | Dropped _ f _ => f end.

(** ** Workers *)

Section Workers.
Context `{Channel FrameData} {D : Type} `{Decoder D}.
Variable factory : Z → Z → outcome DecodeError D.

Record Worker : Type := mkWorker {
  w_window : Z;
  w_chan : chan;
  w_decoder : option D;
  w_hand : option FrameData;
  w_alive : bool
}.

(** [spawn_worker]: when no thread starts, the receiver goes with it. *)
Definition spawn_worker (window_id : Z) (started : bool) : Worker :=
  let c := channel QUEUE_DEPTH in
  if started then mkWorker window_id c None None true
  else mkWorker window_id (drop_rx c) None None false.

(** [while let Some(frame) = frames.blocking_recv()]: takes the next frame in
    hand, or ends the thread. *)
Definition worker_recv (w : Worker) : option Worker :=
  if w_alive w && bool_decide (w_hand w = None) then
    match blocking_recv (w_chan w) with
    | Some (c, Some frame) => Some (mkWorker (w_window w) c (w_decoder w) (Some frame) true)
    | Some (c, None) => Some (mkWorker (w_window w) (drop_rx c) (w_decoder w) None false)
    | None => None
    end
  else None.

(** The decoder for the frame's codec: kept, or built anew. *)
Definition decoder_for (w : Worker) (frame : FrameData) : option D :=
  match w_decoder w with
  | Some current =>
    if dec_codec current =? fd_codec frame then Some current
    else match factory (w_window w) (fd_codec frame) with Ok new => Some new | _ => None end
  | None => match factory (w_window w) (fd_codec frame) with Ok new => Some new | _ => None end
  end.

(** A factory that panics ends the thread. *)
Definition factory_panics (w : Worker) (frame : FrameData) : bool :=
  let fresh := match w_decoder w with Some current => negb (dec_codec current =? fd_codec frame) | None => true end in
  fresh && match factory (w_window w) (fd_codec frame) with Panic => true | _ => false end.

(** The body of the loop, for the frame in hand: the decoder it leaves and
    the picture, a panic of the decoder caught. *)
Definition decode_in_hand (w : Worker) (frame : FrameData) : option D * option FrameData :=
  match decoder_for w frame with
  | None => (None, None)
  | Some active =>
    match dec_decode active frame with
    | (d, Ok decoded) => (Some d, decoded)
    | (d, Err _) => (Some d, None)
    | (_, Panic) => (None, None)
    end
  end.

Definition worker_finish (w : Worker) (now : Z) (sink_open : bool) :
    option (Worker * list FrameReport * list FrameData) :=
  match w_hand w with
  | None => None
  | Some frame =>
    if factory_panics w frame then
      Some (mkWorker (w_window w) (drop_rx (w_chan w)) None None false, [], [])
    else
      let '(decoder, decoded) := decode_in_hand w frame in
      match decoded with
      | Some picture =>
        let report := Decoded (w_window w) (fd_frame_id frame) now in
        if sink_open then Some (mkWorker (w_window w) (w_chan w) decoder None true, [report], [picture])
        else Some (mkWorker (w_window w) (drop_rx (w_chan w)) decoder None false, [report], [])
      | None =>
        Some (mkWorker (w_window w) (w_chan w) decoder None true, [Dropped (w_window w) (fd_frame_id frame) now], [])
      end
  end.

(** ** [DecodePipeline] *)

(** The senders by window, and every worker ever started. *)
Record DecodePipeline : Type := mkPipeline { workers : gmap Z nat; threads : list Worker }.

Definition DecodePipeline_new : DecodePipeline := mkPipeline ∅ [].

Inductive submitted : Type :=
| Placed
| Backpressure (frame : FrameData) (queue : nat)
| Acknowledged (report : FrameReport).

Definition with_chan (c : chan) (w : Worker) : Worker :=
  mkWorker (w_window w) c (w_decoder w) (w_hand w) (w_alive w).

(** [self.workers.entry(window_id).or_insert_with(..)] *)
Definition entry (p : DecodePipeline) (window_id : Z) (started : bool) : DecodePipeline * nat :=
  match workers p !! window_id with
  | Some i => (p, i)
  | None =>
    let i := length (threads p) in
    (mkPipeline (<[window_id := i]> (workers p)) (threads p ++ [spawn_worker window_id started]), i)
  end.

Definition submit (p : DecodePipeline) (frame : FrameData) (started : bool) (now : Z) :
    option (DecodePipeline * nat * submitted) :=
  let window_id := fd_window_id frame in
  let '(p, i) := entry p window_id started in
  w ← threads p !! i;
  let '(c, r) := try_send (w_chan w) frame in
  let p' := mkPipeline (workers p) (<[i := with_chan c w]> (threads p)) in
  Some match r with
       | Sent => (p', i, Placed)
       | Full => (p', i, Backpressure frame i)
       | Closed => (mkPipeline (delete window_id (workers p')) (threads p'), i,
                    Acknowledged (Dropped window_id (fd_frame_id frame) now))
       end.

Definition forget (p : DecodePipeline) (window_id : Z) : DecodePipeline :=
  mkPipeline (delete window_id (workers p)) (threads p).

Definition pipeline_len (p : DecodePipeline) : Z := Z.of_nat (size (workers p)).
Definition pipeline_is_empty (p : DecodePipeline) : bool := pipeline_len p =? 0.

(** ** The system *)

Inductive event : Type :=
| EvSubmit (frame : FrameData) (started : bool) (now : Z)
| EvForget (window_id : Z)
(** A caller places the frame it got back, on the sender it got with it. *)
| EvResend (i : nat) (frame : FrameData)
(** The last sender of a channel the pipeline let go is gone. *)
| EvLastSender (i : nat)
| EvRecv (i : nat)
| EvFinish (i : nat) (now : Z) (sink_open : bool).

(** What is seen from outside; the worker is told apart by its number. *)
Inductive output : Type :=
| OutPlaced (i : nat) (frame : FrameData)
| OutRefused (i : nat) (frame : FrameData)
| OutAcknowledged (report : FrameReport)
| OutReport (i : nat) (report : FrameReport)
| OutDeliver (i : nat) (frame : FrameData).

Definition set_thread (p : DecodePipeline) (i : nat) (w : Worker) : DecodePipeline :=
  mkPipeline (workers p) (<[i := w]> (threads p)).

Definition sys_step (p : DecodePipeline) (e : event) : option (DecodePipeline * list output) :=
  match e with
  | EvSubmit frame started now =>
    x ← submit p frame started now;
    let '(p', i, r) := x in
    Some (p', match r with
              | Placed => [OutPlaced i frame]
              | Backpressure f q => [OutRefused q f]
              | Acknowledged report => [OutAcknowledged report]
              end)
  | EvForget window_id => Some (forget p window_id, [])
  | EvResend i frame =>
    w ← threads p !! i;
    if v_tx (view (w_chan w)) && (fd_window_id frame =? w_window w) then
      match try_send (w_chan w) frame with
      | (c, Sent) => Some (set_thread p i (with_chan c w), [OutPlaced i frame])
      | _ => None
      end
    else None
  | EvLastSender i =>
    w ← threads p !! i;
    if bool_decide (workers p !! w_window w = Some i) then None
    else Some (set_thread p i (with_chan (drop_tx (w_chan w)) w), [])
  | EvRecv i =>
    w ← threads p !! i;
    w' ← worker_recv w;
    Some (set_thread p i w', [])
  | EvFinish i now sink_open =>
    w ← threads p !! i;
    x ← worker_finish w now sink_open;
    let '(w', reports, delivered) := x in
    Some (set_thread p i w', map (OutReport i) reports ++ map (OutDeliver i) delivered)
  end.

Fixpoint sys_run (p : DecodePipeline) (es : list event) : option (DecodePipeline * list output) :=
  match es with
  | [] => Some (p, [])
  | e :: es =>
    x ← sys_step p e;
    let '(p1, o1) := x in
    y ← sys_run p1 es;
    let '(p2, o2) := y in
    Some (p2, o1 ++ o2)
  end.
End Workers.

(** ** Every frame is accounted for *)

Section Accounts.
Context `{ChannelLaws FrameData} {D : Type} `{Decoder D}.
Variable factory : Z → Z → outcome DecodeError D.

Definition queued (w : Worker) : list FrameData := v_queued (view (w_chan (D:=D) w)).

(** The frames placed with a worker, and what it reported, in order. *)
Definition placed (i : nat) (outs : list output) : list FrameData :=
  omap (λ o, match o with OutPlaced j f => if (j =? i)%nat then Some f else None | _ => None end) outs.
Definition reported (i : nat) (outs : list output) : list FrameReport :=
  omap (λ o, match o with OutReport j r => if (j =? i)%nat then Some r else None | _ => None end) outs.

Lemma placed_app i o1 o2 : placed i (o1 ++ o2) = placed i o1 ++ placed i o2.
Proof. apply omap_app. Qed.
Lemma reported_app i o1 o2 : reported i (o1 ++ o2) = reported i o1 ++ reported i o2.
Proof. apply omap_app. Qed.

(** Nothing went wrong but decoding: the sink took every picture. *)
Definition quiet (e : event) : Prop := match e with EvFinish _ _ false => False | _ => True end.
Definition no_factory_panic : Prop := ∀ w c, factory w c ≠ Panic.

Definition ids (fs : list FrameData) : list Z := map fd_frame_id fs.
Definition report_ids (rs : list FrameReport) : list Z := map report_frame_id rs.

(** One worker against what was seen of it. *)
Record worker_inv (calm : Prop) (i : nat) (w : Worker) (outs : list output) : Prop := {
  inv_window : Forall (λ f, fd_window_id f = w_window w) (placed i outs) ∧
               Forall (λ r, report_window_id r = w_window w) (reported i outs);
  inv_chan : v_capacity (view (w_chan w)) = QUEUE_DEPTH ∧ len (queued w) ≤ QUEUE_DEPTH;
  inv_alive : w_alive w = true →
    v_rx (view (w_chan w)) = true ∧
    ids (placed i outs) = report_ids (reported i outs) ++ ids (opt_list (w_hand w) ++ queued w);
  inv_dead : w_alive w = false →
    v_rx (view (w_chan w)) = false ∧ w_hand w = None ∧
    ∃ lost, ids (placed i outs) = report_ids (reported i outs) ++ lost ∧ (calm → lost = [])
}.

Record sys_inv (calm : Prop) (p : DecodePipeline (D:=D)) (outs : list output) : Prop := {
  inv_threads i w : threads p !! i = Some w → worker_inv calm i w outs;
  inv_fresh i : (length (threads p) <= i)%nat → placed i outs = [] ∧ reported i outs = [];
  inv_workers x i : workers p !! x = Some i → ∃ w, threads p !! i = Some w ∧ w_window w = x
}.

(** Nothing seen of a worker: its invariant stays. *)
Lemma worker_inv_other calm i w outs o :
  placed i o = [] → reported i o = [] → worker_inv calm i w outs → worker_inv calm i w (outs ++ o).
Proof.
  intros Hp Hr [Hw Hc Ha Hd]. split; rewrite ?placed_app, ?reported_app, ?Hp, ?Hr, ?app_nil_r; done.
Qed.

(** A step that changes one worker, and is seen of it alone. *)
Lemma sys_inv_set calm p outs i w w' o :
  sys_inv calm p outs → threads p !! i = Some w → w_window w' = w_window w →
  (∀ j, j ≠ i → placed j o = [] ∧ reported j o = []) → worker_inv calm i w' (outs ++ o) →
  sys_inv calm (set_thread p i w') (outs ++ o).
Proof.
  intros [Ht Hf Hm] Hi Hw Ho Hinv. assert (i < length (threads p))%nat as Hlt by (by eapply lookup_lt_Some).
  split; cbn.
  - intros j x Hx. destruct (decide (j = i)) as [->|Hne].
    + rewrite list_lookup_insert_eq in Hx by done. by injection Hx as <-.
    + rewrite list_lookup_insert_ne in Hx by done. destruct (Ho j Hne). apply worker_inv_other; [done..|by apply Ht].
  - intros j Hj. rewrite length_insert in Hj. destruct (Hf j Hj) as [E1 E2]. destruct (Ho j) as [E3 E4]; [lia|].
    by rewrite placed_app, reported_app, E1, E2, E3, E4.
  - intros x j Hx. destruct (Hm x j Hx) as (y & Hy & Ey). destruct (decide (j = i)) as [->|Hne].
    + exists w'. rewrite list_lookup_insert_eq by done. split; [done|]. congruence.
    + exists y. by rewrite list_lookup_insert_ne.
Qed.

(** *** Placing a frame *)

Lemma worker_inv_view calm i w c outs :
  view c = view (w_chan w) → worker_inv calm i w outs → worker_inv calm i (with_chan c w) outs.
Proof. intros Hv [Hw Hc Ha Hd]. unfold queued in *. split; unfold queued; cbn; rewrite ?Hv; done. Qed.

Lemma worker_inv_send calm i w c f outs :
  worker_inv calm i w outs → fd_window_id f = w_window w → try_send (w_chan w) f = (c, Sent) →
  worker_inv calm i (with_chan c w) (outs ++ [OutPlaced i f]).
Proof.
  intros [[Hw1 Hw2] [Hcap Hlen] Ha Hd] Hf E. apply try_send_cases in E as (Hrx & Hroom & Hv). unfold queued in *.
  assert (placed i [OutPlaced i f] = [f]) as Hp by (cbn; by rewrite Nat.eqb_refl).
  assert (w_alive w = true) as Hal.
  { destruct (w_alive w); [done|]. destruct (Hd eq_refl). congruence. }
  destruct (Ha Hal) as [_ Hids]. split; unfold queued; cbn [with_chan w_chan w_alive w_hand w_window];
    rewrite ?placed_app, ?reported_app, ?Hp, ?Hv; cbn [reported omap list_omap]; rewrite ?app_nil_r; cbn [v_capacity v_queued v_rx].
  - split; [apply Forall_app; split; [done|by apply Forall_singleton]|done].
  - split; [done|]. rewrite len_app. change (len [f]) with 1. rewrite <- Hcap in *. lia.
  - intros _. split; [done|]. unfold ids in *. rewrite !map_app, Hids, !map_app. by rewrite <- !app_assoc.
  - congruence.
Qed.

Lemma spawn_inv calm i x started outs :
  placed i outs = [] → reported i outs = [] → worker_inv calm i (spawn_worker x started) outs.
Proof.
  intros Hp Hr. unfold spawn_worker. destruct started; split; unfold queued; cbn;
    rewrite ?drop_rx_view, ?channel_view, ?Hp, ?Hr; cbn; try done.
  intros _. split_and!; [done|done|by exists []].
Qed.

Lemma entry_inv calm p outs x started p' i :
  sys_inv calm p outs → entry p x started = (p', i) →
  sys_inv calm p' outs ∧ ∃ w, threads p' !! i = Some w ∧ w_window w = x.
Proof.
  intros Hinv. unfold entry. destruct (workers p !! x) as [j|] eqn:E; intros [= <- <-].
  - split; [done|]. by eapply inv_workers.
  - destruct Hinv as [Ht Hf Hm]. split.
    + split; cbn.
      * intros j w Hj. apply lookup_app_Some in Hj as [Hj|[Hge Hj]]; [by apply Ht|].
        apply list_lookup_singleton_Some in Hj as [Hz <-]. assert (j = length (threads p)) as -> by lia.
        by apply spawn_inv; apply Hf.
      * intros j Hj. rewrite length_app in Hj. cbn in Hj. apply Hf. lia.
      * intros y j Hy. apply lookup_insert_Some in Hy as [[<- <-]|[_ Hy]].
        -- eexists. split; [by apply list_lookup_middle|]. by destruct started.
        -- destruct (Hm y j Hy) as (w & Hw & ?). exists w. split; [|done]. by apply lookup_app_l_Some.
    + eexists. split; [by apply list_lookup_middle|]. by destruct started.
Qed.

(** Letting go of a sender changes no worker. *)
Lemma pipeline_forget_inv calm p outs x : sys_inv calm p outs → sys_inv calm (mkPipeline (delete x (workers p)) (threads p)) outs.
Proof. intros [Ht Hf Hm]. split; cbn; [done|done|]. intros y j [_ Hy]%lookup_delete_Some. by apply Hm. Qed.

Lemma others_unseen i f j : j ≠ i → placed j [OutPlaced i f] = [] ∧ reported j [OutPlaced i f] = [].
Proof. intros Hne. cbn. by rewrite (proj2 (Nat.eqb_neq i j)) by congruence. Qed.

Lemma submit_inv calm p outs f started now p' o :
  sys_inv calm p outs → sys_step factory p (EvSubmit f started now) = Some (p', o) → sys_inv calm p' (outs ++ o).
Proof.
  intros Hinv. cbn [sys_step]. unfold submit.
  destruct (entry p (fd_window_id f) started) as [p1 i] eqn:Ee.
  destruct (entry_inv _ _ _ _ _ _ _ Hinv Ee) as [Hinv1 (w & Hw & Hx)]. clear Hinv Ee.
  rewrite Hw. cbn [mbind option_bind]. destruct (try_send (w_chan w) f) as [c r] eqn:Es.
  pose proof (inv_threads _ _ _ Hinv1 i w Hw) as Hwi.
  assert (∀ o, (∀ j, placed j o = [] ∧ reported j o = []) → view c = view (w_chan w) →
            sys_inv calm (set_thread p1 i (with_chan c w)) (outs ++ o)) as Hsame.
  { intros o' Ho Hv. eapply sys_inv_set; [done|done|done|by intros j _; apply Ho|].
    destruct (Ho i). apply worker_inv_other; [done..|]. by apply worker_inv_view. }
  pose proof (try_send_cases _ _ _ _ Es) as Hc. destruct r; cbn [mbind option_bind]; intros [= <- <-].
  - eapply sys_inv_set; [done|done|done|by apply others_unseen|]. by apply worker_inv_send.
  - by apply Hsame.
  - apply (pipeline_forget_inv _ (set_thread p1 i (with_chan c w))). by apply Hsame.
Qed.

Lemma last_sender_inv calm p outs i p' o :
  sys_inv calm p outs → sys_step factory p (EvLastSender i) = Some (p', o) → sys_inv calm p' (outs ++ o).
Proof.
  intros Hinv. cbn [sys_step]. destruct (threads p !! i) as [w|] eqn:Hw; [|done]. cbn [mbind option_bind].
  case_if; [done|]. intros [= <- <-]. eapply sys_inv_set; [done|done|done|done|]. rewrite app_nil_r.
  destruct (inv_threads _ _ _ Hinv i w Hw) as [Hwin Hc Ha Hd]. unfold queued in *.
  by split; unfold queued; cbn; rewrite ?drop_tx_view.
Qed.

Lemma resend_inv calm p outs i f p' o :
  sys_inv calm p outs → sys_step factory p (EvResend i f) = Some (p', o) → sys_inv calm p' (outs ++ o).
Proof.
  intros Hinv. cbn [sys_step]. destruct (threads p !! i) as [w|] eqn:Hw; [|done]. cbn [mbind option_bind].
  destruct (v_tx (view (w_chan w)) && (fd_window_id f =? w_window w)) eqn:Eg; [|done].
  apply andb_true_iff in Eg as [_ Hf%Z.eqb_eq].
  destruct (try_send (w_chan w) f) as [c [| |]] eqn:Es; [|done..]. intros [= <- <-].
  eapply sys_inv_set; [done|done|done|by apply others_unseen|]. apply worker_inv_send; [|done|done].
  by eapply inv_threads.
Qed.

(** *** The worker's own steps *)

Lemma recv_inv calm p outs i p' o :
  sys_inv calm p outs → sys_step factory p (EvRecv i) = Some (p', o) → sys_inv calm p' (outs ++ o).
Proof.
  intros Hinv. cbn [sys_step]. destruct (threads p !! i) as [w|] eqn:Hw; [|done]. cbn [mbind option_bind].
  pose proof (inv_threads _ _ _ Hinv i w Hw) as [Hwin [Hcap Hlen] Ha Hd]. unfold worker_recv.
  destruct (w_alive w) eqn:Hal; cbn [andb]; [|done]. case_bool_decide as Hh; [|done].
  destruct (blocking_recv (w_chan w)) as [[c [f|]]|] eqn:Er; cbn [mbind option_bind]; [|..|done]; intros [= <- <-];
    (eapply sys_inv_set; [done|done|done|done|]); rewrite app_nil_r; apply recv_cases in Er;
    destruct (Ha eq_refl) as [Hrx Hids]; unfold queued in *.
  - rewrite Er in *. cbn in *. split; unfold queued; cbn; [done| |intros _; split; [done|]|done].
    + split; [done|]. rewrite len_cons in Hlen. lia.
    + by rewrite Hids, Hh.
  - destruct Er as [Ec Eq]. rewrite Hh, Eq in Hids. cbn in Hids.
    split; unfold queued; cbn; rewrite ?drop_rx_view, ?Ec; cbn; [done|split; [done|unfold len; cbn; done]|done|].
    intros _. split_and!; [done|done|]. by exists [].
Qed.

Lemma factory_panics_false w f : no_factory_panic → factory_panics factory w f = false.
Proof.
  intros Hn. unfold factory_panics. specialize (Hn (w_window w) (fd_codec f)).
  destruct (factory (w_window w) (fd_codec f)); [by rewrite andb_false_r..|done].
Qed.

(** A round reports the frame in hand, once; it ends the thread only when the
    sink is gone or no decoder could be built for a panic. *)
Lemma finish_cases w now sink w' rs ds :
  worker_finish factory w now sink = Some (w', rs, ds) →
  ∃ f, w_hand w = Some f ∧ w_window w' = w_window w ∧ w_hand w' = None ∧
    ((w_alive w' = true ∧ w_chan w' = w_chan w ∧
      ∃ r, rs = [r] ∧ report_frame_id r = fd_frame_id f ∧ report_window_id r = w_window w) ∨
     (w_alive w' = false ∧ w_chan w' = drop_rx (w_chan w) ∧ (sink = true → ¬ no_factory_panic) ∧
      (rs = [] ∨ ∃ r, rs = [r] ∧ report_frame_id r = fd_frame_id f ∧ report_window_id r = w_window w))).
Proof.
  unfold worker_finish. destruct (w_hand w) as [f|]; [|done]. destruct (factory_panics factory w f) eqn:Ef.
  - intros [= <- <- <-]. exists f. split_and!; [done..|]. right. split_and!; [done|done| |by left].
    intros _ Hn. by rewrite factory_panics_false in Ef.
  - destruct (decode_in_hand factory w f) as [d [g|]]; [destruct sink|]; intros [= <- <- <-]; exists f; (split_and!; [done..|]).
    + left. split_and!; [done|done|]. by eexists.
    + right. split_and!; [done|done|done|]. right. by eexists.
    + left. split_and!; [done|done|]. by eexists.
Qed.

Lemma finish_outputs i j rs ds :
  placed j (map (OutReport i) rs ++ map (OutDeliver i) ds) = [] ∧
  reported j (map (OutReport i) rs ++ map (OutDeliver i) ds) = if (i =? j)%nat then rs else [].
Proof.
  rewrite placed_app, reported_app.
  assert (∀ ds, placed j (map (OutDeliver i) ds) = [] ∧ reported j (map (OutDeliver i) ds) = []) as Hd
    by (induction ds0; done).
  destruct (Hd ds) as [-> ->]. rewrite !app_nil_r. split; [induction rs; done|].
  destruct (i =? j)%nat eqn:E; (induction rs as [|r rs IH]; [done|]); cbn; rewrite E; [f_equal|]; exact IH.
Qed.

Lemma finish_inv (calm : Prop) p outs i now sink p' o :
  (calm → sink = true ∧ no_factory_panic) → sys_inv calm p outs →
  sys_step factory p (EvFinish i now sink) = Some (p', o) → sys_inv calm p' (outs ++ o).
Proof.
  intros Hcalm Hinv. cbn [sys_step]. destruct (threads p !! i) as [w|] eqn:Hw; [|done]. cbn [mbind option_bind].
  destruct (worker_finish factory w now sink) as [[[w' rs] ds]|] eqn:Ef; [|done]. cbn [mbind option_bind].
  intros [= <- <-]. destruct (finish_cases _ _ _ _ _ _ Ef) as (f & Hh & Hwin & Hh' & Hcase). clear Ef.
  eapply sys_inv_set; [done|done|done| |].
  { intros j Hne. destruct (finish_outputs i j rs ds) as [-> ->]. by rewrite (proj2 (Nat.eqb_neq i j)) by congruence. }
  destruct (inv_threads _ _ _ Hinv i w Hw) as [[Hw1 Hw2] [Hcap Hlen] Ha Hd].
  assert (w_alive w = true) as Hal by (destruct (w_alive w); [done|]; destruct (Hd eq_refl) as (_ & ? & _); congruence).
  destruct (Ha Hal) as [Hrx Hids]. rewrite Hh in Hids. cbn [opt_list from_option app ids map] in Hids.
  destruct (finish_outputs i i rs ds) as [Hp Hr]. rewrite Nat.eqb_refl in Hr. revert Hp Hr.
  generalize (map (OutReport i) rs ++ map (OutDeliver i) ds) as o. intros o Hp Hr.
  destruct Hcase as [(Hal' & Hc & r & -> & Er & Ew)|(Hal' & Hc & Hbad & Hrs)];
    split; unfold queued; rewrite ?placed_app, ?reported_app, ?Hp, ?Hr, ?Hwin, ?Hc, ?app_nil_r, ?drop_rx_view; try congruence.
  - split; [done|]. apply Forall_app. split; [done|by apply Forall_singleton].
  - done.
  - intros _. split; [done|]. rewrite Hids, Hh'. unfold report_ids. rewrite map_app. cbn [map]. rewrite Er, <- app_assoc. done.
  - split; [done|]. apply Forall_app. split; [done|]. destruct Hrs as [->|(r & -> & _ & Ew)]; [constructor|by apply Forall_singleton].
  - split; [done|]. unfold len. cbn. done.
  - intros _. split_and!; [done|done|].
    assert (calm → False) as Hnc by (intros [Hs Hn]%Hcalm; by apply Hbad).
    rewrite Hids. unfold report_ids. rewrite map_app. destruct Hrs as [->|(r & -> & Er & _)]; cbn [map].
    + exists (fd_frame_id f :: ids (queued w)). rewrite app_nil_r. split; [done|by intros ?%Hnc].
    + exists (ids (queued w)). rewrite Er, <- app_assoc. split; [done|by intros ?%Hnc].
Qed.

Lemma step_inv (calm : Prop) p outs e p' o :
  (calm → quiet e ∧ no_factory_panic) → sys_inv calm p outs → sys_step factory p e = Some (p', o) →
  sys_inv calm p' (outs ++ o).
Proof.
  intros Hcalm Hinv. destruct e as [f st now|x|i f|i|i|i now sink].
  - by apply submit_inv.
  - intros [= <- <-]. rewrite app_nil_r. by apply pipeline_forget_inv.
  - by apply resend_inv.
  - by apply last_sender_inv.
  - by apply recv_inv.
  - apply finish_inv; [|done]. intros [Hq ?]%Hcalm. by destruct sink.
Qed.

Lemma run_inv (calm : Prop) es : ∀ p outs p' o,
  (calm → Forall quiet es ∧ no_factory_panic) → sys_inv calm p outs → sys_run factory p es = Some (p', o) →
  sys_inv calm p' (outs ++ o).
Proof.
  induction es as [|e es IH]; intros p outs p' o Hcalm Hinv; cbn [sys_run].
  - intros [= <- <-]. by rewrite app_nil_r.
  - destruct (sys_step factory p e) as [[p1 o1]|] eqn:Es; [|done]. cbn [mbind option_bind].
    destruct (sys_run factory p1 es) as [[p2 o2]|] eqn:Er; [|done]. cbn [mbind option_bind]. intros [= <- <-].
    rewrite app_assoc. eapply IH; [|eapply step_inv; [|done|done]|done].
    + intros [Hq ?]%Hcalm. inversion Hq; subst. done.
    + intros [Hq ?]%Hcalm. inversion Hq; subst. done.
Qed.

Lemma new_inv calm : sys_inv calm (DecodePipeline_new (D:=D)) [].
Proof. by split. Qed.

(** *** A worker left to itself *)

Definition own_event (i : nat) (e : event) : Prop :=
  match e with EvRecv j => j = i | EvFinish j _ sink => j = i ∧ sink = true | _ => False end.

Lemma sys_run_app p es1 es2 p1 o1 p2 o2 :
  sys_run factory p es1 = Some (p1, o1) → sys_run factory p1 es2 = Some (p2, o2) →
  sys_run factory p (es1 ++ es2) = Some (p2, o1 ++ o2).
Proof.
  revert p o1. induction es1 as [|e es1 IH]; intros p o1; cbn [sys_run app].
  - by intros [= <- <-] ->.
  - destruct (sys_step factory p e) as [[q a]|]; [|done]. cbn [mbind option_bind].
    destruct (sys_run factory q es1) as [[q' b]|] eqn:E; [|done]. cbn [mbind option_bind]. intros [= <- <-] E2.
    rewrite (IH _ _ E E2). cbn [mbind option_bind]. by rewrite app_assoc.
Qed.

Lemma finish_once p i w f :
  no_factory_panic → threads p !! i = Some w → w_hand w = Some f →
  ∃ w' o, sys_run factory p [EvFinish i 0 true] = Some (set_thread p i w', o) ∧
          w_alive w' = true ∧ w_chan w' = w_chan w ∧ w_hand w' = None.
Proof.
  intros Hn Hw Hh. cbn [sys_run sys_step]. rewrite Hw. cbn [mbind option_bind].
  destruct (worker_finish factory w 0 true) as [[[w' rs] ds]|] eqn:Ef.
  - cbn [mbind option_bind]. destruct (finish_cases _ _ _ _ _ _ Ef) as (g & _ & _ & Hh' & [(Ha & Hc & _)|(_ & _ & Hb & _)]).
    + by exists w'; eexists.
    + by destruct (Hb eq_refl Hn).
  - unfold worker_finish in Ef. rewrite Hh, factory_panics_false in Ef by done.
    destruct (decode_in_hand factory w f) as [d [g|]]; done.
Qed.

Lemma recv_once p i w f r :
  threads p !! i = Some w → w_alive w = true → w_hand w = None → queued w = f :: r →
  ∃ w' o, sys_run factory p [EvRecv i] = Some (set_thread p i w', o) ∧ w_hand w' = Some f ∧ queued w' = r.
Proof.
  intros Hw Ha Hh Hq. cbn [sys_run sys_step]. rewrite Hw. cbn [mbind option_bind]. unfold worker_recv.
  rewrite Ha, bool_decide_true by done. cbn [andb]. pose proof (recv_view (w_chan w)) as Hv. unfold v_recv in Hv.
  unfold queued in Hq. rewrite Hq in Hv. destruct (blocking_recv (w_chan w)) as [[c [g|]]|]; cbn in Hv; [|done..].
  injection Hv as Hc ->. cbn. eexists _, _. split_and!; [done|done|]. unfold queued. cbn. by rewrite Hc.
Qed.

Lemma set_thread_lookup p i w : (i < length (threads p))%nat → threads (set_thread (D:=D) p i w) !! i = Some w.
Proof. intros Hi. cbn. by apply list_lookup_insert_eq. Qed.

(** With the sink open, a worker alone empties its queue. *)
Lemma drain n : ∀ p i w,
  no_factory_panic → threads p !! i = Some w → w_alive w = true → w_hand w = None → length (queued w) = n →
  ∃ es p' o w', Forall (own_event i) es ∧ length es = (2 * n)%nat ∧ sys_run factory p es = Some (p', o) ∧
    threads p' !! i = Some w' ∧ w_alive w' = true ∧ w_hand w' = None ∧ queued w' = [].
Proof.
  induction n as [|n IH]; intros p i w Hn Hw Ha Hh Hq.
  { exists [], p, [], w. destruct (queued w) eqn:E; [|done]. by split_and!. }
  destruct (queued w) as [|f r] eqn:E; [done|]. assert (i < length (threads p))%nat by (by eapply lookup_lt_Some).
  destruct (recv_once p i w f r Hw Ha Hh E) as (w1 & o1 & R1 & Hh1 & Hq1).
  destruct (finish_once (set_thread p i w1) i w1 f Hn) as (w2 & o2 & R2 & Ha2 & Hc2 & Hh2); [by apply set_thread_lookup|done|].
  assert (length (threads (set_thread p i w1)) = length (threads p)) as Hlen by apply length_insert.
  destruct (IH (set_thread (set_thread p i w1) i w2) i w2 Hn) as (es & p' & o & w' & He & Hl & R & Hrest);
    [apply set_thread_lookup; lia|done|done|unfold queued in *; rewrite Hc2, Hq1; cbn in Hq; lia|].
  exists ([EvRecv i] ++ [EvFinish i 0 true] ++ es), p', (o1 ++ o2 ++ o), w'. split_and!.
  - by repeat (apply Forall_cons; split; [cbn; tauto|]).
  - cbn. lia.
  - eapply sys_run_app; [exact R1|]. by eapply sys_run_app.
  - apply Hrest.
  - apply Hrest.
  - apply Hrest.
  - apply Hrest.
Qed.

Lemma settle p i w :
  no_factory_panic → threads p !! i = Some w → w_alive w = true →
  ∃ es p' o w', Forall (own_event i) es ∧ (length es <= 2 * length (queued w) + 1)%nat ∧
    sys_run factory p es = Some (p', o) ∧
    threads p' !! i = Some w' ∧ w_alive w' = true ∧ w_hand w' = None ∧ queued w' = [].
Proof.
  intros Hn Hw Ha. destruct (w_hand w) as [f|] eqn:Hh.
  - destruct (finish_once p i w f Hn Hw Hh) as (w1 & o1 & R1 & Ha1 & Hc1 & Hh1).
    assert (i < length (threads p))%nat as Hi by (by eapply lookup_lt_Some).
    destruct (drain (length (queued w1)) (set_thread p i w1) i w1 Hn) as (es & p' & o & w' & He & Hl & R & Hrest);
      [by apply set_thread_lookup|done..|].
    exists ([EvFinish i 0 true] ++ es), p', (o1 ++ o), w'. split_and!; try apply Hrest.
    + by apply Forall_cons.
    + cbn. unfold queued in *. rewrite Hc1 in Hl. lia.
    + by eapply sys_run_app.
  - destruct (drain (length (queued w)) p i w Hn Hw Ha Hh eq_refl) as (es & p' & o & w' & He & Hl & R & Hrest).
    exists es, p', o, w'. split_and!; try apply Hrest; [done|lia|done].
Qed.
End Accounts.

(** C29: under any interleaving of submissions, resubmissions, forgotten windows and worker rounds, whatever the decoders answer (errors and panics included), each worker has reported exactly the frames placed with it, once and in order, up to the one in its hand and at most four in its queue, and always under its own window; a worker that has ended reported every one of them, unless the display stopped taking frames or building a decoder panicked. *)
Theorem pipeline_accounts `{ChannelLaws FrameData} {D : Type} `{Decoder D} (factory : Z → Z → outcome DecodeError D) es p outs i w :
  sys_run factory DecodePipeline_new es = Some (p, outs) → threads p !! i = Some w →
  len (queued w) ≤ QUEUE_DEPTH ∧
  Forall (λ r, report_window_id r = w_window w) (reported i outs) ∧
  (w_alive w = true → ids (placed i outs) = report_ids (reported i outs) ++ ids (opt_list (w_hand w) ++ queued w)) ∧
  (w_alive w = false → Forall quiet es → no_factory_panic factory → ids (placed i outs) = report_ids (reported i outs)).
Proof.
  intros Hrun Hw.
  pose proof (run_inv factory (Forall quiet es ∧ no_factory_panic factory) es _ [] _ _ (λ x, x) (new_inv _) Hrun) as Hinv.
  cbn [app] in Hinv.
  destruct (inv_threads _ _ _ Hinv i w Hw) as [[_ Hwin] [_ Hlen] Ha Hd]. split_and!; [done|done| |].
  - intros Hal. by apply Ha.
  - intros Hdead Hq Hn. destruct (Hd Hdead) as (_ & _ & lost & E & Hlost). rewrite E, Hlost by done. by rewrite app_nil_r.
Qed.


(** ** A run *)

Definition pixel_frame (id : Z) : FrameData := mkFrameData 7 id codec.RAW_BGRA 1 1 1 10 20 [1; 2; 3; 255].
Definition raw_factory (_ _ : Z) : outcome DecodeError PassthroughDecoder := Ok Passthrough.

(** Two frames, the window forgotten, the first taken in hand. *)
Definition forgotten_midway : list event :=
  [EvSubmit (pixel_frame 1) true 0; EvSubmit (pixel_frame 2) true 0; EvForget 7; EvLastSender 0; EvRecv 0].

Lemma pipeline_accounts_witness :
  ∃ p outs w, sys_run raw_factory DecodePipeline_new forgotten_midway = Some (p, outs) ∧ threads p !! 0%nat = Some w ∧
    ids (placed 0 outs) = report_ids (reported 0 outs) ++ ids (opt_list (w_hand w) ++ queued w) ∧
    ids (placed 0 outs) = [1; 2].
Proof.
  destruct (sys_run raw_factory DecodePipeline_new forgotten_midway) as [[p outs]|] eqn:E; [|vm_compute in E; discriminate].
  destruct (threads p !! 0%nat) as [w|] eqn:Ew; [|vm_compute in E; injection E as <- <-; discriminate].
  destruct (pipeline_accounts raw_factory forgotten_midway p outs 0 w E Ew) as (_ & _ & H1 & _).
  exists p, outs, w. split; [reflexivity|]. split; [exact Ew|].
  vm_compute in E. injection E as <- <-. injection Ew as <-. split; [apply H1; reflexivity|reflexivity].
Defined.

