(* ===== verification/Serve.v ===== *)
(** * The agent's session driver

    [crates/oxagent/src/serve.rs] after the handshake: the tick that diffs the
    platform's windows against what the client was told and pumps one frame a
    window, and the dispatch of what the client sends. The platform is behind
    the traits of the code ([WindowSource], [FrameEncoder] of [encode.rs],
    [InputSink] of [input.rs]), which are classes here; the outbound queue is a
    [Channel]. The clock comes with an event, and so does the order in which a
    hash map yields its keys. Log lines are left out; the counters that bound
    them are kept. *)

From stdpp Require Import sorting.
From S2P Require Import Prelude Cursor Wire MsgType MsgControl MsgInput MsgWindow.
From S2P Require Import Envelope Reassembly ProtoMessage Transport Model Registry Pacing Session Channel.

(** ** The platform's side *)

Record SourceWindow : Type := mkSourceWindow {
  sw_handle : Z; sw_pid : Z; sw_app_id : list Z; sw_title : list Z;
  sw_x : Z; sw_y : Z; sw_width : Z; sw_height : Z; sw_dpi : Z;
  sw_minimized : bool; sw_maximized : bool; sw_resizable : bool; sw_has_frame : bool; sw_topmost : bool
}.

(** [GpuFrame] of [win/capture.rs]: a COM object is its identity. *)
Record GpuFrame : Type := mkGpuFrame { gf_width : Z; gf_height : Z; gf_device : Z; gf_context : Z; gf_texture : Z }.

Record SourceFrame : Type := mkSourceFrame {
  sf_width : Z; sf_height : Z; sf_data : list Z; gpu_frame : option GpuFrame
}.

(** [SourceFrame::bgra] *)
Definition bgra (width height : Z) (data : list Z) : SourceFrame := mkSourceFrame width height data None.

Inductive CaptureIntent : Type := CpuBgra | GpuNv12Preferred.

Class WindowSource (W : Type) : Type := {
  live_windows : W → W * list SourceWindow;
  next_frame : W → Z → CaptureIntent → W * option SourceFrame
}.

Record EncodedFrame : Type := mkEncodedFrame { ef_data : list Z; ef_keyframe : bool; ef_width : Z; ef_height : Z }.

Class FrameEncoder (E : Type) : Type := {
  enc_submit : E → Z → SourceFrame → bool → E;
  enc_poll : E → Z → E * option EncodedFrame;
  enc_forget : E → Z → E;
  wants_cpu_frame : E → Z → Z → Z → bool;
  enc_failed : E → Z → bool
}.

Class InputSink (I : Type) : Type := {
  pointer_event : I → Z → Z → Z → Z → Z → Z → I;
  key_event : I → Z → bool → bool → I;
  text_input : I → list Z → I;
  modifier_sync : I → Z → Z → I;
  window_control : I → Z → Z → Z → Z → Z → Z → I
}.

(** [gate_unconfirmed_press] of [input.rs], on [u8] masks. *)
Definition gate_unconfirmed_press (buttons last_buttons : Z) (focus_confirmed : bool) : Z :=
  let newly_pressed := Z.land buttons (Z.lxor last_buttons 0xFF) in
  if negb (newly_pressed =? 0) && negb focus_confirmed
  then Z.land buttons (Z.lxor newly_pressed 0xFF)
  else buttons.

(** ** The driver's state *)

(** An error of the stream below is told by its kind. *)
Inductive IoError : Type := InvalidData | WouldBlock | BrokenPipe | StreamError (kind : io_kind).

Record WindowStream : Type := mkStream {
  st_handle : Z;
  st_video_channel : Z;
  st_budget : FrameBudget;
  st_geometry : Z * Z * Z * Z;
  st_title : list Z;
  st_show_state : Z;
  st_flags : Z;
  st_needs_keyframe : bool;
  st_capture_diag_logged : Z;
  st_transport_diag_logged : Z
}.

Definition CAPTURE_DIAGNOSTIC_FRAME_LIMIT : Z := 100.
Definition TRANSPORT_DIAGNOSTIC_FRAME_LIMIT : Z := 100.
Definition OUTBOUND_QUEUE_CAPACITY : Z := 64.

(** The diagnostic carries the frame's ids; its instant is only logged. *)
Record OutboundChunk : Type := mkChunk {
  oc_msg_type : Z; oc_channel : Z; oc_body : list Z; oc_diag : option (Z * Z)
}.

Record SessionParams : Type := mkParams { target_fps : Z; max_frames_in_flight : Z }.

Definition SessionParams_default : SessionParams := mkParams 30 2.

(** [Duration::from_micros(1_000_000 / u64::from(params.target_fps.max(1)))] *)
Definition frame_interval (p : SessionParams) : Z := 1000000 / Z.max (target_fps p) 1.

(** [window_flags] *)
Definition window_flags (w : SourceWindow) : Z :=
  let flags := 0 in
  let flags := if sw_resizable w then Z.lor flags window_flag.RESIZABLE else flags in
  let flags := if sw_has_frame w then Z.lor flags window_flag.HAS_FRAME else flags in
  let flags := if sw_topmost w then Z.lor flags window_flag.TOPMOST else flags in
  let flags := if sw_minimized w then Z.lor flags window_flag.MINIMIZED else flags in
  if sw_maximized w then Z.lor flags window_flag.MAXIMIZED else flags.

Definition show_state (w : SourceWindow) : Z :=
  if sw_minimized w then window_show.MINIMIZED
  else if sw_maximized w then window_show.MAXIMIZED
  else window_show.NORMAL.

Section Driver.
Context `{Channel OutboundChunk} {W E I : Type} `{WindowSource W} `{FrameEncoder E} `{InputSink I}.

Record Driver : Type := mkDriver {
  d_outbound : chan;
  d_source : W;
  d_encoder : E;
  d_sink : I;
  d_registry : WindowRegistry;
  d_streams : gmap Z WindowStream
}.

Definition drv := stm Driver IoError.

Definition gets {A} (f : Driver → A) : drv A := λ d, Ok (f d, d).
Definition modify (f : Driver → Driver) : drv unit := λ d, Ok (tt, f d).

Definition set_outbound c d := mkDriver c (d_source d) (d_encoder d) (d_sink d) (d_registry d) (d_streams d).
Definition set_source s d := mkDriver (d_outbound d) s (d_encoder d) (d_sink d) (d_registry d) (d_streams d).
Definition set_encoder e d := mkDriver (d_outbound d) (d_source d) e (d_sink d) (d_registry d) (d_streams d).
Definition set_sink i d := mkDriver (d_outbound d) (d_source d) (d_encoder d) i (d_registry d) (d_streams d).
Definition set_registry r d := mkDriver (d_outbound d) (d_source d) (d_encoder d) (d_sink d) r (d_streams d).
Definition set_streams m d := mkDriver (d_outbound d) (d_source d) (d_encoder d) (d_sink d) (d_registry d) m.
Definition put_stream id st d := set_streams (<[id := st]> (d_streams d)) d.

(** ** Sending *)

Definition queue_chunk (c : OutboundChunk) : drv unit := λ d,
  match try_send (d_outbound d) c with
  | (q, Sent) => Ok (tt, set_outbound q d)
  | (_, Full) => Err WouldBlock
  | (_, Channel.Closed) => Err BrokenPipe
  end.

Definition queue_raw (msg_type channel : Z) (body : list Z) : drv unit :=
  queue_chunk (mkChunk msg_type channel body None).

Definition send (m : Message.t) (ch : Z) : drv unit :=
  body ← lift (map_err (λ _, InvalidData) (Message.encode_body m));
  queue_raw (Message.msg_type m) ch body.

Definition reserve_frame_slot : drv bool := λ d,
  match try_reserve (d_outbound d) with
  | Sent => Ok (true, d)
  | Full => Ok (false, d)
  | Channel.Closed => Err BrokenPipe
  end.

(** A registry or budget call: its only failure is a panic. *)
Definition infallible {A} (m : outcome unit A) : outcome IoError A :=
  match m with Ok a => Ok a | _ => Panic end.

(** ** [sync_windows] *)

Definition opened_message (t : TrackedWindow) (w : SourceWindow) : Message.t :=
  Message.WindowOpened
    (mkWindowOpened (tw_window_id t) (tw_video_channel t) (sw_pid w) (sw_app_id w) (sw_title w)
                    (sw_x w) (sw_y w) (sw_width w) (sw_height w) (sw_dpi w) (window_flags w) 0).

Definition new_stream (params : SessionParams) (t : TrackedWindow) (w : SourceWindow) : WindowStream :=
  mkStream (sw_handle w) (tw_video_channel t) (FrameBudget_new (max_frames_in_flight params))
           (sw_x w, sw_y w, sw_width w, sw_height w) (sw_title w) (show_state w) (window_flags w) true 0 0.

Definition retitle st title :=
  mkStream (st_handle st) (st_video_channel st) (st_budget st) (st_geometry st) title (st_show_state st)
           (st_flags st) (st_needs_keyframe st) (st_capture_diag_logged st) (st_transport_diag_logged st).

Definition restate st show flags :=
  mkStream (st_handle st) (st_video_channel st) (st_budget st) (st_geometry st) (st_title st) show
           flags (st_needs_keyframe st) (st_capture_diag_logged st) (st_transport_diag_logged st).

(** The new geometry, the budget restarted, a keyframe due after a resize. *)
Definition regeometry st geometry (resolution_changed : bool) :=
  mkStream (st_handle st) (st_video_channel st) (restart (st_budget st)) geometry (st_title st) (st_show_state st)
           (st_flags st) (if resolution_changed then true else st_needs_keyframe st)
           (st_capture_diag_logged st) (st_transport_diag_logged st).

Definition geometry_eqb (a b : Z * Z * Z * Z) : bool := bool_decide (a = b).

(** The body of the loop for a window that was announced before. *)
Definition sync_known (t : TrackedWindow) (w : SourceWindow) : drv unit :=
  let id := tw_window_id t in
  found ← gets (λ d, d_streams d !! id);
  match found with
  | None => mret tt
  | Some st =>
    st ← (if bool_decide (st_title st = sw_title w) then mret st
          else
            let st := retitle st (sw_title w) in
            modify (put_stream id st);;
            send (Message.WindowTitle (mkWindowTitle id (sw_title w))) channel.WINDOW;;
            mret st);
    let new_flags := window_flags w in
    let has_frame_changed := negb (Z.land (Z.lxor new_flags (st_flags st)) window_flag.HAS_FRAME =? 0) in
    let new_show_state := show_state w in
    st ← (if (st_show_state st =? new_show_state) && (st_flags st =? new_flags) then mret st
          else
            let st := restate st new_show_state new_flags in
            modify (put_stream id st);;
            send (Message.WindowState (mkWindowState id new_show_state new_flags)) channel.WINDOW;;
            mret st);
    if sw_minimized w then mret tt
    else
      let geometry := (sw_x w, sw_y w, sw_width w, sw_height w) in
      if geometry_eqb (st_geometry st) geometry && negb has_frame_changed then mret tt
      else
        let '(_, _, old_width, old_height) := st_geometry st in
        let resolution_changed := negb ((old_width =? sw_width w) && (old_height =? sw_height w)) in
        modify (put_stream id (regeometry st geometry resolution_changed));;
        send (Message.WindowGeometry (mkWindowGeometry id (sw_x w) (sw_y w) (sw_width w) (sw_height w))) channel.WINDOW
  end.

Definition sync_window (params : SessionParams) (w : SourceWindow) : drv unit :=
  r ← gets d_registry;
  x ← lift (infallible (track r (sw_handle w)));
  let '(tracked, is_new, r) := x in
  modify (set_registry r);;
  if (is_new : bool) then
    send (opened_message tracked w) channel.WINDOW;;
    modify (put_stream (tw_window_id tracked) (new_stream params tracked w))
  else sync_known tracked w.

Fixpoint sync_live (params : SessionParams) (live : list SourceWindow) : drv unit :=
  match live with
  | [] => mret tt
  | w :: live => sync_window params w;; sync_live params live
  end.

Fixpoint close_gone (gone : list TrackedWindow) : drv unit :=
  match gone with
  | [] => mret tt
  | t :: gone =>
    let id := tw_window_id t in
    found ← gets (λ d, d_streams d !! id);
    match found with
    | Some st => modify (λ d, set_encoder (enc_forget (d_encoder d) (st_handle st)) (set_streams (delete id (d_streams d)) d))
    | None => mret tt
    end;;
    send (Message.WindowClosed (mkWindowClosed id)) channel.WINDOW;;
    close_gone gone
  end.

(** [order] is the order in which the registry's hash map yields its keys. *)
Definition sync_windows (params : SessionParams) (order : gmap Z TrackedWindow → list Z) : drv unit :=
  live ← (λ d, let '(s, live) := live_windows (d_source d) in Ok (live, set_source s d));
  sync_live params live;;
  r ← gets d_registry;
  let '(r, gone) := retain_live r (order (handle_to_window r)) (map sw_handle live) in
  modify (set_registry r);;
  close_gone gone.

(** ** [pump_frames] *)

Definition tick_capture_diag st :=
  if st_capture_diag_logged st <? CAPTURE_DIAGNOSTIC_FRAME_LIMIT then
    mkStream (st_handle st) (st_video_channel st) (st_budget st) (st_geometry st) (st_title st) (st_show_state st)
             (st_flags st) (st_needs_keyframe st) (st_capture_diag_logged st + 1) (st_transport_diag_logged st)
  else st.

Definition clear_keyframe st (sent_keyframe : bool) :=
  if sent_keyframe then
    mkStream (st_handle st) (st_video_channel st) (st_budget st) (st_geometry st) (st_title st) (st_show_state st)
             (st_flags st) false (st_capture_diag_logged st) (st_transport_diag_logged st)
  else st.

Definition set_budget st b (diag : bool) :=
  mkStream (st_handle st) (st_video_channel st) b (st_geometry st) (st_title st) (st_show_state st)
           (st_flags st) (st_needs_keyframe st) (st_capture_diag_logged st)
           (if diag then st_transport_diag_logged st + 1 else st_transport_diag_logged st).

Definition frame_intent (codec : Z) (e : E) st : CaptureIntent :=
  let '(_, _, window_width, window_height) := st_geometry st in
  if (codec =? codec.H264) && negb (enc_failed e (st_handle st))
     && negb (wants_cpu_frame e (st_handle st) window_width window_height)
  then GpuNv12Preferred else CpuBgra.

(** What there is to send for a captured frame: codec, flags, size, bytes and
    the time it was ready. *)
Definition frame_payload (codec : Z) (frame : SourceFrame) st (captured_us encoded_us : Z) :
    drv (option (Z * Z * Z * Z * list Z * Z * bool)) :=
  e ← gets d_encoder;
  if (codec =? codec.H264) && negb (enc_failed e (st_handle st)) then
    let '(e, polled) := enc_poll e (st_handle st) in
    modify (set_encoder e);;
    match polled with
    | None => mret None
    | Some x =>
      mret (Some (codec.H264, (if ef_keyframe x then frame_flag.KEYFRAME else 0), ef_width x, ef_height x, ef_data x,
                  encoded_us, ef_keyframe x))
    end
  else if negb (len (sf_data frame) =? 0) then
    mret (Some (codec.RAW_BGRA, frame_flag.KEYFRAME, sf_width frame, sf_height frame, sf_data frame, captured_us, false))
  else mret None.

(** The frame is given its id, encoded and sent through the reserved slot. *)
Definition deliver_frame (times : Z * Z) (id : Z) st (payload : Z * Z * Z * Z * list Z * Z * bool) : drv unit :=
  let '(msg_codec, flags, width, height, data, ready_us, keyframe) := payload in
  let st := clear_keyframe st keyframe in
  x ← lift (infallible (on_captured (st_budget st)));
  let '(frame_id, budget) := x in
  let logged := st_transport_diag_logged st <? TRANSPORT_DIAGNOSTIC_FRAME_LIMIT in
  modify (put_stream id (set_budget st budget false));;
  body ← lift (map_err (λ _, InvalidData) (Message.encode_body (Message.FrameData
           (mkFrameData id frame_id msg_codec flags width height times.1 ready_us data))));
  modify (put_stream id (set_budget st budget logged));;
  queue_chunk (mkChunk msg_type.FRAME_DATA (st_video_channel st) body
                       (if logged then Some (id, frame_id) else None)).

(** One window of the loop. [times] are the two clock readings. *)
Definition pump_frame (codec : Z) (times : Z * Z) (id : Z) : drv unit :=
  found ← gets (λ d, d_streams d !! id);
  match found with
  | None => mret tt
  | Some st =>
    if st_show_state st =? window_show.MINIMIZED then mret tt
    else
      permit ← reserve_frame_slot;
      if negb permit then mret tt
      else
        e ← gets d_encoder;
        frame ← (λ d, let '(s, f) := next_frame (d_source d) (st_handle st) (frame_intent codec e st) in
                      Ok (f, set_source s d));
        match frame with
        | None => mret tt
        | Some frame =>
          let st := tick_capture_diag st in
          modify (put_stream id st);;
          (if codec =? codec.H264
           then modify (λ d, set_encoder (enc_submit (d_encoder d) (st_handle st) frame (st_needs_keyframe st)) d)
           else mret tt);;
          payload ← frame_payload codec frame st times.1 times.2;
          match payload with
          | None => mret tt
          | Some payload => deliver_frame times id st payload
          end
        end
  end.

Fixpoint pump_ids (codec : Z) (readings : Z → Z * Z) (ids : list Z) : drv unit :=
  match ids with
  | [] => mret tt
  | id :: ids => pump_frame codec (readings id) id;; pump_ids codec readings ids
  end.

(** [ids.sort_unstable()] *)
Definition stream_ids (m : gmap Z WindowStream) : list Z := merge_sort Z.le (map_to_list m).*1.

Definition pump_frames (codec : Z) (readings : Z → Z * Z) : drv unit :=
  ids ← gets (λ d, stream_ids (d_streams d));
  pump_ids codec readings ids.

(** ** [drive] *)

Record Features : Type := mkFeatures { text_input_enabled : bool; window_control_enabled : bool }.

Definition session_features (features : Z) : Features :=
  mkFeatures (negb (Z.land features feature.TEXT_INPUT =? 0)) (negb (Z.land features feature.WINDOW_CONTROL =? 0)).

Definition on_sink (f : I → I) : drv unit := modify (λ d, set_sink (f (d_sink d)) d).

(** The arm for an incoming message: [true] ends the session. *)
Definition on_incoming (fs : Features) (now_us : Z) (m : Message.t) : drv bool :=
  match m with
  | Message.FrameAck ack =>
    found ← gets (λ d, d_streams d !! fa_window_id ack);
    match found with
    | Some st =>
      modify (put_stream (fa_window_id ack) (set_budget st (on_ack (st_budget st) (fa_frame_id ack)) false));;
      mret false
    | None => mret false
    end
  | Message.Close _ => mret true
  | Message.Ping p =>
    send (Message.Pong (mkPong (ping_seq p) (ping_sent_us p) now_us)) channel.CONTROL;;
    mret false
  | Message.PointerEvent p =>
    found ← gets (λ d, d_streams d !! pe_window_id p);
    match found with
    | Some st =>
      on_sink (λ i, pointer_event i (st_handle st) (pe_x p) (pe_y p) (pe_buttons p) (pe_wheel_x p) (pe_wheel_y p));;
      mret false
    | None => mret false
    end
  | Message.KeyEvent k =>
    let extended := negb (Z.land (ke_flags k) key_flag.EXTENDED =? 0) in
    on_sink (λ i, key_event i (ke_scancode k) extended (is_pressed k));;
    mret false
  | Message.TextInput t =>
    (if text_input_enabled fs then on_sink (λ i, text_input i (ti_text t)) else mret tt);;
    mret false
  | Message.ModifierSync m =>
    on_sink (λ i, modifier_sync i (ms_modifiers m) (ms_locks m));;
    mret false
  | Message.WindowControl w =>
    if negb (window_control_enabled fs) then mret false
    else
      found ← gets (λ d, d_streams d !! wc_window_id w);
      match found with
      | Some st =>
        on_sink (λ i, window_control i (st_handle st) (wc_action w) (wc_x w) (wc_y w) (wc_width w) (wc_height w));;
        mret false
      | None => mret false
      end
  | _ => mret false
  end.

(** The tick. *)
Definition on_tick (params : SessionParams) (codec : Z) (order : gmap Z TrackedWindow → list Z)
    (readings : Z → Z * Z) : drv unit :=
  sync_windows params order;;
  pump_frames codec readings.

(** What the loop is woken by, and the writer task taking a chunk. *)
Inductive happening : Type :=
| Tick (order : gmap Z TrackedWindow → list Z) (readings : Z → Z * Z)
| Incoming (now_us : Z) (m : Message.t)
| Written
| ReaderStopped
| WriterEnded (r : outcome IoError unit).

Record Setup : Type := mkSetup { su_params : SessionParams; su_codec : Z; su_features : Features }.

(** The driver after it, the chunk the writer took, and whether the loop ends. *)
Definition happen (su : Setup) (d : Driver) (h : happening) : outcome IoError (Driver * list OutboundChunk * bool) :=
  match h with
  | Tick order readings => x ← on_tick (su_params su) (su_codec su) order readings d; Ok (x.2, [], false)
  | Incoming now_us m => x ← on_incoming (su_features su) now_us m d; Ok (x.2, [], x.1)
  | Written =>
    match blocking_recv (d_outbound d) with
    | Some (q, Some c) => Ok (set_outbound q d, [c], false)
    | _ => Ok (d, [], false)
    end
  | ReaderStopped => Ok (d, [], true)
  | WriterEnded r => _ ← r; Ok (d, [], true)
  end.

(** A session: what the writer took, in order. *)
Fixpoint session (su : Setup) (d : Driver) (hs : list happening) : outcome IoError (Driver * list OutboundChunk) :=
  match hs with
  | [] => Ok (d, [])
  | h :: hs =>
    x ← happen su d h;
    let '(d1, out, ends) := x in
    if (ends : bool) then Ok (d1, out)
    else y ← session su d1 hs; let '(d2, out2) := y in Ok (d2, out ++ out2)
  end.

Definition Driver_new (source : W) (encoder : E) (sink : I) : Driver :=
  mkDriver (channel OUTBOUND_QUEUE_CAPACITY) source encoder sink WindowRegistry_new ∅.
End Driver.

(** ** What the client makes of it *)

(** A window's message on the queue. *)
Definition chunk_of (m : Message.t) : OutboundChunk := mkChunk (Message.msg_type m) channel.WINDOW (Message.wire m) None.

(** The event a client gets out of a queued chunk. *)
Definition chunk_event (c : OutboundChunk) : option ClientEvent.t :=
  match Message.decode_known (oc_msg_type c) (oc_body c) with
  | Ok (Some m) => event_of m
  | _ => None
  end.

Lemma chunk_event_of m : Message.wf m → chunk_event (chunk_of m) = event_of m.
Proof.
  intros Hwf. unfold chunk_event. cbn [oc_msg_type oc_body chunk_of]. rewrite <- (app_nil_r (Message.wire m)).
  by rewrite decode_known_wire.
Qed.

Lemma chunk_events ms : Forall Message.wf ms → omap chunk_event (map chunk_of ms) = omap event_of ms.
Proof. induction 1 as [|m ms Hm _ IH]; [done|]. cbn. rewrite chunk_event_of by done. destruct (event_of m); by rewrite IH. Qed.

(** What the types and the platform guarantee of a window. *)
Definition source_ok (w : SourceWindow) : Prop :=
  u32 (sw_pid w) ∧ str_ok (sw_app_id w) ∧ str_ok (sw_title w) ∧ i32 (sw_x w) ∧ i32 (sw_y w) ∧
  u16 (sw_width w) ∧ u16 (sw_height w) ∧ u16 (sw_dpi w) ∧ sw_minimized w && sw_maximized w = false.

(** The client shows what the agent thinks it told it. *)
Record shown (st : WindowStream) (rw : RemoteWindow) : Prop := {
  sh_title : rw_title rw = st_title st;
  sh_geometry : (rw_x rw, rw_y rw, rw_width rw, rw_height rw) = st_geometry st;
  sh_minimized : rw_minimized rw = (st_show_state st =? window_show.MINIMIZED);
  sh_maximized : rw_maximized rw = (st_show_state st =? window_show.MAXIMIZED);
  sh_channel : rw_video_channel rw = st_video_channel st
}.

Definition both_shown (o1 : option WindowStream) (o2 : option RemoteWindow) : Prop :=
  match o1, o2 with Some st, Some rw => shown st rw | None, None => True | _, _ => False end.

Definition mirrored (streams : gmap Z WindowStream) (s : WindowModel) : Prop :=
  ∀ id, both_shown (streams !! id) (windows s !! id).

Definition told (s : WindowModel) (ms : list Message.t) : WindowModel := apply_all s (omap event_of ms).

Lemma told_app s ms1 ms2 : told s (ms1 ++ ms2) = told (told s ms1) ms2.
Proof. unfold told, apply_all. by rewrite omap_app, fold_left_app. Qed.

Section SyncFacts.
Context `{ChannelLaws OutboundChunk} {W E I : Type} `{WindowSource W} `{FrameEncoder E} `{InputSink I}.
Implicit Types d : Driver (W:=W) (E:=E) (I:=I).

Definition queue_of d : list OutboundChunk := v_queued (view (d_outbound d)).

(** The messages a part of the tick put on the queue. *)
Definition emitted d d' (ms : list Message.t) : Prop :=
  Forall Message.wf ms ∧ queue_of d' = queue_of d ++ map chunk_of ms.

Lemma emitted_trans d1 d2 d3 ms1 ms2 : emitted d1 d2 ms1 → emitted d2 d3 ms2 → emitted d1 d3 (ms1 ++ ms2).
Proof.
  intros [Hw1 E1] [Hw2 E2]. split; [by apply Forall_app|]. by rewrite E2, E1, map_app, app_assoc.
Qed.

(** Nothing but the queue and the table of windows moved. *)
Record quiet_tick d d' : Prop := { qt_source : d_source d' = d_source d; qt_sink : d_sink d' = d_sink d }.

Record agrees d (s : WindowModel) : Prop := {
  ag_registry : registry_inv (d_registry d);
  ag_next : next_window_id (d_registry d) < 2 ^ 32 ∧ next_channel (d_registry d) < 2 ^ 16;
  ag_tracked h t : registry_get (d_registry d) h = Some t →
    ∃ st, d_streams d !! tw_window_id t = Some st ∧ st_handle st = h ∧ st_video_channel st = tw_video_channel t;
  ag_stream id st : d_streams d !! id = Some st →
    registry_get (d_registry d) (st_handle st) = Some (mkTracked id (st_video_channel st));
  ag_shown : mirrored (d_streams d) s
}.

(** The window is told as the platform has it. *)
Definition reflected d (w : SourceWindow) : Prop :=
  ∃ t st, registry_get (d_registry d) (sw_handle w) = Some t ∧ d_streams d !! tw_window_id t = Some st ∧
    st_title st = sw_title w ∧ st_show_state st = show_state w ∧ st_flags st = window_flags w ∧
    (sw_minimized w = false → st_geometry st = (sw_x w, sw_y w, sw_width w, sw_height w)).

(** *** Sending *)

Lemma send_emits m d d' :
  Message.wf m → send m channel.WINDOW d = Ok (tt, d') → ∃ q, d' = set_outbound q d ∧ emitted d d' [m].
Proof.
  intros Hwf. unfold send. unfold mbind, stm_bind, lift. rewrite encode_body_wire by done. cbn [map_err].
  unfold queue_raw, queue_chunk. fold (chunk_of m). destruct (try_send (d_outbound d) (chunk_of m)) as [q r] eqn:Es.
  destruct r; [|done..]. intros [= <-]. exists q. split; [done|]. split; [by apply Forall_singleton|].
  apply try_send_cases in Es as (_ & _ & Hv). unfold queue_of. cbn. by rewrite Hv.
Qed.

Lemma window_id_ok d s h t : agrees d s → registry_get (d_registry d) h = Some t → u32 (tw_window_id t) ∧ u16 (tw_video_channel t).
Proof.
  intros Ha Ht. destruct (ag_next _ _ Ha) as [Hn Hc]. unfold registry_get in Ht.
  pose proof (ri_inverse _ (ag_registry _ _ Ha) h t Ht) as Hi. apply (ri_ids _ (ag_registry _ _ Ha)) in Hi.
  destruct (channels_range _ h t (ag_registry _ _ Ha) Ht) as [Hr _]. unfold VIDEO_BASE, is_uint in *. lia.
Qed.

(** Changing what is known of one window and telling the client. *)
Lemma put_send d s id st st' m d' :
  agrees d s → d_streams d !! id = Some st → st_handle st' = st_handle st → st_video_channel st' = st_video_channel st →
  Message.wf m →
  (∀ rw, windows s !! id = Some rw → shown st rw →
     ∃ rw', windows (told s [m]) = <[id := rw']> (windows s) ∧ shown st' rw') →
  (modify (put_stream id st');; send m channel.WINDOW) d = Ok (tt, d') →
  emitted d d' [m] ∧ agrees d' (told s [m]) ∧ quiet_tick d d' ∧ d_registry d' = d_registry d ∧
  d_streams d' = <[id := st']> (d_streams d).
Proof.
  intros Ha Hst Hh Hc Hwf Hsh Hrun. unfold mbind, stm_bind, modify in Hrun.
  destruct (send_emits m (put_stream id st' d) d' Hwf Hrun) as (q & -> & Hem). split_and!; [done| |done|done|done].
  pose proof Ha as [Hr Hn Ht Hs Hm].
  split; cbn [set_outbound put_stream set_streams d_registry d_streams]; [done|done| | |].
  - intros h t Hg. destruct (Ht h t Hg) as (st0 & E1 & E2 & E3). destruct (decide (tw_window_id t = id)) as [<-|Hne].
    + exists st'. rewrite lookup_insert_eq. rewrite Hst in E1. injection E1 as <-. by rewrite Hh, Hc.
    + exists st0. by rewrite lookup_insert_ne by done.
  - intros id' st0 [[<- <-]|[Hne E0]]%lookup_insert_Some; [rewrite Hh, Hc|]; by apply Hs.
  - pose proof (Hm id) as Hid. rewrite Hst in Hid. destruct (windows s !! id) as [rw|] eqn:Erw; [|done].
    destruct (Hsh rw eq_refl Hid) as (rw' & Ew & Hsh'). intros id'. rewrite Ew. destruct (decide (id' = id)) as [->|Hne].
    + by rewrite !lookup_insert_eq.
    + rewrite !lookup_insert_ne by done. apply Hm.
Qed.

(** *** What each message does to the client's window *)

Lemma told_title s id rw st title :
  windows s !! id = Some rw → shown st rw →
  ∃ rw', windows (told s [Message.WindowTitle (mkWindowTitle id title)]) = <[id := rw']> (windows s) ∧
         shown (retitle st title) rw'.
Proof.
  intros Erw [T1 T2 T3 T4 T5]. unfold told, apply_all. cbn. unfold on_title. cbn. rewrite Erw. case_bool_decide as Eq.
  - exists rw. split; [by rewrite insert_id|]. by split.
  - eexists. split; [done|]. by split.
Qed.

Lemma told_state s id rw st show flags :
  windows s !! id = Some rw → shown st rw →
  ∃ rw', windows (told s [Message.WindowState (mkWindowState id show flags)]) = <[id := rw']> (windows s) ∧
         shown (restate st show flags) rw'.
Proof.
  intros Erw [T1 T2 T3 T4 T5]. unfold told, apply_all. cbn. unfold on_state. cbn. rewrite Erw.
  destruct (eqb (rw_minimized rw) (show =? window_show.MINIMIZED) && eqb (rw_maximized rw) (show =? window_show.MAXIMIZED)) eqn:Eq.
  - apply andb_true_iff in Eq as [E1%eqb_prop E2%eqb_prop]. exists rw. split; [by rewrite insert_id|]. by split.
  - eexists. split; [done|]. by split.
Qed.

Lemma told_geometry s id rw st x y w h b :
  windows s !! id = Some rw → shown st rw →
  ∃ rw', windows (told s [Message.WindowGeometry (mkWindowGeometry id x y w h)]) = <[id := rw']> (windows s) ∧
         shown (regeometry st (x, y, w, h) b) rw'.
Proof.
  intros Erw [T1 T2 T3 T4 T5]. unfold told, apply_all. cbn. unfold on_geometry. cbn. rewrite Erw.
  destruct ((rw_x rw =? x) && (rw_y rw =? y) && (rw_width rw =? w) && (rw_height rw =? h)) eqn:Eq.
  - rewrite !andb_true_iff, !Z.eqb_eq in Eq. destruct Eq as (((<- & <-) & <-) & <-).
    exists rw. split; [by rewrite insert_id|]. by split.
  - eexists. split; [done|]. by split.
Qed.

(** *** A window that is known *)

(** The part of a tick that is about one window. *)
Record window_step d d' s (id : Z) (st : WindowStream) (ms : list Message.t) : Prop := {
  wst_emitted : emitted d d' ms;
  wst_agrees : agrees d' (told s ms);
  wst_quiet : quiet_tick d d';
  wst_registry : d_registry d' = d_registry d;
  wst_streams : d_streams d' = <[id := st]> (d_streams d)
}.

Lemma window_step_refl d s id st : agrees d s → d_streams d !! id = Some st → window_step d d s id st [].
Proof.
  intros Ha Hst. split; [split; [constructor|by rewrite app_nil_r]|done|done|done|by rewrite insert_id].
Qed.

Lemma window_step_trans d1 d2 d3 s id st1 st2 ms1 ms2 :
  window_step d1 d2 s id st1 ms1 → window_step d2 d3 (told s ms1) id st2 ms2 → window_step d1 d3 s id st2 (ms1 ++ ms2).
Proof.
  intros [E1 A1 [Q1 Q1'] R1 S1] [E2 A2 [Q2 Q2'] R2 S2]. split.
  - by eapply emitted_trans.
  - by rewrite told_app.
  - split; congruence.
  - congruence.
  - by rewrite S2, S1, insert_insert_eq.
Qed.

(** One of the conditional updates of [sync_known]. *)
Lemma optional_update (b : bool) d s id st st' m x d' :
  agrees d s → d_streams d !! id = Some st → st_handle st' = st_handle st → st_video_channel st' = st_video_channel st →
  Message.wf m →
  (∀ rw, windows s !! id = Some rw → shown st rw →
     ∃ rw', windows (told s [m]) = <[id := rw']> (windows s) ∧ shown st' rw') →
  (if b then mret st else modify (put_stream id st');; send m channel.WINDOW;; mret st') d = Ok (x, d') →
  ∃ ms, x = (if b then st else st') ∧ window_step d d' s id x ms ∧ d_streams d' !! id = Some x.
Proof.
  intros Ha Hst Hh Hc Hwf Hsh. destruct b.
  - intros [= <- <-]. exists []. split_and!; [done|by apply window_step_refl|done].
  - unfold mbind, stm_bind, mret, stm_ret. destruct (modify (put_stream id st') d) as [[[] d0]| |] eqn:Em; [|done..].
    destruct (send m channel.WINDOW d0) as [[[] d1]| |] eqn:Es; [|done..]. intros [= <- <-].
    destruct (put_send d s id st st' m d1 Ha Hst Hh Hc Hwf Hsh) as (He & Hag & Hq & Hr & Hs).
    { unfold mbind, stm_bind. by rewrite Em. }
    exists [m]. split_and!; [done|by split|]. by rewrite Hs, lookup_insert_eq.
Qed.

Lemma bind_Ok {A B} (m : drv A) (f : A → drv B) d r :
  (m ≫= f) d = Ok r → ∃ a d1, m d = Ok (a, d1) ∧ f a d1 = Ok r.
Proof. unfold mbind, drv, stm_bind. destruct (m d) as [[a d1]| |]; [|done..]. intros E'. by exists a, d1. Qed.

Lemma window_flags_u32 w : u32 (window_flags w).
Proof. unfold window_flags. destruct (sw_resizable w), (sw_has_frame w), (sw_topmost w), (sw_minimized w), (sw_maximized w); by split. Qed.

Lemma show_state_u8 w : u8 (show_state w).
Proof. unfold show_state. destruct (sw_minimized w), (sw_maximized w); by split. Qed.

(** What a known window is told as. *)
Definition as_told (st : WindowStream) (w : SourceWindow) : Prop :=
  st_title st = sw_title w ∧ st_show_state st = show_state w ∧ st_flags st = window_flags w ∧
  (sw_minimized w = false → st_geometry st = (sw_x w, sw_y w, sw_width w, sw_height w)).

Lemma sync_known_spec t w d d' s :
  agrees d s → source_ok w → registry_get (d_registry d) (sw_handle w) = Some t → sync_known t w d = Ok (tt, d') →
  ∃ ms st, window_step d d' s (tw_window_id t) st ms ∧ as_told st w.
Proof.
  intros Ha (Hpid & Happ & Htitle & Hx & Hy & Hw & Hh & Hdpi & Hexcl) Ht Hrun.
  destruct (window_id_ok _ _ _ _ Ha Ht) as [Hid _]. destruct (ag_tracked _ _ Ha _ _ Ht) as (st & Hst & _).
  unfold sync_known in Hrun. apply bind_Ok in Hrun as (o & d0 & Eg & Hrun). injection Eg as <- <-. rewrite Hst in Hrun.
  apply bind_Ok in Hrun as (st1 & d1 & E1 & Hrun).
  eapply optional_update in E1 as (ms1 & Ex1 & S1 & Hst1);
    [|exact Ha|exact Hst|reflexivity|reflexivity|exact (conj Hid Htitle)|intros rw; apply told_title].
  apply bind_Ok in Hrun as (st2 & d2 & E2 & Hrun).
  eapply optional_update in E2 as (ms2 & Ex2 & S2 & Hst2);
    [|exact (wst_agrees _ _ _ _ _ _ S1)|exact Hst1|reflexivity|reflexivity|
     exact (conj Hid (conj (show_state_u8 w) (window_flags_u32 w)))|intros rw; apply told_state].
  pose proof (window_step_trans _ _ _ _ _ _ _ _ _ S1 S2) as S12.
  assert (st_title st2 = sw_title w ∧ st_show_state st2 = show_state w ∧ st_flags st2 = window_flags w) as (Q1 & Q2 & Q3).
  { assert (st_title st1 = sw_title w) as T1 by (rewrite Ex1; case_bool_decide; done).
    rewrite Ex2. destruct ((st_show_state st1 =? show_state w) && (st_flags st1 =? window_flags w)) eqn:Eb; [|done].
    apply andb_true_iff in Eb as [?%Z.eqb_eq ?%Z.eqb_eq]. done. }
  destruct (sw_minimized w) eqn:Emin; [injection Hrun as <-; exists (ms1 ++ ms2), st2; split; [done|split_and!; congruence]|].
  destruct (geometry_eqb (st_geometry st2) (sw_x w, sw_y w, sw_width w, sw_height w) && _) eqn:Eb.
  - injection Hrun as <-. exists (ms1 ++ ms2), st2. split; [done|]. apply andb_true_iff in Eb as [Eb%bool_decide_eq_true _].
    by split_and!.
  - destruct (st_geometry st2) as [[[ox oy] ow] oh] eqn:Eg.
    eapply put_send in Hrun as (He & Hag & Hq & Hr & Hs);
      [|exact (wst_agrees _ _ _ _ _ _ S12)|exact Hst2|reflexivity|reflexivity|
       exact (conj Hid (conj Hx (conj Hy (conj Hw Hh))))|intros rw; apply told_geometry].
    eexists _, _. split; [eapply window_step_trans; [exact S12|by split]|]. by split_and!.
Qed.

(** *** A new window *)

Lemma track_cases r h t b r' :
  next_channel r < 2 ^ 16 → track r h = Ok (t, b, r') →
  if b then registry_get r h = None ∧ handle_to_window r' = <[h := t]> (handle_to_window r) ∧
            tw_window_id t = next_window_id r ∧ next_window_id r' = next_window_id r + 1 ∧
            next_window_id r' < 2 ^ 32 ∧ next_channel r' < 2 ^ 16
  else r' = r ∧ registry_get r h = Some t.
Proof.
  intros Hc. unfold track, registry_get. destruct (handle_to_window r !! h) as [t0|] eqn:E0; [by intros [= <- <- <-]|].
  unfold bump, add_uint. destruct (Z.ltb_spec (next_window_id r + 1) (2 ^ 32)); [|done]. cbn [mbind outcome_bind].
  destruct (vec_pop (free_channels r)) as [[c free]|]; cbn [mbind outcome_bind].
  - intros [= <- <- <-]. cbn. by split_and!.
  - destruct (Z.ltb_spec (next_channel r + 1) (2 ^ 16)); [|done]. intros [= <- <- <-]. cbn. by split_and!.
Qed.

Lemma show_flags w :
  sw_minimized w && sw_maximized w = false →
  has_flag (window_flags w) window_flag.MINIMIZED = (show_state w =? window_show.MINIMIZED) ∧
  has_flag (window_flags w) window_flag.MAXIMIZED = (show_state w =? window_show.MAXIMIZED).
Proof.
  unfold window_flags, show_state.
  by destruct (sw_resizable w), (sw_has_frame w), (sw_topmost w), (sw_minimized w), (sw_maximized w).
Qed.

(** The id is new to the client too. *)
Lemma fresh_id d s : agrees d s → d_streams d !! next_window_id (d_registry d) = None.
Proof.
  intros Ha. destruct (d_streams d !! next_window_id (d_registry d)) as [st|] eqn:E0; [|done]. exfalso.
  apply (ag_stream _ _ Ha) in E0. unfold registry_get in E0. apply (ri_inverse _ (ag_registry _ _ Ha)) in E0.
  apply (ri_ids _ (ag_registry _ _ Ha)) in E0. cbn in E0. lia.
Qed.

Lemma told_opened s params t w :
  source_ok w → windows s !! tw_window_id t = None →
  ∃ rw, windows (told s [opened_message t w]) = <[tw_window_id t := rw]> (windows s) ∧ shown (new_stream params t w) rw.
Proof.
  intros Hok Hn. unfold told, apply_all. cbn. unfold on_opened. cbn. rewrite Hn. eexists. split; [done|].
  destruct (show_flags w) as [Hmin Hmax]; [by apply Hok|]. split; cbn; done.
Qed.

Lemma opened_wf t w : source_ok w → u32 (tw_window_id t) → u16 (tw_video_channel t) → Message.wf (opened_message t w).
Proof.
  intros (? & ? & ? & ? & ? & ? & ? & ? & _) Hid Hch. unfold opened_message. cbn. unfold WindowOpened_wf. cbn.
  pose proof (window_flags_u32 w). by split_and!.
Qed.

Lemma sync_new_spec params t w d d' s r' :
  agrees d s → source_ok w → track (d_registry d) (sw_handle w) = Ok (t, true, r') →
  (send (opened_message t w) channel.WINDOW;; modify (put_stream (tw_window_id t) (new_stream params t w)))
    (set_registry r' d) = Ok (tt, d') →
  emitted d d' [opened_message t w] ∧ agrees d' (told s [opened_message t w]) ∧ quiet_tick d d' ∧
  d_registry d' = r' ∧ handle_to_window r' = <[sw_handle w := t]> (handle_to_window (d_registry d)) ∧
  d_streams d' = <[tw_window_id t := new_stream params t w]> (d_streams d) ∧ d_streams d !! tw_window_id t = None.
Proof.
  intros Ha Hok Etr Hrun. destruct (ag_next _ _ Ha) as [Hn Hc].
  pose proof (track_cases _ _ _ _ _ Hc Etr) as (Hnone & Hmap & Hid & Hnext & Hn' & Hc').
  pose proof (track_inv _ _ _ _ _ (ag_registry _ _ Ha) Etr) as Hinv.
  pose proof (fresh_id _ _ Ha) as Hfresh. rewrite <- Hid in Hfresh.
  assert (registry_get r' (sw_handle w) = Some t) as Hget by (unfold registry_get; rewrite Hmap; apply lookup_insert_eq).
  destruct (channels_range _ _ _ Hinv Hget) as [Hrange _].
  apply bind_Ok in Hrun as ([] & d1 & Es & Hrun). injection Hrun as <-.
  assert (Message.wf (opened_message t w)) as Hwf.
  { pose proof (ri_next _ (ag_registry _ _ Ha)). unfold VIDEO_BASE in Hrange. apply opened_wf; [done|split; lia..]. }
  destruct (send_emits _ _ _ Hwf Es) as (q & -> & Hem). split_and!; try done.
  assert (windows s !! tw_window_id t = None) as Hw0.
  { pose proof (ag_shown _ _ Ha (tw_window_id t)) as Hs. rewrite Hfresh in Hs. by destruct (windows s !! tw_window_id t). }
  destruct (told_opened s params t w Hok Hw0) as (rw & Erw & Hsh).
  split; cbn [put_stream set_streams set_outbound set_registry d_registry d_streams]; [done|done| | |].
  - intros h t' Hg. unfold registry_get in Hg. rewrite Hmap in Hg. apply lookup_insert_Some in Hg as [[<- <-]|[Hne Hg]].
    + exists (new_stream params t w). by rewrite lookup_insert_eq.
    + destruct (ag_tracked _ _ Ha h t' Hg) as (st & E1 & E2 & E3). exists st. rewrite lookup_insert_ne; [done|].
      intros Heq. rewrite Heq in Hfresh. congruence.
  - intros id st [[<- <-]|[Hne E0]]%lookup_insert_Some; cbn.
    + etrans; [exact Hget|]. by destruct t.
    + apply (ag_stream _ _ Ha) in E0. unfold registry_get in *. rewrite Hmap, lookup_insert_ne; [done|].
      intros Heq. rewrite Heq in Hnone. congruence.
  - intros id. rewrite Erw. destruct (decide (id = tw_window_id t)) as [->|Hne].
    + by rewrite !lookup_insert_eq.
    + rewrite !lookup_insert_ne by done. apply (ag_shown _ _ Ha).
Qed.

(** *** The live windows *)

Lemma sync_window_spec params w d d' s :
  agrees d s → source_ok w → sync_window params w d = Ok (tt, d') →
  ∃ ms, emitted d d' ms ∧ agrees d' (told s ms) ∧ quiet_tick d d' ∧ reflected d' w ∧
        (∀ w', sw_handle w' ≠ sw_handle w → reflected d w' → reflected d' w').
Proof.
  intros Ha Hok Hrun. apply bind_Ok in Hrun as (r & d0 & Eg & Hrun). injection Eg as <- <-.
  apply bind_Ok in Hrun as ([[t b] r'] & d1 & Et & Hrun).
  unfold lift in Et. destruct (track (d_registry d) (sw_handle w)) as [[[t0 b0] r0]| |] eqn:Etr; [|done..].
  cbn in Et. injection Et as -> -> -> <-. apply bind_Ok in Hrun as ([] & d2 & Em & Hrun). injection Em as <-.
  destruct b.
  - destruct (sync_new_spec params t w d d' s r' Ha Hok Etr Hrun) as (He & Hag & Hq & Hr & Hmap & Hs & Hfresh).
    exists [opened_message t w]. split_and!; [done|done|done| |].
    + exists t, (new_stream params t w). unfold registry_get. rewrite Hr, Hmap, Hs, !lookup_insert_eq. by split_and!.
    + intros w' Hne (t' & st & E1 & E2 & Hrest). exists t', st. unfold registry_get in *.
      rewrite Hr, Hmap, Hs, !lookup_insert_ne; [done| |done]. intros Heq. rewrite Heq in Hfresh. congruence.
  - destruct (ag_next _ _ Ha) as [_ Hc]. destruct (track_cases _ _ _ _ _ Hc Etr) as [-> Hget].
    replace (set_registry (d_registry d) d) with d in Hrun by (by destruct d).
    destruct (sync_known_spec t w d d' s Ha Hok Hget Hrun) as (ms & st & [He Hag Hq Hr Hs] & Htold).
    exists ms. split_and!; [done|done|done| |].
    + exists t, st. rewrite Hr, Hs, lookup_insert_eq. by split_and!; try apply Htold.
    + intros w' Hne (t' & st' & E1 & E2 & Hrest). exists t', st'. rewrite Hr, Hs, lookup_insert_ne; [done|].
      destruct (channels_distinct _ _ _ _ _ (ag_registry _ _ Ha) E1 Hget Hne). done.
Qed.

Lemma quiet_refl d : quiet_tick d d.
Proof. done. Qed.
Lemma quiet_trans d1 d2 d3 : quiet_tick d1 d2 → quiet_tick d2 d3 → quiet_tick d1 d3.
Proof. intros [A1 A2] [B1 B2]. split; congruence. Qed.

Lemma emitted_nil d : emitted d d [].
Proof. split; [constructor|by rewrite app_nil_r]. Qed.

Lemma sync_live_spec params live : ∀ d d' s,
  agrees d s → Forall source_ok live → NoDup (map sw_handle live) → sync_live params live d = Ok (tt, d') →
  ∃ ms, emitted d d' ms ∧ agrees d' (told s ms) ∧ quiet_tick d d' ∧ Forall (reflected d') live ∧
        (∀ w', sw_handle w' ∉ map sw_handle live → reflected d w' → reflected d' w').
Proof.
  induction live as [|w live IH]; intros d d' s Ha Hok Hnd Hrun; cbn [sync_live map] in *.
  - injection Hrun as <-. exists []. split_and!; [apply emitted_nil|done|apply quiet_refl|constructor|done].
  - apply bind_Ok in Hrun as ([] & d1 & E1 & Hrun). apply Forall_cons_1 in Hok as [Hw Hok]. apply NoDup_cons in Hnd as [Hnin Hnd].
    destruct (sync_window_spec params w d d1 s Ha Hw E1) as (ms1 & He1 & Ha1 & Hq1 & Hr1 & Hk1).
    destruct (IH d1 d' (told s ms1) Ha1 Hok Hnd Hrun) as (ms2 & He2 & Ha2 & Hq2 & Hr2 & Hk2).
    exists (ms1 ++ ms2). split_and!; [by eapply emitted_trans|by rewrite told_app|by eapply quiet_trans| |].
    + constructor; [|done]. by apply Hk2.
    + intros w' Hn Hw'. apply not_elem_of_cons in Hn as [Hne Hn]. apply Hk2; [done|]. by apply Hk1.
Qed.

(** *** The windows that are gone *)

Lemma told_closed streams s id :
  mirrored streams s → mirrored (delete id streams) (told s [Message.WindowClosed (mkWindowClosed id)]).
Proof.
  intros Hm id'. pose proof (Hm id') as Hid'. unfold told, apply_all. cbn [omap list_omap event_of fold_left apply wcl_window_id].
  unfold on_closed. destruct (windows s !! id) as [rw|] eqn:Erw; cbn [fst windows].
  - destruct (decide (id' = id)) as [->|Hne]; [by rewrite !lookup_delete_eq|by rewrite !lookup_delete_ne].
  - destruct (decide (id' = id)) as [->|Hne]; [by rewrite lookup_delete_eq, Erw|by rewrite lookup_delete_ne].
Qed.

Lemma close_gone_spec gone : ∀ d d' s,
  Forall (λ t, u32 (tw_window_id t)) gone → mirrored (d_streams d) s → close_gone gone d = Ok (tt, d') →
  ∃ ms, emitted d d' ms ∧ mirrored (d_streams d') (told s ms) ∧ quiet_tick d d' ∧ d_registry d' = d_registry d ∧
    ∀ id, d_streams d' !! id = if decide (id ∈ map tw_window_id gone) then None else d_streams d !! id.
Proof.
  induction gone as [|t gone IH]; intros d d' s Hids Hm Hrun; cbn [close_gone map] in *.
  { injection Hrun as <-. exists []. split_and!; [apply emitted_nil|done|done|done|].
    intros id. by rewrite decide_False by apply not_elem_of_nil. }
  apply Forall_cons_1 in Hids as [Hid Hids]. apply bind_Ok in Hrun as (o & d0 & Eg & Hrun). injection Eg as <- <-.
  apply bind_Ok in Hrun as ([] & d1 & E1 & Hrun). apply bind_Ok in Hrun as ([] & d2 & E2 & Hrun).
  assert (d_streams d1 = delete (tw_window_id t) (d_streams d) ∧ d_registry d1 = d_registry d ∧ quiet_tick d d1 ∧
          queue_of d1 = queue_of d) as (Hs1 & Hr1 & Hq1 & Hqu1).
  { destruct (d_streams d !! tw_window_id t) as [st|] eqn:Est; injection E1 as <-; [done|].
    by rewrite delete_id. }
  destruct (send_emits (Message.WindowClosed (mkWindowClosed (tw_window_id t))) d1 d2 Hid E2) as (q & -> & He).
  assert (emitted d (set_outbound q d1) [Message.WindowClosed (mkWindowClosed (tw_window_id t))]) as He'.
  { destruct He as [Hw Hqq]. split; [done|]. by rewrite Hqq, Hqu1. }
  destruct (IH (set_outbound q d1) d' (told s [Message.WindowClosed (mkWindowClosed (tw_window_id t))]) Hids)
    as (ms & He2 & Hm2 & Hq2 & Hr2 & Hs2); [cbn [set_outbound d_streams]; rewrite Hs1; by apply told_closed|done|].
  eexists. split_and!; [by eapply emitted_trans|by rewrite told_app| |cbn in Hr2; congruence|].
  - eapply quiet_trans; [exact Hq1|]. destruct Hq2 as [Q1 Q2]. by split.
  - intros id. rewrite Hs2. cbn [set_outbound d_streams]. rewrite Hs1.
    destruct (decide (id ∈ map tw_window_id gone)) as [Hin|Hout].
    + by rewrite decide_True by (by right).
    + destruct (decide (id = tw_window_id t)) as [->|Hne].
      * rewrite decide_True by left. apply lookup_delete_eq.
      * rewrite decide_False by (intros [?|?]%elem_of_cons; done). by apply lookup_delete_ne.
Qed.

(** *** The whole diff *)

Definition ordering (order : gmap Z TrackedWindow → list Z) : Prop := ∀ m, order m ≡ₚ (map_to_list m).*1.

Lemma forget_all_next hs : ∀ r, next_window_id (forget_all r hs).1 = next_window_id r ∧ next_channel (forget_all r hs).1 = next_channel r.
Proof.
  induction hs as [|h hs IH]; intros r; [done|]. cbn. destruct (forget r h) as [r1 o] eqn:Ef. specialize (IH r1).
  destruct (forget_all r1 hs) as [r2 l]. cbn in *. destruct IH as [-> ->]. unfold forget in Ef.
  destruct (handle_to_window r !! h); by injection Ef as <- _.
Qed.

Lemma retain_live_next r keys live r' gone :
  retain_live r keys live = (r', gone) → next_window_id r' = next_window_id r ∧ next_channel r' = next_channel r.
Proof.
  intros Er. unfold retain_live in Er. match type of Er with forget_all _ ?l = _ => pose proof (forget_all_next l r) as Hx end.
  by rewrite Er in Hx.
Qed.

(** A window that stays is not among those removed. *)
Lemma retained_id r keys live r' gone h t :
  registry_inv r → (keys ≡ₚ (map_to_list (handle_to_window r)).*1) → retain_live r keys live = (r', gone) →
  registry_get r' h = Some t → (tw_window_id t ∉ map tw_window_id gone) ∧ registry_get r h = Some t.
Proof.
  intros Hr Hk Er Hg. pose proof (retain_live_spec r keys live Hr Hk) as Hret. rewrite Er in Hret.
  destruct Hret as (_ & Hmap & _ & Hgone). unfold registry_get in *. rewrite Hmap in Hg. case_decide as Hl; [|done].
  split; [|done]. intros Hin. apply list_elem_of_fmap in Hin as (t' & Eid & Hin). apply Hgone in Hin as (h' & Ht' & Hn').
  assert (h = h') as ->; [|done]. destruct (decide (h = h')) as [|Hne]; [done|].
  by destruct (channels_distinct _ _ _ _ _ Hr Hg Ht' Hne).
Qed.

Lemma sync_windows_spec params order d d' s :
  agrees d s → ordering order → Forall source_ok (live_windows (d_source d)).2 →
  NoDup (map sw_handle (live_windows (d_source d)).2) → sync_windows params order d = Ok (tt, d') →
  ∃ ms, emitted d d' ms ∧ agrees d' (told s ms) ∧ Forall (reflected d') (live_windows (d_source d)).2 ∧
    d_source d' = (live_windows (d_source d)).1 ∧
    ∀ h, registry_get (d_registry d') h ≠ None → h ∈ map sw_handle (live_windows (d_source d)).2.
Proof.
  intros Ha Hord Hok Hnd Hrun. unfold sync_windows in Hrun. apply bind_Ok in Hrun as (live & d0 & E0 & Hrun).
  destruct (live_windows (d_source d)) as [src lw]. injection E0 as <- <-. cbn [snd fst] in *.
  apply bind_Ok in Hrun as ([] & d1 & E1 & Hrun).
  assert (agrees (set_source src d) s) as Ha0 by (by destruct Ha; split).
  destruct (sync_live_spec params lw (set_source src d) d1 s Ha0 Hok Hnd E1) as (ms1 & He1 & Ha1 & Hq1 & Hr1 & _).
  apply bind_Ok in Hrun as (r & d1' & Eg & Hrun). injection Eg as <- <-.
  pose proof (retain_live_spec (d_registry d1) (order (handle_to_window (d_registry d1))) (map sw_handle lw)
                (ag_registry _ _ Ha1) (Hord _)) as Hret.
  destruct (retain_live (d_registry d1) (order (handle_to_window (d_registry d1))) (map sw_handle lw)) as [r2 gone] eqn:Er.
  destruct Hret as (Hinv2 & Hmap2 & _ & Hgone).
  apply bind_Ok in Hrun as ([] & d2 & Em & Hrun). injection Em as <-.
  destruct (close_gone_spec gone (set_registry r2 d1) d' (told s ms1)) as (ms2 & He2 & Hm2 & Hq2 & Hreg2 & Hs2); [| |exact Hrun|].
  { apply Forall_forall. intros t (h & Ht & _)%Hgone. by eapply window_id_ok. }
  { exact (ag_shown _ _ Ha1). }
  cbn [set_registry d_registry d_streams] in Hreg2, Hs2.
  pose proof (λ h t, retained_id _ _ _ _ _ h t (ag_registry _ _ Ha1) (Hord _) Er) as Hkept.
  destruct (retain_live_next _ _ _ _ _ Er) as [Hn1 Hn2].
  exists (ms1 ++ ms2). split_and!.
  - eapply emitted_trans; [exact He1|]. exact He2.
  - rewrite told_app. split; rewrite ?Hreg2; [done|rewrite Hn1, Hn2; apply (ag_next _ _ Ha1)| | |done].
    + intros h t Hg. destruct (Hkept h t Hg) as [Hout Hold]. destruct (ag_tracked _ _ Ha1 h t Hold) as (st & E2 & Hrest).
      exists st. by rewrite Hs2, decide_False.
    + intros id st Hst. rewrite Hs2 in Hst. case_decide as Hin; [done|]. pose proof (ag_stream _ _ Ha1 id st Hst) as Hold.
      unfold registry_get in *. rewrite Hmap2. case_decide as Hl; [done|]. exfalso. apply Hin.
      apply list_elem_of_fmap. exists (mkTracked id (st_video_channel st)). split; [done|]. apply Hgone. by exists (st_handle st).
  - apply Forall_forall. intros w Hw. rewrite Forall_forall in Hr1. destruct (Hr1 w Hw) as (t & st & E2 & E3 & Hrest).
    assert (registry_get r2 (sw_handle w) = Some t) as Hg.
    { unfold registry_get. rewrite Hmap2, decide_True; [done|]. apply list_elem_of_fmap. by exists w. }
    exists t, st. rewrite Hreg2, Hs2, decide_False by (by eapply Hkept). done.
  - destruct Hq1 as [Q1 _], Hq2 as [Q2 _]. cbn in *. congruence.
  - rewrite Hreg2. intros h Hg. unfold registry_get in Hg. rewrite Hmap2 in Hg. by case_decide.
Qed.

(** *** Frames, acknowledgements and input *)

(** What is known of a window but its pacing. *)
Definition view_of (st : WindowStream) := (st_handle st, st_video_channel st, st_title st, st_geometry st, st_show_state st, st_flags st).

(** A chunk that tells the client nothing about windows. *)
Definition no_window_chunk (c : OutboundChunk) : Prop :=
  oc_msg_type c = msg_type.FRAME_DATA ∨ oc_msg_type c = msg_type.PONG.

Record calm d d' (cs : list OutboundChunk) : Prop := {
  cl_registry : d_registry d' = d_registry d;
  cl_streams id : view_of <$> d_streams d' !! id = view_of <$> d_streams d !! id;
  cl_queue : queue_of d' = queue_of d ++ cs;
  cl_chunks : Forall no_window_chunk cs
}.

Lemma calm_refl d d' : d_registry d' = d_registry d → d_streams d' = d_streams d → queue_of d' = queue_of d → calm d d' [].
Proof. intros Hr Hs Hq. split; [done|by rewrite Hs|by rewrite Hq, app_nil_r|constructor]. Qed.

Lemma calm_trans d1 d2 d3 cs1 cs2 : calm d1 d2 cs1 → calm d2 d3 cs2 → calm d1 d3 (cs1 ++ cs2).
Proof.
  intros [R1 S1 Q1 F1] [R2 S2 Q2 F2]. split; [congruence|intros id; by rewrite S2|by rewrite Q2, Q1, app_assoc|by apply Forall_app].
Qed.

Lemma calm_put d id st st' :
  d_streams d !! id = Some st → view_of st' = view_of st → calm d (put_stream id st' d) [].
Proof.
  intros Hst Hv. split; [done| |by rewrite app_nil_r|constructor]. intros id'. cbn.
  destruct (decide (id' = id)) as [->|Hne]; [|by rewrite lookup_insert_ne].
  rewrite lookup_insert_eq, Hst. cbn. by rewrite Hv.
Qed.

Lemma queue_chunk_calm c d d' : no_window_chunk c → queue_chunk c d = Ok (tt, d') → calm d d' [c] ∧ d_streams d' = d_streams d.
Proof.
  intros Hc. unfold queue_chunk. destruct (try_send (d_outbound d) c) as [q r] eqn:Es. destruct r; [|done..].
  intros [= <-]. apply try_send_cases in Es as (_ & _ & Hv). split; [|done]. split; [done|done| |by apply Forall_singleton].
  unfold queue_of. cbn. by rewrite Hv.
Qed.

(** Such a chunk leaves the client's windows alone. *)
Lemma no_window_event c s : no_window_chunk c → apply_all s (omap chunk_event [c]) = s.
Proof.
  intros Hc. cbn. unfold chunk_event. destruct Hc as [-> | ->]; cbn.
  - unfold Message.decoded. destruct (decode (T:=FrameData) (oc_body c)) as [m| |]; done.
  - unfold Message.decoded. destruct (decode (T:=Pong) (oc_body c)) as [m| |]; done.
Qed.

Lemma no_window_events cs s : Forall no_window_chunk cs → apply_all s (omap chunk_event cs) = s.
Proof.
  induction 1 as [|c cs Hc _ IH] in s |- *; [done|]. change (c :: cs) with ([c] ++ cs). unfold apply_all in *.
  rewrite omap_app, fold_left_app. pose proof (no_window_event c s Hc) as E1. unfold apply_all in E1. by rewrite E1.
Qed.

Lemma view_of_inj st st' : view_of st' = view_of st → st_handle st' = st_handle st ∧ st_video_channel st' = st_video_channel st ∧
  st_title st' = st_title st ∧ st_geometry st' = st_geometry st ∧ st_show_state st' = st_show_state st ∧ st_flags st' = st_flags st.
Proof. unfold view_of. intros [= -> -> -> -> -> ->]. done. Qed.

Lemma calm_lookup d d' cs id st : calm d d' cs → d_streams d !! id = Some st →
  ∃ st', d_streams d' !! id = Some st' ∧ view_of st' = view_of st.
Proof.
  intros Hc Hst. pose proof (cl_streams _ _ _ Hc id) as E'. rewrite Hst in E'. cbn in E'.
  destruct (d_streams d' !! id) as [st'|]; [|done]. exists st'. split; [done|]. by apply (inj Some) in E'.
Qed.

Lemma calm_lookup' d d' cs id st' : calm d d' cs → d_streams d' !! id = Some st' →
  ∃ st, d_streams d !! id = Some st ∧ view_of st' = view_of st.
Proof.
  intros Hc Hst. pose proof (cl_streams _ _ _ Hc id) as E'. rewrite Hst in E'. cbn in E'.
  destruct (d_streams d !! id) as [st|]; [|done]. exists st. split; [done|]. by apply (inj Some) in E'.
Qed.

Lemma calm_agrees d d' cs s : calm d d' cs → agrees d s → agrees d' s.
Proof.
  intros Hc [Hr Hn Ht Hs Hm]. pose proof (cl_registry _ _ _ Hc) as Hreg. split; rewrite ?Hreg; [done|done| | |].
  - intros h t Hg. destruct (Ht h t Hg) as (st & E1 & E2 & E3). destruct (calm_lookup _ _ _ _ _ Hc E1) as (st' & E1' & Hv).
    apply view_of_inj in Hv as (V1 & V2 & _). exists st'. split_and!; [done|congruence|congruence].
  - intros id st' E1. destruct (calm_lookup' _ _ _ _ _ Hc E1) as (st & E1' & Hv).
    apply view_of_inj in Hv as (V1 & V2 & _). rewrite V1, V2. by apply Hs.
  - intros id. specialize (Hm id). pose proof (cl_streams _ _ _ Hc id) as E'. unfold both_shown in *.
    destruct (d_streams d' !! id) as [st'|], (d_streams d !! id) as [st|]; try done. apply (inj Some), view_of_inj in E' as (V1 & V2 & V3 & V4 & V5 & V6).
    destruct (windows s !! id) as [rw|]; [|done]. destruct Hm as [T1 T2 T3 T4 T5]. split; congruence.
Qed.

Lemma calm_reflected d d' cs w : calm d d' cs → reflected d w → reflected d' w.
Proof.
  intros Hc (t & st & E1 & E2 & Hrest). destruct (calm_lookup _ _ _ _ _ Hc E2) as (st' & E2' & Hv).
  apply view_of_inj in Hv as (_ & _ & V3 & V4 & V5 & V6). exists t, st'. rewrite (cl_registry _ _ _ Hc), V3, V4, V5, V6. done.
Qed.

(** A pump of one window: at most a frame, on the video channel. *)
Lemma frame_payload_calm c frame st t1 t2 d d' x :
  frame_payload c frame st t1 t2 d = Ok (x, d') → calm d d' [] ∧ d_streams d' = d_streams d.
Proof.
  unfold frame_payload. intros Hrun. apply bind_Ok in Hrun as (e & d1 & E1 & Hrun). injection E1 as <- <-.
  destruct ((c =? codec.H264) && negb (enc_failed (d_encoder d) (st_handle st))).
  - destruct (enc_poll (d_encoder d) (st_handle st)) as [e polled].
    apply bind_Ok in Hrun as ([] & d1 & E1 & Hrun). injection E1 as <-.
    destruct polled; injection Hrun as _ <-; by split; [apply calm_refl|].
  - destruct (negb _); injection Hrun as _ <-; by split; [apply calm_refl|].
Qed.

Lemma view_tick st : view_of (tick_capture_diag st) = view_of st.
Proof. unfold tick_capture_diag. by case_if. Qed.

Lemma view_clear st k : view_of (clear_keyframe st k) = view_of st.
Proof. by destruct k. Qed.

(** An outcome that is passed on leaves the driver alone. *)
Lemma lift_Ok {A} (m : outcome IoError A) d x d' : lift m d = Ok (x, d') → d' = d ∧ m = Ok x.
Proof. unfold lift. destruct m; [|done..]. by intros [= -> ->]. Qed.

Lemma deliver_frame_calm times id st p d d' :
  d_streams d !! id = Some st → deliver_frame times id st p d = Ok (tt, d') → ∃ cs, calm d d' cs ∧ length cs = 1%nat.
Proof.
  destruct p as [[[[[[mc fl] wd] ht] data] rdy] kf]. intros Hst Hrun. unfold deliver_frame in Hrun.
  apply bind_Ok in Hrun as ([fid b] & d1 & E4 & Hrun). apply lift_Ok in E4 as [-> _].
  apply bind_Ok in Hrun as ([] & d1 & E5 & Hrun). injection E5 as <-.
  apply bind_Ok in Hrun as (body & d1 & E5 & Hrun). apply lift_Ok in E5 as [-> _].
  apply bind_Ok in Hrun as ([] & d1 & E6 & Hrun). injection E6 as <-.
  apply queue_chunk_calm in Hrun as [C6 _]; [|by left].
  set (st1 := set_budget (clear_keyframe st kf) b false) in *.
  destruct (view_of_inj _ _ (view_clear st kf)) as (V1 & V2 & V3 & V4 & V5 & V6).
  assert (view_of st1 = view_of st) as Hv by (unfold view_of; cbn; congruence).
  eexists. split; [eapply calm_trans; [exact (calm_put d id st st1 Hst Hv)|]; eapply calm_trans; [|exact C6];
    eapply (calm_put _ _ st1); [|done]|done].
  cbn. by rewrite lookup_insert_eq.
Qed.

Lemma pump_frame_calm c times id d d' :
  pump_frame c times id d = Ok (tt, d') → ∃ cs, calm d d' cs ∧ (length cs ≤ 1)%nat.
Proof.
  unfold pump_frame. intros Hrun. apply bind_Ok in Hrun as (found & d1 & E1 & Hrun). injection E1 as <- <-.
  assert (∀ d1, calm d d1 [] → Ok (tt, d1) = Ok (tt, d') :> outcome IoError (unit * Driver) → ∃ cs, calm d d' cs ∧ (length cs ≤ 1)%nat)
    as Hnone by (intros d1 C0 [= <-]; exists []; split; [done|cbn; lia]).
  destruct (d_streams d !! id) as [st|] eqn:Est; [|apply (Hnone d); [by apply calm_refl|done]].
  destruct (st_show_state st =? _); [apply (Hnone d); [by apply calm_refl|done]|].
  apply bind_Ok in Hrun as (permit & d1 & E1 & Hrun).
  assert (d1 = d) as -> by (unfold reserve_frame_slot in E1; destruct (try_reserve (d_outbound d)); congruence).
  destruct permit; [|apply (Hnone d); [by apply calm_refl|done]]. cbn [negb] in Hrun.
  apply bind_Ok in Hrun as (e & d1 & E2 & Hrun). injection E2 as <- <-.
  apply bind_Ok in Hrun as (fr & d1 & E2 & Hrun).
  destruct (next_frame (d_source d) (st_handle st) (frame_intent c (d_encoder d) st)) as [src f]. injection E2 as <- <-.
  assert (calm d (set_source src d) []) as C1 by (by apply calm_refl).
  destruct f as [frame|]; [|by apply (Hnone (set_source src d))].
  apply bind_Ok in Hrun as ([] & d1 & E2 & Hrun). injection E2 as <-.
  set (d1 := put_stream id (tick_capture_diag st) (set_source src d)) in *.
  assert (calm d d1 ([] ++ [])) as C2 by (eapply calm_trans; [exact C1|]; eapply calm_put; [exact Est|apply view_tick]).
  apply bind_Ok in Hrun as ([] & d2 & E2 & Hrun).
  assert (calm d d2 [] ∧ d_streams d2 = d_streams d1) as [C3 S3].
  { destruct (c =? codec.H264); injection E2 as <-; split; try done. destruct C2; by split. }
  apply bind_Ok in Hrun as (x & d3 & E3 & Hrun). apply frame_payload_calm in E3 as [C4 S4].
  pose proof (calm_trans _ _ _ _ _ C3 C4) as C5.
  destruct x as [p|]; [|by apply (Hnone d3)].
  apply deliver_frame_calm in Hrun as (cs & C6 & Hl); [|rewrite S4, S3; cbn; by rewrite lookup_insert_eq].
  exists cs. split; [exact (calm_trans _ _ _ _ _ C5 C6)|lia].
Qed.

Lemma pump_ids_calm c readings ids : ∀ d d', pump_ids c readings ids d = Ok (tt, d') → ∃ cs, calm d d' cs.
Proof.
  induction ids as [|id ids IH]; intros d d' Hrun; cbn in Hrun.
  - injection Hrun as <-. exists []. by apply calm_refl.
  - apply bind_Ok in Hrun as ([] & d1 & E1 & Hrun). apply pump_frame_calm in E1 as (cs1 & C1 & _).
    apply IH in Hrun as (cs2 & C2). exists (cs1 ++ cs2). by eapply calm_trans.
Qed.
End SyncFacts.
