(* ===== verification/ServeSession.v ===== *)
(** * What a session of the agent shows the client

    Theorems on the driver of [Serve]: over any sequence of ticks, messages and
    writes the client's window table is the agent's, a tick's diff makes it the
    platform's list of windows, input only reaches windows that were announced
    and only the kinds that were negotiated, and what a full queue does. *)

From stdpp Require Import sorting.
From S2P Require Import Prelude Cursor Wire MsgType MsgControl MsgInput MsgWindow.
From S2P Require Import Envelope Reassembly ProtoMessage Transport Model Registry Pacing Session Channel Serve.

Section SessionFacts.
Context `{ChannelLaws OutboundChunk} {W E I : Type} `{WindowSource W} `{FrameEncoder E} `{InputSink I}.
Implicit Types d : Driver (W:=W) (E:=E) (I:=I).

(** ** Incoming messages *)

Lemma calm_same d d' : d_registry d' = d_registry d → d_streams d' = d_streams d → d_outbound d' = d_outbound d →
  ∃ cs, calm d d' cs.
Proof. intros Hr Hs Hq. exists []. apply calm_refl; [done|done|]. unfold queue_of. by rewrite Hq. Qed.

Lemma on_sink_calm (f : I → I) d x d' : (on_sink f;; mret false) d = Ok (x, d') → ∃ cs, calm d d' cs.
Proof. intros [= _ <-]. by apply calm_same. Qed.

(** A message that looks up its window and gives it to the sink. *)
Lemma on_window_calm (f : WindowStream → I → I) id d x d' :
  (found ← gets (λ d, d_streams d !! id);
   match found with Some st => on_sink (f st);; mret false | None => mret false end) d = Ok (x, d') → ∃ cs, calm d d' cs.
Proof.
  intros Hrun. apply bind_Ok in Hrun as (found & d1 & E1 & Hrun). injection E1 as <- <-.
  destruct (d_streams d !! id); [by eapply on_sink_calm|]. injection Hrun as _ <-. by apply calm_same.
Qed.

Lemma on_incoming_calm fs now m d ends d' : on_incoming fs now m d = Ok (ends, d') → ∃ cs, calm d d' cs.
Proof.
  unfold on_incoming. intros Hrun. destruct m; try (injection Hrun as _ <-; by apply calm_same).
  - apply bind_Ok in Hrun as ([] & d1 & E1 & Hrun). injection Hrun as _ <-. unfold send in E1.
    apply bind_Ok in E1 as (body & d2 & E2 & E1). apply lift_Ok in E2 as [-> _].
    apply queue_chunk_calm in E1 as [Hc _]; [by eexists|by right].
  - apply bind_Ok in Hrun as (found & d1 & E1 & Hrun). injection E1 as <- <-.
    destruct (d_streams d !! fa_window_id m) as [st|] eqn:Est; [|injection Hrun as _ <-; by apply calm_same].
    injection Hrun as _ <-. exists []. by eapply calm_put.
  - by apply on_window_calm in Hrun.
  - destruct (text_input_enabled fs); injection Hrun as _ <-; by apply calm_same.
  - destruct (window_control_enabled fs); cbn [negb] in Hrun; [by apply on_window_calm in Hrun|].
    injection Hrun as _ <-. by apply calm_same.
Qed.

(** ** The invariant of a session *)

(** What the client's window table is once it has read [cs]. *)
Definition client_after (cs : list OutboundChunk) : WindowModel := apply_all WindowModel_new (omap chunk_event cs).

Lemma client_after_app cs1 cs2 : client_after (cs1 ++ cs2) = apply_all (client_after cs1) (omap chunk_event cs2).
Proof. unfold client_after, apply_all. by rewrite omap_app, fold_left_app. Qed.

(** The agent believes what the client shows, given what was written and what
    is on its way. *)
Definition in_step d (out : list OutboundChunk) : Prop := agrees d (client_after (out ++ queue_of d)).

Lemma calm_in_step d d' cs out : calm d d' cs → in_step d out → in_step d' out.
Proof.
  intros Hc Hs. unfold in_step. rewrite (cl_queue _ _ _ Hc), app_assoc, client_after_app, no_window_events by apply Hc.
  by eapply calm_agrees.
Qed.

Lemma emitted_in_step d d' ms out :
  emitted d d' ms → agrees d' (told (client_after (out ++ queue_of d)) ms) → in_step d' out.
Proof. intros [Hwf Hq] Ha. unfold in_step. by rewrite Hq, app_assoc, client_after_app, chunk_events. Qed.

Lemma in_step_new source encoder sink : in_step (Driver_new source encoder sink) [].
Proof.
  unfold in_step, queue_of, Driver_new. cbn [d_outbound app]. rewrite channel_view. split.
  - apply registry_inv_new.
  - done.
  - intros h t. cbn. unfold registry_get. cbn. by rewrite lookup_empty.
  - intros id st. cbn. by rewrite lookup_empty.
  - intros id. cbn. unfold both_shown. by rewrite !lookup_empty.
Qed.

(** The platform answers as its types and the window system say. *)
Definition source_sound (Wt : Type) `{WindowSource Wt} : Prop :=
  ∀ w : Wt, Forall source_ok (live_windows w).2 ∧ NoDup (map sw_handle (live_windows w).2).

Definition happening_ok (h : happening) : Prop := match h with Tick order _ => ordering order | _ => True end.

Context (Hsource : source_sound W).

Lemma tick_in_step params c order readings d d' out :
  ordering order → in_step d out → on_tick params c order readings d = Ok (tt, d') → in_step d' out.
Proof.
  intros Hord Hs Hrun. apply bind_Ok in Hrun as ([] & d1 & E1 & Hrun).
  destruct (Hsource (d_source d)) as [Hok Hnd].
  destruct (sync_windows_spec params order d d1 _ Hs Hord Hok Hnd E1) as (ms & He & Ha & _).
  apply bind_Ok in Hrun as (ids & d2 & E2 & Hrun). injection E2 as _ <-.
  apply pump_ids_calm in Hrun as (cs & Hc). eapply calm_in_step; [exact Hc|]. by eapply emitted_in_step.
Qed.

Lemma written_in_step d q c out :
  blocking_recv (d_outbound d) = Some (q, Some c) → in_step d out → in_step (set_outbound q d) (out ++ [c]).
Proof.
  intros Eq Hs. apply recv_cases in Eq. unfold in_step, queue_of in *. cbn [set_outbound d_outbound].
  rewrite Eq in Hs. cbn [v_queued] in Hs. rewrite <- app_assoc. cbn [app]. destruct Hs. by split.
Qed.

Lemma happen_in_step su d h d' out cs ends :
  happening_ok h → in_step d out → happen su d h = Ok (d', cs, ends) → in_step d' (out ++ cs).
Proof.
  intros Hok Hs. destruct h as [order readings|now m| | |r]; cbn [happen]; unfold mbind, outcome_bind.
  - destruct (on_tick _ _ order readings d) as [[[] d1]| |] eqn:Et; [|done..]. intros [= <- <- <-]. rewrite app_nil_r.
    by eapply tick_in_step.
  - destruct (on_incoming _ now m d) as [[e d1]| |] eqn:Et; [|done..]. intros [= <- <- <-]. rewrite app_nil_r.
    apply on_incoming_calm in Et as (ks & Hc). by eapply calm_in_step.
  - destruct (blocking_recv (d_outbound d)) as [[q [c|]]|] eqn:Eq; intros [= <- <- <-]; rewrite ?app_nil_r; [|done..].
    by apply written_in_step.
  - intros [= <- <- <-]. by rewrite app_nil_r.
  - destruct r; [|done..]. intros [= <- <- <-]. by rewrite app_nil_r.
Qed.

Lemma session_in_step su hs : ∀ d d' out out2,
  Forall happening_ok hs → in_step d out → session su d hs = Ok (d', out2) → in_step d' (out ++ out2).
Proof.
  induction hs as [|h hs IH]; intros d d' out out2 Hok Hs; cbn [session].
  - intros [= <- <-]. by rewrite app_nil_r.
  - apply Forall_cons_1 in Hok as [Hh Hok]. destruct (happen su d h) as [[[d1 cs] ends]| |] eqn:Eh; [|done..].
    cbn [mbind outcome_bind]. pose proof (happen_in_step _ _ _ _ _ _ _ Hh Hs Eh) as Hs1.
    destruct ends; [by intros [= <- <-]|]. destruct (session su d1 hs) as [[d2 cs2]| |] eqn:Er; [|done..].
    intros [= <- <-]. rewrite app_assoc. by eapply IH.
Qed.

(** ** The diff goes through when the queue has room *)

(** Room for [n] more chunks, and a writer that is still there. *)
Definition room d (n : Z) : Prop :=
  v_rx (view (d_outbound d)) = true ∧ len (queue_of d) + n ≤ v_capacity (view (d_outbound d)).

Lemma room_le d n m : room d n → m ≤ n → room d m.
Proof. unfold room. intros [? ?] ?. split; [done|lia]. Qed.

Lemma room_same d d' n : d_outbound d' = d_outbound d → room d n → room d' n.
Proof. unfold room, queue_of. by intros ->. Qed.

Lemma send_runs m ch d n :
  Message.wf m → 0 ≤ n → room d (n + 1) → ∃ q, send m ch d = Ok (tt, set_outbound q d) ∧ room (set_outbound q d) n.
Proof.
  intros Hwf Hn [Hrx Hroom]. unfold send, mbind, stm_bind, lift. rewrite encode_body_wire by done. cbn [map_err].
  unfold queue_raw, queue_chunk. set (c := mkChunk _ _ _ _).
  pose proof (try_send_view (d_outbound d) c) as Hv. unfold v_try_send, v_room, queue_of in *. rewrite Hrx in Hv. cbn [negb] in Hv.
  destruct (try_send (d_outbound d) c) as [q r]. cbn [fst snd] in Hv.
  destruct (Z.leb_spec (v_capacity (view (d_outbound d))) (len (v_queued (view (d_outbound d))))); [lia|].
  injection Hv as Hq ->. exists q. split; [done|]. unfold room, queue_of. cbn [set_outbound d_outbound]. rewrite Hq. cbn.
  split; [done|]. len_lia.
Qed.

(** A step that succeeds and leaves room. *)
Definition runs {A} (m : drv A) d (n : Z) (P : A → Driver → Prop) : Prop :=
  ∃ a d', m d = Ok (a, d') ∧ room d' n ∧ P a d'.

Lemma bind_intro {A B} (m : drv A) (f : A → drv B) d a d1 r : m d = Ok (a, d1) → f a d1 = r → (m ≫= f) d = r.
Proof. unfold mbind, drv, stm_bind. by intros -> ->. Qed.

Lemma runs_ret {A} (a : A) d n (P : A → Driver → Prop) : room d n → P a d → runs (mret a) d n P.
Proof. intros Hr HP. by exists a, d. Qed.

Lemma runs_bind {A B} (m : drv A) (f : A → drv B) d n n' P Q :
  runs m d n P → (∀ a d', room d' n → P a d' → runs (f a) d' n' Q) → runs (m ≫= f) d n' Q.
Proof.
  intros (a & d' & Em & Hr & HP) Hf. destruct (Hf a d' Hr HP) as (b & d2 & Ef & Hr2 & HQ).
  exists b, d2. split; [|done]. by eapply bind_intro.
Qed.

(** An update that may send one message. *)
Lemma update_runs (b : bool) (x y : WindowStream) id m d n (P : WindowStream → Driver → Prop) :
  Message.wf m → 0 ≤ n → room d (n + 1) → P x d → (∀ q, P y (set_outbound q (put_stream id y d))) →
  runs (if b then mret x else modify (put_stream id y);; send m channel.WINDOW;; mret y) d n P.
Proof.
  intros Hwf Hn Hr Hx Hy. destruct b.
  - exists x, d. split_and!; [done|eapply room_le; [done|lia]|done].
  - destruct (send_runs m channel.WINDOW (put_stream id y d) n Hwf Hn Hr) as (q & Es & Hr').
    exists y, (set_outbound q (put_stream id y d)). split_and!; [|done|done].
    eapply bind_intro; [done|]. by eapply bind_intro.
Qed.

Lemma sync_known_runs t w d n :
  u32 (tw_window_id t) → source_ok w → 0 ≤ n → room d (n + 3) →
  runs (sync_known t w) d n (λ _ d', d_registry d' = d_registry d).
Proof.
  intros Hid (Hpid & Happ & Htitle & Hx & Hy & Hw & Hh & Hdpi & Hexcl) Hn Hr. unfold sync_known.
  eapply (runs_bind _ _ _ (n + 3) _ (λ o d', o = d_streams d !! tw_window_id t ∧ d' = d)); [by eexists _, _|].
  intros found d0 Hr0 [-> ->].
  destruct (d_streams d !! tw_window_id t) as [st|]; [|apply runs_ret; [eapply room_le; [done|lia]|done]].
  eapply (runs_bind _ _ _ (n + 2) _ (λ _ d', d_registry d' = d_registry d)).
  { apply update_runs; [exact (conj Hid Htitle)|lia|by replace (n + 2 + 1) with (n + 3) by lia|done|done]. }
  intros st1 d1 Hr1 E1. eapply (runs_bind _ _ _ (n + 1) _ (λ _ d', d_registry d' = d_registry d)).
  { apply update_runs; [exact (conj Hid (conj (show_state_u8 w) (window_flags_u32 w)))|lia| |done|done].
    by replace (n + 1 + 1) with (n + 2) by lia. }
  intros st2 d2 Hr2 E2. destruct (sw_minimized w); [apply runs_ret; [eapply room_le; [done|lia]|done]|].
  destruct (geometry_eqb _ _ && _); [apply runs_ret; [eapply room_le; [done|lia]|done]|].
  destruct (st_geometry st2) as [[[ox oy] ow] oh].
  destruct (send_runs (Message.WindowGeometry (mkWindowGeometry (tw_window_id t) (sw_x w) (sw_y w) (sw_width w) (sw_height w)))
              channel.WINDOW (put_stream (tw_window_id t) (regeometry st2 (sw_x w, sw_y w, sw_width w, sw_height w)
                (negb ((ow =? sw_width w) && (oh =? sw_height w)))) d2) n) as (q & Es & Hq); [by split_and!|done|done|].
  eexists tt, _. split_and!; [eapply bind_intro; [done|exact Es]|done|done].
Qed.

Lemma track_runs r h :
  next_window_id r + 1 < 2 ^ 32 → next_channel r + 1 < 2 ^ 16 →
  ∃ t b r', track r h = Ok (t, b, r') ∧ next_window_id r' ≤ next_window_id r + 1 ∧ next_channel r' ≤ next_channel r + 1 ∧
    (size (handle_to_window r') ≤ size (handle_to_window r) + 1)%nat.
Proof.
  intros Hi Hc. unfold track. destruct (handle_to_window r !! h) as [t|] eqn:E0.
  { exists t, false, r. split_and!; [done|lia..]. }
  unfold bump, add_uint. destruct (Z.ltb_spec (next_window_id r + 1) (2 ^ 32)); [|lia]. cbn [mbind outcome_bind].
  destruct (Z.ltb_spec (next_channel r + 1) (2 ^ 16)); [|lia].
  destruct (vec_pop (free_channels r)) as [[c free]|]; cbn [mbind outcome_bind]; eexists _, _, _; (split; [done|]); cbn;
    rewrite map_size_insert_None by done; lia.
Qed.

Lemma sync_window_runs params w d s n :
  agrees d s → source_ok w → 0 ≤ n → room d (n + 3) →
  next_window_id (d_registry d) + 1 < 2 ^ 32 → next_channel (d_registry d) + 1 < 2 ^ 16 →
  runs (sync_window params w) d n (λ _ d', next_window_id (d_registry d') ≤ next_window_id (d_registry d) + 1 ∧
    next_channel (d_registry d') ≤ next_channel (d_registry d) + 1 ∧
    (size (handle_to_window (d_registry d')) ≤ size (handle_to_window (d_registry d)) + 1)%nat).
Proof.
  intros Ha Hok Hn Hr Hi Hc. destruct (track_runs (d_registry d) (sw_handle w) Hi Hc) as (t & b & r' & Et & Hbounds).
  unfold sync_window. eapply (runs_bind _ _ _ (n + 3) _ (λ r d', r = d_registry d ∧ d' = d)); [by eexists _, _|].
  intros r d1 Hr1 [-> ->]. eapply (runs_bind _ _ _ (n + 3) _ (λ x d', x = (t, b, r') ∧ d' = d)).
  { eexists _, _. split; [unfold lift; rewrite Et; done|done]. }
  intros x d1 Hr2 [-> ->]. eapply (runs_bind _ _ _ (n + 3) _ (λ _ d', d' = set_registry r' d)); [by eexists tt, _|].
  intros [] d1 Hr3 ->. pose proof (track_cases _ _ _ _ _ (proj2 (ag_next _ _ Ha)) Et) as Hcases.
  pose proof (track_inv _ _ _ _ _ (ag_registry _ _ Ha) Et) as Hinv. destruct b.
  - destruct Hcases as (Hnone & Hmap & Hid & Hnext & Hn' & Hc').
    assert (registry_get r' (sw_handle w) = Some t) as Hget by (unfold registry_get; rewrite Hmap; apply lookup_insert_eq).
    destruct (channels_range _ _ _ Hinv Hget) as [Hrange _]. pose proof (ri_next _ (ag_registry _ _ Ha)).
    assert (Message.wf (opened_message t w)) as Hwf by (by unfold VIDEO_BASE in Hrange; apply opened_wf; [done|split; lia..]).
    destruct (send_runs (opened_message t w) channel.WINDOW (set_registry r' d) n Hwf Hn) as (q & Es & Hq);
      [eapply room_le; [done|lia]|].
    eexists tt, _. split_and!; [eapply bind_intro; [exact Es|done]|done|apply Hbounds..].
  - destruct Hcases as [-> Hget]. destruct (window_id_ok _ _ _ _ Ha Hget) as [Hid _].
    destruct (sync_known_runs t w (set_registry (d_registry d) d) n Hid Hok Hn Hr3) as ([] & d' & E1 & Hr' & Hreg).
    exists tt, d'. rewrite Hreg. split_and!; [done|done|apply Hbounds..].
Qed.

Lemma sync_live_runs params live : ∀ d s n,
  agrees d s → Forall source_ok live → NoDup (map sw_handle live) → 0 ≤ n → room d (n + 3 * len live) →
  next_window_id (d_registry d) + len live < 2 ^ 32 → next_channel (d_registry d) + len live < 2 ^ 16 →
  runs (sync_live params live) d n (λ _ d',
    (size (handle_to_window (d_registry d')) ≤ size (handle_to_window (d_registry d)) + length live)%nat).
Proof.
  induction live as [|w live IH]; intros d s n Ha Hok Hnd Hn Hr Hi Hc; cbn [sync_live map] in *.
  - apply runs_ret; [eapply room_le; [done|len_lia]|lia].
  - apply Forall_cons_1 in Hok as [Hw Hok]. apply NoDup_cons in Hnd as [Hnin Hnd]. rewrite len_cons in Hr, Hi, Hc.
    pose proof (len_nonneg live).
    destruct (sync_window_runs params w d s (n + 3 * len live) Ha Hw) as ([] & d1 & E1 & Hr1 & B1 & B2 & B3);
      [lia|eapply room_le; [done|lia]|lia|lia|].
    destruct (sync_window_spec params w d d1 s Ha Hw E1) as (ms & _ & Ha1 & _).
    destruct (IH d1 _ n Ha1 Hok Hnd Hn Hr1) as ([] & d2 & E2 & Hr2 & B4); [lia|lia|].
    exists tt, d2. split_and!; [by eapply bind_intro|done|cbn [length]; lia].
Qed.

Lemma close_gone_runs gone : ∀ d n,
  Forall (λ t, u32 (tw_window_id t)) gone → 0 ≤ n → room d (n + len gone) → runs (close_gone gone) d n (λ _ _, True).
Proof.
  induction gone as [|t gone IH]; intros d n Hids Hn Hr; cbn [close_gone].
  - apply runs_ret; [eapply room_le; [done|len_lia]|done].
  - apply Forall_cons_1 in Hids as [Hid Hids]. rewrite len_cons in Hr. pose proof (len_nonneg gone).
    eapply (runs_bind _ _ _ (n + len gone + 1) _ (λ _ d', d' = d)); [eexists _, d; split_and!; [done|eapply room_le; [done|lia]|done]|].
    intros found d0 Hr0 ->. eapply (runs_bind _ _ _ (n + len gone + 1) _ (λ _ _, True)).
    { destruct found as [st|]; [|by apply runs_ret]. eexists tt, _. split_and!; [done|by eapply room_same|done]. }
    intros [] d1 Hr1 _.
    destruct (send_runs (Message.WindowClosed (mkWindowClosed (tw_window_id t))) channel.WINDOW d1 (n + len gone) Hid)
      as (q & Es & Hq); [lia|done|].
    destruct (IH (set_outbound q d1) n Hids Hn Hq) as ([] & d2 & E2 & Hr2 & _).
    exists tt, d2. split_and!; [by eapply bind_intro|done|done].
Qed.

Lemma forget_all_length hs : ∀ r, (length (forget_all r hs).2 ≤ length hs)%nat.
Proof.
  induction hs as [|h hs IH]; intros r; [cbn; lia|]. cbn. destruct (forget r h) as [r1 o]. specialize (IH r1).
  destruct (forget_all r1 hs) as [r2 l]. cbn in *. destruct o; cbn; lia.
Qed.

(** Four messages a live window and one a window already known are enough. *)
Definition diff_need d : Z := 4 * len (live_windows (d_source d)).2 + Z.of_nat (size (handle_to_window (d_registry d))).

Lemma sync_windows_runs params order d s :
  agrees d s → ordering order → room d (diff_need d) →
  next_window_id (d_registry d) + len (live_windows (d_source d)).2 < 2 ^ 32 →
  next_channel (d_registry d) + len (live_windows (d_source d)).2 < 2 ^ 16 →
  ∃ d', sync_windows params order d = Ok (tt, d').
Proof.
  intros Ha Hord Hr Hi Hc. destruct (Hsource (d_source d)) as [Hok Hnd]. unfold sync_windows, diff_need in *.
  destruct (live_windows (d_source d)) as [src live] eqn:El. cbn [snd] in *.
  assert (agrees (set_source src d) s) as Ha0 by (by destruct Ha; split).
  destruct (sync_live_runs params live (set_source src d) s (len live + Z.of_nat (size (handle_to_window (d_registry d))))
              Ha0 Hok Hnd) as ([] & d1 & E1 & Hr1 & Hsz); [pose proof (len_nonneg live); lia|eapply room_le; [done|lia]|done|done|].
  destruct (sync_live_spec params live (set_source src d) d1 s Ha0 Hok Hnd E1) as (ms1 & _ & Ha1 & _).
  set (keys := order (handle_to_window (d_registry d1))).
  destruct (retain_live (d_registry d1) keys (map sw_handle live)) as [r2 gone] eqn:Er.
  pose proof (retain_live_spec (d_registry d1) keys (map sw_handle live) (ag_registry _ _ Ha1) (Hord _)) as Hret.
  rewrite Er in Hret. destruct Hret as (_ & _ & _ & Hgone).
  assert (length gone ≤ size (handle_to_window (d_registry d1)))%nat as Hlen.
  { unfold retain_live in Er. match type of Er with forget_all _ ?l = _ => pose proof (forget_all_length l (d_registry d1)) as Hl end.
    rewrite Er, merge_sort_Permutation in Hl. cbn in Hl. etrans; [exact Hl|]. etrans; [apply List.filter_length_le|]. unfold keys.
    rewrite (Hord _), length_fmap. by rewrite length_map_to_list. }
  destruct (close_gone_runs gone (set_registry r2 d1) 0) as ([] & d2 & E2 & _); [|done| |].
  { apply Forall_forall. intros t (h & Ht & _)%Hgone. by eapply window_id_ok. }
  { eapply room_le; [exact Hr1|]. cbn in Hsz. unfold len. lia. }
  exists d2. eapply bind_intro; [by rewrite El|]. eapply bind_intro; [exact E1|]. eapply bind_intro; [done|].
  fold keys. rewrite Er. by eapply bind_intro.
Qed.

(** ** What the client sees after a tick *)

(** The client's window is the platform's. A minimized window keeps the
    geometry it had. *)
Definition depicts (s : WindowModel) (id : Z) (w : SourceWindow) : Prop :=
  ∃ rw, windows s !! id = Some rw ∧ rw_title rw = sw_title w ∧
    rw_minimized rw = sw_minimized w ∧ rw_maximized rw = sw_maximized w ∧
    (sw_minimized w = false → (rw_x rw, rw_y rw, rw_width rw, rw_height rw) = (sw_x w, sw_y w, sw_width w, sw_height w)).

Definition exactly_depicts (s : WindowModel) (live : list SourceWindow) : Prop :=
  ∃ ids, NoDup ids ∧ Forall2 (depicts s) ids live ∧ ∀ id, id ∈ ids ↔ is_Some (windows s !! id).

Lemma reflected_depicts d s w t :
  agrees d s → source_ok w → reflected d w → registry_get (d_registry d) (sw_handle w) = Some t → depicts s (tw_window_id t) w.
Proof.
  intros Ha (_ & _ & _ & _ & _ & _ & _ & _ & Hexcl) (t' & st & E1 & E2 & Q1 & Q2 & Q3 & Q4) Ht. rewrite Ht in E1. injection E1 as <-.
  pose proof (ag_shown _ _ Ha (tw_window_id t)) as Hs. rewrite E2 in Hs. unfold depicts.
  destruct (windows s !! tw_window_id t) as [rw|]; [|done]. destruct Hs as [S1 S2 S3 S4 S5]. exists rw.
  rewrite S1, S2, S3, S4, Q1, Q2. unfold show_state. split_and!; [done|done| | |done].
  - by destruct (sw_minimized w), (sw_maximized w).
  - by destruct (sw_minimized w), (sw_maximized w).
Qed.

Lemma agrees_depicts d s live :
  agrees d s → Forall source_ok live → NoDup (map sw_handle live) → Forall (reflected d) live →
  (∀ h, registry_get (d_registry d) h ≠ None → h ∈ map sw_handle live) → exactly_depicts s live.
Proof.
  intros Ha Hok Hnd Hrefl Honly.
  set (id_of := λ w, from_option tw_window_id 0 (registry_get (d_registry d) (sw_handle w))).
  assert (∀ w, w ∈ live → ∃ t, registry_get (d_registry d) (sw_handle w) = Some t ∧ id_of w = tw_window_id t) as Hid.
  { intros w Hw. rewrite Forall_forall in Hrefl. destruct (Hrefl w Hw) as (t & st & E1 & _). exists t. unfold id_of. by rewrite E1. }
  exists (id_of <$> live). split_and!.
  - eapply NoDup_fmap_2_strong; [|by eapply NoDup_fmap_1]. intros w1 w2 H1w H2w Heq.
    destruct (Hid w1 H1w) as (t1 & E1 & I1), (Hid w2 H2w) as (t2 & E2 & I2).
    destruct (decide (sw_handle w1 = sw_handle w2)) as [Eh|Hne].
    + apply list_elem_of_lookup in H1w as [i Hi], H2w as [j Hj].
      assert (i = j) as ->; [|congruence]. eapply (NoDup_lookup _ _ _ (sw_handle w1) Hnd); rewrite list_lookup_fmap.
      * by rewrite Hi.
      * rewrite Hj. cbn. by rewrite Eh.
    + exfalso. destruct (channels_distinct _ _ _ _ _ (ag_registry _ _ Ha) E1 E2 Hne). congruence.
  - apply Forall2_fmap_l, Forall_Forall2_diag, Forall_forall. intros w Hw. destruct (Hid w Hw) as (t & E1 & Et).
    rewrite Forall_forall in Hok, Hrefl. change (depicts s (id_of w) w). rewrite Et.
    by eapply reflected_depicts; [done|apply Hok|apply Hrefl|].
  - intros id. pose proof (ag_shown _ _ Ha id) as Hs. rewrite list_elem_of_fmap. split.
    + intros (w & -> & Hw). destruct (Hid w Hw) as (t & E1 & Et). rewrite Et in *.
      destruct (ag_tracked _ _ Ha _ _ E1) as (st & E2 & _). rewrite E2 in Hs. by destruct (windows s !! tw_window_id t).
    + intros [rw Erw]. rewrite Erw in Hs. destruct (d_streams d !! id) as [st|] eqn:Est; [|done].
      apply (ag_stream _ _ Ha) in Est. assert (st_handle st ∈ map sw_handle live) as Hin by (apply Honly; by rewrite Est).
      apply list_elem_of_fmap in Hin as (w & Eh & Hw). exists w. split; [|done]. unfold id_of. by rewrite <- Eh, Est.
Qed.
End SessionFacts.

Lemma session_shown_after `{ChannelLaws OutboundChunk} {W E I : Type} `{WindowSource W} `{FrameEncoder E} `{InputSink I}
    (su : Setup) (source : W) (encoder : E) (sink : I) (hs : list happening) (order : gmap Z TrackedWindow → list Z)
    (d : Driver) (out : list OutboundChunk) :
  source_sound W → Forall happening_ok hs → ordering order →
  session su (Driver_new source encoder sink) hs = Ok (d, out) → room d (diff_need d) →
  next_window_id (d_registry d) + len (live_windows (d_source d)).2 < 2 ^ 32 →
  next_channel (d_registry d) + len (live_windows (d_source d)).2 < 2 ^ 16 →
  ∃ d', sync_windows (su_params su) order d = Ok (tt, d') ∧
    exactly_depicts (client_after (out ++ queue_of d')) (live_windows (d_source d)).2.
Proof.
  intros Hsrc Hhs Hord Hrun Hroom Hi Hc.
  pose proof (session_in_step Hsrc su hs _ _ [] _ Hhs (in_step_new source encoder sink) Hrun) as Hs. cbn [app] in Hs.
  destruct (sync_windows_runs Hsrc (su_params su) order d _ Hs Hord Hroom Hi Hc) as [d' E1]. exists d'. split; [done|].
  destruct (Hsrc (d_source d)) as [Hok Hnd].
  destruct (sync_windows_spec _ _ _ _ _ Hs Hord Hok Hnd E1) as (ms & He & Ha & Hrefl & _ & Honly).
  pose proof (emitted_in_step _ _ _ _ He Ha) as Hs'. by eapply agrees_depicts.
Qed.


(** ** Input *)

(** The calls a sink gets, as a sink that records them. *)
Inductive SinkCall : Type :=
| PointerCall (handle x y buttons wheel_x wheel_y : Z)
| KeyCall (scancode : Z) (extended pressed : bool)
| TextCall (text : list Z)
| ModifierCall (modifiers locks : Z)
| ControlCall (handle action x y width height : Z).

#[export] Instance recording_sink : InputSink (list SinkCall) := {|
  pointer_event i h x y b wx wy := i ++ [PointerCall h x y b wx wy];
  key_event i s e p := i ++ [KeyCall s e p];
  text_input i t := i ++ [TextCall t];
  modifier_sync i m l := i ++ [ModifierCall m l];
  window_control i h a x y w hh := i ++ [ControlCall h a x y w hh]
|}.

(** What a message may do to the guest, given who is who. *)
Definition input_calls (fs : Features) (r : WindowRegistry) (m : Message.t) : list SinkCall :=
  match m with
  | Message.PointerEvent p =>
    match id_to_handle r !! pe_window_id p with
    | Some h => [PointerCall h (pe_x p) (pe_y p) (pe_buttons p) (pe_wheel_x p) (pe_wheel_y p)]
    | None => []
    end
  | Message.KeyEvent k =>
    [KeyCall (ke_scancode k) (has_flag (ke_flags k) key_flag.EXTENDED) (has_flag (ke_flags k) key_flag.PRESSED)]
  | Message.TextInput t => if text_input_enabled fs then [TextCall (ti_text t)] else []
  | Message.ModifierSync m => [ModifierCall (ms_modifiers m) (ms_locks m)]
  | Message.WindowControl w =>
    match id_to_handle r !! wc_window_id w with
    | Some h => if window_control_enabled fs
                then [ControlCall h (wc_action w) (wc_x w) (wc_y w) (wc_width w) (wc_height w)] else []
    | None => []
    end
  | _ => []
  end.

Section InputFacts.
Context `{ChannelLaws OutboundChunk} {W E : Type} `{WindowSource W} `{FrameEncoder E}.
Implicit Types d : Driver (W:=W) (E:=E) (I:=list SinkCall).

(** The windows of the loop are those of the registry. *)
Lemma stream_handle d s id : agrees d s → st_handle <$> d_streams d !! id = id_to_handle (d_registry d) !! id.
Proof.
  intros Ha. destruct (d_streams d !! id) as [st|] eqn:Est; cbn.
  - apply (ag_stream _ _ Ha) in Est. unfold registry_get in Est. by apply (ri_inverse _ (ag_registry _ _ Ha)) in Est.
  - destruct (id_to_handle (d_registry d) !! id) as [h|] eqn:Eh; [|done].
    destruct (ri_inverse' _ (ag_registry _ _ Ha) _ _ Eh) as (t & Et & Eid).
    destruct (ag_tracked _ _ Ha _ _ Et) as (st & E1 & _). rewrite Eid in E1. congruence.
Qed.

Lemma stream_shown d s id : agrees d s → is_Some (id_to_handle (d_registry d) !! id) ↔ is_Some (windows s !! id).
Proof.
  intros Ha. rewrite <- (stream_handle _ _ _ Ha), fmap_is_Some. pose proof (ag_shown _ _ Ha id) as Hs.
  destruct (d_streams d !! id), (windows s !! id); by cbn in *.
Qed.

Lemma incoming_calls fs now m d ends d' s :
  agrees d s → on_incoming fs now m d = Ok (ends, d') → d_sink d' = d_sink d ++ input_calls fs (d_registry d) m.
Proof.
  intros Ha Hrun. unfold on_incoming in Hrun. destruct m;
    cbn [input_calls]; try (injection Hrun as _ <-; by rewrite ?app_nil_r).
  - apply bind_Ok in Hrun as ([] & d1 & E1 & Hrun). injection Hrun as _ <-. unfold send in E1.
    apply bind_Ok in E1 as (body & d2 & E2 & E1). apply lift_Ok in E2 as [-> _]. rewrite app_nil_r.
    unfold queue_raw, queue_chunk in E1. destruct (try_send _ _) as [q []]; [|done..]. by injection E1 as <-.
  - apply bind_Ok in Hrun as (found & d1 & E1 & Hrun). injection E1 as <- <-. rewrite app_nil_r.
    by destruct (d_streams d !! fa_window_id m); injection Hrun as _ <-.
  - apply bind_Ok in Hrun as (found & d1 & E1 & Hrun). injection E1 as <- <-. rewrite <- (stream_handle _ _ _ Ha).
    by destruct (d_streams d !! pe_window_id m); injection Hrun as _ <-; cbn; rewrite ?app_nil_r.
  - by destruct (text_input_enabled fs); injection Hrun as _ <-; cbn; rewrite ?app_nil_r.
  - rewrite <- (stream_handle _ _ _ Ha). destruct (window_control_enabled fs); cbn [negb] in Hrun.
    + apply bind_Ok in Hrun as (found & d1 & E1 & Hrun). injection E1 as <- <-.
      by destruct (d_streams d !! wc_window_id m); injection Hrun as _ <-; cbn; rewrite ?app_nil_r.
    + injection Hrun as _ <-. by destruct (d_streams d !! wc_window_id m); cbn; rewrite ?app_nil_r.
Qed.

Definition is_ping (m : Message.t) : bool := match m with Message.Ping _ => true | _ => false end.

(** Only a [Ping] can fail: it is the only message answered. *)
Lemma incoming_runs fs now m d :
  is_ping m = false → ∃ ends d', on_incoming fs now m d = Ok (ends, d').
Proof.
  intros Hp. unfold on_incoming. destruct m; try done; cbn in Hp; try (by eexists _, _);
    unfold mbind, stm_bind, gets, mret, stm_ret; cbn -[on_ack].
  - by destruct (d_streams d !! fa_window_id m); eexists _, _.
  - by destruct (d_streams d !! pe_window_id m); eexists _, _.
  - by destruct (text_input_enabled fs); eexists _, _.
  - destruct (window_control_enabled fs); cbn; [|by eexists _, _].
    by destruct (d_streams d !! wc_window_id m); eexists _, _.
Qed.
End InputFacts.

(** C35: however the session went, a message other than [Ping] is handled
    without an error and reaches the guest as exactly the calls its kind allows:
    pointer events and window commands only go to the handle registered under
    the id they name, which is an id the client has been told of, text and window
    commands only pass when their feature was negotiated, everything else
    injects nothing. *)
Theorem input_reaches_known_windows `{ChannelLaws OutboundChunk} {W E : Type} `{WindowSource W} `{FrameEncoder E}
    (su : Setup) (source : W) (encoder : E) (hs : list happening) (d : Driver) (out : list OutboundChunk)
    (now_us : Z) (m : Message.t) :
  source_sound W → Forall happening_ok hs → session su (Driver_new source encoder ([] : list SinkCall)) hs = Ok (d, out) →
  is_ping m = false →
  ∃ ends d', on_incoming (su_features su) now_us m d = Ok (ends, d') ∧
    d_sink d' = d_sink d ++ input_calls (su_features su) (d_registry d) m ∧
    ∀ id, is_Some (id_to_handle (d_registry d) !! id) ↔ is_Some (windows (client_after (out ++ queue_of d)) !! id).
Proof.
  intros Hsrc Hhs Hrun Hm.
  pose proof (session_in_step Hsrc su hs _ _ [] _ Hhs (in_step_new source encoder []) Hrun) as Hs. cbn [app] in Hs.
  destruct (incoming_runs (su_features su) now_us m d Hm) as (ends & d' & Ei). exists ends, d'. split_and!; [done| |].
  - by eapply incoming_calls.
  - intros id. by eapply stream_shown.
Qed.

(** ** A full queue *)

(** The writer is there but no chunk fits. *)
Definition queue_full `{Channel OutboundChunk} {W E I : Type} `{WindowSource W} `{FrameEncoder E} `{InputSink I}
    (d : Driver (W:=W) (E:=E) (I:=I)) : Prop :=
  v_rx (view (d_outbound d)) = true ∧ v_capacity (view (d_outbound d)) ≤ len (queue_of d).

(** What a full outbound queue does depends on what was to be sent: a tick
    leaves every window's frame out and goes on, but the answer to a [Ping] is
    an error, which ends the session. *)
Theorem full_queue_ends_session `{ChannelLaws OutboundChunk} {W E I : Type} `{WindowSource W} `{FrameEncoder E} `{InputSink I}
    (fs : Features) (c : Z) (readings : Z → Z * Z) (now_us : Z) (p : Ping) (d : Driver (W:=W) (E:=E) (I:=I)) :
  queue_full d → Message.wf (Message.Pong (mkPong (ping_seq p) (ping_sent_us p) now_us)) →
  pump_frames c readings d = Ok (tt, d) ∧ on_incoming fs now_us (Message.Ping p) d = Err WouldBlock.
Proof.
  intros [Hrx Hfull] Hwf. assert (v_room (view (d_outbound d)) = Full) as Hroom.
  { unfold v_room. rewrite Hrx. cbn. unfold queue_of in Hfull. by case_if; [|lia]. }
  split.
  - unfold pump_frames. eapply bind_intro; [done|]. generalize (stream_ids (d_streams d)) as ids.
    induction ids as [|id ids IH]; [done|]. cbn [pump_ids]. eapply bind_intro; [|exact IH].
    unfold pump_frame. eapply bind_intro; [done|]. destruct (d_streams d !! id) as [st|]; [|done].
    destruct (st_show_state st =? _); [done|]. apply (bind_intro _ _ _ false d); [|done].
    unfold reserve_frame_slot. by rewrite try_reserve_view, Hroom.
  - unfold on_incoming, send, mbind, stm_bind, lift. rewrite encode_body_wire by done. cbn [map_err].
    unfold queue_raw, queue_chunk. set (k := mkChunk _ _ _ _).
    pose proof (try_send_view (d_outbound d) k) as Hv. unfold v_try_send in Hv. rewrite Hroom in Hv.
    destruct (try_send (d_outbound d) k) as [q r]. cbn in Hv. by injection Hv as _ ->.
Qed.

(** ** A platform to run it on *)

Module Demo.
(** One window throughout; every other tick it is elsewhere under another
    title, and a second one, minimized, is there. *)
Definition at_home : SourceWindow := mkSourceWindow 10 7 [97] [65] 5 6 300 200 96 false false true true false.
Definition away : SourceWindow := mkSourceWindow 10 7 [97] [66; 67] (-8) 6 301 200 96 false true true true false.
Definition extra : SourceWindow := mkSourceWindow 20 9 [98] [] 0 0 160 28 96 true false true true true.

Definition scene (n : nat) : list SourceWindow := if Nat.even n then [at_home] else [away; extra].

#[export] Instance demo_source : WindowSource nat := {|
  live_windows n := (S n, scene n);
  next_frame n h intent := (n, Some (Serve.bgra 1 1 [1; 2; 3; 255]))
|}.

#[export] Instance demo_encoder : FrameEncoder unit := {|
  enc_submit e h f k := e; enc_poll e h := (e, None); enc_forget e h := e;
  wants_cpu_frame e h w hh := true; enc_failed e h := true
|}.

Definition by_handle (m : gmap Z TrackedWindow) : list Z := (map_to_list m).*1.
Definition tick : happening := Tick by_handle (λ _, (1000, 2000)).
Definition setup : Setup := mkSetup SessionParams_default codec.RAW_BGRA (mkFeatures true false).
Definition start : Driver := Driver_new 0%nat tt ([] : list SinkCall).

(** What is left of a run that went well. *)
Definition after (hs : list happening) : Driver * list OutboundChunk :=
  match session setup start hs with Ok x => x | _ => (start, []) end.

Lemma source_ok_scene n : Forall source_ok (scene n) ∧ NoDup (map sw_handle (scene n)).
Proof.
  unfold scene. destruct (Nat.even n); (split; [repeat constructor; vm_compute; intuition congruence|]).
  - apply NoDup_singleton.
  - by apply (bool_decide_unpack _).
Qed.

Lemma demo_sound : source_sound nat.
Proof. intros n. apply source_ok_scene. Qed.

Lemma by_handle_ordering : ordering by_handle.
Proof. intros m. done. Qed.
End Demo.
Import Demo.


(** A click in the window that is there, under its id. *)
Lemma input_reaches_known_windows_witness :
  let d := (after [tick]).1 in
  let click := Message.PointerEvent (mkPointerEvent 1 3 4 1 0 0 9) in
  ∃ ends d', on_incoming (su_features setup) 0 click d = Ok (ends, d') ∧
    d_sink d' = [PointerCall 10 3 4 1 0 0] ∧
    ∀ id, is_Some (id_to_handle (d_registry d) !! id) ↔ is_Some (windows (client_after (queue_of d)) !! id).
Proof.
  intros d click.
  replace [PointerCall 10 3 4 1 0 0] with (d_sink d ++ input_calls (su_features setup) (d_registry d) click)
    by (vm_compute; reflexivity).
  apply (input_reaches_known_windows setup 0%nat tt [tick] d []).
  - exact demo_sound.
  - repeat constructor; exact by_handle_ordering.
  - vm_compute. reflexivity.
  - reflexivity.
Defined.

(** A client that does not read: thirteen frames of one window wait in the
    queue, with a budget of two, and the [Ping] that finds it full is fatal. *)
Lemma full_queue_ends_session_witness :
  let ping := mkPing 1 2 in
  let probe := Incoming 3 (Message.Ping ping) in
  let d := (after (repeat tick 13 ++ [probe; probe])).1 in
  (len (queue_of d) = OUTBOUND_QUEUE_CAPACITY ∧
   len (List.filter (λ c, oc_msg_type c =? msg_type.FRAME_DATA) (queue_of d)) = 13 ∧ max_frames_in_flight SessionParams_default = 2) ∧
  (pump_frames codec.RAW_BGRA (λ _, (0, 0)) d = Ok (tt, d) ∧
   on_incoming (su_features setup) 3 (Message.Ping ping) d = Err WouldBlock).
Proof.
  intros ping probe d. split; [vm_compute; split_and!; reflexivity|].
  apply (full_queue_ends_session (su_features setup) codec.RAW_BGRA (λ _, (0, 0)) 3 ping d).
  - vm_compute. split; [reflexivity|congruence].
  - vm_compute. intuition congruence.
Defined.
