(* ===== verification/Text.v ===== *)
(** * Text

    The string methods of Rust's standard library that configuration and token
    files are read with, on UTF-8 bytes: [trim], [trim_end], [lines],
    [split_once], [strip_prefix] and the parser of unsigned numbers. *)

From S2P Require Import Prelude.

(** ** White space *)

(** The characters of [char::is_whitespace], encoded. *)
Definition WHITE_SPACE : list (list Z) :=
  [[0x09]; [0x0A]; [0x0B]; [0x0C]; [0x0D]; [0x20]; [0xC2; 0x85]; [0xC2; 0xA0]; [0xE1; 0x9A; 0x80];
   [0xE2; 0x80; 0x80]; [0xE2; 0x80; 0x81]; [0xE2; 0x80; 0x82]; [0xE2; 0x80; 0x83]; [0xE2; 0x80; 0x84]; [0xE2; 0x80; 0x85];
   [0xE2; 0x80; 0x86]; [0xE2; 0x80; 0x87]; [0xE2; 0x80; 0x88]; [0xE2; 0x80; 0x89]; [0xE2; 0x80; 0x8A];
   [0xE2; 0x80; 0xA8]; [0xE2; 0x80; 0xA9]; [0xE2; 0x80; 0xAF]; [0xE2; 0x81; 0x9F]; [0xE3; 0x80; 0x80]].

Fixpoint starts_with (pre text : list Z) : bool :=
  match pre, text with
  | [], _ => true
  | p :: pre, t :: text => (p =? t) && starts_with pre text
  | _ :: _, [] => false
  end.

(** How many bytes of white space, one of [white], a text starts with. *)
Definition white_at (white : list (list Z)) (text : list Z) : nat :=
  match List.find (λ c, starts_with c text) white with Some c => length c | None => 0 end.

Fixpoint skip_white (white : list (list Z)) (fuel : nat) (text : list Z) : list Z :=
  match fuel, white_at white text with
  | S fuel, S n => skip_white white fuel (drop (S n) text)
  | _, _ => text
  end.

(** The end is read backwards; no character's encoding ends another's. *)
Definition trim_start (text : list Z) : list Z := skip_white WHITE_SPACE (length text) text.
Definition trim_end (text : list Z) : list Z := rev (skip_white (rev (A:=Z) <$> WHITE_SPACE) (length text) (rev text)).
Definition trim (text : list Z) : list Z := trim_end (trim_start text).

(** ** Lines and keys *)

Definition strip_prefix (pre text : list Z) : option (list Z) :=
  if starts_with pre text then Some (drop (length pre) text) else None.

(** A line's ending; [rev_line] is the line backwards, without its line feed. *)
Definition strip_cr (rev_line : list Z) : list Z :=
  match rev_line with c :: rest => rev (if c =? 0x0D then rest else rev_line) | [] => [] end.

Fixpoint lines_from (text rev_line : list Z) : list (list Z) :=
  match text with
  | [] => match rev_line with [] => [] | _ => [rev rev_line] end
  | c :: text => if c =? 0x0A then strip_cr rev_line :: lines_from text [] else lines_from text (c :: rev_line)
  end.

Definition lines (text : list Z) : list (list Z) := lines_from text [].

Fixpoint split_once (sep : Z) (text : list Z) : option (list Z * list Z) :=
  match text with
  | [] => None
  | c :: text =>
    if c =? sep then Some ([], text)
    else match split_once sep text with Some (key, value) => Some (c :: key, value) | None => None end
  end.

(** ** Numbers *)

Fixpoint parse_digits (w acc : Z) (text : list Z) : option Z :=
  match text with
  | [] => Some acc
  | c :: text =>
    if between 0x30 0x39 c then
      let acc := acc * 10 + (c - 0x30) in
      if acc <? 2 ^ w then parse_digits w acc text else None
    else None
  end.

(** [str::parse] of an unsigned integer of [w] bits: a plus sign is taken. *)
Definition parse_uint (w : Z) (text : list Z) : option Z :=
  match text with
  | [] => None
  | c :: rest =>
    if c =? 0x2B then match rest with [] => None | _ => parse_digits w 0 rest end
    else parse_digits w 0 text
  end.

(** ** Lemmas *)

Lemma skip_white_spec white fuel text :
  (length text ≤ fuel)%nat →
  white_at white (skip_white white fuel text) = 0%nat ∧ ∃ skipped, text = skipped ++ skip_white white fuel text.
Proof.
  revert text. induction fuel as [|fuel IH]; intros text Hf.
  - destruct text; [|cbn in Hf; lia]. split; [|by exists []]. cbn. unfold white_at.
    destruct (List.find _ white) as [c|] eqn:Hc; [|done]. apply List.find_some in Hc as [_ Hc]. by destruct c.
  - cbn [skip_white]. destruct (white_at white text) as [|n] eqn:Hw; [by split; [|exists []]|].
    destruct text as [|b text].
    + cbn [drop]. apply (IH []). cbn. lia.
    + cbn [drop]. destruct (IH (drop n text)) as (Hz & skipped & Hd); [rewrite length_drop; cbn in Hf; lia|].
      split; [done|]. exists (b :: take n text ++ skipped). cbn. by rewrite <- app_assoc, <- Hd, take_drop.
Qed.

(** The trimmed text is a start of the text with no white space at its end. *)
Lemma trim_end_spec text :
  white_at (rev (A:=Z) <$> WHITE_SPACE) (rev (trim_end text)) = 0%nat ∧ ∃ white, text = trim_end text ++ white.
Proof.
  unfold trim_end. rewrite rev_involutive.
  destruct (skip_white_spec (rev (A:=Z) <$> WHITE_SPACE) (length text) (rev text)) as (? & white & Hw);
    [by rewrite length_rev|]. split; [done|].
  exists (rev white). by rewrite <- rev_app_distr, <- Hw, rev_involutive.
Qed.

Lemma parse_digits_range w acc text n : 0 ≤ acc → acc < 2 ^ w → parse_digits w acc text = Some n → is_uint w n.
Proof.
  revert acc. induction text as [|c text IH]; intros acc Ha Hw; cbn [parse_digits].
  - intros [= <-]. done.
  - unfold between. repeat case_match; try done. intros Hn. eapply IH; [| |exact Hn]; [|by apply Z.ltb_lt].
    rewrite andb_true_iff, !Z.leb_le in *. lia.
Qed.

Lemma parse_uint_range w text n : 0 ≤ w → parse_uint w text = Some n → is_uint w n.
Proof.
  intros Hw. assert (0 < 2 ^ w) by (apply Z.pow_pos_nonneg; lia). unfold parse_uint. intros Hn.
  repeat case_match; try done; eapply parse_digits_range; [| |exact Hn| | |exact Hn]; lia.
Qed.

Lemma split_once_spec sep text key value : split_once sep text = Some (key, value) → text = key ++ sep :: value ∧ sep ∉ key.
Proof.
  revert key. induction text as [|c text IH]; intros key; cbn [split_once]; [done|].
  destruct (Z.eqb_spec c sep) as [->|Hne].
  - intros [= <- <-]. split; [done|]. apply not_elem_of_nil.
  - destruct (split_once sep text) as [[k v]|]; [|done]. intros [= <- <-]. destruct (IH k eq_refl) as [-> Hk].
    split; [done|]. rewrite not_elem_of_cons. split; [congruence|done].
Qed.

Lemma split_once_none sep text : split_once sep text = None → sep ∉ text.
Proof.
  induction text as [|c text IH]; cbn [split_once]; [intros _; apply not_elem_of_nil|].
  destruct (Z.eqb_spec c sep) as [->|Hne]; [done|]. destruct (split_once sep text) as [[k v]|]; [done|]. intros _.
  rewrite not_elem_of_cons. split; [congruence|by apply IH].
Qed.

Lemma strip_prefix_app pre text : strip_prefix pre (pre ++ text) = Some text.
Proof.
  unfold strip_prefix. assert (starts_with pre (pre ++ text) = true) as ->.
  - induction pre as [|p pre IH]; [done|]. cbn. by rewrite Z.eqb_refl.
  - by rewrite drop_app_length.
Qed.
