(* ===== verification/Security.v ===== *)
(** * Tokens, pins and identities

    [crates/oxsec/src/lib.rs]: the comparison of tokens, the pin of a key in
    hexadecimal and its verifier, the PEM writer, and the identity kept in two
    files. TLS, certificates and hashes are third-party code: the classes
    [Certificates] and [Files] stand for them and for the file system. *)

From S2P Require Import Prelude Text.

(** ** Tokens *)

(** The loop over [expected]; [index] counts. *)
Fixpoint token_diff (expected presented : list Z) (index : nat) (diff : Z) : Z :=
  match expected with
  | [] => diff
  | expected_byte :: expected =>
    let presented_byte := default 0 (presented !! index) in
    token_diff expected presented (S index) (Z.lor diff (Z.lxor expected_byte presented_byte))
  end.

Definition verify_token (expected presented : list Z) : bool :=
  let diff := Z.lxor (len expected) (len presented) in
  token_diff expected presented 0 diff =? 0.

(** ** Pins *)

Definition hex_value (byte : Z) : option Z :=
  if between 0x30 0x39 byte then Some (byte - 0x30)
  else if between 0x61 0x66 byte then Some (byte - 0x61 + 10)
  else None.

(** Errors of other crates are their texts. *)
Inductive SecError : Type :=
| Io (message : list Z)
| CertGeneration (message : list Z)
| Pem (message : list Z)
| Rustls (message : list Z)
| IncompleteIdentityFiles
| InvalidKey (message : list Z)
| InvalidPin
| InvalidCertificate
| EmptyToken.

(** [chunks_exact(2)] of the digits, each pair an octet. *)
Fixpoint hex_pairs (hex : list Z) : outcome SecError (list Z) :=
  match hex with
  | h :: l :: hex =>
    high ← ok_or (hex_value h) InvalidPin;
    low ← ok_or (hex_value l) InvalidPin;
    rest ← hex_pairs hex;
    Ok (Z.lor (as_uint 8 (Z.shiftl high 4)) low :: rest)
  | _ => Ok []
  end.

Definition hex_decode_pin (hex : list Z) : outcome SecError (list Z) :=
  if negb (len hex =? 64) then Err InvalidPin else hex_pairs hex.

(** [{byte:02x}] *)
Definition hex_digit (n : Z) : Z := if n <? 10 then 0x30 + n else 0x61 + (n - 10).
Definition hex_encode (bytes : list Z) : list Z := flat_map (λ b, [hex_digit (b / 16); hex_digit (b mod 16)]) bytes.

(** [left[index] ^ right[index]] for each index of [left]. *)
Definition ct_eq (left right : list Z) : bool :=
  fold_left (λ diff p, Z.lor diff (Z.lxor p.1 p.2)) (zip left right) 0 =? 0.

(** ** PEM *)

Definition TABLE : list Z := bytes_of_string "ABCDEFGHIJKLMNOPQRSTUVWXYZabcdefghijklmnopqrstuvwxyz0123456789+/".

(** [TABLE[((value >> shift) & 0x3f)]], whose index is in range. *)
Definition sextet (value shift : Z) : Z := nth (Z.to_nat (Z.land (Z.shiftr value shift) 0x3f)) TABLE 0.

Arguments sextet : simpl never.

Definition pem_char_pad : Z := 0x3D.

Fixpoint pem_body (der : list Z) : list Z :=
  match der with
  | [] => []
  | [first] =>
    let value := Z.lor (Z.lor (Z.shiftl first 16) (Z.shiftl 0 8)) 0 in
    [sextet value 18; sextet value 12; pem_char_pad; pem_char_pad]
  | [first; second] =>
    let value := Z.lor (Z.lor (Z.shiftl first 16) (Z.shiftl second 8)) 0 in
    [sextet value 18; sextet value 12; sextet value 6; pem_char_pad]
  | first :: second :: third :: der =>
    let value := Z.lor (Z.lor (Z.shiftl first 16) (Z.shiftl second 8)) third in
    sextet value 18 :: sextet value 12 :: sextet value 6 :: sextet value 0 :: pem_body der
  end.

(** [chunks(64)]; the fuel is the number of characters. *)
Fixpoint chunks64 (fuel : nat) (body : list Z) : list (list Z) :=
  match fuel, body with
  | S fuel, _ :: _ => take 64 body :: chunks64 fuel (drop 64 body)
  | _, _ => []
  end.

Definition newline : list Z := [0x0A].

Definition pem_block (label der : list Z) : list Z :=
  let body := pem_body der in
  bytes_of_string "-----BEGIN " ++ label ++ bytes_of_string "-----" ++ newline ++
  flat_map (λ line, line ++ newline) (chunks64 (length body) body) ++
  bytes_of_string "-----END " ++ label ++ bytes_of_string "-----" ++ newline.

(** ** Identities *)

Record AgentIdentity : Type := mkIdentity { cert_der : list Z; key_der : list Z }.

(** [rcgen], [rustls] and [sha2]: a fresh self-signed identity, the
    SubjectPublicKeyInfo of a certificate, SHA-256, and the builders of the
    two TLS configurations. *)
Class Certificates (R : Type) : Type := {
  self_signed : R → list Z → R * outcome (list Z) AgentIdentity;
  subject_public_key_info : list Z → option (list Z);
  sha256 : list Z → list Z;
  with_safe_default_protocol_versions : outcome (list Z) unit;
  private_key_try_from : list Z → outcome (list Z) (list Z);
  with_single_cert : list Z → list Z → outcome (list Z) unit
}.

Class Files (F : Type) : Type := {
  fs_exists : F → list Z → bool;
  fs_read_to_string : F → list Z → outcome (list Z) (list Z);
  fs_write : F → list Z → list Z → F * outcome (list Z) unit;
  fs_set_permissions : F → list Z → Z → F * outcome (list Z) unit;
  (** [CertificateDer::from_pem_file] and [PrivateKeyDer::from_pem_file]. *)
  cert_from_pem_file : F → list Z → outcome (list Z) (list Z);
  key_from_pem_file : F → list Z → outcome (list Z) (list Z)
}.

Section Identity.
Context `{Certificates R} `{Files F} (unix : bool).

Definition CERTIFICATE : list Z := bytes_of_string "CERTIFICATE".
Definition PRIVATE_KEY : list Z := bytes_of_string "PRIVATE KEY".

Definition generate (rng : R) (subject : list Z) : R * outcome SecError AgentIdentity :=
  let '(rng, r) := self_signed rng subject in (rng, map_err CertGeneration r).

(** Both versions, by platform; [0o600]. *)
Definition restrict_key_permissions (files : F) (path : list Z) : F * outcome SecError unit :=
  if unix then let '(files, r) := fs_set_permissions files path 0x180 in (files, map_err Io r)
  else (files, Ok ()).

Definition load_or_generate (rng : R) (files : F) (cert_path key_path subject : list Z) : R * F * outcome SecError AgentIdentity :=
  match fs_exists files cert_path, fs_exists files key_path with
  | true, true =>
    (rng, files,
     cert ← map_err Pem (cert_from_pem_file files cert_path);
     key ← map_err Pem (key_from_pem_file files key_path);
     Ok (mkIdentity cert key))
  | false, false =>
    let '(rng, r) := generate rng subject in
    match r with
    | Err e => (rng, files, Err e)
    | Panic => (rng, files, Panic)
    | Ok identity =>
      match fs_write files cert_path (pem_block CERTIFICATE (cert_der identity)) with
      | (files, Ok _) =>
        match fs_write files key_path (pem_block PRIVATE_KEY (key_der identity)) with
        | (files, Ok _) =>
          match restrict_key_permissions files key_path with
          | (files, Ok _) => (rng, files, Ok identity)
          | (files, Err e) => (rng, files, Err e)
          | (files, Panic) => (rng, files, Panic)
          end
        | (files, Err e) => (rng, files, Err (Io e))
        | (files, Panic) => (rng, files, Panic)
        end
      | (files, Err e) => (rng, files, Err (Io e))
      | (files, Panic) => (rng, files, Panic)
      end
    end
  | _, _ => (rng, files, Err IncompleteIdentityFiles)
  end.

Definition spki_pin_from_cert (cert : list Z) : outcome SecError (list Z) :=
  match subject_public_key_info cert with Some spki => Ok (sha256 spki) | None => Err InvalidCertificate end.

Definition spki_pin (identity : AgentIdentity) : outcome SecError (list Z) :=
  pin ← spki_pin_from_cert (cert_der identity); Ok (hex_encode pin).

Definition PinnedServerVerifier_new (spki_pin_hex : list Z) : outcome SecError (list Z) := hex_decode_pin spki_pin_hex.

(** A configuration of the client is its verifier's pin. *)
Definition client_config_pinned (spki_pin_hex : list Z) : outcome SecError (list Z) :=
  verifier ← PinnedServerVerifier_new spki_pin_hex;
  _ ← map_err Rustls with_safe_default_protocol_versions;
  Ok verifier.

(** One of the server is its certificate and key. *)
Definition server_config (identity : AgentIdentity) : outcome SecError (list Z * list Z) :=
  key ← map_err InvalidKey (private_key_try_from (key_der identity));
  _ ← map_err Rustls with_safe_default_protocol_versions;
  _ ← map_err Rustls (with_single_cert (cert_der identity) key);
  Ok (cert_der identity, key).

(** The two errors of [verify_server_cert]. *)
Inductive RustlsError : Type := BadEncoding | ApplicationVerificationFailure.

Definition verify_server_cert (pin : list Z) (end_entity : list Z) : outcome RustlsError unit :=
  actual_pin ← match spki_pin_from_cert end_entity with Ok p => Ok p | Err _ => Err BadEncoding | Panic => Panic end;
  if ct_eq pin actual_pin then Ok () else Err ApplicationVerificationFailure.

Definition load_token (files : F) (path : list Z) : outcome SecError (list Z) :=
  text ← map_err Io (fs_read_to_string files path);
  let token := trim_end text in
  match token with [] => Err EmptyToken | _ => Ok token end.
End Identity.

(** ** Tokens: lemmas *)

Lemma token_diff_zero expected presented i d :
  token_diff expected presented i d = 0 ↔
  d = 0 ∧ ∀ k b, expected !! k = Some b → default 0 (presented !! (i + k)%nat) = b.
Proof.
  revert i d. induction expected as [|b expected IH]; intros i d; cbn [token_diff].
  - naive_solver.
  - rewrite IH, Z.lor_eq_0_iff, Z.lxor_eq_0_iff. split.
    + intros [[-> ->] Hk]. split; [done|]. intros [|k] b' Hb.
      * injection Hb as <-. by rewrite Nat.add_0_r.
      * rewrite <- (Hk k b' Hb). do 2 f_equal. lia.
    + intros [-> Hk]. split; [split; [done|]|].
      * rewrite <- (Hk 0%nat b eq_refl). by rewrite Nat.add_0_r.
      * intros k b' Hb. rewrite <- (Hk (S k) b' Hb). do 2 f_equal. lia.
Qed.

(** The comparison of tokens accepts exactly the expected one: a prefix, an
    extension by zeros, and a token that differs anywhere are all refused,
    though no comparison stops early. *)
Lemma verify_token_exact expected presented :
  verify_token expected presented = true ↔ expected = presented.
Proof.
  unfold verify_token. rewrite Z.eqb_eq, token_diff_zero, Z.lxor_eq_0_iff. cbn [Nat.add].
  split; [|intros ->; split; [done|]; intros k b ->; done].
  intros [Hlen Hk]. apply list_eq_same_length with (length presented); [done| |].
  - apply Nat2Z.inj. exact Hlen.
  - intros k x y _ Hx Hy. specialize (Hk k x Hx). rewrite Hy in Hk. done.
Qed.

(** ** Pins: lemmas *)

Lemma hex_value_digit n : 0 ≤ n < 16 → hex_value (hex_digit n) = Some n.
Proof.
  intros. unfold hex_value, hex_digit, between.
  repeat case_match; rewrite ?andb_true_iff, ?andb_false_iff, ?Z.leb_le, ?Z.leb_gt, ?Z.ltb_lt, ?Z.ltb_ge in *;
    f_equal; lia.
Qed.

Lemma hex_value_inv b n : hex_value b = Some n → 0 ≤ n < 16 ∧ hex_digit n = b.
Proof.
  unfold hex_value, hex_digit, between.
  repeat case_match; rewrite ?andb_true_iff, ?andb_false_iff, ?Z.leb_le, ?Z.leb_gt, ?Z.ltb_lt, ?Z.ltb_ge in *;
    intros [= <-]; lia.
Qed.

Lemma nibbles h l : 0 ≤ h < 16 → 0 ≤ l < 16 → Z.lor (as_uint 8 (Z.shiftl h 4)) l = 16 * h + l.
Proof.
  intros. unfold as_uint. rewrite Z.mod_small, lor_shiftl_add; rewrite ?Z.shiftl_mul_pow2; lia.
Qed.

Lemma len_hex_encode bytes : length (hex_encode bytes) = (2 * length bytes)%nat.
Proof. induction bytes as [|b bytes IH]; [done|]. cbn [hex_encode flat_map app length] in *. unfold hex_encode in IH. lia. Qed.

Lemma hex_pairs_encode bytes : Forall u8 bytes → hex_pairs (hex_encode bytes) = Ok bytes.
Proof.
  induction 1 as [|b bytes Hb Hbs IH]; [done|]. unfold is_uint in Hb.
  change (hex_encode (b :: bytes)) with (hex_digit (b / 16) :: hex_digit (b mod 16) :: hex_encode bytes).
  cbn [hex_pairs]. rewrite !hex_value_digit by (Z.to_euclidean_division_equations; lia).
  cbn. unfold hex_encode in *. rewrite IH. cbn. rewrite nibbles by (Z.to_euclidean_division_equations; lia).
  do 2 f_equal. Z.to_euclidean_division_equations; lia.
Qed.

Lemma hex_pairs_inv n hex bytes :
  length hex = (2 * n)%nat → hex_pairs hex = Ok bytes →
  length bytes = n ∧ Forall u8 bytes ∧ hex_encode bytes = hex.
Proof.
  revert hex bytes. induction n as [|n IH]; intros [|h [|l hex]] bytes Hlen; cbn in Hlen; try lia; cbn [hex_pairs].
  - by intros [= <-].
  - destruct (hex_value h) as [x|] eqn:Hx, (hex_value l) as [y|] eqn:Hy; try done. cbn.
    destruct (hex_pairs hex) as [rest| |] eqn:Hr; try done. cbn. intros [= <-].
    apply hex_value_inv in Hx as [? <-], Hy as [? <-].
    destruct (IH hex rest ltac:(lia) Hr) as (<- & ? & Hhex). rewrite nibbles by lia.
    split; [done|]. split.
    + constructor; [unfold is_uint; lia|done].
    + change (hex_digit ((16 * x + y) / 16) :: hex_digit ((16 * x + y) mod 16) :: hex_encode rest
              = hex_digit x :: hex_digit y :: hex).
      rewrite Hhex. do 2 f_equal; [|f_equal]; f_equal; Z.to_euclidean_division_equations; lia.
Qed.

Lemma hex_decode_pin_spec hex pin :
  hex_decode_pin hex = Ok pin ↔ length pin = 32%nat ∧ Forall u8 pin ∧ hex = hex_encode pin.
Proof.
  unfold hex_decode_pin. split.
  - destruct (len hex =? 64) eqn:Hl; [|done]. apply Z.eqb_eq in Hl. intros Hp.
    destruct (hex_pairs_inv 32 hex pin) as (? & ? & ?); [unfold len in Hl; lia|done|done].
  - intros (Hl & Hu & ->). unfold len. rewrite len_hex_encode, Hl. by apply hex_pairs_encode.
Qed.

Lemma ct_diff_zero ps d : fold_left (λ diff p, Z.lor diff (Z.lxor p.1 p.2)) ps d = 0 ↔ d = 0 ∧ Forall (λ p, p.1 = p.2) ps.
Proof.
  revert d. induction ps as [|[x y] ps IH]; intros d; cbn [fold_left].
  - naive_solver.
  - rewrite IH, Z.lor_eq_0_iff, Z.lxor_eq_0_iff, Forall_cons. naive_solver.
Qed.

Lemma ct_eq_spec left right : length left = length right → ct_eq left right = true ↔ left = right.
Proof.
  intros Hlen. unfold ct_eq. rewrite Z.eqb_eq, ct_diff_zero. split.
  - intros [_ Hp]. revert right Hlen Hp. induction left as [|x left IH]; intros [|y right] Hlen Hp; try done.
    cbn in Hp. apply Forall_cons in Hp as [Hxy Hp]. cbn in Hxy. f_equal; [done|]. apply IH; [by injection Hlen|done].
  - intros ->. split; [done|]. clear Hlen. induction right as [|y right IH]; [constructor|]. constructor; [done|exact IH].
Qed.

(** ** The pinned client *)

(** What the library promises: SHA-256 has 32 octets. *)
Class CertificatesLaws (R : Type) `{Certificates R} : Prop := {
  sha256_octets m : length (sha256 m) = 32%nat ∧ Forall u8 (sha256 m);
  self_signed_octets rng subject rng' identity :
    self_signed rng subject = (rng', Ok identity) → Forall u8 (cert_der identity) ∧ Forall u8 (key_der identity);
  protocol_versions : with_safe_default_protocol_versions = Ok ()
}.

Section Pinned.
Context (R : Type) `{CertificatesLaws R}.

Lemma spki_pin_from_cert_octets cert pin :
  spki_pin_from_cert cert = Ok pin → length pin = 32%nat ∧ Forall u8 pin.
Proof. unfold spki_pin_from_cert. destruct (subject_public_key_info cert); [|done]. intros [= <-]. apply sha256_octets. Qed.

(** Both ways of the pin. *)
Lemma pinned_key hex identity :
  (∃ pin, client_config_pinned hex = Ok pin ∧ verify_server_cert pin (cert_der identity) = Ok ()) ↔
  spki_pin identity = Ok hex.
Proof.
  unfold client_config_pinned, PinnedServerVerifier_new, verify_server_cert, spki_pin. rewrite protocol_versions.
  destruct (spki_pin_from_cert (cert_der identity)) as [actual|e|] eqn:Hpin; cbn;
    [|split; [intros (? & _ & ?)|]; done..].
  destruct (spki_pin_from_cert_octets _ _ Hpin) as [Hlen Hu]. split.
  - intros (pin & Hc & Hv). destruct (hex_decode_pin hex) as [pin'| |] eqn:Hd; [|done..]. injection Hc as ->.
    apply hex_decode_pin_spec in Hd as (Hl & _ & ->).
    destruct (ct_eq pin actual) eqn:Hct; [|done]. apply ct_eq_spec in Hct as ->; [done|congruence].
  - intros [= <-]. exists actual.
    rewrite (proj2 (hex_decode_pin_spec (hex_encode actual) actual)) by done. split; [done|].
    by rewrite (proj2 (ct_eq_spec actual actual eq_refl)).
Qed.

(** C16: a client configured with the text of a pin accepts a certificate if and
    only if that text is the pin the agent prints for it: whatever the text, a
    client that can be configured at all admits exactly one public key hash, and
    the text an agent prints always configures a client that admits the agent. *)
Theorem pin_admits_one_key hex identity :
  (∃ pin, client_config_pinned hex = Ok pin ∧ verify_server_cert pin (cert_der identity) = Ok ()) ↔
  spki_pin identity = Ok hex.
Proof. apply pinned_key. Qed.

(** A text that is not a pin configures no client. *)
Lemma bad_pin_refused hex :
  (∀ pin, hex ≠ hex_encode pin ∨ length pin ≠ 32%nat ∨ ¬ Forall u8 pin) → ∀ pin, client_config_pinned hex ≠ Ok pin.
Proof.
  intros Hno pin. unfold client_config_pinned, PinnedServerVerifier_new.
  destruct (hex_decode_pin hex) as [p| |] eqn:Hd; [|done..]. exfalso.
  apply hex_decode_pin_spec in Hd as (? & ? & ?). destruct (Hno p) as [?|[?|?]]; done.
Qed.
End Pinned.

(** ** PEM: a reference reader *)

(** The value of a character of the alphabet. *)
Definition sextet_value (c : Z) : option Z :=
  if between 0x41 0x5A c then Some (c - 0x41)
  else if between 0x61 0x7A c then Some (c - 0x61 + 26)
  else if between 0x30 0x39 c then Some (c - 0x30 + 52)
  else if c =? 0x2B then Some 62 else if c =? 0x2F then Some 63 else None.

(** Four characters at a time, from the definition of base 64. *)
Fixpoint base64_read (text : list Z) : option (list Z) :=
  match text with
  | [] => Some []
  | a :: b :: c :: d :: text =>
    x ← sextet_value a; y ← sextet_value b;
    if (c =? 0x3D) && (d =? 0x3D) then
      match text with [] => Some [(x * 64 + y) / 16] | _ => None end
    else
      z ← sextet_value c;
      if d =? 0x3D then
        match text with [] => Some [(x * 4096 + y * 64 + z) / 4 / 256; ((x * 4096 + y * 64 + z) / 4) mod 256] | _ => None end
      else
        w ← sextet_value d;
        rest ← base64_read text;
        let v := x * 262144 + y * 4096 + z * 64 + w in
        Some (v / 65536 :: (v / 256) mod 256 :: v mod 256 :: rest)
  | _ => None
  end.

(** Up to the first dash. *)
Fixpoint before_dash (text : list Z) : list Z :=
  match text with [] => [] | c :: text => if c =? 0x2D then [] else c :: before_dash text end.

Definition pem_read (label text : list Z) : option (list Z) :=
  rest ← strip_prefix (bytes_of_string "-----BEGIN " ++ label ++ bytes_of_string "-----" ++ newline) text;
  base64_read (filter (λ c, c ≠ 0x0A) (before_dash rest)).

Lemma sextet_chars :
  Forall (λ i, let c := nth i TABLE 0 in sextet_value c = Some (Z.of_nat i) ∧ c ≠ 0x0A ∧ c ≠ 0x2D ∧ c ≠ 0x3D) (seq 0 64).
Proof. vm_compute. repeat constructor; try reflexivity; discriminate. Qed.

Lemma sextet_spec v s :
  0 ≤ s →
  sextet_value (sextet v s) = Some ((v / 2 ^ s) mod 64) ∧ sextet v s ≠ 0x0A ∧ sextet v s ≠ 0x2D ∧ sextet v s ≠ 0x3D.
Proof.
  intros Hs. unfold sextet. change 0x3f with (Z.ones 6). rewrite Z.land_ones, Z.shiftr_div_pow2 by lia.
  pose proof (Z.mod_pos_bound (v / 2 ^ s) (2 ^ 6) ltac:(lia)) as Hi.
  pose proof (proj1 (Forall_forall _ _) sextet_chars (Z.to_nat ((v / 2 ^ s) mod 2 ^ 6))) as Hc.
  cbv beta zeta in Hc. rewrite Z2Nat.id in Hc by lia. apply Hc. rewrite elem_of_seq. lia.
Qed.

Lemma pem_value f s t :
  u8 f → u8 s → u8 t → Z.lor (Z.lor (Z.shiftl f 16) (Z.shiftl s 8)) t = f * 65536 + s * 256 + t.
Proof.
  unfold is_uint. intros. rewrite (lor_shiftl_add 16) by (rewrite ?Z.shiftl_mul_pow2; lia).
  replace (f * 2 ^ 16 + Z.shiftl s 8) with (Z.shiftl (f * 256 + s) 8) by (rewrite !Z.shiftl_mul_pow2; lia).
  rewrite lor_shiftl_add by lia. lia.
Qed.

(** Induction on octets taken three at a time. *)
Lemma threes_ind (P : list Z → Prop) :
  P [] → (∀ a, P [a]) → (∀ a b, P [a; b]) → (∀ a b c l, P l → P (a :: b :: c :: l)) → ∀ l, P l.
Proof. intros H0 H1 H2 H3. fix IH 1. intros [|a [|b [|c l]]]; [exact H0|apply H1|apply H2|apply H3, IH]. Qed.

(** A character of a body: of the alphabet, or the padding. *)
Definition body_char (c : Z) : Prop := c ≠ 0x0A ∧ c ≠ 0x2D.

Lemma pem_body_chars der : Forall body_char (pem_body der).
Proof.
  unfold body_char. induction der as [|a|a b|a b c der IH] using threes_ind; cbn [pem_body];
    repeat constructor; try (apply sextet_spec; lia); try done.
Qed.

Lemma base64_pem_body der : Forall u8 der → base64_read (pem_body der) = Some der.
Proof.
  induction der as [|a|a b|a b c der IH] using threes_ind; intros Hu; [done|..];
    rewrite ?Forall_cons in Hu; destruct_and?; cbn [pem_body base64_read].
  all: rewrite pem_value by (done || (unfold is_uint; lia)); unfold is_uint in *; unfold pem_char_pad.
  all: set (v := a * 65536 + _ + _).
  all: destruct (sextet_spec v 18 ltac:(lia)) as (-> & _ & _ & _), (sextet_spec v 12 ltac:(lia)) as (-> & _ & _ & _).
  - cbn. do 2 f_equal. unfold v. Z.to_euclidean_division_equations; lia.
  - destruct (sextet_spec v 6 ltac:(lia)) as (-> & _ & _ & Hp). cbn.
    rewrite (proj2 (Z.eqb_neq _ _) Hp). cbn.
    f_equal. f_equal; [|f_equal]; unfold v; Z.to_euclidean_division_equations; lia.
  - destruct (sextet_spec v 6 ltac:(lia)) as (-> & _ & _ & Hp), (sextet_spec v 0 ltac:(lia)) as (-> & _ & _ & Hq). cbn.
    rewrite (proj2 (Z.eqb_neq _ _) Hp), (proj2 (Z.eqb_neq _ _) Hq). cbn.
    rewrite IH by done. cbn. f_equal.
    f_equal; [|f_equal; [|f_equal]]; unfold v; Z.to_euclidean_division_equations; lia.
Qed.

Lemma before_dash_app text rest : Forall (λ c, c ≠ 0x2D) text → before_dash (text ++ 0x2D :: rest) = text.
Proof. induction 1 as [|c text Hc _ IH]; [done|]. cbn. by rewrite (proj2 (Z.eqb_neq _ _) Hc), IH. Qed.

Lemma concat_chunks64 fuel body : (length body ≤ fuel)%nat → concat (chunks64 fuel body) = body.
Proof.
  revert body. induction fuel as [|fuel IH]; intros [|c body] Hf; cbn [length] in Hf; try lia; try done.
  cbn [chunks64 concat]. rewrite IH; [apply take_drop|]. rewrite length_drop. cbn [length]. lia.
Qed.

(** Every line but the last is full; none is empty. *)
Lemma chunks64_lengths fuel body : Forall (λ line, 1 ≤ len line ≤ 64) (chunks64 fuel body).
Proof.
  revert body. induction fuel as [|fuel IH]; intros [|c body]; cbn [chunks64]; try constructor; [|apply IH].
  unfold len. rewrite length_take. cbn [length]. lia.
Qed.

Lemma filter_body line : Forall body_char line → filter (λ c, c ≠ 0x0A) line = line.
Proof. induction 1 as [|c line Hc _ IH]; [done|]. rewrite filter_cons_True by apply Hc. by rewrite IH. Qed.

Lemma filter_lines lines :
  Forall (Forall body_char) lines → filter (λ c, c ≠ 0x0A) (flat_map (λ line, line ++ newline) lines) = concat lines.
Proof.
  induction 1 as [|line lines Hl _ IH]; [done|]. cbn [flat_map concat].
  rewrite !filter_app, IH. f_equal. unfold newline. rewrite filter_cons_False by naive_solver.
  by rewrite filter_nil, app_nil_r, filter_body.
Qed.

Lemma lines_no_dash lines :
  Forall (Forall body_char) lines → Forall (λ c, c ≠ 0x2D) (flat_map (λ line, line ++ newline) lines).
Proof.
  induction 1 as [|line lines Hl _ IH]; [constructor|]. cbn [flat_map]. rewrite !Forall_app. repeat split; [| |exact IH].
  - eapply Forall_impl; [exact Hl|]. intros c Hc. apply Hc.
  - repeat constructor. done.
Qed.

Lemma lines_body der : Forall (Forall body_char) (chunks64 (length (pem_body der)) (pem_body der)).
Proof. apply Forall_concat. rewrite concat_chunks64 by done. apply pem_body_chars. Qed.

Lemma pem_round_trip label der : Forall u8 der → pem_read label (pem_block label der) = Some der.
Proof.
  intros Hu. unfold pem_read, pem_block.
  set (lines := chunks64 _ _). pose proof (lines_body der : Forall (Forall body_char) lines) as Hl.
  rewrite !(app_assoc label), !(app_assoc (bytes_of_string "-----BEGIN ")), (app_assoc _ newline), strip_prefix_app. cbn.
  rewrite before_dash_app by by apply lines_no_dash.
  rewrite filter_lines by done. unfold lines. rewrite concat_chunks64 by done. by apply base64_pem_body.
Qed.

(** the PEM writer is exact: reading a block back as base 64 is defined
    gives the octets written, whatever their number modulo three, and no line of
    a block's body is empty or longer than 64 characters. *)
Theorem pem_exact label der :
  Forall u8 der →
  pem_read label (pem_block label der) = Some der ∧
  ∃ lines, Forall (λ line, 1 ≤ len line ≤ 64 ∧ Forall (λ c, c ≠ 0x0A) line) lines ∧ concat lines = pem_body der ∧
    pem_block label der =
      bytes_of_string "-----BEGIN " ++ label ++ bytes_of_string "-----" ++ newline ++
      flat_map (λ line, line ++ newline) lines ++
      bytes_of_string "-----END " ++ label ++ bytes_of_string "-----" ++ newline.
Proof.
  intros Hu. split; [by apply pem_round_trip|].
  eexists. split; [|split; [|reflexivity]]; [|by apply concat_chunks64].
  apply Forall_and. split; [apply chunks64_lengths|].
  eapply Forall_impl; [apply lines_body|]. intros line Hl. eapply Forall_impl; [exact Hl|]. intros c Hc. apply Hc.
Qed.

(** ** Identities: lemmas *)

(** What the file system and the PEM reader promise; [content] is what a path
    holds. *)
Class FilesLaws (F : Type) `{Files F} : Type := {
  content : F → list Z → option (list Z);
  exists_content files path : fs_exists files path = bool_decide (is_Some (content files path));
  write_content files path text files' :
    fs_write files path text = (files', Ok ()) →
    ∀ q, content files' q = if decide (q = path) then Some text else content files q;
  permissions_content files path mode files' r :
    fs_set_permissions files path mode = (files', r) → ∀ q, content files' q = content files q;
  cert_reads files path der :
    Forall u8 der → content files path = Some (pem_block CERTIFICATE der) → cert_from_pem_file files path = Ok der;
  key_reads files path der :
    Forall u8 der → content files path = Some (pem_block PRIVATE_KEY der) → key_from_pem_file files path = Ok der
}.

Section Persist.
Context (R F : Type) `{CertificatesLaws R} `{FilesLaws F} (unix : bool).

Lemma restrict_content files path files' r :
  restrict_key_permissions unix files path = (files', r) → ∀ q, content files' q = content files q.
Proof.
  unfold restrict_key_permissions. destruct unix; [|by intros [= <- _]].
  destruct (fs_set_permissions files path 0x180) as [f r'] eqn:Hp. intros [= <- _]. by eapply permissions_content.
Qed.

(** What a call that made a new identity left behind. *)
Lemma load_or_generate_fresh rng files cert_path key_path subject rng1 files1 identity :
  cert_path ≠ key_path →
  fs_exists files cert_path = false → fs_exists files key_path = false →
  load_or_generate unix rng files cert_path key_path subject = (rng1, files1, Ok identity) →
  Forall u8 (cert_der identity) ∧ Forall u8 (key_der identity) ∧
  content files1 cert_path = Some (pem_block CERTIFICATE (cert_der identity)) ∧
  content files1 key_path = Some (pem_block PRIVATE_KEY (key_der identity)).
Proof.
  intros Hne Hc Hk. unfold load_or_generate, generate. rewrite Hc, Hk.
  destruct (self_signed rng subject) as [rng' [i| |]] eqn:Hs; cbn; [|done..].
  destruct (fs_write files cert_path _) as [f1 [[]| |]] eqn:Hw1; [|done..].
  destruct (fs_write f1 key_path _) as [f2 [[]| |]] eqn:Hw2; [|done..].
  destruct (restrict_key_permissions unix f2 key_path) as [f3 [[]| |]] eqn:Hr; [|done..].
  intros [= <- <- <-]. destruct (self_signed_octets _ _ _ _ Hs). do 2 (split; [done|]).
  rewrite !(restrict_content _ _ _ _ Hr), !(write_content _ _ _ _ Hw2), !(write_content _ _ _ _ Hw1).
  split; repeat case_decide; congruence.
Qed.

(** A start that succeeded is read back by the next. *)
Lemma load_or_generate_again rng files cert_path key_path subject rng1 files1 identity rng2 subject2 :
  cert_path ≠ key_path →
  load_or_generate unix rng files cert_path key_path subject = (rng1, files1, Ok identity) →
  load_or_generate unix rng2 files1 cert_path key_path subject2 = (rng2, files1, Ok identity).
Proof.
  intros Hne Hl. destruct (fs_exists files cert_path) eqn:Hc, (fs_exists files key_path) eqn:Hk.
  - unfold load_or_generate in *. rewrite Hc, Hk in Hl. injection Hl as _ <- Hi. rewrite Hc, Hk. by rewrite Hi.
  - unfold load_or_generate in Hl. rewrite Hc, Hk in Hl. done.
  - unfold load_or_generate in Hl. rewrite Hc, Hk in Hl. done.
  - destruct (load_or_generate_fresh _ _ _ _ _ _ _ _ Hne Hc Hk Hl) as (? & ? & Hcc & Hkc).
    unfold load_or_generate. rewrite !exists_content, Hcc, Hkc. cbn.
    rewrite (cert_reads _ _ (cert_der identity)), (key_reads _ _ (key_der identity)) by done. by destruct identity.
Qed.

(** The agent keeps its identity: once a start has succeeded, with the files
    there or written by it, every later start reads the same certificate and the
    same key, writes nothing and generates nothing, so that the pin a client was
    given keeps admitting it. *)
Theorem identity_persists rng files cert_path key_path subject rng1 files1 identity rng2 subject2 :
  cert_path ≠ key_path →
  load_or_generate unix rng files cert_path key_path subject = (rng1, files1, Ok identity) →
  load_or_generate unix rng2 files1 cert_path key_path subject2 = (rng2, files1, Ok identity).
Proof. apply load_or_generate_again. Qed.

(** A start that wrote the certificate and then failed to write the key leaves
    files that no later start accepts. *)
Lemma half_identity_sticks rng files cert_path key_path subject rng1 files0 files1 identity e rng2 subject2 :
  cert_path ≠ key_path →
  fs_exists files cert_path = false → fs_exists files key_path = false →
  generate rng subject = (rng1, Ok identity) →
  fs_write files cert_path (pem_block CERTIFICATE (cert_der identity)) = (files0, Ok ()) →
  fs_write files0 key_path (pem_block PRIVATE_KEY (key_der identity)) = (files1, Err e) →
  (∀ q, content files1 q = content files0 q) →
  load_or_generate unix rng files cert_path key_path subject = (rng1, files1, Err (Io e)) ∧
  load_or_generate unix rng2 files1 cert_path key_path subject2 = (rng2, files1, Err IncompleteIdentityFiles).
Proof.
  intros Hne Hc Hk Hg Hw1 Hw2 Hsame. unfold load_or_generate. rewrite Hc, Hk, Hg, Hw1, Hw2. split; [done|].
  rewrite !exists_content, !Hsame, !(write_content _ _ _ _ Hw1), decide_True by done.
  rewrite decide_False by done. rewrite exists_content in Hk. rewrite Hk. by rewrite bool_decide_eq_true_2 by eauto.
Qed.
End Persist.

(** ** Token files *)

(** A token that loads is a non-empty start of the file that ends in no white
    space, and the end of a line after it makes no difference. *)
Lemma load_token_spec {F} `{Files F} (files : F) path token :
  load_token files path = Ok token →
  token ≠ [] ∧ white_at (rev (A:=Z) <$> WHITE_SPACE) (rev token) = 0%nat ∧ ∃ white, fs_read_to_string files path = Ok (token ++ white).
Proof.
  unfold load_token. destruct (fs_read_to_string files path) as [text| |]; [|done..]. cbn.
  destruct (trim_end_spec text) as (Hz & white & Hw). destruct (trim_end text) as [|b t]; [done|]. intros [= <-].
  split; [done|]. split; [done|]. exists white. by f_equal.
Qed.

(** ** Witnesses *)

(** A file system in memory, with the reference reader, and certificates whose
    key is the whole certificate; a hash that copies and pads. *)
#[local] Instance memory_files : Files (list (list Z * list Z)) := {|
  fs_exists := λ files path, existsb (λ f, bool_decide (f.1 = path)) files;
  fs_read_to_string := λ files path,
    ok_or (snd <$> List.find (λ f, bool_decide (f.1 = path)) files) [];
  fs_write := λ files path text, ((path, text) :: files, Ok ());
  fs_set_permissions := λ files _ _, (files, Ok ());
  cert_from_pem_file := λ files path,
    text ← ok_or (snd <$> List.find (λ f, bool_decide (f.1 = path)) files) []; ok_or (pem_read CERTIFICATE text) [];
  key_from_pem_file := λ files path,
    text ← ok_or (snd <$> List.find (λ f, bool_decide (f.1 = path)) files) []; ok_or (pem_read PRIVATE_KEY text) []
|}.

#[local] Instance memory_files_laws : FilesLaws (list (list Z * list Z)).
Proof.
  refine {| content := λ files path, snd <$> List.find (λ f, bool_decide (f.1 = path)) files |}.
  - intros files path. cbn. induction files as [|[p t] files IH]; [done|]. cbn. by destruct (bool_decide (p = path)).
  - intros files path text files' [= <-] q. cbn.
    destruct (decide (q = path)) as [->|]; [by rewrite bool_decide_eq_true_2|by rewrite bool_decide_eq_false_2 by congruence].
  - by intros files path mode files' r [= <- _].
  - intros files path der Hu Hc. cbn -[pem_read pem_block]. rewrite Hc. cbn -[pem_read pem_block]. by rewrite pem_round_trip.
  - intros files path der Hu Hc. cbn -[pem_read pem_block]. rewrite Hc. cbn -[pem_read pem_block]. by rewrite pem_round_trip.
Defined.

(** A random source of numbers: the key is the next one. *)
#[local] Instance toy_certificates : Certificates Z := {|
  self_signed := λ n subject, (n + 1, Ok (mkIdentity [0x30; as_uint 8 n] [0x30; as_uint 8 (n + 7)]));
  subject_public_key_info := λ cert, Some cert;
  sha256 := λ m, (λ i, as_uint 8 (nth i m 0)) <$> seq 0 32;
  with_safe_default_protocol_versions := Ok ();
  private_key_try_from := λ key, Ok key;
  with_single_cert := λ _ _, Ok ()
|}.

#[local] Instance toy_certificates_laws : CertificatesLaws Z.
Proof.
  split; [| |done].
  - intros m. split; [reflexivity|]. apply Forall_fmap, Forall_true. intros i.
    by apply as_uint_range.
  - intros rng subject rng' identity [= _ <-]. cbn.
    split; (constructor; [by unfold is_uint|]; constructor; [by apply as_uint_range|constructor]).
Defined.

(** A first start on an empty disk, and a second one. *)
Lemma identity_persists_witness :
  ∃ files1,
    load_or_generate true 8 ([] : list (list Z * list Z)) [99] [107] [] = (9, files1, Ok (mkIdentity [0x30; 8] [0x30; 15])) ∧
    load_or_generate true 40 files1 [99] [107] [] = (40, files1, Ok (mkIdentity [0x30; 8] [0x30; 15])).
Proof.
  eexists. split; [reflexivity|].
  apply (identity_persists Z (list (list Z * list Z)) true 8 [] [99] [107] [] 9); [done|reflexivity].
Defined.

Lemma pin_admits_one_key_witness :
  ∃ pin, client_config_pinned (bytes_of_string "3008000000000000000000000000000000000000000000000000000000000000") = Ok pin ∧
    verify_server_cert pin [0x30; 8] = Ok ().
Proof.
  apply (proj2 (pin_admits_one_key Z (bytes_of_string "3008000000000000000000000000000000000000000000000000000000000000")
    (mkIdentity [0x30; 8] [0x30; 15]))). vm_compute. reflexivity.
Defined.

Lemma pem_exact_witness :
  pem_read CERTIFICATE (pem_block CERTIFICATE [0x30; 0x82; 0xFF; 0x00]) = Some [0x30; 0x82; 0xFF; 0x00].
Proof. apply (pem_exact CERTIFICATE [0x30; 0x82; 0xFF; 0x00]). by repeat constructor. Defined.

Example bad_pin_examples :
  hex_decode_pin (bytes_of_string "30") = Err InvalidPin ∧
  hex_decode_pin (bytes_of_string "3A08000000000000000000000000000000000000000000000000000000000000") = Err InvalidPin.
Proof. split; reflexivity. Qed.

Example tokens :
  verify_token [1; 2] [1; 2] = true ∧ verify_token [1; 2] [1; 2; 0] = false ∧ verify_token [1; 0] [1] = false.
Proof. repeat split; reflexivity. Qed.

Example trimmed : trim_end (bytes_of_string " key " ++ [0xC2; 0xA0; 0x0D; 0x0A]) = bytes_of_string " key".
Proof. reflexivity. Qed.
