(* ===== verification/Config.v ===== *)
(** * The agent's configuration

    [crates/oxagent/src/config.rs]: [AgentConfig::parse], with the parser of
    socket addresses of Rust's standard library it leans on, and [load] over
    the file system of [Security]. *)

From S2P Require Import Prelude Text Security.

(** ** Socket addresses: [std::net::SocketAddr] and its [FromStr] *)

Inductive IpAddr : Type :=
| V4 (octets : list Z)
| V6 (segments : list Z).

Record SocketAddr : Type := mkSocketAddr { addr_ip : IpAddr; addr_port : Z; addr_scope_id : Z }.

Definition is_unspecified (ip : IpAddr) : bool :=
  match ip with
  | V4 octets => bool_decide (octets = [0; 0; 0; 0])
  | V6 segments => bool_decide (segments = [0; 0; 0; 0; 0; 0; 0; 0])
  end.

(** A reader of the standard parser: a result and the text left, or none. *)
Definition reader (A : Type) : Type := list Z → option (A * list Z).

#[local] Instance reader_ret : MRet reader := λ _ a text, Some (a, text).
#[local] Instance reader_bind : MBind reader := λ _ _ f m text,
  match m text with Some (a, text) => f a text | None => None end.

Definition read_given_char (c : Z) : reader unit := λ text,
  match text with t :: text => if t =? c then Some ((), text) else None | [] => None end.

Definition to_digit (radix c : Z) : option Z :=
  let d :=
    if between 0x30 0x39 c then Some (c - 0x30)
    else if between 0x61 0x7A c then Some (c - 0x61 + 10)
    else if between 0x41 0x5A c then Some (c - 0x41 + 10)
    else None in
  match d with Some d => if d <? radix then Some d else None | None => None end.

(** The digits at the start of a text: the number, how many, and the rest;
    none when the number has more than [w] bits. *)
Fixpoint number_loop (w radix : Z) (text : list Z) (result : Z) (count : nat) : option (Z * nat * list Z) :=
  match text with
  | c :: rest =>
    match to_digit radix c with
    | Some d =>
      let result := result * radix + d in
      if result <? 2 ^ w then number_loop w radix rest result (S count) else None
    | None => Some (result, count, text)
    end
  | [] => Some (result, count, [])
  end.

Definition read_number (w radix : Z) (max_digits : option nat) (allow_zero_prefix : bool) : reader Z := λ text,
  let has_leading_zero := match text with c :: _ => c =? 0x30 | [] => false end in
  match number_loop w radix text 0 0 with
  | Some (result, digit_count, rest) =>
    let too_long := match max_digits with Some most => (most <? digit_count)%nat | None => false end in
    if too_long then None
    else if (digit_count =? 0)%nat then None
    else if negb allow_zero_prefix && has_leading_zero && (1 <? digit_count)%nat then None
    else Some (result, rest)
  | None => None
  end.

Definition read_separator {A} (sep : Z) (index : nat) (inner : reader A) : reader A :=
  match index with
  | O => inner
  | S _ => _ ← read_given_char sep; inner
  end.

(** [unwrap_or] on a reader, which takes nothing when it fails. *)
Definition unwrap_or {A} (a : A) (inner : reader A) : reader A := λ text,
  match inner text with Some r => Some r | None => Some (a, text) end.

Definition read_ipv4_addr : reader (list Z) :=
  a ← read_separator 0x2E 0 (read_number 8 10 (Some 3%nat) false);
  b ← read_separator 0x2E 1 (read_number 8 10 (Some 3%nat) false);
  c ← read_separator 0x2E 2 (read_number 8 10 (Some 3%nat) false);
  d ← read_separator 0x2E 3 (read_number 8 10 (Some 3%nat) false);
  mret [a; b; c; d].

(** [read_groups]: the groups from the [i]-th on, at most [left] of them, and
    whether they end in an IPv4 address, which fills two. *)
Fixpoint read_groups (left i : nat) (text : list Z) : list Z * bool * list Z :=
  match left with
  | O => ([], false, text)
  | S left' =>
    match (if (0 <? left')%nat then read_separator 0x3A i read_ipv4_addr text else None) with
    | Some ([a; b; c; d], rest) => ([a * 256 + b; c * 256 + d], true, rest)
    | _ =>
      match read_separator 0x3A i (read_number 16 16 (Some 4%nat) true) text with
      | Some (group, rest) =>
        let '(groups, ipv4, rest) := read_groups left' (S i) rest in (group :: groups, ipv4, rest)
      | None => ([], false, text)
      end
    end
  end.

Definition read_ipv6_addr : reader (list Z) := λ text,
  let '(head, head_ipv4, text) := read_groups 8 0 text in
  if (length head =? 8)%nat then Some (head, text)
  else if head_ipv4 then None
  else
    match (_ ← read_given_char 0x3A; read_given_char 0x3A : reader unit) text with
    | Some (_, text) =>
      let '(tail, _, text) := read_groups (8 - (length head + 1)) 0 text in
      Some (head ++ replicate (8 - length head - length tail) 0 ++ tail, text)
    | None => None
    end.

Definition read_port : reader Z := _ ← read_given_char 0x3A; read_number 16 10 None true.
Definition read_scope_id : reader Z := _ ← read_given_char 0x25; read_number 32 10 None true.

Definition read_socket_addr_v4 : reader SocketAddr :=
  ip ← read_ipv4_addr; port ← read_port; mret (mkSocketAddr (V4 ip) port 0).

Definition read_socket_addr_v6 : reader SocketAddr :=
  _ ← read_given_char 0x5B;
  ip ← read_ipv6_addr;
  scope_id ← unwrap_or 0 read_scope_id;
  _ ← read_given_char 0x5D;
  port ← read_port;
  mret (mkSocketAddr (V6 ip) port scope_id).

(** [value.parse::<SocketAddr>()]: the whole text is an address. *)
Definition parse_socket_addr (text : list Z) : option SocketAddr :=
  match (match read_socket_addr_v4 text with Some r => Some r | None => read_socket_addr_v6 text end) with
  | Some (addr, []) => Some addr
  | _ => None
  end.

(** ** The configuration *)

Record AgentConfig : Type := mkAgentConfig {
  bind : SocketAddr;
  token_path : list Z;
  cert_path : list Z;
  key_path : list Z;
  target_fps : Z;
  max_frames_in_flight : Z;
  allow_wildcard_bind : bool
}.

Inductive ConfigError : Type :=
| Io (message : list Z)
| Syntax (line : Z)
| Value (key : string) (line : Z)
| Missing (key : string).

(** The address of the literal is that the parser gives. *)
Definition AgentConfig_default : AgentConfig := {|
  bind := mkSocketAddr (V4 [127; 0; 0; 1]) 7644 0;
  token_path := bytes_of_string "oxagent-token.txt";
  cert_path := bytes_of_string "oxagent-cert.pem";
  key_path := bytes_of_string "oxagent-key.pem";
  target_fps := 30;
  max_frames_in_flight := 2;
  allow_wildcard_bind := false
|}.

Definition set_bind b c := mkAgentConfig b (token_path c) (cert_path c) (key_path c) (target_fps c) (max_frames_in_flight c) (allow_wildcard_bind c).
Definition set_allow b c := mkAgentConfig (bind c) (token_path c) (cert_path c) (key_path c) (target_fps c) (max_frames_in_flight c) b.
Definition set_token p c := mkAgentConfig (bind c) p (cert_path c) (key_path c) (target_fps c) (max_frames_in_flight c) (allow_wildcard_bind c).
Definition set_cert p c := mkAgentConfig (bind c) (token_path c) p (key_path c) (target_fps c) (max_frames_in_flight c) (allow_wildcard_bind c).
Definition set_key p c := mkAgentConfig (bind c) (token_path c) (cert_path c) p (target_fps c) (max_frames_in_flight c) (allow_wildcard_bind c).
Definition set_fps n c := mkAgentConfig (bind c) (token_path c) (cert_path c) (key_path c) n (max_frames_in_flight c) (allow_wildcard_bind c).
Definition set_frames n c := mkAgentConfig (bind c) (token_path c) (cert_path c) (key_path c) (target_fps c) n (allow_wildcard_bind c).

Definition non_empty_path (value : list Z) (key : string) (line : Z) : outcome ConfigError (list Z) :=
  match value with [] => Err (Value key line) | _ => Ok value end.

(** The three variables of the loop: [cfg], [token_path_seen], [bind_line]. *)
Record Parse : Type := mkParse { p_cfg : AgentConfig; token_path_seen : bool; bind_line : option Z }.

Definition map_cfg (f : AgentConfig → AgentConfig) (p : Parse) : Parse := mkParse (f (p_cfg p)) (token_path_seen p) (bind_line p).

Definition key_is (key : list Z) (name : string) : bool := bool_decide (key = bytes_of_string name).

(** The [match key]. *)
Definition take_key (key value : list Z) (line_no : Z) (p : Parse) : outcome ConfigError Parse :=
  if key_is key "bind" then
    match parse_socket_addr value with
    | Some addr => Ok (mkParse (set_bind addr (p_cfg p)) (token_path_seen p) (Some line_no))
    | None => Err (Value "bind" line_no)
    end
  else if key_is key "allow_wildcard_bind" then
    if key_is value "true" then Ok (map_cfg (set_allow true) p)
    else if key_is value "false" then Ok (map_cfg (set_allow false) p)
    else Err (Value "allow_wildcard_bind" line_no)
  else if key_is key "token_path" then
    path ← non_empty_path value "token_path" line_no;
    Ok (mkParse (set_token path (p_cfg p)) true (bind_line p))
  else if key_is key "cert_path" then
    path ← non_empty_path value "cert_path" line_no; Ok (map_cfg (set_cert path) p)
  else if key_is key "key_path" then
    path ← non_empty_path value "key_path" line_no; Ok (map_cfg (set_key path) p)
  else if key_is key "target_fps" then
    match parse_uint 16 value with
    | Some fps => if between 1 240 fps then Ok (map_cfg (set_fps fps) p) else Err (Value "target_fps" line_no)
    | None => Err (Value "target_fps" line_no)
    end
  else if key_is key "max_frames_in_flight" then
    match parse_uint 8 value with
    | Some m => if between 1 16 m then Ok (map_cfg (set_frames m) p) else Err (Value "max_frames_in_flight" line_no)
    | None => Err (Value "max_frames_in_flight" line_no)
    end
  else Ok p.

(** The body of the loop; [line_no] is a [usize], which no text overflows. *)
Definition parse_line (line_no : Z) (raw_line : list Z) (p : Parse) : outcome ConfigError Parse :=
  let line := trim raw_line in
  match line with
  | [] => Ok p
  | c :: _ =>
    if c =? 0x23 then Ok p
    else
      match split_once 0x3D line with
      | None => Err (Syntax line_no)
      | Some (key, value) => take_key (trim key) (trim value) line_no p
      end
  end.

Fixpoint parse_lines (line_no : Z) (raw_lines : list (list Z)) (p : Parse) : outcome ConfigError Parse :=
  match raw_lines with
  | [] => Ok p
  | raw_line :: raw_lines => p ← parse_line line_no raw_line p; parse_lines (line_no + 1) raw_lines p
  end.

Definition BOM : list Z := [0xEF; 0xBB; 0xBF].

Definition parse (text : list Z) : outcome ConfigError AgentConfig :=
  let text := default text (strip_prefix BOM text) in
  p ← parse_lines 1 (lines text) (mkParse AgentConfig_default false None);
  if negb (token_path_seen p) then Err (Missing "token_path")
  else if is_unspecified (addr_ip (bind (p_cfg p))) && negb (allow_wildcard_bind (p_cfg p)) then
    Err (Value "bind" (default 0 (bind_line p)))
  else Ok (p_cfg p).

Definition load {F} `{Files F} (files : F) (path : list Z) : outcome ConfigError AgentConfig :=
  text ← map_err Io (fs_read_to_string files path); parse text.

(** ** What a text assigns *)

(** A line's key and value, none for blank lines and comments. *)
Definition assignment (raw_line : list Z) : option (list Z * list Z) :=
  match trim raw_line with
  | [] => None
  | c :: rest =>
    if c =? 0x23 then None
    else match split_once 0x3D (c :: rest) with Some (key, value) => Some (trim key, trim value) | None => None end
  end.

Definition text_lines (text : list Z) : list (list Z) := lines (default text (strip_prefix BOM text)).
Definition assignments (raw_lines : list (list Z)) : list (list Z * list Z) := omap assignment raw_lines.

(** The value last assigned to a key. *)
Definition last_of (name : string) (assigned : list (list Z * list Z)) : option (list Z) :=
  snd <$> List.find (λ a, key_is a.1 name) (rev assigned).

Definition path_value (value : list Z) : option (list Z) := match value with [] => None | _ => Some value end.
Definition bool_value (value : list Z) : option bool :=
  if key_is value "true" then Some true else if key_is value "false" then Some false else None.
Definition bounded_value (w most : Z) (value : list Z) : option Z :=
  match parse_uint w value with Some n => if between 1 most n then Some n else None | None => None end.

(** A field holds what the text last assigned to its key, or its default. *)
Definition reads {A} (name : string) (get : AgentConfig → A) (value_of : list Z → option A) (raw_lines : list (list Z)) (before cfg : AgentConfig) : Prop :=
  match last_of name (assignments raw_lines) with
  | Some value => value_of value = Some (get cfg)
  | None => get cfg = get before
  end.

Lemma find_app_some {A} (f : A → bool) l k :
  List.find f (l ++ k) = match List.find f l with Some a => Some a | None => List.find f k end.
Proof. induction l as [|a l IH]; [done|]. cbn. by destruct (f a). Qed.

Lemma last_of_cons name a assigned :
  last_of name (a :: assigned) =
  match last_of name assigned with Some v => Some v | None => if key_is a.1 name then Some a.2 else None end.
Proof.
  unfold last_of. cbn [rev]. rewrite find_app_some. destruct (List.find _ (rev assigned)); [done|]. cbn.
  by destruct (key_is a.1 name).
Qed.

Lemma parse_line_spec n raw p p' :
  parse_line n raw p = Ok p' →
  match assignment raw with Some (key, value) => take_key key value n p = Ok p' | None => p' = p end.
Proof.
  unfold parse_line, assignment. destruct (trim raw) as [|c rest]; [by intros [= <-]|].
  destruct (c =? 0x23); [by intros [= <-]|]. by destruct (split_once 0x3D (c :: rest)) as [[k v]|].
Qed.

(** A field of the configuration: the key that sets it, and nothing else does. *)
Class Field {A} (name : string) (get : AgentConfig → A) (value_of : list Z → option A) : Prop :=
  field_taken key value n p p' :
    take_key key value n p = Ok p' →
    if key_is key name then value_of value = Some (get (p_cfg p')) else get (p_cfg p') = get (p_cfg p).

Lemma key_is_true key name : key_is key name = true → key = bytes_of_string name.
Proof. apply bool_decide_eq_true_1. Qed.

Ltac each_key :=
  intros key value n p p'; unfold take_key, map_cfg, non_empty_path, path_value, bool_value, bounded_value;
  repeat match goal with
    | |- context [key_is key ?name] =>
      let E := fresh "E" in destruct (key_is key name) eqn:E; [apply key_is_true in E as ->|]
    end;
  repeat case_match; try done; cbn; try (by intros [= <-]); try (by intros [= ->]).

#[global] Instance bind_field : Field "bind" bind parse_socket_addr.
Proof. each_key. Qed.
#[global] Instance allow_field : Field "allow_wildcard_bind" allow_wildcard_bind bool_value.
Proof. each_key. Qed.
#[global] Instance token_field : Field "token_path" token_path path_value.
Proof. each_key. Qed.
#[global] Instance cert_field : Field "cert_path" cert_path path_value.
Proof. each_key. Qed.
#[global] Instance key_field : Field "key_path" key_path path_value.
Proof. each_key. Qed.
#[global] Instance fps_field : Field "target_fps" target_fps (bounded_value 16 240).
Proof. each_key. Qed.
#[global] Instance frames_field : Field "max_frames_in_flight" max_frames_in_flight (bounded_value 8 16).
Proof. each_key. Qed.

Lemma assignments_cons raw raw_lines :
  assignments (raw :: raw_lines) = match assignment raw with Some a => a :: assignments raw_lines | None => assignments raw_lines end.
Proof. done. Qed.

Lemma parse_lines_reads {A} name (get : AgentConfig → A) value_of `{!Field name get value_of} n raw_lines p p' :
  parse_lines n raw_lines p = Ok p' → reads name get value_of raw_lines (p_cfg p) (p_cfg p').
Proof.
  unfold reads. revert n p. induction raw_lines as [|raw raw_lines IH]; intros n p; cbn [parse_lines]; [by intros [= <-]|].
  destruct (parse_line n raw p) as [p1| |] eqn:Hl; [|done..]. intros Hp. cbn in Hp. specialize (IH _ _ Hp).
  apply parse_line_spec in Hl. rewrite assignments_cons.
  destruct (assignment raw) as [[key value]|]; [|by subst].
  apply field_taken in Hl. rewrite last_of_cons. cbn [fst snd].
  destruct (last_of name _) as [v|]; [done|]. destruct (key_is key name); congruence.
Qed.

(** The flag of the token's path says that it was assigned, and the line kept
    for [bind] is a line of the file. *)
Lemma take_key_marks key value n p p' :
  take_key key value n p = Ok p' →
  token_path_seen p' = key_is key "token_path" || token_path_seen p ∧
  bind_line p' = if key_is key "bind" then Some n else bind_line p.
Proof.
  unfold take_key, map_cfg, non_empty_path.
  repeat match goal with
    | |- context [key_is key ?name] =>
      let E := fresh "E" in destruct (key_is key name) eqn:E; [apply key_is_true in E as ->|]
    end;
  repeat case_match; try done; by intros [= <-].
Qed.

Lemma parse_lines_marks n raw_lines p p' :
  parse_lines n raw_lines p = Ok p' →
  (token_path_seen p' = true ↔ token_path_seen p = true ∨ is_Some (last_of "token_path" (assignments raw_lines))) ∧
  (is_Some (last_of "bind" (assignments raw_lines)) → ∃ k, bind_line p' = Some k ∧ n ≤ k < n + len raw_lines) ∧
  (last_of "bind" (assignments raw_lines) = None → bind_line p' = bind_line p).
Proof.
  revert n p. induction raw_lines as [|raw raw_lines IH]; intros n p; cbn [parse_lines].
  - intros [= <-]. cbn. split; [|split; [by intros []|done]]. split; [by left|]. by intros [?|[]].
  - destruct (parse_line n raw p) as [p1| |] eqn:Hl; [|done..]. intros Hp. cbn in Hp.
    destruct (IH _ _ Hp) as (IHt & IHb & IHn). apply parse_line_spec in Hl. rewrite len_cons.
    rewrite assignments_cons. destruct (assignment raw) as [[key value]|].
    + apply take_key_marks in Hl as [Ht Hb]. rewrite !last_of_cons. cbn [fst snd]. rewrite IHt, Ht, orb_true_iff. repeat split.
      * destruct (last_of "token_path" _) as [v|]; [by eauto|]. intros [[->|?]|[]]; eauto; done.
      * destruct (last_of "token_path" _) as [v|]; [by eauto|]. destruct (key_is key "token_path"); intros [?|[]]; eauto; done.
      * destruct (last_of "bind" _) as [v|]; [intros _; destruct IHb as (k & ? & ?); [done|exists k; split; [done|lia]]|].
        destruct (key_is key "bind"); [|by intros []]. intros _. exists n. rewrite IHn by done. split; [done|]. pose proof (len_nonneg raw_lines). lia.
      * destruct (last_of "bind" _) as [v|]; [done|]. destruct (key_is key "bind"); [done|]. intros _. by rewrite IHn.
    + subst. split; [done|]. split; [|done]. intros Hb. destruct (IHb Hb) as (k & ? & ?). exists k. split; [done|lia].
Qed.


(** Parsing always returns. *)
Lemma parse_total text : parse text ≠ Panic.
Proof.
  assert (∀ k v n p, take_key k v n p ≠ Panic) as Hk.
  { intros. unfold take_key, map_cfg, non_empty_path. repeat case_match; done. }
  assert (∀ n p ls, parse_lines n ls p ≠ Panic) as Hp.
  { intros n p ls. revert n p. induction ls as [|l ls IH]; intros n p; [done|]. cbn.
    unfold parse_line. destruct (trim l) as [|c r]; [apply IH|]. destruct (c =? 0x23); [apply IH|].
    destruct (split_once 0x3D (c :: r)) as [[k v]|]; [|done].
    destruct (take_key (trim k) (trim v) n p) eqn:E; cbn; [apply IH|done|by apply Hk in E]. }
  unfold parse. destruct (parse_lines 1 _ _) eqn:E; cbn; [|done|by apply Hp in E]. repeat case_match; done.
Qed.

(** An error in a line names the first line at fault: the lines before it parse. *)
Lemma parse_lines_error n raw_lines p e :
  parse_lines n raw_lines p = Err e →
  ∃ before raw after p', raw_lines = before ++ raw :: after ∧
    parse_lines n before p = Ok p' ∧ parse_line (n + len before) raw p' = Err e.
Proof.
  revert n p. induction raw_lines as [|raw raw_lines IH]; intros n p; cbn [parse_lines]; [done|].
  destruct (parse_line n raw p) as [p1|e1|] eqn:Hl; [|intros [= <-]|done]; cbn.
  - intros He. destruct (IH _ _ He) as (before & raw' & after & p' & -> & Hb & Hr).
    exists (raw :: before), raw', after, p'. split; [done|]. cbn [parse_lines]. rewrite Hl. split; [exact Hb|].
    rewrite len_cons. by replace (n + (1 + len before)) with (n + 1 + len before) by lia.
  - exists [], raw, raw_lines, p. split; [done|]. split; [done|]. unfold len. cbn. by rewrite Z.add_0_r.
Qed.

(** What a line is refused for, and that the line it names is itself. *)
Lemma parse_line_error n raw p e :
  parse_line n raw p = Err e →
  (e = Syntax n ∧ 0x3D ∉ trim raw) ∨ (∃ key value, assignment raw = Some (bytes_of_string key, value) ∧ e = Value key n).
Proof.
  unfold parse_line, assignment. destruct (trim raw) as [|c rest]; [done|]. destruct (c =? 0x23); [done|].
  destruct (split_once 0x3D (c :: rest)) as [[k v]|] eqn:Hs.
  - intros He. right. revert He. generalize (trim k) (trim v). clear. intros key value.
    unfold take_key, map_cfg, non_empty_path.
    repeat match goal with
      | |- context [key_is key ?name] =>
        let E := fresh "E" in destruct (key_is key name) eqn:E; [apply key_is_true in E as ->|]
      end;
    repeat case_match; try done; intros [= <-]; eauto.
  - intros [= <-]. left. split; [done|]. by apply split_once_none.
Qed.

(** An IPv4 address mapped into IPv6 is not unspecified in Rust's sense, though
    every interface answers to this one on a dual stack. *)
Lemma mapped_wildcard_accepted :
  ∃ cfg, parse (bytes_of_string "token_path=t" ++ [0x0A] ++ bytes_of_string "bind=[::ffff:0.0.0.0]:7644") = Ok cfg ∧
    allow_wildcard_bind cfg = false ∧ addr_ip (bind cfg) = V6 [0; 0; 0; 0; 0; 0xFFFF; 0; 0].
Proof. eexists. split; [vm_compute; reflexivity|]. by split. Qed.

(** ** Witnesses *)

Definition sample_text : list Z :=
  BOM ++ bytes_of_string "# agent" ++ [0x0D; 0x0A] ++ bytes_of_string "bind = [::]:9000" ++ [0x0D; 0x0A] ++
  bytes_of_string " target_fps = 30 " ++ [0x0A] ++ bytes_of_string "token_path=t" ++ [0x0A; 0x0A] ++
  bytes_of_string "allow_wildcard_bind = true" ++ [0x0A] ++ bytes_of_string "target_fps = +060".

Definition sample_config : AgentConfig :=
  mkAgentConfig (mkSocketAddr (V6 [0; 0; 0; 0; 0; 0; 0; 0]) 9000 0) (bytes_of_string "t") (bytes_of_string "oxagent-cert.pem")
    (bytes_of_string "oxagent-key.pem") 60 2 true.


Example default_address : parse_socket_addr (bytes_of_string "127.0.0.1:7644") = Some (bind AgentConfig_default).
Proof. reflexivity. Qed.

Example refused_wildcard :
  parse (bytes_of_string "token_path=t" ++ [0x0A] ++ bytes_of_string "bind=0.0.0.0:7644") = Err (Value "bind" 2).
Proof. reflexivity. Qed.

Example refused_lines :
  parse (bytes_of_string "token_path=t" ++ [0x0A] ++ bytes_of_string "bind") = Err (Syntax 2) ∧
  parse (bytes_of_string "target_fps=0") = Err (Value "target_fps" 1) ∧ parse [] = Err (Missing "token_path").
Proof. repeat split; reflexivity. Qed.
