(* ===== verification/AgentSession.v ===== *)
(** * One session of the agent, from the socket up

    [crates/oxagent/src/serve.rs]: the reader and writer tasks that [run_session]
    starts around the loop of [Serve], what the loop's [select!] takes first,
    and [run_session] itself: the deadline before authentication, the slot that
    one session holds, the end. A schedule is a list of turns of the three tasks;
    a socket is the bytes the peer sends and those written to it. *)

From S2P Require Import Prelude Cursor MsgType MsgControl MsgWindow Envelope Reassembly ProtoMessage Transport.
From S2P Require Import Handshake Model Registry Session Channel Serve ServeSession Text Security.

Definition INBOX_CAPACITY : Z := 256.

Section Tasks.
Context {HO : Channel OutboundChunk} {HM : Channel Message.t}.

(** ** The writer task: [write_outbound] *)

(** [wk_busy]: a chunk was taken and its [flush] has not returned. *)
Record WriterTask : Type := mkWriterTask { wk_chunks : ChunkWriter; wk_busy : bool; wk_ended : option (outcome IoError unit) }.

Definition WriterTask_new : WriterTask := mkWriterTask ChunkWriter_new false None.

(** [chunks.flush], awaited: where the schedule leaves it, it goes on later. *)
Definition writer_flush (evs : list write_event) (cw : ChunkWriter) (wire : list Z) : WriterTask * list Z :=
  match flush evs cw wire with
  | (cw, wire, Done _) => (mkWriterTask cw false None, wire)
  | (cw, wire, Dropped) => (mkWriterTask cw true None, wire)
  | (cw, wire, IoErr k) => (mkWriterTask cw false (Some (Err (StreamError k))), wire)
  | (cw, wire, Panicked) => (mkWriterTask cw false (Some Panic), wire)
  end.

(** The task that ended drops its end of the queue. *)
Definition let_go (w : WriterTask) (outbound : chan (A:=OutboundChunk)) : chan (A:=OutboundChunk) :=
  match wk_ended w with Some _ => drop_rx outbound | None => outbound end.

(** A turn of the task: on with the flush, or the next chunk; the chunk taken. *)
Definition writer_turn (evs : list write_event) (w : WriterTask) (outbound : chan (A:=OutboundChunk)) (wire : list Z)
    : WriterTask * chan (A:=OutboundChunk) * list Z * list OutboundChunk :=
  match wk_ended w with
  | Some _ => (w, outbound, wire, [])
  | None =>
    if wk_busy w then
      let '(w, wire) := writer_flush evs (wk_chunks w) wire in (w, let_go w outbound, wire, [])
    else
      match blocking_recv outbound with
      | None => (w, outbound, wire, [])
      | Some (outbound, None) =>
        let w := mkWriterTask (wk_chunks w) false
                   (Some (match evs with WriteError :: _ => Err (StreamError OtherIo) | _ => Ok () end)) in
        (w, let_go w outbound, wire, [])
      | Some (outbound, Some c) =>
        match Transport.queue_raw (wk_chunks w) (oc_msg_type c) (oc_channel c) (oc_body c) with
        | (cw, Done _) => let '(w, wire) := writer_flush evs cw wire in (w, let_go w outbound, wire, [c])
        | (cw, IoErr _) =>
          let w := mkWriterTask cw false (Some (Err Serve.InvalidData)) in (w, let_go w outbound, wire, [c])
        | (cw, _) => let w := mkWriterTask cw false (Some Panic) in (w, let_go w outbound, wire, [c])
        end
      end
  end.

(** ** The reader task *)

(** [rd_hand]: a message read, while [tx.send] waits for room. *)
Record ReaderTask : Type := mkReaderTask {
  rd_reassembler : Reassembler; rd_in : list Z; rd_hand : option Message.t; rd_stopped : bool
}.

Definition reader_stop (r : ReaderTask) (inbox : chan (A:=Message.t)) : ReaderTask * chan (A:=Message.t) :=
  (mkReaderTask (rd_reassembler r) (rd_in r) None true, drop_tx inbox).

Definition reader_turn (r : ReaderTask) (inbox : chan (A:=Message.t)) : ReaderTask * chan (A:=Message.t) :=
  if rd_stopped r then (r, inbox)
  else
    match rd_hand r with
    | Some m =>
      match try_send inbox m with
      | (inbox, Sent) => (mkReaderTask (rd_reassembler r) (rd_in r) None false, inbox)
      | (_, Full) => (r, inbox)
      | (_, Channel.Closed) => reader_stop r inbox
      end
    | None =>
      match read_message (rd_reassembler r) (rd_in r) with
      | (ra, rest, Done m) => (mkReaderTask ra rest m false, inbox)
      | _ => reader_stop r inbox
      end
    end.

(** ** The three tasks *)

Context {W E I : Type} `{WindowSource W} `{FrameEncoder E} `{InputSink I}.

Record Sys : Type := mkSys {
  y_driver : Driver (W:=W) (E:=E) (I:=I);
  y_inbox : chan (A:=Message.t);
  y_reader : ReaderTask;
  y_writer : WriterTask;
  y_wire : list Z;
  y_ended : option (outcome IoError unit)
}.

Inductive turn : Type :=
| LoopTurn (now_us : Z) (due : option ((gmap Z TrackedWindow → list Z) * (Z → Z * Z)))
| ReaderTurn
| WriterTurn (evs : list write_event).

(** What the loop wakes up to: messages first, then the writer's end, then the
    tick. The inbox after it, too. *)
Definition woken (y : Sys) (now_us : Z) (due : option ((gmap Z TrackedWindow → list Z) * (Z → Z * Z)))
    : option (happening * chan (A:=Message.t)) :=
  match blocking_recv (y_inbox y) with
  | Some (inbox, Some m) => Some (Incoming now_us m, inbox)
  | Some (inbox, None) => Some (ReaderStopped, inbox)
  | None =>
    match wk_ended (y_writer y) with
    | Some r => Some (WriterEnded r, y_inbox y)
    | None => match due with Some (order, readings) => Some (Tick order readings, y_inbox y) | None => None end
    end
  end.

(** A turn: the system after it, what the loop of [Serve] saw of it, and the
    chunks the writer took. *)
Definition sys_turn (su : Setup) (y : Sys) (t : turn) : Sys * list happening * list OutboundChunk :=
  match y_ended y with
  | Some _ => (y, [], [])
  | None =>
    match t with
    | LoopTurn now_us due =>
      match woken y now_us due with
      | None => (y, [], [])
      | Some (h, inbox) =>
        let '(driver, ended) :=
          match happen su (y_driver y) h with
          | Ok (d, _, ends) => (d, if (ends : bool) then Some (Ok ()) else None)
          | Err e => (y_driver y, Some (Err e))
          | Panic => (y_driver y, Some Panic)
          end in
        (mkSys driver inbox (y_reader y) (y_writer y) (y_wire y) ended, [h], [])
      end
    | ReaderTurn =>
      let '(reader, inbox) := reader_turn (y_reader y) (y_inbox y) in
      (mkSys (y_driver y) inbox reader (y_writer y) (y_wire y) None, [], [])
    | WriterTurn evs =>
      let '(writer, outbound, wire, taken) := writer_turn evs (y_writer y) (d_outbound (y_driver y)) (y_wire y) in
      (mkSys (set_outbound outbound (y_driver y)) (y_inbox y) (y_reader y) writer wire None,
       match taken with [] => [] | _ => [Serve.Written] end, taken)
    end
  end.

Fixpoint sys_run (su : Setup) (y : Sys) (ts : list turn) : Sys * list happening * list OutboundChunk :=
  match ts with
  | [] => (y, [], [])
  | t :: ts =>
    let '(y, hs, taken) := sys_turn su y t in
    let '(y, hs', taken') := sys_run su y ts in
    (y, hs ++ hs', taken ++ taken')
  end.

(** What [run_session] starts once it has the slot. *)
Definition sys_start (source : W) (encoder : E) (sink : I) (ra : Reassembler) (s : Stream) : Sys := {|
  y_driver := Driver_new source encoder sink;
  y_inbox := channel INBOX_CAPACITY;
  y_reader := mkReaderTask ra (st_in s) None false;
  y_writer := WriterTask_new;
  y_wire := st_out s;
  y_ended := None
|}.
End Tasks.

(** ** What the peer means, and what the loop gets *)

(** The messages a reader understands, up to one that does not decode. *)
Fixpoint understood (ms : list RawMessage) : list Message.t :=
  match ms with
  | [] => []
  | raw :: ms =>
    match Message.decode_known (raw_type raw) (raw_payload raw) with
    | Ok m => option_list m ++ understood ms
    | _ => []
    end
  end.

Definition received (hs : list happening) : list Message.t :=
  omap (λ h, match h with Incoming _ m => Some m | _ => None end) hs.

Definition chunk_bytes (c : OutboundChunk) : list Z := op_bytes (QueueRaw (oc_msg_type c) (oc_channel c) (oc_body c)).

Lemma read_message_understood ra s :
  Forall u8 s →
  match read_message ra s with
  | (ra', s', Done m) => understood (drain ra s) = option_list m ++ understood (drain ra' s') ∧ Forall u8 s'
  | _ => understood (drain ra s) = []
  end.
Proof.
  intros Hu. unfold read_message. rewrite drain_eq by done.
  destruct (read_reassembled ra s) as [[ra' s'] [raw|k| |]] eqn:E; [|done..].
  apply read_reassembled_shrinks in E as [_ Hu']; [|done]. cbn [understood].
  by destruct (Message.decode_known _ _).
Qed.

Section TaskFacts.
Context `{HOL : ChannelLaws OutboundChunk} `{HML : ChannelLaws Message.t}.
Context {W E I : Type} `{WindowSource W} `{FrameEncoder E} `{InputSink I}.
Implicit Types y : Sys (W:=W) (E:=E) (I:=I).

(** *** The writer *)

(** Between chunks nothing is left to write. *)
Record writer_ok (w : WriterTask) : Prop := {
  wo_inv : writer_inv (wk_chunks w);
  wo_idle : wk_busy w = false → unsent (wk_chunks w) = []
}.

Lemma writer_flush_spec evs cw wire :
  writer_inv cw →
  let '(w, wire') := writer_flush evs cw wire in
  wk_ended w = None → writer_ok w ∧ wire' ++ unsent (wk_chunks w) = wire ++ unsent cw.
Proof.
  intros Hw. unfold writer_flush. pose proof (flush_spec evs cw wire Hw) as Hf.
  destruct (flush evs cw wire) as [[cw' wire'] r]. destruct Hf as (Hi & Hb & _ & Hd & _).
  destruct r as [[]|k| |]; cbn [wk_ended]; try done; intros _; split; try done; split; try done.
  intros _. cbn [wk_chunks]. by rewrite Hd.
Qed.

(** A turn takes what the queue gives and loses nothing. *)
Lemma writer_turn_spec evs w outbound wire :
  wk_ended w = None → writer_ok w →
  let '(w', outbound', wire', taken) := writer_turn evs w outbound wire in
  wk_ended w' = None →
  writer_ok w' ∧ wire' ++ unsent (wk_chunks w') = (wire ++ unsent (wk_chunks w)) ++ concat (map chunk_bytes taken) ∧
  match taken with
  | [] => outbound' = outbound
  | c :: _ => taken = [c] ∧ blocking_recv outbound = Some (outbound', Some c)
  end.
Proof.
  intros He [Hi Hidle]. unfold writer_turn. rewrite He. destruct (wk_busy w) eqn:Eb.
  - pose proof (writer_flush_spec evs (wk_chunks w) wire Hi) as Hf. destruct (writer_flush _ _ _) as [w' wire'].
    intros He'. destruct (Hf He') as [Hok Hw]. unfold let_go. rewrite He'. cbn. by rewrite app_nil_r.
  - destruct (blocking_recv outbound) as [[q [c|]]|] eqn:Er; [|done|].
    + destruct (Transport.queue_raw _ _ _ _) as [cw r] eqn:Eq.
      pose proof (queue_chunks_spec (wk_chunks w) (fragment (oc_msg_type c) (oc_channel c) (oc_body c)) Hi) as [Hi' Hq].
      unfold Transport.queue_raw in Eq. rewrite Eq in Hi', Hq. cbn [fst] in Hi', Hq.
      destruct r as [[]|k| |]; try done.
      pose proof (writer_flush_spec evs cw wire Hi') as Hf. destruct (writer_flush evs cw wire) as [w' wire'].
      intros He'. destruct (Hf He') as [Hok Hw]. unfold let_go. rewrite He'. split; [done|]. split; [|done].
      rewrite Hw, Hq. cbn [map concat]. rewrite app_nil_r, <- app_assoc. done.
    + intros _. cbn. rewrite app_nil_r. split; [|done]. split; [done|by intros _; apply Hidle].
Qed.

(** *** The reader *)

Definition reader_due (r : ReaderTask) : list Message.t :=
  if rd_stopped r then [] else option_list (rd_hand r) ++ understood (drain (rd_reassembler r) (rd_in r)).

Record reader_ok (r : ReaderTask) (inbox : chan (A:=Message.t)) : Prop := {
  ro_u8 : Forall u8 (rd_in r);
  ro_rx : v_rx (view inbox) = true;
  ro_tx : v_tx (view inbox) = negb (rd_stopped r)
}.

Lemma reader_stop_spec r inbox :
  reader_ok r inbox → rd_stopped r = false →
  let '(r', inbox') := reader_stop r inbox in
  reader_ok r' inbox' ∧ v_queued (view inbox') = v_queued (view inbox) ∧ reader_due r' = [].
Proof.
  intros [Hu Hrx _] _. cbn. split; [split|]; cbn; rewrite ?drop_tx_view; cbn; done.
Qed.

Lemma reader_turn_spec r inbox :
  reader_ok r inbox →
  let '(r', inbox') := reader_turn r inbox in
  reader_ok r' inbox' ∧ v_queued (view inbox') ++ reader_due r' = v_queued (view inbox) ++ reader_due r.
Proof.
  intros Hok. unfold reader_turn. destruct (rd_stopped r) eqn:Es; [done|].
  pose proof (reader_stop_spec r inbox Hok Es) as Hstop. destruct Hok as [Hu Hrx Htx].
  unfold reader_due at 2. rewrite Es in *. destruct (rd_hand r) as [m|] eqn:Eh.
  - destruct (try_send inbox m) as [inbox' o] eqn:Et. pose proof (try_send_view inbox m) as Hv. rewrite Et in Hv.
    cbn [fst snd] in Hv. unfold v_try_send, v_room in Hv. rewrite Hrx in Hv. cbn [negb] in Hv.
    destruct (_ <=? _); injection Hv as Hv ->.
    + split; [by split; rewrite ?Es|]. unfold reader_due. by rewrite Es, Eh.
    + split; [split; cbn; rewrite ?Hv; cbn; done|]. rewrite Hv. cbn. by rewrite <- app_assoc.
  - pose proof (read_message_understood (rd_reassembler r) (rd_in r) Hu) as Hm.
    destruct (read_message _ _) as [[ra' rest] [m|k| |]].
    + destruct Hm as [Hm Hu']. split; [by split|]. cbn. by rewrite Hm.
    + destruct (reader_stop r inbox) as [r' inbox']. destruct Hstop as (? & -> & ->). cbn. by rewrite Hm.
    + destruct (reader_stop r inbox) as [r' inbox']. destruct Hstop as (? & -> & ->). cbn. by rewrite Hm.
    + destruct (reader_stop r inbox) as [r' inbox']. destruct Hstop as (? & -> & ->). cbn. by rewrite Hm.
Qed.

(** *** The system *)

Record sys_ok y : Prop := {
  so_writer : wk_ended (y_writer y) = None → writer_ok (y_writer y);
  so_reader : reader_ok (y_reader y) (y_inbox y)
}.

(** The messages the loop has still to get. *)
Definition inbox_due y : list Message.t := v_queued (view (y_inbox y)) ++ reader_due (y_reader y).

Definition unwritten y : list Z := y_wire y ++ unsent (wk_chunks (y_writer y)).

(** The loop of [Serve] run on [hs] ends, or goes on, as the system did. *)
Definition session_agrees su y y' hs taken : Prop :=
  match y_ended y' with
  | None | Some (Ok _) => session su (y_driver y) hs = Ok (y_driver y', taken)
  | Some (Err e) => session su (y_driver y) hs = Err e
  | Some Panic => session su (y_driver y) hs = Panic
  end.

Lemma writer_turn_ended evs w outbound wire :
  wk_ended (writer_turn evs w outbound wire).1.1.1 = None → wk_ended w = None.
Proof. unfold writer_turn. destruct (wk_ended w) eqn:Ew; [|done]. cbn. by rewrite Ew. Qed.

Lemma sys_turn_ended su y t : wk_ended (y_writer (sys_turn su y t).1.1) = None → wk_ended (y_writer y) = None.
Proof.
  unfold sys_turn. destruct (y_ended y); [done|]. destruct t as [now due| |evs].
  - destruct (woken y now due) as [[h inbox]|]; [|done]. destruct (happen su (y_driver y) h) as [[[d cs] []]| |]; done.
  - by destruct (reader_turn _ _).
  - pose proof (writer_turn_ended evs (y_writer y) (d_outbound (y_driver y)) (y_wire y)) as Hw.
    destruct (writer_turn _ _ _ _) as [[[w q] wire] taken]. exact Hw.
Qed.

Lemma sys_run_ended su y ts : wk_ended (y_writer (sys_run su y ts).1.1) = None → wk_ended (y_writer y) = None.
Proof.
  revert y. induction ts as [|t ts IH]; intros y; [done|]. cbn [sys_run].
  pose proof (sys_turn_ended su y t) as Ht. destruct (sys_turn su y t) as [[y1 hs] taken]. specialize (IH y1).
  destruct (sys_run su y1 ts) as [[y2 hs2] taken2]. cbn in *. auto.
Qed.

Lemma sys_run_over su y ts r : y_ended y = Some r → sys_run su y ts = (y, [], []).
Proof.
  intros Hr. induction ts as [|t ts IH]; [done|]. cbn [sys_run]. unfold sys_turn. rewrite Hr. by rewrite IH.
Qed.

(** A turn of the loop: one happening, whose message was the first due. *)
Lemma loop_turn_spec su y now due :
  sys_ok y → y_ended y = None → wk_ended (y_writer y) = None →
  let '(y', hs, taken) := sys_turn su y (LoopTurn now due) in
  sys_ok y' ∧ taken = [] ∧ unwritten y' = unwritten y ∧ inbox_due y = received hs ++ inbox_due y' ∧
  session_agrees su y y' hs taken.
Proof.
  intros [Hw Hr] He Hwe. unfold sys_turn. rewrite He. unfold woken. rewrite Hwe.
  assert (∀ h inbox, reader_ok (y_reader y) inbox → inbox_due y = received [h] ++ v_queued (view inbox) ++ reader_due (y_reader y) →
    (h = Serve.Written → False) →
    let '(y', hs, taken) :=
      let '(driver, ended) :=
        match happen su (y_driver y) h with
        | Ok (d, _, ends) => (d, if (ends : bool) then Some (Ok ()) else None)
        | Err e => (y_driver y, Some (Err e))
        | Panic => (y_driver y, Some Panic)
        end in
      (mkSys driver inbox (y_reader y) (y_writer y) (y_wire y) ended, [h], []) in
    sys_ok y' ∧ taken = [] ∧ unwritten y' = unwritten y ∧ inbox_due y = received hs ++ inbox_due y' ∧
    session_agrees su y y' hs taken) as Hgo.
  { intros h inbox Hok Hdue Hnw. unfold session_agrees. cbn [session].
    destruct (happen su (y_driver y) h) as [[[d cs] ends]| |] eqn:Eh.
    - assert (cs = []) as ->.
      { destruct h; cbn [happen] in Eh; unfold mbind, outcome_bind in Eh; repeat case_match; by simplify_eq. }
      split; [by split|]. split; [done|]. split; [done|]. split; [exact Hdue|]. cbn [session y_ended y_driver]. rewrite Eh. by destruct ends.
    - split; [by split|]. split; [done|]. split; [done|]. split; [exact Hdue|]. cbn [session y_ended y_driver]. by rewrite Eh.
    - split; [by split|]. split; [done|]. split; [done|]. split; [exact Hdue|]. cbn [session y_ended y_driver]. by rewrite Eh. }
  destruct (blocking_recv (y_inbox y)) as [[inbox [m|]]|] eqn:Eb.
  - apply recv_cases in Eb. apply Hgo; [|unfold inbox_due; by rewrite Eb|done].
    destruct Hr as [Hu Hrx Htx]. rewrite Eb in Hrx, Htx. by split.
  - apply recv_cases in Eb as [Ev Eq]. apply Hgo; [|unfold inbox_due; by rewrite Ev|done].
    destruct Hr as [Hu Hrx Htx]. split; [done|by rewrite Ev..].
  - destruct due as [[order readings]|]; [by apply Hgo|]. split; [by split|]. split; [done|]. split; [done|]. split; [done|].
    unfold session_agrees. by rewrite He.
Qed.

Lemma reader_system_spec su y :
  sys_ok y → y_ended y = None →
  let '(y', hs, taken) := sys_turn su y ReaderTurn in
  sys_ok y' ∧ taken = [] ∧ unwritten y' = unwritten y ∧ inbox_due y = received hs ++ inbox_due y' ∧
  session_agrees su y y' hs taken.
Proof.
  intros [Hw Hr] He. unfold sys_turn. rewrite He. pose proof (reader_turn_spec _ _ Hr) as Ht.
  destruct (reader_turn _ _) as [r inbox]. destruct Ht as [Hok Hdue]. split; [by split|]. split; [done|]. split; [done|].
  split; [exact (eq_sym Hdue)|]. done.
Qed.

Lemma set_outbound_same (d : Driver (W:=W) (E:=E) (I:=I)) : set_outbound (d_outbound d) d = d.
Proof. by destruct d. Qed.

Lemma writer_system_spec su y evs :
  sys_ok y → y_ended y = None → wk_ended (y_writer y) = None →
  let '(y', hs, taken) := sys_turn su y (WriterTurn evs) in
  wk_ended (y_writer y') = None →
  sys_ok y' ∧ unwritten y' = unwritten y ++ concat (map chunk_bytes taken) ∧ inbox_due y = received hs ++ inbox_due y' ∧
  session_agrees su y y' hs taken.
Proof.
  intros [Hw Hr] He Hwe. unfold sys_turn. rewrite He.
  pose proof (writer_turn_spec evs _ (d_outbound (y_driver y)) (y_wire y) Hwe (Hw Hwe)) as Ht.
  destruct (writer_turn _ _ _ _) as [[[w q] wire] taken]. cbn [y_writer]. intros Hwe'. destruct (Ht Hwe') as (Hok & Hb & Hq).
  split; [by split|]. split; [exact Hb|]. unfold session_agrees. cbn [y_ended]. destruct taken as [|c taken].
  - subst q. split; [done|]. cbn [session y_driver]. by rewrite set_outbound_same.
  - destruct Hq as [[= ->] Hq]. split; [done|]. cbn [session happen y_driver]. by rewrite Hq.
Qed.

Lemma session_agrees_trans su y y1 y2 hs1 hs2 taken1 taken2 :
  y_ended y1 = None → session_agrees su y y1 hs1 taken1 → session_agrees su y1 y2 hs2 taken2 →
  (length hs1 ≤ 1)%nat → (∀ h, hs1 = [h] → ∃ d1, happen su (y_driver y) h = Ok (d1, taken1, false)) →
  session_agrees su y y2 (hs1 ++ hs2) (taken1 ++ taken2).
Proof.
  intros He Ha Hb Hl Hh. unfold session_agrees in *. rewrite He in Ha. destruct hs1 as [|h [|h' hs1]]; [| |cbn in Hl; lia].
  - cbn in Ha. injection Ha as -> <-. exact Hb.
  - destruct (Hh h eq_refl) as [d1 Eh]. cbn [session app] in *. rewrite Eh in *. cbn [mbind outcome_bind] in *.
    injection Ha as -> _. destruct (y_ended y2) as [[|e|]|]; by rewrite Hb.
Qed.

(** A turn that does not end the loop is at most one happening, which goes on. *)
Lemma turn_goes_on su y t y' hs taken :
  sys_turn su y t = (y', hs, taken) → y_ended y' = None →
  (length hs ≤ 1)%nat ∧ ∀ h, hs = [h] → ∃ d1, happen su (y_driver y) h = Ok (d1, taken, false).
Proof.
  unfold sys_turn. destruct (y_ended y) eqn:E0; [intros [= <- <- <-]; rewrite E0; done|].
  destruct t as [now due| |evs].
  - destruct (woken y now due) as [[h inbox]|] eqn:Ewk; [|intros [= <- <- <-] _; split; [cbn; lia|done]].
    destruct (happen su (y_driver y) h) as [[[d cs] ends]| |] eqn:Eh; [|by intros [= <- <- <-]..].
    destruct ends; [by intros [= <- <- <-]|]. intros [= <- <- <-] _. split; [cbn; lia|]. intros h' [= <-].
    exists d. rewrite Eh. do 3 f_equal. unfold woken in Ewk.
    destruct h; cbn [happen] in Eh; unfold mbind, outcome_bind in Eh; repeat case_match; by simplify_eq.
  - destruct (reader_turn _ _). intros [= <- <- <-] _. split; [cbn; lia|done].
  - unfold writer_turn. intros Et _. revert Et.
    destruct (wk_ended (y_writer y)); [by intros [= <- <- <-]; split; [cbn; lia|]|].
    destruct (wk_busy (y_writer y)).
    + destruct (writer_flush _ _ _). intros [= <- <- <-]. split; [cbn; lia|done].
    + destruct (blocking_recv _) as [[q [c|]]|] eqn:Eb; [|by intros [= <- <- <-]; split; [cbn; lia|]..].
      destruct (Transport.queue_raw _ _ _ _) as [cw [|k| |]]; [destruct (writer_flush _ _ _)| | |];
        intros [= <- <- <-]; (split; [cbn; lia|]); intros h [= <-]; cbn [happen]; rewrite Eb; by eexists.
Qed.

(** Any schedule, as long as the writer has not failed. *)
Lemma sys_run_spec su ts : ∀ y,
  sys_ok y → y_ended y = None →
  let '(y', hs, taken) := sys_run su y ts in
  wk_ended (y_writer y') = None →
  sys_ok y' ∧ unwritten y' = unwritten y ++ concat (map chunk_bytes taken) ∧ inbox_due y = received hs ++ inbox_due y' ∧
  session_agrees su y y' hs taken.
Proof.
  induction ts as [|t ts IH]; intros y Hok He; cbn [sys_run].
  { intros _. split; [done|]. cbn. rewrite app_nil_r. split; [done|]. split; [done|]. unfold session_agrees. by rewrite He. }
  destruct (sys_turn su y t) as [[y1 hs1] taken1] eqn:Et.
  destruct (sys_run su y1 ts) as [[y2 hs2] taken2] eqn:Er. intros Hwe.
  pose proof (sys_run_ended su y1 ts) as Hm1. rewrite Er in Hm1. specialize (Hm1 Hwe).
  pose proof (sys_turn_ended su y t) as Hm. rewrite Et in Hm. specialize (Hm Hm1).
  assert (sys_ok y1 ∧ unwritten y1 = unwritten y ++ concat (map chunk_bytes taken1) ∧
          inbox_due y = received hs1 ++ inbox_due y1 ∧ session_agrees su y y1 hs1 taken1) as (Hok1 & Hb1 & Hd1 & Hs1).
  { destruct t as [now due| |evs].
    - pose proof (loop_turn_spec su y now due Hok He Hm) as Hl. rewrite Et in Hl. destruct Hl as (? & -> & ? & ? & ?).
      cbn. rewrite app_nil_r. auto.
    - pose proof (reader_system_spec su y Hok He) as Hl. rewrite Et in Hl. destruct Hl as (? & -> & ? & ? & ?).
      cbn. rewrite app_nil_r. auto.
    - pose proof (writer_system_spec su y evs Hok He Hm) as Hl. rewrite Et in Hl. auto. }
  destruct (y_ended y1) as [r|] eqn:E1.
  - rewrite (sys_run_over su y1 ts r E1) in Er. injection Er as <- <- <-. rewrite !app_nil_r. auto.
  - specialize (IH y1 Hok1 E1). rewrite Er in IH. destruct (IH Hwe) as (Hok2 & Hb2 & Hd2 & Hs2).
    split; [done|]. split; [by rewrite Hb2, Hb1, map_app, concat_app, app_assoc|].
    split; [rewrite Hd1, Hd2; unfold received; by rewrite omap_app, app_assoc|].
    destruct (turn_goes_on su y t y1 hs1 taken1 Et E1) as [Hl Hh]. by eapply session_agrees_trans.
Qed.

(** *** Bytes and events *)

Definition turn_ok (t : turn) : Prop := match t with LoopTurn _ (Some (order, _)) => ordering order | _ => True end.

Lemma woken_ok y now due h inbox : turn_ok (LoopTurn now due) → woken y now due = Some (h, inbox) → happening_ok h.
Proof. unfold woken, turn_ok. intros Ht Hw. repeat case_match; by simplify_eq. Qed.

Lemma sys_turn_ok su y t : turn_ok t → Forall happening_ok (sys_turn su y t).1.2.
Proof.
  intros Ht. unfold sys_turn. destruct (y_ended y); [constructor|]. destruct t as [now due| |evs].
  - destruct (woken y now due) as [[h inbox]|] eqn:Ew; [|constructor]. apply woken_ok in Ew; [|done].
    destruct (happen su (y_driver y) h) as [[[d cs] ends]| |]; by repeat constructor.
  - destruct (reader_turn _ _). constructor.
  - destruct (writer_turn _ _ _ _) as [[[w q] wire] taken]. cbn. destruct taken; by repeat constructor.
Qed.

Lemma sys_run_ok su y ts : Forall turn_ok ts → Forall happening_ok (sys_run su y ts).1.2.
Proof.
  intros Hts. revert y. induction Hts as [|t ts Ht _ IH]; intros y; [constructor|]. cbn [sys_run].
  pose proof (sys_turn_ok su y t Ht) as Hh. destruct (sys_turn su y t) as [[y1 hs] taken]. specialize (IH y1).
  destruct (sys_run su y1 ts) as [[y2 hs2] taken2]. cbn in *. by apply Forall_app.
Qed.

End TaskFacts.

(** A chunk that is a message a client can read: what it carries is a message
    within the limit of its type. *)
Definition chunk_fits (c : OutboundChunk) : Prop :=
  ∃ m, sendable m ∧ oc_msg_type c = Message.msg_type m ∧ oc_body c = Message.wire m ∧ u16 (oc_channel c).

Lemma drain_chunk c s :
  chunk_fits c → Forall u8 s →
  Forall u8 (chunk_bytes c) ∧
  drain Reassembler_new (chunk_bytes c ++ s) = mkRaw (oc_msg_type c) (oc_body c) :: drain Reassembler_new s.
Proof.
  intros (m & [Hm Hl] & Ht & Hb & Hc) Hu. unfold chunk_bytes. cbn [op_bytes]. rewrite fragment_chunks, Ht, Hb.
  pose proof (chunks_chunk_ok (Message.msg_type m) (oc_channel c) (Message.wire m)
    (msg_type_u8 m) Hc (message_wire_u8 m Hm)) as Hcs.
  pose proof (chunks_wire_u8 _ Hcs) as Hcu. split; [done|].
  pose proof (max_message_len_bounds (Message.msg_type m)). unfold within_limit in Hl; cbn in Hl.
  rewrite drain_eq by (by apply Forall_app). erewrite read_chunks; [|done|done|].
  2: { apply (push_all_chunks _ _ _ _ []); [apply reasm_inv_new|by right|done|cbn; lia]. }
  by rewrite set_channel_none.
Qed.

(** A client that reads the chunks surfaces their events. *)
Lemma chunks_events cs :
  Forall chunk_fits cs →
  Forall u8 (concat (map chunk_bytes cs)) ∧
  session_events (drain Reassembler_new (concat (map chunk_bytes cs))) = omap chunk_event cs.
Proof.
  induction 1 as [|c cs Hc _ [Hu IH]]; [by split; [constructor|vm_compute]|]. cbn [map concat].
  destruct (drain_chunk c _ Hc Hu) as [Hcu ->]. split; [by apply Forall_app|]. cbn [session_events raw_type raw_payload].
  destruct Hc as (m & [Hm _] & Ht & Hb & _). cbn [omap list_omap]. unfold chunk_event at 1. rewrite Ht, Hb.
  rewrite <- (app_nil_r (Message.wire m)), decode_known_wire by done. cbn. rewrite IH. by destruct (event_of m).
Qed.


(** ** [run_session] *)

(** How a session ends: as [run_session] returns, an error of the loop being an
    [HandshakeError::Io]; a panic ends its task. *)
Inductive session_result : Type :=
| Served (n : Negotiated)
| NotServed (e : HandshakeError)
| LoopFailed (e : IoError)
| TaskPanicked.

(** [negotiate] under [timeout_at]. What the peer had not sent by the deadline is
    the end of its stream: [elapsed] tells a deadline from a peer that closed. *)
Definition pre_authenticate (s : Stream) (fates : list write_fate) (session_id : Z) (supported_codecs expected_token : list Z)
    (elapsed : bool) : Stream * Reassembler * hs_result :=
  match negotiate s Reassembler_new fates session_id supported_codecs (verify_token expected_token) with
  | (s, ra, HsDropped) => (s, ra, Refused Timeout)
  | (s, ra, Refused (HsIo UnexpectedEof)) => (s, ra, Refused (if elapsed then Timeout else HsIo UnexpectedEof))
  | r => r
  end.

Definition busy_message : Message.t := Message.Error (mkError error_code.SESSION_BUSY (bytes_of_string "a session is already active")).

(** The answer to a peer that finds the slot taken; its outcome is ignored. *)
Definition turn_away (s : Stream) (fates : list write_fate) : Stream :=
  let out1 := (write_message (st_out s) busy_message channel.CONTROL (fate_at fates 0)).1 in
  let out2 := (write_message out1 (Message.Close (mkClose close_reason.ERROR)) channel.CONTROL (fate_at fates 1)).1 in
  Handshake.mkStream (st_in s) out2.

Inductive opening : Type :=
| Opened (n : Negotiated) (ra : Reassembler) (s : Stream)
| NotOpened (s : Stream) (r : session_result).

(** Up to the loop: [slot] is the permits the semaphore has left. [fates] are
    those of the handshake's writes, [busy_fates] those of the refusal's. *)
Definition open_session (slot : Z) (s : Stream) (fates busy_fates : list write_fate) (session_id : Z)
    (supported_codecs expected_token : list Z) (elapsed : bool) : Z * opening :=
  match pre_authenticate s fates session_id supported_codecs expected_token elapsed with
  | (s, ra, Agreed n) =>
    if 0 <? slot then (slot - 1, Opened n ra s) else (slot, NotOpened (turn_away s busy_fates) (NotServed Busy))
  | (s, _, Refused e) => (slot, NotOpened s (NotServed e))
  | (s, _, HsDropped) => (slot, NotOpened s (NotServed Timeout))
  | (s, _, HsPanicked) => (slot, NotOpened s TaskPanicked)
  end.

Definition session_setup (params : SessionParams) (n : Negotiated) : Setup :=
  mkSetup params (ng_codec n) (session_features (ng_features n)).

(** The end of the loop: the other tasks are stopped, the permit dropped. *)
Definition session_over (n : Negotiated) (outcome : outcome IoError unit) : session_result :=
  match outcome with Ok _ => Served n | Err e => LoopFailed e | Panic => TaskPanicked end.

(** ** The connections of a host

    Every connection runs [run_session] on a task of its own, over one slot. *)
Section Host.
Context {HO : Channel OutboundChunk} {HM : Channel Message.t}.
Context {W E I : Type} `{WindowSource W} `{FrameEncoder E} `{InputSink I}.

Inductive conn : Type :=
| Waiting (s : Stream)
| Driving (s : Stream) (n : Negotiated) (y : Sys (W:=W) (E:=E) (I:=I))
| Over (s : Stream) (written : list Z) (r : session_result).

Record Host : Type := mkHost { h_slot : Z; h_conns : list conn }.

(** [Semaphore::new(1)] *)
Definition host_start : Host := mkHost 1 [].

Record HostConfig : Type := mkHostConfig { hc_params : SessionParams; hc_token : list Z; hc_codecs : list Z }.

Inductive host_event : Type :=
| Arrive (s : Stream)
| Open (i : nat) (fates busy_fates : list write_fate) (session_id : Z) (elapsed : bool) (source : W) (encoder : E) (sink : I)
| Turn (i : nat) (t : turn)
| Finish (i : nat).

Definition host_step (cfg : HostConfig) (h : Host) (ev : host_event) : Host :=
  match ev with
  | Arrive s => mkHost (h_slot h) (h_conns h ++ [Waiting s])
  | Open i fates busy_fates session_id elapsed source encoder sink =>
    match h_conns h !! i with
    | Some (Waiting s) =>
      match open_session (h_slot h) s fates busy_fates session_id (hc_codecs cfg) (hc_token cfg) elapsed with
      | (slot, Opened n ra s') => mkHost slot (<[i := Driving s n (sys_start source encoder sink ra s')]> (h_conns h))
      | (slot, NotOpened s' r) => mkHost slot (<[i := Over s (st_out s') r]> (h_conns h))
      end
    | _ => h
    end
  | Turn i t =>
    match h_conns h !! i with
    | Some (Driving s n y) =>
      mkHost (h_slot h) (<[i := Driving s n (sys_turn (session_setup (hc_params cfg) n) y t).1.1]> (h_conns h))
    | _ => h
    end
  | Finish i =>
    match h_conns h !! i with
    | Some (Driving s n y) =>
      match y_ended y with
      | Some r => mkHost (h_slot h + 1) (<[i := Over s (y_wire y) (session_over n r)]> (h_conns h))
      | None => h
      end
    | _ => h
    end
  end.

Definition host_run (cfg : HostConfig) (h : Host) (evs : list host_event) : Host := fold_left (host_step cfg) evs h.

(** ** One session at a time *)

Definition driving (c : conn) : bool := match c with Driving _ _ _ => true | _ => false end.
Definition drivers (cs : list conn) : Z := len (List.filter driving cs).

(** What the peer had sent: a hello with the token, and codecs of which the one
    agreed is one. *)
Definition authenticated (cfg : HostConfig) (s : Stream) (n : Negotiated) : Prop :=
  ∃ ra rest hello, read_message Reassembler_new (st_in s) = (ra, rest, Done (Some (Message.ClientHello hello))) ∧
    ch_auth_token hello = hc_token cfg ∧ ng_codec n ∈ ch_codecs hello ∧ ng_codec n ∈ hc_codecs cfg.

Definition refused_busy (cfg : HostConfig) (s : Stream) (written : list Z) : Prop :=
  ∃ n s' fates, authenticated cfg s n ∧ written = st_out (turn_away s' fates).

(** The invariant of a host. *)
Definition conn_ok (cfg : HostConfig) (c : conn) : Prop :=
  match c with
  | Waiting _ => True
  | Driving s n _ => authenticated cfg s n
  | Over s written (Served n) => authenticated cfg s n
  | Over s written (NotServed Busy) => refused_busy cfg s written
  | Over _ _ _ => True
  end.

Record host_ok (cfg : HostConfig) (h : Host) : Prop := {
  ho_slot : 0 ≤ h_slot h;
  ho_count : h_slot h + drivers (h_conns h) = 1;
  ho_conns : Forall (conn_ok cfg) (h_conns h)
}.

(** [negotiate] agrees only after a hello that verifies. *)
Lemma agreed_hello s ra fates sid codecs verify s' ra' n :
  negotiate s ra fates sid codecs verify = (s', ra', Agreed n) →
  ∃ rest hello, read_message ra (st_in s) = (ra', rest, Done (Some (Message.ClientHello hello))) ∧
    verify (ch_auth_token hello) = true ∧ ng_codec n ∈ ch_codecs hello ∧ ng_codec n ∈ codecs.
Proof.
  unfold negotiate. destruct (read_message ra (st_in s)) as [[ra1 rest] r]. destruct r as [[m|]|k| |]; try done.
  destruct m as [h|m|m|m|m|m|m|m|m|m|m|m|m|m|m|m|m|m|m|m|m|m|m|m|m]; try by cbn.
  destruct (verify (ch_auth_token h)) eqn:Ev; cbn [negb]; [|by cbn].
  destruct (_ || _); [by cbn|]. destruct (List.find _ _) as [c|] eqn:Ef; [|by cbn].
  destruct (write_message _ _ _ _) as [out w]. destruct w as [[]|k| |]; [|intros Ew; discriminate Ew..].
  intros [= <- <- <-]. exists rest, h. cbn. split; [done|]. split; [done|].
  apply List.find_some in Ef as [Hin Hc]. apply bool_decide_eq_true in Hc. by rewrite <- list_elem_of_In in Hin.
Qed.

Lemma open_session_spec cfg slot s fates busy_fates sid elapsed slot' o :
  0 ≤ slot → open_session slot s fates busy_fates sid (hc_codecs cfg) (hc_token cfg) elapsed = (slot', o) →
  match o with
  | Opened n _ _ => 0 < slot ∧ slot' = slot - 1 ∧ authenticated cfg s n
  | NotOpened s' r => slot' = slot ∧ conn_ok cfg (Over s (st_out s') r)
  end.
Proof.
  intros Hs. unfold open_session, pre_authenticate.
  destruct (negotiate _ _ _ _ _ _) as [[s1 ra] r] eqn:En. destruct r as [n|e| |]; [|destruct e as [[]| | |]|..].
  { apply agreed_hello in En as (rest & hello & Hr & Ht & Hc & Hd). apply verify_token_exact in Ht.
    assert (authenticated cfg s n) by (by exists ra, rest, hello).
    destruct (Z.ltb_spec 0 slot); intros [= <- <-]; [done|]. split; [done|]. by exists n, s1, busy_fates. }
  all: try (destruct elapsed); intros [= <- <-]; split; try done.
  all: exfalso; revert En; unfold negotiate; clear; intros En; repeat case_match; by simplify_eq.
Qed.

Lemma drivers_insert cs i c c' :
  cs !! i = Some c → drivers (<[i := c']> cs) = drivers cs - Z.b2z (driving c) + Z.b2z (driving c').
Proof.
  unfold drivers, len. revert i. induction cs as [|a cs IH]; intros [|i]; try done.
  - intros [= ->]. cbn. destruct (driving c), (driving c'); cbn; lia.
  - intros Hi. specialize (IH i Hi). change (<[S i:=c']> (a :: cs)) with (a :: <[i:=c']> cs). cbn [List.filter].
    destruct (driving a); cbn [length]; lia.
Qed.

Lemma host_step_ok cfg h ev : host_ok cfg h → host_ok cfg (host_step cfg h ev).
Proof.
  intros [Hs Hc Hf]. assert (∀ i c, h_conns h !! i = Some c → conn_ok cfg c) as Hl.
  { intros i c Hi. by eapply Forall_lookup_1. }
  destruct ev as [s|i fates busy sid elapsed source encoder sink|i t|i]; cbn [host_step].
  - split; cbn; [done| |apply Forall_app; split; [done|by repeat constructor]].
    unfold drivers, len in *. rewrite List.filter_app, length_app. cbn. lia.
  - destruct (h_conns h !! i) as [[s| |]|] eqn:Ei; try done.
    destruct (open_session _ _ _ _ _ _ _ _) as [slot o] eqn:Eo. apply open_session_spec in Eo; [|done].
    destruct o as [n ra s'|s' r].
    + destruct Eo as (Hp & -> & Ha). split; cbn [h_slot h_conns]; [lia| |by apply Forall_insert].
      rewrite (drivers_insert _ _ _ _ Ei). cbn. lia.
    + destruct Eo as [-> Ho]. split; cbn [h_slot h_conns]; [done| |by apply Forall_insert].
      rewrite (drivers_insert _ _ _ _ Ei). cbn. lia.
  - destruct (h_conns h !! i) as [[|s n y|]|] eqn:Ei; try done. split; cbn [h_slot h_conns]; [done| |].
    + rewrite (drivers_insert _ _ _ _ Ei). cbn. lia.
    + apply Forall_insert; [done|]. exact (Hl _ _ Ei).
  - destruct (h_conns h !! i) as [[|s n y|]|] eqn:Ei; try done. destruct (y_ended y) as [r|]; [|done].
    split; cbn [h_slot h_conns]; [lia| |].
    + rewrite (drivers_insert _ _ _ _ Ei). cbn. lia.
    + apply Forall_insert; [done|]. pose proof (Hl _ _ Ei) as Ha. cbn in Ha. by destruct r.
Qed.

Lemma host_run_ok cfg evs h : host_ok cfg h → host_ok cfg (host_run cfg h evs).
Proof. revert h. induction evs as [|ev evs IH]; intros h Hh; [done|]. by apply IH, host_step_ok. Qed.
End Host.


(** ** Witnesses *)

Import ServeSession.Demo.

Module Run.
(** A client's ping on the socket; a tick, its two chunks written in pieces, the
    ping read, handed over and answered. *)
Definition from_client : list Z := op_bytes (QueueMessage (Message.Ping (mkPing 7 5)) channel.CONTROL).
Definition due : turn := LoopTurn 9 (Some (by_handle, λ _, (1000, 2000))).
Definition schedule : list turn :=
  [due; WriterTurn [Accept 3; WriteCancel]; ReaderTurn; ReaderTurn; WriterTurn [Accept 500]; due; WriterTurn [Accept 500]].
Definition the_run := sys_run setup (sys_start 0%nat tt ([] : list SinkCall) Reassembler_new (Handshake.mkStream from_client [])) schedule.

(** The window's opening and its first frame. *)
Definition opened : Message.t :=
  Message.WindowOpened (mkWindowOpened 1 16 7 [97] [65] 5 6 300 200 96 (window_flags at_home) (show_state at_home)).
Definition framed : Message.t :=
  Message.FrameData (mkFrameData 1 1 codec.RAW_BGRA frame_flag.KEYFRAME 1 1 1000 1000 [1; 2; 3; 255]).
End Run.

Lemma run_chunks_fit : Forall chunk_fits Run.the_run.2.
Proof.
  replace Run.the_run.2 with
    [chunk_of Run.opened; mkChunk msg_type.FRAME_DATA 16 (Message.wire Run.framed) (Some (1, 1))] by (vm_compute; reflexivity).
  assert (∀ m, m = Run.opened ∨ m = Run.framed → sendable m) as Hs.
  { intros m [-> | ->]; vm_compute; repeat constructor; try reflexivity; discriminate. }
  repeat constructor.
  - exists Run.opened. split; [auto|]. do 2 (split; [done|]). by vm_compute.
  - exists Run.framed. split; [auto|]. do 2 (split; [done|]). by vm_compute.
Qed.


(** Two clients with the token: the second is turned away until the first is gone. *)
Module TwoClients.
Definition hello (token : string) : list Z :=
  op_bytes (QueueMessage (Message.ClientHello (mkClientHello 1 1 0 (bytes_of_string token) [99] [codec.RAW_BGRA]
    (mkDisplayLayout []))) channel.CONTROL).
Definition arrives (token : string) : host_event (W:=nat) (E:=unit) (I:=list SinkCall) := Arrive (Handshake.mkStream (hello token) []).
Definition opens (i : nat) : host_event (W:=nat) (E:=unit) (I:=list SinkCall) := Open i [] [] 1 false 0%nat tt [].
Definition cfg : HostConfig := mkHostConfig SessionParams_default (bytes_of_string "secret") [codec.RAW_BGRA].
Definition kind (c : conn (W:=nat) (E:=unit) (I:=list SinkCall)) : nat :=
  match c with
  | Waiting _ => 0 | Driving _ _ _ => 1 | Over _ _ (Served _) => 2 | Over _ _ (NotServed Busy) => 3
  | Over _ _ (NotServed (Rejected _ _)) => 4 | Over _ _ _ => 5
  end.
End TwoClients.

Example second_client_waits :
  TwoClients.kind <$> h_conns (host_run TwoClients.cfg host_start
    [TwoClients.arrives "secret"; TwoClients.arrives "secret"; TwoClients.arrives "guess"; TwoClients.arrives "secret";
     TwoClients.opens 0; TwoClients.opens 1; TwoClients.opens 2;
     Turn 0 ReaderTurn; Turn 0 (LoopTurn 0 None); Finish 0; TwoClients.opens 3]) = [2; 3; 4; 1]%nat.
Proof. vm_compute. reflexivity. Qed.
