(* ===== verification/LatencyMonitor.v ===== *)
(** * Where a frame's latency goes

    [crates/oxclient/src/latency.rs]: [LatencyMonitor], which follows each frame
    from its arrival to a surface, and the part of its report that puts the
    slow frames on a time line. The report's figures are data here; only the
    text around them is left out. The rates are binary64, in the executable
    specification of the Standard Library. *)

From Stdlib Require Import Floats.SpecFloat.
From stdpp Require Import sorting.
From S2P Require Import Prelude Latency.

Definition SAMPLE_WINDOW : nat := 2048.
Definition MAX_IN_FLIGHT : nat := 256.
Definition AGENT_IN_FLIGHT_BUDGET : nat := 2.
Definition OUTLIER_PERCENTILE : Z := 95.
Definition MIN_LOCALISE_FRAMES : nat := 40.
Definition TAIL_BUCKETS_US : list Z :=
  [1000000; 2000000; 5000000; 10000000; 30000000; 60000000; 300000000].
Definition MAX_TAIL_ROWS : Z := 16.
Definition MAX_NAMED_OUTLIERS : nat := 12.

(** ** Data *)

Record FrameStages : Type := mkStages {
  capture_to_encode_us : Z;
  encode_to_arrival_us : Z;
  arrival_to_decode_us : Z;
  decode_to_present_us : Z;
  client_us : Z;
  total_us : Z
}.

Record ArrivedFrame : Type := mkArrived {
  af_window_id : Z; af_frame_id : Z; af_captured_us : Z; af_encoded_us : Z; af_arrived_us : Z;
  af_keyframe : bool; af_bytes : Z
}.

Record Partial : Type := mkPartial {
  pt_captured_us : Z; pt_encoded_us : Z; pt_arrived_us : Z; pt_decoded_us : option Z;
  pt_keyframe : bool; pt_bytes : Z; pt_encode_gap_us : option Z; pt_arrival_gap_us : option Z; pt_backlog : nat
}.

(** The pair [[Samples; 2]], indexed by [usize::from(bool)]. *)
Record pair_of (A : Type) : Type := mkPair { at_false : A; at_true : A }.
Arguments mkPair {_} _ _.
Arguments at_false {_} _.
Arguments at_true {_} _.

Definition pick {A} (p : pair_of A) (b : bool) : A := if b then at_true p else at_false p.
Definition put {A} (p : pair_of A) (b : bool) (x : A) : pair_of A :=
  if b then mkPair (at_false p) x else mkPair x (at_true p).

Record WindowLatency : Type := mkWindowLatency {
  wl_in_flight : gmap Z Partial;
  wl_capture_to_encode : Samples;
  wl_encode_to_arrival : Samples;
  wl_arrival_to_decode : Samples;
  wl_decode_to_present : Samples;
  wl_client : Samples;
  wl_total : Samples;
  wl_transit : pair_of (pair_of Samples);
  wl_keyframe_bytes : Samples;
  wl_delta_bytes : Samples;
  wl_presented : Z;
  wl_dropped : Z
}.

Definition fresh : Samples := Samples_new SAMPLE_WINDOW.

Definition WindowLatency_new : WindowLatency :=
  mkWindowLatency ∅ fresh fresh fresh fresh fresh fresh (mkPair (mkPair fresh fresh) (mkPair fresh fresh)) fresh fresh 0 0.

Record Completed : Type := mkCompleted {
  cp_window_id : Z; cp_frame_id : Z; cp_presented_us : Z; cp_capture_to_encode_us : Z; cp_encode_to_arrival_us : Z;
  cp_arrival_to_decode_us : Z; cp_decode_to_present_us : Z; cp_total_us : Z; cp_bytes : Z; cp_keyframe : bool;
  cp_encode_gap_us : option Z; cp_arrival_gap_us : option Z
}.

Record IntervalSummary : Type := mkInterval {
  iv_frames : Z; iv_fps : spec_float; iv_transit_p50_us : option Z; iv_transit_p95_us : option Z; iv_total_p50_us : option Z
}.

Record LatencyMonitor : Type := mkMonitor {
  lm_windows : gmap Z WindowLatency;
  lm_enabled : bool;
  lm_interval_transit : Samples;
  lm_interval_total : Samples;
  lm_interval_frames : Z;
  lm_interval_started_us : Z;
  lm_history : list IntervalSummary;
  lm_arrival_gaps : Samples;
  lm_last_arrival_us : gmap Z Z;
  lm_last_encoded_us : gmap Z Z;
  lm_timeline : list Completed;
  lm_timeline_evicted : Z;
  lm_read_stalls : Z;
  lm_read_stalled_us : Z
}.

Definition with_recording (enabled : bool) : LatencyMonitor :=
  mkMonitor ∅ enabled fresh fresh 0 0 [] fresh ∅ ∅ [] 0 0 0.

Definition disabled : LatencyMonitor := with_recording false.
Definition enabled : LatencyMonitor := with_recording true.

Definition set_windows ws m :=
  mkMonitor ws (lm_enabled m) (lm_interval_transit m) (lm_interval_total m) (lm_interval_frames m) (lm_interval_started_us m)
    (lm_history m) (lm_arrival_gaps m) (lm_last_arrival_us m) (lm_last_encoded_us m) (lm_timeline m) (lm_timeline_evicted m)
    (lm_read_stalls m) (lm_read_stalled_us m).

Definition set_gaps gaps arrival encoded m :=
  mkMonitor (lm_windows m) (lm_enabled m) (lm_interval_transit m) (lm_interval_total m) (lm_interval_frames m)
    (lm_interval_started_us m) (lm_history m) gaps arrival encoded (lm_timeline m) (lm_timeline_evicted m)
    (lm_read_stalls m) (lm_read_stalled_us m).

Definition set_interval transit total frames started m :=
  mkMonitor (lm_windows m) (lm_enabled m) transit total frames started
    (lm_history m) (lm_arrival_gaps m) (lm_last_arrival_us m) (lm_last_encoded_us m) (lm_timeline m) (lm_timeline_evicted m)
    (lm_read_stalls m) (lm_read_stalled_us m).

Definition set_history h m :=
  mkMonitor (lm_windows m) (lm_enabled m) (lm_interval_transit m) (lm_interval_total m) (lm_interval_frames m)
    (lm_interval_started_us m) h (lm_arrival_gaps m) (lm_last_arrival_us m) (lm_last_encoded_us m) (lm_timeline m)
    (lm_timeline_evicted m) (lm_read_stalls m) (lm_read_stalled_us m).

Definition set_timeline tl evicted m :=
  mkMonitor (lm_windows m) (lm_enabled m) (lm_interval_transit m) (lm_interval_total m) (lm_interval_frames m)
    (lm_interval_started_us m) (lm_history m) (lm_arrival_gaps m) (lm_last_arrival_us m) (lm_last_encoded_us m) tl evicted
    (lm_read_stalls m) (lm_read_stalled_us m).

(** ** Following a frame *)

Definition on_read_stall (stalled_us : Z) (m : LatencyMonitor) : outcome unit LatencyMonitor :=
  if negb (lm_enabled m) then Ok m
  else
    stalls ← add_uint 64 (lm_read_stalls m) 1;
    Ok (mkMonitor (lm_windows m) (lm_enabled m) (lm_interval_transit m) (lm_interval_total m) (lm_interval_frames m)
          (lm_interval_started_us m) (lm_history m) (lm_arrival_gaps m) (lm_last_arrival_us m) (lm_last_encoded_us m)
          (lm_timeline m) (lm_timeline_evicted m) stalls (sat_uint 64 (lm_read_stalled_us m + stalled_us))).

(** [map.insert(key, now).map(|previous| now.saturating_sub(previous))] *)
Definition gap_since (last : gmap Z Z) (key now : Z) : option Z :=
  (λ previous, sat_uint 64 (now - previous)) <$> last !! key.

Definition push_some (s : Samples) (o : option Z) : outcome unit Samples :=
  match o with Some x => samples_push s x | None => Ok s end.

(** [keys().next()] of the ordered map. *)
Definition first_key (f : gmap Z Partial) : option Z := list_min (map_to_list f).*1.

(** [while window.in_flight.len() > MAX_IN_FLIGHT]; one frame goes each time. *)
Fixpoint evict_loop (fuel : nat) (f : gmap Z Partial) (dropped : Z) : outcome unit (gmap Z Partial * Z) :=
  match fuel with
  | O => Ok (f, dropped)
  | S fuel =>
    if (MAX_IN_FLIGHT <? size f)%nat then
      match first_key f with
      | None => Ok (f, dropped)
      | Some oldest => dropped ← add_uint 64 dropped 1; evict_loop fuel (delete oldest f) dropped
      end
    else Ok (f, dropped)
  end.

Definition window_arrival (w : WindowLatency) (frame : ArrivedFrame) (encode_gap arrival_gap : option Z) :
    outcome unit WindowLatency :=
  let backlog := size (wl_in_flight w) in
  kb ← (if af_keyframe frame then samples_push (wl_keyframe_bytes w) (af_bytes frame) else Ok (wl_keyframe_bytes w));
  db ← (if af_keyframe frame then Ok (wl_delta_bytes w) else samples_push (wl_delta_bytes w) (af_bytes frame));
  let partial := mkPartial (af_captured_us frame) (af_encoded_us frame) (af_arrived_us frame) None
                   (af_keyframe frame) (af_bytes frame) encode_gap arrival_gap backlog in
  let f := <[af_frame_id frame := partial]> (wl_in_flight w) in
  x ← evict_loop (size f) f (wl_dropped w);
  let '(f, dropped) := x in
  Ok (mkWindowLatency f (wl_capture_to_encode w) (wl_encode_to_arrival w) (wl_arrival_to_decode w) (wl_decode_to_present w)
        (wl_client w) (wl_total w) (wl_transit w) kb db (wl_presented w) dropped).

Definition on_arrival (frame : ArrivedFrame) (m : LatencyMonitor) : outcome unit LatencyMonitor :=
  if negb (lm_enabled m) then Ok m
  else
    let id := af_window_id frame in
    let arrival_gap := gap_since (lm_last_arrival_us m) id (af_arrived_us frame) in
    gaps ← push_some (lm_arrival_gaps m) arrival_gap;
    let encode_gap := gap_since (lm_last_encoded_us m) id (af_encoded_us frame) in
    let m := set_gaps gaps (<[id := af_arrived_us frame]> (lm_last_arrival_us m))
                      (<[id := af_encoded_us frame]> (lm_last_encoded_us m)) m in
    let w := default WindowLatency_new (lm_windows m !! id) in
    w ← window_arrival w frame encode_gap arrival_gap;
    Ok (set_windows (<[id := w]> (lm_windows m)) m).

Definition set_in_flight f w :=
  mkWindowLatency f (wl_capture_to_encode w) (wl_encode_to_arrival w) (wl_arrival_to_decode w) (wl_decode_to_present w)
    (wl_client w) (wl_total w) (wl_transit w) (wl_keyframe_bytes w) (wl_delta_bytes w) (wl_presented w) (wl_dropped w).

Definition decoded_at (us : Z) (p : Partial) : Partial :=
  mkPartial (pt_captured_us p) (pt_encoded_us p) (pt_arrived_us p) (Some us) (pt_keyframe p) (pt_bytes p)
    (pt_encode_gap_us p) (pt_arrival_gap_us p) (pt_backlog p).

Definition on_decoded (window_id frame_id decoded_us : Z) (m : LatencyMonitor) : LatencyMonitor :=
  if negb (lm_enabled m) then m
  else match lm_windows m !! window_id with
       | None => m
       | Some w =>
         match wl_in_flight w !! frame_id with
         | None => m
         | Some p =>
           set_windows (<[window_id := set_in_flight (<[frame_id := decoded_at decoded_us p]> (wl_in_flight w)) w]> (lm_windows m)) m
         end
       end.

(** The stages of a frame that reached a surface. *)
Definition stages_of (p : Partial) (presented_us offset_us : Z) : FrameStages :=
  let decoded_us := default (pt_arrived_us p) (pt_decoded_us p) in
  let captured_client := agent_to_client (pt_captured_us p) offset_us in
  let encoded_client := agent_to_client (pt_encoded_us p) offset_us in
  mkStages (sat_uint 64 (pt_encoded_us p - pt_captured_us p))
           (sat_uint 64 (pt_arrived_us p - encoded_client))
           (sat_uint 64 (decoded_us - pt_arrived_us p))
           (sat_uint 64 (presented_us - decoded_us))
           (sat_uint 64 (presented_us - pt_arrived_us p))
           (sat_uint 64 (presented_us - captured_client)).

(** The window's samples, with the frame already out of flight. *)
Definition window_presented (w : WindowLatency) (p : Partial) (s : FrameStages) : outcome unit WindowLatency :=
  c2e ← samples_push (wl_capture_to_encode w) (capture_to_encode_us s);
  e2a ← samples_push (wl_encode_to_arrival w) (encode_to_arrival_us s);
  let backlogged := (AGENT_IN_FLIGHT_BUDGET <=? pt_backlog p)%nat in
  cell ← samples_push (pick (pick (wl_transit w) (pt_keyframe p)) backlogged) (encode_to_arrival_us s);
  let transit := put (wl_transit w) (pt_keyframe p) (put (pick (wl_transit w) (pt_keyframe p)) backlogged cell) in
  a2d ← samples_push (wl_arrival_to_decode w) (arrival_to_decode_us s);
  d2p ← samples_push (wl_decode_to_present w) (decode_to_present_us s);
  client ← samples_push (wl_client w) (client_us s);
  total ← samples_push (wl_total w) (total_us s);
  presented ← add_uint 64 (wl_presented w) 1;
  Ok (mkWindowLatency (wl_in_flight w) c2e e2a a2d d2p client total transit (wl_keyframe_bytes w) (wl_delta_bytes w)
        presented (wl_dropped w)).

Definition push_timeline (record : Completed) (m : LatencyMonitor) : outcome unit LatencyMonitor :=
  if (length (lm_timeline m) =? SAMPLE_WINDOW)%nat then
    evicted ← add_uint 64 (lm_timeline_evicted m) 1;
    Ok (set_timeline (tail (lm_timeline m) ++ [record]) evicted m)
  else Ok (set_timeline (lm_timeline m ++ [record]) (lm_timeline_evicted m) m).

Definition completed_of (window_id frame_id presented_us : Z) (p : Partial) (s : FrameStages) : Completed :=
  mkCompleted window_id frame_id presented_us (capture_to_encode_us s) (encode_to_arrival_us s) (arrival_to_decode_us s)
    (decode_to_present_us s) (total_us s) (pt_bytes p) (pt_keyframe p) (pt_encode_gap_us p) (pt_arrival_gap_us p).

Definition on_presented (window_id frame_id presented_us offset_us : Z) (m : LatencyMonitor) :
    outcome unit (option FrameStages * LatencyMonitor) :=
  if negb (lm_enabled m) then Ok (None, m)
  else match lm_windows m !! window_id with
       | None => Ok (None, m)
       | Some w =>
         match wl_in_flight w !! frame_id with
         | None => Ok (None, m)
         | Some p =>
           let w := set_in_flight (delete frame_id (wl_in_flight w)) w in
           let stages := stages_of p presented_us offset_us in
           w ← window_presented w p stages;
           transit ← samples_push (lm_interval_transit m) (encode_to_arrival_us stages);
           total ← samples_push (lm_interval_total m) (total_us stages);
           frames ← add_uint 64 (lm_interval_frames m) 1;
           let m := set_interval transit total frames (lm_interval_started_us m)
                                 (set_windows (<[window_id := w]> (lm_windows m)) m) in
           m ← push_timeline (completed_of window_id frame_id presented_us p stages) m;
           Ok (Some stages, m)
         end
       end.

Definition on_dropped (window_id frame_id : Z) (m : LatencyMonitor) : outcome unit LatencyMonitor :=
  if negb (lm_enabled m) then Ok m
  else match lm_windows m !! window_id with
       | None => Ok m
       | Some w =>
         match wl_in_flight w !! frame_id with
         | None => Ok m
         | Some _ =>
           dropped ← add_uint 64 (wl_dropped w) 1;
           let w := set_in_flight (delete frame_id (wl_in_flight w)) w in
           Ok (set_windows (<[window_id :=
                 mkWindowLatency (wl_in_flight w) (wl_capture_to_encode w) (wl_encode_to_arrival w) (wl_arrival_to_decode w)
                   (wl_decode_to_present w) (wl_client w) (wl_total w) (wl_transit w) (wl_keyframe_bytes w) (wl_delta_bytes w)
                   (wl_presented w) dropped]> (lm_windows m)) m)
         end
       end.

Definition monitor_forget (window_id : Z) (m : LatencyMonitor) : LatencyMonitor :=
  set_gaps (lm_arrival_gaps m) (delete window_id (lm_last_arrival_us m)) (delete window_id (lm_last_encoded_us m))
           (set_windows (delete window_id (lm_windows m)) m).

Definition has_samples (m : LatencyMonitor) : bool :=
  existsb (λ w, negb (samples_is_empty (wl_total w))) (map_to_list (lm_windows m)).*2.

(** ** Intervals *)

Definition f64_of (x : Z) : spec_float := binary_normalize 53 1024 x 0 false.

Definition fps_of (frames elapsed_us : Z) : spec_float :=
  if elapsed_us =? 0 then f64_of 0
  else SFdiv 53 1024 (SFmul 53 1024 (f64_of frames) (f64_of 1000000)) (f64_of elapsed_us).

Definition close_interval (now_us : Z) (m : LatencyMonitor) : outcome unit LatencyMonitor :=
  let elapsed_us := sat_uint 64 (now_us - lm_interval_started_us m) in
  let fps := fps_of (lm_interval_frames m) elapsed_us in
  m ← (if 0 <? lm_interval_frames m then
         p50 ← samples_percentile (lm_interval_transit m) 50;
         p95 ← samples_percentile (lm_interval_transit m) 95;
         total ← samples_percentile (lm_interval_total m) 50;
         Ok (set_history (lm_history m ++ [mkInterval (lm_interval_frames m) fps p50 p95 total]) m)
       else Ok m);
  Ok (set_interval fresh fresh 0 now_us m).

(** ** The figures of the report *)

(** A percentile, or [=max] when the samples are too few for it. *)
Inductive figure : Type := Shown (value : option Z) | EqualsMax.

Definition P95_MIN : nat := 20.
Definition P99_MIN : nat := 100.

Record Percentiles : Type := mkPercentiles { pc_n : nat; pc_p50 : option Z; pc_p95 : figure; pc_p99 : figure; pc_max : option Z }.

Definition figure_at (s : Samples) (p : Z) (minimum : nat) : outcome unit figure :=
  if (minimum <=? sm_len s)%nat then (v ← samples_percentile s p; Ok (Shown v)) else Ok EqualsMax.

Definition percentiles (s : Samples) : outcome unit Percentiles :=
  p50 ← samples_percentile s 50;
  p95 ← figure_at s 95 P95_MIN;
  p99 ← figure_at s 99 P99_MIN;
  top ← samples_max s;
  Ok (mkPercentiles (sm_len s) p50 p95 p99 top).

Definition samples_of (values : list Z) : outcome unit Samples := push_samples (Samples_new (length values)) values.

Definition tail_bucket_us (span_us : Z) : Z :=
  let fits width := span_us / width <? MAX_TAIL_ROWS in
  match find fits TAIL_BUCKETS_US with Some width => width | None => 300000000 end.

(** [buckets.entry(..).or_default().push(record)] over the time line, and the
    ordered map's entries. *)
Definition add_to_bucket (width : Z) (buckets : gmap Z (list Completed)) (c : Completed) : gmap Z (list Completed) :=
  let key := cp_presented_us c / width in
  <[key := default [] (buckets !! key) ++ [c]]> buckets.

Definition buckets_of (width : Z) (timeline : list Completed) : gmap Z (list Completed) :=
  fold_left (add_to_bucket width) timeline ∅.

Definition ordered_entries {A} (m : gmap Z A) : list (Z * A) :=
  omap (λ k, (λ v, (k, v)) <$> m !! k) (merge_sort Z.le (map_to_list m).*1).

Definition is_outlier (threshold : Z) (c : Completed) : bool := threshold <? cp_encode_to_arrival_us c.

Record TailRow : Type := mkTailRow {
  tr_seconds : Z; tr_records : list Completed; tr_outliers : nat;
  tr_e2a_p50 : option Z; tr_e2a_max : option Z; tr_c2e_p50 : option Z; tr_a2d_p50 : option Z; tr_d2p_p50 : option Z;
  tr_total_p50 : option Z
}.

Definition stage_percentile (f : Completed → Z) (p : Z) (records : list Completed) : outcome unit (option Z) :=
  s ← samples_of (map f records); samples_percentile s p.

Definition tail_row (width threshold : Z) (entry : Z * list Completed) : outcome unit TailRow :=
  let '(bucket, records) := entry in
  let stage f p := stage_percentile f p records in
  e2a ← stage cp_encode_to_arrival_us 50; top ← stage cp_encode_to_arrival_us 100;
  c2e ← stage cp_capture_to_encode_us 50; a2d ← stage cp_arrival_to_decode_us 50;
  d2p ← stage cp_decode_to_present_us 50; total ← stage cp_total_us 50;
  seconds ← (if bucket * width <? 2 ^ 64 then Ok (bucket * width / 1000000) else Panic);
  Ok (mkTailRow seconds records (length (List.filter (is_outlier threshold) records)) e2a top c2e a2d d2p total).

Fixpoint tail_rows (width threshold : Z) (entries : list (Z * list Completed)) : outcome unit (list TailRow) :=
  match entries with
  | [] => Ok []
  | e :: entries => row ← tail_row width threshold e; rows ← tail_rows width threshold entries; Ok (row :: rows)
  end.

(** What the frames of a group were. *)
Record TailGroup : Type := mkTailGroup {
  tg_n : nat; tg_bytes_p50 : option Z; tg_keyframes : nat; tg_encode_gap_p50 : option Z; tg_arrival_gap_p50 : option Z
}.

Definition tail_group (group : list Completed) : outcome unit (option TailGroup) :=
  match group with
  | [] => Ok None
  | _ =>
    b ← samples_of (map cp_bytes group); bytes ← samples_percentile b 50;
    e ← samples_of (omap cp_encode_gap_us group); eg ← samples_percentile e 50;
    a ← samples_of (omap cp_arrival_gap_us group); ag ← samples_percentile a 50;
    Ok (Some (mkTailGroup (length group) bytes (length (List.filter cp_keyframe group)) eg ag))
  end.

Inductive TailReport : Type :=
| TooFew (finished : nat)
| NoThreshold
| Tail (width threshold evicted : Z) (rows : list TailRow) (outliers : list Completed) (out rest : option TailGroup).

Definition localise_tail (m : LatencyMonitor) : outcome unit TailReport :=
  let timeline := lm_timeline m in
  if (length timeline <? MIN_LOCALISE_FRAMES)%nat then Ok (TooFew (length timeline))
  else
    s ← samples_of (map cp_encode_to_arrival_us timeline);
    t ← samples_percentile s OUTLIER_PERCENTILE;
    match t with
    | None => Ok NoThreshold
    | Some threshold =>
      let earliest := default 0 (list_min (map cp_presented_us timeline)) in
      let latest := default 0 (list_max (map cp_presented_us timeline)) in
      let width := tail_bucket_us (sat_uint 64 (latest - earliest)) in
      let buckets := buckets_of width timeline in
      rows ← tail_rows width threshold (ordered_entries buckets);
      let outliers := List.filter (is_outlier threshold) timeline in
      let others := List.filter (λ c, negb (is_outlier threshold c)) timeline in
      out ← tail_group outliers;
      rest ← tail_group others;
      Ok (Tail width threshold (lm_timeline_evicted m) rows outliers out rest)
    end.

(** [worst] is the outliers from the slowest down, in whatever order the
    unstable sort leaves equals; the first of them are named. *)
Definition named (worst : list Completed) : list (Z * Z * Z) * nat :=
  (map (λ c, (cp_window_id c, cp_frame_id c, cp_encode_to_arrival_us c)) (take MAX_NAMED_OUTLIERS worst),
   (length worst - MAX_NAMED_OUTLIERS)%nat).

Record WindowReport : Type := mkWindowReport {
  wr_window_id : Z; wr_presented : Z; wr_dropped : Z; wr_rows : list Percentiles;
  wr_transit : list (bool * bool * Percentiles * option Z)
}.

Definition transit_row (w : WindowLatency) (keyframe backlogged : bool) : outcome unit (list (bool * bool * Percentiles * option Z)) :=
  let transit := pick (pick (wl_transit w) keyframe) backlogged in
  if samples_is_empty transit then Ok []
  else
    p ← percentiles transit;
    b ← samples_percentile (if keyframe then wl_keyframe_bytes w else wl_delta_bytes w) 50;
    Ok [(keyframe, backlogged, p, b)].

Definition window_report (id : Z) (w : WindowLatency) : outcome unit WindowReport :=
  r1 ← percentiles (wl_capture_to_encode w); r2 ← percentiles (wl_encode_to_arrival w);
  r3 ← percentiles (wl_arrival_to_decode w); r4 ← percentiles (wl_decode_to_present w);
  r5 ← percentiles (wl_client w); r6 ← percentiles (wl_total w);
  t1 ← transit_row w true true; t2 ← transit_row w true false;
  t3 ← transit_row w false true; t4 ← transit_row w false false;
  Ok (mkWindowReport id (wl_presented w) (wl_dropped w) [r1; r2; r3; r4; r5; r6] (t1 ++ t2 ++ t3 ++ t4)).

Fixpoint window_reports (entries : list (Z * WindowLatency)) : outcome unit (list WindowReport) :=
  match entries with
  | [] => Ok []
  | (id, w) :: entries =>
    if samples_is_empty (wl_total w) then window_reports entries
    else r ← window_report id w; rs ← window_reports entries; Ok (r :: rs)
  end.

(** [x.round() as u64] of a binary64. *)
Definition round_u64 (f : spec_float) : Z :=
  match f with
  | S754_infinity false => 2 ^ 64 - 1
  | S754_finite false m e =>
    sat_uint 64 (if 0 <=? e then Z.pos m * 2 ^ e else (2 * Z.pos m + 2 ^ (- e)) / (2 * 2 ^ (- e)))
  | _ => 0
  end.

(** The lowest and the highest of a figure over the intervals. *)
Definition spread (values : list Z) : option (Z * Z) := low ← list_min values; high ← list_max values; Some (low, high).

Record Report : Type := mkReport {
  rp_windows : list WindowReport;
  rp_stalls : Z * Z;
  rp_interval : option (Z * spec_float * option Z * option Z);
  rp_tail : TailReport;
  rp_spreads : list (option (Z * Z))
}.

Definition report (now_us : Z) (m : LatencyMonitor) : outcome unit (Report * LatencyMonitor) :=
  m ← close_interval now_us m;
  ws ← window_reports (ordered_entries (lm_windows m));
  iv ← match last (lm_history m) with
       | Some l =>
         p50 ← samples_percentile (lm_arrival_gaps m) 50;
         p95 ← samples_percentile (lm_arrival_gaps m) 95;
         Ok (Some (iv_frames l, iv_fps l, p50, p95))
       | None => Ok None
       end;
  tail ← localise_tail m;
  let spreads := if (2 <=? length (lm_history m))%nat then
                   [spread (omap iv_transit_p50_us (lm_history m)); spread (omap iv_total_p50_us (lm_history m));
                    spread (map (λ i, round_u64 (iv_fps i)) (lm_history m))]
                 else [] in
  Ok (mkReport ws (lm_read_stalls m, lm_read_stalled_us m) iv tail spreads, m).
