(* ===== verification/LatencyFlow.v ===== *)
(** * Every frame is accounted for

    Theorems on [LatencyMonitor]: the stages of a frame are the time it took,
    over any sequence of events no frame is lost or counted twice and the
    windows and the time line hold the latest frames, and what the tables of the
    report can and cannot hold. *)

From stdpp Require Import sorting.
From S2P Require Import Prelude Latency LatencyMonitor.

(** ** The stages *)

(** On one clock, let a frame be captured, encoded, read off the wire,
    decoded and presented in that order, and let the agent's stamps be shifted by
    the true clock offset. With an offset estimate that is off by [error], three
    stages and the client's share are the exact durations, encode to arrival and
    the total are off by exactly that error, and the four stages add up to the
    total. A frame without a decode report counts as decoded on arrival. *)
Theorem stages_exact (captured encoded arrived decoded presented theta error : Z) (p : Partial) :
  0 ≤ captured ≤ encoded → encoded ≤ arrived ≤ decoded → decoded ≤ presented < 2 ^ 64 →
  pt_captured_us p = captured + theta → pt_encoded_us p = encoded + theta → pt_arrived_us p = arrived →
  default arrived (pt_decoded_us p) = decoded →
  u64 (captured + theta) → u64 (encoded + theta) →
  0 ≤ captured - error → encoded - error ≤ arrived →
  let s := stages_of p presented (theta + error) in
  s = mkStages (encoded - captured) (arrived - encoded + error) (decoded - arrived) (presented - decoded)
        (presented - arrived) (presented - captured + error) ∧
  capture_to_encode_us s + encode_to_arrival_us s + arrival_to_decode_us s + decode_to_present_us s = total_us s ∧
  arrival_to_decode_us s + decode_to_present_us s = client_us s.
Proof.
  intros Hc He Hd Pc Pe Pa Pd Uc Ue Hlow Hhigh s.
  assert (s = mkStages (encoded - captured) (arrived - encoded + error) (decoded - arrived) (presented - decoded)
        (presented - arrived) (presented - captured + error)) as ->; [|split_and!; [done|cbn; lia..]].
  unfold s, stages_of. rewrite Pc, Pe, Pa, Pd.
  assert (∀ t, u64 (t + theta) → 0 ≤ t - error < 2 ^ 64 → agent_to_client (t + theta) (theta + error) = t - error) as Hmove.
  { intros t Ht Hu. replace (t + theta) with (t - error + (theta + error)) by lia. apply agent_to_client_exact; [done|].
    by replace (t - error + (theta + error)) with (t + theta) by lia. }
  rewrite !Hmove by (done || lia). f_equal; rewrite sat_uint_id; unfold is_uint; lia.
Qed.

Lemma stages_exact_witness :
  stages_of (mkPartial 1100 1150 170 (Some 175) false 9 None None 0) 180 1005 = mkStages 50 25 5 5 10 85.
Proof.
  apply (stages_exact 100 150 170 175 180 1000 5 (mkPartial 1100 1150 170 (Some 175) false 9 None None 0));
    try reflexivity; unfold is_uint; lia.
Defined.

(** ** Windows that hold samples *)

(** The window holds the latest of a history. *)
Definition holds (s : Samples) (hist : list Z) : Prop :=
  samples_inv s ∧ sm_capacity s = SAMPLE_WINDOW ∧ contents s = last_n SAMPLE_WINDOW hist.

Definition window_ok (s : Samples) : Prop := ∃ hist, holds s hist.

Lemma fresh_holds : holds fresh [].
Proof. split_and!; [apply samples_new_inv|done|done]. Qed.

Lemma fresh_ok : window_ok fresh.
Proof. exists []. apply fresh_holds. Qed.

Lemma push_holds s hist v : holds s hist → ∃ s', samples_push s v = Ok s' ∧ holds s' (hist ++ [v]).
Proof.
  intros (Hs & Hcap & Hc). rewrite <- Hcap in Hc. destruct (push_samples_history [v] s hist Hs Hc) as (s' & E & Hs' & Hcap' & Hc').
  exists s'. rewrite Hcap in *. split_and!; [|done..]. cbn in E. by destruct (samples_push s v).
Qed.

Lemma push_ok s v : window_ok s → ∃ s', samples_push s v = Ok s' ∧ window_ok s'.
Proof. intros [hist Hh]. destruct (push_holds _ _ v Hh) as (s' & E & Hh'). exists s'. split; [done|by eexists]. Qed.

Lemma push_some_ok s o : window_ok s → ∃ s', push_some s o = Ok s' ∧ window_ok s'.
Proof. intros Hs. destruct o; [by apply push_ok|by exists s]. Qed.

(** ** A run and what it should have recorded *)

Inductive monitor_event : Type :=
| EvArrived (frame : ArrivedFrame)
| EvDecoded (window_id frame_id decoded_us : Z)
| EvPresented (window_id frame_id presented_us offset_us : Z)
| EvDropped (window_id frame_id : Z)
| EvForget (window_id : Z)
| EvStalled (stalled_us : Z)
| EvClosed (now_us : Z).

Definition quietly (x : outcome unit LatencyMonitor) : outcome unit (option FrameStages * LatencyMonitor) :=
  m ← x; Ok (None, m).

Definition observe (e : monitor_event) (m : LatencyMonitor) : outcome unit (option FrameStages * LatencyMonitor) :=
  match e with
  | EvArrived f => quietly (on_arrival f m)
  | EvDecoded w f us => Ok (None, on_decoded w f us m)
  | EvPresented w f us off => on_presented w f us off m
  | EvDropped w f => quietly (on_dropped w f m)
  | EvForget w => Ok (None, monitor_forget w m)
  | EvStalled us => quietly (on_read_stall us m)
  | EvClosed now => quietly (close_interval now m)
  end.

Definition step : Type := monitor_event * option FrameStages.

Fixpoint observe_all (es : list monitor_event) (m : LatencyMonitor) : outcome unit (list step * LatencyMonitor) :=
  match es with
  | [] => Ok ([], m)
  | e :: es =>
    x ← observe e m;
    y ← observe_all es x.2;
    Ok ((e, x.1) :: y.1, y.2)
  end.

(** The frames that arrived for a window since it was last forgotten. *)
Definition arrive (id : Z) (acc : list Z) (x : step) : list Z :=
  match x.1 with
  | EvArrived f => if af_window_id f =? id then acc ++ [af_frame_id f] else acc
  | EvForget w => if w =? id then [] else acc
  | _ => acc
  end.
Definition arrived_since (id : Z) (tr : list step) : list Z := fold_left (arrive id) tr [].

(** The totals of those that reached a surface. *)
Definition finish (id : Z) (acc : list Z) (x : step) : list Z :=
  match x with
  | (EvPresented w _ _ _, Some s) => if w =? id then acc ++ [total_us s] else acc
  | (EvForget w, _) => if w =? id then [] else acc
  | _ => acc
  end.
Definition totals_since (id : Z) (tr : list step) : list Z := fold_left (finish id) tr [].

(** Every frame that reached a surface, in order. *)
Definition shown_step (x : step) : option (Z * Z * Z * Z * Z) :=
  match x with
  | (EvPresented w f us _, Some s) => Some (w, f, us, encode_to_arrival_us s, total_us s)
  | _ => None
  end.
Definition shown (tr : list step) : list (Z * Z * Z * Z * Z) := omap shown_step tr.

Definition brief (c : Completed) : Z * Z * Z * Z * Z :=
  (cp_window_id c, cp_frame_id c, cp_presented_us c, cp_encode_to_arrival_us c, cp_total_us c).

Definition arrivals (es : list monitor_event) : list (Z * Z) :=
  omap (λ e, match e with EvArrived f => Some (af_window_id f, af_frame_id f) | _ => None end) es.

(** ** The invariant *)

Record window_samples (totals : list Z) (w : WindowLatency) : Prop := {
  ws_stages : window_ok (wl_capture_to_encode w) ∧ window_ok (wl_encode_to_arrival w) ∧ window_ok (wl_arrival_to_decode w) ∧
              window_ok (wl_decode_to_present w) ∧ window_ok (wl_client w);
  ws_transit k b : window_ok (pick (pick (wl_transit w) k) b);
  ws_bytes : window_ok (wl_keyframe_bytes w) ∧ window_ok (wl_delta_bytes w);
  ws_total : holds (wl_total w) totals
}.

Record window_inv (arrived totals : list Z) (w : WindowLatency) : Prop := {
  wi_samples : window_samples totals w;
  wi_flying k : is_Some (wl_in_flight w !! k) → k ∈ arrived;
  wi_bound : (size (wl_in_flight w) ≤ MAX_IN_FLIGHT)%nat;
  wi_balance : wl_presented w + wl_dropped w + Z.of_nat (size (wl_in_flight w)) = len arrived;
  wi_presented : wl_presented w = len totals;
  wi_dropped : 0 ≤ wl_dropped w
}.

Record flow_inv (tr : list step) (m : LatencyMonitor) : Prop := {
  fi_enabled : lm_enabled m = true;
  fi_samples : window_ok (lm_interval_transit m) ∧ window_ok (lm_interval_total m) ∧ window_ok (lm_arrival_gaps m);
  fi_frames : 0 ≤ lm_interval_frames m ≤ len tr;
  fi_stalls : 0 ≤ lm_read_stalls m ≤ len tr;
  fi_timeline : map brief (lm_timeline m) = last_n SAMPLE_WINDOW (shown tr);
  fi_evicted : lm_timeline_evicted m + len (lm_timeline m) = len (shown tr);
  fi_window id w : lm_windows m !! id = Some w → window_inv (arrived_since id tr) (totals_since id tr) w;
  fi_absent id : lm_windows m !! id = None → arrived_since id tr = [] ∧ totals_since id tr = []
}.

Lemma window_new_inv : window_inv [] [] WindowLatency_new.
Proof.
  pose proof fresh_ok. split; cbn; [|intros k|..]; try done.
  - split; try done; [by intros [] []|apply fresh_holds].
  - rewrite lookup_empty. by intros [? ?].
  - rewrite map_size_empty. lia.
Qed.

Lemma enabled_inv : flow_inv [] enabled.
Proof.
  pose proof fresh_ok. by split.

Qed.

Lemma arrived_snoc id tr x : arrived_since id (tr ++ [x]) = arrive id (arrived_since id tr) x.
Proof. unfold arrived_since. by rewrite fold_left_app. Qed.
Lemma totals_snoc id tr x : totals_since id (tr ++ [x]) = finish id (totals_since id tr) x.
Proof. unfold totals_since. by rewrite fold_left_app. Qed.
Lemma shown_snoc tr x : shown (tr ++ [x]) = shown tr ++ omap shown_step [x].
Proof. unfold shown. by rewrite omap_app. Qed.

Lemma arrive_length id acc x : (length (arrive id acc x) ≤ S (length acc))%nat.
Proof. unfold arrive. destruct x.1; try lia; case_match; rewrite ?length_app; cbn; lia. Qed.

Lemma len_arrived id tr : len (arrived_since id tr) ≤ len tr.
Proof.
  induction tr as [|x tr IH] using rev_ind; [done|]. rewrite arrived_snoc, len_app.
  pose proof (arrive_length id (arrived_since id tr) x). unfold len in *. cbn. lia.
Qed.

Lemma len_shown tr : len (shown tr) ≤ len tr.
Proof.
  induction tr as [|x tr IH] using rev_ind; [done|]. rewrite shown_snoc, !len_app. cbn.
  destruct (shown_step x); cbn; len_lia.
Qed.

Lemma arrived_in id k tr : k ∈ arrived_since id tr → (id, k) ∈ arrivals (map fst tr).
Proof.
  induction tr as [|x tr IH] using rev_ind; [by intros ?%elem_of_nil|]. rewrite arrived_snoc, map_app. unfold arrivals.
  rewrite omap_app, elem_of_app. fold (arrivals (map fst tr)). unfold arrive. destruct x as [e o]. cbn [fst map].
  destruct e; try (by left; auto); case_match; try (by left; auto); [|by intros ?%elem_of_nil].
  rewrite elem_of_app, list_elem_of_singleton. intros [?| ->]; [by left; auto|]. right. cbn.
  apply Z.eqb_eq in H as ->. by left.
Qed.

(** ** One event *)

Lemma evict_spec f d fuel :
  (size f ≤ S MAX_IN_FLIGHT)%nat → (0 < fuel)%nat → d + 1 < 2 ^ 64 →
  ∃ f' d', evict_loop fuel f d = Ok (f', d') ∧ (size f' ≤ MAX_IN_FLIGHT)%nat ∧ d ≤ d' ∧
    d' + Z.of_nat (size f') = d + Z.of_nat (size f) ∧ ∀ k, is_Some (f' !! k) → is_Some (f !! k).
Proof.
  intros Hsize Hfuel Hd. destruct fuel as [|fuel]; [lia|]. cbn [evict_loop]. destruct (Nat.ltb_spec MAX_IN_FLIGHT (size f)) as [Hlt|Hle].
  2:{ exists f, d. split_and!; (done || lia). }
  unfold first_key. destruct (map_to_list f) as [|[k0 p0] l] eqn:El.
  { apply map_to_list_empty_iff in El as ->. rewrite map_size_empty in Hlt. lia. }
  destruct (list_min _) as [k|] eqn:Ek; [|by destruct l].
  assert (∃ p, f !! k = Some p) as [p Hp].
  { destruct (fold_min_spec (l.*1) k0) as [Hin _]. cbn in Ek. injection Ek as Ek. fold (@fmap list _ (Z * Partial) Z) in Ek.
    assert (k ∈ (map_to_list f).*1) as Hk.
    { rewrite El. cbn. rewrite <- Ek. exact Hin. }
    apply list_elem_of_fmap in Hk as ([k' p'] & -> & Hin'). exists p'. by apply elem_of_map_to_list in Hin'. }
  unfold add_uint. destruct (Z.ltb_spec (d + 1) (2 ^ 64)); [|lia]. cbn [mbind outcome_bind].
  assert (S (size (delete k f)) = size f) as Hdel.
  { rewrite map_size_delete_Some by done. lia. }
  exists (delete k f), (d + 1). split_and!; [|lia..|].
  - destruct fuel as [|fuel]; [done|]. cbn [evict_loop]. destruct (Nat.ltb_spec MAX_IN_FLIGHT (size (delete k f))); [lia|done].
  - intros k' [p' Hp']. apply lookup_delete_Some in Hp' as [_ Hp']. by eexists.
Qed.

Ltac bind_push :=
  match goal with
  | |- context [samples_push ?s ?v] =>
    let s' := fresh "s'" in let E := fresh "E" in let Hs := fresh "Hs" in
    destruct (push_ok s v ltac:(auto)) as (s' & E & Hs); rewrite E; cbn [mbind outcome_bind]
  end.

Lemma window_arrival_inv arrived totals w f eg ag :
  window_inv arrived totals w → af_frame_id f ∉ arrived → len arrived + 1 < 2 ^ 64 →
  ∃ w', window_arrival w f eg ag = Ok w' ∧ window_inv (arrived ++ [af_frame_id f]) totals w'.
Proof.
  intros [[Hst Htr [Hk Hd] Htot] Hfly Hbound Hbal Hpres Hdrop] Hnew Hlen. unfold window_arrival.
  assert (wl_in_flight w !! af_frame_id f = None) as Hnone.
  { destruct (wl_in_flight w !! af_frame_id f) eqn:E; [|done]. destruct Hnew. apply Hfly. by eexists. }
  assert (∃ kb, (if af_keyframe f then samples_push (wl_keyframe_bytes w) (af_bytes f) else Ok (wl_keyframe_bytes w)) = Ok kb ∧ window_ok kb)
    as (kb & -> & Hkb) by (destruct (af_keyframe f); [by apply push_ok|by eexists]).
  assert (∃ db, (if af_keyframe f then Ok (wl_delta_bytes w) else samples_push (wl_delta_bytes w) (af_bytes f)) = Ok db ∧ window_ok db)
    as (db & -> & Hdb) by (destruct (af_keyframe f); [by eexists|by apply push_ok]).
  cbn [mbind outcome_bind]. set (p := mkPartial _ _ _ _ _ _ _ _ _). set (fl := <[af_frame_id f := p]> (wl_in_flight w)).
  assert (size fl = S (size (wl_in_flight w))) as Hsize by (unfold fl; by rewrite map_size_insert_None).
  assert (0 ≤ wl_presented w) by (rewrite Hpres; apply len_nonneg).
  destruct (evict_spec fl (wl_dropped w) (size fl)) as (f' & d' & -> & Hb & Hd' & Hbal' & Hsub); [lia|lia|lia|].
  cbn [mbind outcome_bind]. eexists. split; [done|]. split; cbn; try done; [| |lia].
  - intros k [p' Hp']%Hsub. unfold fl in Hp'. rewrite elem_of_app, list_elem_of_singleton.
    apply lookup_insert_Some in Hp' as [[-> _]|[_ Hp']]; [by right|left]. apply Hfly. by eexists.
  - rewrite len_app. change (len [af_frame_id f]) with 1. lia.
Qed.

(** An event that no window's record depends on. *)
Lemma flow_inv_same tr x m m' :
  flow_inv tr m → (∀ id acc, arrive id acc x = acc) → (∀ id acc, finish id acc x = acc) → shown_step x = None →
  lm_enabled m' = true → window_ok (lm_interval_transit m') → window_ok (lm_interval_total m') → window_ok (lm_arrival_gaps m') →
  0 ≤ lm_interval_frames m' ≤ len tr + 1 → 0 ≤ lm_read_stalls m' ≤ len tr + 1 →
  lm_timeline m' = lm_timeline m → lm_timeline_evicted m' = lm_timeline_evicted m →
  (∀ id, lm_windows m' !! id = None → lm_windows m !! id = None) →
  (∀ id w, lm_windows m' !! id = Some w → window_inv (arrived_since id tr) (totals_since id tr) w) →
  flow_inv (tr ++ [x]) m'.
Proof.
  intros Hi Ha Hf Hs He S1 S2 S3 C1 C2 T1 T2 Wn Ws. assert (len (tr ++ [x]) = len tr + 1) as Hlen by (rewrite len_app; done).
  split; rewrite ?shown_snoc, ?Hlen, ?T1, ?T2; cbn; rewrite ?Hs, ?app_nil_r; try done.
  - apply Hi.
  - apply Hi.
  - intros id w Hw. rewrite arrived_snoc, totals_snoc, Ha, Hf. by apply Ws.
  - intros id Hw. rewrite arrived_snoc, totals_snoc, Ha, Hf. apply Hi. by apply Wn.
Qed.

Lemma arrived_event tr m f :
  flow_inv tr m → len tr + 1 < 2 ^ 64 → af_frame_id f ∉ arrived_since (af_window_id f) tr →
  ∃ m', observe (EvArrived f) m = Ok (None, m') ∧ flow_inv (tr ++ [(EvArrived f, None)]) m'.
Proof.
  intros Hi Hlen Hnew. pose proof Hi as [He (S1 & S2 & S3) C1 C2 T1 T2 Ws Wn]. cbn [observe]. unfold on_arrival. rewrite He. cbn [negb].
  destruct (push_some_ok (lm_arrival_gaps m) (gap_since (lm_last_arrival_us m) (af_window_id f) (af_arrived_us f)) S3) as (gaps & -> & Hg).
  cbn [mbind outcome_bind set_gaps lm_windows]. set (id := af_window_id f) in *.
  set (w := default WindowLatency_new (lm_windows m !! id)).
  assert (window_inv (arrived_since id tr) (totals_since id tr) w) as Hw.
  { unfold w. destruct (lm_windows m !! id) as [w0|] eqn:Ew; [by apply Ws|]. destruct (Wn id Ew) as [-> ->]. apply window_new_inv. }
  pose proof (len_arrived id tr).
  destruct (window_arrival_inv _ _ _ f (gap_since (lm_last_encoded_us m) id (af_encoded_us f))
              (gap_since (lm_last_arrival_us m) id (af_arrived_us f)) Hw Hnew) as (w' & -> & Hw'); [lia|].
  cbn [mbind outcome_bind quietly]. eexists. split; [done|].
  assert (len (tr ++ [(EvArrived f, None)]) = len tr + 1) as Hl by (rewrite len_app; done).
  split; cbn; rewrite ?shown_snoc, ?Hl; cbn; rewrite ?app_nil_r; try done; [lia|lia| |].
  - intros id' w1 Hw1. rewrite arrived_snoc, totals_snoc. unfold arrive, finish. cbn. fold id.
    apply lookup_insert_Some in Hw1 as [[<- <-]|[Hne Hw1]].
    + by rewrite Z.eqb_refl.
    + replace (id =? id') with false by (symmetry; by apply Z.eqb_neq). by apply Ws.
  - intros id' [Hw1 Hne]%lookup_insert_None. rewrite arrived_snoc, totals_snoc. unfold arrive, finish. cbn. fold id.
    replace (id =? id') with false by (symmetry; by apply Z.eqb_neq). by apply Wn.
Qed.

(** One window's record is replaced, the trace says nothing new about any. *)
Lemma window_update_inv tr x m id w w' :
  flow_inv tr m → (∀ id acc, arrive id acc x = acc) → (∀ id acc, finish id acc x = acc) → shown_step x = None →
  lm_windows m !! id = Some w → window_inv (arrived_since id tr) (totals_since id tr) w' →
  flow_inv (tr ++ [x]) (set_windows (<[id := w']> (lm_windows m)) m).
Proof.
  intros Hi Ha Hf Hs Hw Hw'. pose proof Hi as [He (S1 & S2 & S3) C1 C2 T1 T2 Ws Wn].
  eapply flow_inv_same; try done; cbn; [lia|lia| |].
  - intros id' [Hn _]%lookup_insert_None. done.
  - intros id' w1 [[<- <-]|[_ Hw1]]%lookup_insert_Some; [done|by apply Ws].
Qed.

Lemma nothing_new tr x m :
  flow_inv tr m → (∀ id acc, arrive id acc x = acc) → (∀ id acc, finish id acc x = acc) → shown_step x = None →
  flow_inv (tr ++ [x]) m.
Proof.
  intros Hi Ha Hf Hs. pose proof Hi as [He (S1 & S2 & S3) C1 C2 T1 T2 Ws Wn]. eapply flow_inv_same; try done; lia.
Qed.

Lemma set_in_flight_inv arrived totals w f :
  window_inv arrived totals w → size f = size (wl_in_flight w) → (∀ k, is_Some (f !! k) → is_Some (wl_in_flight w !! k)) →
  window_inv arrived totals (set_in_flight f w).
Proof. intros [[Hst Htr Hb Htot] Hfly Hbound Hbal Hpres Hdrop] Hsz Hsub. split; cbn; rewrite ?Hsz; auto. by split. Qed.

Lemma decoded_event tr m wid fid us :
  flow_inv tr m →
  ∃ m', observe (EvDecoded wid fid us) m = Ok (None, m') ∧ flow_inv (tr ++ [(EvDecoded wid fid us, None)]) m'.
Proof.
  intros Hi. eexists. split; [done|]. unfold on_decoded. rewrite (fi_enabled _ _ Hi). cbn [negb].
  destruct (lm_windows m !! wid) as [w|] eqn:Ew; [|by apply nothing_new].
  destruct (wl_in_flight w !! fid) as [p|] eqn:Ep; [|by apply nothing_new].
  eapply window_update_inv; try done. apply set_in_flight_inv; [by apply Hi|by rewrite map_size_insert_Some by (by eexists)|].
  intros k [p' [[-> _]|[_ Hp']]%lookup_insert_Some]; by eexists.
Qed.

Lemma delete_size (f : gmap Z Partial) k p : f !! k = Some p → S (size (delete k f)) = size f.
Proof.
  intros Hp. rewrite map_size_delete_Some by done. assert (size f ≠ 0%nat); [|lia].
  intros E0. apply map_size_empty_inv in E0. by rewrite E0, lookup_empty in Hp.
Qed.

Lemma dropped_event tr m wid fid :
  flow_inv tr m → len tr + 1 < 2 ^ 64 →
  ∃ m', observe (EvDropped wid fid) m = Ok (None, m') ∧ flow_inv (tr ++ [(EvDropped wid fid, None)]) m'.
Proof.
  intros Hi Hlen. cbn [observe]. unfold on_dropped. rewrite (fi_enabled _ _ Hi). cbn [negb].
  destruct (lm_windows m !! wid) as [w|] eqn:Ew; [|exists m; split; [done|by apply nothing_new]].
  destruct (wl_in_flight w !! fid) as [p|] eqn:Ep; [|exists m; split; [done|by apply nothing_new]].
  pose proof (fi_window _ _ Hi _ _ Ew) as [[Hst Htr Hb Htot] Hfly Hbound Hbal Hpres Hdrop]. pose proof (len_arrived wid tr).
  assert (0 ≤ wl_presented w) by (rewrite Hpres; apply len_nonneg).
  pose proof (delete_size _ _ _ Ep) as Hsz.
  unfold add_uint. destruct (Z.ltb_spec (wl_dropped w + 1) (2 ^ 64)); [|lia]. cbn [mbind outcome_bind quietly].
  eexists. split; [done|]. eapply window_update_inv; try done. split; cbn; try done; [|lia..].
  intros k [p' [_ Hp']%lookup_delete_Some]. apply Hfly. by eexists.
Qed.

Lemma forget_event tr m wid :
  flow_inv tr m → ∃ m', observe (EvForget wid) m = Ok (None, m') ∧ flow_inv (tr ++ [(EvForget wid, None)]) m'.
Proof.
  intros Hi. pose proof Hi as [He (S1 & S2 & S3) C1 C2 T1 T2 Ws Wn]. eexists. split; [done|].
  assert (len (tr ++ [(EvForget wid, None)]) = len tr + 1) as Hl by (rewrite len_app; done).
  split; cbn; rewrite ?shown_snoc, ?Hl; cbn; rewrite ?app_nil_r; try done; [lia|lia| |].
  - intros id w [Hne Hw]%lookup_delete_Some. rewrite arrived_snoc, totals_snoc. unfold arrive, finish. cbn.
    replace (wid =? id) with false by (symmetry; by apply Z.eqb_neq). by apply Ws.
  - intros id Hw. rewrite arrived_snoc, totals_snoc. unfold arrive, finish. cbn.
    destruct (Z.eqb_spec wid id) as [|Hne]; [done|]. rewrite lookup_delete_ne in Hw by done. by apply Wn.
Qed.

Lemma stalled_event tr m us :
  flow_inv tr m → len tr + 1 < 2 ^ 64 →
  ∃ m', observe (EvStalled us) m = Ok (None, m') ∧ flow_inv (tr ++ [(EvStalled us, None)]) m'.
Proof.
  intros Hi Hlen. pose proof Hi as [He (S1 & S2 & S3) C1 C2 T1 T2 Ws Wn]. cbn [observe]. unfold on_read_stall. rewrite He. cbn [negb].
  unfold add_uint. destruct (Z.ltb_spec (lm_read_stalls m + 1) (2 ^ 64)); [|lia]. cbn [mbind outcome_bind quietly].
  eexists. split; [done|]. eapply flow_inv_same; try done; cbn; lia.
Qed.

Lemma percentile_ok s p : window_ok s → 0 ≤ p → ∃ v, samples_percentile s p = Ok v.
Proof.
  intros (h & Hs & _) Hp. destruct (decide (sm_len s = 0)%nat) as [E0|Hn].
  - exists None. unfold samples_percentile, samples_is_empty. by rewrite E0.
  - destruct (percentile_value s p Hs) as (v & E & _); [lia|done|]. by exists (Some v).
Qed.

Lemma closed_event tr m now :
  flow_inv tr m → ∃ m', observe (EvClosed now) m = Ok (None, m') ∧ flow_inv (tr ++ [(EvClosed now, None)]) m'.
Proof.
  intros Hi. pose proof Hi as [He (S1 & S2 & S3) C1 C2 T1 T2 Ws Wn]. pose proof fresh_ok. pose proof (len_nonneg tr).
  cbn [observe]. unfold close_interval. destruct (0 <? lm_interval_frames m).
  - destruct (percentile_ok _ 50 S1) as [v1 E1]; [lia|]. destruct (percentile_ok _ 95 S1) as [v2 E2]; [lia|].
    destruct (percentile_ok _ 50 S2) as [v3 E3]; [lia|]. rewrite E1. cbn [mbind outcome_bind]. rewrite E2. cbn [mbind outcome_bind].
    rewrite E3. cbn [mbind outcome_bind quietly]. eexists. split; [done|]. eapply flow_inv_same; try done; cbn; lia.
  - cbn [mbind outcome_bind quietly]. eexists. split; [done|]. eapply flow_inv_same; try done; cbn; lia.
Qed.

Lemma window_presented_ok totals w p s :
  window_samples totals w → wl_presented w + 1 < 2 ^ 64 →
  ∃ w', window_presented w p s = Ok w' ∧ window_samples (totals ++ [total_us s]) w' ∧
    wl_in_flight w' = wl_in_flight w ∧ wl_presented w' = wl_presented w + 1 ∧ wl_dropped w' = wl_dropped w.
Proof.
  intros [(A1 & A2 & A3 & A4 & A5) Htr Hb Htot] Hlen. unfold window_presented.
  do 2 bind_push. generalize (AGENT_IN_FLIGHT_BUDGET <=? pt_backlog p)%nat as late. intros late.
  pose proof (Htr (pt_keyframe p) late). do 4 bind_push.
  destruct (push_holds _ _ (total_us s) Htot) as (tot & -> & Htot'). cbn [mbind outcome_bind].
  unfold add_uint. destruct (Z.ltb_spec (wl_presented w + 1) (2 ^ 64)); [|lia]. cbn [mbind outcome_bind].
  eexists. split; [done|]. split_and!; try done. split; cbn; try done.
  intros k b. pose proof (Htr k b). destruct (pt_keyframe p), late, k, b; cbn in *; done.
Qed.

Lemma push_timeline_ok m hist c :
  map brief (lm_timeline m) = last_n SAMPLE_WINDOW hist → lm_timeline_evicted m + len (lm_timeline m) = len hist →
  len hist + 1 < 2 ^ 64 →
  ∃ m', push_timeline c m = Ok m' ∧ map brief (lm_timeline m') = last_n SAMPLE_WINDOW (hist ++ [brief c]) ∧
    lm_timeline_evicted m' + len (lm_timeline m') = len hist + 1 ∧
    m' = set_timeline (lm_timeline m') (lm_timeline_evicted m') m.
Proof.
  intros Htl Hev Hlen. unfold push_timeline.
  assert (length (lm_timeline m) = Nat.min SAMPLE_WINDOW (length hist)) as Hl by (rewrite <- length_last_n, <- Htl; by rewrite length_map).
  rewrite last_n_snoc by (unfold SAMPLE_WINDOW; lia).
  destruct (Nat.eqb_spec (length (lm_timeline m)) SAMPLE_WINDOW) as [Hfull|Hroom].
  - unfold add_uint. destruct (Z.ltb_spec (lm_timeline_evicted m + 1) (2 ^ 64)); [|pose proof (len_nonneg (lm_timeline m)); lia].
    cbn [mbind outcome_bind]. eexists. split; [done|]. destruct (Nat.ltb_spec (length hist) SAMPLE_WINDOW); [lia|]. cbn.
    destruct (lm_timeline m) as [|c0 tl]; [cbn in Hfull; done|]. rewrite <- Htl, map_app. cbn. split_and!; [done| |done].
    revert Hev. rewrite len_cons, len_app. change (len [c]) with 1. lia.
  - eexists. split; [done|]. destruct (Nat.ltb_spec (length hist) SAMPLE_WINDOW); [|lia]. cbn.
    rewrite map_app, Htl. split_and!; [done| |done]. rewrite len_app. change (len [c]) with 1. lia.
Qed.

Lemma finish_presented id tr wid fid us off s :
  totals_since id (tr ++ [(EvPresented wid fid us off, Some s)]) =
  if wid =? id then totals_since id tr ++ [total_us s] else totals_since id tr.
Proof. by rewrite totals_snoc. Qed.

Lemma len_totals id tr : len (totals_since id tr) ≤ len tr.
Proof.
  induction tr as [|x tr IH] using rev_ind; [done|]. rewrite totals_snoc, len_app. change (len [x]) with 1.
  assert (length (finish id (totals_since id tr) x) ≤ S (length (totals_since id tr)))%nat; [|unfold len in *; lia].
  unfold finish. destruct x as [[] [s|]]; try lia; case_match; rewrite ?length_app; cbn; lia.
Qed.

Lemma presented_event tr m wid fid us off :
  flow_inv tr m → len tr + 1 < 2 ^ 64 →
  ∃ o m', observe (EvPresented wid fid us off) m = Ok (o, m') ∧ flow_inv (tr ++ [(EvPresented wid fid us off, o)]) m'.
Proof.
  intros Hi Hlen. pose proof Hi as [He (S1 & S2 & S3) C1 C2 T1 T2 Ws Wn]. cbn [observe]. unfold on_presented. rewrite He. cbn [negb].
  destruct (lm_windows m !! wid) as [w|] eqn:Ew; [|exists None, m; split; [done|by apply nothing_new]].
  destruct (wl_in_flight w !! fid) as [p|] eqn:Ep; [|exists None, m; split; [done|by apply nothing_new]].
  set (s := stages_of p us off). set (w0 := set_in_flight (delete fid (wl_in_flight w)) w).
  pose proof (len_totals wid tr). pose proof (len_shown tr). pose proof (delete_size _ _ _ Ep) as Hsz.
  destruct (Ws wid w Ew) as [Hsam Hfly Hbound Hbal Hpres Hdrop].
  destruct (window_presented_ok (totals_since wid tr) w0 p s) as (w' & -> & Hsam' & Hf' & Hp' & Hd');
    [by destruct Hsam; split|cbn; lia|]. cbn [mbind outcome_bind].
  do 2 bind_push. unfold add_uint at 1. destruct (Z.ltb_spec (lm_interval_frames m + 1) (2 ^ 64)); [|lia]. cbn [mbind outcome_bind].
  set (m1 := set_interval _ _ _ _ _).
  destruct (push_timeline_ok m1 (shown tr) (completed_of wid fid us p s)) as (m' & -> & Htl & Hev & Hm'); [done|done|lia|].
  cbn [mbind outcome_bind]. exists (Some s), m'. split; [done|]. revert Htl Hev. rewrite Hm'. cbn [lm_timeline lm_timeline_evicted set_timeline].
  intros Htl Hev. assert (len (tr ++ [(EvPresented wid fid us off, Some s)]) = len tr + 1) as Hl by (rewrite len_app; done).
  split; rewrite ?shown_snoc, ?Hl; cbn; try done; [lia|lia|by rewrite len_app| |].
  - intros id w1 Hw1. rewrite arrived_snoc, finish_presented. unfold arrive. cbn.
    apply lookup_insert_Some in Hw1 as [[<- <-]|[Hne Hw1]].
    + rewrite Z.eqb_refl. split; rewrite ?Hf', ?Hp', ?Hd'; cbn; try done; [|lia|lia|by rewrite len_app, Hpres].
      intros k [p' [_ Hk]%lookup_delete_Some]. apply Hfly. by eexists.
    + replace (wid =? id) with false by (symmetry; by apply Z.eqb_neq). by apply Ws.
  - intros id [Hw1 Hne]%lookup_insert_None. rewrite arrived_snoc, finish_presented. unfold arrive. cbn.
    replace (wid =? id) with false by (symmetry; by apply Z.eqb_neq). by apply Wn.
Qed.

(** ** A whole run *)

Lemma observe_step tr m e :
  flow_inv tr m → len tr + 1 < 2 ^ 64 →
  match e with EvArrived f => (af_window_id f, af_frame_id f) ∉ arrivals (map fst tr) | _ => True end →
  ∃ o m', observe e m = Ok (o, m') ∧ flow_inv (tr ++ [(e, o)]) m'.
Proof.
  intros Hi Hlen Hnew. destruct e as [f|w f us|w f us off|w f|w|us|now].
  - exists None. apply arrived_event; [done..|]. contradict Hnew. by apply arrived_in.
  - exists None. by apply decoded_event.
  - by apply presented_event.
  - exists None. by apply dropped_event.
  - exists None. by apply forget_event.
  - exists None. by apply stalled_event.
  - exists None. by apply closed_event.
Qed.

Lemma observe_run es : ∀ tr m,
  flow_inv tr m → len tr + len es < 2 ^ 64 → NoDup (arrivals (map fst tr ++ es)) →
  ∃ tr' m', observe_all es m = Ok (tr', m') ∧ map fst tr' = es ∧ flow_inv (tr ++ tr') m'.
Proof.
  induction es as [|e es IH]; intros tr m Hi Hlen Hnd; cbn [observe_all].
  - exists [], m. by rewrite app_nil_r.
  - rewrite len_cons in Hlen. pose proof (len_nonneg es).
    destruct (observe_step tr m e Hi) as (o & m1 & -> & Hi1); [lia| |].
    { destruct e; try done. unfold arrivals in *. rewrite omap_app in Hnd. cbn in Hnd.
      apply NoDup_app in Hnd as (_ & Hnin & _). intros Hin. apply (Hnin _ Hin). by left. }
    cbn [mbind outcome_bind fst snd]. destruct (IH (tr ++ [(e, o)]) m1 Hi1) as (tr' & m' & -> & Hmap & Hi').
    + rewrite len_app. change (len [(e, o)]) with 1. lia.
    + rewrite map_app. cbn. by rewrite <- app_assoc.
    + cbn [mbind outcome_bind fst snd]. exists ((e, o) :: tr'), m'. cbn. rewrite Hmap. split_and!; [done|done|].
      by rewrite <- app_assoc in Hi'.
Qed.

(** No sequence of events makes the monitor panic, and as long as no frame
    of a window arrives twice every frame that arrived is counted exactly once,
    as in flight, presented or dropped; at most [MAX_IN_FLIGHT] stay in flight; the
    totals kept for a window are those of the latest frames it presented; and the
    time line is the latest [SAMPLE_WINDOW] frames of the run in the order they
    finished, with the number of those that left it. *)
Theorem frames_accounted (es : list monitor_event) :
  len es < 2 ^ 64 → NoDup (arrivals es) →
  ∃ tr m, observe_all es enabled = Ok (tr, m) ∧ map fst tr = es ∧
    (∀ id w, lm_windows m !! id = Some w →
       wl_presented w = len (totals_since id tr) ∧
       wl_presented w + wl_dropped w + Z.of_nat (size (wl_in_flight w)) = len (arrived_since id tr) ∧
       (size (wl_in_flight w) ≤ MAX_IN_FLIGHT)%nat ∧
       samples_iter (wl_total w) = Ok (last_n SAMPLE_WINDOW (totals_since id tr))) ∧
    (∀ id, lm_windows m !! id = None → arrived_since id tr = []) ∧
    map brief (lm_timeline m) = last_n SAMPLE_WINDOW (shown tr) ∧
    lm_timeline_evicted m + len (lm_timeline m) = len (shown tr).
Proof.
  intros Hlen Hnd. destruct (observe_run es [] enabled enabled_inv Hlen Hnd) as (tr & m & E & Hmap & Hi). cbn [app] in Hi.
  exists tr, m. split_and!; [done|done| | |apply Hi|apply Hi].
  - intros id w Hw. destruct (fi_window _ _ Hi id w Hw) as [Hsam Hfly Hbound Hbal Hpres Hdrop].
    destruct (ws_total _ _ Hsam) as (Hs & _ & Hc). split_and!; [done..|]. by rewrite samples_iter_contents, Hc.
  - intros id Hw. by apply Hi.
Qed.

(** Two frames of window 7: one presented, one dropped. *)
Lemma frames_accounted_witness :
  let es := [EvArrived (mkArrived 7 1 100 150 170 true 9000); EvDecoded 7 1 175; EvArrived (mkArrived 7 2 130 180 190 false 90);
             EvPresented 7 1 180 0; EvDropped 7 2] in
  ∃ tr m, observe_all es enabled = Ok (tr, m) ∧ map brief (lm_timeline m) = [(7, 1, 180, 20, 80)].
Proof.
  intros es. destruct (frames_accounted es) as (tr & m & E & _ & _ & _ & Ht & _).
  - reflexivity.
  - by apply (bool_decide_unpack _).
  - exists tr, m. split; [exact E|]. rewrite Ht. vm_compute in E. injection E as <- _. reflexivity.
Defined.
