(* ===== verification/LatencyTail.v ===== *)
(** * What the tables of the latency report hold

    Theorems on the report half of [LatencyMonitor]: which percentiles a sample
    can support, and the table that puts the slow frames on a time line — its
    rows are the frames by time, its outliers are one frame in twenty at most,
    and it can be one row longer than its limit. *)

From stdpp Require Import sorting.
From S2P Require Import Prelude Latency LatencyMonitor LatencyFlow.

(** ** Percentiles of few samples *)

Lemma samples_max_contents s : samples_inv s → samples_max s = Ok (list_max (contents s)).
Proof. intros Hs. unfold samples_max. by rewrite samples_iter_contents. Qed.

Lemma count_full f l : count f l = len l → Forall (λ x, f x = true) l.
Proof.
  unfold count, len. induction l as [|x l IH]; [done|]. cbn. destruct (f x) eqn:E; cbn; intros Hc.
  - constructor; [done|]. apply IH. lia.
  - exfalso. pose proof (List.filter_length_le f l). lia.
Qed.

Lemma list_max_is l v : v ∈ l → Forall (λ x, x ≤ v) l → list_max l = Some v.
Proof.
  destruct l as [|x l]; [by intros ?%elem_of_nil|]. intros Hin Hall. cbn. destruct (fold_max_spec l x) as [Hm Hge].
  rewrite Forall_forall in Hall, Hge. f_equal. apply Z.le_antisymm; [by apply Hall|by apply Hge].
Qed.

Lemma high_percentile_is_max s p :
  samples_inv s → (0 < sm_len s)%nat → 0 ≤ p ≤ 100 → 100 * (Z.of_nat (sm_len s) - 1) < p * Z.of_nat (sm_len s) →
  samples_percentile s p = samples_max s.
Proof.
  intros Hs Hl Hp Hn. destruct (percentile_value s p Hs Hl) as (v & -> & Hin & Hcount & _); [lia|].
  rewrite samples_max_contents by done. f_equal. symmetry. apply list_max_is; [done|].
  assert (count (λ x, x <=? v) (contents s) = len (contents s)) as Hfull.
  { unfold len. rewrite length_contents by done. rewrite Z.min_l in Hcount by lia.
    assert (count (λ x, x <=? v) (contents s) ≤ Z.of_nat (sm_len s)); [|lia].
    rewrite <- (length_contents s Hs). unfold count, len. pose proof (List.filter_length_le (λ x, x <=? v) (contents s)). lia. }
  apply count_full in Hfull. eapply Forall_impl; [exact Hfull|]. intros x Hx. cbn in Hx. lia.
Qed.

(** [n] samples from 1 up. *)
Definition ramp (n : nat) : list Z := seqZ 1 (Z.of_nat n).

(** The limits below which the report writes [=max] are exact: with fewer than
    20 samples the 95th percentile is the maximum, with fewer than 100 the 99th
    is, and from there on there are samples for which it is not. *)
Lemma percentile_limits s :
  samples_inv s → (0 < sm_len s)%nat →
  ((sm_len s < P95_MIN)%nat → samples_percentile s 95 = samples_max s) ∧
  ((sm_len s < P99_MIN)%nat → samples_percentile s 99 = samples_max s) ∧
  (s20 ← samples_of (ramp P95_MIN); samples_percentile s20 95) = Ok (Some 19) ∧
  (s100 ← samples_of (ramp P99_MIN); samples_percentile s100 99) = Ok (Some 99).
Proof.
  intros Hs Hl. split_and!; [intros Hn; apply high_percentile_is_max; unfold P95_MIN in *; (done || lia)
                            |intros Hn; apply high_percentile_is_max; unfold P99_MIN in *; (done || lia)| |]; vm_compute; reflexivity.
Qed.

(** ** Buckets *)

Definition bucket (width : Z) (c : Completed) : Z := cp_presented_us c / width.
Definition in_bucket (width k : Z) (c : Completed) : bool := bucket width c =? k.

(** The bucket of a key holds the frames of that time, in order. *)
Lemma buckets_lookup width tl k :
  buckets_of width tl !! k = match List.filter (in_bucket width k) tl with [] => None | l => Some l end.
Proof.
  unfold buckets_of. induction tl as [|c tl IH] using rev_ind; [done|]. rewrite fold_left_app, List.filter_app. cbn.
  unfold add_to_bucket at 1. unfold in_bucket at 2. fold (bucket width c).
  destruct (Z.eqb_spec (bucket width c) k) as [Heq|Hne].
  - rewrite Heq, lookup_insert_eq, IH. by destruct (List.filter (in_bucket width k) tl).
  - rewrite app_nil_r. by rewrite lookup_insert_ne.
Qed.

Definition bucket_keys (width : Z) (tl : list Completed) : list Z := merge_sort Z.le (map_to_list (buckets_of width tl)).*1.

Lemma bucket_keys_in width tl k : k ∈ bucket_keys width tl ↔ k ∈ map (bucket width) tl.
Proof.
  unfold bucket_keys. rewrite merge_sort_Permutation, list_elem_of_fmap, list_elem_of_fmap. split.
  - intros ([k' l] & -> & Hin). apply elem_of_map_to_list in Hin. rewrite buckets_lookup in Hin. cbn in *.
    destruct (List.filter (in_bucket width k') tl) as [|c l'] eqn:E; [done|].
    assert (c ∈ List.filter (in_bucket width k') tl) as Hc by (rewrite E; by left).
    apply list_elem_of_In, List.filter_In in Hc as [Hc Hk]. exists c. split; [|by apply list_elem_of_In].
    symmetry. by apply Z.eqb_eq.
  - intros (c & -> & Hc). destruct (buckets_of width tl !! bucket width c) as [l|] eqn:E.
    + exists (bucket width c, l). split; [done|]. by apply elem_of_map_to_list.
    + exfalso. rewrite buckets_lookup in E.
      assert (c ∈ List.filter (in_bucket width (bucket width c)) tl) as Hin.
      { apply list_elem_of_In, List.filter_In. split; [by apply list_elem_of_In|]. apply Z.eqb_refl. }
      destruct (List.filter (in_bucket width (bucket width c)) tl); [by apply elem_of_nil in Hin|done].
Qed.

Lemma bucket_keys_nodup width tl : NoDup (bucket_keys width tl).
Proof. unfold bucket_keys. rewrite merge_sort_Permutation. apply NoDup_fst_map_to_list. Qed.

Lemma ordered_bucket_entries width tl :
  ordered_entries (buckets_of width tl) = map (λ k, (k, List.filter (in_bucket width k) tl)) (bucket_keys width tl).
Proof.
  unfold ordered_entries. fold (bucket_keys width tl).
  assert (∀ k, k ∈ bucket_keys width tl → buckets_of width tl !! k = Some (List.filter (in_bucket width k) tl)) as Hk.
  { intros k (c & -> & Hc)%bucket_keys_in%list_elem_of_fmap. rewrite buckets_lookup.
    assert (c ∈ List.filter (in_bucket width (bucket width c)) tl) as Hin.
    { apply list_elem_of_In, List.filter_In. split; [by apply list_elem_of_In|]. apply Z.eqb_refl. }
    destruct (List.filter (in_bucket width (bucket width c)) tl); [by apply elem_of_nil in Hin|done]. }
  induction (bucket_keys width tl) as [|k ks IH]; [done|]. cbn. rewrite Hk by left. cbn. f_equal. apply IH.
  intros k' Hk'. apply Hk. by right.
Qed.

Lemma sum_indicator b keys : NoDup keys → b ∈ keys → sum_list (map (λ k, if b =? k then 1%nat else 0%nat) keys) = 1%nat.
Proof.
  induction keys as [|k keys IH]; [by intros _ ?%elem_of_nil|]. intros [Hnin Hnd]%NoDup_cons Hin. cbn [map].
  destruct (Z.eqb_spec b k) as [->|Hne].
  - assert (map (λ k', if k =? k' then 1%nat else 0%nat) keys = map (λ _, 0%nat) keys) as ->.
    { apply map_ext_in. intros k' Hk'. destruct (Z.eqb_spec k k') as [->|]; [|done]. destruct Hnin. by apply list_elem_of_In. }
    clear. induction keys as [|k keys IH]; [done|exact IH].
  - apply elem_of_cons in Hin as [|Hin]; [done|]. exact (IH Hnd Hin).
Qed.

Lemma sum_map_plus {A} (f g : A → nat) l : sum_list (map (λ x, f x + g x)%nat l) = (sum_list (map f l) + sum_list (map g l))%nat.
Proof. induction l as [|x l IH]; [done|]. cbn in *. lia. Qed.

(** Each frame is in exactly one bucket. *)
Lemma bucket_sizes width keys l :
  NoDup keys → (∀ c, c ∈ l → bucket width c ∈ keys) →
  sum_list (map (λ k, length (List.filter (in_bucket width k) l)) keys) = length l.
Proof.
  intros Hnd. induction l as [|c l IH]; intros Hin.
  - clear. induction keys as [|k keys IH]; [done|exact IH].
  - rewrite (map_ext _ (λ k, Nat.add (if bucket width c =? k then 1%nat else 0%nat) (length (List.filter (in_bucket width k) l)))).
    + rewrite sum_map_plus, sum_indicator by (done || apply Hin; left). cbn [length]. rewrite IH; [done|].
      intros c' Hc'. apply Hin. by right.
    + intros k. cbn [List.filter]. unfold in_bucket at 1. by destruct (bucket width c =? k).
Qed.

(** ** The rows *)

Lemma samples_of_spec values : ∃ s, samples_of values = Ok s ∧ samples_inv s ∧ contents s = values.
Proof.
  unfold samples_of. destruct (push_samples_history values (Samples_new (length values)) [] (samples_new_inv _)) as (s & E & Hs & Hcap & Hc); [done|].
  exists s. split_and!; [done..|]. rewrite Hc. cbn [app]. unfold last_n. cbn.
  replace (length values - Nat.max (length values) 1)%nat with 0%nat by lia. done.
Qed.

Lemma percentile_total s p : samples_inv s → 0 ≤ p → ∃ v, samples_percentile s p = Ok v.
Proof.
  intros Hs Hp. destruct (decide (sm_len s = 0)%nat) as [E0|Hn].
  - exists None. unfold samples_percentile, samples_is_empty. by rewrite E0.
  - destruct (percentile_value s p Hs) as (v & E & _); [lia|done|]. by exists (Some v).
Qed.

Lemma stage_percentile_total f p records : 0 ≤ p → ∃ v, stage_percentile f p records = Ok v.
Proof.
  intros Hp. unfold stage_percentile. destruct (samples_of_spec (map f records)) as (s & -> & Hs & _). cbn [mbind outcome_bind].
  by apply percentile_total.
Qed.

Ltac stages :=
  repeat match goal with
  | |- context [stage_percentile ?f ?p ?r] =>
    let v := fresh "v" in destruct (stage_percentile_total f p r ltac:(lia)) as [v ->]; cbn [mbind outcome_bind]
  end.

Lemma tail_row_spec width threshold k records :
  k * width < 2 ^ 64 →
  ∃ row, tail_row width threshold (k, records) = Ok row ∧ tr_records row = records ∧
         tr_outliers row = length (List.filter (is_outlier threshold) records).
Proof.
  intros Hk. unfold tail_row. stages. destruct (Z.ltb_spec (k * width) (2 ^ 64)); [|lia]. cbn [mbind outcome_bind]. by eexists.
Qed.

Lemma tail_rows_spec width threshold entries :
  Forall (λ e, e.1 * width < 2 ^ 64) entries →
  ∃ rows, tail_rows width threshold entries = Ok rows ∧ map tr_records rows = map snd entries ∧
          map tr_outliers rows = map (λ e, length (List.filter (is_outlier threshold) e.2)) entries.
Proof.
  induction 1 as [|[k records] entries Hk _ (rows & E & E1 & E2)]; [by exists []|]. cbn [tail_rows].
  destruct (tail_row_spec width threshold k records Hk) as (row & -> & R1 & R2). cbn [mbind outcome_bind]. rewrite E. cbn.
  exists (row :: rows). cbn. by rewrite R1, R2, E1, E2.
Qed.

Lemma tail_group_total group : ∃ g, tail_group group = Ok g.
Proof.
  unfold tail_group. destruct group as [|c group]; [by eexists|].
  destruct (samples_of_spec (map cp_bytes (c :: group))) as (s1 & -> & H1 & _). cbn [mbind outcome_bind].
  destruct (percentile_total s1 50 H1) as [v1 ->]; [lia|]. cbn [mbind outcome_bind].
  destruct (samples_of_spec (omap cp_encode_gap_us (c :: group))) as (s2 & -> & H2 & _). cbn [mbind outcome_bind].
  destruct (percentile_total s2 50 H2) as [v2 ->]; [lia|]. cbn [mbind outcome_bind].
  destruct (samples_of_spec (omap cp_arrival_gap_us (c :: group))) as (s3 & -> & H3 & _). cbn [mbind outcome_bind].
  destruct (percentile_total s3 50 H3) as [v3 ->]; [lia|]. cbn [mbind outcome_bind]. by eexists.
Qed.

(** ** The number of rows *)

Lemma tail_bucket_spec span : 0 ≤ span → span / 300000000 < MAX_TAIL_ROWS →
  In (tail_bucket_us span) TAIL_BUCKETS_US ∧ span / tail_bucket_us span < MAX_TAIL_ROWS.
Proof.
  intros Hs Hfit. unfold tail_bucket_us. destruct (find _ TAIL_BUCKETS_US) as [w|] eqn:E.
  - apply find_some in E as [Hin Hw]. split; [done|]. by apply Z.ltb_lt.
  - exfalso. pose proof (find_none _ _ E 300000000) as Hn. apply Z.ltb_ge in Hn; [lia|]. cbn. tauto.
Qed.

Lemma distinct_in_range (l : list Z) a n : NoDup l → (∀ x, x ∈ l → a ≤ x < a + n) → len l ≤ Z.max 0 n.
Proof.
  intros Hnd Hin. assert (length l ≤ length (seqZ a n))%nat as Hl.
  { apply submseteq_length, NoDup_submseteq; [done|]. intros x Hx. apply elem_of_seqZ. by apply Hin. }
  rewrite length_seqZ in Hl. unfold len. lia.
Qed.

Lemma list_min_spec l : l ≠ [] → default 0 (list_min l) ∈ l ∧ ∀ x, x ∈ l → default 0 (list_min l) ≤ x.
Proof.
  destruct l as [|x l]; [done|]. intros _. cbn. destruct (fold_min_spec l x) as [Hm Hle]. split; [done|]. by apply Forall_forall.
Qed.
Lemma list_max_spec l : l ≠ [] → default 0 (list_max l) ∈ l ∧ ∀ x, x ∈ l → x ≤ default 0 (list_max l).
Proof.
  destruct l as [|x l]; [done|]. intros _. cbn. destruct (fold_max_spec l x) as [Hm Hle]. split; [done|]. by apply Forall_forall.
Qed.

Definition span_of (tl : list Completed) : Z :=
  default 0 (list_max (map cp_presented_us tl)) - default 0 (list_min (map cp_presented_us tl)).

Lemma rows_bound tl :
  tl ≠ [] → span_of tl / 300000000 < MAX_TAIL_ROWS → Forall (λ c, u64 (cp_presented_us c)) tl →
  len (bucket_keys (tail_bucket_us (sat_uint 64 (span_of tl))) tl) ≤ MAX_TAIL_ROWS + 1.
Proof.
  intros Hne Hfit Hu. destruct (list_min_spec (map cp_presented_us tl)) as [Hlow Hlow']; [by destruct tl|].
  destruct (list_max_spec (map cp_presented_us tl)) as [Hhigh Hhigh']; [by destruct tl|].
  pose proof (Hlow' _ Hhigh) as Hspan0. unfold span_of in *. set (lo := default 0 (list_min _)) in *. set (hi := default 0 (list_max _)) in *.
  assert (u64 lo ∧ u64 hi) as [[Hlo0 Hlo] [Hhi0 Hhi]].
  { apply list_elem_of_fmap in Hlow as (c1 & -> & H1), Hhigh as (c2 & -> & H2). rewrite Forall_forall in Hu. auto. }
  rewrite sat_uint_id by (split; lia).
  destruct (tail_bucket_spec (hi - lo)) as [Hin Hw]; [lia|done|]. set (w := tail_bucket_us (hi - lo)) in *.
  assert (0 < w) as Hpos by (cbn in Hin; lia).
  assert (hi / w - lo / w ≤ (hi - lo) / w + 1) as Hdiv by (clear -Hpos; Z.to_euclidean_division_equations; nia).
  etrans; [apply (distinct_in_range _ (lo / w) (hi / w - lo / w + 1)); [apply bucket_keys_nodup|]|unfold MAX_TAIL_ROWS in *; lia].
  intros k (c & -> & Hc)%bucket_keys_in%list_elem_of_fmap. unfold bucket.
  assert (cp_presented_us c ∈ map cp_presented_us tl) as Hc' by (apply list_elem_of_fmap; by exists c).
  pose proof (Z.div_le_mono _ _ w Hpos (Hlow' _ Hc')). pose proof (Z.div_le_mono _ _ w Hpos (Hhigh' _ Hc')). lia.
Qed.

(** ** The table *)

Lemma tail_bucket_in span : In (tail_bucket_us span) TAIL_BUCKETS_US.
Proof. unfold tail_bucket_us. destruct (find _ TAIL_BUCKETS_US) as [w|] eqn:E; [by apply find_some in E as [Hin _]|cbn; tauto]. Qed.

Lemma filter_split {A} (f : A → bool) l : (length (List.filter f l) + length (List.filter (λ x, negb (f x)) l) = length l)%nat.
Proof. induction l as [|x l IH]; [done|]. cbn. destruct (f x); cbn; lia. Qed.

Lemma filter_map_length {A} (g : A → Z) f l : len (List.filter (λ x, f (g x)) l) = count f (map g l).
Proof. unfold count, len. f_equal. induction l as [|x l IH]; [done|]. cbn. destruct (f (g x)); cbn; by rewrite IH. Qed.

(** One frame in twenty at most is above the 95th percentile. *)
Lemma outliers_few tl threshold s :
  tl ≠ [] → samples_inv s → contents s = map cp_encode_to_arrival_us tl →
  samples_percentile s OUTLIER_PERCENTILE = Ok (Some threshold) →
  100 * len (List.filter (is_outlier threshold) tl) ≤ 5 * len tl.
Proof.
  intros Hne Hs Hc Hp. pose proof (length_contents s Hs) as Hl. rewrite Hc, length_map in Hl.
  assert (0 < sm_len s)%nat by (destruct tl; [done|cbn in Hl; lia]).
  destruct (percentile_value s OUTLIER_PERCENTILE Hs) as (v & E & _ & Hcount & _); [done|done|].
  rewrite Hp in E. injection E as <-. rewrite Hc in Hcount. unfold OUTLIER_PERCENTILE in Hcount. rewrite Z.min_l in Hcount by lia.
  pose proof (filter_split (is_outlier threshold) tl) as Hsplit.
  assert (len (List.filter (λ c, negb (is_outlier threshold c)) tl) = count (λ x, x <=? threshold) (map cp_encode_to_arrival_us tl)) as Heq.
  { rewrite <- filter_map_length. unfold len. f_equal. f_equal. apply filter_ext. intros c. unfold is_outlier.
    destruct (Z.ltb_spec threshold (cp_encode_to_arrival_us c)), (Z.leb_spec (cp_encode_to_arrival_us c) threshold); (done || lia). }
  unfold len in *. lia.
Qed.

Lemma filter_comm {A} (f g : A → bool) l : List.filter f (List.filter g l) = List.filter g (List.filter f l).
Proof. induction l as [|x l IH]; [done|]. cbn. destruct (f x) eqn:F, (g x) eqn:G; cbn; rewrite ?F, ?G, IH; done. Qed.

(** With enough finished frames the report has its table: the rows are the
    time line split by bucket, every frame in exactly one, in rising order; their
    outlier counts add up to the outliers, which are one frame in twenty at most;
    and a run shorter than sixteen of the widest buckets gives at most one row
    more than the limit. *)
Theorem tail_localised (m : LatencyMonitor) :
  (MIN_LOCALISE_FRAMES ≤ length (lm_timeline m))%nat → Forall (λ c, u64 (cp_presented_us c)) (lm_timeline m) →
  ∃ width threshold rows out rest keys,
    let outliers := List.filter (is_outlier threshold) (lm_timeline m) in
    localise_tail m = Ok (Tail width threshold (lm_timeline_evicted m) rows outliers out rest) ∧
    In width TAIL_BUCKETS_US ∧ NoDup keys ∧ Sorted Z.le keys ∧
    map tr_records rows = map (λ k, List.filter (in_bucket width k) (lm_timeline m)) keys ∧
    sum_list (map length (map tr_records rows)) = length (lm_timeline m) ∧
    sum_list (map tr_outliers rows) = length outliers ∧
    100 * len outliers ≤ 5 * len (lm_timeline m) ∧
    (span_of (lm_timeline m) / 300000000 < MAX_TAIL_ROWS → len rows ≤ MAX_TAIL_ROWS + 1).
Proof.
  intros Hlen Hu. set (tl := lm_timeline m) in *. assert (tl ≠ []) as Hne by (destruct tl; [cbn in Hlen; unfold MIN_LOCALISE_FRAMES in Hlen; lia|done]).
  unfold localise_tail. fold tl. destruct (Nat.ltb_spec (length tl) MIN_LOCALISE_FRAMES) as [|_]; [lia|].
  destruct (samples_of_spec (map cp_encode_to_arrival_us tl)) as (s & -> & Hs & Hc). cbn [mbind outcome_bind].
  pose proof (length_contents s Hs) as Hsl. rewrite Hc, length_map in Hsl.
  destruct (percentile_value s OUTLIER_PERCENTILE Hs) as (threshold & Et & _); [unfold MIN_LOCALISE_FRAMES in *; lia|done|].
  rewrite Et. cbn [mbind outcome_bind]. fold (span_of tl). set (width := tail_bucket_us (sat_uint 64 (span_of tl))).
  rewrite ordered_bucket_entries. set (keys := bucket_keys width tl).
  assert (∀ c, c ∈ tl → bucket width c ∈ keys) as Hkeys by (intros c Hc0; apply bucket_keys_in, list_elem_of_fmap; by exists c).
  pose proof (tail_bucket_in (sat_uint 64 (span_of tl))) as Hwidth. fold width in Hwidth.
  assert (0 < width) as Hpos by (cbn in Hwidth; lia).
  destruct (tail_rows_spec width threshold (map (λ k, (k, List.filter (in_bucket width k) tl)) keys)) as (rows & -> & Hrec & Hout).
  { apply Forall_forall. intros e (k & -> & (c & -> & Hc0)%bucket_keys_in%list_elem_of_fmap)%list_elem_of_fmap. cbn.
    rewrite Forall_forall in Hu. pose proof (Hu c Hc0) as [? ?]. unfold bucket.
    pose proof (Z.mul_div_le (cp_presented_us c) width Hpos). lia. }
  cbn [mbind outcome_bind]. destruct (tail_group_total (List.filter (is_outlier threshold) tl)) as [out ->]. cbn [mbind outcome_bind].
  destruct (tail_group_total (List.filter (λ c, negb (is_outlier threshold c)) tl)) as [rest ->]. cbn [mbind outcome_bind].
  rewrite map_map in Hrec, Hout. cbn in Hrec, Hout. exists width, threshold, rows, out, rest, keys. split_and!.
  - done.
  - done.
  - apply bucket_keys_nodup.
  - apply Sorted_merge_sort. intros x y. lia.
  - done.
  - rewrite Hrec, map_map. apply bucket_sizes; [apply bucket_keys_nodup|done].
  - rewrite Hout. erewrite map_ext by (intros k; by rewrite filter_comm). apply bucket_sizes; [apply bucket_keys_nodup|].
    intros c [Hc0 _]%list_elem_of_In%List.filter_In. apply Hkeys. by apply list_elem_of_In.
  - by eapply outliers_few.
  - intros Hfit. replace (len rows) with (len keys).
    + by apply rows_bound.
    + unfold len. f_equal. rewrite <- (length_map tr_records rows), Hrec. by rewrite length_map.
Qed.

(** Fifty frames over just under sixteen seconds, not aligned to a second. *)
Definition unaligned : LatencyMonitor :=
  set_timeline (map (λ i, mkCompleted 1 i (999999 + i * 326530) 10 (100 + i) 5 5 (120 + i) 90 false None None) (seqZ 0 50)) 0 enabled.

Definition rows_in (r : TailReport) : Z := match r with Tail _ _ _ rows _ _ _ => len rows | _ => 0 end.

(** The extra row is real: the buckets are cut at whole seconds of the clock,
    so a span of fewer than sixteen seconds can touch seventeen. *)
Lemma tail_table_one_row_over : (r ← localise_tail unaligned; Ok (rows_in r)) = Ok (E:=unit) (MAX_TAIL_ROWS + 1).
Proof. vm_compute. reflexivity. Qed.

Lemma presented_u64 tl :
  forallb (λ c, (0 <=? cp_presented_us c) && (cp_presented_us c <? 2 ^ 64)) tl = true → Forall (λ c, u64 (cp_presented_us c)) tl.
Proof.
  intros Hall. apply Forall_forall. intros c Hc%list_elem_of_In. rewrite forallb_forall in Hall.
  apply Hall, andb_true_iff in Hc as [?%Z.leb_le ?%Z.ltb_lt]. by split.
Qed.

Lemma tail_localised_witness :
  ∃ width threshold rows out rest, localise_tail unaligned =
    Ok (Tail width threshold 0 rows (List.filter (is_outlier threshold) (lm_timeline unaligned)) out rest) ∧ len rows ≤ MAX_TAIL_ROWS + 1.
Proof.
  destruct (tail_localised unaligned) as (width & threshold & rows & out & rest & keys & E & _ & _ & _ & _ & _ & _ & _ & Hrows).
  - vm_compute. lia.
  - apply presented_u64. vm_compute. reflexivity.
  - exists width, threshold, rows, out, rest. split; [exact E|]. apply Hrows. vm_compute. reflexivity.
Defined.

(** The arrival gaps printed for an interval are not the interval's: closing it
    leaves the gaps of the run so far. *)
Lemma arrival_gaps_survive now m m' : close_interval now m = Ok m' → lm_arrival_gaps m' = lm_arrival_gaps m.
Proof.
  unfold close_interval. intros E. destruct (0 <? lm_interval_frames m).
  - destruct (samples_percentile (lm_interval_transit m) 50), (samples_percentile (lm_interval_transit m) 95),
      (samples_percentile (lm_interval_total m) 50); cbn in E; try done. by injection E as <-.
  - by injection E as <-.
Qed.
