(* ===== verification/Keys.v ===== *)
(** * From the window system's input to the protocol's

    [crates/oxdisplay/src/input.rs]: physical keys to PS/2 set-1 scancodes,
    mouse buttons and modifiers to the protocol's bits. The key codes are
    winit's; the ones the code names are listed, any other is [OtherKey].

    A scancode sent here is looked up by the agent in the table of [Scancode],
    which is a second list of the same keys; the theorems compare the two. *)

From S2P Require Import Prelude Cursor Wire MsgInput Scancode Model.

Module KeyCode.
Inductive t : Type :=
| Escape | Digit1 | Digit2 | Digit3 | Digit4 | Digit5 | Digit6 | Digit7 | Digit8 | Digit9 | Digit0
| Minus | Equal | Backspace | Tab | KeyQ | KeyW | KeyE | KeyR | KeyT | KeyY | KeyU | KeyI | KeyO
| KeyP | BracketLeft | BracketRight | Enter | ControlLeft | KeyA | KeyS | KeyD | KeyF | KeyG | KeyH
| KeyJ | KeyK | KeyL | Semicolon | Quote | Backquote | ShiftLeft | Backslash | KeyZ | KeyX | KeyC
| KeyV | KeyB | KeyN | KeyM | Comma | Period | Slash | ShiftRight | NumpadMultiply | AltLeft
| Space | CapsLock | F1 | F2 | F3 | F4 | F5 | F6 | F7 | F8 | F9 | F10 | NumLock | ScrollLock
| Numpad7 | Numpad8 | Numpad9 | NumpadSubtract | Numpad4 | Numpad5 | Numpad6 | NumpadAdd | Numpad1
| Numpad2 | Numpad3 | Numpad0 | NumpadDecimal | F11 | F12 | NumpadEnter | ControlRight
| NumpadDivide | AltRight | Home | ArrowUp | PageUp | ArrowLeft | ArrowRight | End | ArrowDown
| PageDown | Insert | Delete | SuperLeft | SuperRight | ContextMenu | PrintScreen
| OtherKey (n : nat).
End KeyCode.

Inductive ElementState : Type := Pressed | Released.

Definition state_is_pressed (s : ElementState) : bool := match s with Pressed => true | Released => false end.

Module MouseButton.
Inductive t : Type := Left | Right | Middle | Back | Forward | Other (n : Z).
End MouseButton.

(** winit's [ModifiersState], read through its accessors. *)
Record ModifiersState : Type := mkModifiersState {
  shift_key : bool; control_key : bool; alt_key : bool; super_key : bool
}.

Definition plain (c : Z) : Scancode := mkScancode c false.
Definition extended_code (c : Z) : Scancode := mkScancode c true.

Definition keycode_to_scancode (k : KeyCode.t) : option Scancode :=
  match k with
  | KeyCode.Escape => Some (plain 0x01)
  | KeyCode.Digit1 => Some (plain 0x02)
  | KeyCode.Digit2 => Some (plain 0x03)
  | KeyCode.Digit3 => Some (plain 0x04)
  | KeyCode.Digit4 => Some (plain 0x05)
  | KeyCode.Digit5 => Some (plain 0x06)
  | KeyCode.Digit6 => Some (plain 0x07)
  | KeyCode.Digit7 => Some (plain 0x08)
  | KeyCode.Digit8 => Some (plain 0x09)
  | KeyCode.Digit9 => Some (plain 0x0a)
  | KeyCode.Digit0 => Some (plain 0x0b)
  | KeyCode.Minus => Some (plain 0x0c)
  | KeyCode.Equal => Some (plain 0x0d)
  | KeyCode.Backspace => Some (plain 0x0e)
  | KeyCode.Tab => Some (plain 0x0f)
  | KeyCode.KeyQ => Some (plain 0x10)
  | KeyCode.KeyW => Some (plain 0x11)
  | KeyCode.KeyE => Some (plain 0x12)
  | KeyCode.KeyR => Some (plain 0x13)
  | KeyCode.KeyT => Some (plain 0x14)
  | KeyCode.KeyY => Some (plain 0x15)
  | KeyCode.KeyU => Some (plain 0x16)
  | KeyCode.KeyI => Some (plain 0x17)
  | KeyCode.KeyO => Some (plain 0x18)
  | KeyCode.KeyP => Some (plain 0x19)
  | KeyCode.BracketLeft => Some (plain 0x1a)
  | KeyCode.BracketRight => Some (plain 0x1b)
  | KeyCode.Enter => Some (plain 0x1c)
  | KeyCode.ControlLeft => Some (plain 0x1d)
  | KeyCode.KeyA => Some (plain 0x1e)
  | KeyCode.KeyS => Some (plain 0x1f)
  | KeyCode.KeyD => Some (plain 0x20)
  | KeyCode.KeyF => Some (plain 0x21)
  | KeyCode.KeyG => Some (plain 0x22)
  | KeyCode.KeyH => Some (plain 0x23)
  | KeyCode.KeyJ => Some (plain 0x24)
  | KeyCode.KeyK => Some (plain 0x25)
  | KeyCode.KeyL => Some (plain 0x26)
  | KeyCode.Semicolon => Some (plain 0x27)
  | KeyCode.Quote => Some (plain 0x28)
  | KeyCode.Backquote => Some (plain 0x29)
  | KeyCode.ShiftLeft => Some (plain 0x2a)
  | KeyCode.Backslash => Some (plain 0x2b)
  | KeyCode.KeyZ => Some (plain 0x2c)
  | KeyCode.KeyX => Some (plain 0x2d)
  | KeyCode.KeyC => Some (plain 0x2e)
  | KeyCode.KeyV => Some (plain 0x2f)
  | KeyCode.KeyB => Some (plain 0x30)
  | KeyCode.KeyN => Some (plain 0x31)
  | KeyCode.KeyM => Some (plain 0x32)
  | KeyCode.Comma => Some (plain 0x33)
  | KeyCode.Period => Some (plain 0x34)
  | KeyCode.Slash => Some (plain 0x35)
  | KeyCode.ShiftRight => Some (plain 0x36)
  | KeyCode.NumpadMultiply => Some (plain 0x37)
  | KeyCode.AltLeft => Some (plain 0x38)
  | KeyCode.Space => Some (plain 0x39)
  | KeyCode.CapsLock => Some (plain 0x3a)
  | KeyCode.F1 => Some (plain 0x3b)
  | KeyCode.F2 => Some (plain 0x3c)
  | KeyCode.F3 => Some (plain 0x3d)
  | KeyCode.F4 => Some (plain 0x3e)
  | KeyCode.F5 => Some (plain 0x3f)
  | KeyCode.F6 => Some (plain 0x40)
  | KeyCode.F7 => Some (plain 0x41)
  | KeyCode.F8 => Some (plain 0x42)
  | KeyCode.F9 => Some (plain 0x43)
  | KeyCode.F10 => Some (plain 0x44)
  | KeyCode.NumLock => Some (plain 0x45)
  | KeyCode.ScrollLock => Some (plain 0x46)
  | KeyCode.Numpad7 => Some (plain 0x47)
  | KeyCode.Numpad8 => Some (plain 0x48)
  | KeyCode.Numpad9 => Some (plain 0x49)
  | KeyCode.NumpadSubtract => Some (plain 0x4a)
  | KeyCode.Numpad4 => Some (plain 0x4b)
  | KeyCode.Numpad5 => Some (plain 0x4c)
  | KeyCode.Numpad6 => Some (plain 0x4d)
  | KeyCode.NumpadAdd => Some (plain 0x4e)
  | KeyCode.Numpad1 => Some (plain 0x4f)
  | KeyCode.Numpad2 => Some (plain 0x50)
  | KeyCode.Numpad3 => Some (plain 0x51)
  | KeyCode.Numpad0 => Some (plain 0x52)
  | KeyCode.NumpadDecimal => Some (plain 0x53)
  | KeyCode.F11 => Some (plain 0x57)
  | KeyCode.F12 => Some (plain 0x58)
  | KeyCode.NumpadEnter => Some (extended_code 0x1c)
  | KeyCode.ControlRight => Some (extended_code 0x1d)
  | KeyCode.NumpadDivide => Some (extended_code 0x35)
  | KeyCode.AltRight => Some (extended_code 0x38)
  | KeyCode.Home => Some (extended_code 0x47)
  | KeyCode.ArrowUp => Some (extended_code 0x48)
  | KeyCode.PageUp => Some (extended_code 0x49)
  | KeyCode.ArrowLeft => Some (extended_code 0x4b)
  | KeyCode.ArrowRight => Some (extended_code 0x4d)
  | KeyCode.End => Some (extended_code 0x4f)
  | KeyCode.ArrowDown => Some (extended_code 0x50)
  | KeyCode.PageDown => Some (extended_code 0x51)
  | KeyCode.Insert => Some (extended_code 0x52)
  | KeyCode.Delete => Some (extended_code 0x53)
  | KeyCode.SuperLeft | KeyCode.SuperRight => Some (extended_code 0x5b)
  | KeyCode.ContextMenu => Some (extended_code 0x5d)
  | _ => None
  end.

Definition key_flags (s : ElementState) (ext : bool) : Z :=
  Z.lor (if state_is_pressed s then key_flag.PRESSED else 0) (if ext then key_flag.EXTENDED else 0).

Definition button_bit (b : MouseButton.t) : Z :=
  match b with
  | MouseButton.Left => pointer_button.LEFT
  | MouseButton.Right => pointer_button.RIGHT
  | MouseButton.Middle => pointer_button.MIDDLE
  | MouseButton.Back => pointer_button.X1
  | MouseButton.Forward => pointer_button.X2
  | MouseButton.Other _ => 0
  end.

Definition update_buttons (current : Z) (b : MouseButton.t) (s : ElementState) : Z :=
  if state_is_pressed s then Z.lor current (button_bit b) else Z.land current (Z.lxor (button_bit b) 0xFF).

Definition modifiers (s : ModifiersState) : Z :=
  let out := if shift_key s then Z.lor 0 modifier.SHIFT else 0 in
  let out := if control_key s then Z.lor out modifier.CTRL else out in
  let out := if alt_key s then Z.lor out modifier.ALT else out in
  if super_key s then Z.lor out modifier.META else out.

Definition locks : Z := 0.

(** ** The two tables *)

(** The key of the protocol's table at the same place of the keyboard. *)
Definition same_place (k : KeyCode.t) : option Key.t :=
  match k with
  | KeyCode.Escape => Some Key.Escape
  | KeyCode.Digit1 => Some Key.Digit1
  | KeyCode.Digit2 => Some Key.Digit2
  | KeyCode.Digit3 => Some Key.Digit3
  | KeyCode.Digit4 => Some Key.Digit4
  | KeyCode.Digit5 => Some Key.Digit5
  | KeyCode.Digit6 => Some Key.Digit6
  | KeyCode.Digit7 => Some Key.Digit7
  | KeyCode.Digit8 => Some Key.Digit8
  | KeyCode.Digit9 => Some Key.Digit9
  | KeyCode.Digit0 => Some Key.Digit0
  | KeyCode.Minus => Some Key.Minus
  | KeyCode.Equal => Some Key.Equal
  | KeyCode.Backspace => Some Key.Backspace
  | KeyCode.Tab => Some Key.Tab
  | KeyCode.KeyQ => Some Key.Q
  | KeyCode.KeyW => Some Key.W
  | KeyCode.KeyE => Some Key.E
  | KeyCode.KeyR => Some Key.R
  | KeyCode.KeyT => Some Key.T
  | KeyCode.KeyY => Some Key.Y
  | KeyCode.KeyU => Some Key.U
  | KeyCode.KeyI => Some Key.I
  | KeyCode.KeyO => Some Key.O
  | KeyCode.KeyP => Some Key.P
  | KeyCode.BracketLeft => Some Key.BracketLeft
  | KeyCode.BracketRight => Some Key.BracketRight
  | KeyCode.Enter => Some Key.Enter
  | KeyCode.ControlLeft => Some Key.LeftControl
  | KeyCode.KeyA => Some Key.A
  | KeyCode.KeyS => Some Key.S
  | KeyCode.KeyD => Some Key.D
  | KeyCode.KeyF => Some Key.F
  | KeyCode.KeyG => Some Key.G
  | KeyCode.KeyH => Some Key.H
  | KeyCode.KeyJ => Some Key.J
  | KeyCode.KeyK => Some Key.K
  | KeyCode.KeyL => Some Key.L
  | KeyCode.Semicolon => Some Key.Semicolon
  | KeyCode.Quote => Some Key.Quote
  | KeyCode.Backquote => Some Key.Backquote
  | KeyCode.ShiftLeft => Some Key.LeftShift
  | KeyCode.Backslash => Some Key.Backslash
  | KeyCode.KeyZ => Some Key.Z
  | KeyCode.KeyX => Some Key.X
  | KeyCode.KeyC => Some Key.C
  | KeyCode.KeyV => Some Key.V
  | KeyCode.KeyB => Some Key.B
  | KeyCode.KeyN => Some Key.N
  | KeyCode.KeyM => Some Key.M
  | KeyCode.Comma => Some Key.Comma
  | KeyCode.Period => Some Key.Period
  | KeyCode.Slash => Some Key.Slash
  | KeyCode.ShiftRight => Some Key.RightShift
  | KeyCode.NumpadMultiply => Some Key.NumpadMultiply
  | KeyCode.AltLeft => Some Key.LeftAlt
  | KeyCode.Space => Some Key.Space
  | KeyCode.CapsLock => Some Key.CapsLock
  | KeyCode.F1 => Some Key.F1
  | KeyCode.F2 => Some Key.F2
  | KeyCode.F3 => Some Key.F3
  | KeyCode.F4 => Some Key.F4
  | KeyCode.F5 => Some Key.F5
  | KeyCode.F6 => Some Key.F6
  | KeyCode.F7 => Some Key.F7
  | KeyCode.F8 => Some Key.F8
  | KeyCode.F9 => Some Key.F9
  | KeyCode.F10 => Some Key.F10
  | KeyCode.NumLock => Some Key.NumLock
  | KeyCode.ScrollLock => Some Key.ScrollLock
  | KeyCode.Numpad7 => Some Key.Numpad7
  | KeyCode.Numpad8 => Some Key.Numpad8
  | KeyCode.Numpad9 => Some Key.Numpad9
  | KeyCode.NumpadSubtract => Some Key.NumpadSubtract
  | KeyCode.Numpad4 => Some Key.Numpad4
  | KeyCode.Numpad5 => Some Key.Numpad5
  | KeyCode.Numpad6 => Some Key.Numpad6
  | KeyCode.NumpadAdd => Some Key.NumpadAdd
  | KeyCode.Numpad1 => Some Key.Numpad1
  | KeyCode.Numpad2 => Some Key.Numpad2
  | KeyCode.Numpad3 => Some Key.Numpad3
  | KeyCode.Numpad0 => Some Key.Numpad0
  | KeyCode.NumpadDecimal => Some Key.NumpadDecimal
  | KeyCode.F11 => Some Key.F11
  | KeyCode.F12 => Some Key.F12
  | KeyCode.NumpadEnter => Some Key.NumpadEnter
  | KeyCode.ControlRight => Some Key.RightControl
  | KeyCode.NumpadDivide => Some Key.NumpadDivide
  | KeyCode.AltRight => Some Key.RightAlt
  | KeyCode.Home => Some Key.Home
  | KeyCode.ArrowUp => Some Key.ArrowUp
  | KeyCode.PageUp => Some Key.PageUp
  | KeyCode.ArrowLeft => Some Key.ArrowLeft
  | KeyCode.ArrowRight => Some Key.ArrowRight
  | KeyCode.End => Some Key.End
  | KeyCode.ArrowDown => Some Key.ArrowDown
  | KeyCode.PageDown => Some Key.PageDown
  | KeyCode.Insert => Some Key.Insert
  | KeyCode.Delete => Some Key.Delete
  | KeyCode.SuperLeft => Some Key.LeftMeta
  | KeyCode.SuperRight => Some Key.RightMeta
  | KeyCode.ContextMenu => Some Key.Menu
  | KeyCode.PrintScreen => Some Key.PrintScreen
  | KeyCode.OtherKey _ => None
  end.
(** Whether the last thing a button did was to go down. *)
#[export] Instance MouseButton_eq_dec : EqDecision MouseButton.t.
Proof. solve_decision. Defined.

Definition held (b : MouseButton.t) (es : list (MouseButton.t * ElementState)) : bool :=
  fold_left (λ h e, if bool_decide (e.1 = b) then state_is_pressed e.2 else h) es false.

Definition pressed_mask (es : list (MouseButton.t * ElementState)) : Z :=
  fold_left (λ m e, update_buttons m e.1 e.2) es 0.

Definition named_button (b : MouseButton.t) : bool := match b with MouseButton.Other _ => false | _ => true end.

(** ** Keys *)

Lemma keycode_injective k1 k2 s :
  keycode_to_scancode k1 = Some s → keycode_to_scancode k2 = Some s →
  k1 = k2 ∨ (s = extended_code 0x5B ∧ ∀ k, k = k1 ∨ k = k2 → k = KeyCode.SuperLeft ∨ k = KeyCode.SuperRight).
Proof.
  intros H1 H2.
  destruct k1; cbn in H1; inversion H1; subst s; clear H1;
    destruct k2; cbn in H2; inversion H2; first [by left | right; split; [done|intros k [->| ->]; auto]].
Qed.

(** A scancode sent for a physical key is one the agent's table holds, and
    the key found there is the one at the same place of the keyboard - except
    that the right Super key is sent as the left one; every key of the table
    but Print Screen can be sent; and no two other keys share a scancode, so
    the guest can tell which was pressed. *)
Theorem keys_reach_agent :
  (∀ k s, keycode_to_scancode k = Some s →
     ∃ key, from_scancode (code s) (extended s) = Some key ∧ (same_place k = Some key ∨ k = KeyCode.SuperRight)) ∧
  (∀ k, keycode_to_scancode k = None → same_place k = None ∨ k = KeyCode.PrintScreen) ∧
  (∀ k1 k2 s, keycode_to_scancode k1 = Some s → keycode_to_scancode k2 = Some s →
     k1 = k2 ∨ ∀ k, k = k1 ∨ k = k2 → k = KeyCode.SuperLeft ∨ k = KeyCode.SuperRight).
Proof.
  split_and!.
  - intros k s Hs. destruct k; cbn in Hs; inversion Hs; subst s; cbn; eexists; (split; [reflexivity|by auto]).
  - intros k Hk. destruct k; cbn in Hk; auto; discriminate.
  - intros k1 k2 s H1 H2. destruct (keycode_injective k1 k2 s H1 H2) as [->|[_ Hk]]; auto.
Qed.

Lemma keys_reach_agent_witness :
  keycode_to_scancode KeyCode.KeyA = Some (mkScancode 0x1E false) ∧
  (∃ key, from_scancode 0x1E false = Some key ∧ (same_place KeyCode.KeyA = Some key ∨ KeyCode.KeyA = KeyCode.SuperRight)).
Proof. split; [reflexivity|]. exact (proj1 keys_reach_agent KeyCode.KeyA (mkScancode 0x1E false) eq_refl). Defined.

(** The right Super key arrives as the left one, and Print Screen, which the
    protocol has a scancode for, not at all. *)
Lemma super_right_is_left :
  keycode_to_scancode KeyCode.SuperRight = Some (scancode Key.LeftMeta) ∧
  keycode_to_scancode KeyCode.SuperRight ≠ Some (scancode Key.RightMeta) ∧
  keycode_to_scancode KeyCode.PrintScreen = None ∧ same_place KeyCode.PrintScreen = Some Key.PrintScreen.
Proof. done. Qed.

(** ** Buttons *)

Definition button_index (b : MouseButton.t) : Z :=
  match b with
  | MouseButton.Left => 0 | MouseButton.Right => 1 | MouseButton.Middle => 2
  | MouseButton.Back => 3 | MouseButton.Forward => 4 | MouseButton.Other _ => 0
  end.

Lemma button_bit_test b b' :
  named_button b = true → Z.testbit (button_bit b') (button_index b) = bool_decide (b' = b).
Proof. by destruct b, b'. Qed.

Lemma octet_index b : 0 ≤ button_index b < 8 ∧ Z.testbit 0xFF (button_index b) = true.
Proof. by destruct b. Qed.

Lemma update_buttons_test m b b' s :
  named_button b = true →
  Z.testbit (update_buttons m b' s) (button_index b) =
  if bool_decide (b' = b) then state_is_pressed s else Z.testbit m (button_index b).
Proof.
  intros Hb. pose proof (button_bit_test b b' Hb) as Hbit. destruct (octet_index b) as [Hi Hff].
  unfold update_buttons. destruct (state_is_pressed s) eqn:Es.
  - rewrite Z.lor_spec, Hbit. by destruct (bool_decide (b' = b)), (Z.testbit m (button_index b)).
  - rewrite Z.land_spec, Z.lxor_spec, Hbit, Hff. by destruct (bool_decide (b' = b)), (Z.testbit m (button_index b)).
Qed.

Lemma update_buttons_range m b s : 0 ≤ m < 32 → 0 ≤ update_buttons m b s < 32.
Proof.
  intros Hm. assert (Hin : Forall (λ m, 0 ≤ update_buttons m b s < 32) (seqZ 0 32)).
  { destruct b, s; vm_compute; repeat constructor; discriminate. }
  rewrite Forall_forall in Hin. apply Hin. apply elem_of_seqZ. lia.
Qed.

(** After any sequence of mouse button events the mask sent to the agent has
    exactly the bits of the five protocol buttons that are held - those whose
    last event was a press - and no other bit. *)
Lemma pressed_mask_held (es : list (MouseButton.t * ElementState)) :
  0 ≤ pressed_mask es < 32 ∧
  ∀ b, named_button b = true → Z.testbit (pressed_mask es) (button_index b) = held b es.
Proof.
  induction es as [|e es [Hr Ht]] using rev_ind; [split; [done|]; intros b _; by destruct b|].
  unfold pressed_mask, held in *. rewrite fold_left_app. cbn [fold_left]. split; [by apply update_buttons_range|].
  intros b Hb. rewrite update_buttons_test, fold_left_app by done. cbn [fold_left]. by rewrite (Ht b Hb).
Qed.

(** The bits of [modifiers] are the four keys. *)
Lemma modifiers_bits s :
  Model.has_flag (modifiers s) modifier.SHIFT = shift_key s ∧ Model.has_flag (modifiers s) modifier.CTRL = control_key s ∧
  Model.has_flag (modifiers s) modifier.ALT = alt_key s ∧ Model.has_flag (modifiers s) modifier.META = super_key s.
Proof. by destruct s as [[] [] [] []]. Qed.
