(* ===== verification/Presenter.v ===== *)
(** * Putting pictures on native windows

    [crates/oxdisplay/src/presenter.rs]: [CpuPresenter], which copies decoded
    frames into the buffer of a window's surface with an unsafe copy. The
    surface is another library's and a class here, with what its documentation
    promises of the buffer's size. A copy outside either buffer, which Rust
    leaves undefined, is [Panic]; no run reaches it.

    The buffer is its bytes, as the code casts it. Both branches of
    [cache_frame] leave the same frame and differ in what they allocate. *)

From stdpp Require Import pretty.
From S2P Require Import Prelude Cursor Wire MsgType MsgControl MsgInput MsgWindow.

Record PresentTimes : Type := mkTimes { pt_decoded_us : Z; pt_presented_us : Z }.

Inductive PresentError : Type :=
| UnknownWindow (id : Z)
| UnsupportedCodec (codec : Z)
| DroppedFrame (window_id expected actual : Z)
| Platform (message : list Z).

(** Its [Display]; a number is written in decimal. *)
Definition decimal (n : Z) : list Z := bytes_of_string (pretty n).

Definition present_error_text (e : PresentError) : list Z :=
  match e with
  | UnknownWindow id => bytes_of_string "unknown display window " ++ decimal id
  | UnsupportedCodec c => bytes_of_string "unsupported frame codec " ++ decimal c
  | DroppedFrame window_id expected actual =>
    bytes_of_string "dropped malformed frame for window " ++ decimal window_id ++ bytes_of_string ": expected " ++
    decimal expected ++ bytes_of_string " bytes, got " ++ decimal actual
  | Platform message => message
  end.

(** [softbuffer]: a surface made from a window's handles, sized, and lent as a
    buffer that is then presented. *)
Class Softbuffer (W Sf : Type) : Type := {
  sb_open : W → outcome (list Z) Sf;
  sb_resize : Sf → Z → Z → Sf * option (list Z);
  sb_buffer : Sf → outcome (list Z) (list Z);
  sb_present : Sf → list Z → Sf * option (list Z);
  (** The size last set, and what is on the screen: a size and bytes. *)
  sb_size : Sf → option (Z * Z);
  sb_shown : Sf → option (Z * Z * list Z)
}.

Class SoftbufferLaws (W Sf : Type) `{Softbuffer W Sf} : Prop := {
  sb_open_total w : sb_open w ≠ Panic;
  sb_resize_ok s w h s' : sb_resize s w h = (s', None) → sb_size s' = Some (w, h);
  sb_buffer_len s w h : sb_size s = Some (w, h) → 0 ≤ w → 0 ≤ h →
    match sb_buffer s with Ok b => len b = w * h * 4 | Err _ => True | Panic => False end;
  sb_present_size s b : sb_size (sb_present s b).1 = sb_size s;
  sb_present_ok s w h b s' : sb_size s = Some (w, h) → sb_present s b = (s', None) → sb_shown s' = Some (w, h, b)
}.

(** ** Frames *)

(** [usize] multiplication: checked, and the plain one. *)
Definition checked_mul (a b : Z) : option Z := if a * b <? 2 ^ 64 then Some (a * b) else None.
Definition mul_usize {E} (a b : Z) : outcome E Z := if a * b <? 2 ^ 64 then Ok (a * b) else Panic.

Definition frame_len (width height : Z) : option Z := n ← checked_mul width height; checked_mul n 4.

Definition nonzero (value : Z) : Z := Z.max value 1.

Definition platform_error {A} (m : outcome (list Z) A) : outcome PresentError A := map_err Platform m.
Definition platform_result (o : option (list Z)) : outcome PresentError unit :=
  match o with None => Ok () | Some e => Err (Platform e) end.

(** [ptr::copy_nonoverlapping(src.add(src_offset), dst.add(dst_offset), n)] *)
Definition copy_bytes (src : list Z) (src_offset : Z) (dst : list Z) (dst_offset n : Z) : outcome PresentError (list Z) :=
  if (src_offset + n <=? len src) && (dst_offset + n <=? len dst) then
    Ok (ztake dst_offset dst ++ ztake n (zdrop src_offset src) ++ zdrop (dst_offset + n) dst)
  else Panic.

(** [for row in 0..rows], with [todo] rows left. *)
Fixpoint copy_rows (data : list Z) (src_stride dst_stride row_bytes : Z) (row : Z) (todo : nat) (buffer : list Z) :
    outcome PresentError (list Z) :=
  match todo with
  | O => Ok buffer
  | S todo =>
    src_offset ← mul_usize row src_stride;
    dst_offset ← mul_usize row dst_stride;
    buffer ← copy_bytes data src_offset buffer dst_offset row_bytes;
    copy_rows data src_stride dst_stride row_bytes (row + 1) todo buffer
  end.

(** The body of [blit_pixels] on the lent buffer. *)
Definition paint (window_width window_height frame_width frame_height : Z) (data buffer : list Z) :
    outcome PresentError (list Z) :=
  let copy_width := Z.min window_width frame_width in
  let copy_height := Z.min window_height frame_height in
  let buffer := if negb (window_width =? frame_width) || negb (window_height =? frame_height)
                then replicate (length buffer) 0 else buffer in
  dst_stride ← mul_usize window_width 4;
  src_stride ← mul_usize frame_width 4;
  row_bytes ← mul_usize copy_width 4;
  copy_rows data src_stride dst_stride row_bytes 0 (Z.to_nat copy_height) buffer.

Section Presenter.
Context `{Softbuffer W Sf}.

Definition blit_pixels (surface : Sf) (window_width window_height frame_width frame_height : Z) (data : list Z) :
    Sf * outcome PresentError unit :=
  match sb_buffer surface with
  | Err e => (surface, Err (Platform e))
  | Panic => (surface, Panic)
  | Ok buffer =>
    match paint window_width window_height frame_width frame_height data buffer with
    | Ok buffer => let '(surface, r) := sb_present surface buffer in (surface, platform_result r)
    | Err e => (surface, Err e)
    | Panic => (surface, Panic)
    end
  end.

Record CachedFrame : Type := mkCached {
  cf_window_id : Z; cf_frame_id : Z; cf_codec : Z; cf_flags : Z; cf_width : Z; cf_height : Z;
  cf_captured_us : Z; cf_encoded_us : Z; cf_data : list Z
}.

Definition CachedFrame_from (f : FrameData) : CachedFrame :=
  mkCached (fd_window_id f) (fd_frame_id f) (fd_codec f) (fd_flags f) (fd_width f) (fd_height f)
    (fd_captured_us f) (fd_encoded_us f) (fd_data f).

Record CpuWindow : Type := mkCpuWindow {
  cw_surface : Sf; cw_width : Z; cw_height : Z; cw_last_frame : option CachedFrame
}.

Definition set_surface (s : Sf) (w : CpuWindow) : CpuWindow := mkCpuWindow s (cw_width w) (cw_height w) (cw_last_frame w).

Definition cache_frame (w : CpuWindow) (f : FrameData) : CpuWindow :=
  mkCpuWindow (cw_surface w) (cw_width w) (cw_height w) (Some (CachedFrame_from f)).

Definition blit (w : CpuWindow) (f : FrameData) : CpuWindow * outcome PresentError unit :=
  let '(s, r) := blit_pixels (cw_surface w) (cw_width w) (cw_height w) (fd_width f) (fd_height f) (fd_data f) in
  (set_surface s w, r).

(** The [windows] of a [CpuPresenter] are all there is; its clock comes with the
    calls. *)
Definition with_epoch : gmap Z CpuWindow := ∅.

Definition attach (p : gmap Z CpuWindow) (id : Z) (window : W) (width height : Z) : gmap Z CpuWindow * outcome PresentError unit :=
  match sb_open window with
  | Err e => (p, Err (Platform e))
  | Panic => (p, Panic)
  | Ok surface =>
    let width := nonzero width in
    let height := nonzero height in
    match sb_resize surface width height with
    | (_, Some e) => (p, Err (Platform e))
    | (surface, None) => (<[id := mkCpuWindow surface width height None]> p, Ok ())
    end
  end.

Definition resize (p : gmap Z CpuWindow) (id width height : Z) : gmap Z CpuWindow * outcome PresentError unit :=
  match p !! id with
  | None => (p, Err (UnknownWindow id))
  | Some w =>
    let width := nonzero width in
    let height := nonzero height in
    match sb_resize (cw_surface w) width height with
    | (surface, Some e) => (<[id := set_surface surface w]> p, Err (Platform e))
    | (surface, None) => (<[id := mkCpuWindow surface width height (cw_last_frame w)]> p, Ok ())
    end
  end.

(** The two readings of the clock come with the call. *)
Definition present (p : gmap Z CpuWindow) (id : Z) (f : FrameData) (decoded_us presented_us : Z) :
    gmap Z CpuWindow * outcome PresentError PresentTimes :=
  if negb (fd_codec f =? codec.RAW_BGRA) then (p, Err (UnsupportedCodec (fd_codec f)))
  else
    match frame_len (fd_width f) (fd_height f) with
    | None => (p, Err (DroppedFrame (fd_window_id f) (2 ^ 64 - 1) (len (fd_data f))))
    | Some expected =>
      if negb (len (fd_data f) =? expected) then (p, Err (DroppedFrame (fd_window_id f) expected (len (fd_data f))))
      else
        match p !! id with
        | None => (p, Err (UnknownWindow id))
        | Some w =>
          match blit w f with
          | (w, Ok _) => (<[id := cache_frame w f]> p, Ok (mkTimes decoded_us presented_us))
          | (w, Err e) => (<[id := w]> p, Err e)
          | (w, Panic) => (<[id := w]> p, Panic)
          end
        end
    end.

Definition refresh (p : gmap Z CpuWindow) (id : Z) : gmap Z CpuWindow * outcome PresentError unit :=
  match p !! id with
  | None => (p, Err (UnknownWindow id))
  | Some w =>
    match cw_last_frame w with
    | None => (p, Ok ())
    | Some f =>
      let '(s, r) := blit_pixels (cw_surface w) (cw_width w) (cw_height w) (cf_width f) (cf_height f) (cf_data f) in
      (<[id := set_surface s w]> p, r)
    end
  end.

Definition detach (p : gmap Z CpuWindow) (id : Z) : gmap Z CpuWindow := delete id p.
End Presenter.

(** ** What a copy writes *)

(** The byte at a position. *)
Definition byte_at (l : list Z) (i : Z) : option Z := l !! Z.to_nat i.

Lemma copy_bytes_spec src src_offset dst dst_offset n :
  0 ≤ src_offset → 0 ≤ dst_offset → 0 ≤ n → src_offset + n ≤ len src → dst_offset + n ≤ len dst →
  ∃ r, copy_bytes src src_offset dst dst_offset n = Ok r ∧ len r = len dst ∧
    ∀ i, 0 ≤ i → byte_at r i =
      if (dst_offset <=? i) && (i <? dst_offset + n) then byte_at src (src_offset + (i - dst_offset)) else byte_at dst i.
Proof.
  intros H1 H2 H3 H4 H5. unfold copy_bytes.
  rewrite (proj2 (Z.leb_le _ _) H4), (proj2 (Z.leb_le _ _) H5). cbn [andb]. eexists. split; [reflexivity|].
  unfold len in H4, H5. split.
  - unfold len, ztake, zdrop. rewrite !length_app, !length_take, !length_drop. lia.
  - intros i Hi. unfold byte_at, ztake, zdrop. destruct (Z.leb_spec dst_offset i); cbn [andb].
    + destruct (Z.ltb_spec i (dst_offset + n)).
      * rewrite lookup_app_r, length_take by (rewrite length_take; lia).
        rewrite lookup_app_l by (rewrite length_take, length_drop; lia).
        rewrite lookup_take_lt by lia. rewrite lookup_drop. f_equal. lia.
      * rewrite lookup_app_r, length_take by (rewrite length_take; lia).
        rewrite lookup_app_r by (rewrite length_take, length_drop; lia).
        rewrite length_take, length_drop, lookup_drop. f_equal. lia.
    + rewrite lookup_app_l by (rewrite length_take; lia). by rewrite lookup_take_lt by lia.
Qed.

Lemma paint_mul_ok {E} a b : a * b < 2 ^ 64 → mul_usize (E:=E) a b = Ok (a * b).
Proof. intros Hlt. unfold mul_usize. by rewrite (proj2 (Z.ltb_lt _ _) Hlt). Qed.

(** The position of a byte of a pixel in a picture of a width. *)
Definition at_pixel (width x y c : Z) : Z := (y * width + x) * 4 + c.

Lemma at_pixel_row width x y c row n :
  0 ≤ x < width → 0 ≤ c < 4 → 0 ≤ n ≤ width →
  (row * (width * 4) <=? at_pixel width x y c) && (at_pixel width x y c <? row * (width * 4) + n * 4) = (y =? row) && (x <? n).
Proof.
  intros Hx Hc Hn. unfold at_pixel. destruct (Z.eqb_spec y row) as [->|Hne].
  - cbn [andb]. destruct (Z.ltb_spec x n), (Z.leb_spec (row * (width * 4)) ((row * width + x) * 4 + c)),
      (Z.ltb_spec ((row * width + x) * 4 + c) (row * (width * 4) + n * 4)); cbn; (done || nia).
  - destruct (Z.leb_spec (row * (width * 4)) ((y * width + x) * 4 + c)),
      (Z.ltb_spec ((y * width + x) * 4 + c) (row * (width * 4) + n * 4)); cbn; try done.
    exfalso. destruct (Z_lt_le_dec y row); nia.
Qed.

Lemma at_pixel_nonneg width x y c : 0 ≤ x < width → 0 ≤ y → 0 ≤ c → 0 ≤ at_pixel width x y c.
Proof. unfold at_pixel. nia. Qed.

(** The rows copied so far hold the frame, the others what they held. *)
Lemma copy_rows_spec data fw fh w h n todo row buffer :
  is_uint 16 fw → is_uint 16 fh → is_uint 32 w → 0 ≤ n → n ≤ fw → n ≤ w → 0 ≤ row →
  row + Z.of_nat todo ≤ h → row + Z.of_nat todo ≤ fh → len data = fw * fh * 4 → len buffer = w * h * 4 →
  ∃ r, copy_rows data (fw * 4) (w * 4) (n * 4) row todo buffer = Ok r ∧ len r = w * h * 4 ∧
    ∀ x y c, 0 ≤ x < w → 0 ≤ y < h → 0 ≤ c < 4 →
      byte_at r (at_pixel w x y c) =
      if (x <? n) && (row <=? y) && (y <? row + Z.of_nat todo) then byte_at data (at_pixel fw x y c)
      else byte_at buffer (at_pixel w x y c).
Proof.
  unfold is_uint. intros Hfw Hfh Hw Hn0 Hnf Hnw. revert row buffer.
  induction todo as [|todo IH]; intros row buffer Hrow Hh Hf Hd Hb; cbn [copy_rows].
  - exists buffer. split_and!; [done..|]. intros x y c Hx Hy Hc.
    replace ((x <? n) && (row <=? y) && (y <? row + Z.of_nat 0)) with false; [done|].
    symmetry. apply andb_false_iff. destruct (Z.leb_spec row y); [right; apply Z.ltb_ge; lia|left; apply andb_false_r].
  - rewrite Nat2Z.inj_succ in *. simpl_pow.
    rewrite !paint_mul_ok by nia. cbn.
    destruct (copy_bytes_spec data (row * (fw * 4)) buffer (row * (w * 4)) (n * 4)) as (b1 & -> & Hl1 & H1);
      [nia..|]. cbn.
    destruct (IH (row + 1) b1) as (r & -> & Hl & Hr); [lia..|]. exists r. split_and!; [done..|].
    intros x y c Hx Hy Hc. rewrite Hr by done. rewrite H1 by (by apply at_pixel_nonneg; lia).
    rewrite (at_pixel_row w x y c row n) by lia.
    replace (row + 1 + Z.of_nat todo) with (row + Z.succ (Z.of_nat todo)) by lia.
    destruct (Z.ltb_spec x n), (Z.leb_spec (row + 1) y), (Z.leb_spec row y), (Z.ltb_spec y (row + Z.succ (Z.of_nat todo))),
      (Z.eqb_spec y row); cbn; try done; try lia.
    all: subst; f_equal; unfold at_pixel; lia.
Qed.

(** The buffer holds the frame at the top left, clipped to the window, and
    zeroes where the window is larger. *)
Definition pictures (width height : Z) (frame_width frame_height : Z) (data buffer : list Z) : Prop :=
  len buffer = width * height * 4 ∧
  ∀ x y c, 0 ≤ x < width → 0 ≤ y < height → 0 ≤ c < 4 →
    byte_at buffer (at_pixel width x y c) =
    if (x <? frame_width) && (y <? frame_height) then byte_at data (at_pixel frame_width x y c) else Some 0.

Lemma byte_at_zeroes n i : 0 ≤ i < Z.of_nat n → byte_at (replicate n 0) i = Some 0.
Proof. intros Hi. unfold byte_at. apply lookup_replicate. lia. Qed.

Lemma at_pixel_lt width height x y c : 0 ≤ x < width → 0 ≤ y < height → c < 4 → at_pixel width x y c < width * height * 4.
Proof. unfold at_pixel. nia. Qed.

Lemma paint_spec w h fw fh data buffer :
  is_uint 32 w → is_uint 32 h → is_uint 16 fw → is_uint 16 fh → len data = fw * fh * 4 → len buffer = w * h * 4 →
  ∃ r, paint w h fw fh data buffer = Ok r ∧ pictures w h fw fh data r.
Proof.
  intros Hw Hh Hfw Hfh Hd Hb. unfold paint. unfold is_uint in *.
  set (b0 := if negb (w =? fw) || negb (h =? fh) then replicate (length buffer) 0 else buffer).
  assert (Hb0 : len b0 = w * h * 4) by (unfold b0; destruct (_ || _); unfold len in *; [rewrite length_replicate|]; lia).
  simpl_pow. rewrite !paint_mul_ok by lia. cbn.
  destruct (copy_rows_spec data fw fh w h (Z.min w fw) (Z.to_nat (Z.min h fh)) 0 b0) as (r & -> & Hl & Hr);
    try (unfold is_uint; lia).
  exists r. split; [done|]. split; [done|]. intros x y c Hx Hy Hc. rewrite Hr by done. rewrite Z.add_0_l, Z2Nat.id by lia.
  replace ((x <? Z.min w fw) && (0 <=? y) && (y <? Z.min h fh)) with ((x <? fw) && (y <? fh)).
  - destruct ((x <? fw) && (y <? fh)) eqn:Hin; [done|]. unfold b0.
    assert (Hi : 0 ≤ at_pixel w x y c < Z.of_nat (length buffer)).
    { split; [apply at_pixel_nonneg; lia|]. change (at_pixel w x y c < len buffer). rewrite Hb. apply at_pixel_lt; lia. }
    destruct (Z.eqb_spec w fw) as [->|], (Z.eqb_spec h fh) as [->|]; cbn [negb orb];
      [|by apply byte_at_zeroes..].
    exfalso. apply andb_false_iff in Hin as [?%Z.ltb_ge|?%Z.ltb_ge]; lia.
  - destruct (Z.ltb_spec x fw), (Z.ltb_spec y fh), (Z.ltb_spec x (Z.min w fw)), (Z.leb_spec 0 y), (Z.ltb_spec y (Z.min h fh));
      cbn; (done || lia).
Qed.

(** ** Runs *)

Section Runs.
Context `{SoftbufferLaws W Sf}.

Inductive presenter_op : Type :=
| OpAttach (id : Z) (window : W) (width height : Z)
| OpResize (id width height : Z)
| OpPresent (id : Z) (f : FrameData) (decoded_us presented_us : Z)
| OpRefresh (id : Z)
| OpDetach (id : Z).

Definition forget_times (x : gmap Z (CpuWindow (Sf:=Sf)) * outcome PresentError PresentTimes) :=
  (x.1, match x.2 with Ok _ => Ok () | Err e => Err e | Panic => Panic end).

Definition do_op (o : presenter_op) (p : gmap Z (CpuWindow (Sf:=Sf))) : gmap Z (CpuWindow (Sf:=Sf)) * outcome PresentError unit :=
  match o with
  | OpAttach id w width height => attach p id w width height
  | OpResize id width height => resize p id width height
  | OpPresent id f t1 t2 => forget_times (present p id f t1 t2)
  | OpRefresh id => refresh p id
  | OpDetach id => (detach p id, Ok ())
  end.

Definition trace : Type := list (presenter_op * outcome PresentError unit).

Fixpoint run_ops (os : list presenter_op) (tr : trace) (p : gmap Z (CpuWindow (Sf:=Sf))) : trace * gmap Z (CpuWindow (Sf:=Sf)) :=
  match os with
  | [] => (tr, p)
  | o :: os => let '(p, r) := do_op o p in run_ops os (tr ++ [(o, r)]) p
  end.

(** The types of the arguments: [u32] sizes, [u16] sides. *)
Definition op_typed (o : presenter_op) : Prop :=
  match o with
  | OpAttach _ _ w h | OpResize _ w h => is_uint 32 w ∧ is_uint 32 h
  | OpPresent _ f _ _ => is_uint 16 (fd_width f) ∧ is_uint 16 (fd_height f)
  | _ => True
  end.

(** What a window's surface should measure, and the last frame put on it. *)
Definition size_after (id : Z) (acc : option (Z * Z)) (x : presenter_op * outcome PresentError unit) : option (Z * Z) :=
  match x with
  | (OpAttach i _ w h, Ok _) | (OpResize i w h, Ok _) => if i =? id then Some (nonzero w, nonzero h) else acc
  | (OpDetach i, _) => if i =? id then None else acc
  | _ => acc
  end.
Definition window_size (id : Z) (tr : trace) : option (Z * Z) := fold_left (size_after id) tr None.

Definition frame_after (id : Z) (acc : option FrameData) (x : presenter_op * outcome PresentError unit) : option FrameData :=
  match x with
  | (OpPresent i f _ _, Ok _) => if i =? id then Some f else acc
  | (OpAttach i _ _ _, Ok _) | (OpDetach i, _) => if i =? id then None else acc
  | _ => acc
  end.
Definition last_presented (id : Z) (tr : trace) : option FrameData := fold_left (frame_after id) tr None.

Lemma window_size_snoc id tr x : window_size id (tr ++ [x]) = size_after id (window_size id tr) x.
Proof. unfold window_size. by rewrite fold_left_app. Qed.
Lemma last_presented_snoc id tr x : last_presented id (tr ++ [x]) = frame_after id (last_presented id tr) x.
Proof. unfold last_presented. by rewrite fold_left_app. Qed.

Definition frame_ok (f : FrameData) : Prop :=
  is_uint 16 (fd_width f) ∧ is_uint 16 (fd_height f) ∧ len (fd_data f) = fd_width f * fd_height f * 4.

(** A window against what was done to it. *)
Record window_inv (size : Z * Z) (last : option FrameData) (w : CpuWindow (Sf:=Sf)) : Prop := {
  wi_size : (cw_width w, cw_height w) = size;
  wi_surface : sb_size (cw_surface w) = Some size;
  wi_typed : is_uint 32 size.1 ∧ is_uint 32 size.2;
  wi_last : cw_last_frame w = CachedFrame_from <$> last;
  wi_frame f : last = Some f → frame_ok f
}.

Definition presenter_inv (tr : trace) (p : gmap Z (CpuWindow (Sf:=Sf))) : Prop :=
  ∀ id, match p !! id, window_size id tr with
        | Some w, Some size => window_inv size (last_presented id tr) w
        | None, None => True
        | _, _ => False
        end.

(** The screen shows a frame at a window's size. *)
Definition painted (id : Z) (f : FrameData) (tr : trace) (p : gmap Z (CpuWindow (Sf:=Sf))) : Prop :=
  ∃ w width height b, p !! id = Some w ∧ window_size id tr = Some (width, height) ∧
    sb_shown (cw_surface w) = Some (width, height, b) ∧ pictures width height (fd_width f) (fd_height f) (fd_data f) b.

(** ** Each operation *)

Lemma blit_pixels_spec s w h fw fh data :
  sb_size s = Some (w, h) → is_uint 32 w → is_uint 32 h → is_uint 16 fw → is_uint 16 fh → len data = fw * fh * 4 →
  ∃ s' r, blit_pixels s w h fw fh data = (s', r) ∧ sb_size s' = Some (w, h) ∧ r ≠ Panic ∧
    (r = Ok () → ∃ b, sb_shown s' = Some (w, h, b) ∧ pictures w h fw fh data b).
Proof.
  intros Hs Hw Hh Hfw Hfh Hd. unfold blit_pixels. pose proof (sb_buffer_len s w h Hs (proj1 Hw) (proj1 Hh)) as Hbuf.
  destruct (sb_buffer s) as [b|e|]; [|by exists s, (Err (Platform e))|done].
  destruct (paint_spec w h fw fh data b) as (b' & -> & Hp); [done..|].
  pose proof (sb_present_size s b') as Hps. pose proof (sb_present_ok s w h b') as Hshow.
  destruct (sb_present s b') as [s' [e|]]; cbn in *; (eexists _, _; split; [reflexivity|]).
  - split_and!; [congruence|done|done].
  - split_and!; [congruence|done|]. intros _. exists b'. split; [by apply Hshow|done].
Qed.

Lemma nonzero_typed v : is_uint 32 v → is_uint 32 (nonzero v).
Proof. unfold is_uint, nonzero. simpl_pow. lia. Qed.

Lemma frame_len_spec w h : is_uint 16 w → is_uint 16 h → frame_len w h = Some (w * h * 4).
Proof.
  unfold is_uint, frame_len, checked_mul. intros Hw Hh. simpl_pow. rewrite (proj2 (Z.ltb_lt _ _)) by nia. cbn.
  by rewrite (proj2 (Z.ltb_lt _ _)) by nia.
Qed.

(** Nothing changes for the other windows. *)
Lemma presenter_update tr p x id w :
  presenter_inv tr p →
  (∀ j, j ≠ id → size_after j (window_size j tr) x = window_size j tr ∧ frame_after j (last_presented j tr) x = last_presented j tr) →
  match window_size id (tr ++ [x]) with Some size => window_inv size (last_presented id (tr ++ [x])) w | None => False end →
  presenter_inv (tr ++ [x]) (<[id := w]> p).
Proof.
  intros Hinv Hother Hid j. destruct (decide (j = id)) as [->|Hne].
  - rewrite lookup_insert_eq. by destruct (window_size id (tr ++ [x])).
  - rewrite lookup_insert_ne by done. rewrite window_size_snoc, last_presented_snoc.
    destruct (Hother j Hne) as [-> ->]. apply Hinv.
Qed.

Lemma presenter_same tr p x :
  presenter_inv tr p →
  (∀ j, size_after j (window_size j tr) x = window_size j tr ∧ frame_after j (last_presented j tr) x = last_presented j tr) →
  presenter_inv (tr ++ [x]) p.
Proof. intros Hinv Hx j. rewrite window_size_snoc, last_presented_snoc. destruct (Hx j) as [-> ->]. apply Hinv. Qed.

Lemma presenter_window tr p id w :
  presenter_inv tr p → p !! id = Some w →
  ∃ size, window_size id tr = Some size ∧ window_inv size (last_presented id tr) w.
Proof. intros Hinv Hw. specialize (Hinv id). rewrite Hw in Hinv. destruct (window_size id tr); [eauto|done]. Qed.

Lemma set_surface_inv size last w s :
  window_inv size last w → sb_size s = Some size → window_inv size last (set_surface s w).
Proof. intros [H1 H2 H3 H4 H5] Hs. by constructor. Qed.

(** ** Every operation keeps the invariant *)

(** A resize that fails leaves the surface at its size; the safety of the copy
    rests on it ([failed_resize_overruns]). *)
Hypothesis resize_keeps : ∀ s w h s' e, sb_resize (W:=W) (Sf:=Sf) s w h = (s', Some e) → sb_size s' = sb_size s.

(** What an operation that succeeds leaves on the screen. *)
Definition op_shows (o : presenter_op) (tr : trace) (p : gmap Z (CpuWindow (Sf:=Sf))) : Prop :=
  match o with
  | OpPresent id f _ _ => painted id f tr p
  | OpRefresh id => ∀ f, last_presented id tr = Some f → painted id f tr p
  | _ => True
  end.

Definition op_post (tr : trace) (o : presenter_op) (x : gmap Z (CpuWindow (Sf:=Sf)) * outcome PresentError unit) : Prop :=
  presenter_inv (tr ++ [(o, x.2)]) x.1 ∧ x.2 ≠ Panic ∧ (x.2 = Ok () → op_shows o (tr ++ [(o, x.2)]) x.1).

Ltac snoc_id := rewrite ?window_size_snoc, ?last_presented_snoc; cbn; rewrite ?Z.eqb_refl.
Ltac other_id := intros j Hne; cbn; rewrite ?(proj2 (Z.eqb_neq _ _) (not_eq_sym Hne)); auto.

Lemma attach_post tr p id window width height :
  presenter_inv tr p → is_uint 32 width → is_uint 32 height →
  op_post tr (OpAttach id window width height) (attach p id window width height).
Proof.
  intros Hinv Hw Hh. unfold op_post, attach. pose proof (sb_open_total window) as Hopen.
  destruct (sb_open window) as [s|e|]; [|by split_and!; [apply presenter_same; auto|..]|done].
  destruct (sb_resize s (nonzero width) (nonzero height)) as [s' [e|]] eqn:Hr; cbn;
    [by split_and!; [apply presenter_same; auto|..]|].
  split_and!; [|done|done]. apply presenter_update; [done|other_id|]. snoc_id.
  constructor; cbn; [done|by apply sb_resize_ok in Hr|split; by apply nonzero_typed|done|done].
Qed.

Lemma resize_post tr p id width height :
  presenter_inv tr p → is_uint 32 width → is_uint 32 height →
  op_post tr (OpResize id width height) (resize p id width height).
Proof.
  intros Hinv Hw Hh. unfold op_post, resize.
  destruct (p !! id) as [w|] eqn:Hp; [|by split_and!; [apply presenter_same; auto|..]].
  destruct (presenter_window tr p id w Hinv Hp) as (size & Hs & Hwi).
  destruct (sb_resize (cw_surface w) (nonzero width) (nonzero height)) as [s' [e|]] eqn:Hr; cbn; (split_and!; [|done|done]).
  - apply presenter_update; [done|auto|]. snoc_id. rewrite Hs. apply set_surface_inv; [done|].
    rewrite (resize_keeps _ _ _ _ _ Hr). apply Hwi.
  - apply presenter_update; [done|other_id|]. snoc_id.
    constructor; cbn; [done|by apply sb_resize_ok in Hr|split; by apply nonzero_typed|apply Hwi|apply Hwi].
Qed.

Lemma present_post tr p id f t1 t2 :
  presenter_inv tr p → is_uint 16 (fd_width f) → is_uint 16 (fd_height f) →
  op_post tr (OpPresent id f t1 t2) (forget_times (present p id f t1 t2)).
Proof.
  intros Hinv Hfw Hfh. unfold op_post, forget_times, present.
  destruct (negb (fd_codec f =? codec.RAW_BGRA)); [by split_and!; [apply presenter_same; auto|..]|].
  rewrite frame_len_spec by done.
  destruct (Z.eqb_spec (len (fd_data f)) (fd_width f * fd_height f * 4)) as [Hl|]; cbn [negb];
    [|by split_and!; [apply presenter_same; auto|..]].
  destruct (p !! id) as [w|] eqn:Hp; [|by split_and!; [apply presenter_same; auto|..]].
  destruct (presenter_window tr p id w Hinv Hp) as ([sw sh] & Hs & Hwi). pose proof Hwi as [[= Hcw Hch] Hsz [Ht1 Ht2] Hlast _].
  unfold blit. rewrite Hcw, Hch.
  destruct (blit_pixels_spec (cw_surface w) sw sh (fd_width f) (fd_height f) (fd_data f))
    as (s' & r & -> & Hs' & Hr & Hshow); [done..|].
  destruct r as [[]|e|]; cbn; [|split_and!; [|done|done]|done].
  - destruct (Hshow eq_refl) as (b & Hb & Hpic). split_and!; [|done|].
    + apply presenter_update; [done|other_id|]. snoc_id. rewrite Hs.
      constructor; cbn; [by rewrite Hcw, Hch|done|done|done|]. intros f' [= <-]. by split_and!.
    + intros _. cbn. exists (cache_frame (set_surface s' w) f), sw, sh, b. rewrite lookup_insert_eq, window_size_snoc. by split_and!.
  - apply presenter_update; [done|auto|]. snoc_id. rewrite Hs. by apply set_surface_inv.
Qed.

Lemma refresh_post tr p id : presenter_inv tr p → op_post tr (OpRefresh id) (refresh p id).
Proof.
  intros Hinv. unfold op_post, refresh.
  destruct (p !! id) as [w|] eqn:Hp; [|by split_and!; [apply presenter_same; auto|..]].
  destruct (presenter_window tr p id w Hinv Hp) as ([sw sh] & Hs & Hwi). pose proof Hwi as [[= Hcw Hch] Hsz [Ht1 Ht2] Hlast Hf].
  destruct (last_presented id tr) as [f|] eqn:El; cbn in Hlast; rewrite Hlast.
  - destruct (Hf f eq_refl) as (Hfw & Hfh & Hl). cbn [CachedFrame_from cf_width cf_height cf_data]. rewrite Hcw, Hch.
    destruct (blit_pixels_spec (cw_surface w) sw sh (fd_width f) (fd_height f) (fd_data f))
      as (s' & r & -> & Hs' & Hr & Hshow); [done..|]. cbn. split_and!; [|done|].
    + apply presenter_update; [done|auto|]. snoc_id. rewrite Hs, El. by apply set_surface_inv.
    + intros ->. destruct (Hshow eq_refl) as (b & Hb & Hpic). intros f'. rewrite last_presented_snoc, El. cbn. intros [= <-].
      exists (set_surface s' w), sw, sh, b. rewrite lookup_insert_eq, window_size_snoc. by split_and!.
  - cbn. split_and!; [apply presenter_same; auto|done|]. intros _ f. by rewrite last_presented_snoc, El.
Qed.

Lemma detach_post tr p id : presenter_inv tr p → op_post tr (OpDetach id) (detach p id, Ok ()).
Proof.
  intros Hinv. split_and!; [|done|done]. intros j. rewrite window_size_snoc, last_presented_snoc. unfold detach. cbn.
  destruct (Z.eqb_spec id j) as [->|Hne]; [by rewrite lookup_delete_eq|]. rewrite lookup_delete_ne by done. apply Hinv.
Qed.

Lemma do_op_post tr p o : presenter_inv tr p → op_typed o → op_post tr o (do_op o p).
Proof.
  intros Hinv Ho. destruct o; cbn in *.
  - destruct Ho. by apply attach_post.
  - destruct Ho. by apply resize_post.
  - destruct Ho. by apply present_post.
  - by apply refresh_post.
  - by apply detach_post.
Qed.

Lemma run_ops_inv os tr p :
  presenter_inv tr p → Forall op_typed os → presenter_inv (run_ops os tr p).1 (run_ops os tr p).2.
Proof.
  revert tr p. induction os as [|o os IH]; intros tr p Hinv Hos; cbn; [done|].
  apply Forall_cons in Hos as [Ho Hos]. destruct (do_op_post tr p o Hinv Ho) as [Hp _].
  destruct (do_op o p) as [p' r]. by apply IH.
Qed.

End Runs.

(** ** A surface *)

Module SimpleSurface.
(** A surface that always works. *)
Record surface : Type := mkSurface { size : option (Z * Z); shown : option (Z * Z * list Z) }.

#[global] Instance simple : Softbuffer unit surface := {
  sb_open _ := Ok (mkSurface None None);
  sb_resize s w h := (mkSurface (Some (w, h)) (shown s), None);
  sb_buffer s := Ok (match size s with Some (w, h) => replicate (Z.to_nat (w * h * 4)) 7 | None => [] end);
  sb_present s b := (mkSurface (size s) ((λ d, (d.1, d.2, b)) <$> size s), None);
  sb_size := size;
  sb_shown := shown
}.

#[global] Instance simple_laws : SoftbufferLaws unit surface.
Proof.
  split; cbn; [done|..].
  - by intros s w h s' [= <-].
  - intros s w h -> Hw Hh. rewrite len_replicate; lia.
  - done.
  - by intros s w h b s' -> [= <-].
Qed.

Lemma simple_keeps s w h s' e : sb_resize (W:=unit) (Sf:=surface) s w h = (s', Some e) → sb_size s' = sb_size s.
Proof. done. Qed.

Definition dot : FrameData := mkFrameData 1 5 codec.RAW_BGRA 1 2 1 10 20 [1; 2; 3; 4; 5; 6; 7; 8].
Definition session_ops : list (presenter_op (W:=unit)) := [OpAttach 1 () 1 2; OpPresent 1 dot 30 40; OpResize 1 2 2].
End SimpleSurface.


(** ** What the safety of the copy rests on *)

Module ShrinkingSurface.
(** A surface that keeps every promise but loses its memory when a resize
    fails. *)
Record surface : Type := mkSurface { size : option (Z * Z); shown : option (Z * Z * list Z) }.

#[global] Instance shrinking : Softbuffer unit surface := {
  sb_open _ := Ok (mkSurface None None);
  sb_resize s w h := if w <? 100 then (mkSurface (Some (w, h)) (shown s), None) else (mkSurface None (shown s), Some []);
  sb_buffer s := Ok (match size s with Some (w, h) => replicate (Z.to_nat (w * h * 4)) 7 | None => [] end);
  sb_present s b := (mkSurface (size s) ((λ d, (d.1, d.2, b)) <$> size s), None);
  sb_size := size;
  sb_shown := shown
}.

Lemma shrinking_laws : SoftbufferLaws unit surface.
Proof.
  split; cbn; [done|..].
  - intros s w h s'. case_match; [by intros [= <-]|done].
  - intros s w h -> Hw Hh. rewrite len_replicate; lia.
  - done.
  - by intros s w h b s' -> [= <-].
Qed.
End ShrinkingSurface.

(** With it a frame presented after a failed resize is copied past the end of
    the buffer: the window keeps the size it had before. *)
Lemma failed_resize_overruns :
  (run_ops (Sf:=ShrinkingSurface.surface)
     [OpAttach 1 () 1 2; OpResize 1 200 200; OpPresent 1 SimpleSurface.dot 30 40] [] with_epoch).1.*2 =
  [Ok (); Err (Platform []); Panic].
Proof. reflexivity. Qed.
