(* ===== verification/Display.v ===== *)
(** * Display commands and the backends that execute them

    [crates/oxdisplay/src/{lib,headless}.rs] and the part of
    [crates/oxclient/src/main.rs] that turns a change of the window model into
    a command. A command carries a snapshot of the window, because it crosses to
    another thread: a backend does not see the model. [Mirror] is a backend that
    keeps nothing but what the commands tell it, and the theorems say that this
    is the model; [HeadlessBackend] is the one the code has for tests. *)

From S2P Require Import Prelude Cursor Wire MsgType MsgControl MsgInput MsgWindow Model Presenter.

(** ** Commands *)

Record WindowSpec : Type := mkSpec {
  sp_window_id : Z; sp_app_id : list Z; sp_title : list Z; sp_x : Z; sp_y : Z; sp_width : Z; sp_height : Z;
  sp_owner_id : Z; sp_minimized : bool; sp_maximized : bool; sp_resizable : bool; sp_has_frame : bool;
  sp_topmost : bool; sp_icon : option WindowIcon
}.

Module DisplayCommand.
Inductive t : Type :=
| CreateWindow (w : WindowSpec)
| DestroyWindow (id : Z)
| MoveWindow (w : WindowSpec)
| RetitleWindow (w : WindowSpec)
| ChangeState (w : WindowSpec)
| ChangeIcon (w : WindowSpec)
| Restack (stack : list Z)
| Frame (f : FrameData)
| CursorShape (s : MsgInput.CursorShape)
| CursorPosition (window_id x y : Z)
| CursorVisibility (visible : bool)
| AgentError (code : Z) (message : list Z)
| Shutdown.
End DisplayCommand.

Module DisplayEvent.
Inductive t : Type :=
| Pointer (window_id x y buttons wheel_x wheel_y : Z)
| Key (scancode : Z) (pressed extended : bool)
| Text (text : list Z)
| Modifiers (modifiers locks : Z)
| Focused (window_id : Z) (focused : bool)
| CloseRequested (window_id : Z)
| ResizeRequested (window_id width height : Z)
| MoveRequested (window_id x y : Z)
| Minimized (window_id : Z) (minimized : bool)
| Presented (window_id frame_id decoded_us presented_us : Z)
| BackendError (message : list Z).
End DisplayEvent.

Definition DisplayError : Type := list Z.
Definition display_result : Type → Type := outcome DisplayError.

Class DisplayBackend (B : Type) : Type := {
  create_window : B → WindowSpec → B * display_result unit;
  destroy_window : B → Z → B * display_result unit;
  move_window : B → WindowSpec → B * display_result unit;
  retitle_window : B → WindowSpec → B * display_result unit;
  change_state : B → WindowSpec → B * display_result unit;
  change_icon : B → WindowSpec → B * display_result unit;
  restack : B → list Z → B * display_result unit;
  frame : B → FrameData → B * display_result (option PresentTimes);
  cursor_shape : B → CursorShape → B * display_result unit;
  cursor_moved : B → Z → Z → Z → B * display_result unit;
  cursor_visibility : B → bool → B * display_result unit;
  agent_error : B → Z → list Z → B * display_result unit;
  closed : B → B * display_result unit
}.

Definition apply_display_command {B} `{DisplayBackend B} (backend : B) (command : DisplayCommand.t) : B * display_result unit :=
  match command with
  | DisplayCommand.CreateWindow w => create_window backend w
  | DisplayCommand.DestroyWindow id => destroy_window backend id
  | DisplayCommand.MoveWindow w => move_window backend w
  | DisplayCommand.RetitleWindow w => retitle_window backend w
  | DisplayCommand.ChangeState w => change_state backend w
  | DisplayCommand.ChangeIcon w => change_icon backend w
  | DisplayCommand.Restack stack => restack backend stack
  | DisplayCommand.Frame f =>
    let '(backend, r) := frame backend f in
    (backend, match r with Ok _ => Ok () | Err e => Err e | Panic => Panic end)
  | DisplayCommand.CursorShape s => cursor_shape backend s
  | DisplayCommand.CursorPosition window_id x y => cursor_moved backend window_id x y
  | DisplayCommand.CursorVisibility visible => cursor_visibility backend visible
  | DisplayCommand.AgentError code message => agent_error backend code message
  | DisplayCommand.Shutdown => closed backend
  end.

(** ** From the model to commands *)

Definition window_spec (w : RemoteWindow) : WindowSpec :=
  mkSpec (rw_window_id w) (rw_app_id w) (rw_title w) (rw_x w) (rw_y w) (rw_width w) (rw_height w) (rw_owner_id w)
    (rw_minimized w) (rw_maximized w) (rw_resizable w) (rw_has_frame w) (rw_topmost w) (rw_icon w).

Definition display_command_for_change (model : WindowModel) (change : ModelChange.t) : option DisplayCommand.t :=
  match change with
  | ModelChange.Created id => w ← model_get model id; Some (DisplayCommand.CreateWindow (window_spec w))
  | ModelChange.Destroyed id => Some (DisplayCommand.DestroyWindow id)
  | ModelChange.Moved id => w ← model_get model id; Some (DisplayCommand.MoveWindow (window_spec w))
  | ModelChange.Retitled id => w ← model_get model id; Some (DisplayCommand.RetitleWindow (window_spec w))
  | ModelChange.StateChanged id => w ← model_get model id; Some (DisplayCommand.ChangeState (window_spec w))
  | ModelChange.IconChanged id => w ← model_get model id; Some (DisplayCommand.ChangeIcon (window_spec w))
  | ModelChange.Restacked => Some (DisplayCommand.Restack (stack model))
  | ModelChange.Frame _ => None
  | ModelChange.CursorShape s => Some (DisplayCommand.CursorShape s)
  | ModelChange.CursorMoved window_id x y => Some (DisplayCommand.CursorPosition window_id x y)
  | ModelChange.CursorVisibility visible => Some (DisplayCommand.CursorVisibility visible)
  | ModelChange.AgentError code message => Some (DisplayCommand.AgentError code message)
  | ModelChange.Closed => Some DisplayCommand.Shutdown
  end.

(** One event of the agent: the model after it, and the commands it sends. *)
Definition commands_of (s : WindowModel) (e : ClientEvent.t) : WindowModel * list DisplayCommand.t :=
  let '(s, changes) := apply s e in (s, omap (display_command_for_change s) changes).

Fixpoint command_stream (s : WindowModel) (es : list ClientEvent.t) : WindowModel * list DisplayCommand.t :=
  match es with
  | [] => (s, [])
  | e :: es =>
    let '(s, cs) := commands_of s e in
    let '(s, cs') := command_stream s es in
    (s, cs ++ cs')
  end.

(** ** The headless backend *)

Module HeadlessCall.
Inductive t : Type :=
| Created (window_id : Z) (app_id title : list Z) (x y width height owner_id : Z)
| Destroyed (id : Z)
| Moved (window_id x y width height : Z)
| Retitled (window_id : Z) (title : list Z)
| StateChanged (window_id : Z) (minimized maximized : bool)
| IconChanged (id : Z)
| Restacked (stack : list Z)
| Frame (window_id frame_id bytes : Z)
| CursorShape (cursor_id width height : Z)
| CursorMoved (window_id x y : Z)
| CursorVisibility (visible : bool)
| AgentError (code : Z) (message : list Z)
| Closed.
End HeadlessCall.

Record HeadlessBackend : Type := mkHeadless { hb_calls : list HeadlessCall.t; hb_windows : gset Z }.

Definition HeadlessBackend_new : HeadlessBackend := mkHeadless [] ∅.

Definition record_call (b : HeadlessBackend) (c : HeadlessCall.t) : HeadlessBackend * display_result unit :=
  (mkHeadless (hb_calls b ++ [c]) (hb_windows b), Ok ()).

Definition take_calls (b : HeadlessBackend) : HeadlessBackend * list HeadlessCall.t :=
  (mkHeadless [] (hb_windows b), hb_calls b).

#[export] Instance HeadlessBackend_display : DisplayBackend HeadlessBackend := {
  create_window b w :=
    record_call (mkHeadless (hb_calls b) ({[sp_window_id w]} ∪ hb_windows b))
      (HeadlessCall.Created (sp_window_id w) (sp_app_id w) (sp_title w) (sp_x w) (sp_y w) (sp_width w) (sp_height w)
         (sp_owner_id w));
  destroy_window b id := record_call (mkHeadless (hb_calls b) (hb_windows b ∖ {[id]})) (HeadlessCall.Destroyed id);
  move_window b w :=
    record_call b (HeadlessCall.Moved (sp_window_id w) (sp_x w) (sp_y w) (sp_width w) (sp_height w));
  retitle_window b w := record_call b (HeadlessCall.Retitled (sp_window_id w) (sp_title w));
  change_state b w := record_call b (HeadlessCall.StateChanged (sp_window_id w) (sp_minimized w) (sp_maximized w));
  change_icon b w := record_call b (HeadlessCall.IconChanged (sp_window_id w));
  restack b stack := record_call b (HeadlessCall.Restacked stack);
  frame b f :=
    if bool_decide (fd_window_id f ∈ hb_windows b) then
      ((record_call b (HeadlessCall.Frame (fd_window_id f) (fd_frame_id f) (len (fd_data f)))).1, Ok (Some (mkTimes 0 0)))
    else (b, Ok None);
  cursor_shape b s := record_call b (HeadlessCall.CursorShape (cs_cursor_id s) (cs_width s) (cs_height s));
  cursor_moved b window_id x y := record_call b (HeadlessCall.CursorMoved window_id x y);
  cursor_visibility b visible := record_call b (HeadlessCall.CursorVisibility visible);
  agent_error b code message := record_call b (HeadlessCall.AgentError code message);
  closed b := record_call b HeadlessCall.Closed
}.

(** ** Specification: a backend that knows only the commands *)

Record Mirror : Type := mkMirror { mr_windows : list WindowSpec; mr_cursor_visible : bool }.

Definition update_spec (id : Z) (f : WindowSpec → WindowSpec) (b : Mirror) : Mirror :=
  mkMirror (map (λ v, if sp_window_id v =? id then f v else v) (mr_windows b)) (mr_cursor_visible b).

Definition with_geometry (w v : WindowSpec) : WindowSpec :=
  mkSpec (sp_window_id v) (sp_app_id v) (sp_title v) (sp_x w) (sp_y w) (sp_width w) (sp_height w) (sp_owner_id v)
    (sp_minimized v) (sp_maximized v) (sp_resizable v) (sp_has_frame v) (sp_topmost v) (sp_icon v).
Definition with_title (w v : WindowSpec) : WindowSpec :=
  mkSpec (sp_window_id v) (sp_app_id v) (sp_title w) (sp_x v) (sp_y v) (sp_width v) (sp_height v) (sp_owner_id v)
    (sp_minimized v) (sp_maximized v) (sp_resizable v) (sp_has_frame v) (sp_topmost v) (sp_icon v).
Definition with_state (w v : WindowSpec) : WindowSpec :=
  mkSpec (sp_window_id v) (sp_app_id v) (sp_title v) (sp_x v) (sp_y v) (sp_width v) (sp_height v) (sp_owner_id v)
    (sp_minimized w) (sp_maximized w) (sp_resizable v) (sp_has_frame v) (sp_topmost v) (sp_icon v).
Definition with_icon (w v : WindowSpec) : WindowSpec :=
  mkSpec (sp_window_id v) (sp_app_id v) (sp_title v) (sp_x v) (sp_y v) (sp_width v) (sp_height v) (sp_owner_id v)
    (sp_minimized v) (sp_maximized v) (sp_resizable v) (sp_has_frame v) (sp_topmost v) (sp_icon w).

Definition find_spec (b : Mirror) (id : Z) : option WindowSpec := List.find (λ v, sp_window_id v =? id) (mr_windows b).

Definition mirrored (b : Mirror) : Mirror * display_result unit := (b, Ok ()).

#[export] Instance Mirror_display : DisplayBackend Mirror := {
  create_window b w := mirrored (mkMirror (mr_windows b ++ [w]) (mr_cursor_visible b));
  destroy_window b id :=
    mirrored (mkMirror (List.filter (λ v, negb (sp_window_id v =? id)) (mr_windows b)) (mr_cursor_visible b));
  move_window b w := mirrored (update_spec (sp_window_id w) (with_geometry w) b);
  retitle_window b w := mirrored (update_spec (sp_window_id w) (with_title w) b);
  change_state b w := mirrored (update_spec (sp_window_id w) (with_state w) b);
  change_icon b w := mirrored (update_spec (sp_window_id w) (with_icon w) b);
  restack b stack := mirrored (mkMirror (omap (find_spec b) stack) (mr_cursor_visible b));
  frame b _ := (b, Ok None);
  cursor_shape b _ := mirrored b;
  cursor_moved b _ _ _ := mirrored b;
  cursor_visibility b visible := mirrored (mkMirror (mr_windows b) visible);
  agent_error b _ _ := mirrored b;
  closed b := mirrored b
}.

(** A backend fed with commands; what it answers is only logged. *)
Definition feed {B} `{DisplayBackend B} (b : B) (cs : list DisplayCommand.t) : B :=
  fold_left (λ b c, (apply_display_command b c).1) cs b.

Definition spec_of (s : WindowModel) (id : Z) : option WindowSpec := window_spec <$> windows s !! id.

(** Its windows are the model's, bottom to top. *)
Definition mirrors (s : WindowModel) (b : Mirror) : Prop :=
  mr_windows b = omap (spec_of s) (stack s) ∧ mr_cursor_visible b = cursor_visible s.

(** ** Lemmas *)

Lemma feed_app {B} `{DisplayBackend B} (b : B) cs cs' : feed b (cs ++ cs') = feed (feed b cs) cs'.
Proof. apply fold_left_app. Qed.

Lemma spec_of_id s id v : model_inv s → spec_of s id = Some v → sp_window_id v = id.
Proof.
  intros Hs Hv. unfold spec_of in Hv. destruct (windows s !! id) as [w|] eqn:Hw; [|done]. injection Hv as <-.
  exact (mi_ids s Hs id w Hw).
Qed.

Lemma omap_ext_in {A B} (f g : A → option B) (l : list A) : (∀ x, x ∈ l → f x = g x) → omap f l = omap g l.
Proof.
  induction l as [|x l IH]; intros Hfg; [done|]. cbn. rewrite (Hfg x) by constructor.
  rewrite IH; [done|]. intros y Hy. apply Hfg. by constructor.
Qed.

Lemma omap_map_in {A B} (f g : A → option B) (h : B → B) (l : list A) :
  (∀ x, x ∈ l → g x = h <$> f x) → omap g l = map h (omap f l).
Proof.
  induction l as [|x l IH]; intros Hfg; [done|]. cbn. rewrite (Hfg x) by constructor.
  rewrite IH by (intros y Hy; apply Hfg; by constructor). by destruct (f x).
Qed.

Lemma omap_filter_in {A B} (f g : A → option B) (p : A → bool) (q : B → bool) (l : list A) :
  (∀ x, x ∈ l → if p x then g x = f x ∧ (∀ y, f x = Some y → q y = true) else ∀ y, f x = Some y → q y = false) →
  omap g (List.filter p l) = List.filter q (omap f l).
Proof.
  induction l as [|x l IH]; intros Hfg; [done|]. cbn.
  pose proof (Hfg x ltac:(constructor)) as Hx. specialize (IH (λ y Hy, Hfg y (list_elem_of_further _ _ _ Hy))).
  destruct (p x); cbn.
  - destruct Hx as [-> Hq]. destruct (f x) as [y|] eqn:E; cbn; [|done]. rewrite (Hq y eq_refl). by rewrite IH.
  - destruct (f x) as [y|] eqn:E; cbn; [|done]. by rewrite (Hx y eq_refl).
Qed.

(** A change of one window, seen through its snapshot. *)
Lemma mirror_update s b id w w' (f : WindowSpec → WindowSpec) :
  model_inv s → mirrors s b → windows s !! id = Some w → f (window_spec w) = window_spec w' →
  mirrors (put_window s id w') (update_spec id f b).
Proof.
  intros Hs [Hb Hc] Hw Hf. split; [|done]. cbn. rewrite Hb. symmetry. apply omap_map_in. intros x Hx.
  unfold spec_of, put_window. cbn. destruct (decide (x = id)) as [->|Hne].
  - rewrite lookup_insert_eq, Hw. cbn. rewrite (mi_ids s Hs id w Hw), Z.eqb_refl. by rewrite Hf.
  - rewrite lookup_insert_ne by done. destruct (windows s !! x) as [v|] eqn:Hv; cbn; [|done].
    rewrite (mi_ids s Hs x v Hv). by rewrite (proj2 (Z.eqb_neq _ _) Hne).
Qed.

Lemma mirror_opened s b m :
  model_inv s → mirrors s b → windows s !! wo_window_id m = None →
  mirrors (mkModel (<[wo_window_id m := from_opened m]> (windows s)) (stack s ++ [wo_window_id m]) (cursor_visible s))
    (mkMirror (mr_windows b ++ [window_spec (from_opened m)]) (mr_cursor_visible b)).
Proof.
  intros Hs [Hb Hc] Hn. split; [|done]. cbn. rewrite omap_app. cbn. unfold spec_of at 2. cbn. rewrite lookup_insert_eq. cbn.
  f_equal. rewrite Hb. apply omap_ext_in. intros x Hx. unfold spec_of. cbn. rewrite lookup_insert_ne; [done|].
  intros <-. apply (mi_stack s Hs) in Hx. rewrite Hn in Hx. by destruct Hx.
Qed.

Lemma mirror_closed s b id :
  model_inv s → mirrors s b →
  mirrors (mkModel (delete id (windows s)) (List.filter (λ x, negb (x =? id)) (stack s)) (cursor_visible s))
    (mkMirror (List.filter (λ v, negb (sp_window_id v =? id)) (mr_windows b)) (mr_cursor_visible b)).
Proof.
  intros Hs [Hb Hc]. split; [|done]. cbn. rewrite Hb. symmetry. apply omap_filter_in. intros x Hx.
  destruct (Z.eqb_spec x id) as [->|Hne]; cbn.
  - intros v Hv. by rewrite (spec_of_id s id v Hs Hv), Z.eqb_refl.
  - split; [unfold spec_of; cbn; by rewrite lookup_delete_ne|]. intros v Hv.
    rewrite (spec_of_id s x v Hs Hv). by rewrite (proj2 (Z.eqb_neq _ _) Hne).
Qed.

Lemma find_spec_mirrors s b id : model_inv s → mirrors s b → id ∈ stack s → find_spec b id = spec_of s id.
Proof.
  intros Hs [Hb _]. unfold find_spec. rewrite Hb. clear Hb. induction (stack s) as [|x l IH]; intros Hin; [by apply elem_of_nil in Hin|].
  cbn. destruct (spec_of s x) as [v|] eqn:Hv; cbn.
  - rewrite (spec_of_id s x v Hs Hv). destruct (Z.eqb_spec x id) as [->|Hne]; [done|]. apply IH.
    by apply elem_of_cons in Hin as [->|].
  - apply elem_of_cons in Hin as [->|Hin]; [|by apply IH]. rewrite Hv. clear IH.
    induction l as [|y l IH]; [done|]. cbn. destruct (spec_of s y) as [u|] eqn:Hu; cbn; [|done].
    rewrite (spec_of_id s y u Hs Hu). destruct (Z.eqb_spec y x) as [->|]; [congruence|done].
Qed.

Lemma mirror_restack s b st :
  model_inv s → mirrors s b → (∀ id, id ∈ st → id ∈ stack s) →
  mirrors (mkModel (windows s) st (cursor_visible s)) (mkMirror (omap (find_spec b) st) (mr_cursor_visible b)).
Proof.
  intros Hs Hb Hst. split; [|apply Hb]. cbn. apply omap_ext_in. intros x Hx. rewrite (find_spec_mirrors s b x Hs Hb); [done|auto].
Qed.

(** ** The backend follows the model *)

(** The snapshot a command carries of a window that was just written. *)
Ltac see_window := cbn; unfold model_get; cbn; rewrite lookup_insert_eq; cbn.

Lemma step_mirrors s b e :
  model_inv s → mirrors s b →
  mirrors (commands_of s e).1 (feed b (commands_of s e).2).
Proof.
  intros Hs Hb. unfold commands_of.
  destruct e as [m|m|m|m|m|m|m|m|m|m|m|m|m]; cbn [apply]; try exact Hb.
  - unfold on_opened. destruct (windows s !! wo_window_id m) eqn:E; [done|]. see_window.
    by apply mirror_opened.
  - unfold on_geometry. destruct (windows s !! _) as [w|] eqn:E; [|done]. case_if; [done|]. see_window.
    rewrite (mi_ids s Hs _ w E). by eapply mirror_update.
  - unfold on_title. destruct (windows s !! _) as [w|] eqn:E; [|done]. case_if; [done|]. see_window.
    rewrite (mi_ids s Hs _ w E). by eapply mirror_update.
  - unfold on_state. destruct (windows s !! _) as [w|] eqn:E; [|done]. case_if; [done|]. see_window.
    rewrite (mi_ids s Hs _ w E). by eapply mirror_update.
  - pose proof (on_zorder_stack s (wz_window_id m) (wz_above_window_id m)) as Hz.
    unfold on_zorder in *. repeat case_match; try exact Hb; cbn in Hz |- *; apply mirror_restack; try done;
      intros j; by rewrite (proj1 (proj2 Hz)).
  - unfold on_icon. destruct (windows s !! _) as [w|] eqn:E; [|done]. see_window.
    rewrite (mi_ids s Hs _ w E). by eapply mirror_update.
  - unfold on_closed. destruct (windows s !! _) as [w|] eqn:E; [|done]. by apply mirror_closed.
  - split; [apply Hb|done].
Qed.

(** Every window of the stack is shown, under its identifier. *)
Lemma spec_of_ids s : model_inv s → map sp_window_id (omap (spec_of s) (stack s)) = stack s.
Proof.
  intros Hinv. assert (Hall : ∀ id, id ∈ stack s → is_Some (windows s !! id)) by (intros id; apply (mi_stack s Hinv)).
  induction (stack s) as [|x l IH]; [done|]. cbn. destruct (Hall x) as [w Hw]; [by constructor|].
  unfold spec_of at 1. rewrite Hw. cbn. rewrite (mi_ids s Hinv x w Hw). f_equal. apply IH.
  intros id Hid. apply Hall. by constructor.
Qed.

(** A relation of the model and a backend kept by every event is kept by all. *)
Lemma stream_follows {B} `{DisplayBackend B} (R : WindowModel → B → Prop) :
  (∀ s b e, model_inv s → R s b → R (commands_of s e).1 (feed b (commands_of s e).2)) →
  ∀ es s b, model_inv s → R s b → R (command_stream s es).1 (feed b (command_stream s es).2).
Proof.
  intros Hstep. induction es as [|e es IH]; intros s b Hs Hb; cbn; [done|].
  specialize (Hstep s b e Hs Hb). pose proof (apply_inv s e Hs) as Hinv. unfold commands_of in *.
  destruct (apply s e) as [s' changes]. cbn [fst snd] in *. specialize (IH s' _ Hinv Hstep).
  destruct (command_stream s' es) as [s'' cs]. cbn [fst snd] in *. by rewrite feed_app.
Qed.

(** A backend that sees only the commands sent across the thread, each with
    a snapshot of one window, holds after any sequence of events of the agent
    exactly the windows of the client's model: the same ones, in the stacking
    order, each with its current title, geometry, state and icon, and the same
    cursor visibility. *)
Theorem commands_carry_model (es : list ClientEvent.t) :
  let '(s, cs) := command_stream WindowModel_new es in
  let b := feed (mkMirror [] true) cs in
  mr_windows b = omap (spec_of s) (stack s) ∧ mr_cursor_visible b = cursor_visible s ∧
  map sp_window_id (mr_windows b) = stack s.
Proof.
  pose proof (stream_follows mirrors step_mirrors es WindowModel_new (mkMirror [] true) model_inv_new (conj eq_refl eq_refl))
    as [Hw Hc].
  pose proof (stream_follows (λ s (_ : Mirror), model_inv s)) as Hinv.
  specialize (Hinv (λ s b e Hs _, ltac:(unfold commands_of; pose proof (apply_inv s e Hs); by destruct (apply s e)))
    es WindowModel_new (mkMirror [] true) model_inv_new model_inv_new). cbn in Hinv.
  destruct (command_stream WindowModel_new es) as [s cs]. cbn [fst snd] in *. cbv zeta. split_and!; [done..|]. rewrite Hw.
  by apply spec_of_ids.
Qed.

(** ** The headless backend agrees *)

Lemma record_call_windows b c : hb_windows (record_call b c).1 = hb_windows b.
Proof. done. Qed.

Lemma step_headless s (b : HeadlessBackend) e :
  model_inv s → hb_windows b = dom (windows s) →
  hb_windows (feed b (commands_of s e).2) = dom (windows (commands_of s e).1).
Proof.
  intros Hs Hb. unfold commands_of.
  destruct e as [m|m|m|m|m|m|m|m|m|m|m|m|m]; cbn [apply]; try exact Hb.
  - unfold on_opened. destruct (windows s !! wo_window_id m) eqn:E; [done|]. see_window.
    by rewrite dom_insert_L, Hb.
  - unfold on_geometry. destruct (windows s !! _) as [w|] eqn:E; [|done]. case_if; [done|]. see_window.
    rewrite dom_insert_lookup_L; [done|by eexists].
  - unfold on_title. destruct (windows s !! _) as [w|] eqn:E; [|done]. case_if; [done|]. see_window.
    rewrite dom_insert_lookup_L; [done|by eexists].
  - unfold on_state. destruct (windows s !! _) as [w|] eqn:E; [|done]. case_if; [done|]. see_window.
    rewrite dom_insert_lookup_L; [done|by eexists].
  - unfold on_zorder. repeat case_match; simplify_eq; exact Hb.
  - unfold on_icon. destruct (windows s !! _) as [w|] eqn:E; [|done]. see_window.
    rewrite dom_insert_lookup_L; [done|by eexists].
  - unfold on_closed. destruct (windows s !! _) as [w|] eqn:E; [|done]. cbn. by rewrite dom_delete_L, Hb.
Qed.

(** The headless backend knows the model's windows, so a frame is recorded
    when and only when its window is in the model. *)
Theorem headless_knows_windows (es : list ClientEvent.t) (f : FrameData) :
  let '(s, cs) := command_stream WindowModel_new es in
  let b := feed HeadlessBackend_new cs in
  hb_windows b = dom (windows s) ∧
  (frame b f).2 = Ok (if bool_decide (is_Some (windows s !! fd_window_id f)) then Some (mkTimes 0 0) else None).
Proof.
  pose proof (stream_follows (λ s b, hb_windows b = dom (windows s)) (λ s b e Hs Hb, step_headless s b e Hs Hb)
    es WindowModel_new HeadlessBackend_new model_inv_new) as Hw. specialize (Hw ltac:(cbn; by rewrite dom_empty_L)); cbv beta in Hw.
  destruct (command_stream WindowModel_new es) as [s cs]. cbn [fst snd] in *. cbv zeta. split; [done|].
  cbn [frame HeadlessBackend_display]. rewrite Hw. case_bool_decide as Hin; case_bool_decide as Hs; try done; exfalso; [apply Hs|apply Hin]; by apply elem_of_dom.
Qed.
