(* ===== verification/Winit.v ===== *)
(** * The native window backend

    [crates/oxdisplay/src/winit_backend.rs]: native windows driven by display
    commands, and the window system's events translated for the session. The
    window system is a class ([winit] and the X11 connection beside it); what
    the backend asks of it is written to a log, in order, together with the
    surfaces the presenter takes and gives up, because the unsafe code of the
    presenter rests on that order. The set of keys already warned about only
    decides what is logged and is left out. *)

From Stdlib Require Import Floats.SpecFloat.
From S2P Require Import Prelude Cursor Wire MsgType MsgControl MsgInput MsgWindow Model Scancode Keys Presenter Display.

(** ** Numbers of the window system *)

(** [f32::round] and [f64::round]: to the nearest integer, halves away from
    zero. The result is an integer the format holds exactly. *)
Inductive rounded : Type := RNan | RInf (negative : bool) | RInt (z : Z).

Definition round_magnitude (m : positive) (e : Z) : Z :=
  if 0 <=? e then Z.pos m * 2 ^ e else (2 * Z.pos m + 2 ^ (- e)) / (2 * 2 ^ (- e)).

Definition sf_round (f : spec_float) : rounded :=
  match f with
  | S754_nan => RNan
  | S754_infinity s => RInf s
  | S754_zero _ => RInt 0
  | S754_finite s m e => RInt (if s then - round_magnitude m e else round_magnitude m e)
  end.

(** Comparisons against a bound, then [as], which takes a NaN to 0. *)
Definition clamp_rounded (w : Z) (r : rounded) : Z :=
  match r with
  | RNan => 0
  | RInf s => if s then - 2 ^ (w - 1) else 2 ^ (w - 1) - 1
  | RInt z => if 2 ^ (w - 1) - 1 <? z then 2 ^ (w - 1) - 1 else if z <? - 2 ^ (w - 1) then - 2 ^ (w - 1) else z
  end.

Definition f32_of (x : Z) : spec_float := binary_normalize 24 128 x 0 false.
Definition f64_to_f32 (f : spec_float) : spec_float :=
  match f with S754_finite s m e => binary_round 24 128 s m e | _ => f end.

Definition wheel_units (lines : spec_float) : Z := clamp_rounded 16 (sf_round (SFmul 24 128 lines (f32_of 120))).

Inductive MouseScrollDelta : Type := LineDelta (x y : spec_float) | PixelDelta (x y : spec_float).

Definition wheel_delta (d : MouseScrollDelta) : Z * Z :=
  match d with
  | LineDelta x y => (wheel_units x, wheel_units y)
  | PixelDelta x y =>
    (wheel_units (SFdiv 24 128 (f64_to_f32 x) (f32_of 120)), wheel_units (SFdiv 24 128 (f64_to_f32 y) (f32_of 120)))
  end.

(** The bounds are compared with the value before it is rounded: a value
    above [i32::MAX] is also rounded above it. *)
Definition f64_below (b : Z) (f : spec_float) : bool := SFltb f (binary_normalize 53 1024 b 0 false).
Definition f64_above (b : Z) (f : spec_float) : bool := SFltb (binary_normalize 53 1024 b 0 false) f.

Definition clamp_f64_to_i32 (value : spec_float) : Z :=
  if f64_above (2 ^ 31 - 1) value then 2 ^ 31 - 1
  else if f64_below (- 2 ^ 31) value then - 2 ^ 31
  else clamp_rounded 32 (sf_round value).

(** ** Icons and cursors *)

Definition unpremul (channel alpha : Z) : outcome DisplayError Z :=
  if alpha =? 0 then Ok 0
  else if negb (channel * 255 <? 2 ^ 16) then Panic
  else let value := Z.min (channel * 255 / alpha) 255 in if value <? 256 then Ok value else Panic.

(** [data.chunks_exact(4)] with a pixel's four bytes rewritten. *)
Fixpoint map_pixels (f : Z → Z → Z → Z → outcome DisplayError (list Z)) (data : list Z) : outcome DisplayError (list Z) :=
  match data with
  | b :: g :: r :: a :: data => px ← f b g r a; rest ← map_pixels f data; Ok (px ++ rest)
  | _ => Ok []
  end.

Definition checked_pixels (f : Z → Z → Z → Z → outcome DisplayError (list Z)) (data : list Z) (width height : Z) :
    outcome DisplayError (option (list Z)) :=
  match frame_len width height with
  | None => Ok None
  | Some expected => if negb (len data =? expected) then Ok None else (out ← map_pixels f data; Ok (Some out))
  end.

Definition bgra_to_rgba (data : list Z) (width height : Z) : outcome DisplayError (option (list Z)) :=
  checked_pixels (λ b g r a, Ok [r; g; b; a]) data width height.

Definition bgra_premul_to_rgba (data : list Z) (width height : Z) : outcome DisplayError (option (list Z)) :=
  checked_pixels (λ b g r a, b ← unpremul b a; g ← unpremul g a; r ← unpremul r a; Ok [r; g; b; a]) data width height.

(** ** Geometry echoes *)

Record Geometry : Type := mkGeom { ge_x : Z; ge_y : Z; ge_width : Z; ge_height : Z }.

#[export] Instance Geometry_eq_dec : EqDecision Geometry.
Proof. solve_decision. Defined.

Definition Geometry_from (w : WindowSpec) : Geometry := mkGeom (sp_x w) (sp_y w) (sp_width w) (sp_height w).

(** Instants are in milliseconds. *)
Definition GEOMETRY_ECHO_DEADLINE : Z := 750.

Record PendingGeometry : Type := mkPending { pg_geometry : Geometry; pg_expires_at : Z }.
Record GeometryEchoLedger : Type := mkLedger { gl_entries : gmap Z PendingGeometry; gl_ttl : Z }.

Definition GeometryEchoLedger_new (ttl : Z) : GeometryEchoLedger := mkLedger ∅ ttl.

Definition ledger_record (l : GeometryEchoLedger) (now window_id : Z) (g : Geometry) : GeometryEchoLedger :=
  mkLedger (<[window_id := mkPending g (now + gl_ttl l)]> (gl_entries l)) (gl_ttl l).

Definition take_if_echo (l : GeometryEchoLedger) (now window_id : Z) (g : Geometry) : GeometryEchoLedger * bool :=
  match gl_entries l !! window_id with
  | None => (l, false)
  | Some pending =>
    let l' := mkLedger (delete window_id (gl_entries l)) (gl_ttl l) in
    if pg_expires_at pending <? now then (l', false) else (l', bool_decide (pg_geometry pending = g))
  end.

(** ** The window system *)

Record WindowAttributes : Type := mkAttributes {
  at_title : list Z; at_decorations : bool; at_inner_size : Z * Z; at_resizable : bool; at_maximized : bool;
  at_topmost : bool; at_name : list Z; at_position : option (Z * Z)
}.

(** A native window as it was created: its id, size and, on X11, its number. *)
Record NativeWindow : Type := mkNative { nw_id : Z; nw_inner_size : Z * Z; nw_xid : option Z }.

Class WindowSystem (E : Type) : Type := {
  ws_is_x11 : E → bool;
  ws_now : E → E * Z;
  ws_create_window : E → WindowAttributes → E * outcome DisplayError NativeWindow;
  (** [Icon::from_rgba], and [CustomCursor::from_rgba] with
      [create_custom_cursor]. *)
  ws_icon : list Z → Z → Z → bool;
  ws_create_cursor : E → list Z → Z → Z → Z → Z → E * option Z;
  (** The ids given to windows so far. *)
  ws_ids : E → gset Z
}.

(** An id is given once. *)
Class WindowSystemLaws (E : Type) `{WindowSystem E} : Prop := {
  ws_now_ids e : ws_ids (ws_now e).1 = ws_ids e;
  ws_cursor_ids e rgba w h x y : ws_ids (ws_create_cursor e rgba w h x y).1 = ws_ids e;
  ws_create_fresh e a e' n : ws_create_window e a = (e', Ok n) → (nw_id n ∉ ws_ids e) ∧ ws_ids e' = {[nw_id n]} ∪ ws_ids e;
  ws_create_failed e a e' x : ws_create_window e a = (e', Err x) → ws_ids e' = ws_ids e;
  ws_create_total e a : (ws_create_window e a).2 ≠ Panic
}.

(** [trait Presenter]. *)
Class PresenterOps (P : Type) : Type := {
  pr_attach : P → Z → NativeWindow → Z → Z → P * outcome PresentError unit;
  pr_resize : P → Z → Z → Z → P * outcome PresentError unit;
  pr_present : P → Z → FrameData → P * outcome PresentError PresentTimes;
  pr_refresh : P → Z → P * outcome PresentError unit;
  pr_detach : P → Z → P
}.

(** What the backend asks for, by native id; and the life of the surfaces. *)
Inductive effect : Type :=
| Opened (native : Z)
| Attached (id native : Z)
| Detached (id : Z)
| Closed (native : Z)
| SetCursorVisible (native : Z) (visible : bool)
| SetMinimized (native : Z) (minimized : bool)
| SetMaximized (native : Z) (maximized : bool)
| SetLevel (native : Z) (topmost : bool)
| RequestInnerSize (native width height : Z)
| SetOuterPosition (native x y : Z)
| SetTitle (native : Z) (title : list Z)
| SetIcon (native : Z) (rgba : list Z) (width height : Z)
| SetCursor (native cursor : Z)
| TransientFor (child owner : Z)
| Exit.

Record WinitWindow : Type := mkWinitWindow { wn_native : Z; wn_xid : option Z; wn_owner_id : Z; wn_geometry : Geometry }.

Section Backend.
Context {P E : Type} `{PresenterOps P} `{WindowSystem E}.

Record WinitBackend : Type := mkBackend {
  b_env : E;
  b_presenter : P;
  b_events : list DisplayEvent.t;
  b_log : list effect;
  b_windows : gmap Z WinitWindow;
  b_by_winit_id : gmap Z Z;
  b_cursor_cache : gmap Z Z;
  b_cursor_visible : bool;
  b_pointer_buttons : Z;
  b_pointer_position : gmap Z (Z * Z);
  b_echoes : GeometryEchoLedger
}.

Definition WinitBackend_new (e : E) (p : P) : WinitBackend :=
  mkBackend e p [] [] ∅ ∅ ∅ true 0 ∅ (GeometryEchoLedger_new GEOMETRY_ECHO_DEADLINE).

Implicit Types b : WinitBackend.

Definition set_env e b := mkBackend e (b_presenter b) (b_events b) (b_log b) (b_windows b) (b_by_winit_id b)
  (b_cursor_cache b) (b_cursor_visible b) (b_pointer_buttons b) (b_pointer_position b) (b_echoes b).
Definition set_presenter p b := mkBackend (b_env b) p (b_events b) (b_log b) (b_windows b) (b_by_winit_id b)
  (b_cursor_cache b) (b_cursor_visible b) (b_pointer_buttons b) (b_pointer_position b) (b_echoes b).
(** [events.send], whose failure is ignored. *)
Definition emit e b := mkBackend (b_env b) (b_presenter b) (b_events b ++ [e]) (b_log b) (b_windows b) (b_by_winit_id b)
  (b_cursor_cache b) (b_cursor_visible b) (b_pointer_buttons b) (b_pointer_position b) (b_echoes b).
Definition ask es b := mkBackend (b_env b) (b_presenter b) (b_events b) (b_log b ++ es) (b_windows b) (b_by_winit_id b)
  (b_cursor_cache b) (b_cursor_visible b) (b_pointer_buttons b) (b_pointer_position b) (b_echoes b).
Definition set_tables ws ids b := mkBackend (b_env b) (b_presenter b) (b_events b) (b_log b) ws ids
  (b_cursor_cache b) (b_cursor_visible b) (b_pointer_buttons b) (b_pointer_position b) (b_echoes b).
Definition set_cursor cache visible b := mkBackend (b_env b) (b_presenter b) (b_events b) (b_log b) (b_windows b)
  (b_by_winit_id b) cache visible (b_pointer_buttons b) (b_pointer_position b) (b_echoes b).
Definition set_pointer buttons positions b := mkBackend (b_env b) (b_presenter b) (b_events b) (b_log b) (b_windows b)
  (b_by_winit_id b) (b_cursor_cache b) (b_cursor_visible b) buttons positions (b_echoes b).
Definition set_echoes l b := mkBackend (b_env b) (b_presenter b) (b_events b) (b_log b) (b_windows b) (b_by_winit_id b)
  (b_cursor_cache b) (b_cursor_visible b) (b_pointer_buttons b) (b_pointer_position b) l.

Definition put_geometry (id : Z) (w : WinitWindow) (g : Geometry) b :=
  set_tables (<[id := mkWinitWindow (wn_native w) (wn_xid w) (wn_owner_id w) g]> (b_windows b)) (b_by_winit_id b) b.

(** The native windows, for a call on each of them. *)
Definition natives b : list Z := map (λ w, wn_native w.2) (map_to_list (b_windows b)).

Definition now b : WinitBackend * Z := let '(e, t) := ws_now (b_env b) in (set_env e b, t).

(** ** Commands *)

Definition apply_transient_for (id : Z) b : WinitBackend :=
  match b_windows b !! id with
  | None => b
  | Some entry =>
    if wn_owner_id entry =? 0 then b
    else match wn_xid entry, b_windows b !! wn_owner_id entry ≫= wn_xid with
         | Some child, Some owner => ask [TransientFor child owner] b
         | _, _ => b
         end
  end.

Definition attributes (remote : WindowSpec) (x11 : bool) : WindowAttributes :=
  mkAttributes (sp_title remote) (sp_has_frame remote) (sp_width remote, sp_height remote) (sp_resizable remote)
    (sp_maximized remote) (sp_topmost remote) (sp_app_id remote) (if x11 then Some (sp_x remote, sp_y remote) else None).

(** A window that cannot be attached is dropped, and with it the native one. *)
Definition w_create (b : WinitBackend) (remote : WindowSpec) : WinitBackend * display_result unit :=
  let id := sp_window_id remote in
  match b_windows b !! id with
  | Some _ => (b, Ok ())
  | None =>
    match ws_create_window (b_env b) (attributes remote (ws_is_x11 (b_env b))) with
    | (e, Err x) => (set_env e b, Err x)
    | (e, Panic) => (set_env e b, Panic)
    | (e, Ok n) =>
      let b := ask ([Opened (nw_id n); SetCursorVisible (nw_id n) (b_cursor_visible b)] ++
                    (if sp_minimized remote then [SetMinimized (nw_id n) true] else [])) (set_env e b) in
      match pr_attach (b_presenter b) id n (nw_inner_size n).1 (nw_inner_size n).2 with
      | (p, Err x) => (ask [Closed (nw_id n)] (set_presenter p b), Err (present_error_text x))
      | (p, Panic) => (ask [Closed (nw_id n)] (set_presenter p b), Panic)
      | (p, Ok _) =>
        let b := ask [Attached id (nw_id n)] (set_presenter p b) in
        let b := set_tables (<[id := mkWinitWindow (nw_id n) (nw_xid n) (sp_owner_id remote) (Geometry_from remote)]> (b_windows b))
                            (<[nw_id n := id]> (b_by_winit_id b)) b in
        (apply_transient_for id b, Ok ())
      end
    end
  end.

Definition w_destroy (b : WinitBackend) (id : Z) : WinitBackend * display_result unit :=
  let b := ask [Detached id] (set_presenter (pr_detach (b_presenter b) id) b) in
  match b_windows b !! id with
  | None => (b, Ok ())
  | Some entry =>
    (ask [Closed (wn_native entry)]
       (set_tables (delete id (b_windows b)) (delete (wn_native entry) (b_by_winit_id b)) b), Ok ())
  end.

Definition w_move (b : WinitBackend) (remote : WindowSpec) : WinitBackend * display_result unit :=
  let id := sp_window_id remote in
  let geometry := Geometry_from remote in
  let '(b, t) := now b in
  let '(l, echo) := take_if_echo (b_echoes b) t id geometry in
  let b := set_echoes l b in
  if echo then (b, Ok ())
  else
    match b_windows b !! id with
    | None => (b, Ok ())
    | Some entry =>
      let b := ask [RequestInnerSize (wn_native entry) (sp_width remote) (sp_height remote)] b in
      match pr_resize (b_presenter b) id (sp_width remote) (sp_height remote) with
      | (p, Err x) => (set_presenter p b, Err (present_error_text x))
      | (p, Panic) => (set_presenter p b, Panic)
      | (p, Ok _) =>
        let b := set_presenter p b in
        let b := if ws_is_x11 (b_env b) then ask [SetOuterPosition (wn_native entry) (sp_x remote) (sp_y remote)] b else b in
        (put_geometry id entry geometry b, Ok ())
      end
    end.

(** A call on a window's native one, when there is such a window. *)
Definition on_native (b : WinitBackend) (id : Z) (calls : Z → list effect) : WinitBackend * display_result unit :=
  match b_windows b !! id with Some entry => (ask (calls (wn_native entry)) b, Ok ()) | None => (b, Ok ()) end.

Definition w_retitle (b : WinitBackend) (remote : WindowSpec) :=
  on_native b (sp_window_id remote) (λ n, [SetTitle n (sp_title remote)]).

Definition w_state (b : WinitBackend) (remote : WindowSpec) :=
  on_native b (sp_window_id remote)
    (λ n, [SetMinimized n (sp_minimized remote); SetMaximized n (sp_maximized remote); SetLevel n (sp_topmost remote)]).

Definition w_icon (b : WinitBackend) (remote : WindowSpec) : WinitBackend * display_result unit :=
  if negb (ws_is_x11 (b_env b)) then (b, Ok ())
  else
    match sp_icon remote with
    | None => (b, Ok ())
    | Some icon =>
      match b_windows b !! sp_window_id remote with
      | None => (b, Ok ())
      | Some entry =>
        match bgra_to_rgba (wi_bgra icon) (wi_width icon) (wi_height icon) with
        | Ok (Some rgba) =>
          if ws_icon (E:=E) rgba (wi_width icon) (wi_height icon)
          then (ask [SetIcon (wn_native entry) rgba (wi_width icon) (wi_height icon)] b, Ok ())
          else (b, Ok ())
        | Panic => (b, Panic)
        | _ => (b, Ok ())
        end
      end
    end.

Definition w_frame (b : WinitBackend) (f : FrameData) : WinitBackend * display_result (option PresentTimes) :=
  match b_windows b !! fd_window_id f with
  | None => (b, Ok None)
  | Some _ =>
    match pr_present (b_presenter b) (fd_window_id f) f with
    | (p, Ok times) =>
      (emit (DisplayEvent.Presented (fd_window_id f) (fd_frame_id f) (pt_decoded_us times) (pt_presented_us times))
         (set_presenter p b), Ok (Some times))
    | (p, Err (DroppedFrame _ _ _)) => (set_presenter p b, Ok None)
    | (p, Err x) => (set_presenter p b, Err (present_error_text x))
    | (p, Panic) => (set_presenter p b, Panic)
    end
  end.

Definition w_cursor_shape (b : WinitBackend) (shape : CursorShape) : WinitBackend * display_result unit :=
  match b_cursor_cache b !! cs_cursor_id shape with
  | Some cursor => (ask (map (λ n, SetCursor n cursor) (natives b)) b, Ok ())
  | None =>
    if negb (cs_format shape =? cursor_format.BGRA_PREMUL) then (b, Ok ())
    else
      match bgra_premul_to_rgba (cs_data shape) (cs_width shape) (cs_height shape) with
      | Ok (Some rgba) =>
        match ws_create_cursor (b_env b) rgba (cs_width shape) (cs_height shape) (cs_hotspot_x shape) (cs_hotspot_y shape) with
        | (e, None) => (set_env e b, Ok ())
        | (e, Some cursor) =>
          let b := ask (map (λ n, SetCursor n cursor) (natives b)) (set_env e b) in
          (set_cursor (<[cs_cursor_id shape := cursor]> (b_cursor_cache b)) (b_cursor_visible b) b, Ok ())
        end
      | Panic => (b, Panic)
      | _ => (b, Ok ())
      end
  end.

Definition w_cursor_visibility (b : WinitBackend) (visible : bool) : WinitBackend * display_result unit :=
  let b := set_cursor (b_cursor_cache b) visible b in
  (ask (map (λ n, SetCursorVisible n visible) (natives b)) b, Ok ()).

Definition agent_error_text (code : Z) (message : list Z) : list Z :=
  bytes_of_string "agent error " ++ decimal code ++ bytes_of_string ": " ++ message.

#[export] Instance WinitBackend_display : DisplayBackend WinitBackend := {
  create_window := w_create;
  destroy_window := w_destroy;
  move_window := w_move;
  retitle_window := w_retitle;
  change_state := w_state;
  change_icon := w_icon;
  restack b _ := (b, Ok ());
  frame := w_frame;
  cursor_shape := w_cursor_shape;
  cursor_moved b _ _ _ := (b, Ok ());
  cursor_visibility := w_cursor_visibility;
  agent_error b code message := (emit (DisplayEvent.BackendError (agent_error_text code message)) b, Ok ());
  closed b := (ask [Exit] b, Ok ())
}.

(** ** Events of the window system *)

Inductive WindowEvent : Type :=
| WCloseRequested
| WResized (width height : Z)
| WMoved (x y : Z)
| WFocused (focused : bool)
(** A key that winit itself cannot name has no code. *)
| WKeyboardInput (code : option KeyCode.t) (state : ElementState)
| WModifiersChanged (state : ModifiersState)
| WCursorMoved (x y : spec_float)
| WMouseInput (state : ElementState) (button : MouseButton.t)
| WMouseWheel (delta : MouseScrollDelta)
| WImeCommit (text : list Z)
| WRedrawRequested
| WOther.

(** [u16::try_from(..).unwrap_or(u16::MAX)] of a [u32]. *)
Definition u16_or_max (v : Z) : Z := default (2 ^ 16 - 1) (try_from_uint 16 v).

(** The result of a call whose [Result] is dropped. *)
Definition ignore {A} (r : outcome PresentError A) : display_result unit := match r with Panic => Panic | _ => Ok () end.

Definition record_geometry (id : Z) (f : Geometry → Geometry) b : WinitBackend :=
  match b_windows b !! id with
  | None => b
  | Some entry =>
    let g := f (wn_geometry entry) in
    let '(b, t) := now (put_geometry id entry g b) in
    set_echoes (ledger_record (b_echoes b) t id g) b
  end.

Definition pointer_at (id : Z) b : Z * Z := default (0, 0) (b_pointer_position b !! id).

Definition handle_window_event (native : Z) (event : WindowEvent) b : WinitBackend * display_result unit :=
  match b_by_winit_id b !! native with
  | None => (b, Ok ())
  | Some id =>
    match event with
    | WCloseRequested => (emit (DisplayEvent.CloseRequested id) b, Ok ())
    | WResized width height =>
      let width := u16_or_max width in
      let height := u16_or_max height in
      let '(p, r) := pr_resize (b_presenter b) id width height in
      let b := record_geometry id (λ g, mkGeom (ge_x g) (ge_y g) width height) (set_presenter p b) in
      (emit (DisplayEvent.ResizeRequested id width height) b, ignore r)
    | WMoved x y =>
      if ws_is_x11 (b_env b) then
        let b := record_geometry id (λ g, mkGeom x y (ge_width g) (ge_height g)) b in
        (emit (DisplayEvent.MoveRequested id x y) b, Ok ())
      else (b, Ok ())
    | WFocused focused =>
      (emit (DisplayEvent.Modifiers 0 locks) (emit (DisplayEvent.Focused id focused) b), Ok ())
    | WKeyboardInput code state =>
      match code ≫= keycode_to_scancode with
      | Some s => (emit (DisplayEvent.Key (Scancode.code s) (state_is_pressed state) (extended s)) b, Ok ())
      | None => (b, Ok ())
      end
    | WModifiersChanged state => (emit (DisplayEvent.Modifiers (modifiers state) locks) b, Ok ())
    | WCursorMoved x y =>
      let x := clamp_f64_to_i32 x in
      let y := clamp_f64_to_i32 y in
      let b := set_pointer (b_pointer_buttons b) (<[id := (x, y)]> (b_pointer_position b)) b in
      (emit (DisplayEvent.Pointer id x y (b_pointer_buttons b) 0 0) b, Ok ())
    | WMouseInput state button =>
      let b := set_pointer (update_buttons (b_pointer_buttons b) button state) (b_pointer_position b) b in
      let '(x, y) := pointer_at id b in
      (emit (DisplayEvent.Pointer id x y (b_pointer_buttons b) 0 0) b, Ok ())
    | WMouseWheel delta =>
      let '(wheel_x, wheel_y) := wheel_delta delta in
      let '(x, y) := pointer_at id b in
      (emit (DisplayEvent.Pointer id x y (b_pointer_buttons b) wheel_x wheel_y) b, Ok ())
    | WImeCommit text => (emit (DisplayEvent.Text text) b, Ok ())
    | WRedrawRequested => let '(p, r) := pr_refresh (b_presenter b) id in (set_presenter p b, ignore r)
    | WOther => (b, Ok ())
    end
  end.

(** [DisplayApp]: a command from the session, or an event. *)
Inductive app_event : Type :=
| AppCommand (command : DisplayCommand.t)
| AppWindow (native : Z) (event : WindowEvent).

Definition user_event (command : DisplayCommand.t) b : WinitBackend * display_result unit :=
  match command with
  | DisplayCommand.Shutdown => (ask [Exit] b, Ok ())
  | _ =>
    match apply_display_command b command with
    | (b, Err message) => (emit (DisplayEvent.BackendError message) b, Ok ())
    | r => r
    end
  end.

Definition app_step (e : app_event) b : WinitBackend * display_result unit :=
  match e with AppCommand command => user_event command b | AppWindow native event => handle_window_event native event b end.

Definition app_run (es : list app_event) b : WinitBackend := fold_left (λ b e, (app_step e b).1) es b.

(** Dropping the backend: the presenter is its first field, so the surfaces go
    before the windows. *)
Definition app_drop b : WinitBackend :=
  ask (map Closed (natives b)) (ask (map Detached (elements (dom (b_windows b)))) b).
End Backend.
