(* ===== verification/WinitLife.v ===== *)
(** * Surfaces live inside windows

    Theorems on [Winit]. The presenter keeps raw handles of native windows and
    its unsafe code says that the backend drops a surface before the window under
    it: the log of a run is replayed against a state of open windows and
    surfaces that is stuck when that fails. With it go the two tables of the
    backend, which stay inverse to each other. *)

From Stdlib Require Import Floats.SpecFloat.
From S2P Require Import Prelude Cursor Wire MsgType MsgControl MsgInput MsgWindow Model Scancode Keys Presenter Display Winit.

(** ** Specification: what may be asked, in what order *)

Record live : Type := mkLive { li_open : gset Z; li_surface : gmap Z Z }.

(** The open window a plain call is made on. *)
Definition called_on (e : effect) : option Z :=
  match e with
  | SetCursorVisible n _ | SetMinimized n _ | SetMaximized n _ | SetLevel n _ | RequestInnerSize n _ _
  | SetOuterPosition n _ _ | SetTitle n _ | SetIcon n _ _ _ | SetCursor n _ => Some n
  | _ => None
  end.

Definition allowed (l : live) (e : effect) : option live :=
  match e with
  | Opened n => if bool_decide (n ∈ li_open l) then None else Some (mkLive ({[n]} ∪ li_open l) (li_surface l))
  | Attached id n =>
    if bool_decide (n ∈ li_open l) && bool_decide (li_surface l !! id = None)
    then Some (mkLive (li_open l) (<[id := n]> (li_surface l))) else None
  | Detached id => Some (mkLive (li_open l) (delete id (li_surface l)))
  | Closed n =>
    if bool_decide (n ∈ li_open l) && bool_decide (map_Forall (λ _ m, m ≠ n) (li_surface l))
    then Some (mkLive (li_open l ∖ {[n]}) (li_surface l)) else None
  | TransientFor _ _ | Exit => Some l
  | _ => match called_on e with
         | Some n => if bool_decide (n ∈ li_open l) then Some l else None
         | None => Some l
         end
  end.

Fixpoint replay (l : live) (es : list effect) : option live :=
  match es with
  | [] => Some l
  | e :: es => l ← allowed l e; replay l es
  end.

Lemma replay_app l es es' : replay l (es ++ es') = replay l es ≫= λ l, replay l es'.
Proof. revert l. induction es as [|e es IH]; intros l; cbn; [done|]. destruct (allowed l e); cbn; auto. Qed.

(** Calls on open windows are allowed and change nothing. *)
Lemma replay_calls l es :
  Forall (λ e, (∃ n, called_on e = Some n ∧ n ∈ li_open l) ∨ e = Exit ∨ ∃ c o, e = TransientFor c o) es → replay l es = Some l.
Proof.
  induction es as [|e es IH]; intros Hes; cbn; [done|]. apply Forall_cons in Hes as [He Hes].
  assert (Ha : allowed l e = Some l).
  { destruct He as [(n & Hn & Hin)|[->|(c & o & ->)]]; [|done..].
    destruct e; cbn in Hn |- *; simplify_eq; by rewrite bool_decide_eq_true_2. }
  rewrite Ha. by apply IH.
Qed.

Section Life.
Context {P E : Type} `{PresenterOps P} `{WindowSystemLaws E}.
Implicit Types b : WinitBackend (P:=P) (E:=E).

Definition surfaces b : gmap Z Z := wn_native <$> b_windows b.

Record backend_inv b : Prop := {
  bi_log : ∃ l, replay (mkLive ∅ ∅) (b_log b) = Some l ∧ li_surface l = surfaces b ∧
                (∀ n, n ∈ li_open l ↔ ∃ id, surfaces b !! id = Some n);
  bi_tables : ∀ n id, b_by_winit_id b !! n = Some id ↔ surfaces b !! id = Some n;
  bi_ids : ∀ id n, surfaces b !! id = Some n → n ∈ ws_ids (b_env b)
}.

Lemma backend_new_inv e p : backend_inv (WinitBackend_new e p).
Proof.
  split; unfold surfaces; cbn.
  - exists (mkLive ∅ ∅). split_and!; [done|by rewrite fmap_empty|]. intros n. split; [set_solver|].
    intros [id Hid]. by rewrite fmap_empty, lookup_empty in Hid.
  - intros n id. by rewrite fmap_empty, !lookup_empty.
  - intros id n. by rewrite fmap_empty, lookup_empty.
Qed.

(** What an operation that opens and closes nothing may change. *)
Definition steady b b' : Prop :=
  (∃ es, b_log b' = b_log b ++ es ∧
         Forall (λ e, (∃ n id, called_on e = Some n ∧ surfaces b !! id = Some n) ∨ e = Exit ∨ ∃ c o, e = TransientFor c o) es) ∧
  surfaces b' = surfaces b ∧ b_by_winit_id b' = b_by_winit_id b ∧ ws_ids (b_env b') = ws_ids (b_env b).

Lemma steady_inv b b' : backend_inv b → steady b b' → backend_inv b'.
Proof.
  intros [(l & Hl & Hs & Ho) Ht Hi] ((es & Hlog & Hes) & Hsurf & Hby & Hids). split; rewrite ?Hsurf, ?Hby, ?Hids; [|done..].
  exists l. rewrite Hlog, replay_app, Hl. cbn. split_and!; [|done..]. apply replay_calls.
  eapply Forall_impl; [exact Hes|]. intros e [(n & id & Hn & Hid)|He]; [|by right]. left. exists n. split; [done|].
  apply Ho. by exists id.
Qed.

Lemma steady_refl b b' :
  b_log b' = b_log b → b_windows b' = b_windows b → b_by_winit_id b' = b_by_winit_id b → ws_ids (b_env b') = ws_ids (b_env b) →
  steady b b'.
Proof.
  intros Hl Hw Hb Hi. split_and!; [|unfold surfaces; by rewrite Hw|done..]. exists []. rewrite app_nil_r. by split.
Qed.

Lemma steady_trans b1 b2 b3 : steady b1 b2 → steady b2 b3 → steady b1 b3.
Proof.
  intros ((e1 & L1 & F1) & S1 & B1 & I1) ((e2 & L2 & F2) & S2 & B2 & I2). split_and!; [|congruence..].
  exists (e1 ++ e2). rewrite L2, L1, app_assoc. split; [done|]. apply Forall_app. split; [done|]. by rewrite S1 in F2.
Qed.

Lemma steady_ask b es :
  Forall (λ e, (∃ n id, called_on e = Some n ∧ surfaces b !! id = Some n) ∨ e = Exit ∨ ∃ c o, e = TransientFor c o) es →
  steady b (ask es b).
Proof. intros Hes. split_and!; [|done..]. by exists es. Qed.

Lemma steady_now b : steady b (now b).1.
Proof.
  unfold now. pose proof (ws_now_ids (b_env b)). destruct (ws_now (b_env b)) as [e t]. by apply steady_refl.
Qed.

Lemma steady_put_geometry b id w g : b_windows b !! id = Some w → steady b (put_geometry id w g b).
Proof.
  intros Hw. split_and!; [exists []; by rewrite app_nil_r| |done..]. unfold surfaces, put_geometry. cbn.
  rewrite fmap_insert. cbn. apply insert_id. by rewrite lookup_fmap, Hw.
Qed.

Lemma native_surface b id w : b_windows b !! id = Some w → surfaces b !! id = Some (wn_native w).
Proof. intros Hw. unfold surfaces. by rewrite lookup_fmap, Hw. Qed.

Lemma calls_on_natives b (f : Z → effect) :
  (∀ n, called_on (f n) = Some n) →
  Forall (λ e, (∃ n id, called_on e = Some n ∧ surfaces b !! id = Some n) ∨ e = Exit ∨ ∃ c o, e = TransientFor c o)
    (map f (natives b)).
Proof.
  intros Hf. apply Forall_forall. intros e He. apply list_elem_of_fmap in He as (n & -> & Hn).
  apply list_elem_of_fmap in Hn as ([id w] & -> & Hin). apply elem_of_map_to_list in Hin.
  left. exists (wn_native w), id. split; [apply Hf|by apply native_surface].
Qed.

(** ** Each operation *)

Ltac one_call := apply steady_ask; repeat constructor; cbn; left; eauto using native_surface.

Lemma on_native_steady b id calls :
  (∀ n, Forall (λ e, called_on e = Some n) (calls n)) → steady b (on_native b id calls).1.
Proof.
  intros Hc. unfold on_native. destruct (b_windows b !! id) as [w|] eqn:Hw; cbn; [|by apply steady_refl].
  apply steady_ask. eapply Forall_impl; [apply Hc|]. intros e He. left. exists (wn_native w), id. split; [done|].
  by apply native_surface.
Qed.

Lemma apply_transient_steady b id : steady b (apply_transient_for id b).
Proof.
  unfold apply_transient_for. repeat case_match; try by apply steady_refl.
  apply steady_ask. apply Forall_singleton. right; right; eauto.
Qed.

(** What is asked of a window that is opened, with the state it leaves. *)
Definition opening (n : Z) (visible minimized : bool) : list effect :=
  [Opened n; SetCursorVisible n visible] ++ (if minimized then [SetMinimized n true] else []).

Definition with_open (n : Z) (l : live) : live := mkLive ({[n]} ∪ li_open l) (li_surface l).

Lemma opening_allowed l n visible minimized :
  n ∉ li_open l → replay l (opening n visible minimized) = Some (with_open n l).
Proof.
  intros Hn. unfold opening. rewrite replay_app. cbn [replay allowed called_on].
  rewrite bool_decide_eq_false_2 by done. cbn [mbind option_bind li_open].
  rewrite bool_decide_eq_true_2 by set_solver. cbn [mbind option_bind].
  destruct minimized; [|done]. cbn [replay allowed called_on li_open].
  by rewrite bool_decide_eq_true_2 by set_solver.
Qed.

Lemma closing_allowed l n :
  n ∉ li_open l → map_Forall (λ _ m, m ≠ n) (li_surface l) → replay (with_open n l) [Closed n] = Some l.
Proof.
  intros Hn Hs. cbn [replay allowed with_open li_open li_surface].
  rewrite !bool_decide_eq_true_2 by (done || set_solver). cbn. f_equal. destruct l as [o s]. f_equal. cbn in *. set_solver.
Qed.

Lemma attaching_allowed l id n :
  li_surface l !! id = None →
  replay (with_open n l) [Attached id n] = Some (mkLive ({[n]} ∪ li_open l) (<[id := n]> (li_surface l))).
Proof. intros Hid. cbn [replay allowed with_open li_open li_surface]. by rewrite !bool_decide_eq_true_2 by (done || set_solver). Qed.

(** A window under a native id that no other has. *)
Lemma opened_inv b b' e id n w :
  backend_inv b → surfaces b !! id = None → n ∉ ws_ids (b_env b) → ws_ids (b_env b') = {[n]} ∪ ws_ids (b_env b) → wn_native w = n →
  b_log b' = b_log b ++ opening n (b_cursor_visible b) e ++ [Attached id n] →
  b_windows b' = <[id := w]> (b_windows b) → b_by_winit_id b' = <[n := id]> (b_by_winit_id b) → backend_inv b'.
Proof.
  intros [(l & Hl & Hls & Ho) Ht Hi] Hs Hn He <- Hlog Hw Hby.
  assert (Hno : wn_native w ∉ li_open l) by (intros Hin; apply Ho in Hin as [j Hid]; by apply Hi in Hid).
  assert (Hsurf : surfaces b' = <[id := wn_native w]> (surfaces b)) by (unfold surfaces; by rewrite Hw, fmap_insert).
  split.
  - eexists. rewrite Hlog, replay_app, Hl. cbn [mbind option_bind]. rewrite replay_app, opening_allowed by done. cbn [mbind option_bind].
    rewrite attaching_allowed by (by rewrite Hls). split_and!; [done|cbn; by rewrite Hls, Hsurf|].
    intros m. cbn. rewrite elem_of_union, elem_of_singleton, Ho, Hsurf. split.
    + intros [->|[j Hj]]; [eexists; apply lookup_insert_eq|]. exists j. rewrite lookup_insert_ne; [done|congruence].
    + intros [j Hj]. apply lookup_insert_Some in Hj as [[_ ->]|[_ Hj]]; eauto.
  - intros m j. rewrite Hby, Hsurf, !lookup_insert_Some, Ht. split.
    + intros [[<- <-]|[Hne Hj]]; [by left|]. right. split; [congruence|done].
    + intros [[<- <-]|[Hne Hj]]; [by left|]. right. split; [|done]. intros <-. apply Hi in Hj. done.
  - intros j m. rewrite Hsurf, lookup_insert_Some, He. intros [[_ <-]|[_ Hj]]; apply elem_of_union; [left; by apply elem_of_singleton|].
    right. eauto.
Qed.

(** A native window that was opened and closed again leaves nothing. *)
Lemma reopened_inv b b' e n :
  backend_inv b → n ∉ ws_ids (b_env b) → ws_ids (b_env b') = {[n]} ∪ ws_ids (b_env b) →
  b_log b' = b_log b ++ opening n (b_cursor_visible b) e ++ [Closed n] →
  b_windows b' = b_windows b → b_by_winit_id b' = b_by_winit_id b → backend_inv b'.
Proof.
  intros [(l & Hl & Hls & Ho) Ht Hi] Hn He Hlog Hw Hby.
  assert (Hsurf : surfaces b' = surfaces b) by (unfold surfaces; by rewrite Hw).
  split; rewrite ?Hsurf, ?Hby; [|done|].
  - exists l. assert (n ∉ li_open l) by (intros Hin; apply Ho in Hin as [j Hid]; by apply Hi in Hid).
    rewrite Hlog, replay_app, Hl. cbn [mbind option_bind]. rewrite replay_app, opening_allowed by done. cbn [mbind option_bind].
    rewrite closing_allowed; [done..|]. rewrite Hls. intros j m Hj ->. by apply Hi in Hj.
  - intros j m Hj. rewrite He. apply elem_of_union. right. eauto.
Qed.

Lemma create_inv b remote : backend_inv b → backend_inv (w_create b remote).1.
Proof.
  intros Hb. unfold w_create. destruct (b_windows b !! sp_window_id remote) as [w|] eqn:Hw; [done|].
  set (a := attributes remote (ws_is_x11 (b_env b))).
  pose proof (ws_create_fresh (b_env b) a) as Hfresh. pose proof (ws_create_failed (b_env b) a) as Hfailed.
  pose proof (ws_create_total (b_env b) a) as Htotal.
  destruct (ws_create_window (b_env b) a) as [e [n|x|]];
    [|by (eapply steady_inv; [done|]; apply steady_refl; try done; by apply (Hfailed e x))|done].
  destruct (Hfresh e n eq_refl) as [Hn He]. cbn [set_env ask b_presenter b_cursor_visible].
  destruct (pr_attach (b_presenter b) (sp_window_id remote) n _ _) as [p [[]|x|]]; cbn [fst].
  - eapply steady_inv; [|apply apply_transient_steady].
    eapply (opened_inv b _ (sp_minimized remote) (sp_window_id remote) (nw_id n)
              (mkWinitWindow (nw_id n) (nw_xid n) (sp_owner_id remote) (Geometry_from remote))); try done.
    + unfold surfaces. by rewrite lookup_fmap, Hw.
    + symmetry. apply app_assoc.
  - eapply (reopened_inv b _ (sp_minimized remote) (nw_id n)); try done. symmetry. apply app_assoc.
  - eapply (reopened_inv b _ (sp_minimized remote) (nw_id n)); try done. symmetry. apply app_assoc.
Qed.

Lemma surface_injective b id id' n : backend_inv b → surfaces b !! id = Some n → surfaces b !! id' = Some n → id = id'.
Proof. intros [_ Ht _] Hone%Ht Htwo%Ht. congruence. Qed.

Lemma destroy_inv b id : backend_inv b → backend_inv (w_destroy b id).1.
Proof.
  intros Hb. unfold w_destroy. cbn [b_windows set_presenter ask].
  pose proof Hb as [(l & Hl & Hls & Ho) Ht Hi]. set (p := pr_detach (b_presenter b) id).
  destruct (b_windows b !! id) as [w|] eqn:Hw; cbn [fst].
  - pose proof (native_surface b id w Hw) as Hs.
    assert (Hs' : ∀ b', b_windows b' = delete id (b_windows b) → surfaces b' = delete id (surfaces b))
      by (intros b' E'; unfold surfaces; by rewrite E', fmap_delete).
    split; [|intros n j|intros j n]; erewrite Hs' by reflexivity.
    + exists (mkLive (li_open l ∖ {[wn_native w]}) (delete id (li_surface l))). split_and!.
      * cbn [ask set_tables set_presenter b_log]. rewrite <- app_assoc, replay_app, Hl. cbn [mbind option_bind app replay allowed li_open li_surface].
        rewrite !bool_decide_eq_true_2; [done| |apply Ho; eauto].
        rewrite Hls. intros j n Hj ->. apply lookup_delete_Some in Hj as [Hne Hj]. by apply Hne, (surface_injective b _ _ _ Hb Hs Hj).
      * cbn. by rewrite Hls.
      * intros n. cbn. rewrite elem_of_difference, elem_of_singleton, Ho. split.
        -- intros [[j Hj] Hne]. exists j. rewrite lookup_delete_ne; [done|]. intros <-. congruence.
        -- intros [j Hj]. apply lookup_delete_Some in Hj as [Hne Hj]. split; [eauto|]. intros ->.
           by apply Hne, (surface_injective b _ _ _ Hb Hs Hj).
    + cbn. rewrite !lookup_delete_Some, Ht. split; intros [Hne Hj]; (split; [|done]).
      * intros <-. congruence.
      * intros <-. by apply Hne, (surface_injective b _ _ _ Hb Hs Hj).
    + intros Hj. apply lookup_delete_Some in Hj as [_ Hj]. by apply Hi in Hj.
  - assert (Hs : surfaces b !! id = None) by (unfold surfaces; by rewrite lookup_fmap, Hw).
    split; [|done|done]. exists l. cbn. rewrite replay_app, Hl. cbn. rewrite <- Hls in Hs.
    rewrite delete_id by done. by destruct l.
Qed.

Lemma move_inv b remote : backend_inv b → backend_inv (w_move b remote).1.
Proof.
  intros Hb. unfold w_move. pose proof (steady_now b) as Hnow. destruct (now b) as [b1 t]. cbn [fst] in Hnow.
  destruct (take_if_echo (b_echoes b1) t (sp_window_id remote) (Geometry_from remote)) as [l echo].
  apply (steady_inv b); [done|]. eapply steady_trans; [exact Hnow|].
  eapply steady_trans; [apply (steady_refl b1 (set_echoes l b1)); done|].
  destruct echo; [by apply steady_refl|].
  destruct (b_windows (set_echoes l b1) !! sp_window_id remote) as [w|] eqn:Hw; [|by apply steady_refl].
  set (b2 := set_echoes l b1) in *. pose proof (native_surface b2 _ w Hw) as Hs.
  assert (Hcall : ∀ e b', called_on e = Some (wn_native w) → surfaces b' !! sp_window_id remote = Some (wn_native w) → steady b' (ask [e] b')).
  { intros e b' He Hs'. apply steady_ask. apply Forall_singleton. left. eauto. }
  set (b3 := ask _ b2). apply (steady_trans _ b3); [by apply Hcall|].
  destruct (pr_resize _ _ _ _) as [p [[]|x|]]; cbn [fst]; [|by apply steady_refl..].
  set (b4 := set_presenter p b3). apply (steady_trans _ b4); [by apply (steady_refl b3 b4)|].
  destruct (ws_is_x11 (b_env b4)); [|by apply steady_put_geometry].
  set (b5 := ask _ b4). apply (steady_trans _ b5); [by apply Hcall|]. by apply steady_put_geometry.
Qed.

Lemma icon_inv b remote : backend_inv b → backend_inv (w_icon b remote).1.
Proof.
  intros Hb. unfold w_icon. repeat case_match; cbn; try done. eapply steady_inv; [done|].
  apply steady_ask, Forall_singleton. left. eauto using native_surface.
Qed.

Lemma frame_inv b f : backend_inv b → backend_inv (w_frame b f).1.
Proof.
  intros Hb. unfold w_frame. repeat case_match; cbn; try done; (eapply steady_inv; [done|]; by apply steady_refl).
Qed.

Lemma cursor_shape_inv b shape : backend_inv b → backend_inv (w_cursor_shape b shape).1.
Proof.
  intros Hb. unfold w_cursor_shape. destruct (b_cursor_cache b !! cs_cursor_id shape) as [c|].
  - eapply steady_inv; [done|]. by apply steady_ask, calls_on_natives.
  - destruct (negb _); [done|]. destruct (bgra_premul_to_rgba _ _ _) as [[rgba|]|x|]; try done.
    pose proof (ws_cursor_ids (b_env b) rgba (cs_width shape) (cs_height shape) (cs_hotspot_x shape) (cs_hotspot_y shape)) as Hids.
    destruct (ws_create_cursor _ _ _ _ _ _) as [e [c|]]; cbn [fst] in *; (eapply steady_inv; [done|]); [|by apply steady_refl].
    set (b1 := set_env e b). apply (steady_trans _ b1); [by apply (steady_refl b b1)|].
    set (b2 := ask _ b1). apply (steady_trans _ b2); [|by apply steady_refl].
    exact (steady_ask b1 _ (calls_on_natives b1 (λ n, SetCursor n c) (λ _, eq_refl))).
Qed.

Lemma command_inv b c : backend_inv b → backend_inv (apply_display_command b c).1.
Proof.
  intros Hb. destruct c as [w|id|w|w|w|w|st|f|s|id x y|v|code msg|]; cbn [apply_display_command]; cbn [create_window destroy_window move_window
    retitle_window change_state change_icon restack frame cursor_shape cursor_moved cursor_visibility agent_error closed WinitBackend_display].
  - by apply create_inv.
  - by apply destroy_inv.
  - by apply move_inv.
  - eapply steady_inv; [done|]. apply on_native_steady. intros n. by repeat constructor.
  - eapply steady_inv; [done|]. apply on_native_steady. intros n. by repeat constructor.
  - by apply icon_inv.
  - done.
  - pose proof (frame_inv b f Hb). by destruct (w_frame b f).
  - by apply cursor_shape_inv.
  - done.
  - eapply steady_inv; [done|]. unfold w_cursor_visibility. set (b1 := set_cursor _ v b).
    apply (steady_trans _ b1); [by apply (steady_refl b b1)|]. by apply steady_ask, calls_on_natives.
  - eapply steady_inv; [done|]. by apply steady_refl.
  - eapply steady_inv; [done|]. apply steady_ask, Forall_singleton. by right; left.
Qed.

Lemma user_event_inv b c : backend_inv b → backend_inv (user_event c b).1.
Proof.
  intros Hb. pose proof (command_inv b c Hb) as Hc.
  assert (Hdone : backend_inv (match apply_display_command b c with
    | (b, Err message) => (emit (DisplayEvent.BackendError message) b, Ok ()) | r => r end).1).
  { destruct (apply_display_command b c) as [b' [u|m|]]; cbn in *; try done. eapply steady_inv; [done|]. by apply steady_refl. }
  destruct c; exact Hdone || exact Hc.
Qed.

Lemma record_geometry_steady b id f : steady b (record_geometry id f b).
Proof.
  unfold record_geometry. destruct (b_windows b !! id) as [w|] eqn:Hw; [|by apply steady_refl].
  pose proof (steady_now (put_geometry id w (f (wn_geometry w)) b)) as Hn. destruct (now _) as [b1 t]. cbn [fst] in Hn.
  eapply steady_trans; [by eapply steady_put_geometry|]. eapply steady_trans; [exact Hn|]. by apply steady_refl.
Qed.

Lemma window_event_inv b n e : backend_inv b → backend_inv (handle_window_event n e b).1.
Proof.
  intros Hb. unfold handle_window_event. destruct (b_by_winit_id b !! n) as [id|]; [|done]. apply (steady_inv b); [done|].
  destruct e; try by apply steady_refl.
  - destruct (pr_resize _ _ _ _) as [p r]. cbn [fst].
    set (b1 := set_presenter p b). apply (steady_trans _ b1); [by apply (steady_refl b b1)|].
    eapply steady_trans; [apply record_geometry_steady|]. by apply steady_refl.
  - destruct (ws_is_x11 (b_env b)); [|by apply steady_refl]. cbn [fst].
    eapply steady_trans; [apply record_geometry_steady|]. by apply steady_refl.
  - destruct (code ≫= keycode_to_scancode); by apply steady_refl.
  - destruct (pointer_at id _). by apply steady_refl.
  - destruct (wheel_delta delta), (pointer_at id b). by apply steady_refl.
  - destruct (pr_refresh _ _). by apply steady_refl.
Qed.

Lemma app_step_inv b e : backend_inv b → backend_inv (app_step e b).1.
Proof. intros Hb. destruct e; cbn; [by apply user_event_inv|by apply window_event_inv]. Qed.

Lemma app_run_inv es b : backend_inv b → backend_inv (app_run es b).
Proof. revert b. induction es as [|e es IH]; intros b Hb; cbn; [done|]. by apply IH, app_step_inv. Qed.

(** ** Dropping the backend *)

Lemma detach_all l ids :
  (∀ id, is_Some (li_surface l !! id) → id ∈ ids) → replay l (map Detached ids) = Some (mkLive (li_open l) ∅).
Proof.
  revert l. induction ids as [|i ids IH]; intros l Hall; cbn.
  - f_equal. destruct l as [o s]. cbn in *. f_equal. apply map_empty. intros j. destruct (s !! j) eqn:Hj; [|done].
    exfalso. apply (elem_of_nil j), Hall. by eexists.
  - rewrite IH; [done|]. cbn. intros j [n Hn]. apply lookup_delete_Some in Hn as [Hne Hn].
    assert (Hj : j ∈ i :: ids) by (apply Hall; by eexists). apply elem_of_cons in Hj as [->|Hj]; done.
Qed.

Lemma close_all o ns :
  NoDup ns → (∀ n, n ∈ o ↔ n ∈ ns) → replay (mkLive o ∅) (map Closed ns) = Some (mkLive ∅ ∅).
Proof.
  revert o. induction ns as [|n ns IH]; intros o Hnd Ho; cbn.
  - do 2 f_equal. apply leibniz_equiv. intros m. rewrite Ho. split; [by intros ?%elem_of_nil|by intros ?%elem_of_empty].
  - apply NoDup_cons in Hnd as [Hn Hnd]. rewrite (bool_decide_eq_true_2 (n ∈ o)) by (apply Ho; constructor).
    rewrite bool_decide_eq_true_2 by apply map_Forall_empty. cbn. apply IH; [done|]. intros m.
    rewrite elem_of_difference, elem_of_singleton, Ho, elem_of_cons. split; [tauto|].
    intros Hm. split; [by right|]. by intros ->.
Qed.

Lemma natives_surfaces b n : n ∈ natives b ↔ ∃ id, surfaces b !! id = Some n.
Proof.
  unfold natives, surfaces. rewrite list_elem_of_fmap. split.
  - intros ([id w] & -> & Hin). apply elem_of_map_to_list in Hin. exists id. by rewrite lookup_fmap, Hin.
  - intros [id Hid]. rewrite lookup_fmap in Hid. destruct (b_windows b !! id) as [w|] eqn:Hw; [|done]. injection Hid as <-.
    exists (id, w). split; [done|]. by apply elem_of_map_to_list.
Qed.

Lemma natives_nodup b : backend_inv b → NoDup (natives b).
Proof.
  intros Hb. unfold natives. apply NoDup_fmap_2_strong; [|apply NoDup_map_to_list].
  intros [i v] [j w] Hi Hj Hn. apply elem_of_map_to_list in Hi, Hj. cbn in Hn.
  apply native_surface in Hi as Hsi. apply native_surface in Hj as Hsj. rewrite Hn in Hsi.
  pose proof (surface_injective b i j _ Hb Hsi Hsj) as ->. congruence.
Qed.

Lemma drop_clean b : backend_inv b → replay (mkLive ∅ ∅) (b_log (app_drop b)) = Some (mkLive ∅ ∅).
Proof.
  intros Hb. pose proof Hb as [(l & Hl & Hls & Ho) Ht Hi]. unfold app_drop. cbn [ask b_log].
  rewrite <- app_assoc, replay_app, Hl. cbn [mbind option_bind]. rewrite replay_app, detach_all.
  - cbn [mbind option_bind]. apply close_all; [by apply natives_nodup|]. intros n. by rewrite Ho, natives_surfaces.
  - intros id [n Hn]. rewrite Hls in Hn. apply elem_of_elements, elem_of_dom. unfold surfaces in Hn. rewrite lookup_fmap in Hn.
    by destruct (b_windows b !! id).
Qed.

(** C26: whatever the session commands and the window system reports, in any
    order, with windows that cannot be created or attached, the backend closes a
    native window only after the surface in it is gone, makes every call on a
    window that is still open, and leaves nothing open when it is dropped; the
    surfaces are exactly those of the windows in its table, each over its own
    native window, and its table of native ids is the inverse of that. This is
    what the unsafe code of the presenter asks of it. *)
Theorem surfaces_within_windows (e : E) (p : P) (es : list app_event) :
  let b := app_run es (WinitBackend_new e p) in
  (∃ l, replay (mkLive ∅ ∅) (b_log b) = Some l ∧ li_surface l = surfaces b ∧
        ∀ n, n ∈ li_open l ↔ ∃ id, surfaces b !! id = Some n) ∧
  (∀ n id, b_by_winit_id b !! n = Some id ↔ surfaces b !! id = Some n) ∧
  replay (mkLive ∅ ∅) (b_log (app_drop b)) = Some (mkLive ∅ ∅).
Proof.
  cbv zeta. pose proof (app_run_inv es _ (backend_new_inv e p)) as Hb.
  split_and!; [apply Hb|apply Hb|by apply drop_clean].
Qed.
End Life.

(** ** A window system *)

Module SimpleSystem.
(** Windows are numbered from 0; the clock stands still. *)
Definition next_native (e : nat) (a : WindowAttributes) : nat * outcome DisplayError NativeWindow :=
  (S e, Ok (mkNative (Z.of_nat e) (at_inner_size a) (Some (Z.of_nat e)))).

#[global] Instance simple_system : WindowSystem nat := {
  ws_is_x11 _ := true;
  ws_now e := (e, 0);
  ws_create_window := next_native;
  ws_icon _ _ _ := true;
  ws_create_cursor e _ _ _ _ _ := (e, Some 1);
  ws_ids e := list_to_set (Z.of_nat <$> seq 0 e)
}.

#[global] Instance simple_system_laws : WindowSystemLaws nat.
Proof.
  split; cbn; try done.
  intros e a e' n [= <- <-]. split; cbn [nw_id].
  - rewrite elem_of_list_to_set, list_elem_of_fmap. intros (k & Hk & Hin). apply elem_of_seq in Hin. lia.
  - rewrite seq_S, fmap_app, list_to_set_app_L. cbn. set_solver.
Qed.

(** A presenter that takes every window but those of odd ids. *)
#[global] Instance picky_presenter : PresenterOps unit := {
  pr_attach _ id _ _ _ := ((), if Z.odd id then Err (Platform []) else Ok ());
  pr_resize _ _ _ _ := ((), Ok ());
  pr_present _ _ _ := ((), Ok (mkTimes 1 2));
  pr_refresh _ _ := ((), Ok ());
  pr_detach _ _ := ()
}.

Definition spec (id : Z) : WindowSpec := mkSpec id [] [] 10 20 300 200 0 false false true true false None.

Definition day : list app_event :=
  [AppCommand (DisplayCommand.CreateWindow (spec 2)); AppCommand (DisplayCommand.CreateWindow (spec 3));
   AppCommand (DisplayCommand.CreateWindow (spec 4)); AppWindow 0 (WMouseInput Pressed MouseButton.Left);
   AppWindow 2 (WResized 640 70000); AppCommand (DisplayCommand.DestroyWindow 2)].
End SimpleSystem.

Lemma surfaces_within_windows_witness :
  b_log (app_run SimpleSystem.day (WinitBackend_new 0%nat ())) =
    [Opened 0; SetCursorVisible 0 true; Attached 2 0; Opened 1; SetCursorVisible 1 true; Closed 1;
     Opened 2; SetCursorVisible 2 true; Attached 4 2; Detached 2; Closed 0] ∧
  (let b := app_run SimpleSystem.day (WinitBackend_new 0%nat ()) in
   (∃ l, replay (mkLive ∅ ∅) (b_log b) = Some l ∧ li_surface l = surfaces b ∧
         ∀ n, n ∈ li_open l ↔ ∃ id, surfaces b !! id = Some n) ∧
   (∀ n id, b_by_winit_id b !! n = Some id ↔ surfaces b !! id = Some n) ∧
   replay (mkLive ∅ ∅) (b_log (app_drop b)) = Some (mkLive ∅ ∅)).
Proof. split; [reflexivity|]. exact (surfaces_within_windows 0%nat () SimpleSystem.day). Defined.

(** A button held over a window that is destroyed stays held: its release
    comes for a native window the backend no longer knows. *)
Lemma button_sticks :
  b_events (app_run [AppCommand (DisplayCommand.CreateWindow (SimpleSystem.spec 2)); AppCommand (DisplayCommand.CreateWindow (SimpleSystem.spec 4));
                     AppWindow 0 (WMouseInput Pressed MouseButton.Left); AppCommand (DisplayCommand.DestroyWindow 2);
                     AppWindow 0 (WMouseInput Released MouseButton.Left); AppWindow 1 (WMouseWheel (LineDelta (S754_zero false) (f32_of 1)))]
              (WinitBackend_new 0%nat ())) =
  [DisplayEvent.Pointer 2 0 0 pointer_button.LEFT 0 0; DisplayEvent.Pointer 4 0 0 pointer_button.LEFT 0 120].
Proof. reflexivity. Qed.

(** A window opened after a cursor shape was set is not given the shape. *)
Lemma new_window_default_cursor s :
  b_log (w_create (w_cursor_shape (WinitBackend_new (P:=unit) 0%nat ()) s).1 (SimpleSystem.spec 2)).1 =
  [Opened 0; SetCursorVisible 0 true; Attached 2 0].
Proof.
  unfold w_cursor_shape. cbn [WinitBackend_new b_cursor_cache]. rewrite lookup_empty.
  destruct (negb _); [reflexivity|]. by destruct (bgra_premul_to_rgba _ _ _) as [[rgba|]|x|].
Qed.
