(* ===== verification/WinitInput.v ===== *)
(** * The numbers and pixels of the native backend

    Theorems on the conversions of [Winit]: wheel deltas, whose arithmetic is
    binary32, the pixels of cursors and icons, and the ledger of geometry
    echoes. *)

From Stdlib Require Import Floats.SpecFloat.
From S2P Require Import Prelude Cursor Wire MsgType MsgControl MsgInput MsgWindow Model Scancode Keys Presenter Display Winit.

(** ** The wheel *)

Definition f64_of_int (x : Z) : spec_float := binary_normalize 53 1024 x 0 false.

Definition line_exact (n : Z) : bool := wheel_units (f32_of n) =? 120 * n.
Definition pixel_exact (n : Z) : bool := (wheel_delta (PixelDelta (f64_of_int n) (f64_of_int n))).1 =? n.

Lemma lines_checked : forallb line_exact (seqZ (-273) 547) = true.
Proof. vm_compute. reflexivity. Qed.

Lemma pixels_checked : forallb pixel_exact (seqZ (-1200) 2401) = true.
Proof. vm_compute. reflexivity. Qed.

Lemma forallb_seqZ (f : Z → bool) a n x : forallb f (seqZ a n) = true → a ≤ x < a + n → f x = true.
Proof. intros Hall Hx. eapply forallb_forall in Hall; [exact Hall|]. apply list_elem_of_In, elem_of_seqZ. lia. Qed.

Lemma clamp_rounded_range r : is_sint 16 (clamp_rounded 16 r).
Proof. unfold is_sint. destruct r as [|[]|z]; cbn; [lia..|]. repeat case_match; bool_to_prop; lia. Qed.

(** What the wheel reports reaches the protocol exactly: a whole number of
    lines as 120 units each, up to the ends of the 16 bits, and a whole number
    of pixels as that many units, through a division and a multiplication by
    120 in single precision; anything else, a NaN included, still fits the
    16 bits. *)
Theorem wheel_exact :
  (∀ n, -273 ≤ n ≤ 273 → wheel_units (f32_of n) = 120 * n) ∧
  (∀ n, -1200 ≤ n ≤ 1200 → (wheel_delta (PixelDelta (f64_of_int n) (f64_of_int n))).1 = n) ∧
  (∀ d, is_sint 16 (wheel_delta d).1 ∧ is_sint 16 (wheel_delta d).2).
Proof.
  split_and!.
  - intros n Hn. apply Z.eqb_eq. apply (forallb_seqZ line_exact (-273) 547 n lines_checked). lia.
  - intros n Hn. apply Z.eqb_eq. apply (forallb_seqZ pixel_exact (-1200) 2401 n pixels_checked). lia.
  - intros [x y|x y]; split; apply clamp_rounded_range.
Qed.

Lemma wheel_exact_witness : -273 ≤ -3 ≤ 273 ∧ wheel_units (f32_of (-3)) = 120 * -3.
Proof. split; [lia|]. apply (proj1 wheel_exact (-3)). lia. Defined.

(** ** Cursor and icon pixels *)

Lemma unpremul_ok c a : 0 ≤ c < 256 → 0 ≤ a < 256 →
  unpremul c a = Ok (if a =? 0 then 0 else Z.min (c * 255 / a) 255).
Proof.
  intros Hc Ha. unfold unpremul. case_if; [done|]. rewrite (proj2 (Z.ltb_lt (c * 255) (2 ^ 16))) by lia. cbn [negb].
  rewrite (proj2 (Z.ltb_lt _ 256)) by lia. done.
Qed.

(** Multiplying by the alpha again, rounding up, gives the channel back. *)
Lemma unpremul_inverse c a u : 0 ≤ c ≤ a → a < 256 → unpremul c a = Ok u → 0 ≤ u < 256 ∧ div_ceil (u * a) 255 = c.
Proof.
  intros Hc Ha Hu. rewrite unpremul_ok in Hu by lia. injection Hu as <-. destruct (Z.eqb_spec a 0) as [->|Hne].
  - split; [lia|]. replace c with 0 by lia. done.
  - assert (Hq : c * 255 / a ≤ 255) by (apply Z.div_le_upper_bound; lia). rewrite Z.min_l by done.
    pose proof (Z_div_mod_eq_full (c * 255) a) as He. pose proof (Z.mod_pos_bound (c * 255) a ltac:(lia)) as Hm.
    pose proof (Z.div_pos (c * 255) a). split; [lia|]. unfold div_ceil. symmetry. apply (Z.div_unique _ 255 _ (254 - (c * 255) `mod` a)); lia.
Qed.

(** A premultiplied pixel and what it becomes. *)
Inductive premultiplied : list Z → Prop :=
| premul_nil : premultiplied []
| premul_cons b g r a data :
    0 ≤ b ≤ a → 0 ≤ g ≤ a → 0 ≤ r ≤ a → a < 256 → premultiplied data → premultiplied (b :: g :: r :: a :: data).

Inductive straightened : list Z → list Z → Prop :=
| straight_nil : straightened [] []
| straight_cons b g r a data b' g' r' out :
    0 ≤ b' < 256 → 0 ≤ g' < 256 → 0 ≤ r' < 256 →
    b = div_ceil (b' * a) 255 → g = div_ceil (g' * a) 255 → r = div_ceil (r' * a) 255 →
    straightened data out → straightened (b :: g :: r :: a :: data) (r' :: g' :: b' :: a :: out).

Lemma map_premultiplied data :
  premultiplied data →
  ∃ out, map_pixels (λ b g r a, b ← unpremul b a; g ← unpremul g a; r ← unpremul r a; Ok [r; g; b; a]) data = Ok out ∧
         straightened data out.
Proof.
  induction 1 as [|b g r a data Hb Hg Hr Ha Hd (out & Hout & Hs)]; [by exists []; split; [|constructor]|].
  cbn [map_pixels]. rewrite !(unpremul_ok _ a) by lia. cbn [mbind outcome_bind]. rewrite Hout. cbn. eexists. split; [reflexivity|].
  destruct (unpremul_inverse b a _ Hb Ha (unpremul_ok b a ltac:(lia) ltac:(lia))) as [Hb1 Hb2].
  destruct (unpremul_inverse g a _ Hg Ha (unpremul_ok g a ltac:(lia) ltac:(lia))) as [Hg1 Hg2].
  destruct (unpremul_inverse r a _ Hr Ha (unpremul_ok r a ltac:(lia) ltac:(lia))) as [Hr1 Hr2].
  by constructor.
Qed.

(** A cursor of the announced size whose colours are premultiplied is
    always converted, pixel by pixel into red, green, blue, alpha, and nothing
    of it is lost: multiplying a channel by the alpha again, rounded up, gives
    the channel that was received. A payload of any other length is refused. *)
Theorem cursor_straightened (data : list Z) (width height : Z) :
  is_uint 16 width → is_uint 16 height → premultiplied data →
  if len data =? width * height * 4
  then ∃ out, bgra_premul_to_rgba data width height = Ok (Some out) ∧ straightened data out
  else bgra_premul_to_rgba data width height = Ok None.
Proof.
  intros Hw Hh Hd. unfold bgra_premul_to_rgba, checked_pixels. rewrite frame_len_spec by done.
  destruct (len data =? width * height * 4); cbn [negb]; [|done].
  destruct (map_premultiplied data Hd) as (out & -> & Hs). cbn. eauto.
Qed.

Lemma cursor_straightened_witness :
  (is_uint 16 1 ∧ premultiplied [10; 20; 30; 128]) ∧
  (if len [10; 20; 30; 128] =? 1 * 1 * 4
   then ∃ out, bgra_premul_to_rgba [10; 20; 30; 128] 1 1 = Ok (Some out) ∧ straightened [10; 20; 30; 128] out
   else bgra_premul_to_rgba [10; 20; 30; 128] 1 1 = Ok None).
Proof.
  assert (H1 : is_uint 16 1) by (split; [lia|reflexivity]).
  assert (Hd : premultiplied [10; 20; 30; 128]) by (repeat constructor; lia).
  split; [split; [exact H1|exact Hd]|]. exact (cursor_straightened _ 1 1 H1 H1 Hd).
Defined.

(** ** Echoes *)

(** A recorded geometry answers once, to the same geometry, before it expires;
    asking at all uses it up. *)
Lemma echo_once l now later id g g' :
  let l' := ledger_record l now id g in
  (take_if_echo l' later id g').2 = bool_decide (later ≤ now + gl_ttl l) && bool_decide (g = g') ∧
  (take_if_echo (take_if_echo l' later id g').1 later id g').2 = false.
Proof.
  cbv zeta. unfold take_if_echo, ledger_record. cbn [gl_entries gl_ttl]. rewrite lookup_insert_eq. cbn [pg_expires_at pg_geometry].
  destruct (Z.ltb_spec (now + gl_ttl l) later); cbn [fst snd gl_entries]; rewrite lookup_delete_eq; (split; [|done]).
  - by rewrite bool_decide_eq_false_2 by lia.
  - by rewrite (bool_decide_eq_true_2 (later ≤ now + gl_ttl l)) by lia.
Qed.
