(* ===== verification/ClientLoop.v ===== *)
(** * The client's session loop

    [crates/oxclient/src/main.rs]: [run_session_loop], which wires the session,
    the window model, the geometry, the decode pipeline, the latency monitor and
    the display thread together, and [handle_display_event], which turns what
    the display reports into messages. One arm of the loop's [select!] is one
    happening; what the environment decides (the session's results, the clocks,
    whether the display thread still listens) comes with it. The decode threads
    are stepped in between.

    An arm that cannot be taken is [Err tt]: it is not an outcome of the code. *)

From stdpp Require Import sorting.
From S2P Require Import Prelude Cursor Wire MsgType MsgControl MsgInput MsgWindow ProtoMessage Transport.
From S2P Require Import Latency Model Geometry Channel Decode Pipeline LatencyMonitor Presenter Display.

(** ** When a frame was decoded *)

Definition DecodeTimes : Type := gmap (Z * Z) Z.
Definition CAPACITY : nat := 64.

(** The order of the keys, and the least of them. *)
Definition key_ltb (a b : Z * Z) : bool := (a.1 <? b.1) || ((a.1 =? b.1) && (a.2 <? b.2)).

Definition min_key (ks : list (Z * Z)) : option (Z * Z) :=
  match ks with [] => None | k :: ks => Some (fold_left (λ m k, if key_ltb k m then k else m) ks k) end.

Definition times_record (t : DecodeTimes) (window_id frame_id decoded_us : Z) : DecodeTimes :=
  let t := if (CAPACITY <=? size t)%nat then
             match min_key (map_to_list t).*1 with Some oldest => delete oldest t | None => t end
           else t in
  <[(window_id, frame_id) := decoded_us]> t.

Definition times_take (t : DecodeTimes) (window_id frame_id fallback_us : Z) : DecodeTimes * Z :=
  (delete (window_id, frame_id) t, default fallback_us (t !! (window_id, frame_id))).

Definition times_forget (t : DecodeTimes) (window_id : Z) : DecodeTimes :=
  filter (λ kv, kv.1.1 ≠ window_id) t.

(** ** Events of the display *)

(** [session.has_feature]. *)
Definition has_feature (features bit : Z) : bool := negb (Z.land features bit =? 0).

Definition frame_ack (features window_id frame_id decoded_us presented_us : Z) : option Message.t :=
  if has_feature features feature.FRAME_ACK
  then Some (Message.FrameAck (mkFrameAck window_id frame_id decoded_us presented_us)) else None.

Definition control_message (window_id action x y width height : Z) : Message.t :=
  Message.WindowControl (mkWindowControl window_id action x y width height).

(** The readings of the two clocks, and the session's estimate of the offset. *)
Record reading : Type := mkReading { rd_instant : Z; rd_us : Z; rd_offset : option Z }.

Record Handled : Type := mkHandled {
  hd_geometry : GeometrySync; hd_latency : LatencyMonitor; hd_times : DecodeTimes; hd_message : option Message.t
}.

(** At most one message is sent for an event. *)
Definition handle_display_event (features : Z) (rd : reading) (model : WindowModel) (g : GeometrySync) (lat : LatencyMonitor)
    (times : DecodeTimes) (event : DisplayEvent.t) : outcome unit Handled :=
  let sends m := Ok (mkHandled g lat times m) in
  let control := has_feature features feature.WINDOW_CONTROL in
  match event with
  | DisplayEvent.Pointer window_id x y buttons wheel_x wheel_y =>
    sends (Some (Message.PointerEvent (mkPointerEvent window_id x y buttons wheel_x wheel_y (rd_us rd))))
  | DisplayEvent.Key scancode pressed extended =>
    let flags := Z.lor (if pressed then key_flag.PRESSED else 0) (if extended then key_flag.EXTENDED else 0) in
    sends (Some (Message.KeyEvent (mkKeyEvent scancode flags (rd_us rd))))
  | DisplayEvent.Text text =>
    sends (if has_feature features feature.TEXT_INPUT then Some (Message.TextInput (mkTextInput text)) else None)
  | DisplayEvent.Modifiers modifiers locks => sends (Some (Message.ModifierSync (mkModifierSync modifiers locks)))
  | DisplayEvent.Focused window_id focused =>
    sends (if focused && control then Some (control_message window_id window_action.ACTIVATE 0 0 0 0) else None)
  | DisplayEvent.CloseRequested window_id =>
    sends (if control then Some (control_message window_id window_action.CLOSE 0 0 0 0) else None)
  | DisplayEvent.ResizeRequested window_id width height =>
    if control then
      let '(g, r) := geo_resized g (rd_instant rd) model window_id width height in
      Ok (mkHandled g lat times ((λ s, control_message window_id window_action.RESIZE 0 0 s.1 s.2) <$> r))
    else sends None
  | DisplayEvent.MoveRequested window_id x y =>
    if control then
      let '(g, r) := geo_moved g (rd_instant rd) window_id x y in
      Ok (mkHandled g lat times ((λ p, control_message window_id window_action.MOVE p.1 p.2 0 0) <$> r))
    else sends None
  | DisplayEvent.Minimized window_id minimized =>
    sends (if control then Some (control_message window_id (if minimized then window_action.MINIMIZE else window_action.RESTORE) 0 0 0 0)
           else None)
  | DisplayEvent.Presented window_id frame_id decoded_us presented_us =>
    lat ← match rd_offset rd with
          | Some offset => x ← on_presented window_id frame_id presented_us offset lat; Ok x.2
          | None => Ok lat
          end;
    let '(times, decoded_us) := times_take times window_id frame_id decoded_us in
    Ok (mkHandled g lat times (frame_ack features window_id frame_id decoded_us presented_us))
  | DisplayEvent.BackendError _ => sends None
  end.

(** ** The loop *)

Section Loop.
Context `{Channel FrameData} {D : Type} `{Decoder D}.
Variable factory : Z → Z → outcome DecodeError D.
Variable features : Z.

(** [dropped_rx] is unbounded: the reports in it, oldest first. *)
Record Loop : Type := mkLoop {
  lp_model : WindowModel;
  lp_geometry : GeometrySync;
  lp_times : DecodeTimes;
  lp_decoders : DecodePipeline (D:=D);
  lp_latency : LatencyMonitor;
  lp_stalled : option (FrameData * nat * Z);
  lp_reports : list FrameReport
}.

Definition Loop_new (lat : LatencyMonitor) : Loop :=
  mkLoop WindowModel_new GeometrySync_new ∅ DecodePipeline_new lat None [].

Implicit Types s : Loop.

Definition set_model model s := mkLoop model (lp_geometry s) (lp_times s) (lp_decoders s) (lp_latency s) (lp_stalled s) (lp_reports s).
Definition set_geometry g s := mkLoop (lp_model s) g (lp_times s) (lp_decoders s) (lp_latency s) (lp_stalled s) (lp_reports s).
Definition set_times t s := mkLoop (lp_model s) (lp_geometry s) t (lp_decoders s) (lp_latency s) (lp_stalled s) (lp_reports s).
Definition set_decoders p s := mkLoop (lp_model s) (lp_geometry s) (lp_times s) p (lp_latency s) (lp_stalled s) (lp_reports s).
Definition set_latency lat s := mkLoop (lp_model s) (lp_geometry s) (lp_times s) (lp_decoders s) lat (lp_stalled s) (lp_reports s).
Definition set_stalled x s := mkLoop (lp_model s) (lp_geometry s) (lp_times s) (lp_decoders s) (lp_latency s) x (lp_reports s).
Definition set_reports rs s := mkLoop (lp_model s) (lp_geometry s) (lp_times s) (lp_decoders s) (lp_latency s) (lp_stalled s) rs.

(** What leaves the loop and the threads behind it. *)
Inductive loop_output : Type :=
| ToDisplay (command : DisplayCommand.t)
| ToAgent (m : Message.t)
| PingAgent.

Inductive verdict : Type := Continue | Return (r : io_result unit).

(** The clocks of an arm that reads the wire: when the frame arrived, and when
    it was found to be stalled. *)
Record arrival_clock : Type := mkArrivalClock { ac_instant : Z; ac_arrived_us : Z; ac_stalled_us : Z; ac_dropped_us : Z }.

Inductive happening : Type :=
(** [next_event] resolved; a worker thread may have to start. *)
| HEvent (r : io_result (option ClientEvent.t)) (clk : arrival_clock) (started open : bool)
| HRoom (now_us : Z)
| HReport (sent : io_result unit)
| HPing (sent : io_result unit)
| HReportTick (now_us : Z)
| HDisplay (event : option DisplayEvent.t) (rd : reading) (sent : io_result unit)
(** A decode thread takes a frame, or finishes one; the display may be gone. *)
| HRecv (i : nat)
| HFinish (i : nat) (now_us : Z) (open : bool)
| HLastSender (i : nat).

(** The bookkeeping of a change, before its command is sent. *)
Definition note_change (change : ModelChange.t) (instant : Z) s : Loop :=
  match change with
  | ModelChange.Created id =>
    match model_get (lp_model s) id with
    | Some w => set_geometry (geo_created (lp_geometry s) instant id (rw_x w) (rw_y w)) s
    | None => s
    end
  | ModelChange.Moved id =>
    match model_get (lp_model s) id with
    | Some w => set_geometry (guest_moved (lp_geometry s) instant id (rw_x w) (rw_y w)) s
    | None => s
    end
  | ModelChange.Destroyed id =>
    set_times (times_forget (lp_times s) id)
      (set_latency (monitor_forget id (lp_latency s))
        (set_geometry (geo_forget (lp_geometry s) id) (set_decoders (Pipeline.forget (lp_decoders s) id) s)))
  | _ => s
  end.

Definition arrived_frame (f : FrameData) (arrived_us : Z) : ArrivedFrame :=
  mkArrived (fd_window_id f) (fd_frame_id f) (fd_captured_us f) (fd_encoded_us f) arrived_us (is_keyframe f) (len (fd_data f)).

(** A frame leaves for its worker, or is held. *)
Definition take_frame (f : FrameData) (clk : arrival_clock) (started : bool) s : outcome unit Loop :=
  lat ← on_arrival (arrived_frame f (ac_arrived_us clk)) (lp_latency s);
  match submit (lp_decoders s) f started (ac_dropped_us clk) with
  | None => Err ()
  | Some (p, _, Placed) => Ok (set_decoders p (set_latency lat s))
  | Some (p, _, Backpressure frame queue) =>
    Ok (set_stalled (Some (frame, queue, ac_stalled_us clk)) (set_decoders p (set_latency lat s)))
  | Some (p, _, Acknowledged report) =>
    Ok (set_reports (lp_reports s ++ [report]) (set_decoders p (set_latency lat s)))
  end.

Fixpoint take_changes (changes : list ModelChange.t) (clk : arrival_clock) (started open : bool) s :
    outcome unit (Loop * list loop_output * verdict) :=
  match changes with
  | [] => Ok (s, [], Continue)
  | change :: changes =>
    let s := note_change change (ac_instant clk) s in
    x ← match change with
        | ModelChange.Frame f => s ← take_frame f clk started s; Ok (s, None)
        | other => Ok (s, display_command_for_change (lp_model s) other)
        end;
    let '(s, command) := x in
    match command with
    | None => take_changes changes clk started open s
    | Some command =>
      if open then
        y ← take_changes changes clk started open s;
        let '(s, outs, v) := y in
        Ok (s, ToDisplay command :: outs, v)
      else Ok (s, [], Return (Done ()))
    end
  end.

Definition is_closed_event (e : ClientEvent.t) : bool := match e with ClientEvent.Closed _ => true | _ => false end.

(** [commands.send(Shutdown)], whether or not the display still listens. *)
Definition shutdown : list loop_output := [ToDisplay DisplayCommand.Shutdown].

(** After a message: go on, or tell the display and return the error. *)
Definition after_send s (outs : list loop_output) (sent : io_result unit) : outcome unit (Loop * list loop_output * verdict) :=
  match sent with
  | Done _ => Ok (s, outs, Continue)
  | Panicked => Panic
  | Transport.Dropped => Err ()
  | r => Ok (s, outs ++ shutdown, Return r)
  end.

(** A message to send, if any. *)
Definition send_some s (m : option Message.t) (sent : io_result unit) : outcome unit (Loop * list loop_output * verdict) :=
  match m with
  | Some m => after_send s [ToAgent m] sent
  | None => Ok (s, [], Continue)
  end.

(** What a thread of the pipeline did, as the loop and the display see it. *)
Definition thread_step (e : Pipeline.event) s : outcome unit (Loop * list loop_output * verdict) :=
  match sys_step factory (lp_decoders s) e with
  | None => Err ()
  | Some (p, outs) =>
    let reports := omap (λ o, match o with OutReport _ r => Some r | _ => None end) outs in
    let pictures := omap (λ o, match o with OutDeliver _ f => Some (ToDisplay (DisplayCommand.Frame f)) | _ => None end) outs in
    Ok (set_reports (lp_reports s ++ reports) (set_decoders p s), pictures, Continue)
  end.

Definition loop_step (h : happening) s : outcome unit (Loop * list loop_output * verdict) :=
  match h with
  | HEvent r clk started open =>
    match lp_stalled s with
    | Some _ => Err ()
    | None =>
      match r with
      | Done None => Ok (s, shutdown, Return (Done ()))
      | IoErr k => Ok (s, shutdown, Return (IoErr k))
      | Transport.Dropped => Err ()
      | Panicked => Panic
      | Done (Some event) =>
        let '(model, changes) := apply (lp_model s) event in
        x ← take_changes changes clk started open (set_model model s);
        let '(s, outs, v) := x in
        match v with
        | Return _ => Ok (s, outs, v)
        | Continue => Ok (s, outs, if is_closed_event event then Return (Done ()) else Continue)
        end
      end
    end
  | HRoom now_us =>
    match lp_stalled s with
    | None => Err ()
    | Some (frame, i, since) =>
      match threads (lp_decoders s) !! i with
      | None => Err ()
      | Some w =>
        match try_reserve (w_chan w) with
        | Full => Err ()
        | alive =>
          lat ← on_read_stall (sat_uint 64 (now_us - since)) (lp_latency s);
          let s := set_latency lat (set_stalled None s) in
          match alive with
          | Sent => Ok (set_decoders (set_thread (lp_decoders s) i (with_chan (try_send (w_chan w) frame).1 w)) s, [], Continue)
          | _ => Ok (s, [], Continue)
          end
        end
      end
    end
  | HReport sent =>
    match lp_reports s with
    | [] => Err ()
    | Decoded window_id frame_id decoded_us :: rest =>
      Ok (set_times (times_record (lp_times s) window_id frame_id decoded_us)
            (set_latency (on_decoded window_id frame_id decoded_us (lp_latency s)) (set_reports rest s)), [], Continue)
    | Pipeline.Dropped window_id frame_id finished_us :: rest =>
      lat ← on_dropped window_id frame_id (lp_latency s);
      send_some (set_latency lat (set_reports rest s)) (frame_ack features window_id frame_id finished_us finished_us) sent
    end
  | HPing sent => after_send s [PingAgent] sent
  | HReportTick now_us =>
    if negb (lm_enabled (lp_latency s)) then Err ()
    else if has_samples (lp_latency s) then (x ← report now_us (lp_latency s); Ok (set_latency x.2 s, [], Continue))
    else Ok (s, [], Continue)
  | HDisplay event rd sent =>
    match event with
    | None => Ok (s, [], Return (Done ()))
    | Some event =>
      x ← handle_display_event features rd (lp_model s) (lp_geometry s) (lp_latency s) (lp_times s) event;
      send_some (set_times (hd_times x) (set_latency (hd_latency x) (set_geometry (hd_geometry x) s))) (hd_message x) sent
    end
  | HRecv i => thread_step (Pipeline.EvRecv i) s
  | HFinish i now_us open => thread_step (EvFinish i now_us open) s
  | HLastSender i =>
    match lp_stalled s with
    | Some (_, j, _) => if (i =? j)%nat then Err () else thread_step (EvLastSender i) s
    | None => thread_step (EvLastSender i) s
    end
  end.

(** A run ends with the first return. *)
Fixpoint loop_run (hs : list happening) s : outcome unit (Loop * list loop_output * verdict) :=
  match hs with
  | [] => Ok (s, [], Continue)
  | h :: hs =>
    x ← loop_step h s;
    let '(s, outs, v) := x in
    match v, hs with
    | Continue, _ => y ← loop_run hs s; let '(s, outs', v) := y in Ok (s, outs ++ outs', v)
    | Return _, [] => Ok (s, outs, v)
    | Return _, _ => Err ()
    end
  end.
End Loop.
