(* ===== verification/ClientFlow.v ===== *)
(** * What the session loop does with frames, windows and errors

    Theorems on [ClientLoop]: every frame that was read is in one place or
    acknowledged, the display is told exactly the model, and an error takes the
    display down with the session. *)

From stdpp Require Import sorting.
From S2P Require Import Prelude Cursor Wire MsgType MsgControl MsgInput MsgWindow ProtoMessage Transport.
From S2P Require Import Latency Model Geometry Channel Decode Pipeline LatencyMonitor Presenter Display ClientLoop.

(** ** Where a frame can be *)

Definition frame_key (f : FrameData) : Z * Z := (fd_window_id f, fd_frame_id f).
Definition report_key (r : FrameReport) : Z * Z := (report_window_id r, report_frame_id r).

Section Flow.
Context `{ChannelLaws FrameData} {D : Type} `{Decoder D}.
Variable factory : Z → Z → outcome DecodeError D.
Variable features : Z.
Implicit Types s : Loop (D:=D).
Implicit Types w : Worker (D:=D).

Definition frames_of w : list FrameData := option_list (w_hand w) ++ queued w.
Definition in_workers (p : DecodePipeline (D:=D)) : list FrameData := concat (map frames_of (threads p)).

Definition stalled_frames s : list FrameData := match lp_stalled s with Some (f, _, _) => [f] | None => [] end.

(** Held back, with a worker, or reported and not yet looked at. *)
Definition held s : list (Z * Z) :=
  map frame_key (stalled_frames s ++ in_workers (lp_decoders s)) ++ map report_key (lp_reports s).

Definition arrived (h : happening) : list (Z * Z) :=
  match h with HEvent (Done (Some (ClientEvent.Frame f))) _ _ _ => [frame_key f] | _ => [] end.

(** The report an arm takes off the channel. *)
Definition settled (h : happening) s : list FrameReport :=
  match h, lp_reports s with HReport _, r :: _ => [r] | _, _ => [] end.

(** Nothing is lost on the way: the display takes every picture, and the worker
    behind a held frame is still there. *)
Definition calm (h : happening) s : Prop :=
  match h with
  | HFinish _ _ open => open = true
  | HRoom _ =>
    match lp_stalled s with
    | Some (_, i, _) => ∀ w, threads (lp_decoders s) !! i = Some w → try_reserve (w_chan w) ≠ Closed
    | None => True
    end
  | _ => True
  end.

(** Frames are with the worker of their window. *)
Record homed s : Prop := {
  ho_frames i w : threads (lp_decoders s) !! i = Some w → Forall (λ f, fd_window_id f = w_window w) (frames_of w);
  ho_workers x i : workers (lp_decoders s) !! x = Some i → ∃ w, threads (lp_decoders s) !! i = Some w ∧ w_window w = x;
  ho_stalled f i t : lp_stalled s = Some (f, i, t) → ∃ w, threads (lp_decoders s) !! i = Some w ∧ w_window w = fd_window_id f
}.

(** ** One worker changes *)

Lemma in_workers_insert p i w w' :
  threads p !! i = Some w → in_workers (set_thread p i w') ++ frames_of w ≡ₚ in_workers p ++ frames_of w'.
Proof.
  unfold in_workers, set_thread. cbn. generalize (threads p). intros l. revert i.
  induction l as [|x l IH]; intros [|i] Hi; cbn in *; simplify_eq; [solve_Permutation|].
  rewrite <- !app_assoc. by rewrite IH.
Qed.

(** What a step moves: frames into its workers and reports out of them. *)
Definition entered (outs : list output) : list FrameData :=
  omap (λ o, match o with OutPlaced _ f => Some f | _ => None end) outs.
Definition reports_of (outs : list output) : list FrameReport :=
  omap (λ o, match o with OutReport _ r => Some r | _ => None end) outs.

Definition worker_homed w : Prop := Forall (λ f, fd_window_id f = w_window w) (frames_of w).

Lemma recv_moves w w' : worker_recv w = Some w' → frames_of w' = frames_of w ∧ w_window w' = w_window w.
Proof.
  unfold worker_recv. destruct (w_alive w); cbn [andb]; [|done]. case_bool_decide as Hh; [|done].
  destruct (blocking_recv (w_chan w)) as [[c [f|]]|] eqn:Er; [|..|done]; intros [= <-]; apply recv_cases in Er;
    unfold frames_of, queued; cbn; rewrite Hh; cbn.
  - by rewrite Er.
  - destruct Er as [Ec Eq]. by rewrite drop_rx_view, Eq.
Qed.

Lemma last_sender_moves w : frames_of (with_chan (drop_tx (w_chan w)) w) = frames_of w.
Proof. unfold frames_of, queued. cbn. by rewrite drop_tx_view. Qed.

Lemma finish_moves w now w' rs ds :
  no_factory_panic factory → worker_homed w → worker_finish factory w now true = Some (w', rs, ds) →
  map frame_key (frames_of w) = map report_key rs ++ map frame_key (frames_of w') ∧ w_window w' = w_window w ∧ worker_homed w'.
Proof.
  intros Hf Hh Hw. apply finish_cases in Hw as (f & Ef & Hwin & Eh & [(_ & Hc & r & -> & Er & Ew)|(_ & _ & Hbad & _)]);
    [|by destruct (Hbad eq_refl)].
  unfold worker_homed, frames_of, queued in *. rewrite Ef, Eh, Hc, Hwin in *. cbn in Hh |- *. apply Forall_cons in Hh as [Hfw Hh].
  split_and!; [|done|done]. f_equal. unfold frame_key, report_key. by rewrite Er, Ew, Hfw.
Qed.

Lemma send_moves w f c r :
  try_send (w_chan w) f = (c, r) →
  frames_of (with_chan c w) = frames_of w ++ match r with Sent => [f] | _ => [] end.
Proof.
  intros E. apply try_send_cases in E. unfold frames_of, queued. cbn. destruct r.
  - destruct E as (_ & _ & ->). cbn. by rewrite app_assoc.
  - by rewrite E, app_nil_r.
  - by rewrite E, app_nil_r.
Qed.

(** A step of a thread only turns frames into reports. *)
Lemma thread_moves p i (e : Pipeline.event) p' outs :
  no_factory_panic factory → (∀ w, threads p !! i = Some w → worker_homed w) →
  e = Pipeline.EvRecv i ∨ (∃ now, e = EvFinish i now true) ∨ e = EvLastSender i →
  sys_step factory p e = Some (p', outs) →
  ∃ w w', threads p !! i = Some w ∧ p' = set_thread p i w' ∧ w_window w' = w_window w ∧ worker_homed w' ∧
    map frame_key (frames_of w) = map report_key (reports_of outs) ++ map frame_key (frames_of w').
Proof.
  intros Hf Hh He Hs. destruct (threads p !! i) as [w|] eqn:Hw; [|by destruct He as [->|[[now ->]| ->]]; cbn in Hs; rewrite Hw in Hs].
  specialize (Hh w eq_refl). destruct He as [->|[[now ->]| ->]]; cbn [sys_step] in Hs; rewrite Hw in Hs; cbn [mbind option_bind] in Hs.
  - destruct (worker_recv w) as [w'|] eqn:Er; [|done]. cbn in Hs. injection Hs as <- <-.
    destruct (recv_moves w w' Er) as [Ef Ew]. exists w, w'. split_and!; [done..| |by rewrite Ef].
    unfold worker_homed. by rewrite Ef, Ew.
  - destruct (worker_finish factory w now true) as [[[w' rs] ds]|] eqn:Er; [|done]. cbn [mbind option_bind] in Hs. injection Hs as <- <-.
    destruct (finish_moves w now w' rs ds Hf Hh Er) as (Ek & Ew & Hw'). exists w, w'. split_and!; [done..|].
    rewrite Ek. f_equal. f_equal. unfold reports_of. rewrite omap_app.
    replace (omap _ (map (OutDeliver i) ds)) with (@nil FrameReport) by (clear; induction ds; done).
    rewrite app_nil_r. clear. induction rs as [|r rs IH]; [done|]. cbn. by rewrite <- IH.
  - case_bool_decide; [done|]. injection Hs as <- <-. eexists w, _. split_and!; [done..|by unfold worker_homed; rewrite last_sender_moves|].
    by rewrite last_sender_moves.
Qed.

(** ** The loop *)

Lemma homed_thread s i w w' s' :
  homed s → threads (lp_decoders s) !! i = Some w → w_window w' = w_window w → worker_homed w' →
  lp_decoders s' = set_thread (lp_decoders s) i w' →
  (lp_stalled s' = lp_stalled s ∨ lp_stalled s' = None) → homed s'.
Proof.
  intros [Hf Hw Hs] Hi Ew Hh Ep Est. assert (Ewk : workers (lp_decoders s') = workers (lp_decoders s)) by (by rewrite Ep).
  assert (Hlook : ∀ j, threads (lp_decoders s') !! j = if decide (j = i) then Some w' else threads (lp_decoders s) !! j).
  { intros j. rewrite Ep. cbn. destruct (decide (j = i)) as [->|Hne].
    - apply list_lookup_insert_eq. by eapply lookup_lt_Some.
    - by apply list_lookup_insert_ne. }
  assert (Hkeep : ∀ j v x, threads (lp_decoders s) !! j = Some v → w_window v = x → ∃ v, threads (lp_decoders s') !! j = Some v ∧ w_window v = x).
  { intros j v x Hj Hx. rewrite Hlook. destruct (decide (j = i)) as [->|]; [exists w'; split; [done|congruence]|by exists v]. }
  split.
  - intros j v. rewrite Hlook. case_decide; [intros [= <-]; exact Hh|apply Hf].
  - intros x j. rewrite Ewk. intros Hx. destruct (Hw x j Hx) as (v & Hv & Ev). by eapply Hkeep.
  - intros f j t Hst. destruct Est as [Est|Est]; rewrite Est in Hst; [|done].
    destruct (Hs f j t Hst) as (v & Hv & Ev). by eapply Hkeep.
Qed.

(** Nothing that matters here changes. *)
Lemma homed_same s s' :
  homed s → threads (lp_decoders s') = threads (lp_decoders s) →
  (∀ x i, workers (lp_decoders s') !! x = Some i → workers (lp_decoders s) !! x = Some i) →
  lp_stalled s' = lp_stalled s ∨ lp_stalled s' = None → homed s'.
Proof.
  intros [Hf Hw Hs] Et Ew Est. split; rewrite Et; [done|auto|]. intros f i t Hst. destruct Est as [Est|Est]; rewrite Est in Hst; [|done].
  by apply (Hs f i t).
Qed.

Definition same_frames s s' : Prop :=
  threads (lp_decoders s') = threads (lp_decoders s) ∧
  (∀ x i, workers (lp_decoders s') !! x = Some i → workers (lp_decoders s) !! x = Some i) ∧
  lp_stalled s' = lp_stalled s ∧ lp_reports s' = lp_reports s.

Lemma same_frames_held s s' : same_frames s s' → held s' = held s.
Proof. intros (Et & _ & Es & Er). unfold held, stalled_frames, in_workers. by rewrite Et, Es, Er. Qed.

Lemma same_frames_homed s s' : same_frames s s' → homed s → homed s'.
Proof. intros (Et & Ew & Es & _) Hh. eapply homed_same; eauto. Qed.

Lemma same_frames_refl s : same_frames s s.
Proof. by split_and!. Qed.

Lemma same_frames_trans s1 s2 s3 : same_frames s1 s2 → same_frames s2 s3 → same_frames s1 s3.
Proof. intros (A1 & A2 & A3 & A4) (B1 & B2 & B3 & B4). split_and!; [congruence|auto|congruence..]. Qed.

Lemma note_change_same c t s : same_frames s (note_change c t s).
Proof.
  unfold note_change. destruct c; repeat case_match; try apply same_frames_refl; split_and!; try done.
  cbn. intros x i. by intros [_ ?]%lookup_delete_Some.
Qed.

Lemma changes_same cs clk started open s s' outs v :
  Forall (λ c, match c with ModelChange.Frame _ => False | _ => True end) cs →
  take_changes cs clk started open s = Ok (s', outs, v) → same_frames s s'.
Proof.
  revert s s' outs v. induction cs as [|c cs IH]; intros s s' outs v Hcs Hrun; cbn [take_changes] in Hrun.
  - injection Hrun as <- _ _. apply same_frames_refl.
  - apply Forall_cons in Hcs as [Hc Hcs]. eapply same_frames_trans; [apply (note_change_same c (ac_instant clk))|].
    set (s1 := note_change c (ac_instant clk) s) in *.
    assert (Hx : take_changes cs clk started open s1 = Ok (s', outs, v) ∨
      ∃ command, (if open then y ← take_changes cs clk started open s1; let '(s0, outs, v) := y in Ok (s0, ToDisplay command :: outs, v)
                  else Ok (s1, [], Return (Done ()))) = Ok (s', outs, v)).
    { destruct c; try done; cbn [mbind outcome_bind] in Hrun;
        (destruct (display_command_for_change _ _) as [cmd|]; [right; exists cmd; exact Hrun|left; exact Hrun]). }
    destruct Hx as [Hx|[command Hx]]; [by eapply IH|]. destruct open; [|injection Hx as <- _ _; apply same_frames_refl].
    destruct (take_changes cs clk started true s1) as [[[s2 o2] v2]| |] eqn:E; [|done..]. injection Hx as <- _ _. by eapply IH.
Qed.

(** Only a frame gives a frame, and alone. *)
Lemma apply_changes m e :
  (∃ f, e = ClientEvent.Frame f ∧ apply m e = (m, [ModelChange.Frame f])) ∨
  ((∀ f, e ≠ ClientEvent.Frame f) ∧ Forall (λ c, match c with ModelChange.Frame _ => False | _ => True end) (apply m e).2).
Proof.
  destruct e; try by (right; split; [done|]; cbn; unfold on_opened, on_geometry, on_title, on_state, on_zorder, on_icon, on_closed;
    repeat case_match; simplify_eq; cbn; repeat constructor). left. by eexists.
Qed.

Lemma spawn_frames x started : frames_of (spawn_worker x started) = [].
Proof. unfold frames_of, queued, spawn_worker. destruct started; cbn; by rewrite ?drop_rx_view, ?channel_view. Qed.

(** The worker of a window is found or started, with nothing in it. *)
Lemma entry_homed s x started p' i :
  homed s → entry (lp_decoders s) x started = (p', i) →
  homed (set_decoders p' s) ∧ in_workers p' = in_workers (lp_decoders s) ∧ ∃ w, threads p' !! i = Some w ∧ w_window w = x.
Proof.
  intros Hh. pose proof Hh as [Hf Hw Hs]. unfold entry. destruct (workers (lp_decoders s) !! x) as [j|] eqn:E; intros [= <- <-].
  - split_and!; [by destruct s|done|by apply Hw].
  - set (w := spawn_worker x started). assert (Ew : w_window w = x) by (unfold w, spawn_worker; by destruct started).
    assert (Hkeep : ∀ j v, threads (lp_decoders s) !! j = Some v → (threads (lp_decoders s) ++ [w]) !! j = Some v)
      by (intros j v Hj; by apply lookup_app_l_Some).
    split_and!.
    + split; cbn.
      * intros j v Hj. apply lookup_app_Some in Hj as [Hj|[_ Hj]]; [by eapply Hf|].
        apply list_lookup_singleton_Some in Hj as [_ <-]. unfold w. rewrite spawn_frames. constructor.
      * intros y j Hy. apply lookup_insert_Some in Hy as [[<- <-]|[_ Hy]].
        -- exists w. split; [by apply list_lookup_middle|done].
        -- destruct (Hw y j Hy) as (v & Hv & Ev). eauto.
      * intros f j t Hst. destruct (Hs f j t Hst) as (v & Hv & Ev). eauto.
    + unfold in_workers. cbn. rewrite map_app, concat_app. cbn. unfold w. by rewrite spawn_frames, !app_nil_r.
    + exists w. split; [by apply list_lookup_middle|done].
Qed.

Lemma take_frame_conserves f clk started s s' :
  homed s → lp_stalled s = None → take_frame f clk started s = Ok s' →
  homed s' ∧ held s ++ [frame_key f] ≡ₚ held s'.
Proof.
  intros Hh Hst Hrun. unfold take_frame in Hrun.
  destruct (on_arrival _ _) as [lat| |]; [|done..]. cbn [mbind outcome_bind] in Hrun. unfold submit in Hrun.
  destruct (entry (lp_decoders s) (fd_window_id f) started) as [p1 i] eqn:Ee.
  destruct (entry_homed _ _ _ _ _ Hh Ee) as (Hh1 & Hin & w & Hw & Ewin). clear Ee. rewrite Hw in Hrun. cbn [mbind option_bind] in Hrun.
  destruct (try_send (w_chan w) f) as [c r] eqn:Es. pose proof (send_moves w f c r Es) as Hmv.
  pose proof (in_workers_insert p1 i w (with_chan c w) Hw) as Hperm. rewrite Hmv in Hperm. rewrite Hin in Hperm.
  assert (Hwf : worker_homed (with_chan c w)).
  { unfold worker_homed. rewrite Hmv. apply Forall_app. split; [exact (ho_frames _ Hh1 i w Hw)|]. destruct r; by repeat constructor. }
  set (s1 := set_decoders p1 s) in *. set (p2 := set_thread p1 i (with_chan c w)) in *.
  assert (Hh2 : ∀ s2, lp_decoders s2 = p2 → lp_stalled s2 = None → homed s2)
    by (intros s2 E2 E3; eapply (homed_thread s1 i w (with_chan c w)); eauto; by left; rewrite E3).
  assert (Hiw : in_workers p2 ≡ₚ in_workers (lp_decoders s) ++ match r with Sent => [f] | _ => [] end).
  { apply (Permutation_app_inv_r (frames_of w)). rewrite Hperm. solve_Permutation. }
  unfold held, stalled_frames. rewrite Hst. cbn [app]. destruct r; injection Hrun as <-; cbn [set_decoders set_latency set_stalled set_reports
    lp_decoders lp_stalled lp_reports].
  - split; [by apply Hh2|]. rewrite Hst. cbn [app]. change (in_workers (mkPipeline _ _)) with (in_workers p2). rewrite Hiw, map_app. cbn. solve_Permutation.
  - split.
    + specialize (Hh2 (set_decoders p2 s) eq_refl Hst) as [Hf' Hw' _]. split; [exact Hf'|exact Hw'|].
      intros f' j t [= <- <- <-]. exists (with_chan c w). split; [|done]. cbn. apply list_lookup_insert_eq. by eapply lookup_lt_Some.
    + change (in_workers (mkPipeline _ _)) with (in_workers p2). rewrite app_nil_r in Hiw. cbn [app map]. rewrite Hiw. solve_Permutation.
  - split.
    + eapply (homed_same (set_decoders p2 s)); [by apply Hh2|done| |by left]. cbn. intros x j. by intros [_ ?]%lookup_delete_Some.
    + rewrite Hst. cbn [app]. change (in_workers (mkPipeline _ _)) with (in_workers p2). rewrite app_nil_r in Hiw. rewrite Hiw, map_app. cbn. solve_Permutation.
Qed.

(** *** One happening *)

Lemma event_conserves r clk started open s s' outs v :
  homed s → loop_step factory features (HEvent r clk started open) s = Ok (s', outs, v) →
  homed s' ∧ held s ++ arrived (HEvent r clk started open) ≡ₚ held s'.
Proof.
  intros Hh Hrun. cbn [loop_step] in Hrun. destruct (lp_stalled s) as [x|] eqn:Hst; [done|].
  destruct r as [[e|]|k| |]; [|injection Hrun as <- _ _; cbn [arrived]; by rewrite app_nil_r|injection Hrun as <- _ _; cbn [arrived]; by rewrite app_nil_r|done..].
  destruct (apply_changes (lp_model s) e) as [(f & -> & Ea)|[Hne Hall]].
  - rewrite Ea in Hrun. cbn [take_changes note_change] in Hrun.
    destruct (take_frame f clk started (set_model (lp_model s) s)) as [s1| |] eqn:Et; [|done..].
    cbn in Hrun. injection Hrun as <- _ _. 
    apply (take_frame_conserves f clk started (set_model (lp_model s) s)); [|done..].
    apply (same_frames_homed s); [by split_and!|done].
  - destruct (apply (lp_model s) e) as [model changes]. cbn [snd] in Hall.
    destruct (take_changes changes clk started open (set_model model s)) as [[[s1 o1] v1]| |] eqn:Et; [|done..].
    cbn [mbind outcome_bind] in Hrun. apply changes_same in Et; [|done].
    assert (Hs : same_frames s s1) by (eapply same_frames_trans; [|exact Et]; by split_and!).
    assert (s' = s1) as -> by (destruct v1; by injection Hrun as <- _ _).
    split; [by eapply same_frames_homed|]. rewrite (same_frames_held s s1 Hs).
    destruct e; cbn; rewrite ?app_nil_r; try done. by destruct (Hne m).
Qed.

Lemma room_conserves now s s' outs v :
  homed s → calm (HRoom now) s → loop_step factory features (HRoom now) s = Ok (s', outs, v) →
  homed s' ∧ held s ≡ₚ held s'.
Proof.
  intros Hh Hc Hrun. cbn [loop_step calm] in *. destruct (lp_stalled s) as [[[f i] t]|] eqn:Hst; [|done].
  destruct (threads (lp_decoders s) !! i) as [w|] eqn:Hw; [|done]. specialize (Hc w eq_refl).
  destruct (ho_stalled _ Hh f i t Hst) as (w' & Hw' & Ewin). rewrite Hw in Hw'. injection Hw' as <-.
  pose proof (try_reserve_view (w_chan w)) as Hr. pose proof (try_send_view (w_chan w) f) as Hv. unfold v_try_send in Hv. rewrite <- Hr in Hv.
  destruct (try_reserve (w_chan w)); [|done|done].
  destruct (on_read_stall _ _) as [lat| |]; [|done..]. cbn [mbind outcome_bind] in Hrun. injection Hrun as <- _ _.
  destruct (try_send (w_chan w) f) as [c r] eqn:Es. injection Hv as _ Er. cbn [snd] in Er. subst r.
  pose proof (send_moves w f c Sent Es) as Hmv. cbn [fst].
  pose proof (in_workers_insert _ i w (with_chan c w) Hw) as Hperm. rewrite Hmv in Hperm.
  split.
  - eapply (homed_thread s i w (with_chan c w)); [done|done|done| |done|by right].
    unfold worker_homed. rewrite Hmv. apply Forall_app. split; [exact (ho_frames _ Hh i w Hw)|by repeat constructor].
  - unfold held, stalled_frames. rewrite Hst. cbn [set_decoders set_latency set_stalled lp_decoders lp_stalled lp_reports app].
    apply Permutation_app_tail, Permutation_map. apply (Permutation_app_inv_r (frames_of w)). rewrite Hperm. solve_Permutation.
Qed.

Lemma thread_conserves i e s s' outs v :
  no_factory_panic factory → homed s → e = Pipeline.EvRecv i ∨ (∃ now, e = EvFinish i now true) ∨ e = EvLastSender i →
  thread_step factory e s = Ok (s', outs, v) → homed s' ∧ held s ≡ₚ held s'.
Proof.
  intros Hf Hh He Hrun. unfold thread_step in Hrun.
  destruct (sys_step factory (lp_decoders s) e) as [[p os]|] eqn:Es; [|done]. injection Hrun as <- _ _.
  destruct (thread_moves _ i e p os Hf (ho_frames _ Hh i) He Es) as (w & w' & Hw & -> & Ew & Hw' & Ek).
  split; [eapply (homed_thread s i w w'); eauto|].
  unfold held, stalled_frames. cbn [set_reports set_decoders lp_decoders lp_stalled lp_reports].
  fold (reports_of os). pose proof (in_workers_insert _ i w w' Hw) as Hperm.
  apply (Permutation_map frame_key) in Hperm. rewrite !map_app, Ek in Hperm. rewrite !map_app.
  assert (Hin : map frame_key (in_workers (set_thread (lp_decoders s) i w')) ++ map report_key (reports_of os) ≡ₚ
                map frame_key (in_workers (lp_decoders s))).
  { apply (Permutation_app_inv_r (map frame_key (frames_of w'))). rewrite <- app_assoc. exact Hperm. }
  rewrite <- Hin. solve_Permutation.
Qed.

Lemma send_some_state s m sent s' outs v : send_some (D:=D) s m sent = Ok (s', outs, v) → s' = s.
Proof. unfold send_some, after_send. destruct m, sent; intros Hrun; try done; by injection Hrun as <- _ _. Qed.

Lemma report_conserves sent s s' outs v :
  homed s → loop_step factory features (HReport sent) s = Ok (s', outs, v) →
  homed s' ∧ held s ≡ₚ held s' ++ map report_key (settled (HReport sent) s).
Proof.
  intros Hh Hrun. cbn [loop_step] in Hrun. cbn [settled]. destruct (lp_reports s) as [|r rest] eqn:Er; [done|].
  assert (Hs : threads (lp_decoders s') = threads (lp_decoders s) ∧ workers (lp_decoders s') = workers (lp_decoders s) ∧
               lp_stalled s' = lp_stalled s ∧ lp_reports s' = rest).
  { destruct r as [x f t|x f t]; [by injection Hrun as <- _ _|].
    destruct (on_dropped x f (lp_latency s)) as [lat| |]; [|done..]. cbn [mbind outcome_bind] in Hrun.
    apply send_some_state in Hrun as ->. by split_and!. }
  destruct Hs as (Et & Ew & Es & Er'). split.
  - eapply homed_same; [done|done| |by left]. intros x i. by rewrite Ew.
  - unfold held, stalled_frames, in_workers. rewrite Et, Es, Er', Er. cbn. solve_Permutation.
Qed.

Lemma other_conserves h s s' outs v :
  homed s → loop_step factory features h s = Ok (s', outs, v) →
  match h with HPing _ | HReportTick _ | HDisplay _ _ _ => True | _ => False end → same_frames s s'.
Proof.
  intros Hh Hrun Hk. destruct h as [| | |sent|now|e rd sent| | |]; try done; cbn [loop_step] in Hrun.
  - unfold after_send in Hrun. destruct sent; try done; injection Hrun as <- _ _; apply same_frames_refl.
  - destruct (negb _); [done|]. destruct (has_samples _); [|injection Hrun as <- _ _; apply same_frames_refl].
    destruct (report now (lp_latency s)) as [[r lat]| |]; [|done..]. injection Hrun as <- _ _. by split_and!.
  - destruct e as [e|]; [|injection Hrun as <- _ _; apply same_frames_refl].
    destruct (handle_display_event _ _ _ _ _ _ _) as [x| |]; [|done..]. cbn [mbind outcome_bind] in Hrun.
    apply send_some_state in Hrun as ->. by split_and!.
Qed.

Lemma step_conserves h s s' outs v :
  no_factory_panic factory → homed s → calm h s → loop_step factory features h s = Ok (s', outs, v) →
  homed s' ∧ held s ++ arrived h ≡ₚ held s' ++ map report_key (settled h s).
Proof.
  intros Hf Hh Hc Hrun.
  assert (Hother : same_frames s s' → arrived h = [] → settled h s = [] →
    homed s' ∧ held s ++ arrived h ≡ₚ held s' ++ map report_key (settled h s)).
  { intros Hs -> ->. split; [by eapply same_frames_homed|]. by rewrite (same_frames_held s s' Hs). }
  assert (Hthread : homed s' ∧ held s ≡ₚ held s' → arrived h = [] → settled h s = [] →
    homed s' ∧ held s ++ arrived h ≡ₚ held s' ++ map report_key (settled h s)).
  { intros [? Hp] -> ->. split; [done|]. cbn. by rewrite !app_nil_r. }
  destruct h as [r clk started open|now|sent|sent|now|e rd sent|i|i now open|i].
  - cbn [settled]. cbn [map]. rewrite app_nil_r. by eapply event_conserves.
  - apply Hthread; [by eapply room_conserves|done..].
  - cbn [arrived]. rewrite app_nil_r. by eapply report_conserves.
  - apply Hother; [by eapply other_conserves|done..].
  - apply Hother; [by eapply other_conserves|done..].
  - apply Hother; [by eapply other_conserves|done..].
  - apply Hthread; [|done..]. eapply (thread_conserves i (Pipeline.EvRecv i)); [done|done|by left|exact Hrun].
  - apply Hthread; [|done..]. cbn in Hc. subst open.
    eapply (thread_conserves i (EvFinish i now true)); [done|done|right; left; by exists now|exact Hrun].
  - apply Hthread; [|done..]. cbn [loop_step] in Hrun. eapply (thread_conserves i (EvLastSender i)); [done|done|by right; right|].
    destruct (lp_stalled s) as [[[f j] t]|]; [|exact Hrun]. destruct (i =? j)%nat; [done|exact Hrun].
Qed.

(** ** Decode times *)

Lemma fold_min_in (l : list (Z * Z)) : ∀ k, fold_left (λ m k, if key_ltb k m then k else m) l k ∈ k :: l.
Proof.
  induction l as [|x l IH]; intros k; cbn; [by constructor|]. specialize (IH (if key_ltb x k then x else k)).
  apply elem_of_cons in IH as [->|IH]; [|by do 2 right]. destruct (key_ltb x k); [right; left|left].
Qed.

Lemma times_record_bounded t x f d : (size t <= CAPACITY)%nat → (size (times_record t x f d) <= CAPACITY)%nat.
Proof.
  unfold times_record, DecodeTimes in *. intros Ht. set (t' := if (CAPACITY <=? size t)%nat then _ else t). assert (Hs : (size t' < CAPACITY)%nat).
  { unfold t'. destruct (CAPACITY <=? size t)%nat eqn:E; [|apply Nat.leb_gt in E; exact E].
    unfold min_key. destruct (map_to_list t).*1 as [|k ks] eqn:Ek.
    - apply (f_equal length) in Ek. rewrite length_fmap in Ek. pose proof (length_map_to_list t) as El. unfold CAPACITY in *. cbn [length] in Ek. lia.
    - pose proof (fold_min_in ks k) as Hk. rewrite <- Ek in Hk. apply list_elem_of_fmap in Hk as ([k' v] & Ekv & Hin).
      apply elem_of_map_to_list in Hin. cbn in Ekv. rewrite Ekv, map_size_delete_Some by (by exists v).
      assert (size t ≠ 0)%nat by (intros Hz; apply map_size_empty_iff in Hz; subst t; by rewrite lookup_empty in Hin). unfold CAPACITY in *. lia. }
  destruct (t' !! (x, f)) as [v|] eqn:E; [rewrite map_size_insert_Some by (by exists v)|rewrite map_size_insert_None by done]; lia.
Qed.

Lemma times_forget_size t x : (size (times_forget t x) <= size t)%nat.
Proof. apply map_subseteq_size, map_filter_subseteq. Qed.

Lemma times_take_size t x f d : (size (times_take t x f d).1 <= size t)%nat.
Proof. apply map_subseteq_size, delete_subseteq. Qed.

Lemma changes_times cs clk started open : ∀ s s' outs v,
  take_changes (D:=D) cs clk started open s = Ok (s', outs, v) → (size (lp_times s') <= size (lp_times s))%nat.
Proof.
  induction cs as [|c cs IH]; intros s s' outs v Hrun; cbn [take_changes] in Hrun; [by injection Hrun as <- _ _|].
  assert (Hn : (size (lp_times (note_change c (ac_instant clk) s)) <= size (lp_times s))%nat)
    by (unfold note_change; destruct c; repeat case_match; cbn; try done; apply times_forget_size).
  destruct (match c with ModelChange.Frame _ => _ | _ => _ end) as [[s1 cmd]| |] eqn:E; [|done..]. cbn [mbind outcome_bind] in Hrun.
  assert (Hs1 : lp_times s1 = lp_times (note_change c (ac_instant clk) s)).
  { destruct c; try (by injection E as <- _). unfold take_frame in E.
    destruct (on_arrival _ _) as [lat| |]; [|done..]. cbn [mbind outcome_bind] in E.
    destruct (submit _ _ _ _) as [[[p k] []]|]; [..|done]; by injection E as <- _. }
  rewrite <- Hs1 in Hn. destruct cmd as [cmd|]; [|apply IH in Hrun; lia].
  destruct open; [|injection Hrun as <- _ _; exact Hn].
  destruct (take_changes cs clk started true s1) as [[[s2 o2] v2]| |] eqn:E2; [|done..]. injection Hrun as <- _ _. apply IH in E2. lia.
Qed.

Lemma display_times rd m g lat t e x :
  handle_display_event features rd m g lat t e = Ok x → (size (hd_times x) <= size t)%nat.
Proof.
  intros Hrun. destruct e; cbn [handle_display_event] in Hrun; try (by injection Hrun as <-).
  - destruct (has_feature _ feature.WINDOW_CONTROL); [|by injection Hrun as <-].
    destruct (geo_resized _ _ _ _ _ _) as [g' r]; by injection Hrun as <-.
  - destruct (has_feature _ feature.WINDOW_CONTROL); [|by injection Hrun as <-].
    destruct (geo_moved _ _ _ _ _) as [g' r]; by injection Hrun as <-.
  - destruct (match rd_offset rd with Some _ => _ | None => _ end) as [lat'| |]; [|done..]. cbn [mbind outcome_bind times_take] in Hrun.
    injection Hrun as <-. apply (times_take_size t window_id frame_id decoded_us).
Qed.

(** If the worker is gone when room is looked for, the frame goes nowhere. *)
Lemma held_frame_lost s f i t w now lat :
  lp_stalled s = Some (f, i, t) → threads (lp_decoders s) !! i = Some w → try_reserve (w_chan w) = Closed →
  on_read_stall (sat_uint 64 (now - t)) (lp_latency s) = Ok lat →
  loop_step factory features (HRoom now) s = Ok (set_latency lat (set_stalled None s), [], Continue).
Proof. intros Hs Hw Hc Hl. cbn [loop_step]. by rewrite Hs, Hw, Hc, Hl. Qed.

(** ** Acknowledgements *)

Definition acked (outs : list loop_output) : list (Z * Z) :=
  omap (λ o, match o with ToAgent (Message.FrameAck a) => Some (fa_window_id a, fa_frame_id a) | _ => None end) outs.

Definition dropped (rs : list FrameReport) : list (Z * Z) :=
  omap (λ r, match r with Pipeline.Dropped x f _ => Some (x, f) | _ => None end) rs.

(** The frames whose decode was reported, which only the display can settle. *)
Definition decoded (rs : list FrameReport) : list (Z * Z) :=
  omap (λ r, match r with Decoded x f _ => Some (x, f) | _ => None end) rs.

Definition presented (h : happening) : list (Z * Z) :=
  match h with HDisplay (Some (DisplayEvent.Presented x f _ _)) _ _ => [(x, f)] | _ => [] end.

Lemma acked_app o1 o2 : acked (o1 ++ o2) = acked o1 ++ acked o2.
Proof. apply omap_app. Qed.

Lemma acked_display (cs : list DisplayCommand.t) : acked (map ToDisplay cs) = [].
Proof. by induction cs. Qed.

Lemma send_some_acked s m sent s' outs v :
  send_some (D:=D) s m sent = Ok (s', outs, v) → acked outs = acked (map ToAgent (option_list m)).
Proof.
  unfold send_some, after_send. destruct m as [m|]; [|by intros [= _ <- _]].
  destruct sent; intros Hrun; try done; injection Hrun as _ <- _; by rewrite ?acked_app, ?app_nil_r.
Qed.

Lemma changes_acked cs clk started open : ∀ s s' outs v,
  take_changes (D:=D) cs clk started open s = Ok (s', outs, v) → acked outs = [].
Proof.
  induction cs as [|c cs IH]; intros s s' outs v Hrun; cbn [take_changes] in Hrun; [by injection Hrun as _ <- _|].
  destruct (match c with ModelChange.Frame _ => _ | _ => _ end) as [[s1 cmd]| |]; [|done..]. cbn [mbind outcome_bind] in Hrun.
  destruct cmd as [cmd|]; [|by eapply IH]. destruct open; [|by injection Hrun as _ <- _].
  destruct (take_changes cs clk started true s1) as [[[s2 o2] v2]| |] eqn:E; [|done..].
  cbn in Hrun. injection Hrun as _ <- _. cbn. by eapply IH.
Qed.

Lemma pictures_acked (os : list output) :
  acked (omap (λ o, match o with OutDeliver _ f => Some (ToDisplay (DisplayCommand.Frame f)) | _ => None end) os) = [].
Proof. induction os as [|o os IH]; [done|]. by destruct o. Qed.

Lemma frame_ack_acked x f t1 t2 :
  has_feature features feature.FRAME_ACK = true →
  acked (map ToAgent (option_list (frame_ack features x f t1 t2))) = [(x, f)].
Proof. intros Hf. unfold frame_ack. by rewrite Hf. Qed.

Lemma display_acked rd m g lat t e x :
  has_feature features feature.FRAME_ACK = true →
  handle_display_event features rd m g lat t e = Ok x →
  acked (map ToAgent (option_list (hd_message x))) = presented (HDisplay (Some e) rd (Done ())).
Proof.
  intros Hf Hrun. destruct e; cbn [handle_display_event] in Hrun; try (by injection Hrun as <-; cbn; repeat case_match).
  - destruct (has_feature _ feature.WINDOW_CONTROL); [|by injection Hrun as <-].
    destruct (geo_resized _ _ _ _ _ _) as [g' [r|]]; by injection Hrun as <-.
  - destruct (has_feature _ feature.WINDOW_CONTROL); [|by injection Hrun as <-].
    destruct (geo_moved _ _ _ _ _) as [g' [r|]]; by injection Hrun as <-.
  - destruct (match rd_offset rd with Some _ => _ | None => _ end) as [lat'| |]; [|done..]. cbn [mbind outcome_bind times_take] in Hrun.
    injection Hrun as <-. by apply frame_ack_acked.
Qed.

Lemma step_acked h s s' outs v :
  has_feature features feature.FRAME_ACK = true → loop_step factory features h s = Ok (s', outs, v) →
  acked outs = dropped (settled h s) ++ presented h.
Proof.
  intros Hf Hrun. destruct h as [r clk started open|now|sent|sent|now|e rd sent|i|i now open|i]; cbn [loop_step settled presented dropped omap list_omap app] in *.
  - destruct (lp_stalled s); [done|]. destruct r as [[e|]|k| |]; try done; try (by injection Hrun as _ <- _).
    destruct (apply (lp_model s) e) as [model changes].
    destruct (take_changes changes clk started open (set_model model s)) as [[[s1 o1] v1]| |] eqn:Et; [|done..].
    cbn [mbind outcome_bind] in Hrun. apply changes_acked in Et. destruct v1; by injection Hrun as _ <- _.
  - destruct (lp_stalled s) as [[[f i] t]|]; [|done]. destruct (threads _ !! i) as [w|]; [|done].
    destruct (try_reserve (w_chan w)); try done; destruct (on_read_stall _ _) as [lat| |]; try done; by injection Hrun as _ <- _.
  - destruct (lp_reports s) as [|[x f t|x f t] rest]; [done|by injection Hrun as _ <- _|].
    destruct (on_dropped x f (lp_latency s)) as [lat| |]; [|done..]. cbn [mbind outcome_bind] in Hrun.
    apply send_some_acked in Hrun. rewrite Hrun. rewrite frame_ack_acked by done. done.
  - unfold after_send in Hrun. destruct sent; try done; by injection Hrun as _ <- _.
  - destruct (negb _); [done|]. destruct (has_samples _); [|by injection Hrun as _ <- _].
    destruct (report now (lp_latency s)) as [[r lat]| |]; [|done..]. by injection Hrun as _ <- _.
  - destruct e as [e|]; [|by injection Hrun as _ <- _].
    destruct (handle_display_event _ _ _ _ _ _ _) as [x| |] eqn:Eh; [|done..]. cbn [mbind outcome_bind] in Hrun.
    apply send_some_acked in Hrun. rewrite Hrun. by eapply display_acked.
  - unfold thread_step in Hrun. destruct (sys_step _ _ _) as [[p os]|]; [|done]. injection Hrun as _ <- _. apply pictures_acked.
  - unfold thread_step in Hrun. destruct (sys_step _ _ _) as [[p os]|]; [|done]. injection Hrun as _ <- _. apply pictures_acked.
  - assert (Ht : thread_step factory (EvLastSender i) s = Ok (s', outs, v))
      by (destruct (lp_stalled s) as [[[f j] t]|]; [destruct (i =? j)%nat; [done|exact Hrun]|exact Hrun]).
    unfold thread_step in Ht. destruct (sys_step _ _ _) as [[p os]|]; [|done]. injection Ht as _ <- _. apply pictures_acked.
Qed.
(** ** Runs *)

Fixpoint settled_over (hs : list happening) s : list FrameReport :=
  match hs with
  | [] => []
  | h :: hs => settled h s ++ match loop_step factory features h s with Ok (s, _, _) => settled_over hs s | _ => [] end
  end.

Fixpoint calm_over (hs : list happening) s : Prop :=
  match hs with
  | [] => True
  | h :: hs => calm h s ∧ match loop_step factory features h s with Ok (s, _, _) => calm_over hs s | _ => True end
  end.

(** A run is its first happening and the rest of it, if the loop went on. *)
Lemma run_cases h hs s s' outs v :
  loop_run factory features (h :: hs) s = Ok (s', outs, v) →
  ∃ s1 o1 o2, loop_step factory features h s = Ok (s1, o1, if decide (hs = []) then v else Continue) ∧
    outs = o1 ++ o2 ∧ loop_run factory features hs s1 = Ok (s', o2, if decide (hs = []) then Continue else v).
Proof.
  cbn [loop_run]. destruct (loop_step factory features h s) as [[[s1 o1] v1]| |] eqn:E; [|done..]. cbn [mbind outcome_bind].
  destruct v1 as [|r].
  - destruct (loop_run factory features hs s1) as [[[s2 o2] v2]| |] eqn:E2; [|done..]. cbn. intros [= <- <- <-].
    exists s1, o1, o2. case_decide as Hd; [|done]. subst hs. cbn in E2. by injection E2 as <- <- <-.
  - destruct hs; [|done]. intros [= <- <- <-]. exists s1, o1, []. by rewrite app_nil_r.
Qed.

Lemma run_conserves hs : ∀ s s' outs v,
  no_factory_panic factory → has_feature features feature.FRAME_ACK = true → homed s → calm_over hs s →
  loop_run factory features hs s = Ok (s', outs, v) →
  held s ++ concat (map arrived hs) ≡ₚ held s' ++ map report_key (settled_over hs s) ∧
  acked outs ≡ₚ dropped (settled_over hs s) ++ concat (map presented hs).
Proof.
  induction hs as [|h hs IH]; intros s s' outs v Hf Ha Hh Hc Hrun; [by injection Hrun as <- <- <-|].
  apply run_cases in Hrun as (s1 & o1 & o2 & Hs & -> & Hrun). cbn [settled_over calm_over map concat] in *. rewrite Hs in Hc |- *.
  destruct Hc as [Hc1 Hc2]. destruct (step_conserves _ _ _ _ _ Hf Hh Hc1 Hs) as [Hh1 Hp].
  destruct (IH _ _ _ _ Hf Ha Hh1 Hc2 Hrun) as [Hp2 Hk2]. pose proof (step_acked _ _ _ _ _ Ha Hs) as Hk.
  split.
  - rewrite map_app, app_assoc, Hp, <- app_assoc, (Permutation_app_comm (map report_key (settled h s))), app_assoc, Hp2. solve_Permutation.
  - rewrite acked_app, Hk, Hk2. unfold dropped. rewrite omap_app. solve_Permutation.
Qed.

Lemma homed_new lat : homed (Loop_new lat).
Proof. by split. Qed.

Lemma reports_split rs : map report_key rs ≡ₚ dropped rs ++ decoded rs.
Proof. induction rs as [|[x f t|x f t] rs IH]; cbn; [done|rewrite IH; solve_Permutation|by rewrite IH]. Qed.

(** Decoded frames that are never presented do not pile up. *)
Lemma step_times h s s' outs v :
  loop_step factory features h s = Ok (s', outs, v) → (size (lp_times s) <= CAPACITY)%nat → (size (lp_times s') <= CAPACITY)%nat.
Proof.
  intros Hrun Ht. destruct h as [r clk started open|now|sent|sent|now|e rd sent|i|i now open|i]; cbn [loop_step] in Hrun.
  - destruct (lp_stalled s); [done|]. destruct r as [[e|]|k| |]; try done; [|by injection Hrun as <- _ _..].
    destruct (apply (lp_model s) e) as [model changes].
    destruct (take_changes changes clk started open (set_model model s)) as [[[s1 o1] v1]| |] eqn:Et; [|done..].
    cbn [mbind outcome_bind] in Hrun. apply changes_times in Et. cbn in Et. destruct v1; injection Hrun as <- _ _; lia.
  - destruct (lp_stalled s) as [[[f i] t]|]; [|done]. destruct (threads _ !! i) as [w|]; [|done].
    destruct (try_reserve (w_chan w)); try done; destruct (on_read_stall _ _) as [lat| |]; try done; by injection Hrun as <- _ _.
  - destruct (lp_reports s) as [|[x f t|x f t] rest]; [done|injection Hrun as <- _ _; by apply times_record_bounded|].
    destruct (on_dropped x f (lp_latency s)) as [lat| |]; [|done..]. by apply send_some_state in Hrun as ->.
  - unfold after_send in Hrun. destruct sent; try done; by injection Hrun as <- _ _.
  - destruct (negb _); [done|]. destruct (has_samples _); [|by injection Hrun as <- _ _].
    destruct (report now (lp_latency s)) as [[r lat]| |]; [|done..]. by injection Hrun as <- _ _.
  - destruct e as [e|]; [|by injection Hrun as <- _ _].
    destruct (handle_display_event _ _ _ _ _ _ _) as [x| |] eqn:Eh; [|done..]. cbn [mbind outcome_bind] in Hrun.
    apply send_some_state in Hrun as ->. cbn. apply display_times in Eh. lia.
  - unfold thread_step in Hrun. destruct (sys_step _ _ _) as [[p os]|]; [|done]. by injection Hrun as <- _ _.
  - unfold thread_step in Hrun. destruct (sys_step _ _ _) as [[p os]|]; [|done]. by injection Hrun as <- _ _.
  - destruct (lp_stalled s) as [[[f j] t]|]; [destruct (i =? j)%nat; [done|]|]; unfold thread_step in Hrun;
      (destruct (sys_step _ _ _) as [[p os]|]; [|done]); by injection Hrun as <- _ _.
Qed.

Lemma run_times hs : ∀ s s' outs v,
  loop_run factory features hs s = Ok (s', outs, v) → (size (lp_times s) <= CAPACITY)%nat → (size (lp_times s') <= CAPACITY)%nat.
Proof.
  induction hs as [|h hs IH]; intros s s' outs v Hrun Ht; [by injection Hrun as <- _ _|].
  apply run_cases in Hrun as (s1 & o1 & o2 & Hs & _ & Hrun). eapply IH; [exact Hrun|]. by eapply step_times.
Qed.

(** ** Commands *)

Definition events_of (hs : list happening) : list ClientEvent.t :=
  omap (λ h, match h with HEvent (Done (Some e)) _ _ _ => Some e | _ => None end) hs.

Definition commands_to (outs : list loop_output) : list DisplayCommand.t :=
  omap (λ o, match o with ToDisplay c => Some c | _ => None end) outs.

Definition is_picture (c : DisplayCommand.t) : bool := match c with DisplayCommand.Frame _ => true | _ => false end.
Definition is_shutdown (c : DisplayCommand.t) : bool := match c with DisplayCommand.Shutdown => true | _ => false end.

Lemma commands_to_app o1 o2 : commands_to (o1 ++ o2) = commands_to o1 ++ commands_to o2.
Proof. apply omap_app. Qed.

Lemma note_change_model c t s : lp_model (note_change (D:=D) c t s) = lp_model s.
Proof. unfold note_change. by destruct c; repeat case_match. Qed.

Lemma take_frame_model f clk started s s' : take_frame (D:=D) f clk started s = Ok s' → lp_model s' = lp_model s.
Proof.
  unfold take_frame. destruct (on_arrival _ _) as [lat| |]; [|done..]. cbn [mbind outcome_bind].
  destruct (submit _ _ _ _) as [[[p k] []]|]; [..|done]; by intros [= <-].
Qed.

(** The changes of an event become commands, all of them unless the display is gone. *)
Lemma changes_commands cs clk started open : ∀ s s' outs v,
  take_changes (D:=D) cs clk started open s = Ok (s', outs, v) →
  lp_model s' = lp_model s ∧
  ((v = Continue ∧ outs = map ToDisplay (omap (display_command_for_change (lp_model s)) cs)) ∨
   (open = false ∧ v = Return (Done ()) ∧ outs = [])).
Proof.
  induction cs as [|c cs IH]; intros s s' outs v Hrun; cbn [take_changes] in Hrun; [injection Hrun as <- <- <-; by auto|].
  assert (Hx : ∃ s1, (match c with ModelChange.Frame f => s ← take_frame f clk started (note_change c (ac_instant clk) s); Ok (s, None)
      | other => Ok (note_change c (ac_instant clk) s, display_command_for_change (lp_model (note_change c (ac_instant clk) s)) other) end)
      = Ok (s1, display_command_for_change (lp_model s) c) ∧ lp_model s1 = lp_model s).
  { destruct c as [| | | | | | |f| | | | |]; try (eexists; rewrite note_change_model; split; [done|apply note_change_model]).
    destruct (take_frame f clk started _) as [s1| |] eqn:Et; [|done..]. exists s1. split; [done|].
    apply take_frame_model in Et. by rewrite Et, note_change_model. }
  destruct Hx as (s1 & Hx & Hm). setoid_rewrite Hx in Hrun. clear Hx. cbn [mbind outcome_bind] in Hrun. cbn [omap list_omap].
  destruct (display_command_for_change (lp_model s) c) as [cmd|] eqn:Ec.
  - destruct open; [|injection Hrun as <- <- <-; by auto].
    destruct (take_changes cs clk started true s1) as [[[s2 o2] v2]| |] eqn:E; [|done..]. cbn in Hrun. injection Hrun as <- <- <-.
    destruct (IH _ _ _ _ E) as [Em [[-> ->]|(? & _)]]; [|done]. rewrite Em, Hm. by auto.
  - destruct (IH _ _ _ _ Hrun) as [Em Hv]. rewrite Em, Hm in *. by auto.
Qed.

Lemma commands_to_display cs : commands_to (map ToDisplay cs) = cs.
Proof. induction cs as [|c cs IH]; [done|]. cbn. f_equal. exact IH. Qed.

(** Outside an event, only the decode threads talk to the display, in pictures;
    an error that ends the loop adds the shutdown. *)
Lemma step_commands h s s' outs v :
  loop_step factory features h s = Ok (s', outs, v) →
  match h with
  | HEvent (Done (Some e)) _ _ _ =>
    lp_model s' = (apply (lp_model s) e).1 ∧
    ((commands_to outs = (commands_of (lp_model s) e).2 ∧ v = if is_closed_event e then Return (Done ()) else Continue) ∨
     (outs = [] ∧ v = Return (Done ())))
  | _ =>
    lp_model s' = lp_model s ∧ ∃ cs, Forall (λ c, is_picture c = true) cs ∧
    match v with
    | Continue => commands_to outs = cs
    | Return (Done ()) => commands_to outs = cs ∨ commands_to outs = cs ++ [DisplayCommand.Shutdown]
    | Return _ => commands_to outs = cs ++ [DisplayCommand.Shutdown]
    end
  end.
Proof.
  intros Hrun.
  assert (Hsend : ∀ s1 m sent, lp_model s1 = lp_model s → send_some s1 m sent = Ok (s', outs, v) →
    lp_model s' = lp_model s ∧ ∃ cs, Forall (λ c, is_picture c = true) cs ∧
    match v with
    | Continue => commands_to outs = cs
    | Return (Done ()) => commands_to outs = cs ∨ commands_to outs = cs ++ [DisplayCommand.Shutdown]
    | Return _ => commands_to outs = cs ++ [DisplayCommand.Shutdown]
    end).
  { intros s1 m sent Hm Hs. pose proof (send_some_state _ _ _ _ _ _ Hs) as ->. split; [done|]. exists []. split; [constructor|].
    unfold send_some, after_send in Hs. destruct m; [|by injection Hs as <- <-]. destruct sent; try done; by injection Hs as <- <-. }
  assert (Hthread : ∀ e, thread_step factory e s = Ok (s', outs, v) →
    lp_model s' = lp_model s ∧ ∃ cs, Forall (λ c, is_picture c = true) cs ∧
    match v with
    | Continue => commands_to outs = cs
    | Return (Done ()) => commands_to outs = cs ∨ commands_to outs = cs ++ [DisplayCommand.Shutdown]
    | Return _ => commands_to outs = cs ++ [DisplayCommand.Shutdown]
    end).
  { intros e Hs. unfold thread_step in Hs. destruct (sys_step factory (lp_decoders s) e) as [[p os]|]; [|done].
    injection Hs as <- <- <-. split; [done|]. eexists. split; [|done]. clear.
    induction os as [|o os IH]; [constructor|]. destruct o; try exact IH. by constructor. }
  destruct h as [r clk started open|now|sent|sent|now|e rd sent|i|i now open|i]; cbn [loop_step] in Hrun.
  - destruct (lp_stalled s); [done|]. destruct r as [[e|]|k| |]; try done.
    + unfold commands_of. destruct (apply (lp_model s) e) as [model changes]. cbn [fst snd].
      destruct (take_changes changes clk started open (set_model model s)) as [[[s1 o1] v1]| |] eqn:Et; [|done..].
      cbn [mbind outcome_bind] in Hrun. apply changes_commands in Et as [Em [[-> ->]|(_ & -> & ->)]]; injection Hrun as <- <- <-.
      * split; [done|]. left. by rewrite commands_to_display.
      * split; [done|]. by right.
    + injection Hrun as <- <- <-. split; [done|]. exists []. split; [constructor|by right].
    + injection Hrun as <- <- <-. split; [done|]. by exists [].
  - destruct (lp_stalled s) as [[[f i] t]|]; [|done]. destruct (threads _ !! i) as [w|]; [|done].
    destruct (try_reserve (w_chan w)); try done; destruct (on_read_stall _ _) as [lat| |]; try done;
      injection Hrun as <- <- <-; (split; [done|]; by exists []).
  - destruct (lp_reports s) as [|[x f t|x f t] rest]; [done|injection Hrun as <- <- <-; split; [done|]; by exists []|].
    destruct (on_dropped x f (lp_latency s)) as [lat| |]; [|done..]. by eapply Hsend; [|exact Hrun].
  - unfold after_send in Hrun. destruct sent; try done; injection Hrun as <- <- <-; (split; [done|]; by exists []).
  - destruct (negb _); [done|]. destruct (has_samples _); [|injection Hrun as <- <- <-; split; [done|]; by exists []].
    destruct (report now (lp_latency s)) as [[r lat]| |]; [|done..]. injection Hrun as <- <- <-; split; [done|]; by exists [].
  - destruct e as [e|]; [|injection Hrun as <- <- <-; split; [done|]; exists []; by auto].
    destruct (handle_display_event _ _ _ _ _ _ _) as [x| |] eqn:Eh; [|done..]. by eapply Hsend; [|exact Hrun].
  - by eapply Hthread.
  - by eapply Hthread.
  - destruct (lp_stalled s) as [[[f j] t]|]; [destruct (i =? j)%nat; [done|]|]; by eapply Hthread.
Qed.

Lemma feed_pictures (b : Mirror) cs : Forall (λ c, is_picture c = true) cs → feed b cs = b.
Proof. induction 1 as [|c cs Hc Hcs IH]; [done|]. destruct c; done. Qed.

(** While the loop goes on, the mirror of the display is the model's. *)
Lemma run_mirrors hs : ∀ s s' outs (b : Mirror),
  model_inv (lp_model s) → mirrors (lp_model s) b → loop_run factory features hs s = Ok (s', outs, Continue) →
  lp_model s' = fold_left (λ m e, (apply m e).1) (events_of hs) (lp_model s) ∧
  mirrors (lp_model s') (feed b (commands_to outs)) ∧ model_inv (lp_model s').
Proof.
  induction hs as [|h hs IH]; intros s s' outs b Hi Hb Hrun; [by injection Hrun as <- <-|].
  apply run_cases in Hrun as (s1 & o1 & o2 & Hs & -> & Hrun).
  replace (if decide (hs = []) then Continue else Continue) with Continue in Hs, Hrun by by case_decide.
  apply step_commands in Hs. rewrite commands_to_app, feed_app.
  assert (Hother : lp_model s1 = lp_model s → events_of (h :: hs) = events_of hs →
    (∃ cs, Forall (λ c, is_picture c = true) cs ∧ commands_to o1 = cs) →
    lp_model s' = fold_left (λ m e, (apply m e).1) (events_of (h :: hs)) (lp_model s) ∧
    mirrors (lp_model s') (feed (feed b (commands_to o1)) (commands_to o2)) ∧ model_inv (lp_model s')).
  { intros Em -> (cs & Hcs & ->). rewrite (feed_pictures b cs Hcs). rewrite <- Em in Hi, Hb |- *. exact (IH s1 s' o2 b Hi Hb Hrun). }
  destruct h as [r clk started open|now|sent|sent|now|e rd sent|i|i now open|i]; try (apply Hother; [apply Hs|done|apply Hs]).
  destruct r as [[e|]|k| |]; try (apply Hother; [apply Hs|done|apply Hs]).
  destruct Hs as [Em [[Ec Ev]|[_ ?]]]; [|done]. cbn [events_of omap list_omap fold_left]. rewrite Ec, <- Em.
  pose proof (step_mirrors (lp_model s) b e Hi Hb) as Hb1. pose proof (apply_inv (lp_model s) e Hi) as Hi1. rewrite <- Em in Hi1.
  eapply IH; [exact Hi1| |exact Hrun]. unfold commands_of in *. destruct (apply (lp_model s) e) as [m cs]. cbn [fst snd] in *. by subst m.
Qed.

(** The shutdown comes only from the end of the session. *)
Lemma command_shutdown m c cmd :
  display_command_for_change m c = Some cmd → is_shutdown cmd = match c with ModelChange.Closed => true | _ => false end.
Proof. destruct c; cbn; try destruct (model_get m id) as [w|]; intros Hc; cbn in Hc; try done; by injection Hc as <-. Qed.

Lemma stream_shutdowns m e :
  is_closed_event e = false → Forall (λ c, is_shutdown c = false) (commands_of m e).2.
Proof.
  intros He. unfold commands_of. assert (Hcs : Forall (λ c, c ≠ ModelChange.Closed) (apply m e).2).
  { destruct e; try done; cbn; unfold on_opened, on_geometry, on_title, on_state, on_zorder, on_icon, on_closed;
      repeat case_match; simplify_eq; cbn; repeat constructor; done. }
  destruct (apply m e) as [m' cs]. cbn [snd] in *. induction Hcs as [|c cs Hc Hcs IH]; [constructor|]. cbn.
  destruct (display_command_for_change m' c) as [cmd|] eqn:Ec; [|exact IH]. constructor; [|exact IH].
  rewrite (command_shutdown _ _ _ Ec). by destruct c.
Qed.

Definition quiet_commands (outs : list loop_output) : Prop := Forall (λ c, is_shutdown c = false) (commands_to outs).

Lemma pictures_no_shutdown cs : Forall (λ c, is_picture c = true) cs → Forall (λ c, is_shutdown c = false) cs.
Proof. induction 1 as [|c cs Hc Hcs IH]; constructor; [by destruct c|exact IH]. Qed.

(** Nothing follows the shutdown, and an error never leaves without it. *)
Definition ends_well (outs : list loop_output) (v : verdict) : Prop :=
  match v with
  | Continue => quiet_commands outs
  | Return r =>
    (r = Done () ∧ quiet_commands outs) ∨
    ∃ pre, Forall (λ c, is_shutdown c = false) pre ∧ commands_to outs = pre ++ [DisplayCommand.Shutdown]
  end.

Lemma step_shutdown h s s' outs v : loop_step factory features h s = Ok (s', outs, v) → ends_well outs v.
Proof.
  intros Hs. apply step_commands in Hs.
  assert (Hother : (∃ cs, Forall (λ c, is_picture c = true) cs ∧
    match v with
    | Continue => commands_to outs = cs
    | Return (Done ()) => commands_to outs = cs ∨ commands_to outs = cs ++ [DisplayCommand.Shutdown]
    | Return _ => commands_to outs = cs ++ [DisplayCommand.Shutdown]
    end) → ends_well outs v).
  { intros (cs & Hcs%pictures_no_shutdown & Hv). unfold ends_well, quiet_commands. destruct v as [|[[]| | |]]; try (right; by exists cs).
    - by rewrite Hv.
    - destruct Hv as [-> | ->]; [by left|right; by exists cs]. }
  destruct h as [[[e|]| | |] clk started open| | | | | | | |]; try (apply Hother, Hs). clear Hother.
  destruct Hs as [_ [[Ec ->]|[-> ->]]]; [|left; split; [done|constructor]].
  destruct (is_closed_event e) eqn:He; unfold ends_well, quiet_commands; rewrite Ec; [|by apply stream_shutdowns].
  destruct e; try done. right. by exists [].
Qed.

Lemma run_shutdown hs : ∀ s s' outs v, loop_run factory features hs s = Ok (s', outs, v) → ends_well outs v.
Proof.
  induction hs as [|h hs IH]; intros s s' outs v Hrun; [injection Hrun as _ <- <-; constructor|].
  apply run_cases in Hrun as (s1 & o1 & o2 & Hs & -> & Hrun). apply step_shutdown in Hs. pose proof Hrun as Hrest. apply IH in Hrun.
  case_decide as Hd.
  - subst hs. cbn in Hrest. injection Hrest as _ <-. by rewrite app_nil_r.
  - unfold ends_well, quiet_commands in *. rewrite commands_to_app. destruct v as [|r]; [by apply Forall_app|].
    destruct Hrun as [[-> Hq]|(pre & Hq & ->)]; [left; split; [done|]; by apply Forall_app|].
    right. exists (commands_to o1 ++ pre). split; [by apply Forall_app|by rewrite app_assoc].
Qed.
End Flow.


(** C6: as long as the loop goes on, whatever else happens between the events of
    the agent (frames, reports, pings, what the display reports), the window
    model is what the events make of it in order, and a display that sees only
    the commands the loop sends holds exactly the model's windows, in stacking
    order, with their current title, geometry, state and icon. *)
Theorem loop_drives_display `{ChannelLaws FrameData} {D : Type} `{Decoder D} (factory : Z → Z → outcome DecodeError D) features lat hs s outs :
  loop_run factory features hs (Loop_new lat) = Ok (s, outs, Continue) →
  let shown := feed (mkMirror [] true) (commands_to outs) in
  lp_model s = fold_left (λ m e, (apply m e).1) (events_of hs) WindowModel_new ∧
  mr_windows shown = omap (spec_of (lp_model s)) (stack (lp_model s)) ∧
  mr_cursor_visible shown = cursor_visible (lp_model s) ∧
  map sp_window_id (mr_windows shown) = stack (lp_model s).
Proof.
  intros Hrun. destruct (run_mirrors factory features hs (Loop_new lat) s outs (mkMirror [] true) model_inv_new (conj eq_refl eq_refl) Hrun)
    as (Em & [Hw Hc] & Hi).
  cbv zeta. split_and!; [exact Em|exact Hw|exact Hc|]. rewrite Hw.
  by apply spec_of_ids.
Qed.


(** The eviction goes by window first: with the table full, the newest frame of
    window 1 leaves before the oldest of window 2. *)
Lemma evicts_by_window :
  let record t k := times_record t k.1 k.2 k.2 in
  let t := fold_left record (map (λ n, (2, Z.of_nat n)) (seq 1 63)) ∅ in
  let t := record (record t (1, 900)) (2, 901) in
  t !! (1, 900) = None ∧ t !! (2, 1) = Some 1 ∧ size t = CAPACITY.
Proof. vm_compute. auto. Qed.

(** ** At a small session *)

Definition clocks : arrival_clock := mkArrivalClock 10 11 12 13.
Definition short_frame (id : Z) : FrameData := mkFrameData 7 id codec.RAW_BGRA 1 1 1 10 20 [1; 2; 3].

(** A window; a frame that is presented and one whose pixels are missing. *)
Definition small_session : list happening :=
  [HEvent (Done (Some (ClientEvent.WindowOpened (example_window 7)))) clocks true true;
   HEvent (Done (Some (ClientEvent.Frame (pixel_frame 1)))) clocks true true;
   HRecv 0;
   HEvent (Done (Some (ClientEvent.Frame (short_frame 2)))) clocks true true;
   HFinish 0 30 true; HReport (Done ()); HPing (Done ());
   HDisplay (Some (DisplayEvent.Presented 7 1 31 32)) (mkReading 33 33 None) (Done ());
   HRecv 0; HFinish 0 40 true; HReport (Done ())].

Lemma raw_no_panic : no_factory_panic raw_factory.
Proof. done. Qed.


Lemma loop_drives_display_witness :
  ∃ s outs, loop_run raw_factory feature.FRAME_ACK small_session (Loop_new disabled) = Ok (s, outs, Continue) ∧
    map sp_window_id (mr_windows (feed (mkMirror [] true) (commands_to outs))) = stack (lp_model s) ∧ stack (lp_model s) = [7].
Proof.
  destruct (loop_run raw_factory feature.FRAME_ACK small_session (Loop_new disabled)) as [[[s outs] [|]]| |] eqn:E;
    [|vm_compute in E; discriminate..].
  exists s, outs. split; [done|].
  destruct (loop_drives_display raw_factory feature.FRAME_ACK disabled small_session s outs E) as (Em & _ & _ & H1).
  split; [exact H1|]. rewrite Em. reflexivity.
Defined.

