(* ===== verification/Inject.v ===== *)
(** * The agent's input on Windows

    [crates/oxagent/src/win/input.rs]: [WinInputSink], which turns the calls of
    the session into [SendInput] events, and [frame_bounds] of [enumerate.rs],
    the rectangle pointer positions are relative to. The functions of Win32 are
    the class [Win32] over the state of the desktop; its constants are written
    out. A sink carries the desktop it injects into. *)

From S2P Require Import Prelude MsgInput Scancode Channel Serve.

(** ** Win32 *)

Record RECT : Type := mkRect { rc_left : Z; rc_top : Z; rc_right : Z; rc_bottom : Z }.

(** [INPUT]: [KEYBDINPUT] with [wVk] zero, or [MOUSEINPUT]. *)
Inductive INPUT : Type :=
| Keyboard (wScan dwFlags : Z)
| Mouse (dx dy mouseData dwFlags : Z).

Definition KEYEVENTF_EXTENDEDKEY : Z := 0x1.
Definition KEYEVENTF_KEYUP : Z := 0x2.
Definition KEYEVENTF_UNICODE : Z := 0x4.
Definition KEYEVENTF_SCANCODE : Z := 0x8.

Definition MOUSEEVENTF_MOVE : Z := 0x1.
Definition MOUSEEVENTF_LEFTDOWN : Z := 0x2.
Definition MOUSEEVENTF_LEFTUP : Z := 0x4.
Definition MOUSEEVENTF_RIGHTDOWN : Z := 0x8.
Definition MOUSEEVENTF_RIGHTUP : Z := 0x10.
Definition MOUSEEVENTF_MIDDLEDOWN : Z := 0x20.
Definition MOUSEEVENTF_MIDDLEUP : Z := 0x40.
Definition MOUSEEVENTF_XDOWN : Z := 0x80.
Definition MOUSEEVENTF_XUP : Z := 0x100.
Definition MOUSEEVENTF_WHEEL : Z := 0x800.
Definition MOUSEEVENTF_HWHEEL : Z := 0x1000.
Definition MOUSEEVENTF_VIRTUALDESK : Z := 0x4000.
Definition MOUSEEVENTF_ABSOLUTE : Z := 0x8000.
Definition XBUTTON1 : Z := 1.
Definition XBUTTON2 : Z := 2.

Definition VK_CAPITAL : Z := 0x14.
Definition VK_NUMLOCK : Z := 0x90.
Definition VK_SCROLL : Z := 0x91.
Definition VK_LSHIFT : Z := 0xA0.
Definition VK_RSHIFT : Z := 0xA1.
Definition VK_LCONTROL : Z := 0xA2.
Definition VK_RCONTROL : Z := 0xA3.
Definition VK_LMENU : Z := 0xA4.
Definition VK_RMENU : Z := 0xA5.
Definition VK_LWIN : Z := 0x5B.
Definition VK_RWIN : Z := 0x5C.

Definition SM_XVIRTUALSCREEN : Z := 76.
Definition SM_YVIRTUALSCREEN : Z := 77.
Definition SM_CXVIRTUALSCREEN : Z := 78.
Definition SM_CYVIRTUALSCREEN : Z := 79.

Definition SW_MAXIMIZE : Z := 3.
Definition SW_MINIMIZE : Z := 6.
Definition SW_RESTORE : Z := 9.
Definition SWP_NOSIZE : Z := 0x1.
Definition SWP_NOMOVE : Z := 0x2.
Definition SWP_NOZORDER : Z := 0x4.
Definition SWP_NOACTIVATE : Z := 0x10.
Definition WM_CLOSE : Z := 0x10.

Class Win32 (G : Type) : Type := {
  (** [DwmGetWindowAttribute] of the extended frame bounds. *)
  ExtendedFrameBounds : G → Z → option RECT;
  GetWindowRect : G → Z → option RECT;
  GetForegroundWindow : G → Z;
  SetForegroundWindow : G → Z → G;
  BringWindowToTop : G → Z → G;
  GetWindowThreadProcessId : G → Z → Z;
  GetCurrentThreadId : G → Z;
  AttachThreadInput : G → Z → Z → bool → G * bool;
  GetSystemMetrics : G → Z → Z;
  GetAsyncKeyState : G → Z → Z;
  GetKeyState : G → Z → Z;
  SendInput : G → list INPUT → G;
  PostMessageW : G → Z → Z → G;
  ShowWindow : G → Z → Z → G;
  SetWindowPos : G → Z → Z → Z → Z → Z → Z → G
}.

(** ** Building inputs *)

Definition down_up (held : bool) (down up : Z) : Z := if held then down else up.

Definition scan_input (scancode : Z) (extended pressed : bool) : INPUT :=
  let flags := KEYEVENTF_SCANCODE in
  let flags := if extended then Z.lor flags KEYEVENTF_EXTENDEDKEY else flags in
  let flags := if negb pressed then Z.lor flags KEYEVENTF_KEYUP else flags in
  Keyboard scancode flags.

Definition unicode_input (utf16_unit : Z) (key_up : bool) : INPUT :=
  let flags := KEYEVENTF_UNICODE in
  let flags := if key_up then Z.lor flags KEYEVENTF_KEYUP else flags in
  Keyboard utf16_unit flags.

Definition mouse_input (dx dy mouse_data flags : Z) : INPUT := Mouse dx dy mouse_data flags.

(** [str::chars], on the bytes of a [str]. *)
Fixpoint chars (bs : list Z) : list Z :=
  match bs with
  | [] => []
  | b :: r =>
    if b <? 0x80 then b :: chars r
    else if b <? 0xE0 then
      match r with
      | c1 :: r1 => (Z.land b 0x1F * 2 ^ 6 + Z.land c1 0x3F) :: chars r1
      | _ => []
      end
    else if b <? 0xF0 then
      match r with
      | c1 :: c2 :: r2 => (Z.land b 0xF * 2 ^ 12 + Z.land c1 0x3F * 2 ^ 6 + Z.land c2 0x3F) :: chars r2
      | _ => []
      end
    else
      match r with
      | c1 :: c2 :: c3 :: r3 =>
        (Z.land b 0x7 * 2 ^ 18 + Z.land c1 0x3F * 2 ^ 12 + Z.land c2 0x3F * 2 ^ 6 + Z.land c3 0x3F) :: chars r3
      | _ => []
      end
  end.

(** [str::encode_utf16] *)
Definition utf16_of (c : Z) : list Z :=
  if c <? 0x10000 then [c]
  else let c := c - 0x10000 in [0xD800 + c / 2 ^ 10; 0xDC00 + c mod 2 ^ 10].

Definition encode_utf16 (bs : list Z) : list Z := flat_map utf16_of (chars bs).

(** ** Coordinates *)

(** On [i32] arguments; what is in between fits the types the code uses (lemma
    [normalize_fits]). *)
Definition normalize (value origin extent : Z) : Z :=
  if extent <=? 1 then 0
  else
    let last := sat_sint 32 (origin + (extent - 1)) in
    let clamped := Z.max origin (Z.min value last) in
    (clamped - origin) * 65535 / (extent - 1).

Section Sink.
Context {G : Type} `{Win32 G}.

Definition frame_bounds (g : G) (hwnd : Z) : option RECT :=
  match ExtendedFrameBounds g hwnd with Some rect => Some rect | None => GetWindowRect g hwnd end.

Definition virtual_desktop_rect (g : G) : Z * Z * Z * Z :=
  (GetSystemMetrics g SM_XVIRTUALSCREEN, GetSystemMetrics g SM_YVIRTUALSCREEN,
   GetSystemMetrics g SM_CXVIRTUALSCREEN, GetSystemMetrics g SM_CYVIRTUALSCREEN).

Definition is_key_down (g : G) (vk : Z) : bool := negb (Z.land (as_uint 16 (GetAsyncKeyState g vk)) 0x8000 =? 0).
Definition is_toggled (g : G) (vk : Z) : bool := negb (Z.land (GetKeyState g vk) 1 =? 0).

Definition send_inputs (inputs : list INPUT) (g : G) : G :=
  match inputs with [] => g | _ => SendInput g inputs end.

Definition inject_key (key : Key.t) (pressed : bool) (g : G) : G :=
  let sc := scancode key in send_inputs [scan_input (code sc) (extended sc) pressed] g.

Definition sync_held (want_down : bool) (left right : Key.t) (vk_left vk_right : Z) (g : G) : G :=
  if want_down then
    if negb (is_key_down g vk_left) && negb (is_key_down g vk_right) then inject_key left true g else g
  else inject_key right false (inject_key left false g).

Definition sync_lock (want_on : bool) (key : Key.t) (vk : Z) (g : G) : G :=
  if negb (eqb (is_toggled g vk) want_on) then inject_key key false (inject_key key true g) else g.

(** Returns whether [hwnd] is now the foreground window. *)
Definition force_foreground (hwnd : Z) (g : G) : G * bool :=
  if GetForegroundWindow g =? hwnd then (g, true)
  else
    let g := SetForegroundWindow g hwnd in
    let current := GetForegroundWindow g in
    if negb (current =? hwnd) then
      let fg_thread := GetWindowThreadProcessId g current in
      let this_thread := GetCurrentThreadId g in
      let g :=
        if negb (fg_thread =? 0) && negb (fg_thread =? this_thread) then
          let '(g, attached) := AttachThreadInput g this_thread fg_thread true in
          if attached then
            let g := BringWindowToTop g hwnd in
            let g := SetForegroundWindow g hwnd in
            (AttachThreadInput g this_thread fg_thread false).1
          else g
        else g in
      (g, GetForegroundWindow g =? hwnd)
    else (g, true).

Record WinInputSink : Type := mkSink { sk_guest : G; last_focused : option Z; last_buttons : Z }.

Definition WinInputSink_new (g : G) : WinInputSink := mkSink g None 0.

Implicit Types s : WinInputSink.

Definition on_guest (f : G → G) s : WinInputSink := mkSink (f (sk_guest s)) (last_focused s) (last_buttons s).

Definition focus_on_change (handle : Z) s : WinInputSink * bool :=
  if decide (last_focused s = Some handle) then (s, true)
  else
    let '(g, confirmed) := force_foreground handle (sk_guest s) in
    (mkSink g (if confirmed then Some handle else last_focused s) (last_buttons s), confirmed).

(** The three buttons that ride with the motion. *)
Definition button_flags (changed buttons : Z) : Z :=
  let flags := Z.lor (Z.lor MOUSEEVENTF_MOVE MOUSEEVENTF_ABSOLUTE) MOUSEEVENTF_VIRTUALDESK in
  let add (bit down up : Z) flags :=
    if negb (Z.land changed bit =? 0) then Z.lor flags (down_up (negb (Z.land buttons bit =? 0)) down up) else flags in
  let flags := add pointer_button.LEFT MOUSEEVENTF_LEFTDOWN MOUSEEVENTF_LEFTUP flags in
  let flags := add pointer_button.RIGHT MOUSEEVENTF_RIGHTDOWN MOUSEEVENTF_RIGHTUP flags in
  add pointer_button.MIDDLE MOUSEEVENTF_MIDDLEDOWN MOUSEEVENTF_MIDDLEUP flags.

(** A button with an event of its own, if it changed. *)
Definition x_button (changed buttons bit xbutton : Z) : list INPUT :=
  if negb (Z.land changed bit =? 0)
  then [mouse_input 0 0 xbutton (down_up (negb (Z.land buttons bit =? 0)) MOUSEEVENTF_XDOWN MOUSEEVENTF_XUP)] else [].

Definition wheel_input (delta flag : Z) : list INPUT :=
  if negb (delta =? 0) then [mouse_input 0 0 (as_uint 32 delta) flag] else [].

Definition pointer_inputs (norm_x norm_y changed buttons wheel_x wheel_y : Z) : list INPUT :=
  [mouse_input norm_x norm_y 0 (button_flags changed buttons)] ++
  x_button changed buttons pointer_button.X1 XBUTTON1 ++ x_button changed buttons pointer_button.X2 XBUTTON2 ++
  wheel_input wheel_y MOUSEEVENTF_WHEEL ++ wheel_input wheel_x MOUSEEVENTF_HWHEEL.

Definition win_pointer_event s (handle x y buttons wheel_x wheel_y : Z) : WinInputSink :=
  match frame_bounds (sk_guest s) handle with
  | None => s
  | Some rect =>
    let newly_pressed := Z.land buttons (Z.lxor (last_buttons s) 0xFF) in
    let '(s, focus_confirmed) := if negb (newly_pressed =? 0) then focus_on_change handle s else (s, true) in
    let buttons := gate_unconfirmed_press buttons (last_buttons s) focus_confirmed in
    let abs_x := sat_sint 32 (rc_left rect + x) in
    let abs_y := sat_sint 32 (rc_top rect + y) in
    let '(vx, vy, vw, vh) := virtual_desktop_rect (sk_guest s) in
    let norm_x := normalize abs_x vx vw in
    let norm_y := normalize abs_y vy vh in
    let changed := Z.lxor buttons (last_buttons s) in
    mkSink (send_inputs (pointer_inputs norm_x norm_y changed buttons wheel_x wheel_y) (sk_guest s)) (last_focused s) buttons
  end.

Definition win_key_event s (scancode : Z) (extended pressed : bool) : WinInputSink :=
  on_guest (send_inputs [scan_input scancode extended pressed]) s.

Definition text_inputs (text : list Z) : list INPUT :=
  flat_map (λ unit, [unicode_input unit false; unicode_input unit true]) (encode_utf16 text).

Definition win_text_input s (text : list Z) : WinInputSink := on_guest (send_inputs (text_inputs text)) s.

Definition has_bit (mask bit : Z) : bool := negb (Z.land mask bit =? 0).

Definition win_modifier_sync s (modifiers locks : Z) : WinInputSink :=
  on_guest (λ g,
    let g := sync_held (has_bit modifiers modifier.SHIFT) Key.LeftShift Key.RightShift VK_LSHIFT VK_RSHIFT g in
    let g := sync_held (has_bit modifiers modifier.CTRL) Key.LeftControl Key.RightControl VK_LCONTROL VK_RCONTROL g in
    let g := sync_held (has_bit modifiers modifier.ALT) Key.LeftAlt Key.RightAlt VK_LMENU VK_RMENU g in
    let g := sync_held (has_bit modifiers modifier.META) Key.LeftMeta Key.RightMeta VK_LWIN VK_RWIN g in
    let g := sync_lock (has_bit locks lock_state.CAPS) Key.CapsLock VK_CAPITAL g in
    let g := sync_lock (has_bit locks lock_state.NUM) Key.NumLock VK_NUMLOCK g in
    sync_lock (has_bit locks lock_state.SCROLL) Key.ScrollLock VK_SCROLL g) s.

Definition win_window_control s (handle action x y width height : Z) : WinInputSink :=
  if action =? window_action.CLOSE then on_guest (λ g, PostMessageW g handle WM_CLOSE) s
  else if action =? window_action.ACTIVATE then
    let '(g, confirmed) := force_foreground handle (sk_guest s) in
    mkSink g (if confirmed then Some handle else last_focused s) (last_buttons s)
  else if action =? window_action.MINIMIZE then on_guest (λ g, ShowWindow g handle SW_MINIMIZE) s
  else if action =? window_action.MAXIMIZE then on_guest (λ g, ShowWindow g handle SW_MAXIMIZE) s
  else if action =? window_action.RESTORE then on_guest (λ g, ShowWindow g handle SW_RESTORE) s
  else if action =? window_action.MOVE then
    on_guest (λ g, SetWindowPos g handle x y 0 0 (Z.lor (Z.lor SWP_NOSIZE SWP_NOZORDER) SWP_NOACTIVATE)) s
  else if action =? window_action.RESIZE then
    on_guest (λ g, SetWindowPos g handle 0 0 width height (Z.lor (Z.lor SWP_NOMOVE SWP_NOZORDER) SWP_NOACTIVATE)) s
  else s.

#[export] Instance WinInputSink_sink : InputSink WinInputSink := {|
  pointer_event := win_pointer_event;
  key_event := win_key_event;
  text_input := win_text_input;
  modifier_sync := win_modifier_sync;
  window_control := win_window_control
|}.
End Sink.
