(* ===== verification/InjectText.v ===== *)
(** * Text on its way to Windows

    The [chars] and UTF-16 units of a valid string, inverted. *)

From S2P Require Import Prelude Inject.

(** ** Text *)

(** What [char]s are as UTF-8, and how Windows reads UTF-16. *)
Definition utf8_of (c : Z) : list Z :=
  if c <? 0x80 then [c]
  else if c <? 0x800 then [0xC0 + c / 2 ^ 6; 0x80 + c mod 2 ^ 6]
  else if c <? 0x10000 then [0xE0 + c / 2 ^ 12; 0x80 + c / 2 ^ 6 mod 2 ^ 6; 0x80 + c mod 2 ^ 6]
  else [0xF0 + c / 2 ^ 18; 0x80 + c / 2 ^ 12 mod 2 ^ 6; 0x80 + c / 2 ^ 6 mod 2 ^ 6; 0x80 + c mod 2 ^ 6].

Fixpoint decode_utf16 (us : list Z) : list Z :=
  match us with
  | [] => []
  | u :: r =>
    if between 0xD800 0xDBFF u then
      match r with
      | v :: r' => (0x10000 + (u - 0xD800) * 2 ^ 10 + (v - 0xDC00)) :: decode_utf16 r'
      | [] => []
      end
    else u :: decode_utf16 r
  end.

(** A Unicode scalar value. *)
Definition is_char (c : Z) : Prop := 0 ≤ c < 0xD800 ∨ 0xE000 ≤ c ≤ 0x10FFFF.

Lemma utf16_back cs : Forall is_char cs → decode_utf16 (flat_map utf16_of cs) = cs.
Proof.
  induction 1 as [|c cs Hc Hcs IH]; [done|]. cbn [flat_map]. unfold utf16_of at 1. destruct (Z.ltb_spec c 0x10000); cbn [app decode_utf16].
  - destruct (between 0xD800 0xDBFF c) eqn:E; [apply between_spec in E; destruct Hc; lia|]. by rewrite IH.
  - set (x := c - 0x10000). assert (Hx : 0 ≤ x < 2 ^ 20) by (destruct Hc; unfold x; lia).
    assert (Hq : 0 ≤ x / 2 ^ 10 < 2 ^ 10) by (split; [apply Z.div_pos; lia|apply Z.div_lt_upper_bound; lia]).
    replace (between 0xD800 0xDBFF (0xD800 + x / 2 ^ 10)) with true by (symmetry; apply between_spec; lia).
    rewrite IH. f_equal. rewrite !Z.add_simpl_l. pose proof (Z.div_mod x (2 ^ 10)). unfold x in *. lia.
Qed.

Lemma low_bits n b : 0 ≤ n → Z.land b (Z.ones n) = b mod 2 ^ n.
Proof. intros Hn. by apply Z.land_ones. Qed.

Ltac low_bits :=
  change 0x3F with (Z.ones 6) in *; change 0x1F with (Z.ones 5) in *; change 0xF with (Z.ones 4) in *;
  change 0x7 with (Z.ones 3) in *; rewrite ?low_bits in * by lia.

(** Each length of a character, from its bytes. *)
Lemma utf8_two b c1 :
  0xC2 ≤ b ≤ 0xDF → 0x80 ≤ c1 ≤ 0xBF → utf8_of (b mod 2 ^ 5 * 2 ^ 6 + c1 mod 2 ^ 6) = [b; c1].
Proof.
  intros Hb Hc. replace (b mod 2 ^ 5) with (b - 0xC0) by (Z.div_mod_to_equations; lia).
  replace (c1 mod 2 ^ 6) with (c1 - 0x80) by (Z.div_mod_to_equations; lia).
  unfold utf8_of. replace (_ <? 0x80) with false by lia. replace (_ <? 0x800) with true by lia.
  f_equal; [|f_equal]; Z.div_mod_to_equations; lia.
Qed.

Lemma two_range b c1 : 0xC2 ≤ b ≤ 0xDF → 0x80 ≤ c1 ≤ 0xBF → 0 ≤ b mod 2 ^ 5 * 2 ^ 6 + c1 mod 2 ^ 6 < 0xD800.
Proof. intros. Z.div_mod_to_equations. lia. Qed.

Lemma three_bits b c1 c2 :
  0xE0 ≤ b ≤ 0xEF → 0x80 ≤ c1 ≤ 0xBF → 0x80 ≤ c2 ≤ 0xBF →
  b mod 2 ^ 4 = b - 0xE0 ∧ c1 mod 2 ^ 6 = c1 - 0x80 ∧ c2 mod 2 ^ 6 = c2 - 0x80.
Proof. intros. split_and!; Z.div_mod_to_equations; lia. Qed.

Lemma utf8_three b c1 c2 :
  0xE0 ≤ b ≤ 0xEF → 0x80 ≤ c1 ≤ 0xBF → 0x80 ≤ c2 ≤ 0xBF → (b = 0xE0 → 0xA0 ≤ c1) →
  utf8_of (b mod 2 ^ 4 * 2 ^ 12 + c1 mod 2 ^ 6 * 2 ^ 6 + c2 mod 2 ^ 6) = [b; c1; c2].
Proof.
  intros Hb H1 H2 Ho. destruct (three_bits b c1 c2) as (-> & -> & ->); [done..|].
  unfold utf8_of. replace (_ <? 0x80) with false by lia. replace (_ <? 0x800) with false by lia.
  replace (_ <? 0x10000) with true by lia. f_equal; [|f_equal; [|f_equal]]; Z.div_mod_to_equations; lia.
Qed.

Lemma three_range b c1 c2 :
  0xE0 ≤ b ≤ 0xEF → 0x80 ≤ c1 ≤ 0xBF → 0x80 ≤ c2 ≤ 0xBF → (b = 0xED → c1 ≤ 0x9F) →
  is_char (b mod 2 ^ 4 * 2 ^ 12 + c1 mod 2 ^ 6 * 2 ^ 6 + c2 mod 2 ^ 6).
Proof. intros Hb H1 H2 Hs. destruct (three_bits b c1 c2) as (-> & -> & ->); [done..|]. unfold is_char. lia. Qed.

Lemma four_bits b c1 c2 c3 :
  0xF0 ≤ b ≤ 0xF4 → 0x80 ≤ c1 ≤ 0xBF → 0x80 ≤ c2 ≤ 0xBF → 0x80 ≤ c3 ≤ 0xBF →
  b mod 2 ^ 3 = b - 0xF0 ∧ c1 mod 2 ^ 6 = c1 - 0x80 ∧ c2 mod 2 ^ 6 = c2 - 0x80 ∧ c3 mod 2 ^ 6 = c3 - 0x80.
Proof. intros. split_and!; Z.div_mod_to_equations; lia. Qed.

Lemma utf8_four b c1 c2 c3 :
  0xF0 ≤ b ≤ 0xF4 → 0x80 ≤ c1 ≤ 0xBF → 0x80 ≤ c2 ≤ 0xBF → 0x80 ≤ c3 ≤ 0xBF → (b = 0xF0 → 0x90 ≤ c1) →
  utf8_of (b mod 2 ^ 3 * 2 ^ 18 + c1 mod 2 ^ 6 * 2 ^ 12 + c2 mod 2 ^ 6 * 2 ^ 6 + c3 mod 2 ^ 6) = [b; c1; c2; c3].
Proof.
  intros Hb H1 H2 H3 Ho. destruct (four_bits b c1 c2 c3) as (-> & -> & -> & ->); [done..|].
  unfold utf8_of. replace (_ <? 0x80) with false by lia. replace (_ <? 0x800) with false by lia.
  replace (_ <? 0x10000) with false by lia. f_equal; [|f_equal; [|f_equal; [|f_equal]]]; Z.div_mod_to_equations; lia.
Qed.

Lemma four_range b c1 c2 c3 :
  0xF0 ≤ b ≤ 0xF4 → 0x80 ≤ c1 ≤ 0xBF → 0x80 ≤ c2 ≤ 0xBF → 0x80 ≤ c3 ≤ 0xBF → (b = 0xF0 → 0x90 ≤ c1) → (b = 0xF4 → c1 ≤ 0x8F) →
  0xE000 ≤ b mod 2 ^ 3 * 2 ^ 18 + c1 mod 2 ^ 6 * 2 ^ 12 + c2 mod 2 ^ 6 * 2 ^ 6 + c3 mod 2 ^ 6 ≤ 0x10FFFF.
Proof. intros Hb H1 H2 H3 Ho Hs. destruct (four_bits b c1 c2 c3) as (-> & -> & -> & ->); [done..|]. lia. Qed.

Lemma chars_exact bs : utf8_valid bs = true → Forall is_char (chars bs) ∧ flat_map utf8_of (chars bs) = bs.
Proof.
  remember (length bs) as n eqn:Hn. revert bs Hn. induction n as [n IH] using (well_founded_induction Nat.lt_wf_0).
  intros [|b r] Hn Hv; [by split|]. cbn [utf8_valid chars] in *. cbn in Hn.
  assert (IH' : ∀ r', (length r' < n)%nat → utf8_valid r' = true → Forall is_char (chars r') ∧ flat_map utf8_of (chars r') = r')
    by (intros; by eapply IH).
  destruct (between 0 127 b) eqn:E1; [apply between_spec in E1|].
  { replace (b <? 0x80) with true by lia. destruct (IH' r) as [Hc Hu]; [lia|done|]. split; [constructor; [left; lia|done]|].
    cbn [flat_map]. unfold utf8_of at 1. replace (b <? 0x80) with true by lia. cbn. by rewrite Hu. }
  destruct (between 194 223 b) eqn:E2; [apply between_spec in E2|].
  { destruct r as [|c1 r1]; [done|]. between_to_prop. replace (b <? 0x80) with false by lia. replace (b <? 0xE0) with true by lia.
    destruct (IH' r1) as [Hc Hu]; [cbn in *; lia|done|]. low_bits. cbn [flat_map].
    rewrite utf8_two, Hu by lia. split; [|done]. constructor; [|done]. left. apply two_range; lia. }
  destruct (between 224 239 b) eqn:E3; [apply between_spec in E3|].
  { destruct r as [|c1 [|c2 r2]]; [done..|]. replace (b <? 0x80) with false by lia. replace (b <? 0xE0) with false by lia.
    replace (b <? 0xF0) with true by lia. between_to_prop; (destruct (IH' r2) as [Hc Hu]; [cbn in *; lia|done|]); low_bits; cbn [flat_map];
      (rewrite utf8_three, Hu by lia); (split; [|done]); (constructor; [|done]); apply three_range; lia. }
  destruct (between 240 244 b) eqn:E4; [apply between_spec in E4|done].
  destruct r as [|c1 [|c2 [|c3 r3]]]; [done..|]. replace (b <? 0x80) with false by lia. replace (b <? 0xE0) with false by lia.
  replace (b <? 0xF0) with false by lia. between_to_prop; (destruct (IH' r3) as [Hc Hu]; [cbn in *; lia|done|]); low_bits; cbn [flat_map];
    (rewrite utf8_four, Hu by lia); (split; [|done]); (constructor; [|done]); right; apply four_range; lia.
Qed.
