(* ===== verification/InjectFlow.v ===== *)
(** * What the agent's input does to the guest

    Theorems on [Inject], against a small model of what Windows does with
    [INPUT] events: a pointer, the buttons held, the wheel, the keys held and
    toggled, and the text typed. *)

From S2P Require Import Prelude MsgControl MsgInput Scancode Registry Channel Serve ServeSession Inject InjectText.

(** ** The desktop *)

Record Desk : Type := mkDesk {
  dk_pointer : Z * Z;
  (** The buttons held, as a mask of [pointer_button]. *)
  dk_buttons : Z;
  dk_wheel : Z * Z;
  dk_keys : gset (Z * bool);
  dk_toggled : gset (Z * bool);
  (** The UTF-16 units typed. *)
  dk_typed : list Z
}.

Definition press (flags down up bit m : Z) : Z :=
  let m := if has_bit flags down then Z.lor m bit else m in
  if has_bit flags up then Z.ldiff m bit else m.

Definition mask_after (data flags m : Z) : Z :=
  let m := press flags MOUSEEVENTF_LEFTDOWN MOUSEEVENTF_LEFTUP pointer_button.LEFT m in
  let m := press flags MOUSEEVENTF_RIGHTDOWN MOUSEEVENTF_RIGHTUP pointer_button.RIGHT m in
  let m := press flags MOUSEEVENTF_MIDDLEDOWN MOUSEEVENTF_MIDDLEUP pointer_button.MIDDLE m in
  let m := if has_bit data XBUTTON1 then press flags MOUSEEVENTF_XDOWN MOUSEEVENTF_XUP pointer_button.X1 m else m in
  if has_bit data XBUTTON2 then press flags MOUSEEVENTF_XDOWN MOUSEEVENTF_XUP pointer_button.X2 m else m.

Definition flip (k : Z * bool) (ks : gset (Z * bool)) : gset (Z * bool) :=
  if decide (k ∈ ks) then ks ∖ {[k]} else {[k]} ∪ ks.

Definition apply_input (d : Desk) (i : INPUT) : Desk :=
  match i with
  | Mouse dx dy data flags =>
    mkDesk (if has_bit flags MOUSEEVENTF_MOVE && has_bit flags MOUSEEVENTF_ABSOLUTE then (dx, dy) else dk_pointer d)
      (mask_after data flags (dk_buttons d))
      ((if has_bit flags MOUSEEVENTF_HWHEEL then (dk_wheel d).1 + as_sint 32 data else (dk_wheel d).1),
       (if has_bit flags MOUSEEVENTF_WHEEL then (dk_wheel d).2 + as_sint 32 data else (dk_wheel d).2))
      (dk_keys d) (dk_toggled d) (dk_typed d)
  | Keyboard scan flags =>
    if has_bit flags KEYEVENTF_UNICODE then
      if has_bit flags KEYEVENTF_KEYUP then d
      else mkDesk (dk_pointer d) (dk_buttons d) (dk_wheel d) (dk_keys d) (dk_toggled d) (dk_typed d ++ [scan])
    else
      let k := (scan, has_bit flags KEYEVENTF_EXTENDEDKEY) in
      if has_bit flags KEYEVENTF_KEYUP then
        mkDesk (dk_pointer d) (dk_buttons d) (dk_wheel d) (dk_keys d ∖ {[k]}) (dk_toggled d) (dk_typed d)
      else
        mkDesk (dk_pointer d) (dk_buttons d) (dk_wheel d) ({[k]} ∪ dk_keys d)
          (if decide (k ∈ dk_keys d) then dk_toggled d else flip k (dk_toggled d)) (dk_typed d)
  end.

Definition apply_inputs (es : list INPUT) (d : Desk) : Desk := fold_left apply_input es d.

Definition place (k : Key.t) : Z * bool := (code (scancode k), extended (scancode k)).

(** The virtual keys that name one physical modifier. *)
Definition modifier_keys : list (Z * Key.t) :=
  [(VK_LSHIFT, Key.LeftShift); (VK_RSHIFT, Key.RightShift); (VK_LCONTROL, Key.LeftControl); (VK_RCONTROL, Key.RightControl);
   (VK_LMENU, Key.LeftAlt); (VK_RMENU, Key.RightAlt); (VK_LWIN, Key.LeftMeta); (VK_RWIN, Key.RightMeta)].

(** What is relied on: [SendInput] does what the events say, [GetAsyncKeyState]
    tells the modifiers held, and moving the focus presses nothing. *)
Class Win32Laws (G : Type) `{Win32 G} : Type := {
  desk : G → Desk;
  desk_send g es : desk (SendInput g es) = apply_inputs es (desk g);
  desk_foreground g h : desk (SetForegroundWindow g h) = desk g;
  desk_top g h : desk (BringWindowToTop g h) = desk g;
  desk_attach g a b on : desk (AttachThreadInput g a b on).1 = desk g;
  desk_post g h m : desk (PostMessageW g h m) = desk g;
  desk_show g h c : desk (ShowWindow g h c) = desk g;
  desk_pos g h x y cx cy f : desk (SetWindowPos g h x y cx cy f) = desk g;
  async_state g vk k : (vk, k) ∈ modifier_keys → is_key_down g vk = bool_decide (place k ∈ dk_keys (desk g))
}.

(** ** Masks *)

Lemma forall_octets (P : Z → Z → bool) :
  forallb (λ b, forallb (P b) (seqZ 0 256)) (seqZ 0 256) = true → ∀ b l, u8 b → u8 l → P b l = true.
Proof.
  intros HP b l Hb Hl. rewrite forallb_forall in HP. specialize (HP b). rewrite forallb_forall in HP. unfold is_uint in *. simpl_pow.
  apply HP; apply list_elem_of_In, elem_of_seqZ; lia.
Qed.

(** The buttons held after the events of one call, whatever its position. *)
Definition mask_of_call (b l : Z) : Z :=
  fold_left (λ m i, match i with Mouse _ _ data flags => mask_after data flags m | _ => m end)
    (pointer_inputs 0 0 (Z.lxor b l) b 0 0) (Z.land l 31).

Lemma masks_checked b l : u8 b → u8 l → mask_of_call b l = Z.land b 31.
Proof.
  intros Hb Hl. apply Z.eqb_eq. revert b l Hb Hl. apply (forall_octets (λ b l, mask_of_call b l =? Z.land b 31)). vm_compute. reflexivity.
Qed.

Lemma gate_octet b l c : u8 b → u8 l → u8 (gate_unconfirmed_press b l c).
Proof.
  intros Hb Hl. assert (Hc : ∀ b l, u8 b → u8 l → (0 <=? gate_unconfirmed_press b l c) && (gate_unconfirmed_press b l c <? 256) = true).
  { apply (forall_octets (λ b l, (0 <=? gate_unconfirmed_press b l c) && (gate_unconfirmed_press b l c <? 256))).
    destruct c; vm_compute; reflexivity. }
  specialize (Hc b l Hb Hl). unfold is_uint. simpl_pow. lia.
Qed.

(** Held back, a press leaves what was held before. *)
Lemma gate_refused b l : u8 b → u8 l → gate_unconfirmed_press b l false = Z.land b l.
Proof.
  intros Hb Hl. apply Z.eqb_eq. revert b l Hb Hl.
  apply (forall_octets (λ b l, gate_unconfirmed_press b l false =? Z.land b l)). vm_compute. reflexivity.
Qed.

Lemma gate_confirmed b l : gate_unconfirmed_press b l true = b.
Proof. unfold gate_unconfirmed_press. by destruct (_ =? 0). Qed.

Definition set_buttons (m : Z) (d : Desk) : Desk :=
  mkDesk (dk_pointer d) m (dk_wheel d) (dk_keys d) (dk_toggled d) (dk_typed d).

Lemma set_buttons_same d : set_buttons (dk_buttons d) d = d.
Proof. by destruct d. Qed.

Lemma motion_input nx ny c b d :
  apply_input d (mouse_input nx ny 0 (button_flags c b)) =
  mkDesk (nx, ny) (mask_after 0 (button_flags c b) (dk_buttons d)) (dk_wheel d) (dk_keys d) (dk_toggled d) (dk_typed d).
Proof.
  cbn [apply_input mouse_input].
  assert (Hf : has_bit (button_flags c b) MOUSEEVENTF_MOVE = true ∧ has_bit (button_flags c b) MOUSEEVENTF_ABSOLUTE = true ∧
               has_bit (button_flags c b) MOUSEEVENTF_HWHEEL = false ∧ has_bit (button_flags c b) MOUSEEVENTF_WHEEL = false).
  { unfold button_flags, down_up. repeat case_match; by vm_compute. }
  destruct Hf as (-> & -> & -> & ->). cbn. by destruct (dk_wheel d).
Qed.

Lemma x_button_desk c b bit x d :
  apply_inputs (x_button c b bit x) d =
  set_buttons (fold_left (λ m i, match i with Mouse _ _ data flags => mask_after data flags m | _ => m end) (x_button c b bit x) (dk_buttons d)) d.
Proof.
  unfold x_button, down_up. destruct (negb (Z.land c bit =? 0)); [|cbn; by rewrite set_buttons_same].
  destruct (negb (Z.land b bit =? 0)); cbn; unfold set_buttons; by destruct (dk_wheel d).
Qed.

Lemma wheel_masks data m : mask_after data MOUSEEVENTF_WHEEL m = m ∧ mask_after data MOUSEEVENTF_HWHEEL m = m.
Proof. unfold mask_after. by destruct (has_bit data XBUTTON1), (has_bit data XBUTTON2). Qed.

Lemma wheel_back w : i16 w → as_sint 32 (as_uint 32 w) = w.
Proof.
  intros Hw. unfold is_sint in Hw. change (2 ^ (16 - 1)) with 32768 in Hw. unfold as_sint, as_uint. change (2 ^ 32) with 4294967296.
  change (2 ^ (32 - 1)) with 2147483648. rewrite Zmod_mod. destruct (Z.ltb_spec (w mod 4294967296) 2147483648); Z.div_mod_to_equations; lia.
Qed.

Lemma wheel_desk wx wy d :
  i16 wx → i16 wy →
  apply_inputs (wheel_input wy MOUSEEVENTF_WHEEL ++ wheel_input wx MOUSEEVENTF_HWHEEL) d =
  mkDesk (dk_pointer d) (dk_buttons d) ((dk_wheel d).1 + wx, (dk_wheel d).2 + wy) (dk_keys d) (dk_toggled d) (dk_typed d).
Proof.
  intros Hx Hy. unfold apply_inputs, wheel_input. destruct (Z.eqb_spec wy 0) as [->|Hny], (Z.eqb_spec wx 0) as [->|Hnx];
    cbn [negb app fold_left apply_input mouse_input]; rewrite ?(proj1 (wheel_masks _ _)), ?(proj2 (wheel_masks _ _)); cbn;
    rewrite ?wheel_back, ?Z.add_0_r by done; by destruct d as [p m [a e] k t y].
Qed.

Lemma apply_inputs_app es1 es2 d : apply_inputs (es1 ++ es2) d = apply_inputs es2 (apply_inputs es1 d).
Proof. apply fold_left_app. Qed.

Lemma pointer_desk nx ny b l wx wy d :
  u8 b → u8 l → i16 wx → i16 wy → dk_buttons d = Z.land l 31 →
  apply_inputs (pointer_inputs nx ny (Z.lxor b l) b wx wy) d =
  mkDesk (nx, ny) (Z.land b 31) ((dk_wheel d).1 + wx, (dk_wheel d).2 + wy) (dk_keys d) (dk_toggled d) (dk_typed d).
Proof.
  intros Hb Hl Hx Hy Hd. pose proof (masks_checked b l Hb Hl) as Hm. unfold mask_of_call in Hm. rewrite <- Hd in Hm.
  unfold pointer_inputs in *. rewrite apply_inputs_app, apply_inputs_app, apply_inputs_app, wheel_desk by done.
  change (apply_inputs [?i] d) with (apply_input d i). rewrite motion_input, !x_button_desk.
  rewrite !fold_left_app in Hm. unfold wheel_input in Hm. cbn [Z.eqb negb fold_left mouse_input] in Hm.
  cbn [set_buttons dk_pointer dk_buttons dk_wheel dk_keys dk_toggled dk_typed fst snd]. by rewrite Hm.
Qed.

(** ** Coordinates *)

Lemma normalize_fits value origin extent :
  i32 value → i32 origin → i32 extent → 1 < extent →
  let last := sat_sint 32 (origin + (extent - 1)) in
  let clamped := Z.max origin (Z.min value last) in
  origin ≤ last ∧ i32 (extent - 1) ∧ i32 (clamped - origin) ∧ i64 ((clamped - origin) * 65535) ∧
  0 ≤ normalize value origin extent ≤ 65535.
Proof.
  intros Hv Ho He Hx last clamped. unfold is_sint in *. change (2 ^ (32 - 1)) with 2147483648 in *. change (2 ^ (64 - 1)) with 9223372036854775808.
  assert (Hl : origin ≤ last ≤ origin + (extent - 1) ∧ last ≤ 2147483647).
  { unfold last, sat_sint. change (2 ^ (32 - 1)) with 2147483648. lia. }
  assert (Hc : 0 ≤ clamped - origin ≤ extent - 1) by (unfold clamped; lia).
  split_and!; try lia. all: unfold normalize; destruct (Z.leb_spec extent 1); [lia|]; fold last; fold clamped.
  - apply Z.div_pos; nia.
  - apply Z.div_le_upper_bound; nia.
Qed.

Lemma normalize_mono a b origin extent : a ≤ b → normalize a origin extent ≤ normalize b origin extent.
Proof.
  intros Hab. unfold normalize. destruct (Z.leb_spec extent 1); [lia|]. apply Z.div_le_mono; [lia|]. apply Z.mul_le_mono_nonneg_r; lia.
Qed.

(** Up to 65536 pixels, different pixels stay different. *)
Lemma normalize_distinct a b origin extent :
  1 < extent ≤ 65536 → - 2 ^ 31 ≤ origin → origin + extent ≤ 2 ^ 31 → origin ≤ a → a < b → b < origin + extent →
  normalize a origin extent < normalize b origin extent.
Proof.
  intros He Ho Hx Ha Hab Hb. unfold normalize, sat_sint. destruct (Z.leb_spec extent 1); [lia|].
  change (2 ^ (32 - 1)) with 2147483648. change (2 ^ 31) with 2147483648 in *.
  rewrite (Z.max_r (- 2147483648)), (Z.min_l (origin + (extent - 1))) by lia.
  rewrite !(Z.min_l _ (origin + (extent - 1))), !Z.max_r by lia.
  apply Z.lt_le_trans with ((a - origin) * 65535 / (extent - 1) + 1); [lia|].
  rewrite <- Z.div_add by lia. apply Z.div_le_mono; nia.
Qed.

Section Flow.
Context {G : Type} `{Win32Laws G}.
Implicit Types g : G.
Implicit Types s : WinInputSink (G:=G).

(** ** Focus *)

Lemma force_foreground_spec h g :
  let '(g', confirmed) := force_foreground h g in
  desk g' = desk g ∧ (confirmed = true ↔ GetForegroundWindow g' = h).
Proof.
  unfold force_foreground. destruct (Z.eqb_spec (GetForegroundWindow g) h) as [E|E]; [by split|].
  destruct (Z.eqb_spec (GetForegroundWindow (SetForegroundWindow g h)) h) as [E1|E1]; cbn [negb].
  - split; [by rewrite desk_foreground|done].
  - set (g1 := SetForegroundWindow g h) in *. assert (Hd : desk g1 = desk g) by apply desk_foreground.
    destruct (negb _ && negb _); [|split; [done|apply Z.eqb_eq]].
    destruct (AttachThreadInput g1 _ _ true) as [g2 attached] eqn:Ea. assert (Hd2 : desk g2 = desk g).
    { pose proof (desk_attach g1 (GetCurrentThreadId g1) (GetWindowThreadProcessId g1 (GetForegroundWindow g1)) true) as Hx.
      rewrite Ea in Hx. cbn in Hx. by rewrite Hx. }
    destruct attached; (split; [|apply Z.eqb_eq]); [by rewrite desk_attach, desk_foreground, desk_top|done].
Qed.

Lemma focus_spec h s :
  let '(s', confirmed) := focus_on_change h s in
  desk (sk_guest s') = desk (sk_guest s) ∧ last_buttons s' = last_buttons s ∧
  (confirmed = true → last_focused s' = Some h ∧ (last_focused s = Some h ∨ GetForegroundWindow (sk_guest s') = h)) ∧
  (confirmed = false → last_focused s ≠ Some h ∧ last_focused s' = last_focused s ∧ GetForegroundWindow (sk_guest s') ≠ h).
Proof.
  unfold focus_on_change. case_decide as Hf; [split_and!; by auto|].
  pose proof (force_foreground_spec h (sk_guest s)) as Hs. destruct (force_foreground h (sk_guest s)) as [g c]. destruct Hs as [Hd Hc].
  cbn. split_and!; [done..| |].
  - intros ->. split; [done|]. right. by apply Hc.
  - intros ->. split_and!; [done..|]. intros Hg. by apply Hc in Hg.
Qed.

(** ** The sink's memory is the guest's *)

Definition sink_call {I} `{InputSink I} (i : I) (c : SinkCall) : I :=
  match c with
  | PointerCall h x y b wx wy => pointer_event i h x y b wx wy
  | KeyCall sc ext pressed => key_event i sc ext pressed
  | TextCall t => text_input i t
  | ModifierCall m l => modifier_sync i m l
  | ControlCall h a x y w hh => window_control i h a x y w hh
  end.

Definition call_ok (c : SinkCall) : Prop :=
  match c with PointerCall _ _ _ b wx wy => u8 b ∧ i16 wx ∧ i16 wy | _ => True end.

Record sink_inv s : Prop := {
  si_octet : u8 (last_buttons s);
  si_held : dk_buttons (desk (sk_guest s)) = Z.land (last_buttons s) 31
}.

(** A button that was not down a moment ago. *)
Definition presses (b l : Z) : bool := negb (Z.land b (Z.lxor l 0xFF) =? 0).

Lemma pointer_spec s h x y b wx wy rect :
  sink_inv s → call_ok (PointerCall h x y b wx wy) → frame_bounds (sk_guest s) h = Some rect →
  ∃ g (confirmed : bool), let s' := win_pointer_event s h x y b wx wy in let d := desk (sk_guest s) in
    desk g = d ∧
    desk (sk_guest s') =
      mkDesk (normalize (sat_sint 32 (rc_left rect + x)) (GetSystemMetrics g SM_XVIRTUALSCREEN) (GetSystemMetrics g SM_CXVIRTUALSCREEN),
              normalize (sat_sint 32 (rc_top rect + y)) (GetSystemMetrics g SM_YVIRTUALSCREEN) (GetSystemMetrics g SM_CYVIRTUALSCREEN))
        (Z.land (if confirmed then b else Z.land b (last_buttons s)) 31) ((dk_wheel d).1 + wx, (dk_wheel d).2 + wy)
        (dk_keys d) (dk_toggled d) (dk_typed d) ∧
    sink_inv s' ∧
    (if confirmed : bool then presses b (last_buttons s) = true → last_focused s' = Some h ∧ (last_focused s = Some h ∨ GetForegroundWindow g = h)
     else presses b (last_buttons s) = true ∧ last_focused s ≠ Some h ∧ GetForegroundWindow g ≠ h ∧ last_focused s' = last_focused s ∧
          last_buttons s' = Z.land b (last_buttons s)).
Proof.
  intros [Hl Hd] (Hb & Hx & Hy) Hr. unfold win_pointer_event. rewrite Hr. fold (presses b (last_buttons s)).
  assert (Hfoc : ∃ s1 (confirmed : bool), (if presses b (last_buttons s) then focus_on_change h s else (s, true)) = (s1, confirmed) ∧
    desk (sk_guest s1) = desk (sk_guest s) ∧ last_buttons s1 = last_buttons s ∧
    (if confirmed : bool then presses b (last_buttons s) = true → last_focused s1 = Some h ∧ (last_focused s = Some h ∨ GetForegroundWindow (sk_guest s1) = h)
     else presses b (last_buttons s) = true ∧ last_focused s ≠ Some h ∧ GetForegroundWindow (sk_guest s1) ≠ h ∧ last_focused s1 = last_focused s)).
  { destruct (presses b (last_buttons s)); [|by exists s, true].
    pose proof (focus_spec h s) as Hs. destruct (focus_on_change h s) as [s1 c]. destruct Hs as (D1 & D2 & D3 & D4).
    exists s1, c. split_and!; [done..|]. destruct c; [intros _; by apply D3|]. destruct (D4 eq_refl) as (? & ? & ?). by split_and!. }
  destruct Hfoc as (s1 & c & -> & Hd1 & Hl1 & Hc). rewrite Hl1.
  set (b' := gate_unconfirmed_press b (last_buttons s) c).
  assert (Hb' : u8 b') by by apply gate_octet.
  assert (Eb : b' = if c then b else Z.land b (last_buttons s)) by (unfold b'; destruct c; [apply gate_confirmed|by apply gate_refused]).
  exists (sk_guest s1), c. cbn [virtual_desktop_rect sk_guest last_buttons last_focused]. unfold send_inputs.
  change (match pointer_inputs ?nx ?ny ?ch ?bb ?w1 ?w2 with [] => ?g | _ :: _ => SendInput ?g _ end) with (SendInput g (pointer_inputs nx ny ch bb w1 w2)).
  rewrite desk_send, Hd1, pointer_desk by done. rewrite <- Eb. split_and!; [done..| |].
  - split; cbn [last_buttons sk_guest]; [done|]. by rewrite desk_send, Hd1, pointer_desk.
  - destruct c; [exact Hc|]. destruct Hc as (? & ? & ? & ?). by split_and!.
Qed.
(** *** Keys *)

Lemma desk_send_inputs es g : desk (send_inputs es g) = apply_inputs es (desk g).
Proof. destruct es; [done|apply desk_send]. Qed.

Definition set_keys (ks ts : gset (Z * bool)) (d : Desk) : Desk :=
  mkDesk (dk_pointer d) (dk_buttons d) (dk_wheel d) ks ts (dk_typed d).

(** What a key event does. *)
Definition after_key (k : Z * bool) (pressed : bool) (d : Desk) : Desk :=
  if pressed then set_keys ({[k]} ∪ dk_keys d) (if decide (k ∈ dk_keys d) then dk_toggled d else flip k (dk_toggled d)) d
  else set_keys (dk_keys d ∖ {[k]}) (dk_toggled d) d.

Lemma scan_desk sc ext pressed d : apply_input d (scan_input sc ext pressed) = after_key (sc, ext) pressed d.
Proof. by destruct ext, pressed. Qed.

Lemma inject_desk k pressed g : desk (inject_key k pressed g) = after_key (place k) pressed (desk g).
Proof. unfold inject_key. rewrite desk_send_inputs. cbn [apply_inputs fold_left]. apply scan_desk. Qed.

Lemma after_key_rest k pressed d :
  dk_pointer (after_key k pressed d) = dk_pointer d ∧ dk_buttons (after_key k pressed d) = dk_buttons d ∧
  dk_wheel (after_key k pressed d) = dk_wheel d ∧ dk_typed (after_key k pressed d) = dk_typed d.
Proof. by destruct pressed. Qed.

(** All but the keys is as it was. *)
Definition same_but_keys (d d' : Desk) : Prop :=
  dk_pointer d' = dk_pointer d ∧ dk_buttons d' = dk_buttons d ∧ dk_wheel d' = dk_wheel d ∧ dk_typed d' = dk_typed d.

Lemma same_but_keys_trans d1 d2 d3 : same_but_keys d1 d2 → same_but_keys d2 d3 → same_but_keys d1 d3.
Proof. intros (? & ? & ? & ?) (? & ? & ? & ?). split_and!; congruence. Qed.

Lemma held_desk want left right vl vr g :
  (vl, left) ∈ modifier_keys → (vr, right) ∈ modifier_keys → place left ≠ place right →
  let d := desk g in let d' := desk (sync_held want left right vl vr g) in
  same_but_keys d d' ∧
  ((place left ∈ dk_keys d' ∨ place right ∈ dk_keys d') ↔ want = true) ∧
  (∀ k, k ≠ place left → k ≠ place right → (k ∈ dk_keys d' ↔ k ∈ dk_keys d)) ∧
  (∀ k, k ≠ place left → k ≠ place right → (k ∈ dk_toggled d' ↔ k ∈ dk_toggled d)).
Proof.
  intros Hl Hr Hne d d'. unfold d', sync_held. destruct want.
  - rewrite !(async_state g _ _ Hl), !(async_state g _ _ Hr). fold d.
    destruct (bool_decide (place left ∈ dk_keys d)) eqn:El; [apply bool_decide_eq_true in El|apply bool_decide_eq_false in El].
    { cbn. split_and!; [by split_and!|tauto|done|done]. }
    destruct (bool_decide (place right ∈ dk_keys d)) eqn:Er; [apply bool_decide_eq_true in Er|apply bool_decide_eq_false in Er].
    { cbn. split_and!; [by split_and!|tauto|done|done]. }
    cbn [negb andb]. rewrite inject_desk. fold d. split_and!; [by apply after_key_rest|..]; cbn [after_key set_keys dk_keys dk_toggled].
    + set_solver.
    + set_solver.
    + intros k Hk1 Hk2. rewrite decide_False by done. unfold flip. case_decide; set_solver.
  - rewrite !inject_desk. fold d. split_and!; [by split_and!|..]; cbn [after_key set_keys dk_keys dk_toggled]; [|set_solver..].
    split; [set_solver|done].
Qed.

(** A lock that is not as wanted is tapped; [GetKeyState] decides. *)
Lemma lock_desk want k vk g :
  let d := desk g in let d' := desk (sync_lock want k vk g) in
  same_but_keys d d' ∧
  (∀ x, x ≠ place k → (x ∈ dk_keys d' ↔ x ∈ dk_keys d)) ∧ (∀ x, x ≠ place k → (x ∈ dk_toggled d' ↔ x ∈ dk_toggled d)) ∧
  (place k ∉ dk_keys d → (place k ∉ dk_keys d') ∧
     (place k ∈ dk_toggled d' ↔ (is_toggled g vk = want ∧ place k ∈ dk_toggled d ∨ is_toggled g vk ≠ want ∧ place k ∉ dk_toggled d))).
Proof.
  intros d d'. unfold d', sync_lock. destruct (eqb (is_toggled g vk) want) eqn:E; cbn [negb].
  - apply eqb_prop in E. fold d. split_and!; [by split_and!|done|done|]. intros Hk. split; [done|]. intuition.
  - apply eqb_false_iff in E. rewrite !inject_desk. fold d. cbn [after_key set_keys dk_keys dk_toggled].
    split_and!; [by split_and!|set_solver| |].
    + intros x Hx. case_decide; [done|]. unfold flip. case_decide; set_solver.
    + intros Hk. rewrite decide_False by done. split; [set_solver|]. unfold flip. case_decide; set_solver.
Qed.
(** ** All the calls *)

Lemma keys_keep s s' :
  sink_inv s → last_buttons s' = last_buttons s → same_but_keys (desk (sk_guest s)) (desk (sk_guest s')) → sink_inv s'.
Proof. intros [Hl Hd] El (_ & Eb & _). split; [by rewrite El|]. by rewrite El, Eb. Qed.

Ltac among := repeat first [apply list_elem_of_here | apply list_elem_of_further].

Lemma modifier_sync_rest s m l :
  same_but_keys (desk (sk_guest s)) (desk (sk_guest (win_modifier_sync s m l))).
Proof.
  unfold win_modifier_sync, on_guest. cbn [sk_guest].
  repeat (eapply same_but_keys_trans; [|first [apply lock_desk|apply held_desk; [among|among|done]]]). by split_and!.
Qed.

Definition typing (u : Z) (d : Desk) : Desk :=
  mkDesk (dk_pointer d) (dk_buttons d) (dk_wheel d) (dk_keys d) (dk_toggled d) (dk_typed d ++ [u]).

Lemma text_desk us d :
  apply_inputs (flat_map (λ unit, [unicode_input unit false; unicode_input unit true]) us) d =
  mkDesk (dk_pointer d) (dk_buttons d) (dk_wheel d) (dk_keys d) (dk_toggled d) (dk_typed d ++ us).
Proof.
  revert d. induction us as [|u us IH]; intros d; cbn [flat_map]; [rewrite app_nil_r; by destruct d|].
  rewrite apply_inputs_app. change (apply_inputs [unicode_input u false; unicode_input u true] d) with (typing u d).
  rewrite IH. cbn. by rewrite <- app_assoc.
Qed.

Lemma control_rest s h a x y w hh :
  desk (sk_guest (win_window_control s h a x y w hh)) = desk (sk_guest s) ∧
  last_buttons (win_window_control s h a x y w hh) = last_buttons s.
Proof.
  unfold win_window_control. pose proof (force_foreground_spec h (sk_guest s)) as Hf. destruct (force_foreground h (sk_guest s)) as [g c].
  repeat case_match; cbn; rewrite ?desk_post, ?desk_show, ?desk_pos; try done; (split; [apply Hf|done]).
Qed.

Lemma call_inv s c : sink_inv s → call_ok c → sink_inv (sink_call s c).
Proof.
  intros Hs Hc. destruct c as [h x y b wx wy|sc ext pressed|t|m l|h a x y w hh]; cbn [sink_call].
  - cbn [pointer_event WinInputSink_sink]. destruct (frame_bounds (sk_guest s) h) as [rect|] eqn:Er.
    + destruct (pointer_spec s h x y b wx wy rect Hs Hc Er) as (g & c & _ & _ & Hi & _). exact Hi.
    + unfold win_pointer_event. by rewrite Er.
  - apply (keys_keep s); [done|done|]. cbn [key_event WinInputSink_sink win_key_event on_guest sk_guest].
    rewrite desk_send_inputs. cbn [apply_inputs fold_left]. rewrite scan_desk. by apply after_key_rest.
  - destruct Hs as [Hl Hd]. split; [done|]. cbn [text_input WinInputSink_sink win_text_input on_guest sk_guest last_buttons].
    rewrite desk_send_inputs. unfold text_inputs. by rewrite text_desk.
  - apply (keys_keep s); [done|done|]. apply modifier_sync_rest.
  - destruct (control_rest s h a x y w hh) as [Ed El]. destruct Hs as [Hl Hd]. split; cbn; rewrite ?Ed, El; done.
Qed.

Lemma calls_inv cs : ∀ s, sink_inv s → Forall call_ok cs → sink_inv (fold_left sink_call cs s).
Proof. induction cs as [|c cs IH]; intros s Hs Hcs; [done|]. apply Forall_cons in Hcs as [Hc Hcs]. cbn. apply IH; [by apply call_inv|done]. Qed.
(** ** Modifiers *)

(** Only the keys listed may have changed. *)
Definition touches (ks : list (Z * bool)) (d d' : Desk) : Prop :=
  same_but_keys d d' ∧ ∀ k, k ∉ ks → (k ∈ dk_keys d' ↔ k ∈ dk_keys d) ∧ (k ∈ dk_toggled d' ↔ k ∈ dk_toggled d).

Lemma touches_trans ks1 ks2 d1 d2 d3 : touches ks1 d1 d2 → touches ks2 d2 d3 → touches (ks1 ++ ks2) d1 d3.
Proof.
  intros [S1 T1] [S2 T2]. split; [by eapply same_but_keys_trans|]. intros k Hk. apply not_elem_of_app in Hk as [Hk1 Hk2].
  destruct (T1 k Hk1), (T2 k Hk2). split; etrans; eauto.
Qed.

Definition group (left right : Key.t) : list (Z * bool) := [place left; place right].

Lemma held_touches want left right vl vr g :
  (vl, left) ∈ modifier_keys → (vr, right) ∈ modifier_keys → place left ≠ place right →
  touches (group left right) (desk g) (desk (sync_held want left right vl vr g)).
Proof.
  intros Hl Hr Hne. destruct (held_desk want left right vl vr g Hl Hr Hne) as (Hs & _ & Hk & Ht). split; [exact Hs|].
  intros k Hn. apply not_elem_of_cons in Hn as [H2 Hn]. apply not_elem_of_cons in Hn as [H3 _]. by split; [apply Hk|apply Ht].
Qed.

Lemma lock_touches want k vk g : touches [place k] (desk g) (desk (sync_lock want k vk g)).
Proof.
  destruct (lock_desk want k vk g) as (Hs & Hk & Ht & _). split; [exact Hs|].
  intros x Hn. apply not_elem_of_cons in Hn as [Hn _]. by split; [apply Hk|apply Ht].
Qed.

Definition down_in (d : Desk) (left right : Key.t) : Prop := place left ∈ dk_keys d ∨ place right ∈ dk_keys d.

Lemma down_kept ks d d' left right :
  touches ks d d' → place left ∉ ks → place right ∉ ks → down_in d' left right ↔ down_in d left right.
Proof. intros [_ Ht] Hl Hr. unfold down_in. destruct (Ht _ Hl) as [-> _], (Ht _ Hr) as [-> _]. done. Qed.

Definition shifts := group Key.LeftShift Key.RightShift.
Definition controls := group Key.LeftControl Key.RightControl.
Definition alts := group Key.LeftAlt Key.RightAlt.
Definition metas := group Key.LeftMeta Key.RightMeta.
Definition lock_places : list (Z * bool) := [place Key.CapsLock; place Key.NumLock; place Key.ScrollLock].

Ltac outside := apply (bool_decide_unpack _); vm_compute; exact I.

Lemma modifier_sync_spec s m l :
  let d := desk (sk_guest s) in let d' := desk (sk_guest (win_modifier_sync s m l)) in
  touches (shifts ++ controls ++ alts ++ metas ++ lock_places) d d' ∧
  (down_in d' Key.LeftShift Key.RightShift ↔ has_bit m modifier.SHIFT = true) ∧
  (down_in d' Key.LeftControl Key.RightControl ↔ has_bit m modifier.CTRL = true) ∧
  (down_in d' Key.LeftAlt Key.RightAlt ↔ has_bit m modifier.ALT = true) ∧
  (down_in d' Key.LeftMeta Key.RightMeta ↔ has_bit m modifier.META = true).
Proof.
  intros d d'. unfold d', win_modifier_sync, on_guest. cbn [sk_guest].
  set (g0 := sk_guest s) in *. set (g1 := sync_held _ Key.LeftShift _ _ _ g0). set (g2 := sync_held _ Key.LeftControl _ _ _ g1).
  set (g3 := sync_held _ Key.LeftAlt _ _ _ g2). set (g4 := sync_held _ Key.LeftMeta _ _ _ g3).
  set (g5 := sync_lock _ Key.CapsLock _ g4). set (g6 := sync_lock _ Key.NumLock _ g5). set (g7 := sync_lock _ Key.ScrollLock _ g6).
  assert (T1 : touches shifts (desk g0) (desk g1)) by (apply held_touches; [among|among|done]).
  assert (T2 : touches controls (desk g1) (desk g2)) by (apply held_touches; [among|among|done]).
  assert (T3 : touches alts (desk g2) (desk g3)) by (apply held_touches; [among|among|done]).
  assert (T4 : touches metas (desk g3) (desk g4)) by (apply held_touches; [among|among|done]).
  assert (T5 : touches lock_places (desk g4) (desk g7)).
  { apply (touches_trans [_] [_; _] _ (desk g5)); [apply lock_touches|].
    apply (touches_trans [_] [_] _ (desk g6)); apply lock_touches. }
  pose proof (touches_trans _ _ _ _ _ T4 T5) as T45. pose proof (touches_trans _ _ _ _ _ T3 T45) as T35.
  pose proof (touches_trans _ _ _ _ _ T2 T35) as T25. split; [exact (touches_trans _ _ _ _ _ T1 T25)|].
  split_and!.
  - rewrite (down_kept _ _ _ _ _ T25) by outside. apply held_desk; [among|among|done].
  - rewrite (down_kept _ _ _ _ _ T35) by outside. apply held_desk; [among|among|done].
  - rewrite (down_kept _ _ _ _ _ T45) by outside. apply held_desk; [among|among|done].
  - rewrite (down_kept _ _ _ _ _ T5) by outside. apply held_desk; [among|among|done].
Qed.
Lemma lock_logic (Q : Prop) `{Decision Q} (want : bool) :
  (bool_decide Q = want ∧ Q ∨ bool_decide Q ≠ want ∧ ¬ Q) ↔ want = true.
Proof. case_bool_decide; destruct want; naive_solver. Qed.

(** Locks end as asked, if [GetKeyState] is up to date and nobody leans on
    the lock keys. *)
Lemma locks_synced s m l :
  (∀ g, is_toggled g VK_CAPITAL = bool_decide (place Key.CapsLock ∈ dk_toggled (desk g))) →
  (∀ g, is_toggled g VK_NUMLOCK = bool_decide (place Key.NumLock ∈ dk_toggled (desk g))) →
  Forall (λ k, k ∉ dk_keys (desk (sk_guest s))) lock_places →
  let d' := desk (sk_guest (win_modifier_sync s m l)) in
  (place Key.CapsLock ∈ dk_toggled d' ↔ has_bit l lock_state.CAPS = true) ∧
  (place Key.NumLock ∈ dk_toggled d' ↔ has_bit l lock_state.NUM = true).
Proof.
  intros Hcaps Hnum Hup d'. unfold d', win_modifier_sync, on_guest. cbn [sk_guest].
  set (g0 := sk_guest s) in *. set (g1 := sync_held _ Key.LeftShift _ _ _ g0). set (g2 := sync_held _ Key.LeftControl _ _ _ g1).
  set (g3 := sync_held _ Key.LeftAlt _ _ _ g2). set (g4 := sync_held _ Key.LeftMeta _ _ _ g3).
  set (g5 := sync_lock _ Key.CapsLock _ g4). set (g6 := sync_lock _ Key.NumLock _ g5). set (g7 := sync_lock _ Key.ScrollLock _ g6).
  assert (T4 : touches (shifts ++ controls ++ alts ++ metas) (desk g0) (desk g4)).
  { apply (touches_trans shifts _ _ (desk g1)); [apply held_touches; [among|among|done]|].
    apply (touches_trans controls _ _ (desk g2)); [apply held_touches; [among|among|done]|].
    apply (touches_trans alts metas _ (desk g3)); apply held_touches; [among|among|done|among|among|done]. }
  assert (T5 : touches [place Key.CapsLock] (desk g4) (desk g5)) by apply lock_touches.
  assert (T6 : touches [place Key.NumLock] (desk g5) (desk g6)) by apply lock_touches.
  assert (T7 : touches [place Key.ScrollLock] (desk g6) (desk g7)) by apply lock_touches.
  apply Forall_cons in Hup as [Hc Hup]. apply Forall_cons in Hup as [Hn _].
  assert (Hc4 : place Key.CapsLock ∉ dk_keys (desk g4)) by (rewrite (proj1 (proj2 T4 (place Key.CapsLock) ltac:(outside))); exact Hc).
  assert (Hn5 : place Key.NumLock ∉ dk_keys (desk g5)).
  { rewrite (proj1 (proj2 T5 (place Key.NumLock) ltac:(outside))), (proj1 (proj2 T4 (place Key.NumLock) ltac:(outside))). exact Hn. }
  destruct (lock_desk (has_bit l lock_state.CAPS) Key.CapsLock VK_CAPITAL g4) as (_ & _ & _ & Lc).
  destruct (lock_desk (has_bit l lock_state.NUM) Key.NumLock VK_NUMLOCK g5) as (_ & _ & _ & Ln).
  destruct (Lc Hc4) as [_ Lc']. destruct (Ln Hn5) as [_ Ln']. rewrite Hcaps in Lc'. rewrite Hnum in Ln'.
  split.
  - rewrite (proj2 (proj2 T7 (place Key.CapsLock) ltac:(outside))), (proj2 (proj2 T6 (place Key.CapsLock) ltac:(outside))).
    fold g5 in Lc'. rewrite Lc'. apply lock_logic.
  - rewrite (proj2 (proj2 T7 (place Key.NumLock) ltac:(outside))). fold g6 in Ln'. rewrite Ln'. apply lock_logic.
Qed.
End Flow.


(** C20: a modifier synchronisation leaves each of the four modifiers held, on
    one side or the other, exactly if its bit is set, whatever was held before;
    it changes no other key than these and the three locks, and neither pointer,
    buttons, wheel nor text. *)
Theorem modifiers_synced `{Win32Laws G} (s : WinInputSink (G:=G)) m l :
  let d := desk (sk_guest s) in let d' := desk (sk_guest (modifier_sync s m l)) in
  (down_in d' Key.LeftShift Key.RightShift ↔ has_bit m modifier.SHIFT = true) ∧
  (down_in d' Key.LeftControl Key.RightControl ↔ has_bit m modifier.CTRL = true) ∧
  (down_in d' Key.LeftAlt Key.RightAlt ↔ has_bit m modifier.ALT = true) ∧
  (down_in d' Key.LeftMeta Key.RightMeta ↔ has_bit m modifier.META = true) ∧
  touches (shifts ++ controls ++ alts ++ metas ++ lock_places) d d'.
Proof. intros d d'. destruct (modifier_sync_spec s m l) as (Ht & H1' & H2' & H3' & H4'). split_and!; [apply H1'|apply H2'|apply H3'|apply H4'|apply Ht]. Qed.


(** ** At a small desktop *)

Module SmallDesktop.

(** One window, 7, at (100, 50) of a screen of 1000 by 500, in front of which
    nothing can be put but it. *)
Record state : Type := mkState { sd_desk : Desk; sd_front : Z }.

Definition on_desk (f : Desk → Desk) (g : state) : state := mkState (f (sd_desk g)) (sd_front g).

Definition key_of (vk : Z) : option Key.t := snd <$> List.find (λ p, p.1 =? vk) modifier_keys.

#[global] Instance small : Win32 state := {
  ExtendedFrameBounds g h := if h =? 7 then Some (mkRect 100 50 300 250) else None;
  GetWindowRect _ _ := None;
  GetForegroundWindow := sd_front;
  SetForegroundWindow g h := if h =? 7 then mkState (sd_desk g) h else g;
  BringWindowToTop g _ := g;
  GetWindowThreadProcessId _ h := h;
  GetCurrentThreadId _ := 1;
  AttachThreadInput g _ _ _ := (g, true);
  GetSystemMetrics _ i := if i =? SM_CXVIRTUALSCREEN then 1000 else if i =? SM_CYVIRTUALSCREEN then 500 else 0;
  GetAsyncKeyState g vk :=
    match key_of vk with Some k => if decide (place k ∈ dk_keys (sd_desk g)) then -32768 else 0 | None => 0 end;
  GetKeyState g vk := 0;
  SendInput g es := on_desk (apply_inputs es) g;
  PostMessageW g _ _ := g;
  ShowWindow g _ _ := g;
  SetWindowPos g _ _ _ _ _ _ := g
}.

#[global] Instance small_laws : Win32Laws state.
Proof.
  refine {| desk := sd_desk |}; try done.
  - intros g h. cbn. by case_match.
  - intros g vk k Hk. unfold is_key_down. cbn [GetAsyncKeyState small].
    assert (key_of vk = Some k) as ->.
    { unfold modifier_keys in Hk. repeat (apply elem_of_cons in Hk as [[= -> ->]|Hk]; [done|]). by apply elem_of_nil in Hk. }
    case_decide; [by rewrite bool_decide_eq_true_2|by rewrite bool_decide_eq_false_2].
Defined.

Definition calm : state := mkState (mkDesk (0, 0) 0 (0, 0) ∅ ∅ []) 3.

(** A key, a press in the window, and a modifier held. *)
Definition morning : list SinkCall :=
  [KeyCall 0x1E false true; PointerCall 7 10 20 1 0 0; ModifierCall modifier.SHIFT 0].
End SmallDesktop.



(** A window focused once is taken to be in front for good: after another one
    has come to the front, a press goes in without a look. *)
Lemma focus_goes_stale :
  let s := fold_left sink_call [PointerCall 7 10 20 1 0 0; PointerCall 7 10 20 0 0 0] (WinInputSink_new SmallDesktop.calm) in
  let s := on_guest (λ g, SmallDesktop.mkState (SmallDesktop.sd_desk g) 3) s in
  let s' := pointer_event s 7 10 20 1 0 0 in
  GetForegroundWindow (sk_guest s') = 3 ∧ dk_buttons (desk (sk_guest s')) = 1.
Proof. split; reflexivity. Qed.
