(* ===== verification/InputPath.v ===== *)
(** * From the user's hands to the guest

    The whole way of a key or a button: [Winit] turns it into an event of the
    display, [ClientLoop] into a message, [ServeSession] says which call of the
    sink that is, [Inject] injects it. *)

From S2P Require Import Prelude MsgControl MsgInput ProtoMessage Scancode Registry Channel Serve ServeSession.
From S2P Require Import Latency Model Geometry LatencyMonitor Keys Presenter Display Winit WinitLife ClientLoop Inject InjectText InjectFlow.

(** ** What the user does in one window *)

Inductive act : Type :=
| Click (b : MouseButton.t) (st : ElementState)
| Stroke (k : KeyCode.t) (st : ElementState).

Definition as_event (a : act) : WindowEvent :=
  match a with Click b st => WMouseInput st b | Stroke k st => WKeyboardInput (Some k) st end.

Definition mask_of (acts : list act) : Z :=
  fold_left (λ m a, match a with Click b st => update_buttons m b st | Stroke _ _ => m end) acts 0.

(** The buttons and the scancodes held, by what happened to them last. *)
Definition clicks (acts : list act) : list (MouseButton.t * ElementState) :=
  omap (λ a, match a with Click b st => Some (b, st) | _ => None end) acts.

Definition stroke (a : act) (ks : gset (Z * bool)) : gset (Z * bool) :=
  match a with
  | Stroke k st =>
    match keycode_to_scancode k with
    | Some sc => if state_is_pressed st then {[(code sc, extended sc)]} ∪ ks else ks ∖ {[(code sc, extended sc)]}
    | None => ks
    end
  | Click _ _ => ks
  end.

Definition down (k : Z * bool) (acts : list act) : bool :=
  fold_left (λ h a,
    match a with
    | Stroke c st =>
      match keycode_to_scancode c with
      | Some sc => if decide ((code sc, extended sc) = k) then state_is_pressed st else h
      | None => h
      end
    | Click _ _ => h
    end) acts false.

(** The client sends [m] for [e], in some state of its session. *)
Definition sends (features : Z) (e : DisplayEvent.t) (m : Message.t) : Prop :=
  ∃ rd model g lat times x, handle_display_event features rd model g lat times e = Ok x ∧ hd_message x = Some m.

Section Path.
Context {P E : Type} `{PresenterOps P} `{WindowSystem E} {G : Type} `{Win32Laws G}.
Variable features : Z.
Variable fs : Features.
Variable r : WindowRegistry.
Variables native id h : Z.
Hypothesis registered : id_to_handle r !! id = Some h.
Implicit Types b : WinitBackend (P:=P) (E:=E).
Implicit Types s : WinInputSink (G:=G).

(** The events of one act. *)
Definition emitted_by (a : act) (mask x y : Z) : list DisplayEvent.t :=
  match a with
  | Click bt st => [DisplayEvent.Pointer id x y (update_buttons mask bt st) 0 0]
  | Stroke k st =>
    match keycode_to_scancode k with
    | Some sc => [DisplayEvent.Key (code sc) (state_is_pressed st) (extended sc)]
    | None => []
    end
  end.

Lemma act_step a b :
  b_by_winit_id b !! native = Some id →
  let b' := (app_step (AppWindow native (as_event a)) b).1 in
  b_by_winit_id b' !! native = Some id ∧
  b_pointer_buttons b' = match a with Click bt st => update_buttons (b_pointer_buttons b) bt st | Stroke _ _ => b_pointer_buttons b end ∧
  ∃ x y, b_events b' = b_events b ++ emitted_by a (b_pointer_buttons b) x y.
Proof.
  intros Hid. destruct a as [bt st|k st]; cbn [app_step as_event]; unfold handle_window_event; rewrite Hid.
  - destruct (pointer_at id _) as [x y]. cbn. split_and!; [done..|]. by exists x, y.
  - cbn [mbind option_bind emitted_by]. destruct (keycode_to_scancode k) as [sc|]; cbn.
    + split_and!; [done..|]. by exists 0, 0.
    + split_and!; [done..|]. exists 0, 0. by rewrite app_nil_r.
Qed.

Lemma events_grow acts : ∀ b, ∃ evs, b_events (app_run (map (λ a, AppWindow native (as_event a)) acts) b) = b_events b ++ evs.
Proof.
  induction acts as [|a acts IH]; intros b; [exists []; by rewrite app_nil_r|].
  destruct (IH (app_step (AppWindow native (as_event a)) b).1) as [evs Hevs].
  assert (Hstep : ∃ es, b_events (app_step (AppWindow native (as_event a)) b).1 = b_events b ++ es).
  { destruct (b_by_winit_id b !! native) as [i|] eqn:Ei.
    - destruct a as [bt st|k st]; cbn [app_step as_event]; unfold handle_window_event; rewrite Ei.
      + destruct (pointer_at i _) as [x y]. by eexists.
      + destruct (Some k ≫= keycode_to_scancode); [by eexists|exists []; by rewrite app_nil_r].
    - exists []. destruct a; cbn [app_step as_event]; unfold handle_window_event; rewrite Ei; by rewrite app_nil_r. }
  destruct Hstep as [es Hes]. exists (es ++ evs). cbn [map app_run fold_left]. unfold app_run in Hevs. by rewrite Hevs, Hes, app_assoc.
Qed.

(** What reaches the sink for the events of one act. *)
Definition guest_sees (msgs : list Message.t) s : WinInputSink := fold_left sink_call (concat (map (input_calls fs r) msgs)) s.

Lemma pointer_sent x y m msg : sends features (DisplayEvent.Pointer id x y m 0 0) msg → input_calls fs r msg = [PointerCall h x y m 0 0].
Proof. intros (rd & model & g & lat & times & hd & [= <-] & [= <-]). cbn. by rewrite registered. Qed.

Lemma key_sent c pressed ext msg : sends features (DisplayEvent.Key c pressed ext) msg → input_calls fs r msg = [KeyCall c ext pressed].
Proof. intros (rd & model & g & lat & times & hd & [= <-] & [= <-]). by destruct pressed, ext. Qed.
(** The guest after one act: the mask, and the keys. *)
Definition guest_ok (mask : Z) (ks : gset (Z * bool)) s : Prop :=
  sink_inv s ∧ last_focused s = Some h ∧ last_buttons s = mask ∧ dk_keys (desk (sk_guest s)) = ks.

Hypothesis bounds_known : ∀ g : G, is_Some (frame_bounds g h).

Lemma pointer_lands s x y m mask ks :
  u8 m → guest_ok mask ks s → guest_ok m ks (pointer_event s h x y m 0 0).
Proof.
  intros Hm (Hs & Hf & Hl & Hk). destruct (bounds_known (sk_guest s)) as [rect Hr].
  destruct (pointer_spec s h x y m 0 0 rect Hs) as (g & confirmed & _ & Ed & Hs' & Hc); [split_and!; [done|done|done]|done|].
  change (win_pointer_event s h x y m 0 0) with (pointer_event s h x y m 0 0) in *.
  destruct confirmed; [|by destruct Hc as (_ & Hn & _)]. split_and!; [done| | |by rewrite Ed].
  - unfold pointer_event, WinInputSink_sink, win_pointer_event. rewrite Hr. unfold focus_on_change. rewrite decide_True by done. by destruct (negb _).
  - unfold pointer_event, WinInputSink_sink, win_pointer_event. rewrite Hr. unfold focus_on_change. rewrite decide_True by done.
    destruct (negb _); cbn [last_buttons]; apply gate_confirmed.
Qed.

Lemma key_lands s c ext pressed mask ks :
  guest_ok mask ks s →
  guest_ok mask (if pressed : bool then {[(c, ext)]} ∪ ks else ks ∖ {[(c, ext)]}) (key_event s c ext pressed).
Proof.
  intros (Hs & Hf & Hl & Hk). split_and!; [by apply (call_inv s (KeyCall c ext pressed))|done|done|].
  cbn [key_event WinInputSink_sink win_key_event on_guest sk_guest]. rewrite desk_send_inputs. cbn [apply_inputs fold_left].
  rewrite scan_desk, <- Hk. by destruct pressed.
Qed.

Lemma act_lands a mask ks x y msgs s :
  0 ≤ mask < 32 → guest_ok mask ks s → Forall2 (sends features) (emitted_by a mask x y) msgs →
  guest_ok (match a with Click bt st => update_buttons mask bt st | Stroke _ _ => mask end) (stroke a ks) (guest_sees msgs s).
Proof.
  intros Hm Hs Hmsgs. unfold guest_sees. destruct a as [bt st|k st]; cbn [emitted_by stroke] in *.
  - apply Forall2_cons_inv_l in Hmsgs as (msg & rest & Hmsg & ->%Forall2_nil_inv_l & ->). cbn [map concat].
    rewrite (pointer_sent _ _ _ _ Hmsg). cbn [app fold_left sink_call]. apply (pointer_lands s x y _ mask ks); [|done].
    pose proof (update_buttons_range mask bt st Hm). unfold is_uint. simpl_pow. lia.
  - destruct (keycode_to_scancode k) as [sc|]; [|by apply Forall2_nil_inv_l in Hmsgs as ->].
    apply Forall2_cons_inv_l in Hmsgs as (msg & rest & Hmsg & ->%Forall2_nil_inv_l & ->). cbn [map concat].
    rewrite (key_sent _ _ _ _ Hmsg). cbn [app fold_left sink_call]. by apply key_lands.
Qed.

Lemma path_lands acts : ∀ b s evs msgs mask ks,
  b_by_winit_id b !! native = Some id → b_pointer_buttons b = mask → 0 ≤ mask < 32 → guest_ok mask ks s →
  b_events (app_run (map (λ a, AppWindow native (as_event a)) acts) b) = b_events b ++ evs → Forall2 (sends features) evs msgs →
  guest_ok (fold_left (λ m a, match a with Click bt st => update_buttons m bt st | Stroke _ _ => m end) acts mask)
    (fold_left (λ ks a, stroke a ks) acts ks) (guest_sees msgs s).
Proof.
  induction acts as [|a acts IH]; intros b s evs msgs mask ks Hid Hb Hm Hs Hev Hmsgs.
  - cbn in Hev. rewrite <- (app_nil_r (b_events b)) in Hev at 1. apply app_inv_head in Hev as <-.
    by apply Forall2_nil_inv_l in Hmsgs as ->.
  - destruct (act_step a b Hid) as (Hid' & Hb' & x & y & Hev'). set (b' := (app_step (AppWindow native (as_event a)) b).1) in *.
    change (b_events (app_run (map (λ a, AppWindow native (as_event a)) acts) b') = b_events b ++ evs) in Hev.
    destruct (events_grow acts b') as [evs' Hgrow]. rewrite Hgrow, Hev', <- app_assoc in Hev. apply app_inv_head in Hev as <-.
    apply Forall2_app_inv_l in Hmsgs as (m1 & m2 & Hm1 & Hm2 & ->). rewrite Hb in *.
    assert (Hs1 := act_lands a mask ks x y m1 s Hm Hs Hm1).
    assert (Hsees : guest_sees (m1 ++ m2) s = guest_sees m2 (guest_sees m1 s))
      by (unfold guest_sees; by rewrite map_app, concat_app, fold_left_app).
    rewrite Hsees. cbn [fold_left]. eapply (IH b'); [done|done| |exact Hs1|exact Hgrow|exact Hm2].
    destruct a; [by apply update_buttons_range|done].
Qed.
End Path.

Lemma mask_clicks acts m :
  fold_left (λ m a, match a with Click bt st => update_buttons m bt st | Stroke _ _ => m end) acts m =
  fold_left (λ m e, update_buttons m e.1 e.2) (clicks acts) m.
Proof. revert m. induction acts as [|[bt st|k st] acts IH]; intros m; [done|apply IH|apply IH]. Qed.

Lemma strokes_down k acts : ∀ ks h0,
  (k ∈ ks ↔ h0 = true) →
  (k ∈ fold_left (λ ks a, stroke a ks) acts ks ↔
   fold_left (λ h a,
    match a with
    | Stroke c st =>
      match keycode_to_scancode c with
      | Some sc => if decide ((code sc, extended sc) = k) then state_is_pressed st else h
      | None => h
      end
    | Click _ _ => h
    end) acts h0 = true).
Proof.
  induction acts as [|a acts IH]; intros ks h0 Hk; [done|]. cbn [fold_left]. apply IH. destruct a as [bt st|c st]; cbn [stroke]; [done|].
  destruct (keycode_to_scancode c) as [sc|]; [|done]. destruct st; cbn [state_is_pressed]; case_decide; set_solver.
Qed.


(** ** Locks *)

(** The client's events never say that a lock is on, and the agent takes them at
    their word: each change of a modifier, and each change of focus, turns Caps
    Lock and Num Lock off on the guest. *)
Lemma locks_forced_off `{Win32Laws G} features fs r modifiers msg (s : WinInputSink (G:=G)) :
  (∀ g, is_toggled g VK_CAPITAL = bool_decide (place Key.CapsLock ∈ dk_toggled (desk g))) →
  (∀ g, is_toggled g VK_NUMLOCK = bool_decide (place Key.NumLock ∈ dk_toggled (desk g))) →
  Forall (λ k, k ∉ dk_keys (desk (sk_guest s))) lock_places →
  sends features (DisplayEvent.Modifiers modifiers locks) msg →
  let d := desk (sk_guest (fold_left sink_call (input_calls fs r msg) s)) in
  (place Key.CapsLock ∉ dk_toggled d) ∧ (place Key.NumLock ∉ dk_toggled d).
Proof.
  intros Hc Hn Hup (rd & model & g & lat & times & hd & [= <-] & [= <-]) d.
  destruct (locks_synced s modifiers 0 Hc Hn Hup) as [H1' H2'].
  split; [intros Hin; apply H1' in Hin|intros Hin; apply H2' in Hin]; discriminate.
Qed.

(** ** At a small desktop *)

Module Hands.
Definition backend : WinitBackend (P:=unit) (E:=nat) :=
  app_run [AppCommand (DisplayCommand.CreateWindow (SimpleSystem.spec 2))] (WinitBackend_new 0%nat ()).
Definition registry : WindowRegistry := mkRegistry ∅ {[2 := 7]} 3 [] 16.
Definition sink : WinInputSink (G:=SmallDesktop.state) := mkSink SmallDesktop.calm (Some 7) 0.
Definition acts : list act :=
  [Stroke KeyCode.NumpadEnter Pressed; Click MouseButton.Left Pressed; Click MouseButton.Back Pressed; Click MouseButton.Left Released].
Definition events : list DisplayEvent.t :=
  [DisplayEvent.Key 0x1C true true; DisplayEvent.Pointer 2 0 0 1 0 0; DisplayEvent.Pointer 2 0 0 9 0 0; DisplayEvent.Pointer 2 0 0 8 0 0].
Definition pointer (buttons : Z) : Message.t := Message.PointerEvent (mkPointerEvent 2 0 0 buttons 0 0 5).
Definition messages : list Message.t := [Message.KeyEvent (mkKeyEvent 0x1C 3 5); pointer 1; pointer 9; pointer 8].
End Hands.

