(* ===== verification/ClientStart.v ===== *)
(** * The client from its command line to the session

    [crates/oxclient/src/main.rs] but for the windowed loop ([ClientLoop]): the
    command line, the choice of a log level and of the latency report, the
    connection over pinned TLS, the check of the agent's codec, and the headless
    loop over [Session] and [Decode]. TCP and TLS are a class. *)

From S2P Require Import Prelude Cursor MsgType MsgControl MsgInput MsgWindow Envelope Reassembly ProtoMessage Transport.
From S2P Require Import Handshake Model Latency Session Yuv Decode LatencyMonitor ClientLoop Text Security.

(** ** The command line *)

Record Cli : Type := mkCli {
  cli_host : list Z; cli_port : Z; cli_pin : list Z; cli_token_path : list Z; cli_name : list Z; cli_headless : bool
}.

(** The texts of the errors, by what they say. *)
Inductive CliError : Type :=
| TokenOnArgv
| RequiresValue (option : string)
| UnknownArgument (arg : list Z)
| ExtraArgument (arg : list Z)
| MissingHostPort
| MissingColon
| MissingHost
| InvalidPort (port : list Z)
| MissingPin
| MissingTokenFile.

(** The variables of the loop. *)
Record Flags : Type := mkFlags {
  f_host_port : option (list Z); f_pin : option (list Z); f_token : option (list Z); f_name : option (list Z); f_headless : bool
}.

Definition Flags_new : Flags := mkFlags None None None None false.

Definition arg_is (arg : list Z) (name : string) : bool := bool_decide (arg = bytes_of_string name).

Fixpoint take_args (args : list (list Z)) (f : Flags) : outcome CliError Flags :=
  match args with
  | [] => Ok f
  | arg :: args =>
    if arg_is arg "--token" then Err TokenOnArgv
    else if arg_is arg "--pin" then
      match args with
      | [] => Err (RequiresValue "--pin")
      | v :: args => take_args args (mkFlags (f_host_port f) (Some v) (f_token f) (f_name f) (f_headless f))
      end
    else if arg_is arg "--token-file" then
      match args with
      | [] => Err (RequiresValue "--token-file")
      | v :: args => take_args args (mkFlags (f_host_port f) (f_pin f) (Some v) (f_name f) (f_headless f))
      end
    else if arg_is arg "--name" then
      match args with
      | [] => Err (RequiresValue "--name")
      | v :: args => take_args args (mkFlags (f_host_port f) (f_pin f) (f_token f) (Some v) (f_headless f))
      end
    else if arg_is arg "--headless" then
      take_args args (mkFlags (f_host_port f) (f_pin f) (f_token f) (f_name f) true)
    else if starts_with (bytes_of_string "--") arg then Err (UnknownArgument arg)
    else
      match f_host_port f with
      | Some _ => Err (ExtraArgument arg)
      | None => take_args args (mkFlags (Some arg) (f_pin f) (f_token f) (f_name f) (f_headless f))
      end
  end.

(** [rsplit_once] *)
Definition rsplit_once (sep : Z) (text : list Z) : option (list Z * list Z) :=
  match split_once sep (rev text) with Some (back, front) => Some (rev front, rev back) | None => None end.

Definition finish_args (f : Flags) : outcome CliError Cli :=
  host_port ← ok_or (f_host_port f) MissingHostPort;
  hp ← ok_or (rsplit_once 0x3A host_port) MissingColon;
  let '(host, port_text) := hp in
  match host with
  | [] => Err MissingHost
  | _ =>
    port ← ok_or (parse_uint 16 port_text) (InvalidPort port_text);
    pin ← ok_or (f_pin f) MissingPin;
    token_path ← ok_or (f_token f) MissingTokenFile;
    Ok (mkCli host port pin token_path (default (bytes_of_string "oxclient") (f_name f)) (f_headless f))
  end.

Definition parse_args (args : list (list Z)) : outcome CliError Cli :=
  f ← take_args args Flags_new; finish_args f.

(** ** The environment *)

Inductive LevelFilter : Type := LogOff | LogError | LogWarn | LogInfo | LogDebug | LogTrace.

(** [install_logger]: the level for [OXCLIENT_LOG]. *)
Definition log_level (var : option (list Z)) : LevelFilter :=
  match var with
  | Some v =>
    if arg_is v "trace" then LogTrace else if arg_is v "debug" then LogDebug else if arg_is v "info" then LogInfo
    else if arg_is v "error" then LogError else if arg_is v "off" then LogOff else LogWarn
  | None => LogWarn
  end.

Definition ascii_lower (b : Z) : Z := if between 0x41 0x5A b then b + 0x20 else b.

(** [latency_monitor]: whether [OXCLIENT_LATENCY] turns it on. *)
Definition latency_wanted (var : option (list Z)) : bool :=
  match var with
  | Some v => negb (arg_is v "0") && negb (bool_decide (map ascii_lower v = bytes_of_string "off"))
  | None => false
  end.

(** ** Connecting *)

(** TCP and TLS: a TLS stream of a configuration, that is a pin, and the
    certificate the agent presented. *)
Class Network (N : Type) : Type := {
  tcp_connect : N → list Z → Z → outcome (list Z) N;
  set_nodelay : N → outcome (list Z) N;
  valid_server_name : list Z → bool;
  tls_connect : N → list Z → list Z → outcome (list Z) (N * list Z)
}.

Inductive ConnectError : Type :=
| Sec (e : SecError)
| NetIo (message : list Z)
| BadServerName (host : list Z).

Definition synthetic_output : Output := mkOutput 0 0 0 1920 1080 1 1 60000.

(** The configuration the handshake is run with, and the stream it runs on. *)
Record Prepared (N : Type) : Type := mkPrepared { pr_config : SessionConfig; pr_stream : N; pr_cert : list Z }.
Arguments mkPrepared {N} _ _ _.
Arguments pr_config {N} _.
Arguments pr_stream {N} _.
Arguments pr_cert {N} _.

(** [connect_session] up to [ClientSession::connect]. *)
Definition connect_session {R F N} `{Certificates R} `{Files F} `{Network N} (feature_h264 : bool) (files : F) (net : N) (cli : Cli) :
    outcome ConnectError (Prepared N) :=
  auth_token ← map_err Sec (load_token files (cli_token_path cli));
  tls_config ← map_err Sec (client_config_pinned (cli_pin cli));
  tcp ← map_err NetIo (tcp_connect net (cli_host cli) (cli_port cli));
  tcp ← map_err NetIo (set_nodelay tcp);
  if negb (valid_server_name (cli_host cli)) then Err (BadServerName (cli_host cli))
  else
    tls ← map_err NetIo (tls_connect tcp tls_config (cli_host cli));
    Ok (mkPrepared (mkConfig auth_token (cli_name cli) (preferred_codecs feature_h264) (mkDisplayLayout [synthetic_output])) tls.1 tls.2).

(** ** [run] *)

(** The refusal of an agent that chose a codec the client does not have; its
    text is [message]. The two sends, each under its schedule. *)
Definition refuse_codec (s : ClientSession) (message : list Z) (evs1 evs2 : list write_event) (wire : list Z)
    : ClientSession * list Z * io_result unit :=
  match send s (Message.Error (mkError error_code.UNSUPPORTED_CODEC message)) evs1 wire with
  | (s, wire, Done _) => send s (Message.Close (mkClose close_reason.ERROR)) evs2 wire
  | r => r
  end.

Section Headless.
Context `{OpenH264} `{I32x8} (feature_h264 : bool) (features : Z).

(** A turn of the headless loop: its wait for an event, the schedule of its
    acknowledgement, and the two readings of the clock. *)
Record headless_turn : Type := mkHeadlessTurn { ht_next : list turn; ht_ack : list write_event; ht_decoded : Z; ht_presented : Z }.

Inductive headless_end : Type :=
| HeadlessDone
| HeadlessWaits
| HeadlessError (k : io_kind)
| HeadlessPanic.

(** [send_frame_ack]: its calls of the session, too. *)
Definition send_frame_ack (s : ClientSession) (window_id frame_id decoded_us presented_us : Z) (evs : list write_event) (wire : list Z)
    : ClientSession * list Z * list session_op * io_result unit :=
  match frame_ack features window_id frame_id decoded_us presented_us with
  | Some ack => let '(s, wire, r) := send s ack evs wire in (s, wire, [Send ack evs], r)
  | None => (s, wire, [], Done ())
  end.

(** [run_headless] on its turns: the session, what was written, the session's
    calls made, and how it ended. A decode that fails is acknowledged all the same. *)
Fixpoint run_headless (turns : list headless_turn) (s : ClientSession) (sock wire : list Z) (ws : WindowDecoders)
    : ClientSession * list Z * list Z * WindowDecoders * list session_op * headless_end :=
  match turns with
  | [] => (s, sock, wire, ws, [], HeadlessWaits)
  | t :: turns =>
    let wait := Next (ht_next t) in
    match next_event (ht_next t) s sock wire with
    | (s, sock, wire, Done None) => (s, sock, wire, ws, [wait], HeadlessDone)
    | (s, sock, wire, Dropped) => (s, sock, wire, ws, [wait], HeadlessWaits)
    | (s, sock, wire, IoErr k) => (s, sock, wire, ws, [wait], HeadlessError k)
    | (s, sock, wire, Panicked) => (s, sock, wire, ws, [wait], HeadlessPanic)
    | (s, sock, wire, Done (Some (ClientEvent.Frame frame))) =>
      match windows_decode feature_h264 ws frame with
      | (ws, Panic) => (s, sock, wire, ws, [wait], HeadlessPanic)
      | (ws, _) =>
        match send_frame_ack s (fd_window_id frame) (fd_frame_id frame) (ht_decoded t) (ht_presented t) (ht_ack t) wire with
        | (s, wire, sent, Done _) =>
          let '(s, sock, wire, ws, ops, e) := run_headless turns s sock wire ws in
          (s, sock, wire, ws, wait :: sent ++ ops, e)
        | (s, wire, sent, Dropped) => (s, sock, wire, ws, wait :: sent, HeadlessWaits)
        | (s, wire, sent, IoErr k) => (s, sock, wire, ws, wait :: sent, HeadlessError k)
        | (s, wire, sent, Panicked) => (s, sock, wire, ws, wait :: sent, HeadlessPanic)
        end
      end
    | (s, sock, wire, Done (Some ev)) =>
      let ws := match ev with ClientEvent.WindowClosed c => windows_forget ws (wcl_window_id c) | _ => ws end in
      let '(s, sock, wire, ws, ops, e) := run_headless turns s sock wire ws in (s, sock, wire, ws, wait :: ops, e)
    end
  end.
End Headless.

(** ** The command line: lemmas *)

(** What may stand on the command line. *)
Inductive argument : Type :=
| HostPort (v : list Z)
| PinArg (v : list Z)
| TokenFileArg (v : list Z)
| NameArg (v : list Z)
| HeadlessArg.

Definition render (a : argument) : list (list Z) :=
  match a with
  | HostPort v => [v]
  | PinArg v => [bytes_of_string "--pin"; v]
  | TokenFileArg v => [bytes_of_string "--token-file"; v]
  | NameArg v => [bytes_of_string "--name"; v]
  | HeadlessArg => [bytes_of_string "--headless"]
  end.

Definition note (f : Flags) (a : argument) : Flags :=
  match a with
  | HostPort v => mkFlags (Some v) (f_pin f) (f_token f) (f_name f) (f_headless f)
  | PinArg v => mkFlags (f_host_port f) (Some v) (f_token f) (f_name f) (f_headless f)
  | TokenFileArg v => mkFlags (f_host_port f) (f_pin f) (Some v) (f_name f) (f_headless f)
  | NameArg v => mkFlags (f_host_port f) (f_pin f) (f_token f) (Some v) (f_headless f)
  | HeadlessArg => mkFlags (f_host_port f) (f_pin f) (f_token f) (f_name f) true
  end.

(** No host yet, and a host is not an option. *)
Definition fits (f : Flags) (a : argument) : Prop :=
  match a with HostPort v => f_host_port f = None ∧ starts_with (bytes_of_string "--") v = false | _ => True end.

Inductive noted : Flags → list argument → Flags → Prop :=
| noted_nil f : noted f [] f
| noted_cons f a args f' : fits f a → noted (note f a) args f' → noted f (a :: args) f'.

Lemma arg_is_true arg name : arg_is arg name = true → arg = bytes_of_string name.
Proof. apply bool_decide_eq_true_1. Qed.

Lemma take_args_render f a args : fits f a → take_args (render a ++ args) f = take_args args (note f a).
Proof.
  destruct a as [v|v|v|v|]; cbn [render note fits app]; try done. intros [Hn Hv]. cbn [take_args].
  repeat match goal with
    | |- context [arg_is v ?name] =>
      let E := fresh "Ea" in destruct (arg_is v name) eqn:E; [apply arg_is_true in E as ->; vm_compute in Hv; discriminate|]
    end.
  by rewrite Hv, Hn.
Qed.

Lemma take_args_inv args f f' :
  take_args args f = Ok f' → ∃ given, args = concat (map render given) ∧ noted f given f'.
Proof.
  remember (length args) as n eqn:Hn. revert args f Hn. induction n as [n IH] using lt_wf_ind. intros args f Hn.
  assert (∀ a rest, args = render a ++ rest → fits f a → take_args rest (note f a) = Ok f' →
    ∃ given, args = concat (map render given) ∧ noted f given f') as Hgo.
  { intros a rest -> Hf Ht. destruct (IH (length rest)) with (args := rest) (f := note f a) as (given & -> & Hg);
      [rewrite Hn, length_app; destruct a; cbn; lia|done|done|].
    exists (a :: given). split; [done|by constructor]. }
  destruct args as [|arg args]; [intros [= <-]; exists []; split; [done|constructor]|]. cbn [take_args].
  destruct (arg_is arg "--token"); [done|].
  destruct (arg_is arg "--pin") eqn:E1; [apply arg_is_true in E1 as ->; destruct args as [|v args]; [done|]; by apply (Hgo (PinArg v) args)|].
  destruct (arg_is arg "--token-file") eqn:E2; [apply arg_is_true in E2 as ->; destruct args as [|v args]; [done|]; by apply (Hgo (TokenFileArg v) args)|].
  destruct (arg_is arg "--name") eqn:E3; [apply arg_is_true in E3 as ->; destruct args as [|v args]; [done|]; by apply (Hgo (NameArg v) args)|].
  destruct (arg_is arg "--headless") eqn:E4; [apply arg_is_true in E4 as ->; by apply (Hgo HeadlessArg args)|].
  destruct (starts_with _ arg) eqn:E5; [done|]. destruct (f_host_port f) eqn:E6; [done|].
  intros Ht. by apply (Hgo (HostPort arg) args).
Qed.

(** The command lines accepted are exactly the options in any order, each but
    [--headless] with its value and the last one counting, with one host and port
    among them; so the token itself has no place on a command line. *)
Theorem cli_grammar args cli :
  parse_args args = Ok cli ↔
  ∃ given f, args = concat (map render given) ∧ noted Flags_new given f ∧ finish_args f = Ok cli.
Proof.
  unfold parse_args. split.
  - destruct (take_args args Flags_new) as [f| |] eqn:Et; [|done..]. intros Hf.
    destruct (take_args_inv _ _ _ Et) as (given & Ha & Hg). by exists given, f.
  - intros (given & f & -> & Hg & Hf). assert (take_args (concat (map render given)) Flags_new = Ok f) as ->; [|exact Hf].
    clear Hf. induction Hg as [|f0 a given f1 Hfit _ IH]; [done|]. cbn [map concat]. by rewrite take_args_render.
Qed.

(** Splitting at the last colon undoes joining with one. *)
Lemma rsplit_once_join sep front back : sep ∉ back → rsplit_once sep (front ++ sep :: back) = Some (front, back).
Proof.
  intros Hb. unfold rsplit_once. rewrite rev_app_distr. cbn [rev]. rewrite <- app_assoc. cbn [app].
  assert (split_once sep (rev back ++ sep :: rev front) = Some (rev back, rev front)) as ->; [|by rewrite !rev_involutive].
  assert (sep ∉ rev back) as Hr by (rewrite list_elem_of_In, <- in_rev, <- list_elem_of_In; done).
  induction (rev back) as [|c l IH]; cbn [app split_once]; [by rewrite Z.eqb_refl|].
  rewrite not_elem_of_cons in Hr. destruct Hr as [Hc Hr]. rewrite (proj2 (Z.eqb_neq c sep)) by congruence. by rewrite IH.
Qed.

(** ** Connecting: lemmas *)

(** A TLS handshake only ends well once the verifier has accepted the
    certificate presented. *)
Class NetworkLaws (N R : Type) `{Certificates R} `{Network N} : Prop :=
  tls_verified net pin name net' cert : tls_connect net pin name = Ok (net', cert) → verify_server_cert pin cert = Ok ().

(** The stream the token is sent on is one whose far end has the key pinned. *)
Lemma token_sent_to_pin {R F N} `{CertificatesLaws R} `{Files F} `{Network N} `{!NetworkLaws N R} h264 (files : F) (net : N) cli prepared :
  connect_session h264 files net cli = Ok prepared →
  spki_pin (mkIdentity (pr_cert prepared) []) = Ok (cli_pin cli) ∧
  load_token files (cli_token_path cli) = Ok (cf_auth_token (pr_config prepared)).
Proof.
  unfold connect_session. destruct (load_token files _) as [token| |]; [|done..]. cbn.
  destruct (client_config_pinned (cli_pin cli)) as [pin| |] eqn:Ep; [|done..]. cbn.
  destruct (tcp_connect _ _ _) as [tcp| |]; [|done..]. cbn. destruct (set_nodelay tcp) as [tcp'| |]; [|done..]. cbn.
  destruct (valid_server_name _); [|done]. cbn.
  destruct (tls_connect tcp' pin (cli_host cli)) as [[tls cert]| |] eqn:Et; [|done..]. cbn. intros [= <-]. cbn.
  split; [|done]. pose proof (tls_verified _ _ _ _ _ Et) as Hv.
  apply (pinned_key R). by exists pin.
Qed.

(** ** The headless loop: lemmas *)

Definition ack_ids (op : session_op) : option (Z * Z) :=
  match op with Send (Message.FrameAck a) _ => Some (fa_window_id a, fa_frame_id a) | _ => None end.
Definition frame_ids (ev : ClientEvent.t) : option (Z * Z) :=
  match ev with ClientEvent.Frame f => Some (fd_window_id f, fd_frame_id f) | _ => None end.

(** What a run of calls got and acknowledged. *)
Definition acknowledges (features : Z) (ops : list session_op) (evs : list ClientEvent.t) : Prop :=
  omap ack_ids ops = if has_feature features feature.FRAME_ACK then omap frame_ids evs else [].

(** An acknowledgement is a use of the session. *)
Lemma send_frame_ack_spec features s sock wire f d p evs0 s' wire' sent r :
  send_frame_ack features s (fd_window_id f) (fd_frame_id f) d p evs0 wire = (s', wire', sent, r) →
  acknowledges features sent [ClientEvent.Frame f] ∧
  ∀ ops, run_session (sent ++ ops) s sock wire = run_session ops s' sock wire'.
Proof.
  unfold send_frame_ack, frame_ack, acknowledges. destruct (has_feature _ _).
  - destruct (send s _ evs0 wire) as [[s1 wire1] r1] eqn:Es. intros [= <- <- <- <-]. split; [done|]. intros ops.
    cbn [app run_session]. by rewrite Es.
  - by intros [= <- <- <- <-].
Qed.

Lemma acknowledges_app features ops1 ops2 evs1 evs2 :
  acknowledges features ops1 evs1 → acknowledges features ops2 evs2 → acknowledges features (ops1 ++ ops2) (evs1 ++ evs2).
Proof. unfold acknowledges. rewrite !omap_app. destruct (has_feature _ _); by intros -> ->. Qed.

Lemma acknowledges_nil features ops : omap ack_ids ops = [] → acknowledges features ops [].
Proof. unfold acknowledges. by destruct (has_feature _ _). Qed.

(** The headless loop is a use of the session, to which [Session] applies: it
    gets the session's events, and unless a decoder panics it acknowledges each
    frame among them once, in order, decoded or not. *)
Theorem headless_acks `{OpenH264} `{I32x8} h264 features turns : ∀ s sock wire ws,
  let '(s', sock', wire', _, ops, e) := run_headless h264 features turns s sock wire ws in
  ∃ evs ok, run_session ops s sock wire = (s', sock', wire', evs, ok) ∧ (e ≠ HeadlessPanic → acknowledges features ops evs).
Proof.
  induction turns as [|t turns IH]; intros s sock wire ws; cbn [run_headless].
  { exists [], true. split; [done|]. intros _. by apply acknowledges_nil. }
  destruct (next_event (ht_next t) s sock wire) as [[[s1 sock1] wire1] r] eqn:En.
  assert (∀ ops, run_session (Next (ht_next t) :: ops) s sock wire =
    if corrupt r then (s1, sock1, wire1, [], false)
    else let '(s, sock, wire, evs, ok) := run_session ops s1 sock1 wire1 in (s, sock, wire, surfaced r ++ evs, ok)) as Hnext.
  { intros ops. cbn [run_session]. by rewrite En. }
  assert (∀ ev ws1, r = Done (Some ev) → frame_ids ev = None →
    let '(s', sock', wire', _, ops, e) :=
      let '(s', sock', wire', ws', ops, e) := run_headless h264 features turns s1 sock1 wire1 ws1 in
      (s', sock', wire', ws', Next (ht_next t) :: ops, e) in
    ∃ evs ok, run_session ops s sock wire = (s', sock', wire', evs, ok) ∧ (e ≠ HeadlessPanic → acknowledges features ops evs)) as Hother.
  { intros ev ws1 -> Hev. specialize (IH s1 sock1 wire1 ws1).
    destruct (run_headless h264 features turns s1 sock1 wire1 ws1) as [[[[[s' sock'] wire'] ws'] ops] e].
    destruct IH as (evs & ok & Hr & Ha). exists (ev :: evs), ok. rewrite Hnext, Hr. split; [done|]. intros He.
    unfold acknowledges in *. cbn [omap list_omap ack_ids]. rewrite Hev. by apply Ha. }
  destruct r as [[ev|]|k| |].
  - destruct ev as [m|m|m|m|m|m|m|frame|m|m|m|m|m]; try exact (Hother _ _ eq_refl eq_refl).
    destruct (windows_decode h264 ws frame) as [ws1 d]. clear Hother.
    destruct (send_frame_ack features s1 _ _ _ _ _ wire1) as [[[s2 wire2] sent] r] eqn:Es.
    destruct (send_frame_ack_spec _ _ sock1 _ _ _ _ _ _ _ _ _ Es) as [Hack Hsent].
    assert (∀ ops s' sock' wire' evs ok, run_session ops s2 sock1 wire2 = (s', sock', wire', evs, ok) →
      run_session (Next (ht_next t) :: sent ++ ops) s sock wire = (s', sock', wire', ClientEvent.Frame frame :: evs, ok)) as Hgo.
    { intros ops s' sock' wire' evs ok Hr. rewrite Hnext, Hsent, Hr. done. }
    assert (∃ evs ok, run_session (Next (ht_next t) :: sent) s sock wire = (s2, sock1, wire2, evs, ok) ∧
      acknowledges features (Next (ht_next t) :: sent) evs) as (evs1 & ok1 & Hr1 & Ha1).
    { exists [ClientEvent.Frame frame], true. split; [|exact Hack]. rewrite <- (app_nil_r sent). by apply Hgo. }
    specialize (IH s2 sock1 wire2 ws1).
    destruct (run_headless h264 features turns s2 sock1 wire2 ws1) as [[[[[s' sock'] wire'] ws'] ops] e].
    destruct IH as (evs & ok & Hr & Ha).
    destruct d; [destruct r as [[]|k| |]|destruct r as [[]|k| |]|by exists [ClientEvent.Frame frame], true; rewrite Hnext];
      try (by exists evs1, ok1);
      (exists (ClientEvent.Frame frame :: evs), ok; split; [by apply Hgo|]; intros He;
       exact (acknowledges_app _ (Next (ht_next t) :: sent) _ [_] _ Hack (Ha He))).
  - exists [], true. rewrite Hnext. split; [done|]. intros _. by apply acknowledges_nil.
  - exists [], (negb (corrupt (IoErr k : io_result (option ClientEvent.t)))). rewrite Hnext.
    split; [by destruct k|]. intros _. by apply acknowledges_nil.
  - exists [], true. rewrite Hnext. split; [done|]. intros _. by apply acknowledges_nil.
  - exists [], true. by rewrite Hnext.
Qed.

Example cli_example :
  parse_args (map bytes_of_string ["--headless"; "::1:7644"; "--pin"; "ab"; "--token-file"; "t"; "--pin"; "cd"]) =
  Ok (mkCli (bytes_of_string "::1") 7644 (bytes_of_string "cd") (bytes_of_string "t") (bytes_of_string "oxclient") true).
Proof. reflexivity. Qed.

Example cli_refusals :
  parse_args (map bytes_of_string ["h:1"; "--token"; "secret"]) = Err TokenOnArgv ∧
  parse_args (map bytes_of_string ["h:65536"; "--pin"; "p"; "--token-file"; "t"]) = Err (InvalidPort (bytes_of_string "65536")) ∧
  parse_args (map bytes_of_string ["h:1"; "i:2"]) = Err (ExtraArgument (bytes_of_string "i:2")) ∧
  parse_args (map bytes_of_string [":1"; "--pin"]) = Err (RequiresValue "--pin").
Proof. repeat split; reflexivity. Qed.

Example environment :
  log_level None = LogWarn ∧ log_level (Some (bytes_of_string "off")) = LogOff ∧ latency_wanted None = false ∧
  latency_wanted (Some (bytes_of_string "OFF")) = false ∧ latency_wanted (Some (bytes_of_string "1")) = true.
Proof. repeat split; reflexivity. Qed.
