(* ===== verification/WinCall.v ===== *)
(** * Calls into Windows

    The layer the capture and the encoder of [crates/oxagent/src/win] share: a
    call that returns a value or an [HRESULT], the [?] that passes the code on,
    methods that change the object they are called on between such calls, and
    what is needed to reason about a run of them. *)

From S2P Require Import Prelude.

(** ** Calls that fail with an [HRESULT]

    A failed call may have changed the machine all the same; the agent's own code
    between the calls may panic. *)

Definition ffi (P A : Type) : Type := P → P * outcome Z A.

#[export] Instance ffi_ret {P} : MRet (ffi P) := λ _ a p, (p, Ok a).
#[export] Instance ffi_bind {P} : MBind (ffi P) := λ _ _ f m p,
  match m p with
  | (p, Ok a) => f a p
  | (p, Err e) => (p, Err e)
  | (p, Panic) => (p, Panic)
  end.

(** A call into Windows: it returns, with a value or a code. *)
Definition com (P A : Type) : Type := P → P * (A + Z).

Definition call {P A} (m : com P A) : ffi P A := λ p,
  match m p with (p, inl a) => (p, Ok a) | (p, inr hr) => (p, Err hr) end.

(** A call without a result. *)
Definition effect {P} (f : P → P) : ffi P unit := λ p, (f p, Ok tt).

Definition throw {P A} (hr : Z) : ffi P A := λ p, (p, Err hr).

(** [let _ = call]: whatever comes of it, the code goes on. *)
Definition ignore {P A} (m : com P A) : ffi P unit := λ p, ((m p).1, Ok tt).

(** [call.ok()] *)
Definition attempt {P A} (m : com P A) : ffi P (option A) := λ p,
  match m p with (p, inl a) => (p, Ok (Some a)) | (p, inr _) => (p, Ok None) end.

(** [Option::ok_or_else] *)
Definition some_or {P A} (hr : Z) (o : option A) : ffi P A :=
  match o with Some a => mret a | None => throw hr end.

Definition S_OK : Z := 0.
Definition E_POINTER : Z := 0x80004003.
Definition E_FAIL : Z := 0x80004005.

(** [HRESULT::is_ok]: the sign bit of the code is clear. *)
Definition hr_is_ok (hr : Z) : bool := negb (Z.testbit hr 31).

(** ** Methods on an object

    The machine and the object whose method runs. *)

Section Methods.
Context {P C : Type}.

Definition api {A} (m : com P A) : ffi (P * C) A := λ '(p, c), let '(p, r) := call m p in ((p, c), r).
Definition act (f : P → P) : ffi (P * C) unit := λ '(p, c), ((f p, c), Ok tt).
Definition self {A} (f : C → A) : ffi (P * C) A := λ '(p, c), ((p, c), Ok (f c)).
Definition update (f : C → C) : ffi (P * C) unit := λ '(p, c), ((p, f c), Ok tt).
End Methods.

(** ** Reasoning about calls *)

(** What holds after a run, whichever way it ended. *)
Definition ends {P A} (m : ffi P A) (p : P) (Q : P → outcome Z A → Prop) : Prop := Q (m p).1 (m p).2.

Lemma ends_bind {P A B} (m : ffi P A) (f : A → ffi P B) p (Q : P → outcome Z B → Prop) :
  ends m p (λ p' r, match r with Ok a => ends (f a) p' Q | Err e => Q p' (Err e) | Panic => Q p' Panic end) →
  ends (m ≫= f) p Q.
Proof. unfold ends, mbind, ffi_bind. by destruct (m p) as [p' [a|e|]]. Qed.

Lemma ends_ret {P A} (a : A) (p : P) (Q : P → outcome Z A → Prop) : Q p (Ok a) → ends (mret a) p Q.
Proof. done. Qed.

Lemma ends_mono {P A} (m : ffi P A) p (Q1 Q2 : P → outcome Z A → Prop) :
  ends m p Q1 → (∀ p' r, Q1 p' r → Q2 p' r) → ends m p Q2.
Proof. intros H1 H2. by apply H2. Qed.

Section Steps.
Context {P C A : Type}.

Lemma ends_api (m : com P A) p (c : C) (Q : P * C → outcome Z A → Prop) :
  match m p with (p', inl a) => Q (p', c) (Ok a) | (p', inr hr) => Q (p', c) (Err hr) end → ends (api m) (p, c) Q.
Proof. unfold ends, api, call. by destruct (m p) as [p' [a|hr]]. Qed.

Lemma ends_call (m : com P A) p (Q : P → outcome Z A → Prop) :
  match m p with (p', inl a) => Q p' (Ok a) | (p', inr hr) => Q p' (Err hr) end → ends (call m) p Q.
Proof. unfold ends, call. by destruct (m p) as [p' [a|hr]]. Qed.

Lemma ends_effect (f : P → P) p (Q : P → outcome Z unit → Prop) : Q (f p) (Ok tt) → ends (effect f) p Q.
Proof. done. Qed.

Lemma ends_ignore (m : com P A) p (Q : P → outcome Z unit → Prop) : Q (m p).1 (Ok tt) → ends (ignore m) p Q.
Proof. done. Qed.

Lemma ends_attempt (m : com P A) p (Q : P → outcome Z (option A) → Prop) :
  match m p with (p', inl a) => Q p' (Ok (Some a)) | (p', inr _) => Q p' (Ok None) end → ends (attempt m) p Q.
Proof. unfold ends, attempt. by destruct (m p) as [p' [a|hr]]. Qed.

Lemma ends_self (f : C → A) (p : P) c (Q : P * C → outcome Z A → Prop) : Q (p, c) (Ok (f c)) → ends (self f) (p, c) Q.
Proof. done. Qed.

Lemma ends_act (f : P → P) p (c : C) (Q : P * C → outcome Z unit → Prop) : Q (f p, c) (Ok tt) → ends (act f) (p, c) Q.
Proof. done. Qed.

Lemma ends_update (f : C → C) (p : P) c (Q : P * C → outcome Z unit → Prop) : Q (p, f c) (Ok tt) → ends (update f) (p, c) Q.
Proof. done. Qed.
End Steps.

(** One call after the other; a file adds the calls of its own. *)
Ltac ends_call := first [apply ends_bind | apply ends_ret | apply ends_self | apply ends_act | apply ends_update
                        | apply ends_api | apply ends_call | apply ends_effect | apply ends_ignore | apply ends_attempt].
Ltac ends_step := ends_call; cbn beta iota.
Ltac ends_steps := repeat ends_step.

(** ** Runs without a panic *)

Definition quiet {P A} (m : ffi P A) : Prop := ∀ p, (m p).2 ≠ Panic.

Section Quiet.
Context {P : Type} {A : Type}.

Lemma quiet_bind {B} (m : ffi P A) (f : A → ffi P B) : quiet m → (∀ a, quiet (f a)) → quiet (m ≫= f).
Proof. intros Hm Hf p. unfold mbind, ffi_bind. specialize (Hm p). destruct (m p) as [p' [a|e|]]; [apply Hf|done|done]. Qed.

Lemma quiet_ret (a : A) : quiet (P:=P) (mret a).
Proof. done. Qed.

Lemma quiet_call (m : com P A) : quiet (call m).
Proof. intros p. unfold call. by destruct (m p) as [p' [a|e]]. Qed.

Lemma quiet_ignore (m : com P A) : quiet (ignore m).
Proof. done. Qed.

Lemma quiet_attempt (m : com P A) : quiet (attempt m).
Proof. intros p. unfold attempt. by destruct (m p) as [p' [a|e]]. Qed.

Lemma quiet_throw hr : quiet (P:=P) (A:=A) (throw hr).
Proof. done. Qed.

Lemma quiet_effect (f : P → P) : quiet (effect f).
Proof. done. Qed.

Lemma quiet_some_or hr (o : option A) : quiet (P:=P) (some_or hr o).
Proof. by destruct o. Qed.
End Quiet.

Create HintDb quiet.
#[export] Hint Resolve quiet_bind quiet_ret quiet_call quiet_ignore quiet_attempt quiet_throw quiet_effect quiet_some_or : quiet.

(** Through binds, conditionals and matches down to the calls. *)
Ltac quiet :=
  repeat match goal with
  | |- quiet (_ ≫= _) => apply quiet_bind; [|intros ?]
  | |- quiet (match ?x with _ => _ end) => destruct x
  | |- quiet _ => solve [auto with quiet]
  end.
