(* ===== verification/WinSource.v ===== *)
(** * The guest's windows

    [crates/oxagent/src/win/enumerate.rs] and [appid.rs]: which top-level windows
    of the guest are shared, how each is described, and which application it
    belongs to. The Win32 queries are a class, as the calls of [Inject] are; a
    query that changes the guest (a process handle opened or closed) returns it
    changed. A guest that changes while it is being asked answers like one that
    does not, as no law relates the answers to two different queries. *)

From S2P Require Import Prelude Wire Inject InjectText.

(** ** The platform's side *)

Definition GWL_STYLE : Z := -16.
Definition GWL_EXSTYLE : Z := -20.
Definition WS_CHILD : Z := 0x40000000.
Definition WS_CAPTION : Z := 0xC00000.
Definition WS_THICKFRAME : Z := 0x40000.
Definition WS_EX_TOOLWINDOW : Z := 0x80.
Definition WS_EX_TOPMOST : Z := 0x8.
Definition PROCESS_QUERY_LIMITED_INFORMATION : Z := 0x1000.
Definition PROCESS_NAME_WIN32 : Z := 0.

Class WinGuest (G : Type) : Type := {
  (** The handles [EnumWindows] hands to its callback, in that order. *)
  EnumWindows : G → list Z;
  GetShellWindow : G → Z;
  IsWindowVisible : G → Z → bool;
  GetWindowTextLengthW : G → Z → Z;
  (** Of a buffer of some length: the value returned and the buffer after. *)
  GetWindowTextW : G → Z → Z → Z * list Z;
  GetWindowLongPtrW : G → Z → Z → Z;
  (** [DwmGetWindowAttribute] of [DWMWA_CLOAKED]. *)
  Cloaked : G → Z → option Z;
  IsIconic : G → Z → bool;
  IsZoomed : G → Z → bool;
  (** Where the client area's origin is on the screen. *)
  ClientToScreen : G → Z → option (Z * Z);
  (** The thread returned by [GetWindowThreadProcessId] and the process written. *)
  WindowThreadProcess : G → Z → Z * Z;
  OpenProcess : G → Z → Z → G * option Z;
  CloseHandle : G → Z → G;
  (** Of a handle and a buffer's length: the length written and the buffer. *)
  QueryFullProcessImageNameW : G → Z → Z → Z → option (Z * list Z)
}.

(** ** Strings from Windows *)

Definition REPLACEMENT_CHARACTER : Z := 0xFFFD.

(** [char::decode_utf16], with what is no pair replaced. *)
Fixpoint decode_lossy (us : list Z) : list Z :=
  match us with
  | [] => []
  | u :: r =>
    if negb (between 0xD800 0xDFFF u) then u :: decode_lossy r
    else if 0xDC00 <=? u then REPLACEMENT_CHARACTER :: decode_lossy r
    else
      match r with
      | [] => [REPLACEMENT_CHARACTER]
      | v :: r' =>
        if between 0xDC00 0xDFFF v
        then (Z.lor (Z.shiftl (Z.land u 0x3FF) 10) (Z.land v 0x3FF) + 0x10000) :: decode_lossy r'
        else REPLACEMENT_CHARACTER :: decode_lossy r
      end
  end.

Definition from_utf16_lossy (us : list Z) : list Z := flat_map utf8_of (decode_lossy us).

Definition to_ascii_lowercase (bs : list Z) : list Z := map (λ b, if between 0x41 0x5A b then b + 0x20 else b) bs.

(** ** [Path::file_name] on Windows *)

Definition SEP : Z := 0x5C.
Definition is_sep_byte (b : Z) : bool := (b =? 0x2F) || (b =? SEP).
Definition is_verbatim_sep (b : Z) : bool := b =? SEP.

(** A path up to its first separator, and what follows that. *)
Fixpoint parse_next_component (verbatim : bool) (path : list Z) : list Z * list Z :=
  match path with
  | [] => ([], [])
  | b :: path =>
    if (if verbatim then is_verbatim_sep b else is_sep_byte b) then ([], path)
    else let '(component, rest) := parse_next_component verbatim path in (b :: component, rest)
  end.

Definition is_ascii_alphabetic (b : Z) : bool := between 0x41 0x5A b || between 0x61 0x7A b.

Definition parse_drive (path : list Z) : bool :=
  match path with drive :: 0x3A :: _ => is_ascii_alphabetic drive | _ => false end.

Definition parse_drive_exact (path : list Z) : bool :=
  match path with
  | _ :: _ :: c :: _ => is_sep_byte c && parse_drive path
  | _ => parse_drive path
  end.

(** The prefix is looked for in the first eight bytes with [/] read as [\ ]. *)
Definition normalized (path : list Z) : list Z := map (λ b, if b =? 0x2F then SEP else b) (take 8 path).

Fixpoint strip_literal (literal path : list Z) : bool :=
  match literal, path with
  | [], _ => true
  | l :: literal, p :: path => (l =? p) && strip_literal literal path
  | _ :: _, [] => false
  end.

Definition literal (s : string) (path : list Z) : bool := strip_literal (bytes_of_string s) (normalized path).

(** [Prefix::len] of the prefix a path has, and whether that is a verbatim one. *)
Definition parse_prefix (path : list Z) : nat * bool :=
  if literal "\\" path then
    if literal "\\?\" path && negb (existsb (Z.eqb 0x2F) (take 4 path)) then
      if literal "\\?\UNC\" path then
        let '(server, rest) := parse_next_component true (drop 8 path) in
        let '(share, _) := parse_next_component true rest in
        (8 + length server + match share with [] => 0 | _ => 1 + length share end, true)%nat
      else if parse_drive_exact (drop 4 path) then (6%nat, true)
      else (4 + length (parse_next_component true (drop 4 path)).1, true)%nat
    else if literal "\\.\" path then (4 + length (parse_next_component false (drop 4 path)).1, false)%nat
    else
      let '(server, rest) := parse_next_component false (drop 2 path) in
      let '(share, _) := parse_next_component false rest in
      match server, share with
      | _ :: _, _ :: _ => (2 + length server + (1 + length share), false)%nat
      | _, _ => (0%nat, false)
      end
  else if parse_drive path then (2%nat, false) else (0%nat, false).

(** The components behind the prefix, the last one first. *)
Fixpoint components_rev (verbatim : bool) (body current : list Z) (acc : list (list Z)) : list (list Z) :=
  match body with
  | [] => rev current :: acc
  | b :: body =>
    if (if verbatim then is_verbatim_sep b else is_sep_byte b)
    then components_rev verbatim body [] (rev current :: acc)
    else components_rev verbatim body (b :: current) acc
  end.

(** The last component, empty ones and [.] aside, unless that is [..]; in a
    verbatim path [.] counts. *)
Fixpoint last_normal (verbatim : bool) (components : list (list Z)) : option (list Z) :=
  match components with
  | [] => None
  | c :: components =>
    if bool_decide (c = []) then last_normal verbatim components
    else if bool_decide (c = bytes_of_string ".") then
      if verbatim then None else last_normal verbatim components
    else if bool_decide (c = bytes_of_string "..") then None
    else Some c
  end.

Definition file_name (path : list Z) : option (list Z) :=
  let '(n, verbatim) := parse_prefix path in
  last_normal verbatim (components_rev verbatim (drop n path) [] []).

(** [OsStr::to_str] *)
Definition to_str (name : list Z) : option (list Z) := if utf8_valid name then Some name else None.

(** ** Enumeration *)

Record WindowInfo : Type := mkWindowInfo {
  wi_hwnd : Z; wi_title : list Z; wi_x : Z; wi_y : Z; wi_width : Z; wi_height : Z;
  wi_minimized : bool; wi_maximized : bool; wi_resizable : bool; wi_has_frame : bool; wi_topmost : bool
}.

Record AppIdentity : Type := mkIdentity { ai_pid : Z; ai_app_id : list Z }.
Record CacheEntry : Type := mkEntry { ce_pid : Z; ce_identity : option AppIdentity }.

Definition FRAME_EXTENSION_TOLERANCE_PX : Z := 8.

Definition has_style (style bit : Z) : bool := negb (Z.land style bit =? 0).

(** [a - b] on [i32]: overflow panics. *)
Definition sub_i32 {E} (a b : Z) : outcome E Z :=
  if (- 2 ^ 31 <=? a - b) && (a - b <? 2 ^ 31) then Ok (a - b) else Panic.

Section Guest.
Context {G : Type} `{Win32 G, WinGuest G}.
Implicit Types g : G.

Definition style_of g (hwnd : Z) : Z := as_uint 32 (GetWindowLongPtrW g hwnd GWL_STYLE).
Definition ex_style_of g (hwnd : Z) : Z := as_uint 32 (GetWindowLongPtrW g hwnd GWL_EXSTYLE).

Definition is_shareable g (hwnd : Z) : bool :=
  if hwnd =? GetShellWindow g then false
  else if negb (IsWindowVisible g hwnd) then false
  else if GetWindowTextLengthW g hwnd =? 0 then false
  else if has_style (style_of g hwnd) WS_CHILD then false
  else if has_style (ex_style_of g hwnd) WS_EX_TOOLWINDOW then false
  else match Cloaked g hwnd with Some cloaked => cloaked =? 0 | None => true end.

Definition has_native_frame g (hwnd style : Z) (frame : RECT) : bool :=
  if negb (has_style style WS_CAPTION) then false
  else
    match ClientToScreen g hwnd with
    | None => false
    | Some (_, origin_y) => FRAME_EXTENSION_TOLERANCE_PX <=? sat_sint 32 (origin_y - rc_top frame)
    end.

(** The buffer is as long as the text is said to be, and one more. *)
Definition window_title g (hwnd : Z) : outcome unit (list Z) :=
  cap ← add_uint 64 (as_uint 64 (GetWindowTextLengthW g hwnd)) 1;
  let '(written, buf) := GetWindowTextW g hwnd cap in
  text ← slice buf 0 (Z.max written 0);
  mret (from_utf16_lossy text).

Definition describe_window g (hwnd : Z) : outcome unit (option WindowInfo) :=
  title ← window_title g hwnd;
  let minimized := IsIconic g hwnd in
  match frame_bounds g hwnd with
  | None => mret None
  | Some rect =>
    w ← sub_i32 (rc_right rect) (rc_left rect);
    h ← sub_i32 (rc_bottom rect) (rc_top rect);
    let width := Z.max w 0 in
    let height := Z.max h 0 in
    if negb minimized && ((width =? 0) || (height =? 0)) then mret None
    else
      let style := style_of g hwnd in
      let ex_style := ex_style_of g hwnd in
      mret (Some (mkWindowInfo hwnd title (rc_left rect) (rc_top rect) (Z.min width 65535) (Z.min height 65535)
                               minimized (IsZoomed g hwnd) (has_style style WS_THICKFRAME)
                               (has_native_frame g hwnd style rect) (has_style ex_style WS_EX_TOPMOST)))
  end.

(** [filter_map(describe_window).collect()] *)
Fixpoint describe_all g (hwnds : list Z) : outcome unit (list WindowInfo) :=
  match hwnds with
  | [] => mret []
  | hwnd :: hwnds =>
    x ← describe_window g hwnd;
    rest ← describe_all g hwnds;
    mret (match x with Some info => info :: rest | None => rest end)
  end.

Definition enumerate_windows g : outcome unit (list WindowInfo) :=
  describe_all g (List.filter (is_shareable g) (EnumWindows g)).

(** ** Identity *)

Definition window_pid g (hwnd : Z) : option Z :=
  let '(thread_id, pid) := WindowThreadProcess g hwnd in
  if negb (thread_id =? 0) && negb (pid =? 0) then Some pid else None.

Definition query_image_name g (handle : Z) : outcome unit (option (list Z)) :=
  match QueryFullProcessImageNameW g handle PROCESS_NAME_WIN32 1024 with
  | None => mret None
  | Some (length, buf) => name ← slice buf 0 length; mret (Some (from_utf16_lossy name))
  end.

(** [Path::new(&path).file_name()?.to_str()?.to_ascii_lowercase()] *)
Definition base_name (path : list Z) : option (list Z) :=
  name ← file_name path; name ← to_str name; Some (to_ascii_lowercase name).

(** The guard closes the handle on every path once it is open. *)
Definition resolve g (pid : Z) : outcome unit (G * option AppIdentity) :=
  match OpenProcess g PROCESS_QUERY_LIMITED_INFORMATION pid with
  | (g, None) => mret (g, None)
  | (g, Some handle) =>
    path ← query_image_name g handle;
    mret (CloseHandle g handle,
          app_id ← path ≫= base_name; Some (mkIdentity pid app_id))
  end.

(** On the process-wide cache. *)
Definition identify g (cache : gmap Z CacheEntry) (hwnd : Z) : outcome unit (G * gmap Z CacheEntry * option AppIdentity) :=
  match window_pid g hwnd with
  | None => mret (g, cache, None)
  | Some pid =>
    let fresh :=
      x ← resolve g pid;
      mret (x.1, <[hwnd := mkEntry pid x.2]> cache, x.2) in
    match cache !! hwnd with
    | Some entry => if ce_pid entry =? pid then mret (g, cache, ce_identity entry) else fresh
    | None => fresh
    end
  end.
End Guest.

(** ** What is relied on *)

Class WinGuestLaws (G : Type) `{Win32 G, WinGuest G} : Prop := {
  (** Each top-level window is enumerated once. *)
  windows_once : ∀ g : G, NoDup (EnumWindows g);
  text_length_i32 : ∀ (g : G) h, 0 ≤ GetWindowTextLengthW g h < 2 ^ 31;
  (** At most the buffer less its terminator is written, whatever the length
      asked for before. *)
  text_written : ∀ (g : G) h n, 0 < n → (GetWindowTextW g h n).1 < n ∧ len (GetWindowTextW g h n).2 = n ∧ Forall u16 (GetWindowTextW g h n).2;
  (** Frames lie in the coordinates of a desktop, so their sides are [i32]s. *)
  frame_i32 : ∀ (g : G) h r, frame_bounds g h = Some r →
    i32 (rc_left r) ∧ i32 (rc_top r) ∧ i32 (rc_right r - rc_left r) ∧ i32 (rc_bottom r - rc_top r);
  (** A window is not shown minimized and maximized at once. *)
  iconic_not_zoomed : ∀ (g : G) h, IsIconic g h && IsZoomed g h = false;
  pid_u32 : ∀ (g : G) h, u32 (WindowThreadProcess g h).2;
  image_written : ∀ (g : G) h flags n l buf, QueryFullProcessImageNameW g h flags n = Some (l, buf) →
    0 ≤ l ≤ n ∧ len buf = n ∧ Forall u16 buf
}.

(** The process handles the agent has open, seen from outside: these are the
    two calls that change them. *)
Class HandleLaws (G : Type) `{WinGuest G} : Type := {
  open_handles : G → gset Z;
  open_adds : ∀ (g : G) rights pid,
    match OpenProcess g rights pid with
    | (g', Some h) => h ∉ open_handles g ∧ open_handles g' = {[h]} ∪ open_handles g
    | (g', None) => open_handles g' = open_handles g
    end;
  close_removes : ∀ (g : G) h, open_handles (CloseHandle g h) = open_handles g ∖ {[h]}
}.

(** ** Strings from Windows, as lemmas *)

Lemma is_char_replacement : is_char REPLACEMENT_CHARACTER.
Proof. right. unfold REPLACEMENT_CHARACTER. lia. Qed.

(** A surrogate pair is the character it stands for. *)
Lemma pair_value u v :
  0xD800 ≤ u ≤ 0xDBFF → 0xDC00 ≤ v ≤ 0xDFFF →
  Z.lor (Z.shiftl (Z.land u 0x3FF) 10) (Z.land v 0x3FF) + 0x10000 = 0x10000 + (u - 0xD800) * 2 ^ 10 + (v - 0xDC00).
Proof.
  intros Hu Hv. change 0x3FF with (Z.ones 10). rewrite !Z.land_ones by lia.
  replace (u mod 2 ^ 10) with (u - 0xD800) by (Z.div_mod_to_equations; lia).
  replace (v mod 2 ^ 10) with (v - 0xDC00) by (Z.div_mod_to_equations; lia).
  rewrite lor_shiftl_add by lia. lia.
Qed.

(** Induction over code units that may look two ahead. *)
Lemma units_ind (P : list Z → Prop) :
  P [] → (∀ u, P [u]) → (∀ u v r, P r → P (v :: r) → P (u :: v :: r)) → ∀ us, P us.
Proof.
  intros H0 H1 H2 us. cut (P us ∧ ∀ u, P (u :: us)); [tauto|].
  induction us as [|v us [IH1 IH2]]; split; eauto.
Qed.

Lemma utf8_of_len c : 1 ≤ len (utf8_of c) ≤ 4 ∧ (c < 0x10000 → len (utf8_of c) ≤ 3).
Proof. unfold utf8_of. repeat case_if; unfold len; cbn [length]; bool_to_prop; lia. Qed.

Lemma decode_lossy_ok us : Forall u16 us → Forall is_char (decode_lossy us) ∧ len (flat_map utf8_of (decode_lossy us)) ≤ 3 * len us.
Proof.
  assert (Hone : ∀ c l n, is_char c → c < 0x10000 → Forall is_char l ∧ len (flat_map utf8_of l) ≤ 3 * n →
    Forall is_char (c :: l) ∧ len (flat_map utf8_of (c :: l)) ≤ 3 * (1 + n)).
  { intros c l n Hc Hlt [Hl Hn]. split; [by constructor|]. cbn [flat_map]. rewrite len_app.
    destruct (utf8_of_len c) as [_ Hk]. specialize (Hk Hlt). lia. }
  assert (Hrep : REPLACEMENT_CHARACTER < 0x10000) by (unfold REPLACEMENT_CHARACTER; lia).
  induction us as [|u|u v r IH1 IH2] using units_ind; intros Hu.
  - split; [constructor|done].
  - rewrite Forall_singleton in Hu. change (len [u]) with (1 + 0). cbn [decode_lossy].
    destruct (between 0xD800 0xDFFF u) eqn:E; cbn [negb].
    + destruct (0xDC00 <=? u); apply Hone; auto using is_char_replacement, Forall_nil; split; try constructor; done.
    + apply Hone; [|unfold is_uint in Hu; simpl_pow; lia|split; [constructor|done]].
      unfold is_uint in Hu; simpl_pow. unfold between in E. unfold is_char. lia.
  - rewrite !Forall_cons in Hu. destruct Hu as (Hu & Hv & Hr). specialize (IH1 Hr).
    specialize (IH2 (Forall_cons_2 _ _ _ Hv Hr)). unfold is_uint in Hu, Hv; simpl_pow.
    cbn [decode_lossy]. cbn [decode_lossy] in IH2. rewrite (len_cons u).
    destruct (between 0xD800 0xDFFF u) eqn:E; cbn [negb].
    2: { apply Hone; [|lia|exact IH2]. unfold between in E. unfold is_char. lia. }
    destruct (0xDC00 <=? u) eqn:E2; [apply Hone; auto using is_char_replacement|].
    destruct (between 0xDC00 0xDFFF v) eqn:Ev; [|apply Hone; auto using is_char_replacement].
    apply between_spec in E, Ev. apply Z.leb_gt in E2. rewrite pair_value by lia.
    destruct IH1 as [IH1 IHl]. split.
    + constructor; [|done]. right. lia.
    + cbn [flat_map]. rewrite len_app, len_cons. destruct (utf8_of_len (0x10000 + (u - 0xD800) * 2 ^ 10 + (v - 0xDC00))) as [Hk _]. lia.
Qed.

(** A character's bytes are a valid string's next. *)
Lemma utf8_of_valid c rest : is_char c → utf8_valid (utf8_of c ++ rest) = utf8_valid rest.
Proof.
  assert (Hin : ∀ a b x, a ≤ x ≤ b → between a b x = true) by (intros; by apply between_spec).
  assert (Hout : ∀ a b x, b < x → between a b x = false) by (intros; unfold between; lia).
  assert (Hlow : ∀ x, 0 ≤ x mod 2 ^ 6 < 2 ^ 6) by (intros; apply Z.mod_pos_bound; lia).
  intros Hc. unfold is_char in Hc. pose proof (Hlow c). pose proof (Hlow (c / 2 ^ 6)). pose proof (Hlow (c / 2 ^ 12)).
  unfold utf8_of. destruct (Z.ltb_spec c 0x80); [cbn [app utf8_valid]; by rewrite (Hin 0) by lia|].
  destruct (Z.ltb_spec c 0x800).
  { assert (2 ≤ c / 2 ^ 6 < 32) by (Z.div_mod_to_equations; lia). cbn [app utf8_valid].
    rewrite (Hout 0), (Hin 0xC2), (Hin 0x80) by lia. done. }
  destruct (Z.ltb_spec c 0x10000).
  { assert (0 ≤ c / 2 ^ 12 < 16) by (Z.div_mod_to_equations; lia). cbn [app utf8_valid].
    rewrite (Hout 0 0x7F), (Hout 0xC2), (Hin 0xE0) by lia. rewrite (Hin 0x80 0xBF (_ + c mod _)) by lia.
    replace (if _ =? 0xE0 then _ else _) with true; [done|]. symmetry.
    destruct (Z.eqb_spec (0xE0 + c / 2 ^ 12) 0xE0); [apply Hin; Z.div_mod_to_equations; lia|].
    destruct (Z.eqb_spec (0xE0 + c / 2 ^ 12) 0xED); [apply Hin; Z.div_mod_to_equations; lia|]. apply Hin. lia. }
  assert (0 ≤ c / 2 ^ 18 < 5) by (Z.div_mod_to_equations; lia). cbn [app utf8_valid].
  rewrite (Hout 0 0x7F), (Hout 0xC2), (Hout 0xE0), (Hin 0xF0) by lia.
  rewrite (Hin 0x80 0xBF (_ + c mod _)), (Hin 0x80 0xBF (_ + c / 2 ^ 6 mod _)) by lia.
  replace (if _ =? 0xF0 then _ else _) with true; [done|]. symmetry.
  destruct (Z.eqb_spec (0xF0 + c / 2 ^ 18) 0xF0); [apply Hin; Z.div_mod_to_equations; lia|].
  destruct (Z.eqb_spec (0xF0 + c / 2 ^ 18) 0xF4); [apply Hin; Z.div_mod_to_equations; lia|]. apply Hin. lia.
Qed.

Lemma utf8_chars_valid cs : Forall is_char cs → utf8_valid (flat_map utf8_of cs) = true.
Proof. induction 1 as [|c cs Hc _ IH]; [done|]. cbn [flat_map]. by rewrite utf8_of_valid. Qed.

(** What Windows reports is a string, of at most three bytes a code unit. *)
Lemma from_utf16_lossy_ok us : Forall u16 us → utf8_valid (from_utf16_lossy us) = true ∧ len (from_utf16_lossy us) ≤ 3 * len us.
Proof. intros Hu. apply decode_lossy_ok in Hu as [Hc Hl]. split; [by apply utf8_chars_valid|done]. Qed.

(** Whatever string a program set as its window's title is read back. *)
Lemma decode_lossy_chars cs : Forall is_char cs → decode_lossy (flat_map utf16_of cs) = cs.
Proof.
  induction 1 as [|c cs Hc Hcs IH]; [done|]. cbn [flat_map]. unfold utf16_of at 1.
  destruct (Z.ltb_spec c 0x10000); cbn [app decode_lossy].
  - replace (between 0xD800 0xDFFF c) with false; [cbn; by rewrite IH|]. symmetry. apply not_true_iff_false. rewrite between_spec. destruct Hc; lia.
  - set (x := c - 0x10000). assert (Hx : 0 ≤ x < 2 ^ 20) by (destruct Hc; unfold x; lia).
    assert (Hq : 0 ≤ x / 2 ^ 10 < 2 ^ 10) by (split; [apply Z.div_pos; lia|apply Z.div_lt_upper_bound; lia]).
    pose proof (Z.mod_pos_bound x (2 ^ 10) ltac:(lia)) as Hm.
    replace (between 0xD800 0xDFFF (0xD800 + x / 2 ^ 10)) with true by (symmetry; apply between_spec; lia).
    replace (0xDC00 <=? 0xD800 + x / 2 ^ 10) with false by lia.
    replace (between 0xDC00 0xDFFF (0xDC00 + x mod 2 ^ 10)) with true by (symmetry; apply between_spec; lia).
    cbn [negb]. rewrite pair_value, IH by lia. f_equal. pose proof (Z.div_mod x (2 ^ 10)). unfold x in *. lia.
Qed.

Lemma from_utf16_lossy_encode bs : utf8_valid bs = true → from_utf16_lossy (encode_utf16 bs) = bs.
Proof.
  intros Hv. apply chars_exact in Hv as [Hc Hu]. unfold from_utf16_lossy, encode_utf16. by rewrite decode_lossy_chars.
Qed.

(** Lower case stays a string of the same length. *)
Lemma lowercase_high b : ¬ 0x41 ≤ b ≤ 0x5A → (if between 0x41 0x5A b then b + 0x20 else b) = b.
Proof. intros Hb. replace (between 0x41 0x5A b) with false; [done|]. symmetry. apply not_true_iff_false. by rewrite between_spec. Qed.

Lemma lowercase_valid bs : utf8_valid bs = true → utf8_valid (to_ascii_lowercase bs) = true.
Proof.
  intros Hv. apply chars_exact in Hv as [Hc <-]. induction Hc as [|c cs Hc _ IH]; [done|].
  cbn [flat_map]. unfold to_ascii_lowercase in *. rewrite map_app.
  assert (Hmap : map (λ b, if between 0x41 0x5A b then b + 0x20 else b) (utf8_of c) = utf8_of (if between 0x41 0x5A c then c + 0x20 else c)).
  { unfold is_char in Hc. destruct (between 0x41 0x5A c) eqn:E.
    - apply between_spec in E as E'. unfold utf8_of. replace (c <? 0x80) with true by lia.
      replace (c + 0x20 <? 0x80) with true by lia. cbn. by rewrite E.
    - unfold utf8_of. assert (¬ 0x41 ≤ c ≤ 0x5A) by (by rewrite <- between_spec, E). repeat case_if; bool_to_prop; cbn [map];
      rewrite ?lowercase_high; try done; intros ?; Z.div_mod_to_equations; lia. }
  rewrite Hmap, utf8_of_valid; [done|]. destruct (between 0x41 0x5A c) eqn:E; [|done]. apply between_spec in E. left. lia.
Qed.

Lemma lowercase_len bs : len (to_ascii_lowercase bs) = len bs.
Proof. unfold len, to_ascii_lowercase. by rewrite length_map. Qed.

(** ** File names *)

Lemma components_rev_bound verbatim body cur acc c :
  c ∈ components_rev verbatim body cur acc → c ∈ acc ∨ len c ≤ len cur + len body.
Proof.
  revert cur acc. induction body as [|b body IH]; intros cur acc; cbn [components_rev].
  - rewrite elem_of_cons. intros [->|?]; [right|by left]. unfold len. rewrite length_rev. cbn. lia.
  - case_if; intros Hc; apply IH in Hc; rewrite ?elem_of_cons in Hc; rewrite !len_cons in *.
    + pose proof (len_nonneg cur). pose proof (len_nonneg body). destruct Hc as [[->|?]|Hc]; [right; unfold len; rewrite length_rev; lia|by left|right].
      rewrite len_nil in Hc. lia.
    + destruct Hc as [?|Hc]; [by left|right; lia].
Qed.

Lemma last_normal_in verbatim cs c : last_normal verbatim cs = Some c → c ∈ cs.
Proof.
  induction cs as [|x cs IH]; [done|]. cbn [last_normal]. rewrite elem_of_cons. intros E.
  repeat case_bool_decide; auto. - destruct verbatim; [done|auto]. - done. - injection E as ->. auto.
Qed.

Lemma file_name_len path name : file_name path = Some name → len name ≤ len path.
Proof.
  unfold file_name. destruct (parse_prefix path) as [n v]. intros E%last_normal_in%components_rev_bound.
  destruct E as [E|E]; [by apply elem_of_nil in E|]. unfold len in *. rewrite length_drop in E. cbn in E. lia.
Qed.

Lemma components_rev_name verbatim name cur acc :
  Forall (λ b, is_sep_byte b = false) name →
  components_rev verbatim name cur acc = (rev cur ++ name) :: acc.
Proof.
  intros Hn. revert cur. induction Hn as [|b name Hb _ IH]; intros cur; cbn [components_rev].
  - by rewrite app_nil_r.
  - replace (if verbatim then _ else _) with false.
    + rewrite IH. cbn [rev]. by rewrite <- app_assoc.
    + unfold is_verbatim_sep, is_sep_byte in *. apply orb_false_iff in Hb as [-> ->]. by destruct verbatim.
Qed.

Lemma components_rev_last verbatim dir name cur acc :
  Forall (λ b, is_sep_byte b = false) name →
  ∃ acc', components_rev verbatim (dir ++ SEP :: name) cur acc = name :: acc'.
Proof.
  intros Hn. revert cur acc. induction dir as [|b dir IH]; intros cur acc; cbn [app components_rev].
  - replace (if verbatim then is_verbatim_sep SEP else is_sep_byte SEP) with true by (by destruct verbatim).
    rewrite components_rev_name by done. cbn. by eexists.
  - case_if; apply IH.
Qed.

(** What a file's path on a drive ends in is its name. *)
Lemma file_name_on_drive dir name :
  parse_drive dir = true → Forall (λ b, is_sep_byte b = false) name →
  name ≠ [] → name ≠ bytes_of_string "." → name ≠ bytes_of_string ".." →
  file_name (dir ++ SEP :: name) = Some name.
Proof.
  intros Hd Hn H1 H2 H3. destruct dir as [|drive [|colon dir]]; [done..|].
  assert (Hc : colon = 0x3A). { cbn in Hd. destruct colon as [|p|]; try done. repeat (destruct p as [p|p|]; try done). }
  subst colon. cbn in Hd. unfold file_name.
  replace (parse_prefix ((drive :: 0x3A :: dir) ++ SEP :: name)) with (2%nat, false).
  - change (drop 2 ((drive :: 0x3A :: dir) ++ SEP :: name)) with (dir ++ SEP :: name). destruct (components_rev_last false dir name [] [] Hn) as [acc' ->].
    cbn [last_normal]. by rewrite !bool_decide_eq_false_2 by done.
  - unfold parse_prefix. replace (literal "\\" _) with false; [cbn [app parse_drive]; by rewrite Hd|].
    unfold literal, normalized. change (bytes_of_string "\\") with [SEP; SEP]. cbn [app take map strip_literal].
    unfold is_ascii_alphabetic, between, SEP in *. case_if; lia.
Qed.

(** ** Enumeration, as lemmas *)

Section GuestFacts.
Context {G : Type} `{WinGuestLaws G}.
Implicit Types g : G.

Definition info_ok (info : WindowInfo) : Prop :=
  utf8_valid (wi_title info) = true ∧ i32 (wi_x info) ∧ i32 (wi_y info) ∧ u16 (wi_width info) ∧ u16 (wi_height info) ∧
  wi_minimized info && wi_maximized info = false.

(** The text the window reports, as much of it as there was room for. *)
Definition text_of g (hwnd : Z) : list Z :=
  let '(written, buf) := GetWindowTextW g hwnd (GetWindowTextLengthW g hwnd + 1) in ztake (Z.max written 0) buf.

Lemma text_of_ok g hwnd : Forall u16 (text_of g hwnd) ∧ len (text_of g hwnd) ≤ GetWindowTextLengthW g hwnd.
Proof.
  pose proof (text_length_i32 g hwnd) as Hl. assert (Hc : 0 < GetWindowTextLengthW g hwnd + 1) by lia. pose proof (text_written g hwnd _ Hc) as (Hw & Hb & Hu).
  unfold text_of. destruct (GetWindowTextW _ _ _) as [written buf]. cbn [fst snd] in *.
  split; [by apply Forall_ztake|]. rewrite len_ztake; lia.
Qed.

Lemma window_title_runs g hwnd : window_title g hwnd = Ok (from_utf16_lossy (text_of g hwnd)).
Proof.
  pose proof (text_length_i32 g hwnd) as Hl. assert (Hc : 0 < GetWindowTextLengthW g hwnd + 1) by lia. pose proof (text_written g hwnd _ Hc) as (Hw & Hb & _).
  unfold window_title, text_of. rewrite as_uint_id by (unfold is_uint; lia). unfold add_uint.
  replace (GetWindowTextLengthW g hwnd + 1 <? 2 ^ 64) with true by lia. cbn [mbind outcome_bind].
  destruct (GetWindowTextW _ _ _) as [written buf]. cbn [fst snd] in *. rewrite slice_ok by lia.
  cbn. by rewrite Z.sub_0_r, zdrop_0.
Qed.

(** A window's description, when it has one. *)
Definition info_of g (hwnd : Z) (rect : RECT) : WindowInfo :=
  mkWindowInfo hwnd (from_utf16_lossy (text_of g hwnd)) (rc_left rect) (rc_top rect)
               (Z.min (Z.max (rc_right rect - rc_left rect) 0) 65535) (Z.min (Z.max (rc_bottom rect - rc_top rect) 0) 65535)
               (IsIconic g hwnd) (IsZoomed g hwnd) (has_style (style_of g hwnd) WS_THICKFRAME)
               (has_native_frame g hwnd (style_of g hwnd) rect) (has_style (ex_style_of g hwnd) WS_EX_TOPMOST).

Definition is_empty (rect : RECT) : bool := (rc_right rect <=? rc_left rect) || (rc_bottom rect <=? rc_top rect).

Definition described g (hwnd : Z) : option WindowInfo :=
  match frame_bounds g hwnd with
  | Some rect => if negb (IsIconic g hwnd) && is_empty rect then None else Some (info_of g hwnd rect)
  | None => None
  end.

Lemma sub_i32_ok {E} a b : i32 (a - b) → sub_i32 (E:=E) a b = Ok (a - b).
Proof.
  intros [Hl Hh]. unfold sub_i32. replace (- 2 ^ 31 <=? a - b) with true by lia. by replace (a - b <? 2 ^ 31) with true by lia.
Qed.

Lemma describe_window_runs g hwnd : describe_window g hwnd = Ok (described g hwnd).
Proof.
  unfold describe_window, described. rewrite window_title_runs. cbn [mbind outcome_bind].
  destruct (frame_bounds g hwnd) as [rect|] eqn:Er; [|done]. destruct (frame_i32 g hwnd rect Er) as (_ & _ & Hw & Hh).
  rewrite !sub_i32_ok by done. cbn [mbind outcome_bind].
  replace ((Z.max (rc_right rect - rc_left rect) 0 =? 0) || (Z.max (rc_bottom rect - rc_top rect) 0 =? 0))
    with (is_empty rect) by (unfold is_empty; lia). by case_if.
Qed.

Lemma described_ok g hwnd info : described g hwnd = Some info → wi_hwnd info = hwnd ∧ info_ok info.
Proof.
  unfold described. destruct (frame_bounds g hwnd) as [rect|] eqn:Er; [|done]. case_if; [done|]. intros [= <-].
  destruct (frame_i32 g hwnd rect Er) as (Hx & Hy & _). split; [done|]. unfold info_ok. cbn. split_and!; try done.
  - apply from_utf16_lossy_ok, text_of_ok.
  - unfold is_uint. simpl_pow. lia.
  - unfold is_uint. simpl_pow. lia.
  - apply iconic_not_zoomed.
Qed.

Lemma describe_all_runs g hwnds : describe_all g hwnds = Ok (omap (described g) hwnds).
Proof.
  induction hwnds as [|h hwnds IH]; [done|]. cbn [describe_all omap list_omap]. rewrite describe_window_runs, IH.
  cbn. by destruct (described g h).
Qed.

(** The windows of a tick. *)
Definition shared g : list WindowInfo := omap (described g) (List.filter (is_shareable g) (EnumWindows g)).

Lemma enumerate_windows_runs g : enumerate_windows g = Ok (shared g).
Proof. apply describe_all_runs. Qed.

Lemma shared_elem g info :
  info ∈ shared g ↔ wi_hwnd info ∈ EnumWindows g ∧ is_shareable g (wi_hwnd info) = true ∧ described g (wi_hwnd info) = Some info.
Proof.
  unfold shared. rewrite list_elem_of_omap. setoid_rewrite list_elem_of_In. setoid_rewrite filter_In. split.
  - intros (h & [Hin Hs] & Hd). by destruct (described_ok _ _ _ Hd) as [-> _].
  - intros (Hin & Hs & Hd). by exists (wi_hwnd info).
Qed.

Lemma omap_sublist hwnds g : map wi_hwnd (omap (described g) hwnds) `sublist_of` hwnds.
Proof.
  induction hwnds as [|h hwnds IH]; [done|]. cbn [omap list_omap].
  destruct (described g h) eqn:E; [|by apply sublist_cons]. destruct (described_ok _ _ _ E) as [<- _].
  by apply sublist_skip.
Qed.

Lemma shared_nodup g : NoDup (map wi_hwnd (shared g)).
Proof.
  eapply sublist_NoDup; [|apply omap_sublist]. pose proof (windows_once g) as Hn.
  induction Hn as [|h hs Hh _ IH]; [constructor|]. cbn. case_if; [|done]. constructor; [|done].
  rewrite list_elem_of_In, filter_In, <- list_elem_of_In. tauto.
Qed.

Lemma shared_info_ok g info : info ∈ shared g → info_ok info.
Proof. intros (_ & _ & Hd)%shared_elem. by apply described_ok in Hd as [_ ?]. Qed.

(** ** Identity, as lemmas *)

(** The name behind a process handle. *)
Definition image_of g (handle : Z) : option (list Z) :=
  match QueryFullProcessImageNameW g handle PROCESS_NAME_WIN32 1024 with
  | Some (length, buf) => Some (from_utf16_lossy (ztake length buf))
  | None => None
  end.

Lemma query_image_name_runs g handle : query_image_name g handle = Ok (image_of g handle).
Proof.
  unfold query_image_name, image_of. destruct (QueryFullProcessImageNameW _ _ _ _) as [[l buf]|] eqn:E; [|done].
  destruct (image_written _ _ _ _ _ _ E) as (Hl & Hb & _). rewrite slice_ok by lia. cbn. by rewrite Z.sub_0_r, zdrop_0.
Qed.

Lemma image_of_ok g handle path : image_of g handle = Some path → len path ≤ 3072.
Proof.
  unfold image_of. destruct (QueryFullProcessImageNameW _ _ _ _) as [[l buf]|] eqn:E; [|done]. intros [= <-].
  destruct (image_written _ _ _ _ _ _ E) as (Hl & Hb & Hu).
  destruct (from_utf16_lossy_ok (ztake l buf)) as [_ Hlen]; [by apply Forall_ztake|]. rewrite len_ztake in Hlen by lia. lia.
Qed.

(** Where a process stands after it was asked for its name, and the answer. *)
Definition resolved g (pid : Z) : G * option AppIdentity :=
  match OpenProcess g PROCESS_QUERY_LIMITED_INFORMATION pid with
  | (g, None) => (g, None)
  | (g, Some handle) => (CloseHandle g handle, app_id ← image_of g handle ≫= base_name; Some (mkIdentity pid app_id))
  end.

Lemma resolve_runs g pid : resolve g pid = Ok (resolved g pid).
Proof.
  unfold resolve, resolved. destruct (OpenProcess _ _ _) as [g' [h|]]; [|done]. by rewrite query_image_name_runs.
Qed.

(** What a [String] and a [u32] can be, with room on the wire. *)
Definition identity_ok (i : AppIdentity) : Prop := u32 (ai_pid i) ∧ str_ok (ai_app_id i).

Lemma resolved_ok g pid i : u32 pid → (resolved g pid).2 = Some i → identity_ok i ∧ ai_pid i = pid.
Proof.
  intros Hp. unfold resolved. destruct (OpenProcess _ _ _) as [g' [h|]]; [|done]. cbn [snd].
  destruct (image_of g' h) as [path|] eqn:Ei; [|done]. cbn. unfold base_name. destruct (file_name path) as [name|] eqn:Ef; [|done].
  cbn. unfold to_str. destruct (utf8_valid name) eqn:Eu; [|done]. cbn. intros [= <-]. split; [|done]. split; [done|].
  split; [by apply lowercase_valid|]. cbn. rewrite lowercase_len. apply file_name_len in Ef. apply image_of_ok in Ei. lia.
Qed.

Definition cache_ok (cache : gmap Z CacheEntry) : Prop :=
  ∀ h e i, cache !! h = Some e → ce_identity e = Some i → identity_ok i.

(** The cached answer is good for as long as the window's process is the same. *)
Definition identified g (cache : gmap Z CacheEntry) (hwnd : Z) : G * gmap Z CacheEntry * option AppIdentity :=
  match window_pid g hwnd with
  | None => (g, cache, None)
  | Some pid =>
    match cache !! hwnd with
    | Some entry =>
      if ce_pid entry =? pid then (g, cache, ce_identity entry)
      else ((resolved g pid).1, <[hwnd := mkEntry pid (resolved g pid).2]> cache, (resolved g pid).2)
    | None => ((resolved g pid).1, <[hwnd := mkEntry pid (resolved g pid).2]> cache, (resolved g pid).2)
    end
  end.

Lemma identify_runs g cache hwnd : identify g cache hwnd = Ok (identified g cache hwnd).
Proof.
  unfold identify, identified. destruct (window_pid g hwnd) as [pid|]; [|done]. rewrite resolve_runs.
  destruct (cache !! hwnd) as [e|]; [|done]. by case_if.
Qed.

Lemma window_pid_u32 g hwnd pid : window_pid g hwnd = Some pid → u32 pid.
Proof.
  unfold window_pid. pose proof (pid_u32 g hwnd) as Hp. destruct (WindowThreadProcess g hwnd) as [t p]. case_if; [|done].
  by intros [= <-].
Qed.

Lemma cache_ok_insert cache h pid x : cache_ok cache → (∀ i, x = Some i → identity_ok i) → cache_ok (<[h := mkEntry pid x]> cache).
Proof. intros Hc Hx h' e i [[<- <-]|[_ He]]%lookup_insert_Some Hi; [by apply Hx|by eapply Hc]. Qed.

Lemma identified_ok g cache hwnd :
  cache_ok cache → cache_ok (identified g cache hwnd).1.2 ∧ ∀ i, (identified g cache hwnd).2 = Some i → identity_ok i.
Proof.
  intros Hc. unfold identified. destruct (window_pid g hwnd) as [pid|] eqn:Ep; [|done]. apply window_pid_u32 in Ep.
  assert (Hf : ∀ i, (resolved g pid).2 = Some i → identity_ok i) by (intros i Hi; by apply resolved_ok in Hi as [? _]).
  destruct (cache !! hwnd) as [e|] eqn:Ee; [case_if|]; split; try done; try (by apply cache_ok_insert).
  intros i Hi. by eapply Hc.
Qed.
End GuestFacts.

(** ** Theorems *)

(** what a tick reports of the guest: no query panics; each top-level window
    that passes the filter is reported once, in the order of the enumeration,
    unless its frame cannot be had or is empty while it is not minimized; a
    title that was set as text is read back as that text, position and size are
    the frame's with the sides clipped to sixteen bits. *)
Theorem windows_reported `{WinGuestLaws G} (g : G) :
  ∃ live, enumerate_windows g = Ok live ∧
    map wi_hwnd live `sublist_of` List.filter (is_shareable g) (EnumWindows g) ∧ NoDup (map wi_hwnd live) ∧
    (∀ hwnd, hwnd ∈ map wi_hwnd live ↔
       hwnd ∈ EnumWindows g ∧ is_shareable g hwnd = true ∧
       ∃ rect, frame_bounds g hwnd = Some rect ∧ (IsIconic g hwnd = true ∨ is_empty rect = false)) ∧
    (∀ info, info ∈ live → info_ok info ∧
       (∀ text, utf8_valid text = true → text_of g (wi_hwnd info) = encode_utf16 text → wi_title info = text) ∧
       ∃ rect, frame_bounds g (wi_hwnd info) = Some rect ∧ (wi_x info, wi_y info) = (rc_left rect, rc_top rect) ∧
         (is_empty rect = false → wi_width info = Z.min (rc_right rect - rc_left rect) 65535 ∧
                                  wi_height info = Z.min (rc_bottom rect - rc_top rect) 65535)).
Proof.
  exists (shared g). split_and!; [apply enumerate_windows_runs|apply omap_sublist|apply shared_nodup| |].
  - intros hwnd. rewrite list_elem_of_fmap. setoid_rewrite shared_elem. unfold described. split.
    + intros (info & -> & Hin & Hs & Hd). split_and!; [done..|]. destruct (frame_bounds g _) as [rect|]; [|done].
      exists rect. split; [done|]. destruct (IsIconic g _); [by left|right]. by destruct (is_empty rect).
    + intros (Hin & Hs & rect & Er & Hr). exists (info_of g hwnd rect). cbn [wi_hwnd info_of]. split_and!; [done..|]. rewrite Er.
      destruct Hr as [->| ->]; [done|]. by rewrite andb_false_r.
  - intros info Hi. split; [by eapply shared_info_ok|]. apply shared_elem in Hi as (_ & _ & Hd). unfold described in Hd.
    remember (wi_hwnd info) as hwnd eqn:Eh. destruct (frame_bounds g hwnd) as [rect|]; [|done].
    destruct (negb _ && _); [done|]. injection Hd as <-. cbn [info_of wi_title wi_x wi_y wi_width wi_height].
    split; [intros text Hv ->; by apply from_utf16_lossy_encode|]. exists rect. split_and!; [done..|].
    intros He. unfold is_empty in He. split; lia.
Qed.

(** an application is named once for each process behind a window: as long as
    a process keeps its image, [identify] answers what asking the process now
    would, the cache stays right, no process handle stays open, and while the
    window's process is the same the next call asks nothing of the guest. *)
Theorem identity_cached `{WinGuestLaws G, !HandleLaws G} (app : Z → option AppIdentity)
    (cache : gmap Z CacheEntry) (g : G) (hwnd : Z) :
  (∀ g' pid, (resolved g' pid).2 = app pid) →
  (∀ h e, cache !! h = Some e → ce_identity e = app (ce_pid e)) →
  ∃ g' cache', identify g cache hwnd = Ok (g', cache', window_pid g hwnd ≫= app) ∧
    open_handles g' = open_handles g ∧
    (∀ h e, cache' !! h = Some e → ce_identity e = app (ce_pid e)) ∧
    (∀ g2, window_pid g2 hwnd = window_pid g hwnd → identify g2 cache' hwnd = Ok (g2, cache', window_pid g hwnd ≫= app)).
Proof.
  intros Happ Hc.
  assert (Hopen : ∀ pid, open_handles (resolved g pid).1 = open_handles g).
  { intros pid. unfold resolved. pose proof (open_adds g PROCESS_QUERY_LIMITED_INFORMATION pid) as Ho.
    destruct (OpenProcess _ _ _) as [g1 [h|]]; [|done]. destruct Ho as [Hh Ho]. cbn [fst]. rewrite close_removes, Ho. set_solver. }
  assert (Hput : ∀ pid h e, <[hwnd := mkEntry pid (resolved g pid).2]> cache !! h = Some e → ce_identity e = app (ce_pid e)).
  { intros pid h e [[<- <-]|[_ He]]%lookup_insert_Some; [apply Happ|by eapply Hc]. }
  assert (Hagain : ∀ pid, ce_pid (mkEntry pid (app pid)) =? pid = true) by (intros; apply Z.eqb_refl).
  destruct (identified g cache hwnd) as [[g' cache'] x] eqn:E. exists g', cache'.
  assert (x = window_pid g hwnd ≫= app ∧ open_handles g' = open_handles g ∧
          (∀ h e, cache' !! h = Some e → ce_identity e = app (ce_pid e)) ∧
          match window_pid g hwnd with Some pid => cache' !! hwnd = Some (mkEntry pid (app pid)) | None => True end) as (-> & Ho & Hc' & Hhit).
  { unfold identified in E. destruct (window_pid g hwnd) as [pid|]; cbn [mbind option_bind]; [|by injection E as <- <- <-].
    destruct (cache !! hwnd) as [e|] eqn:Ee; [destruct (ce_pid e =? pid) eqn:Ep|].
    - injection E as <- <- <-. apply Z.eqb_eq in Ep. rewrite Ee, (Hc _ _ Ee), Ep. split_and!; try done. destruct e. f_equal. cbn in *.
      f_equal; [done|]. specialize (Hc _ _ Ee). cbn in Hc. by subst.
    - injection E as <- <- <-. rewrite Happ, lookup_insert_eq. split_and!; try done. intros h e'. rewrite <- (Happ g). apply Hput.
    - injection E as <- <- <-. rewrite Happ, lookup_insert_eq. split_and!; try done. intros h e'. rewrite <- (Happ g). apply Hput. }
  rewrite identify_runs, E. split_and!; try done. intros g2 Hw. rewrite identify_runs. unfold identified. rewrite Hw.
  destruct (window_pid g hwnd) as [pid|]; [|done]. by rewrite Hhit, Hagain.
Qed.

(** ** A small guest *)

Module SmallGuest.

Record win : Type := mkWin {
  w_hwnd : Z; w_title : list Z; w_rect : RECT; w_iconic : bool; w_pid : Z; w_style : Z; w_ex_style : Z; w_cloaked : Z
}.

(** The windows of the coming ticks, and the process each open handle is of. *)
Record state : Type := mkState { st_scenes : list (list win); st_open : gmap Z Z }.

Definition now (g : state) : list win := match st_scenes g with scene :: _ => scene | [] => [] end.
Definition find (g : state) (h : Z) : option win := List.find (λ w, w_hwnd w =? h) (now g).
Definition ask {A} (g : state) (h : Z) (f : win → A) (other : A) : A :=
  match find g h with Some w => f w | None => other end.

(** A buffer of [n] units that begins with a text, cut to leave a terminator. *)
Definition filled (text : list Z) (n : Z) : Z * list Z :=
  let text := ztake (n - 1) text in (len text, text ++ replicate (Z.to_nat n - length text) 0).

Definition fresh_handle (m : gmap Z Z) : Z := 1 + foldr Z.max 0 (map_to_list m).*1.

Definition image (pid : Z) : list Z :=
  if pid =? 7 then bytes_of_string "C:\Program Files\Notes.EXE" else bytes_of_string "\\?\C:\Windows\explorer.exe".

Definition units (text : list Z) : list Z := map (as_uint 16) (ztake 20000 text).

(** A system process, of number 4, is not opened for the agent. *)
#[global] Instance small_guest : WinGuest state := {
  EnumWindows g := elements (list_to_set (map w_hwnd (now g)) : gset Z);
  GetShellWindow _ := 99;
  IsWindowVisible g h := ask g h (λ _, true) false;
  GetWindowTextLengthW g h := ask g h (λ w, len (units (w_title w))) 0;
  GetWindowTextW g h n := filled (ask g h (λ w, units (w_title w)) []) n;
  GetWindowLongPtrW g h i := ask g h (λ w, if i =? GWL_STYLE then w_style w else w_ex_style w) 0;
  Cloaked g h := ask g h (λ w, Some (w_cloaked w)) None;
  IsIconic g h := ask g h w_iconic false;
  IsZoomed g h := false;
  ClientToScreen g h := ask g h (λ w, Some (rc_left (w_rect w), rc_top (w_rect w) + 30)) None;
  WindowThreadProcess g h := ask g h (λ w, (1, as_uint 32 (w_pid w))) (0, 0);
  OpenProcess g _ pid :=
    if pid =? 4 then (g, None)
    else let h := fresh_handle (st_open g) in (mkState (st_scenes g) (<[h := pid]> (st_open g)), Some h);
  CloseHandle g h := mkState (st_scenes g) (delete h (st_open g));
  QueryFullProcessImageNameW g h _ n :=
    match st_open g !! h with
    | Some pid => if len (image pid) <? n then Some (filled (image pid) n) else None
    | None => None
    end
}.

Definition on_screen (r : RECT) : RECT :=
  mkRect (sat_sint 31 (rc_left r)) (sat_sint 31 (rc_top r)) (sat_sint 31 (rc_right r)) (sat_sint 31 (rc_bottom r)).

(** Nothing of it is driven by input. *)
#[global] Instance small_win32 : Win32 state := {
  ExtendedFrameBounds g h := ask g h (λ w, Some (on_screen (w_rect w))) None;
  GetWindowRect _ _ := None;
  GetForegroundWindow _ := 0;
  SetForegroundWindow g _ := g;
  BringWindowToTop g _ := g;
  GetWindowThreadProcessId _ _ := 1;
  GetCurrentThreadId _ := 1;
  AttachThreadInput g _ _ _ := (g, true);
  GetSystemMetrics _ _ := 0;
  GetAsyncKeyState _ _ := 0;
  GetKeyState _ _ := 0;
  SendInput g _ := g;
  PostMessageW g _ _ := g;
  ShowWindow g _ _ := g;
  SetWindowPos g _ _ _ _ _ _ := g
}.

Lemma filled_ok text n : Forall u16 text → 0 < n → (filled text n).1 < n ∧ len (filled text n).2 = n ∧ Forall u16 (filled text n).2.
Proof.
  intros Ht Hn. unfold filled. cbn [fst snd].
  assert (Hl : (length (ztake (n - 1) text) ≤ Z.to_nat n - 1)%nat) by (unfold ztake; rewrite length_take; lia).
  split_and!.
  - unfold len. lia.
  - unfold len. rewrite length_app, length_replicate. lia.
  - apply Forall_app. split; [by apply Forall_ztake|]. apply Forall_replicate. unfold is_uint. lia.
Qed.

Lemma units_ok text : Forall u16 (units text).
Proof. apply Forall_map, Forall_true. intros u. by apply as_uint_range. Qed.

Lemma units_len text : 0 ≤ len (units text) ≤ 20000.
Proof. unfold units, len. rewrite length_map. unfold ztake. rewrite length_take. lia. Qed.

Lemma image_units pid : Forall u16 (image pid).
Proof.
  apply (Forall_impl u8); [|unfold is_uint; lia]. apply utf8_valid_u8. unfold image. by destruct (pid =? 7).
Qed.

#[global] Instance small_guest_laws : WinGuestLaws state.
Proof.
  split.
  - intros g. exact (NoDup_elements (C:=gset Z) _).
  - intros g h. cbn. unfold ask. destruct (find g h) as [w|]; [|done]. pose proof (units_len (w_title w)). lia.
  - intros g h n Hn. cbn [GetWindowTextW small_guest]. apply filled_ok; [|done]. unfold ask. destruct (find g h); [apply units_ok|constructor].
  - intros g h r. unfold frame_bounds. cbn [ExtendedFrameBounds GetWindowRect small_win32]. unfold ask.
    destruct (find g h) as [w|]; [|done]. intros [= <-]. cbn. unfold is_sint, sat_sint. lia.
  - intros g h. cbn. by rewrite andb_false_r.
  - intros g h. cbn. unfold ask. destruct (find g h); [by apply as_uint_range|by split].
  - intros g h flags n l buf. cbn [QueryFullProcessImageNameW small_guest]. destruct (st_open g !! h) as [pid|]; [|done].
    destruct (Z.ltb_spec (len (image pid)) n); [|done]. intros [= <- <-].
    pose proof (len_nonneg (image pid)). destruct (filled_ok (image pid) n) as (H1 & H2 & H3); [apply image_units|lia|].
    split_and!; [unfold len; lia|cbn in H1; lia|done|done].
Qed.

Lemma fresh_handle_new m : m !! fresh_handle m = None.
Proof.
  apply eq_None_not_Some. intros [p Hp]. assert (∀ l : list Z, ∀ x, x ∈ l → x ≤ foldr Z.max 0 l) as Hmax.
  { induction l as [|y l IH]; intros x Hx; [by apply elem_of_nil in Hx|]. apply elem_of_cons in Hx as [->|Hx]; cbn; [lia|]. apply IH in Hx. lia. }
  specialize (Hmax (map_to_list m).*1 (fresh_handle m)). unfold fresh_handle in Hmax at 2.
  assert (fresh_handle m ∈ (map_to_list m).*1); [|specialize (Hmax ltac:(done)); lia].
  apply list_elem_of_fmap. exists (fresh_handle m, p). split; [done|]. by apply elem_of_map_to_list.
Qed.

#[global] Instance small_handles : HandleLaws state.
Proof.
  refine {| open_handles := λ g, dom (st_open g) |}.
  - intros g rights pid. cbn. destruct (pid =? 4); [done|]. cbn. split; [|by rewrite dom_insert_L].
    apply not_elem_of_dom, fresh_handle_new.
  - intros g h. cbn. by rewrite dom_delete_L.
Defined.

(** What the processes are called. *)
Definition app (pid : Z) : option AppIdentity :=
  if pid =? 4 then None
  else Some (mkIdentity pid (bytes_of_string (if pid =? 7 then "notes.exe" else "explorer.exe"))).

Lemma named (g : state) pid : (resolved g pid).2 = app pid.
Proof.
  unfold resolved, app. cbn [OpenProcess small_guest]. destruct (pid =? 4); [done|]. cbn [snd].
  assert (image_of (mkState (st_scenes g) (<[fresh_handle (st_open g) := pid]> (st_open g))) (fresh_handle (st_open g)) = Some (image pid)) as ->.
  { unfold image_of. cbn [QueryFullProcessImageNameW small_guest st_open]. rewrite lookup_insert_eq. unfold image.
    destruct (pid =? 7); reflexivity. }
  unfold image. by destruct (pid =? 7).
Qed.

(** Two windows of one program, one of them minimized, a tool palette and a
    window of the system's. *)
Definition window (h : Z) (title : string) (r : RECT) (iconic : bool) (pid ex : Z) : win :=
  mkWin h (bytes_of_string title) r iconic pid (Z.lor WS_CAPTION WS_THICKFRAME) ex 0.

Definition morning : list win :=
  [window 10 "Notes" (mkRect 5 6 305 206) false 7 0; window 20 "More notes" (mkRect 0 0 0 0) true 7 0;
   window 30 "Palette" (mkRect 0 0 40 40) false 7 WS_EX_TOOLWINDOW; window 40 "Settings" (mkRect 0 0 400 300) false 4 WS_EX_TOPMOST].
Definition noon : list win := [window 10 "Notes - saved" (mkRect 5 6 305 206) false 7 0].

Definition start : state := mkState [morning; noon] ∅.
End SmallGuest.

Example small_tick :
  map (λ i, (wi_hwnd i, wi_width i, wi_minimized i, wi_has_frame i, wi_topmost i)) (shared SmallGuest.start) =
  [(10, 300, false, true, false); (20, 0, true, true, false); (40, 400, false, true, true)].
Proof. vm_compute. reflexivity. Qed.

Lemma windows_reported_witness :
  ∃ live, enumerate_windows SmallGuest.start = Ok live ∧ NoDup (map wi_hwnd live) ∧
    (40 ∈ map wi_hwnd live ↔ 40 ∈ EnumWindows SmallGuest.start ∧ is_shareable SmallGuest.start 40 = true ∧
       ∃ rect, frame_bounds SmallGuest.start 40 = Some rect ∧ (IsIconic SmallGuest.start 40 = true ∨ is_empty rect = false)).
Proof.
  destruct (windows_reported SmallGuest.start) as (live & H1 & _ & H2 & H3 & _). exists live. split_and!; [exact H1|exact H2|exact (H3 40)].
Defined.

(** The window named before, looked up again at noon. *)
Lemma identity_cached_witness :
  ∃ g' cache', identify SmallGuest.start ∅ 10 = Ok (g', cache', Some (mkIdentity 7 (bytes_of_string "notes.exe"))) ∧
    open_handles g' = ∅ ∧
    identify (SmallGuest.mkState [SmallGuest.noon] ∅) cache' 10 =
      Ok (SmallGuest.mkState [SmallGuest.noon] ∅, cache', Some (mkIdentity 7 (bytes_of_string "notes.exe"))).
Proof.
  destruct (identity_cached SmallGuest.app ∅ SmallGuest.start 10) as (g' & cache' & H1 & H2 & _ & H3).
  - exact SmallGuest.named.
  - intros h e He. by rewrite lookup_empty in He.
  - exists g', cache'. split; [exact H1|]. split; [rewrite H2; vm_compute; reflexivity|].
    apply (H3 (SmallGuest.mkState [SmallGuest.noon] ∅)). vm_compute. reflexivity.
Defined.
