(* ===== verification/WinCapture.v ===== *)
(** * Capturing a window

    [crates/oxagent/src/win/capture.rs]: one [WindowCapture] a window, over
    Windows.Graphics.Capture and Direct3D 11. The COM calls are a class of
    functions that may fail with an [HRESULT]; a COM object is its identity.
    What is only logged (the timings) is left out, the counters that bound the
    log are kept. *)

From stdpp Require Import sorting.
From S2P Require Import Prelude Wire MsgWindow Serve WinCall.

(** ** Direct3D and the capture API *)

Inductive DriverType : Type := D3D_DRIVER_TYPE_HARDWARE | D3D_DRIVER_TYPE_WARP.

Definition D3D11_CREATE_DEVICE_BGRA_SUPPORT : Z := 0x20.
Definition D3D11_CREATE_DEVICE_VIDEO_SUPPORT : Z := 0x800.
Definition D3D11_USAGE_STAGING : Z := 3.
Definition D3D11_CPU_ACCESS_READ : Z := 0x20000.
Definition B8G8R8A8UIntNormalized : Z := 87.

(** [D3D11_TEXTURE2D_DESC] *)
Record TextureDesc : Type := mkTextureDesc {
  Width : Z; Height : Z; MipLevels : Z; ArraySize : Z; Format : Z; Usage : Z; BindFlags : Z; CPUAccessFlags : Z; MiscFlags : Z
}.

Class CaptureApi (P : Type) : Type := {
  (** [GraphicsCaptureSession::IsSupported] *)
  IsSupported : com P bool;
  GetLastError : P → Z;
  D3D11CreateDevice : DriverType → Z → com P (option Z * option Z);
  (** [device.cast::<IDXGIDevice>()], and [inspectable.cast::<IDirect3DDevice>()]. *)
  cast_dxgi : Z → com P Z;
  CreateDirect3D11DeviceFromDXGIDevice : Z → com P Z;
  cast_winrt : Z → com P Z;
  capture_factory : com P Z;
  CreateForWindow : Z → Z → com P Z;
  item_Size : Z → com P (Z * Z);
  CreateFreeThreaded : Z → Z → Z → Z * Z → com P Z;
  CreateCaptureSession : Z → Z → com P Z;
  SetIsCursorCaptureEnabled : Z → bool → com P unit;
  SetIsBorderRequired : Z → bool → com P unit;
  StartCapture : Z → com P unit;
  TryGetNextFrame : Z → com P Z;
  ContentSize : Z → com P (Z * Z);
  Recreate : Z → Z → Z → Z → Z * Z → com P unit;
  Surface : Z → com P Z;
  cast_access : Z → com P Z;
  GetInterface : Z → com P Z;
  GetDesc : P → Z → TextureDesc;
  CreateTexture2D : Z → TextureDesc → com P (option Z);
  CopyResource : Z → Z → Z → P → P;
  (** The memory behind [pData] and the [RowPitch]. *)
  Map : Z → Z → com P (list Z * Z);
  Unmap : Z → Z → P → P
}.

Definition FRAME_POOL_BUFFERS : Z := 2.
Definition DIAGNOSTIC_FRAME_LIMIT : Z := 100.

(** [Frame]: tightly packed rows, or a texture. *)
Record Frame : Type := mkFrame { f_width : Z; f_height : Z; f_bgra : list Z; f_gpu_frame : option GpuFrame }.

Record WindowCapture : Type := mkCapture {
  wc_device : Z; wc_context : Z; wc_item : Z; wc_frame_pool : Z; wc_session : Z; wc_d3d_device : Z;
  wc_staging : option (Z * Z * Z); wc_pool_size : Z * Z; wc_handle : Z; wc_frames_seen : Z; wc_hardware : bool
}.

Definition set_staging (s : Z * Z * Z) (c : WindowCapture) : WindowCapture :=
  mkCapture (wc_device c) (wc_context c) (wc_item c) (wc_frame_pool c) (wc_session c) (wc_d3d_device c)
            (Some s) (wc_pool_size c) (wc_handle c) (wc_frames_seen c) (wc_hardware c).
Definition set_pool_size (size : Z * Z) (c : WindowCapture) : WindowCapture :=
  mkCapture (wc_device c) (wc_context c) (wc_item c) (wc_frame_pool c) (wc_session c) (wc_d3d_device c)
            (wc_staging c) size (wc_handle c) (wc_frames_seen c) (wc_hardware c).
Definition count_frame (c : WindowCapture) : WindowCapture :=
  mkCapture (wc_device c) (wc_context c) (wc_item c) (wc_frame_pool c) (wc_session c) (wc_d3d_device c)
            (wc_staging c) (wc_pool_size c) (wc_handle c)
            (if wc_frames_seen c <? DIAGNOSTIC_FRAME_LIMIT then wc_frames_seen c + 1 else wc_frames_seen c) (wc_hardware c).

(** ** Reading a texture back *)

(** [copy_nonoverlapping] of [src] to [at] in [out]. *)
Definition copy_to (out : list Z) (at_ : nat) (src : list Z) : list Z :=
  take at_ out ++ src ++ drop (at_ + length src) out.

(** The loop over the rows, [y] up to [Height]. *)
Fixpoint copy_rows (mapped : list Z) (row_pitch row_bytes n y : nat) (bgra : list Z) : list Z :=
  match n with
  | O => bgra
  | S n => copy_rows mapped row_pitch row_bytes n (S y)
             (copy_to bgra (y * row_bytes) (take row_bytes (drop (y * row_pitch) mapped)))
  end.

Definition readback (desc : TextureDesc) (mapped : list Z) (row_pitch : Z) : list Z :=
  let row_bytes := (Z.to_nat (Width desc) * 4)%nat in
  copy_rows mapped (Z.to_nat row_pitch) row_bytes (Z.to_nat (Height desc)) 0
            (replicate (row_bytes * Z.to_nat (Height desc)) 0).

Section Capture.
Context {P : Type} `{CaptureApi P}.

(** [is_supported]: a failing query is a no. *)
Definition is_supported (p : P) : bool :=
  match (IsSupported p).2 with inl b => b | inr _ => false end.

(** One attempt of [create_d3d_device], and what the last error was. *)
Definition try_device (driver : DriverType) (flags : Z) (last : option Z) (p : P) :
    P * (Z * Z * bool + option Z) :=
  match D3D11CreateDevice driver flags p with
  | (p, inl (Some device, Some context)) =>
    (p, inl (device, context, match driver with D3D_DRIVER_TYPE_HARDWARE => true | D3D_DRIVER_TYPE_WARP => false end))
  | (p, inl _) => (p, inr last)
  | (p, inr e) => (p, inr (Some e))
  end.

Fixpoint try_devices (attempts : list (DriverType * Z)) (last : option Z) (p : P) : P * (Z * Z * bool + option Z) :=
  match attempts with
  | [] => (p, inr last)
  | (driver, flags) :: attempts =>
    match try_device driver flags last p with
    | (p, inr last) => try_devices attempts last p
    | found => found
    end
  end.

Definition device_attempts : list (DriverType * Z) :=
  let flags := [Z.lor D3D11_CREATE_DEVICE_BGRA_SUPPORT D3D11_CREATE_DEVICE_VIDEO_SUPPORT; D3D11_CREATE_DEVICE_BGRA_SUPPORT] in
  flat_map (λ driver, map (λ f, (driver, f)) flags) [D3D_DRIVER_TYPE_HARDWARE; D3D_DRIVER_TYPE_WARP].

Definition create_d3d_device : ffi P (Z * Z * bool) := λ p,
  match try_devices device_attempts None p with
  | (p, inl found) => (p, Ok found)
  | (p, inr last) => (p, Err (from_option id (GetLastError p) last))
  end.

Definition winrt_device (device : Z) : ffi P Z :=
  dxgi ← call (cast_dxgi device);
  inspectable ← call (CreateDirect3D11DeviceFromDXGIDevice dxgi);
  call (cast_winrt inspectable).

(** [WindowCapture::new] *)
Definition WindowCapture_new (hwnd : Z) : ffi P WindowCapture :=
  found ← create_d3d_device;
  let '(device, context, hardware) := found in
  d3d_device ← winrt_device device;
  interop ← call capture_factory;
  item ← call (CreateForWindow interop hwnd);
  pool_size ← call (item_Size item);
  frame_pool ← call (CreateFreeThreaded d3d_device B8G8R8A8UIntNormalized FRAME_POOL_BUFFERS pool_size);
  session ← call (CreateCaptureSession frame_pool item);
  ignore (SetIsCursorCaptureEnabled session false);;
  ignore (SetIsBorderRequired session false);;
  call (StartCapture session);;
  mret (mkCapture device context item frame_pool session d3d_device None pool_size hwnd 0 hardware).

Definition capture (A : Type) : Type := ffi (P * WindowCapture) A.

Definition describe (texture : Z) : capture TextureDesc := λ '(p, c), ((p, c), Ok (GetDesc p texture)).

(** The match on what the pool gave: an error that is none is an empty pool. *)
Definition acquire (pool : Z) : capture (option Z) := λ '(p, c),
  match TryGetNextFrame pool p with
  | (p, inl frame) => ((p, c), Ok (Some frame))
  | (p, inr e) => if hr_is_ok e || (e =? E_POINTER) then ((p, c), Ok None) else ((p, c), Err e)
  end.

Definition staging_desc (src : TextureDesc) : TextureDesc :=
  mkTextureDesc (Width src) (Height src) 1 1 (Format src) D3D11_USAGE_STAGING 0 D3D11_CPU_ACCESS_READ 0.

Definition new_staging (src : TextureDesc) : capture Z :=
  device ← self wc_device;
  made ← api (CreateTexture2D device (staging_desc src));
  match made with
  | None => λ s, (s, Panic)
  | Some tex => update (set_staging (tex, Width src, Height src));; mret tex
  end.

Definition staging_texture (src : TextureDesc) : capture Z :=
  kept ← self wc_staging;
  match kept with
  | Some (tex, w, h) => if (w =? Width src) && (h =? Height src) then mret tex else new_staging src
  | None => new_staging src
  end.

(** The part after the size check: the texture, as it is or read back. *)
Definition take_frame (intent : CaptureIntent) (texture : Z) : capture Frame :=
  desc ← describe texture;
  c ← self id;
  match intent, wc_hardware c with
  | GpuNv12Preferred, true =>
    update count_frame;;
    mret (mkFrame (Width desc) (Height desc) []
                  (Some (mkGpuFrame (Width desc) (Height desc) (wc_device c) (wc_context c) texture)))
  | _, _ =>
    staging ← staging_texture desc;
    act (CopyResource (wc_context c) staging texture);;
    mapped ← api (Map (wc_context c) staging);
    let bgra := readback desc mapped.1 mapped.2 in
    act (Unmap (wc_context c) staging);;
    update count_frame;;
    mret (mkFrame (Width desc) (Height desc) bgra None)
  end.

Definition try_next_frame (intent : CaptureIntent) : capture (option Frame) :=
  c ← self id;
  acquired ← acquire (wc_frame_pool c);
  match acquired with
  | None => mret None
  | Some frame =>
    content ← api (ContentSize frame);
    if negb (bool_decide (content = wc_pool_size c)) then
      api (Recreate (wc_frame_pool c) (wc_d3d_device c) B8G8R8A8UIntNormalized FRAME_POOL_BUFFERS content);;
      update (set_pool_size content);;
      mret None
    else
      surface ← api (Surface frame);
      access ← api (cast_access surface);
      texture ← api (GetInterface access);
      f ← take_frame intent texture;
      mret (Some f)
  end.

(** [WindowCapture::size] *)
Definition size : capture (Z * Z) := item ← self wc_item; api (item_Size item).
End Capture.

(** ** Reading back, as lemmas *)

Definition row_at (mapped : list Z) (row_pitch row_bytes y : nat) : list Z := take row_bytes (drop (y * row_pitch) mapped).

Lemma readback_rows_spec mapped row_pitch row_bytes n y front rest :
  (length front = y * row_bytes → length rest = n * row_bytes →
   (∀ k, k < y + n → length (row_at mapped row_pitch row_bytes k) = row_bytes) →
   copy_rows mapped row_pitch row_bytes n y (front ++ rest) =
     front ++ concat (map (row_at mapped row_pitch row_bytes) (seq y n)))%nat.
Proof.
  revert y front rest. induction n as [|n IH]; intros y front rest Hf Hr Hrow; cbn [copy_rows seq map concat].
  - destruct rest; [done|]. cbn in Hr. lia.
  - assert (Hy : length (row_at mapped row_pitch row_bytes y) = row_bytes) by (apply Hrow; lia).
    assert (E : copy_to (front ++ rest) (y * row_bytes) (row_at mapped row_pitch row_bytes y) =
                (front ++ row_at mapped row_pitch row_bytes y) ++ drop row_bytes rest).
    { unfold copy_to. rewrite Hy, take_app_le, take_ge by lia. rewrite <- drop_drop, drop_app_length' by lia. by rewrite <- app_assoc. }
    unfold row_at in E at 1. rewrite E, IH; [by rewrite <- app_assoc|rewrite length_app; lia|rewrite length_drop; lia|].
    intros k Hk. apply Hrow. lia.
Qed.

(** Rows as they lie in the mapped memory, each with what pads it to the pitch. *)
Definition padded_rows (rows : list (list Z * list Z)) : list Z := concat (map (λ r, r.1 ++ r.2) rows).

Lemma row_at_padded row_pitch row_bytes rows tail k r :
  Forall (λ r, length r.1 = row_bytes ∧ length (r.1 ++ r.2) = row_pitch) rows → rows !! k = Some r →
  row_at (padded_rows rows ++ tail) row_pitch row_bytes k = r.1.
Proof.
  intros Hrows. revert k. induction Hrows as [|r0 rows [Hb Hp] _ IH]; intros k; [done|]. unfold row_at, padded_rows in *. cbn [map concat].
  destruct k as [|k]; cbn [lookup list_lookup].
  - intros [= ->]. rewrite Nat.mul_0_l, drop_0, <- !app_assoc, take_app_le by lia. by rewrite take_ge by lia.
  - intros Hk. rewrite Nat.mul_succ_l, Nat.add_comm, <- app_assoc, <- drop_drop, drop_app_length' by done. by apply IH.
Qed.

Lemma readback_rows desc rows row_pitch tail :
  Forall (λ r, len r.1 = 4 * Width desc ∧ len (r.1 ++ r.2) = row_pitch) rows → len rows = Height desc →
  readback desc (padded_rows rows ++ tail) row_pitch = concat (map fst rows).
Proof.
  intros Hrows Hh. unfold readback. set (rb := (Z.to_nat (Width desc) * 4)%nat). set (n := Z.to_nat (Height desc)).
  assert (Hn : n = length rows) by (unfold n, len in *; lia).
  assert (Hrows' : Forall (λ r, length r.1 = rb ∧ length (r.1 ++ r.2) = Z.to_nat row_pitch) rows).
  { eapply Forall_impl; [exact Hrows|]. cbn. unfold len, rb. intros r [H1 H2]. split; lia. }
  assert (Hat : ∀ k r, rows !! k = Some r → row_at (padded_rows rows ++ tail) (Z.to_nat row_pitch) rb k = r.1) by (intros; by apply row_at_padded).
  rewrite <- (app_nil_l (replicate _ _)), readback_rows_spec; [|done|rewrite length_replicate; lia|].
  - cbn [app]. f_equal. rewrite Hn. apply list_eq. intros i. change (@map) with (@fmap list list_fmap). rewrite !list_lookup_fmap.
    destruct (rows !! i) as [r|] eqn:Hr; cbn.
    + rewrite lookup_seq_lt by (by eapply lookup_lt_Some). cbn. f_equal. by apply Hat.
    + rewrite lookup_seq_ge by (by apply lookup_ge_None). done.
  - intros k Hk. destruct (lookup_lt_is_Some_2 rows k) as [r Hr]; [lia|]. rewrite (Hat _ _ Hr).
    rewrite Forall_forall in Hrows'. by apply (Hrows' r), list_elem_of_lookup_2 with k.
Qed.

Lemma copy_rows_len mapped row_pitch row_bytes n y bgra :
  (length mapped ≥ (y + n) * row_pitch → row_bytes ≤ row_pitch → (y + n) * row_bytes ≤ length bgra →
   length (copy_rows mapped row_pitch row_bytes n y bgra) = length bgra)%nat.
Proof.
  revert y bgra. induction n as [|n IH]; intros y bgra Hm Hp Hb; [done|]. cbn [copy_rows].
  assert (Hc : length (copy_to bgra (y * row_bytes) (take row_bytes (drop (y * row_pitch) mapped))) = length bgra).
  { unfold copy_to. rewrite !length_app, length_drop, !length_take, length_drop. nia. }
  rewrite IH; [done|lia|done|rewrite Hc; lia].
Qed.

Lemma readback_len desc mapped row_pitch :
  0 ≤ Width desc → 0 ≤ Height desc → 4 * Width desc ≤ row_pitch → row_pitch * Height desc ≤ len mapped →
  len (readback desc mapped row_pitch) = 4 * Width desc * Height desc.
Proof.
  intros Hw Hh Hp Hm. unfold readback, len in *. rewrite copy_rows_len; rewrite ?length_replicate; nia.
Qed.

(** ** Reasoning about a capture's calls *)

Lemma ends_describe `{CaptureApi P} t (p : P) c (Q : P * WindowCapture → outcome Z TextureDesc → Prop) :
  Q (p, c) (Ok (GetDesc p t)) → ends (describe t) (p, c) Q.
Proof. done. Qed.

Lemma ends_acquire `{CaptureApi P} pool (p : P) c (Q : P * WindowCapture → outcome Z (option Z) → Prop) :
  match TryGetNextFrame pool p with
  | (q, inl frame) => Q (q, c) (Ok (Some frame))
  | (q, inr hr) => Q (q, c) (if hr_is_ok hr || (hr =? E_POINTER) then Ok None else Err hr)
  end → ends (acquire pool) (p, c) Q.
Proof. unfold ends, acquire. destruct (TryGetNextFrame pool p) as [q [frame|hr]]; [done|]. by case_if. Qed.

Ltac ends_step ::= first [ends_call | apply ends_describe | apply ends_acquire]; cbn beta iota.

(** ** What is relied on *)

Class CaptureLaws (P : Type) `{CaptureApi P} : Type := {
  (** The rows of a texture; of one yet to be created, those it starts with. *)
  picture : P → Z → list (list Z);
  desc_fixed : ∀ (p p' : P) t, GetDesc p t = GetDesc p' t;
  (** The limit on a texture's sides. *)
  desc_bounds : ∀ (p : P) t, 0 ≤ Width (GetDesc p t) ≤ 16384 ∧ 0 ≤ Height (GetDesc p t) ≤ 16384;
  picture_shape : ∀ (p : P) t, len (picture p t) = Height (GetDesc p t) ∧ Forall (λ row, len row = 4 * Width (GetDesc p t)) (picture p t);
  created : ∀ (p : P) device d, match CreateTexture2D device d p with
    | (p', inl (Some t)) => GetDesc p' t = d ∧ ∀ t', picture p' t' = picture p t'
    | (p', inl None) => False
    | (p', inr _) => True
    end;
  copied : ∀ (p : P) context dst src,
    Width (GetDesc p dst) = Width (GetDesc p src) → Height (GetDesc p dst) = Height (GetDesc p src) →
    picture (CopyResource context dst src p) dst = picture p src;
  (** Mapped, the rows lie [RowPitch] apart. *)
  mapped : ∀ (p : P) context t, match Map context t p with
    | (p', inl (data, row_pitch)) => ∃ rows tail, data = padded_rows rows ++ tail ∧ map fst rows = picture p t ∧
        Forall (λ r, len (r.1 ++ r.2) = row_pitch) rows
    | (p', inr _) => True
    end
}.

Section CaptureFacts.
Context {P : Type} `{CaptureLaws P}.
Implicit Types p : P.
Implicit Types c : WindowCapture.

(** The texture kept for reading back has the size it is kept under. *)
Definition staging_ok c : Prop :=
  ∀ t w h p, wc_staging c = Some (t, w, h) → Width (GetDesc p t) = w ∧ Height (GetDesc p t) = h.

(** Everything but the staging texture, the pool's size and the counter stays. *)
Definition same_capture c c' : Prop :=
  wc_frame_pool c' = wc_frame_pool c ∧ wc_handle c' = wc_handle c ∧ wc_hardware c' = wc_hardware c ∧
  wc_context c' = wc_context c ∧ wc_device c' = wc_device c.

Lemma staging_texture_ends texture p c :
  staging_ok c →
  ends (staging_texture (GetDesc p texture)) (p, c) (λ s r,
    staging_ok s.2 ∧ same_capture c s.2 ∧ wc_pool_size s.2 = wc_pool_size c ∧
    match r with
    | Ok t => (∀ q : P, Width (GetDesc q t) = Width (GetDesc p texture) ∧ Height (GetDesc q t) = Height (GetDesc p texture)) ∧
              picture s.1 texture = picture p texture
    | Err _ => True
    | Panic => False
    end).
Proof.
  intros Hc. unfold staging_texture. ends_steps.
  assert (Hnew : ends (new_staging (GetDesc p texture)) (p, c) (λ s r,
    staging_ok s.2 ∧ same_capture c s.2 ∧ wc_pool_size s.2 = wc_pool_size c ∧
    match r with
    | Ok t => (∀ q : P, Width (GetDesc q t) = Width (GetDesc p texture) ∧ Height (GetDesc q t) = Height (GetDesc p texture)) ∧
              picture s.1 texture = picture p texture
    | Err _ => True
    | Panic => False
    end)).
  { unfold new_staging. ends_steps.
    pose proof (created p (wc_device c) (staging_desc (GetDesc p texture))) as Hmade.
    destruct (CreateTexture2D _ _ p) as [p' [[t|]|hr]]; [|done|by split_and!]. ends_steps.
    destruct Hmade as [Hd Hp]. assert (Hq : ∀ q : P, GetDesc q t = staging_desc (GetDesc p texture)) by (intros q; by rewrite (desc_fixed q p')).
    split_and!; try done; [|intros q; by rewrite Hq].
    intros t' w h q [= <- <- <-]. by rewrite Hq. }
  destruct (wc_staging c) as [[[t w] h]|] eqn:Es; [|done]. case_if; [|done]. bool_to_prop.
  unfold ends. cbn. split_and!; try done. intros q. destruct (Hc t w h q Es) as [-> ->]. done.
Qed.

(** A frame and the texture it was taken from. *)
Definition frame_of (intent : CaptureIntent) (hardware : bool) p (texture : Z) (f : Frame) : Prop :=
  f_width f = Width (GetDesc p texture) ∧ f_height f = Height (GetDesc p texture) ∧
  match f_gpu_frame f with
  | None => f_bgra f = concat (picture p texture) ∧ len (f_bgra f) = 4 * f_width f * f_height f
  | Some gf => intent = GpuNv12Preferred ∧ hardware = true ∧ f_bgra f = [] ∧
               gf_texture gf = texture ∧ gf_width gf = f_width f ∧ gf_height gf = f_height f
  end.

Lemma concat_len {A} (ls : list (list A)) k : Forall (λ l, len l = k) ls → len (concat ls) = k * len ls.
Proof. induction 1 as [|l ls Hl _ IH]; [unfold len; cbn; lia|]. cbn [concat]. rewrite len_app, len_cons, IH, Hl. lia. Qed.

Lemma count_frame_same c : same_capture c (count_frame c) ∧ wc_staging (count_frame c) = wc_staging c ∧
  wc_pool_size (count_frame c) = wc_pool_size c.
Proof. done. Qed.

Lemma take_frame_ends intent texture p c :
  staging_ok c →
  ends (take_frame intent texture) (p, c) (λ s r,
    staging_ok s.2 ∧ same_capture c s.2 ∧ wc_pool_size s.2 = wc_pool_size c ∧
    match r with Ok f => frame_of intent (wc_hardware c) p texture f | Err _ => True | Panic => False end).
Proof.
  intros Hc. unfold take_frame. ends_steps.
  assert (Hread : ends (staging ← staging_texture (GetDesc p texture);
    act (CopyResource (wc_context c) staging texture);;
    mapped ← api (Map (wc_context c) staging);
    act (Unmap (wc_context c) staging);;
    update count_frame;;
    mret (mkFrame (Width (GetDesc p texture)) (Height (GetDesc p texture)) (readback (GetDesc p texture) mapped.1 mapped.2) None)) (p, c)
   (λ s r, staging_ok s.2 ∧ same_capture c s.2 ∧ wc_pool_size s.2 = wc_pool_size c ∧
    match r with Ok f => frame_of intent (wc_hardware c) p texture f | Err _ => True | Panic => False end)).
  { apply ends_bind. eapply ends_mono; [by apply staging_texture_ends|]. intros [p1 c1] [t|e|] (Hok & Hs & Hz & Ht); cbn [fst snd] in *; [|done..].
    destruct Ht as [Hdim Hpic]. ends_steps. set (p2 := CopyResource _ _ _ p1).
    pose proof (mapped p2 (wc_context c) t) as Hm. destruct (Map (wc_context c) t p2) as [p3 [[data row_pitch]|hr]]; [|done]. ends_steps.
    destruct Hm as (rows & tail & -> & Hrows & Hpitch). split_and!; try done. unfold frame_of. cbn.
    assert (Hcopy : picture p2 t = picture p texture).
    { unfold p2. rewrite copied; [done|..]; rewrite (desc_fixed p1 p texture); apply Hdim. }
    destruct (picture_shape p texture) as [Hlen Hrow]. rewrite Hcopy in Hrows.
    assert (Hall : Forall (λ r : list Z * list Z, len r.1 = 4 * Width (GetDesc p texture) ∧ len (r.1 ++ r.2) = row_pitch) rows).
    { rewrite <- Hrows in Hrow. apply Forall_map in Hrow. apply Forall_and. split; [exact Hrow|exact Hpitch]. }
    rewrite readback_rows; [|done|rewrite <- Hlen, <- Hrows; unfold len; by rewrite length_map].
    rewrite Hrows. split_and!; try done. rewrite (concat_len _ _ Hrow), Hlen. lia. }
  destruct intent; [exact Hread|]. cbn [id]. destruct (wc_hardware c) eqn:Eh; [|exact Hread].
  ends_steps. unfold frame_of. cbn. by split_and!.
Qed.

(** The calls that lead from a capture to the texture of its next frame. *)
Definition obtained p c p1 (texture : Z) : Prop :=
  ∃ frame surface access q1 q2 q3 q4,
    TryGetNextFrame (wc_frame_pool c) p = (q1, inl frame) ∧ ContentSize frame q1 = (q2, inl (wc_pool_size c)) ∧
    Surface frame q2 = (q3, inl surface) ∧ cast_access surface q3 = (q4, inl access) ∧
    GetInterface access q4 = (p1, inl texture).

(** The two ways of having no frame. *)
Definition pool_empty p c p' c' : Prop :=
  ∃ hr, TryGetNextFrame (wc_frame_pool c) p = (p', inr hr) ∧ (hr_is_ok hr = true ∨ hr = E_POINTER) ∧ c' = c.
Definition pool_resized p c p' c' : Prop :=
  ∃ frame content q1 q2, TryGetNextFrame (wc_frame_pool c) p = (q1, inl frame) ∧ ContentSize frame q1 = (q2, inl content) ∧
    content ≠ wc_pool_size c ∧ c' = set_pool_size content c ∧
    Recreate (wc_frame_pool c) (wc_d3d_device c) B8G8R8A8UIntNormalized FRAME_POOL_BUFFERS content q2 = (p', inl tt).

Lemma try_next_frame_ends intent p c :
  staging_ok c →
  ends (try_next_frame intent) (p, c) (λ s r,
    staging_ok s.2 ∧ same_capture c s.2 ∧
    match r with
    | Ok (Some f) => wc_pool_size s.2 = wc_pool_size c ∧
        ∃ p1 texture, obtained p c p1 texture ∧ frame_of intent (wc_hardware c) p1 texture f
    | Ok None => pool_empty p c s.1 s.2 ∨ pool_resized p c s.1 s.2
    | Err _ => True
    | Panic => False
    end).
Proof.
  intros Hc. unfold try_next_frame. ends_steps. cbn [id].
  destruct (TryGetNextFrame (wc_frame_pool c) p) as [q1 [frame|hr]] eqn:E1.
  2: { destruct (hr_is_ok hr || (hr =? E_POINTER)) eqn:Ehr; ends_steps; split_and!; try done.
       left. exists hr. split_and!; [done| |done]. apply orb_true_iff in Ehr as [?|Ehr%Z.eqb_eq]; [by left|by right]. }
  ends_steps. destruct (ContentSize frame q1) as [q2 [content|hr]] eqn:E2; [|done]. case_bool_decide as Hsize; cbn [negb].
  - ends_steps. destruct (Surface frame q2) as [q3 [surface|hr]] eqn:E3; [|done].
    ends_steps. destruct (cast_access surface q3) as [q4 [access|hr]] eqn:E4; [|done].
    ends_steps. destruct (GetInterface access q4) as [p1 [texture|hr]] eqn:E5; [|done].
    ends_step. eapply ends_mono; [by apply take_frame_ends|].
    intros s [f|e|] (H1 & H2 & H3 & H4); [|done..]. ends_steps. split_and!; try done. exists p1, texture. split; [|done].
    subst content. exists frame, surface, access, q1, q2, q3, q4. by split_and!.
  - ends_steps. destruct (Recreate _ _ _ _ content q2) as [p' [[]|hr]] eqn:E3; [|done]. ends_steps. split_and!; try done.
    right. exists frame, content, q1, q2. by split_and!.
Qed.
End CaptureFacts.

(** a frame handed on is the picture of the texture it was taken from: read
    back, its bytes are the texture's rows one after the other with none of the
    padding the mapping has, so four for every pixel; it stays on the GPU only
    if that was asked for and the device is hardware. There is none when the
    pool is empty, which is no error and changes nothing, or when the content
    changed size, for which the pool is made anew. *)
Theorem frames_read_whole `{CaptureLaws P} (intent : CaptureIntent) (p p' : P) (c c' : WindowCapture)
    (r : outcome Z (option Frame)) :
  staging_ok (P:=P) c → try_next_frame intent (p, c) = ((p', c'), r) →
  staging_ok (P:=P) c' ∧
  match r with
  | Ok (Some f) => wc_pool_size c' = wc_pool_size c ∧
      ∃ p1 texture, obtained p c p1 texture ∧ frame_of intent (wc_hardware c) p1 texture f
  | Ok None => pool_empty p c p' c' ∨ pool_resized p c p' c'
  | Err _ => True
  | Panic => False
  end.
Proof.
  intros Hc E. pose proof (try_next_frame_ends intent p c Hc) as He. unfold ends in He. rewrite E in He. cbn [fst snd] in He.
  destruct He as (H1 & _ & H2). by split.
Qed.

(** A device that is not hardware is made only after hardware was refused with
    and without the video flag. *)
Lemma warp_is_last `{CaptureApi P} (p p' : P) device context :
  create_d3d_device p = (p', Ok (device, context, false)) →
  ∃ q1 q2, fst (D3D11CreateDevice D3D_DRIVER_TYPE_HARDWARE (Z.lor D3D11_CREATE_DEVICE_BGRA_SUPPORT D3D11_CREATE_DEVICE_VIDEO_SUPPORT) p) = q1 ∧
    fst (D3D11CreateDevice D3D_DRIVER_TYPE_HARDWARE D3D11_CREATE_DEVICE_BGRA_SUPPORT q1) = q2 ∧
    ∀ d ctx, snd (D3D11CreateDevice D3D_DRIVER_TYPE_HARDWARE (Z.lor D3D11_CREATE_DEVICE_BGRA_SUPPORT D3D11_CREATE_DEVICE_VIDEO_SUPPORT) p) ≠ inl (Some d, Some ctx) ∧
             snd (D3D11CreateDevice D3D_DRIVER_TYPE_HARDWARE D3D11_CREATE_DEVICE_BGRA_SUPPORT q1) ≠ inl (Some d, Some ctx).
Proof.
  unfold create_d3d_device, device_attempts. cbn [flat_map map app try_devices]. unfold try_device. intros E.
  destruct (D3D11CreateDevice D3D_DRIVER_TYPE_HARDWARE _ p) as [q1 [[[d|] [x|]]|e]]; [done|..];
    exists q1; (destruct (D3D11CreateDevice D3D_DRIVER_TYPE_HARDWARE _ q1) as [q2 [[[d2|] [x2|]]|e2]]; [done|..]); by exists q2.
Qed.

(** ** A small machine *)

Module SmallMachine.

(** What the pools give next, and what was painted on textures; all are two by
    two pixels. *)
Record state : Type := mkState { m_frames : list Z; m_pictures : gmap Z (list Z) }.

Definition eight (row : list Z) : list Z := take 8 (row ++ replicate 8 0).
Definition rows_of (l : list Z) : list (list Z) := [eight (take 8 l); eight (drop 8 l)].
Definition painted (p : state) (t : Z) : list (list Z) := rows_of (default [] (m_pictures p !! t)).
Definition plain : TextureDesc := mkTextureDesc 2 2 1 1 B8G8R8A8UIntNormalized 0 40 0 0.
Definition desc_of (t : Z) : TextureDesc := if t =? 1000 then (mkTextureDesc 2 2 1 1 87 D3D11_USAGE_STAGING 0 D3D11_CPU_ACCESS_READ 0) else plain.
Definition desc_eqb (a b : TextureDesc) : bool :=
  (Width a =? Width b) && (Height a =? Height b) && (MipLevels a =? MipLevels b) && (ArraySize a =? ArraySize b) &&
  (Format a =? Format b) && (Usage a =? Usage b) && (BindFlags a =? BindFlags b) && (CPUAccessFlags a =? CPUAccessFlags b) &&
  (MiscFlags a =? MiscFlags b).

Definition yes {A} (a : A) : com state A := λ p, (p, inl a).

(** An empty pool is [0] in the list; a row of a mapping is followed by three
    bytes. *)
#[global] Instance small_machine : CaptureApi state := {
  IsSupported := yes true;
  GetLastError _ := 5;
  D3D11CreateDevice driver flags p :=
    match driver with D3D_DRIVER_TYPE_HARDWARE => (p, inr E_FAIL) | D3D_DRIVER_TYPE_WARP => (p, inl (Some 1, Some 2)) end;
  cast_dxgi := yes; CreateDirect3D11DeviceFromDXGIDevice := yes; cast_winrt := yes; capture_factory := yes 3;
  CreateForWindow _ hwnd := yes hwnd;
  item_Size _ := yes (2, 2);
  CreateFreeThreaded _ _ _ _ := yes 5; CreateCaptureSession _ _ := yes 6;
  SetIsCursorCaptureEnabled _ _ := yes tt; SetIsBorderRequired _ _ := λ p, (p, inr E_FAIL); StartCapture _ := yes tt;
  TryGetNextFrame _ p :=
    match m_frames p with
    | [] => (p, inr E_FAIL)
    | f :: fs => (mkState fs (m_pictures p), if f =? 0 then inr S_OK else inl f)
    end;
  ContentSize frame := yes (if frame =? 77 then (3, 2) else (2, 2));
  Recreate _ _ _ _ _ := yes tt;
  Surface := yes; cast_access := yes; GetInterface := yes;
  GetDesc _ := desc_of;
  CreateTexture2D _ d p := if desc_eqb d (desc_of 1000) then (p, inl (Some 1000)) else (p, inr E_FAIL);
  CopyResource _ dst src p := mkState (m_frames p) (<[dst := concat (painted p src)]> (m_pictures p));
  Map _ t := λ p, (p, inl (padded_rows (map (λ row, (row, [9; 9; 9])) (painted p t)), 11));
  Unmap _ _ p := p
}.

Lemma eight_len row : length (eight row) = 8%nat.
Proof. unfold eight. rewrite length_take, length_app, length_replicate. lia. Qed.

Lemma eight_id row : length row = 8%nat → eight row = row.
Proof. intros H. unfold eight. rewrite take_app_le by lia. by rewrite take_ge by lia. Qed.

Lemma rows_of_painted l : rows_of (concat (rows_of l)) = rows_of l.
Proof.
  unfold rows_of at 1 3. cbn [concat rows_of]. rewrite app_nil_r.
  rewrite take_app_le, take_ge, drop_app_length' by (rewrite eight_len; lia). by rewrite (eight_id (eight (take 8 l))), (eight_id (eight (drop 8 l))) by apply eight_len.
Qed.

Lemma desc_eqb_true a b : desc_eqb a b = true → a = b.
Proof. unfold desc_eqb. intros E. bool_to_prop. destruct a, b. cbn in *. congruence. Qed.

#[global] Instance small_machine_laws : CaptureLaws state.
Proof.
  refine {| picture := painted |}.
  - done.
  - intros p t. cbn [GetDesc small_machine]. unfold desc_of. case_if; cbn; lia.
  - intros p t. cbn [GetDesc small_machine]. unfold desc_of, painted, rows_of.
    assert (∀ l, len (eight l) = 8) as H8 by (intros l; unfold len; by rewrite eight_len).
    split; [by case_if|]. case_if; cbn; by repeat constructor.
  - intros p device d. cbn [CreateTexture2D GetDesc small_machine]. destruct (desc_eqb d (desc_of 1000)) eqn:E; [|done]. apply desc_eqb_true in E as ->. done.
  - intros p context dst src _ _. unfold painted at 1. cbn [CopyResource small_machine m_pictures]. rewrite lookup_insert_eq. cbn [default from_option id]. unfold painted. apply rows_of_painted.
  - intros p context t. cbn [Map small_machine yes]. eexists _, []. rewrite app_nil_r. split; [done|]. cbn. split; [done|].
    repeat constructor; unfold len; cbn [fst snd]; by rewrite length_app, eight_len.
Defined.

Definition dots : list Z := [1; 2; 3; 4; 5; 6; 7; 8; 11; 12; 13; 14; 15; 16; 17; 18].
Definition start : state := mkState [0; 40; 77; 40] {[40 := dots]}.
Definition opened : state * outcome Z WindowCapture := WindowCapture_new 10 start.
Definition fresh : WindowCapture := mkCapture 1 2 10 5 6 1 None (2, 2) 10 0 false.
End SmallMachine.

Example small_capture_starts : SmallMachine.opened = (SmallMachine.start, Ok SmallMachine.fresh).
Proof. vm_compute. reflexivity. Qed.

(** The second poll of a fresh capture. *)
Lemma frames_read_whole_witness :
  let polled := try_next_frame CpuBgra (SmallMachine.start, SmallMachine.fresh) in
  polled.2 = Ok None ∧
  ∃ c, (try_next_frame GpuNv12Preferred polled.1).1.2 = c ∧ staging_ok (P:=SmallMachine.state) c ∧
    (try_next_frame GpuNv12Preferred polled.1).2 = Ok (Some (mkFrame 2 2 SmallMachine.dots None)).
Proof.
  intros polled. split; [vm_compute; reflexivity|].
  eexists. split; [reflexivity|].
  destruct (frames_read_whole GpuNv12Preferred polled.1.1 (try_next_frame GpuNv12Preferred polled.1).1.1 polled.1.2
              (try_next_frame GpuNv12Preferred polled.1).1.2 (try_next_frame GpuNv12Preferred polled.1).2) as [H1 _].
  - intros t w h p E. vm_compute in E. discriminate E.
  - vm_compute. reflexivity.
  - split; [exact H1|vm_compute; reflexivity].
Defined.
