(* ===== verification/WinPlatform.v ===== *)
(** * The Windows side of a session

    [WinWindowSource] of [crates/oxagent/src/win/mod.rs]: the guest's windows,
    each with its application, and one capture for every window a frame was
    asked of. It is an instance of the [WindowSource] that [Serve] is written
    against, so what holds of a session holds of one on Windows. *)

From S2P Require Import Prelude Cursor Wire MsgType MsgControl MsgInput MsgWindow.
From S2P Require Import Envelope Reassembly ProtoMessage Transport Model Registry Pacing Session Channel Serve ServeSession.
From S2P Require Import Yuv Decode Inject WinCall WinSource WinCapture.

(** What the guest is by the next tick. *)
Class Passes (G : Type) : Type := { elapse : G → G }.

Definition WINDOWS_APP : list Z := bytes_of_string "windows-app".

(** The window as the driver is told of it. *)
Definition source_window (w : WindowInfo) (identity : option AppIdentity) : SourceWindow :=
  mkSourceWindow (wi_hwnd w) (from_option ai_pid 0 identity) (from_option ai_app_id WINDOWS_APP identity) (wi_title w)
                 (wi_x w) (wi_y w) (wi_width w) (wi_height w) 96
                 (wi_minimized w) (wi_maximized w) (wi_resizable w) (wi_has_frame w) (wi_topmost w).

Definition source_frame (f : Frame) : SourceFrame :=
  mkSourceFrame (Z.min (f_width f) 65535) (Z.min (f_height f) 65535) (f_bgra f) (f_gpu_frame f).

Section Platform.
Context {G P : Type} `{Win32 G, WinGuest G, Passes G, CaptureApi P}.

(** The guest, the process-wide cache of identities and the machine that
    captures are around the code's one field, the captures by handle. *)
Record WinWindowSource : Type := mkWinSource {
  ws_guest : G; ws_cache : gmap Z CacheEntry; ws_machine : P; captures : gmap Z WindowCapture
}.

(** A new source starts no capture; the identities other sources found stay known. *)
Definition WinWindowSource_new (g : G) (cache : gmap Z CacheEntry) (p : P) : WinWindowSource := mkWinSource g cache p ∅.

Implicit Types s : WinWindowSource.

Definition set_captures s (p : P) (m : gmap Z WindowCapture) : WinWindowSource := mkWinSource (ws_guest s) (ws_cache s) p m.

(** [live.into_iter().map(..).collect()] *)
Fixpoint name_windows (g : G) (cache : gmap Z CacheEntry) (live : list WindowInfo) :
    outcome unit (G * gmap Z CacheEntry * list SourceWindow) :=
  match live with
  | [] => mret (g, cache, [])
  | w :: live =>
    x ← identify g cache (wi_hwnd w);
    let '(g, cache, identity) := x in
    y ← name_windows g cache live;
    mret (y.1, source_window w identity :: y.2)
  end.

Definition win_live_windows s : outcome unit (WinWindowSource * list SourceWindow) :=
  let g := elapse (ws_guest s) in
  live ← enumerate_windows g;
  let alive := list_to_set (map wi_hwnd live) : gset Z in
  let kept := filter (λ '(handle, _), handle ∈ alive) (captures s) in
  x ← name_windows g (ws_cache s) live;
  mret (mkWinSource x.1.1 x.1.2 (ws_machine s) kept, x.2).

(** The frame of a capture that is there. *)
Definition poll_capture s (handle : Z) (c : WindowCapture) (intent : CaptureIntent) :
    outcome unit (WinWindowSource * option SourceFrame) :=
  match try_next_frame intent (ws_machine s, c) with
  | ((p, c), Ok (Some frame)) => Ok (set_captures s p (<[handle := c]> (captures s)), Some (source_frame frame))
  | ((p, c), Ok None) => Ok (set_captures s p (<[handle := c]> (captures s)), None)
  | ((p, c), Err _) => Ok (set_captures s p (delete handle (captures s)), None)
  | (_, Panic) => Panic
  end.

Definition win_next_frame s (handle : Z) (intent : CaptureIntent) : outcome unit (WinWindowSource * option SourceFrame) :=
  match captures s !! handle with
  | Some c => poll_capture s handle c intent
  | None =>
    match WindowCapture_new handle (ws_machine s) with
    | (p, Ok c) => poll_capture (set_captures s p (<[handle := c]> (captures s))) handle c intent
    | (p, Err _) => Ok (set_captures s p (captures s), None)
    | (_, Panic) => Panic
    end
  end.
End Platform.
Arguments WinWindowSource : clear implicits.

(** ** What the types admit *)

Section PlatformFacts.
Context {G P : Type} `{WinGuestLaws G, !Passes G, CaptureLaws P}.
Abbreviation source := (WinWindowSource G P).
Implicit Types s : source.

Definition typed s : Prop := cache_ok (ws_cache s) ∧ map_Forall (λ _ c, staging_ok (P:=P) c) (captures s).

Lemma typed_new g cache p : cache_ok cache → typed (WinWindowSource_new g cache p).
Proof. intros Hc. split; [exact Hc|apply map_Forall_empty]. Qed.

Lemma typed_new_empty g p : typed (WinWindowSource_new g ∅ p).
Proof. apply typed_new. intros h e i He. by rewrite lookup_empty in He. Qed.

(** The naming of windows, when nothing can panic. *)
Fixpoint named_windows (g : G) (cache : gmap Z CacheEntry) (live : list WindowInfo) : G * gmap Z CacheEntry * list SourceWindow :=
  match live with
  | [] => (g, cache, [])
  | w :: live =>
    let '(g, cache, identity) := identified g cache (wi_hwnd w) in
    let '(g, cache, ws) := named_windows g cache live in
    (g, cache, source_window w identity :: ws)
  end.

Lemma name_windows_runs g cache live : name_windows g cache live = Ok (named_windows g cache live).
Proof.
  revert g cache. induction live as [|w live IH]; intros g cache; [done|]. cbn [name_windows named_windows].
  rewrite identify_runs. cbn [mbind outcome_bind]. destruct (identified g cache (wi_hwnd w)) as [[g1 c1] i]. rewrite IH.
  cbn [mbind outcome_bind]. by destruct (named_windows g1 c1 live) as [[g2 c2] ws].
Qed.

(** A window of the driver's list is one of the guest's with some identity. *)
Definition named_as (info : WindowInfo) (w : SourceWindow) : Prop :=
  ∃ identity, w = source_window info identity ∧ ∀ i, identity = Some i → identity_ok i.

Lemma named_windows_ok g cache live :
  cache_ok cache →
  cache_ok (named_windows g cache live).1.2 ∧ Forall2 named_as live (named_windows g cache live).2.
Proof.
  revert g cache. induction live as [|w live IH]; intros g cache Hc; [by split; [|constructor]|]. cbn [named_windows].
  destruct (identified_ok g cache (wi_hwnd w) Hc) as [Hc1 Hi]. destruct (identified g cache (wi_hwnd w)) as [[g1 c1] i].
  cbn [fst snd] in *. destruct (IH g1 c1 Hc1) as [Hc2 Hws]. destruct (named_windows g1 c1 live) as [[g2 c2] ws].
  split; [done|]. constructor; [by exists i|done].
Qed.

Definition kept_captures s (live : list WindowInfo) : gmap Z WindowCapture :=
  filter (λ '(handle, _), handle ∈ (list_to_set (map wi_hwnd live) : gset Z)) (captures s).

Definition live_of s : source * list SourceWindow :=
  let g := elapse (ws_guest s) in
  let x := named_windows g (ws_cache s) (shared g) in
  (mkWinSource x.1.1 x.1.2 (ws_machine s) (kept_captures s (shared g)), x.2).

Lemma win_live_windows_runs s : win_live_windows s = Ok (live_of s).
Proof.
  unfold win_live_windows, live_of. rewrite enumerate_windows_runs. cbn [mbind outcome_bind].
  by rewrite name_windows_runs.
Qed.

Lemma live_of_typed s : typed s → typed (live_of s).1.
Proof.
  intros [Hc Hs]. split; [by apply named_windows_ok|]. unfold live_of. cbn [fst captures]. intros h c Hh.
  apply map_lookup_filter_Some in Hh as [Hh _]. by eapply Hs.
Qed.

Lemma capture_new_ends hwnd (p : P) :
  match (WindowCapture_new hwnd p).2 with Ok c => wc_staging c = None ∧ wc_handle c = hwnd | Err _ => True | Panic => False end.
Proof.
  unfold WindowCapture_new, winrt_device, ignore, call, mbind, ffi_bind, mret, ffi_ret.
  unfold create_d3d_device. destruct (try_devices _ _ p) as [p1 [[[device context] hardware]|e]]; cbn; [|done].
  repeat match goal with |- context [match ?m ?q with (_, _) => _ end] => destruct (m q) as [? [?|?]]; cbn; [|done] end.
  by split.
Qed.

Lemma poll_capture_ends s handle c intent :
  typed s → staging_ok (P:=P) c → ∃ r, poll_capture s handle c intent = Ok r ∧ typed r.1.
Proof.
  intros [Hi Hs] Hc. pose proof (try_next_frame_ends intent (ws_machine s) c Hc) as He. unfold ends in He. unfold poll_capture.
  destruct (try_next_frame intent (ws_machine s, c)) as [[p' c'] [[f|]|e|]]; cbn [fst snd] in He; destruct He as (Hc' & _ & He); [| | |done];
    eexists; (split; [done|]); (split; [done|]); cbn.
  - by apply map_Forall_insert_2.
  - by apply map_Forall_insert_2.
  - by apply map_Forall_delete.
Qed.

Lemma win_next_frame_ends s handle intent : typed s → ∃ r, win_next_frame s handle intent = Ok r ∧ typed r.1.
Proof.
  intros Hs. unfold win_next_frame. destruct (captures s !! handle) as [c|] eqn:Ec.
  { apply poll_capture_ends; [done|]. destruct Hs as [_ Hs]. by eapply Hs. }
  pose proof (capture_new_ends handle (ws_machine s)) as Hn. destruct (WindowCapture_new handle (ws_machine s)) as [p [c|e|]]; cbn [snd] in Hn; [| |done].
  - assert (Hok : staging_ok (P:=P) c) by (intros t w h q E; destruct Hn as [Hn _]; by rewrite Hn in E).
    apply poll_capture_ends; [|done]. destruct Hs as [Hi Hs]. split; [done|]. by apply map_Forall_insert_2.
  - eexists. split; [done|]. by destruct Hs.
Qed.
End PlatformFacts.

(** ** The instance

    [live_windows] and [next_frame] cannot panic on what the types admit, so they
    are functions there. *)

Section Instance_.
Context {G P : Type} `{WinGuestLaws G, !Passes G, CaptureLaws P}.

Definition TypedSource : Type := { s : WinWindowSource G P | typed s }.

Lemma typed_after (s : WinWindowSource G P) (f : option SourceFrame) :
  (∃ r, Ok (E:=unit) (s, f) = Ok r ∧ typed r.1) → typed s.
Proof. by intros (r & [= <-] & Ht). Qed.

Definition next_frame_typed (s : TypedSource) (handle : Z) (intent : CaptureIntent) : TypedSource * option SourceFrame :=
  match win_next_frame (`s) handle intent as o return (∃ r, o = Ok r ∧ typed r.1) → TypedSource * option SourceFrame with
  | Ok (s', f) => λ Ho, (s' ↾ typed_after _ _ Ho, f)
  | _ => λ _, (s, None)
  end (win_next_frame_ends (`s) handle intent (proj2_sig s)).

#[export] Instance win_source : WindowSource TypedSource := {|
  live_windows s := ((live_of (`s)).1 ↾ live_of_typed _ (proj2_sig s), (live_of (`s)).2);
  next_frame := next_frame_typed
|}.

(** The instance is the two methods. *)
Lemma live_windows_is (s : TypedSource) :
  win_live_windows (`s) = Ok (proj1_sig (live_windows s).1, (live_windows s).2).
Proof. rewrite win_live_windows_runs. by f_equal. Qed.

Lemma next_frame_is (s : TypedSource) handle intent :
  win_next_frame (`s) handle intent = Ok (proj1_sig (next_frame s handle intent).1, (next_frame s handle intent).2).
Proof.
  cbn. unfold next_frame_typed. destruct (win_next_frame_ends (`s) handle intent (proj2_sig s)) as (r & E & Ht).
  revert E Ht. generalize (win_next_frame (`s) handle intent). intros o E. subst o. by destruct r.
Qed.
End Instance_.
Arguments TypedSource G P {_}.

(** ** What is reported is sound *)

(** Titles fit a string of the protocol. *)
Definition titles_short (G : Type) `{WinGuest G} : Prop := ∀ (g : G) h, GetWindowTextLengthW g h ≤ 21845.

Lemma windows_app_ok : str_ok WINDOWS_APP.
Proof. by split. Qed.

Section Sound.
Context {G P : Type} `{WinGuestLaws G, !Passes G, CaptureLaws P}.
Hypothesis Hshort : titles_short G.

Lemma named_source_ok (g : G) info w : info ∈ shared g → named_as info w → source_ok w ∧ sw_handle w = wi_hwnd info.
Proof.
  intros Hin (i & -> & Hi). split; [|done]. pose proof (shared_info_ok _ _ Hin) as (Hv & Hx & Hy & Hw & Hh & Hm).
  apply shared_elem in Hin as (_ & _ & Hd). assert (Ht : wi_title info = from_utf16_lossy (text_of g (wi_hwnd info))).
  { unfold described in Hd. destruct (frame_bounds g _); [|done]. destruct (negb _ && _); [done|].
    remember (wi_hwnd info) as h. by injection Hd as <-. }
  unfold source_ok. cbn. split_and!; try done.
  - destruct i as [i|]; [by destruct (Hi i) as [? _]|]. cbn. unfold is_uint. lia.
  - destruct i as [i|]; [by destruct (Hi i) as [_ ?]|]. cbn. apply windows_app_ok.
  - split; [done|]. rewrite Ht. destruct (text_of_ok g (wi_hwnd info)) as [Hu Hl]. apply from_utf16_lossy_ok in Hu as [_ Hlen].
    specialize (Hshort g (wi_hwnd info)). lia.
Qed.

Lemma named_all (g : G) live ws : (∀ info, info ∈ live → info ∈ shared g) → Forall2 named_as live ws →
  Forall source_ok ws ∧ map sw_handle ws = map wi_hwnd live.
Proof.
  intros Hsub Hws. revert Hsub. induction Hws as [|info w live ws Hn _ IH]; intros Hsub; [done|].
  destruct (named_source_ok g info w) as [Hok Hh]; [apply Hsub; by left|done|].
  destruct IH as [IH1 IH2]; [intros i Hi; apply Hsub; by right|]. split; [by constructor|]. cbn. by rewrite Hh, IH2.
Qed.

Lemma win_source_sound : source_sound (TypedSource G P).
Proof.
  intros [s [Hc Hs]]. cbn [live_windows win_source snd proj1_sig live_of].
  destruct (named_windows_ok (elapse (ws_guest s)) (ws_cache s) (shared (elapse (ws_guest s))) Hc) as [_ Hws].
  destruct (named_all (elapse (ws_guest s)) _ _ (λ _ Hi, Hi) Hws) as [H1' H2']. split; [exact H1'|].
  rewrite H2'. apply shared_nodup.
Qed.
End Sound.


(** ** Captures *)

(** How [poll_capture] leaves the captures, from what the capture said. *)
Lemma poll_capture_spec {G P} `{CaptureApi P} (s s' : WinWindowSource G P) handle c intent f :
  poll_capture s handle c intent = Ok (s', f) →
  ∃ p c' r, try_next_frame intent (ws_machine s, c) = ((p, c'), r) ∧ ws_machine s' = p ∧
    captures s' = match r with Ok _ => <[handle := c']> (captures s) | _ => delete handle (captures s) end ∧
    f = match r with Ok (Some frame) => Some (source_frame frame) | _ => None end.
Proof.
  unfold poll_capture. destruct (try_next_frame intent (ws_machine s, c)) as [[p c'] [[frame|]|e|]]; intros [= <- <-];
    eexists p, c', _; (split; [done|]); by cbn.
Qed.

(** The capture a frame is asked of: the one there is, or a new one. *)
Definition asked {G P} `{CaptureApi P} (s : WinWindowSource G P) (handle : Z) (p : P) (c : WindowCapture) : Prop :=
  match captures s !! handle with
  | Some c0 => c = c0 ∧ p = ws_machine s
  | None => WindowCapture_new handle (ws_machine s) = (p, Ok c)
  end.

Lemma win_next_frame_spec {G P} `{CaptureApi P} (s s' : WinWindowSource G P) handle intent f :
  win_next_frame s handle intent = Ok (s', f) →
  (∃ p c p' c' r, asked s handle p c ∧ try_next_frame intent (p, c) = ((p', c'), r) ∧
     captures s' = match r with Ok _ => <[handle := c']> (captures s) | _ => delete handle (captures s) end ∧
     f = match r with Ok (Some frame) => Some (source_frame frame) | _ => None end) ∨
  (captures s !! handle = None ∧ (∃ p e, WindowCapture_new handle (ws_machine s) = (p, Err e)) ∧ captures s' = captures s ∧ f = None).
Proof.
  unfold win_next_frame, asked. destruct (captures s !! handle) as [c|] eqn:Ec.
  - intros (p' & c' & r & E1 & E2 & E3 & E4)%poll_capture_spec. left. exists (ws_machine s), c, p', c', r. by split_and!.
  - destruct (WindowCapture_new handle (ws_machine s)) as [p [c|e|]] eqn:En; [| |done].
    + intros (p' & c' & r & E1 & E2 & E3 & E4)%poll_capture_spec. left. exists p, c, p', c', r. split_and!; try done.
      rewrite E3. cbn. destruct r; [by rewrite insert_insert_eq|by rewrite delete_insert_eq|by rewrite delete_insert_eq].
    + intros [= <- <-]. right. split_and!; try done. by exists p, e.
Qed.

(** captures follow the windows. A tick keeps exactly the captures of windows
    that are still reported; a frame asked of one window touches no other's
    capture; a capture that failed is dropped and the next frame asked for makes
    a new one, while one whose pool was only empty is kept as it was. *)
Theorem captures_follow_windows {G P} `{WinGuestLaws G, !Passes G, CaptureLaws P} (s : WinWindowSource G P) :
  typed s →
  (∃ s1 ws, win_live_windows s = Ok (s1, ws) ∧
     ∀ h c, captures s1 !! h = Some c ↔ captures s !! h = Some c ∧ h ∈ map sw_handle ws) ∧
  (∀ handle intent, ∃ s2 f, win_next_frame s handle intent = Ok (s2, f) ∧
     (∀ h, h ≠ handle → captures s2 !! h = captures s !! h) ∧
     (∀ c p' c' e, captures s !! handle = Some c → try_next_frame intent (ws_machine s, c) = ((p', c'), Err e) →
        f = None ∧ captures s2 !! handle = None) ∧
     (∀ c p', captures s !! handle = Some c → pool_empty (ws_machine s) c p' c → f = None ∧ captures s2 !! handle = Some c)).
Proof.
  intros Hs. split.
  - exists (live_of s).1, (live_of s).2. split; [rewrite win_live_windows_runs; by destruct (live_of s)|]. intros h c.
    cbn [live_of fst snd captures]. unfold kept_captures. rewrite map_lookup_filter_Some, elem_of_list_to_set.
    destruct Hs as [Hc _]. destruct (named_windows_ok (elapse (ws_guest s)) (ws_cache s) (shared (elapse (ws_guest s))) Hc) as [_ Hws].
    replace (map sw_handle _) with (map wi_hwnd (shared (elapse (ws_guest s)))); [done|].
    clear -Hws. induction Hws as [|info w live ws (i & -> & _) _ IH]; [done|]. cbn. by rewrite IH.
  - intros handle intent. destruct (win_next_frame_ends s handle intent Hs) as ([s2 f] & E & _). exists s2, f. split; [done|].
    destruct (win_next_frame_spec _ _ _ _ _ E) as [(p & c & p' & c' & r & Ha & Hr & Hcap & Hf)|(Hn & _ & Hcap & Hf)].
    2: { rewrite Hcap. split_and!; [done|intros c p' c' e Hc; by rewrite Hn in Hc..|intros c p' Hc; by rewrite Hn in Hc]. }
    unfold asked in Ha. split_and!.
    + intros h Hne. rewrite Hcap. destruct r; [by rewrite lookup_insert_ne|by rewrite lookup_delete_ne..].
    + intros c0 q' c0' e Hc Ht. rewrite Hc in Ha. destruct Ha as [-> ->]. rewrite Ht in Hr. injection Hr as <- <- <-.
      by rewrite Hcap, lookup_delete_eq.
    + intros c0 q' Hc (hr & Ht & Hhr & _). rewrite Hc in Ha. destruct Ha as [-> ->].
      assert (Hempty : try_next_frame intent (ws_machine s, c0) = ((q', c0), Ok None)).
      { unfold try_next_frame, mbind, ffi_bind, self, acquire. cbn. rewrite Ht.
        replace (hr_is_ok hr || (hr =? E_POINTER)) with true; [done|]. destruct Hhr as [-> | ->]; [done|].
        by rewrite orb_true_r. }
      rewrite Hempty in Hr. injection Hr as <- <- <-. by rewrite Hcap, lookup_insert_eq.
Qed.


(** ** A small guest on a small machine *)

#[local] Existing Instance Demo.demo_encoder.

Module SmallPlatform.
#[global] Instance small_passes : Passes SmallGuest.state := {
  elapse g := match SmallGuest.st_scenes g with
              | _ :: (_ :: _) as later => SmallGuest.mkState later (SmallGuest.st_open g)
              | _ => g
              end
}.

Abbreviation source := (TypedSource SmallGuest.state SmallMachine.state).

Definition dawn : SmallGuest.state := SmallGuest.mkState [[]; SmallGuest.morning; SmallGuest.noon] ∅.
Definition asleep : WinWindowSource SmallGuest.state SmallMachine.state := WinWindowSource_new dawn ∅ (SmallMachine.mkState [40; 40; 0; 40] {[40 := SmallMachine.dots]}).
Definition start : source := asleep ↾ typed_new_empty _ _.

Lemma short : titles_short SmallGuest.state.
Proof.
  intros g h. cbn. unfold SmallGuest.ask. destruct (SmallGuest.find g h) as [w|]; [|done].
  pose proof (SmallGuest.units_len (SmallGuest.w_title w)). lia.
Qed.

(** A session of one tick. *)
Definition first_tick : outcome IoError (Driver * list OutboundChunk) :=
  session Demo.setup (Driver_new start tt ([] : list SinkCall)) [Demo.tick].
Definition after : Driver * list OutboundChunk :=
  match first_tick with Ok x => x | _ => (Driver_new start tt ([] : list SinkCall), []) end.

Lemma first_tick_runs : first_tick = Ok after.
Proof.
  unfold after. assert (match first_tick with Ok _ => true | _ => false end = true) as Hok by (vm_compute; reflexivity).
  by destruct first_tick.
Qed.

(** The windows of the morning, after the tick that saw them. *)
Definition seen : WinWindowSource SmallGuest.state SmallMachine.state :=
  match win_live_windows asleep with Ok (s, _) => s | _ => asleep end.

Lemma seen_typed : typed seen.
Proof.
  unfold seen. rewrite win_live_windows_runs. pose proof (live_of_typed asleep (typed_new_empty _ _)) as Ht. by destruct (live_of asleep).
Qed.
End SmallPlatform.


Lemma captures_follow_windows_witness :
  let s := SmallPlatform.seen in
  captures s = ∅ ∧ ∃ s2 f, win_next_frame s 10 CpuBgra = Ok (s2, f) ∧ ∀ h, h ≠ 10 → captures s2 !! h = captures s !! h.
Proof.
  intros s. split; [vm_compute; reflexivity|].
  destruct (captures_follow_windows s SmallPlatform.seen_typed) as [_ H]. destruct (H 10 CpuBgra) as (s2 & f & H1 & H2 & _).
  exists s2, f. split; [exact H1|exact H2].
Defined.


(** A title is passed on whole, and one of more than 65535 bytes has no encoding:
    the tick that would announce its window is an error, which ends the session. *)
Module LongTitle.
#[local] Instance one_window : WindowSource bool := {|
  live_windows b := (b, [mkSourceWindow 1 1 [] (replicate (Z.to_nat 65536) 97) 0 0 10 10 96 false false true true false]);
  next_frame b _ _ := (b, None)
|}.

Definition tick_on_long_title : outcome IoError (Driver * list OutboundChunk * bool) :=
  happen Demo.setup (Driver_new true tt ([] : list SinkCall)) Demo.tick.
End LongTitle.

Lemma long_title_ends_session : LongTitle.tick_on_long_title = Err Serve.InvalidData.
Proof. vm_compute. reflexivity. Qed.
