(* ===== verification/WinEncode.v ===== *)
(** * Encoding on Windows

    [crates/oxagent/src/win/encode.rs]: one Media Foundation H.264 transform a
    window, fed with NV12 made on the CPU or by the D3D11 video processor, and
    the [FrameEncoder] the driver sees. Transforms, media types, samples and
    buffers are identities of a machine behind a class of calls; timings and log
    lines are left out, the queue they are matched with and the counters that
    bound them are kept. *)

From S2P Require Import Prelude Wire MsgWindow Serve H264 Yuv WinCall WinCapture.

(** ** The constants *)

Definition TARGET_BITRATE_BPS : Z := 6000000.
Definition GOP_SIZE_FRAMES : Z := 1000000.
Definition MAX_KEYFRAME_SPACING_FRAMES : Z := GOP_SIZE_FRAMES.
Definition MAX_REF_FRAMES : Z := 1.
Definition DIAGNOSTIC_FRAME_LIMIT : Z := 100.

Inductive EncoderKind : Type := Hardware | Software.

(** The attributes, properties and messages the code names. *)
Inductive Guid : Type := MFMediaType_Video | MFVideoFormat_H264 | MFVideoFormat_NV12 | OtherGuid (n : Z).
Inductive Attribute_ : Type :=
| MF_MT_MAJOR_TYPE | MF_MT_SUBTYPE | MF_MT_FRAME_SIZE | MF_MT_FRAME_RATE | MF_MT_INTERLACE_MODE | MF_MT_AVG_BITRATE
| MF_MT_MPEG2_PROFILE | MF_MT_MAX_KEYFRAME_SPACING | MF_TRANSFORM_ASYNC | MF_TRANSFORM_ASYNC_UNLOCK.
Inductive Property : Type :=
| AVLowLatencyMode | AVEncCommonRateControlMode | AVEncCommonMeanBitRate | AVEncMPVDefaultBPictureCount | AVEncMPVGOPSize
| AVEncMPVProfile | AVEncVideoTemporalLayerCount | AVEncVideoMaxNumRefFrame | AVEncVideoForceKeyFrame.
Inductive Variant : Type := VBool (b : bool) | VU32 (n : Z).
Inductive MftMessage : Type :=
| MFT_MESSAGE_NOTIFY_BEGIN_STREAMING | MFT_MESSAGE_NOTIFY_START_OF_STREAM | MFT_MESSAGE_SET_D3D_MANAGER.

Definition MFT_ENUM_FLAG_SYNCMFT : Z := 0x1.
Definition MFT_ENUM_FLAG_HARDWARE : Z := 0x4.
Definition MFT_ENUM_FLAG_SORTANDFILTER : Z := 0x40.
Definition MFT_OUTPUT_STREAM_PROVIDES_SAMPLES : Z := 0x100.
Definition MFVideoInterlace_Progressive : Z := 2.
Definition eAVEncH264VProfile_ConstrainedBase : Z := 256.
Definition eAVEncCommonRateControlMode_LowDelayVBR : Z := 4.
Definition DXGI_FORMAT_B8G8R8A8_UNORM : Z := 87.
Definition DXGI_FORMAT_NV12 : Z := 103.
Definition D3D11_BIND_RENDER_TARGET : Z := 0x20.
Definition D3D11_VIDEO_PROCESSOR_FORMAT_SUPPORT_INPUT : Z := 0x1.
Definition D3D11_VIDEO_PROCESSOR_FORMAT_SUPPORT_OUTPUT : Z := 0x2.
Definition DXGI_COLOR_SPACE_RGB_FULL_G22_NONE_P709 : Z := 0.
Definition DXGI_COLOR_SPACE_YCBCR_FULL_G22_LEFT_P601 : Z := 7.

(** The sizes and rates of [D3D11_VIDEO_PROCESSOR_CONTENT_DESC]; rates are over
    one. *)
Record ContentDesc : Type := mkContentDesc {
  InputFrameRate : Z; InputWidth : Z; InputHeight : Z; OutputFrameRate : Z; OutputWidth : Z; OutputHeight : Z
}.

Class MediaApi (M : Type) : Type := {
  MFStartup : com M unit;
  (** The array of activation objects, or a null one. *)
  MFTEnumEx : Z → com M (option (list (option Z)));
  ActivateObject : Z → com M Z;
  GetAttributes : Z → com M Z;
  GetUINT32 : Z → Attribute_ → com M Z;
  SetUINT32 : Z → Attribute_ → Z → com M unit;
  SetUINT64 : Z → Attribute_ → Z → com M unit;
  SetGUID : Z → Attribute_ → Guid → com M unit;
  GetGUID : Z → Attribute_ → com M Guid;
  MFCreateMediaType : com M Z;
  SetOutputType : Z → Z → com M unit;
  SetInputType : Z → Z → com M unit;
  (** The transform's input types by index, and how many it has. *)
  GetInputAvailableType : Z → Z → com M Z;
  input_type_count : M → Z → nat;
  cast_codec_api : Z → com M Z;
  SetValue : Z → Property → Variant → com M unit;
  GetOutputStreamInfo : Z → com M (Z * Z);
  ProcessMessage : Z → MftMessage → Z → com M unit;
  ProcessInput : Z → Z → com M unit;
  (** The caller's sample in, the sample that came out if any. *)
  ProcessOutput : Z → option Z → com M (option Z);
  MFCreateMemoryBuffer : Z → com M Z;
  (** A successful lock shows the bytes up to the current length. *)
  Lock : Z → com M (list Z);
  write_locked : Z → list Z → M → M;
  Unlock : Z → M → M;
  SetCurrentLength : Z → Z → com M unit;
  MFCreateSample : com M Z;
  AddBuffer : Z → Z → com M unit;
  SetSampleTime : Z → Z → com M unit;
  SetSampleDuration : Z → Z → com M unit;
  ConvertToContiguousBuffer : Z → com M Z;
  (** The D3D11 side. *)
  MFCreateDXGIDeviceManager : com M (Z * option Z);
  ResetDevice : Z → Z → Z → com M unit;
  cast_video_device : Z → com M Z;
  cast_video_context : Z → com M Z;
  cast_video_context1 : Z → com M Z;
  CreateVideoProcessorEnumerator : Z → ContentDesc → com M Z;
  CheckVideoProcessorFormat : Z → Z → com M Z;
  cast_enumerator1 : Z → com M Z;
  CheckVideoProcessorFormatConversion : Z → Z → Z → Z → Z → com M bool;
  CreateVideoProcessor : Z → Z → com M Z;
  CreateVideoProcessorInputView : Z → Z → Z → com M (option Z);
  CreateVideoProcessorOutputView : Z → Z → Z → com M (option Z);
  CreateTexture : Z → TextureDesc → com M (option Z);
  SetStreamColorSpace1 : Z → Z → Z → M → M;
  SetOutputColorSpace1 : Z → Z → Z → M → M;
  VideoProcessorBlt : Z → Z → Z → Z → com M unit;
  MFCreateDXGISurfaceBuffer : Z → com M Z
}.

(** ** Sizes and pictures *)

(** [x + (x % 2)] on [u16]. *)
Definition pad_even {E} (x : Z) : outcome E Z := add_uint 16 x (x mod 2).

Definition pack_u64 (high low : Z) : Z := Z.lor (Z.shiftl high 32) low.

(** The body of the inner loop: one pixel, if the source has it. *)
Definition pad_pixel (src : list Z) (src_w src_h dst_w y x : nat) (out : list Z) : list Z :=
  let sy := Nat.min y (src_h - 1) in
  let sx := Nat.min x (src_w - 1) in
  let src_i := ((sy * src_w + sx) * 4)%nat in
  let dst_i := ((y * dst_w + x) * 4)%nat in
  if (src_i + 4 <=? length src)%nat then copy_to out dst_i (take 4 (drop src_i src)) else out.

Fixpoint pad_row (src : list Z) (src_w src_h dst_w y n x : nat) (out : list Z) : list Z :=
  match n with
  | O => out
  | S n => pad_row src src_w src_h dst_w y n (S x) (pad_pixel src src_w src_h dst_w y x out)
  end.

Fixpoint pad_rows (src : list Z) (src_w src_h dst_w n y : nat) (out : list Z) : list Z :=
  match n with
  | O => out
  | S n => pad_rows src src_w src_h dst_w n (S y) (pad_row src src_w src_h dst_w y dst_w 0 out)
  end.

Definition pad_bgra (src : list Z) (src_w src_h dst_w dst_h : nat) : list Z :=
  if (src_w =? dst_w)%nat && (src_h =? dst_h)%nat then src
  else pad_rows src src_w src_h dst_w dst_h 0 (replicate (dst_w * dst_h * 4) 0).

(** ** Setting a transform up *)

Section Setup.
Context {M : Type} `{MediaApi M}.

(** [first_activate]: the first entry that is there. *)
Definition first_activate (activates : option (list (option Z))) : option Z :=
  match activates with
  | Some entries => head (omap id entries)
  | None => None
  end.

Definition create_transform (kind : EncoderKind) : ffi M Z :=
  let flags := match kind with
               | Hardware => Z.lor MFT_ENUM_FLAG_HARDWARE MFT_ENUM_FLAG_SORTANDFILTER
               | Software => MFT_ENUM_FLAG_SYNCMFT
               end in
  activates ← call (MFTEnumEx flags);
  activate ← some_or E_FAIL (first_activate activates);
  call (ActivateObject activate).

(** [call.is_ok()] *)
Definition succeeds {A} (m : ffi M A) : ffi M bool := λ p,
  match m p with (p, Ok _) => (p, Ok true) | (p, Err _) => (p, Ok false) | (p, Panic) => (p, Panic) end.

Definition probe_h264_support : ffi M (option EncoderKind) :=
  started ← succeeds (call MFStartup);
  if negb started then mret None
  else
    hardware ← succeeds (create_transform Hardware);
    if (hardware : bool) then mret (Some Hardware)
    else
      software ← succeeds (create_transform Software);
      mret (if (software : bool) then Some Software else None).

Definition create_unlocked_transform (kind : EncoderKind) : ffi M Z :=
  transform ← create_transform kind;
  attrs ← call (GetAttributes transform);
  is_async ← attempt (GetUINT32 attrs MF_TRANSFORM_ASYNC);
  (if negb (from_option id 0 is_async =? 0) then ignore (SetUINT32 attrs MF_TRANSFORM_ASYNC_UNLOCK 1) else mret tt);;
  mret transform.

(** The loop over the indices. *)
Fixpoint find_nv12_from (fuel : nat) (transform index : Z) : ffi M Z :=
  match fuel with
  | O => throw E_FAIL
  | S fuel =>
    candidate ← attempt (GetInputAvailableType transform index);
    match candidate with
    | None => throw E_FAIL
    | Some candidate =>
      subtype ← attempt (GetGUID candidate MF_MT_SUBTYPE);
      match subtype with
      | Some MFVideoFormat_NV12 => mret candidate
      | _ => find_nv12_from fuel transform (index + 1)
      end
    end
  end.

(** One step more than the transform has types. *)
Definition find_nv12_input_type (transform : Z) : ffi M Z := λ m,
  find_nv12_from (S (input_type_count m transform)) transform 0 m.

Definition set_media_types (transform width height target_fps : Z) : ffi M unit :=
  output_type ← call MFCreateMediaType;
  call (SetGUID output_type MF_MT_MAJOR_TYPE MFMediaType_Video);;
  call (SetGUID output_type MF_MT_SUBTYPE MFVideoFormat_H264);;
  call (SetUINT64 output_type MF_MT_FRAME_SIZE (pack_u64 width height));;
  call (SetUINT64 output_type MF_MT_FRAME_RATE (pack_u64 (Z.max target_fps 1) 1));;
  call (SetUINT32 output_type MF_MT_INTERLACE_MODE MFVideoInterlace_Progressive);;
  call (SetUINT32 output_type MF_MT_AVG_BITRATE TARGET_BITRATE_BPS);;
  call (SetUINT32 output_type MF_MT_MPEG2_PROFILE eAVEncH264VProfile_ConstrainedBase);;
  call (SetUINT32 output_type MF_MT_MAX_KEYFRAME_SPACING MAX_KEYFRAME_SPACING_FRAMES);;
  call (SetOutputType transform output_type);;
  input_type ← find_nv12_input_type transform;
  call (SetUINT64 input_type MF_MT_FRAME_SIZE (pack_u64 width height));;
  call (SetUINT64 input_type MF_MT_FRAME_RATE (pack_u64 (Z.max target_fps 1) 1));;
  call (SetInputType transform input_type).

(** ** The D3D11 input *)

Record GpuNv12Converter : Type := mkConverter {
  cv_video_context : Z; cv_video_context1 : Z; cv_video_device : Z; cv_enumerator : Z; cv_processor : Z;
  cv_width : Z; cv_height : Z
}.

Definition supports (support flag : Z) : bool := negb (Z.land support flag =? 0).

(** [GpuNv12Converter::new] *)
Definition GpuNv12Converter_new (gpu_frame : GpuFrame) (width height target_fps : Z) : ffi M GpuNv12Converter :=
  video_device ← call (cast_video_device (gf_device gpu_frame));
  video_context ← call (cast_video_context (gf_context gpu_frame));
  video_context1 ← call (cast_video_context1 (gf_context gpu_frame));
  let fps := Z.max target_fps 1 in
  let desc := mkContentDesc fps (gf_width gpu_frame) (gf_height gpu_frame) fps width height in
  enumerator ← call (CreateVideoProcessorEnumerator video_device desc);
  input_support ← call (CheckVideoProcessorFormat enumerator DXGI_FORMAT_B8G8R8A8_UNORM);
  if negb (supports input_support D3D11_VIDEO_PROCESSOR_FORMAT_SUPPORT_INPUT) then throw E_FAIL
  else
    output_support ← call (CheckVideoProcessorFormat enumerator DXGI_FORMAT_NV12);
    if negb (supports output_support D3D11_VIDEO_PROCESSOR_FORMAT_SUPPORT_OUTPUT) then throw E_FAIL
    else
      enumerator1 ← attempt (cast_enumerator1 enumerator);
      converts ← match enumerator1 with
                 | Some enumerator1 =>
                   call (CheckVideoProcessorFormatConversion enumerator1
                           DXGI_FORMAT_B8G8R8A8_UNORM DXGI_COLOR_SPACE_RGB_FULL_G22_NONE_P709
                           DXGI_FORMAT_NV12 DXGI_COLOR_SPACE_YCBCR_FULL_G22_LEFT_P601)
                 | None => mret true
                 end;
      if negb (converts : bool) then throw E_FAIL
      else
        processor ← call (CreateVideoProcessor video_device enumerator);
        mret (mkConverter video_context video_context1 video_device enumerator processor width height).

Definition create_nv12_output_texture (device width height : Z) : ffi M Z :=
  let desc := mkTextureDesc width height 1 1 DXGI_FORMAT_NV12 0 D3D11_BIND_RENDER_TARGET 0 0 in
  texture ← call (CreateTexture device desc);
  some_or E_FAIL texture.

Definition build_sample (cv : GpuNv12Converter) (gpu_frame : GpuFrame) : ffi M Z :=
  if (cv_width cv <? gf_width gpu_frame) || (cv_height cv <? gf_height gpu_frame) then throw E_FAIL
  else
    input_view ← call (CreateVideoProcessorInputView (cv_video_device cv) (gf_texture gpu_frame) (cv_enumerator cv));
    input_view ← some_or E_FAIL input_view;
    output_texture ← create_nv12_output_texture (gf_device gpu_frame) (cv_width cv) (cv_height cv);
    output_view ← call (CreateVideoProcessorOutputView (cv_video_device cv) output_texture (cv_enumerator cv));
    output_view ← some_or E_FAIL output_view;
    effect (SetStreamColorSpace1 (cv_video_context1 cv) (cv_processor cv) DXGI_COLOR_SPACE_RGB_FULL_G22_NONE_P709);;
    effect (SetOutputColorSpace1 (cv_video_context1 cv) (cv_processor cv) DXGI_COLOR_SPACE_YCBCR_FULL_G22_LEFT_P601);;
    call (VideoProcessorBlt (cv_video_context cv) (cv_processor cv) output_view input_view);;
    buffer ← call (MFCreateDXGISurfaceBuffer output_texture);
    sample ← call MFCreateSample;
    call (AddBuffer sample buffer);;
    mret sample.

Inductive InputPath : Type := Cpu | Gpu (converter : GpuNv12Converter) (device_manager : Z).

Definition setup_gpu_input (transform : Z) (frame : GpuFrame) (width height target_fps : Z) : ffi M InputPath :=
  made ← call MFCreateDXGIDeviceManager;
  let '(reset_token, device_manager) := made in
  device_manager ← some_or E_FAIL device_manager;
  call (ResetDevice device_manager (gf_device frame) reset_token);;
  call (ProcessMessage transform MFT_MESSAGE_SET_D3D_MANAGER device_manager);;
  converter ← GpuNv12Converter_new frame width height target_fps;
  mret (Gpu converter device_manager).

(** ** One window's encoder *)

(** Of a submission on its way through the transform, whether a keyframe was
    asked for. *)
Record WindowEncoder : Type := mkEncoder {
  we_handle : Z; we_frames_seen : Z; we_transform : Z; we_codec_api : option Z; we_input_path : InputPath;
  we_width : Z; we_height : Z; we_provides_output_samples : bool; we_output_buffer_size : Z; we_params : ParamSets;
  we_next_sample_time_hns : Z; we_frame_duration_hns : Z; we_pending : list bool; we_ref_frame_discrepancy_logged : bool
}.

(** The transform with its D3D11 input, if it takes one. *)
Definition try_gpu_input (transform : Z) (gpu_frame : option GpuFrame) (width height target_fps : Z) : ffi M (option InputPath) :=
  λ m,
  match gpu_frame with
  | None => (m, Ok None)
  | Some frame =>
    match (path ← setup_gpu_input transform frame width height target_fps;
           set_media_types transform width height target_fps;;
           mret path) m with
    | (m, Ok path) => (m, Ok (Some path))
    | (m, Err _) => (m, Ok None)
    | (m, Panic) => (m, Panic)
    end
  end.

(** Best effort, each of them. *)
Definition set_codec_properties (api : Z) : ffi M unit :=
  ignore (SetValue api AVLowLatencyMode (VBool true));;
  ignore (SetValue api AVEncCommonRateControlMode (VU32 eAVEncCommonRateControlMode_LowDelayVBR));;
  ignore (SetValue api AVEncCommonMeanBitRate (VU32 TARGET_BITRATE_BPS));;
  ignore (SetValue api AVEncMPVDefaultBPictureCount (VU32 0));;
  ignore (SetValue api AVEncMPVGOPSize (VU32 GOP_SIZE_FRAMES));;
  ignore (SetValue api AVEncMPVProfile (VU32 eAVEncH264VProfile_ConstrainedBase));;
  ignore (SetValue api AVEncVideoTemporalLayerCount (VU32 0));;
  ignore (SetValue api AVEncVideoMaxNumRefFrame (VU32 MAX_REF_FRAMES)).

(** [?] on what the agent computes itself. *)
Definition compute {A} (o : outcome Z A) : ffi M A := λ m, (m, o).

(** [WindowEncoder::new] *)
Definition WindowEncoder_new (handle : Z) (kind : EncoderKind) (width height target_fps : Z) (gpu_frame : option GpuFrame) :
    ffi M WindowEncoder :=
  padded_w ← compute (pad_even width);
  padded_h ← compute (pad_even height);
  let width := Z.max padded_w 2 in
  let height := Z.max padded_h 2 in
  transform ← create_unlocked_transform kind;
  gpu_input ← try_gpu_input transform gpu_frame width height target_fps;
  transform ← match gpu_input with
              | Some _ => mret transform
              | None =>
                transform ← create_unlocked_transform kind;
                set_media_types transform width height target_fps;;
                mret transform
              end;
  codec_api ← attempt (cast_codec_api transform);
  match codec_api with Some api => set_codec_properties api | None => mret tt end;;
  output_info ← call (GetOutputStreamInfo transform);
  let '(flags, size) := output_info in
  call (ProcessMessage transform MFT_MESSAGE_NOTIFY_BEGIN_STREAMING 0);;
  call (ProcessMessage transform MFT_MESSAGE_NOTIFY_START_OF_STREAM 0);;
  mret (mkEncoder handle 0 transform codec_api (from_option id Cpu gpu_input) width height
                  (supports flags MFT_OUTPUT_STREAM_PROVIDES_SAMPLES) size ParamSets_default
                  0 (10000000 / Z.max target_fps 1) [] false).

(** [WindowEncoder::matches] *)
Definition matches {E} (enc : WindowEncoder) (frame : SourceFrame) : outcome E bool :=
  w ← pad_even (sf_width frame);
  if negb (w =? we_width enc) then mret false
  else h ← pad_even (sf_height frame); mret (h =? we_height enc).

Definition uses_cpu_input (enc : WindowEncoder) : bool := match we_input_path enc with Cpu => true | Gpu _ _ => false end.

(** An [i64] of hundreds of nanoseconds, which lasts for twenty-nine thousand
    years: it is not given a width. *)
Definition advance_clock (enc : WindowEncoder) : WindowEncoder :=
  mkEncoder (we_handle enc) (we_frames_seen enc) (we_transform enc) (we_codec_api enc) (we_input_path enc) (we_width enc)
            (we_height enc) (we_provides_output_samples enc) (we_output_buffer_size enc) (we_params enc)
            (we_next_sample_time_hns enc + we_frame_duration_hns enc) (we_frame_duration_hns enc) (we_pending enc)
            (we_ref_frame_discrepancy_logged enc).
Definition set_pending (pending : list bool) (enc : WindowEncoder) : WindowEncoder :=
  mkEncoder (we_handle enc) (we_frames_seen enc) (we_transform enc) (we_codec_api enc) (we_input_path enc) (we_width enc)
            (we_height enc) (we_provides_output_samples enc) (we_output_buffer_size enc) (we_params enc)
            (we_next_sample_time_hns enc) (we_frame_duration_hns enc) pending (we_ref_frame_discrepancy_logged enc).
Definition set_params (params : ParamSets) (enc : WindowEncoder) : WindowEncoder :=
  mkEncoder (we_handle enc) (we_frames_seen enc) (we_transform enc) (we_codec_api enc) (we_input_path enc) (we_width enc)
            (we_height enc) (we_provides_output_samples enc) (we_output_buffer_size enc) params
            (we_next_sample_time_hns enc) (we_frame_duration_hns enc) (we_pending enc) (we_ref_frame_discrepancy_logged enc).
(** The counters of the log. *)
Definition count_output (enc : WindowEncoder) : WindowEncoder :=
  mkEncoder (we_handle enc) (if we_frames_seen enc <? DIAGNOSTIC_FRAME_LIMIT then we_frames_seen enc + 1 else we_frames_seen enc)
            (we_transform enc) (we_codec_api enc) (we_input_path enc) (we_width enc) (we_height enc)
            (we_provides_output_samples enc) (we_output_buffer_size enc) (we_params enc) (we_next_sample_time_hns enc)
            (we_frame_duration_hns enc) (we_pending enc) (we_ref_frame_discrepancy_logged enc).
Definition note_ref_frames (raw : list Z) (enc : WindowEncoder) : WindowEncoder :=
  mkEncoder (we_handle enc) (we_frames_seen enc) (we_transform enc) (we_codec_api enc) (we_input_path enc) (we_width enc)
            (we_height enc) (we_provides_output_samples enc) (we_output_buffer_size enc) (we_params enc)
            (we_next_sample_time_hns enc) (we_frame_duration_hns enc) (we_pending enc)
            (we_ref_frame_discrepancy_logged enc || bool_decide (is_Some (first_sps_ref_frame_info raw))).

(** A method of an encoder. *)
Definition encoder (A : Type) : Type := ffi (M * WindowEncoder) A.

(** A call that leaves the encoder as it is. *)
Definition on_machine {A} (m : ffi M A) : encoder A := λ '(p, c), let '(p, r) := m p in ((p, c), r).

(** The picture as the transform takes it. *)
Definition nv12_of (enc : WindowEncoder) (frame : SourceFrame) : outcome Z (list Z) :=
  let width := Z.to_nat (we_width enc) in
  let height := Z.to_nat (we_height enc) in
  let padded := pad_bgra (sf_data frame) (Z.to_nat (sf_width frame)) (Z.to_nat (sf_height frame)) width height in
  match bgra_to_nv12 padded width height with Ok nv12 => Ok nv12 | _ => Panic end.

(** A memory buffer filled with [nv12]; it is unlocked on the way out. *)
Definition fill_buffer (nv12 : list Z) : ffi M Z :=
  buffer ← call (MFCreateMemoryBuffer (len nv12));
  _ ← call (Lock buffer);
  effect (write_locked buffer nv12);;
  effect (Unlock buffer);;
  call (SetCurrentLength buffer (len nv12));;
  mret buffer.

Definition stamp (sample : Z) (enc : WindowEncoder) : ffi M unit :=
  call (SetSampleTime sample (we_next_sample_time_hns enc));;
  call (SetSampleDuration sample (we_frame_duration_hns enc)).

Definition build_input_sample (frame : SourceFrame) : encoder Z :=
  enc ← self id;
  match we_input_path enc with
  | Gpu converter _ =>
    match gpu_frame frame with
    | None => λ s, (s, Err E_FAIL)
    | Some gf =>
      sample ← on_machine (build_sample converter gf);
      on_machine (stamp sample enc);;
      update advance_clock;;
      mret sample
    end
  | Cpu =>
    nv12 ← (λ s, (s, nv12_of enc frame));
    buffer ← on_machine (fill_buffer nv12);
    sample ← api MFCreateSample;
    api (AddBuffer sample buffer);;
    on_machine (stamp sample enc);;
    update advance_clock;;
    mret sample
  end.

(** [let Ok(x) = m else { return }] *)
Definition or_return {A} (m : encoder A) (k : A → encoder unit) : encoder unit := λ s,
  match m s with (s, Ok a) => k a s | (s, Err _) => (s, Ok tt) | (s, Panic) => (s, Panic) end.

(** [WindowEncoder::submit] *)
Definition submit_frame (frame : SourceFrame) (force_keyframe : bool) : encoder unit :=
  enc ← self id;
  if uses_cpu_input enc && (len (sf_data frame) =? 0) then mret tt
  else
    match we_codec_api enc with
    | Some api => if force_keyframe then on_machine (ignore (SetValue api AVEncVideoForceKeyFrame (VBool true))) else mret tt
    | None => mret tt
    end;;
    or_return (build_input_sample frame) (λ sample,
      or_return (api (ProcessInput (we_transform enc) sample)) (λ _,
        update (λ enc, set_pending (we_pending enc ++ [force_keyframe]) enc))).

(** The sample the transform is to fill, if it wants one. *)
Definition output_sample (enc : WindowEncoder) : ffi M (option Z) :=
  if we_provides_output_samples enc then mret None
  else
    buffer ← call (MFCreateMemoryBuffer (we_output_buffer_size enc));
    s ← call MFCreateSample;
    call (AddBuffer s buffer);;
    mret (Some s).

Definition read_buffer (buffer : Z) : ffi M (list Z) :=
  data ← call (Lock buffer);
  effect (Unlock buffer);;
  mret data.

(** The bytes the transform has ready; any failure on the way is [None]. *)
Definition drain (enc : WindowEncoder) : ffi M (option (list Z)) :=
  sample ← output_sample enc;
  produced ← call (ProcessOutput (we_transform enc) sample);
  match produced with
  | None => mret None
  | Some sample =>
    buffer ← call (ConvertToContiguousBuffer sample);
    raw ← read_buffer buffer;
    mret (Some raw)
  end.

(** What is done with a produced access unit. *)
Definition on_output (raw : list Z) (enc : WindowEncoder) : WindowEncoder * option EncodedFrame :=
  let enc := count_output (set_pending (tail (we_pending enc)) enc) in
  let '(data, is_idr, params) := reframe raw (we_params enc) in
  let enc := set_params params enc in
  match data with
  | [] => (enc, None)
  | _ => (note_ref_frames raw enc,
          Some (mkEncodedFrame data is_idr (Z.min (we_width enc) 65535) (Z.min (we_height enc) 65535)))
  end.

(** [WindowEncoder::poll] *)
Definition poll_frame : encoder (option EncodedFrame) := λ '(m, enc),
  match drain enc m with
  | (m, Ok (Some raw)) => let '(enc, x) := on_output raw enc in ((m, enc), Ok x)
  | (m, Ok None) => ((m, enc), Ok None)
  | (m, Err _) => ((m, enc), Ok None)
  | (m, Panic) => ((m, enc), Panic)
  end.
End Setup.

(** ** The encoder of a session *)

(** The machine beside the code's four fields. *)
Record WinFrameEncoder (M : Type) : Type := mkFrameEncoder {
  fe_machine : M; fe_kind : EncoderKind; fe_target_fps : Z; encoders : gmap Z WindowEncoder; failed : gmap Z (Z * Z)
}.
Arguments mkFrameEncoder {M}.
Arguments fe_machine {M}.
Arguments fe_kind {M}.
Arguments fe_target_fps {M}.
Arguments encoders {M}.
Arguments failed {M}.

Section FrameEncoder_.
Context {M : Type} `{MediaApi M}.
Implicit Types e : WinFrameEncoder M.

(** [WinFrameEncoder::new], on a machine. *)
Definition WinFrameEncoder_new (m : M) (kind : EncoderKind) (target_fps : Z) : WinFrameEncoder M :=
  mkFrameEncoder m kind target_fps ∅ ∅.

Definition with_maps e (m : M) (encs : gmap Z WindowEncoder) (fails : gmap Z (Z * Z)) : WinFrameEncoder M :=
  mkFrameEncoder m (fe_kind e) (fe_target_fps e) encs fails.

(** A method of the window's encoder, if it has one. *)
Definition on_encoder {A} e (handle : Z) (other : A) (f : encoder (M:=M) A) : outcome unit (WinFrameEncoder M * A) :=
  match encoders e !! handle with
  | None => Ok (e, other)
  | Some enc =>
    match f (fe_machine e, enc) with
    | ((m, enc), Ok a) => Ok (with_maps e m (<[handle := enc]> (encoders e)) (failed e), a)
    | ((m, enc), Err _) => Ok (with_maps e m (<[handle := enc]> (encoders e)) (failed e), other)
    | (_, Panic) => Panic
    end
  end.

Definition rebuild_needed e (handle : Z) (frame : SourceFrame) : outcome unit bool :=
  match encoders e !! handle with
  | Some enc => m ← matches enc frame; mret (negb m)
  | None => mret true
  end.

(** The new encoder in place of the old one, and whether the frame is submitted
    to it. *)
Definition rebuild e (handle : Z) (frame : SourceFrame) : outcome unit (WinFrameEncoder M * bool) :=
  match WindowEncoder_new handle (fe_kind e) (sf_width frame) (sf_height frame) (fe_target_fps e) (gpu_frame frame) (fe_machine e) with
  | (m, Ok enc) =>
    Ok (with_maps e m (<[handle := enc]> (encoders e)) (delete handle (failed e)),
        negb (uses_cpu_input enc && (len (sf_data frame) =? 0)))
  | (m, Err _) =>
    Ok (with_maps e m (delete handle (encoders e)) (<[handle := (sf_width frame, sf_height frame)]> (failed e)), false)
  | (_, Panic) => Panic
  end.

Definition win_submit e (handle : Z) (frame : SourceFrame) (force_keyframe : bool) : outcome unit (WinFrameEncoder M) :=
  if bool_decide (failed e !! handle = Some (sf_width frame, sf_height frame)) then Ok e
  else
    needs_rebuild ← rebuild_needed e handle frame;
    x ← (if (needs_rebuild : bool) then rebuild e handle frame else Ok (e, true));
    let '(e, goes_on) := x in
    if negb goes_on then Ok e
    else
      y ← on_encoder e handle tt (submit_frame frame (force_keyframe || needs_rebuild));
      Ok y.1.

Definition win_poll e (handle : Z) : outcome unit (WinFrameEncoder M * option EncodedFrame) :=
  on_encoder e handle None poll_frame.

Definition win_forget e (handle : Z) : WinFrameEncoder M :=
  with_maps e (fe_machine e) (delete handle (encoders e)) (delete handle (failed e)).

Definition win_wants_cpu_frame e (handle width height : Z) : outcome unit bool :=
  match encoders e !! handle with
  | None => mret false
  | Some enc =>
    if negb (uses_cpu_input enc) then mret false
    else
      w ← pad_even width;
      if negb (we_width enc =? w) then mret false
      else h ← pad_even height; mret (we_height enc =? h)
  end.

Definition win_failed e (handle : Z) : bool := bool_decide (is_Some (failed e !! handle)).
End FrameEncoder_.
