(* ===== verification/WinEncodeFacts.v ===== *)
(** * What the Windows encoder does

    Theorems on [WinEncode]: what the transform is fed, which sizes are coded,
    what a refused transform means for a window, and how the driver goes on
    without one. *)

From S2P Require Import Prelude Cursor Wire MsgType MsgControl MsgInput MsgWindow Envelope Reassembly ProtoMessage Transport.
From S2P Require Import Model Registry Pacing Session Channel Serve ServeSession H264 Yuv WinCall WinCapture WinEncode.

(** ** Padding *)

(** The four bytes of a pixel. *)
Definition pixel (l : list Z) (w x y : nat) : list Z := take 4 (drop ((y * w + x) * 4) l).

Lemma pixel_len l w h x y : (length l = w * h * 4 → x < w → y < h → length (pixel l w x y) = 4)%nat.
Proof. intros Hl Hx Hy. unfold pixel. rewrite length_take, length_drop. nia. Qed.

(** A flat list of equal chunks, read at one of them. *)
Lemma concat_chunk {A} (chunks : list (list A)) k i c :
  Forall (λ c, length c = k) chunks → chunks !! i = Some c → take k (drop (i * k) (concat chunks)) = c.
Proof.
  intros Hk. revert i. induction Hk as [|c0 chunks Hc _ IH]; intros i; [done|]. cbn [concat]. destruct i as [|i]; cbn [lookup list_lookup].
  - intros [= ->]. rewrite Nat.mul_0_l, drop_0, take_app_le by lia. by rewrite take_ge by lia.
  - intros Hi. rewrite Nat.mul_succ_l, Nat.add_comm, <- drop_drop, drop_app_length' by done. by apply IH.
Qed.

Section Pad.
Context (src : list Z) (sw sh dw dh : nat).
Context (Hsrc : (length src = sw * sh * 4)%nat) (Hsw : (0 < sw)%nat) (Hsh : (0 < sh)%nat).

(** The source's pixel that ends up at [x], [y]. *)
Definition nearest (y x : nat) : list Z := pixel src sw (Nat.min x (sw - 1)) (Nat.min y (sh - 1)).

Lemma nearest_len y x : length (nearest y x) = 4%nat.
Proof. apply (pixel_len _ _ sh); [done|lia..]. Qed.

Lemma copy_to_front (front rest chunk : list Z) :
  (length chunk ≤ length rest)%nat → copy_to (front ++ rest) (length front) chunk = (front ++ chunk) ++ drop (length chunk) rest.
Proof.
  intros Hc. unfold copy_to. rewrite take_app_le, take_ge by lia. rewrite <- drop_drop, drop_app_length' by done.
  by rewrite <- app_assoc.
Qed.

Lemma pad_pixel_front y x (front rest : list Z) :
  (length front = (y * dw + x) * 4 → 4 ≤ length rest →
   pad_pixel src sw sh dw y x (front ++ rest) = (front ++ nearest y x) ++ drop 4 rest)%nat.
Proof.
  intros Hf Hr. unfold pad_pixel. destruct (Nat.leb_spec ((Nat.min y (sh - 1) * sw + Nat.min x (sw - 1)) * 4 + 4) (length src)); [|nia].
  rewrite <- Hf. rewrite copy_to_front; fold (nearest y x); fold (pixel src sw (Nat.min x (sw - 1)) (Nat.min y (sh - 1)));
    fold (nearest y x); by rewrite nearest_len.
Qed.

Lemma pad_row_front n y x (front rest : list Z) :
  (length front = (y * dw + x) * 4 → n * 4 ≤ length rest →
   pad_row src sw sh dw y n x (front ++ rest) = (front ++ concat (map (nearest y) (seq x n))) ++ drop (n * 4) rest)%nat.
Proof.
  revert x front rest. induction n as [|n IH]; intros x front rest Hf Hr; cbn [pad_row seq map concat].
  - by rewrite app_nil_r.
  - rewrite pad_pixel_front by lia. rewrite IH; [|rewrite length_app, nearest_len; lia|rewrite length_drop; lia].
    rewrite <- !app_assoc, drop_drop. by replace (4 + n * 4)%nat with (S n * 4)%nat by lia.
Qed.

Definition padded_row (y : nat) : list Z := concat (map (nearest y) (seq 0 dw)).

Lemma padded_row_len y : length (padded_row y) = (dw * 4)%nat.
Proof.
  assert (∀ n x, length (concat (map (nearest y) (seq x n))) = (n * 4)%nat) as Hlen; [|apply Hlen].
  induction n as [|n IH]; intros x; [done|]. cbn [seq map concat]. rewrite length_app, nearest_len, IH. lia.
Qed.

Lemma pad_rows_front n y (front rest : list Z) :
  (length front = y * dw * 4 → length rest = n * dw * 4 →
   pad_rows src sw sh dw n y (front ++ rest) = front ++ concat (map padded_row (seq y n)))%nat.
Proof.
  revert y front rest. induction n as [|n IH]; intros y front rest Hf Hr; cbn [pad_rows seq map concat].
  - destruct rest; [done|]. cbn in Hr. lia.
  - rewrite pad_row_front by lia. fold (padded_row y). rewrite IH; [by rewrite <- app_assoc| |].
    + rewrite length_app, padded_row_len. lia.
    + rewrite length_drop. lia.
Qed.

Lemma pad_rows_all : pad_rows src sw sh dw dh 0 (replicate (dw * dh * 4) 0) = concat (map padded_row (seq 0 dh)).
Proof. rewrite <- (app_nil_l (replicate _ _)). apply pad_rows_front; [done|]. rewrite length_replicate. lia. Qed.
End Pad.

(** The padded picture repeats the source's last column and row. *)
Lemma pad_bgra_pixels src sw sh dw dh :
  (length src = sw * sh * 4 → 0 < sw → 0 < sh →
   length (pad_bgra src sw sh dw dh) = dw * dh * 4 ∧
   ∀ x y, x < dw → y < dh → pixel (pad_bgra src sw sh dw dh) dw x y = nearest src sw sh y x)%nat.
Proof.
  intros Hsrc Hsw Hsh. unfold pad_bgra. destruct ((sw =? dw) && (sh =? dh))%nat eqn:E.
  - apply andb_true_iff in E as [->%Nat.eqb_eq ->%Nat.eqb_eq]. split; [done|]. intros x y Hx Hy.
    unfold nearest. by rewrite !Nat.min_l by lia.
  - rewrite pad_rows_all by done.
    assert (Hrows : Forall (λ r, length r = (dw * 4)%nat) (map (padded_row src sw sh dw) (seq 0 dh))).
    { apply Forall_map, Forall_true. intros y. by apply padded_row_len. }
    split.
    + pose proof (concat_len (map (padded_row src sw sh dw) (seq 0 dh)) (4 * Z.of_nat dw)) as Hc.
      unfold len in Hc. rewrite length_map, length_seq in Hc. specialize (Hc ltac:(eapply Forall_impl; [exact Hrows|]; cbn; lia)). lia.
    + intros x y Hx Hy. assert (Hrow : take (dw * 4) (drop (y * (dw * 4)) (concat (map (padded_row src sw sh dw) (seq 0 dh)))) = padded_row src sw sh dw y).
      { apply concat_chunk; [done|]. change (@map) with (@fmap list list_fmap). by rewrite list_lookup_fmap, lookup_seq_lt. }
      assert (Hpix : take 4 (drop (x * 4) (padded_row src sw sh dw y)) = nearest src sw sh y x).
      { apply concat_chunk.
        - apply Forall_map, Forall_true. intros x'. by apply nearest_len.
        - change (@map) with (@fmap list list_fmap). by rewrite list_lookup_fmap, lookup_seq_lt. }
      rewrite <- Hpix, <- Hrow. unfold pixel. rewrite skipn_firstn_comm, drop_drop, take_take.
      replace (4 `min` (dw * 4 - x * 4))%nat with 4%nat by lia. do 2 f_equal. lia.
Qed.



(** ** Setting up *)

Section Setup.
Context {M : Type} `{MediaApi M}.

Lemma quiet_create_transform kind : quiet (create_transform kind).
Proof. unfold create_transform. quiet. Qed.
#[local] Hint Resolve quiet_create_transform : quiet.

Lemma quiet_create_unlocked kind : quiet (create_unlocked_transform kind).
Proof. unfold create_unlocked_transform. quiet. Qed.

Lemma quiet_find_nv12 fuel t i : quiet (find_nv12_from fuel t i).
Proof. revert i. induction fuel as [|fuel IH]; intros i; cbn [find_nv12_from]; quiet. all: apply IH. Qed.

Lemma quiet_find t : quiet (find_nv12_input_type t).
Proof. intros m. apply quiet_find_nv12. Qed.
#[local] Hint Resolve quiet_create_unlocked quiet_find : quiet.

Lemma quiet_set_media_types t w h fps : quiet (set_media_types t w h fps).
Proof. unfold set_media_types. quiet. Qed.

Lemma quiet_converter_new gf w h fps : quiet (GpuNv12Converter_new gf w h fps).
Proof. unfold GpuNv12Converter_new. quiet. Qed.
#[local] Hint Resolve quiet_set_media_types quiet_converter_new : quiet.

Lemma quiet_setup_gpu t gf w h fps : quiet (setup_gpu_input t gf w h fps).
Proof. unfold setup_gpu_input. quiet. Qed.
#[local] Hint Resolve quiet_setup_gpu : quiet.

Lemma quiet_try_gpu t gf w h fps : quiet (try_gpu_input t gf w h fps).
Proof.
  intros m. unfold try_gpu_input. destruct gf as [gf|]; [|done]. set (run := setup_gpu_input t gf w h fps ≫= _).
  assert (quiet run) as Hq by (unfold run; quiet). specialize (Hq m). by destruct (run m) as [m' [path|e|]].
Qed.

Lemma quiet_codec_properties api : quiet (set_codec_properties api).
Proof. unfold set_codec_properties. quiet. Qed.

Lemma quiet_output_texture d w h : quiet (create_nv12_output_texture d w h).
Proof. unfold create_nv12_output_texture. quiet. Qed.
#[local] Hint Resolve quiet_output_texture : quiet.

Lemma quiet_build_sample cv gf : quiet (build_sample cv gf).
Proof. unfold build_sample. quiet. Qed.

Lemma quiet_fill_buffer nv12 : quiet (fill_buffer nv12).
Proof. unfold fill_buffer. quiet. Qed.

Lemma quiet_stamp s enc : quiet (stamp s enc).
Proof. unfold stamp. quiet. Qed.

Lemma quiet_drain enc : quiet (drain enc).
Proof. unfold drain, output_sample, read_buffer. quiet. Qed.
End Setup.
#[export] Hint Resolve quiet_create_unlocked quiet_set_media_types quiet_try_gpu quiet_codec_properties quiet_build_sample
  quiet_fill_buffer quiet_stamp quiet_drain : quiet.

(** ** Sizes *)

Definition even_size (w : Z) : Prop := Z.even w = true ∧ 2 ≤ w ≤ 65534.

Definition sized (enc : WindowEncoder) : Prop := even_size (we_width enc) ∧ even_size (we_height enc).

Lemma pad_even_ok {E} x : 0 ≤ x < 65535 → pad_even (E:=E) x = Ok (x + x mod 2).
Proof.
  intros Hx. unfold pad_even, add_uint. change (2 ^ 16) with 65536. pose proof (Z.mod_pos_bound x 2 ltac:(lia)).
  by replace (x + x mod 2 <? 65536) with true by lia.
Qed.

(** The last size has no even one above it. *)
Lemma pad_even_overflows {E} : pad_even (E:=E) 65535 = Panic.
Proof. done. Qed.

Lemma padded_even x : 0 ≤ x < 65535 → even_size (Z.max (x + x mod 2) 2).
Proof.
  intros Hx. pose proof (Z.mod_pos_bound x 2 ltac:(lia)) as Hm. assert (He : Z.even (x + x mod 2) = true).
  { apply Z.even_spec. exists ((x + x mod 2) / 2). Z.div_mod_to_equations. lia. }
  split; [by destruct (Z.max_spec (x + x mod 2) 2) as [[_ ->]|[_ ->]]|].
  assert (x + x mod 2 ≠ 65535) by (intros E; by rewrite E in He). lia.
Qed.

Lemma ends_quiet {P A} (m : ffi P A) p (Q : P → outcome Z A → Prop) :
  quiet m → (∀ p' a, Q p' (Ok a)) → (∀ p' e, Q p' (Err e)) → ends m p Q.
Proof. intros Hm Ha He. specialize (Hm p). unfold ends. destruct (m p) as [p' [a|e|]]; [apply Ha|apply He|done]. Qed.

Section Encoders.
Context {M : Type} `{MediaApi M}.
Implicit Types m : M.

(** What a fresh encoder is. *)
Definition fresh_encoder (handle w h : Z) (gpu : option GpuFrame) (enc : WindowEncoder) : Prop :=
  we_handle enc = handle ∧ we_width enc = Z.max (w + w mod 2) 2 ∧ we_height enc = Z.max (h + h mod 2) 2 ∧
  we_pending enc = [] ∧ we_params enc = ParamSets_default ∧ (gpu = None → we_input_path enc = Cpu).

Lemma try_gpu_none t w h fps m : try_gpu_input t None w h fps m = (m, Ok None).
Proof. done. Qed.

Lemma encoder_new_ends handle kind w h fps gpu m :
  0 ≤ w < 65535 → 0 ≤ h < 65535 →
  match (WindowEncoder_new handle kind w h fps gpu m).2 with
  | Ok enc => fresh_encoder handle w h gpu enc
  | Err _ => True
  | Panic => False
  end.
Proof.
  intros Hw Hh. change (ends (WindowEncoder_new handle kind w h fps gpu) m (λ _ r, match r with
    Ok enc => fresh_encoder handle w h gpu enc | Err _ => True | Panic => False end)).
  unfold WindowEncoder_new. rewrite !pad_even_ok by done. apply ends_bind. unfold compute at 1, ends at 1. cbn [fst snd].
  apply ends_bind. unfold compute, ends at 1. cbn [fst snd].
  apply ends_bind, ends_quiet; [auto with quiet| |done]. intros m1 t.
  apply ends_bind. set (width := Z.max (w + w mod 2) 2). set (height := Z.max (h + h mod 2) 2).
  assert (Hgpu : ends (try_gpu_input t gpu width height fps) m1 (λ _ r, match r with
    Ok path => gpu = None → path = None | Err _ => True | Panic => False end)).
  { destruct gpu as [gf|]; [|done]. apply ends_quiet; [auto with quiet|done..]. }
  eapply ends_mono; [exact Hgpu|]. intros m2 [path|e|] Hp; [|done..].
  apply ends_bind, ends_quiet; [destruct path; quiet| |done]. intros m3 t'.
  apply ends_bind, ends_quiet; [auto with quiet| |done]. intros m4 api.
  apply ends_bind, ends_quiet; [destruct api; auto with quiet| |done]. intros m5 [].
  apply ends_bind, ends_quiet; [auto with quiet| |done]. intros m6 [flags size].
  apply ends_bind, ends_quiet; [auto with quiet| |done]. intros m7 [].
  apply ends_bind, ends_quiet; [auto with quiet| |done]. intros m8 [].
  apply ends_ret. unfold fresh_encoder. cbn. split_and!; try done. intros Hn. by rewrite (Hp Hn).
Qed.

Lemma fresh_sized handle w h gpu enc : 0 ≤ w < 65535 → 0 ≤ h < 65535 → fresh_encoder handle w h gpu enc → sized enc.
Proof. intros Hw Hh (_ & Ew & Eh & _). unfold sized. rewrite Ew, Eh. split; by apply padded_even. Qed.

(** ** Submitting *)

(** A frame as the capture hands it on: whole, or on the GPU. *)
Definition frame_ok (frame : SourceFrame) : Prop :=
  0 ≤ sf_width frame < 65535 ∧ 0 ≤ sf_height frame < 65535 ∧
  (sf_data frame = [] ∨ len (sf_data frame) = 4 * sf_width frame * sf_height frame).

Definition matched (enc : WindowEncoder) (frame : SourceFrame) : Prop :=
  we_width enc = sf_width frame + sf_width frame mod 2 ∧ we_height enc = sf_height frame + sf_height frame mod 2.

Lemma matches_runs {E} enc frame :
  frame_ok frame → ∃ b, matches (E:=E) enc frame = Ok b ∧ (b = true ↔ matched enc frame).
Proof.
  intros (Hw & Hh & _). unfold matches, matched. rewrite !pad_even_ok by done. cbn [mbind outcome_bind].
  destruct (Z.eqb_spec (sf_width frame + sf_width frame mod 2) (we_width enc)) as [->|Hne]; cbn [negb].
  - eexists. split; [done|]. rewrite Z.eqb_eq. naive_solver.
  - exists false. split; [done|]. naive_solver.
Qed.

(** The picture as it is fed to the transform: NV12 of the captured pixels with
    the last row and column repeated to an even size. *)
Definition fed (enc : WindowEncoder) (frame : SourceFrame) (nv12 : list Z) : Prop :=
  let w := Z.to_nat (we_width enc) in let h := Z.to_nat (we_height enc) in
  let padded := pad_bgra (sf_data frame) (Z.to_nat (sf_width frame)) (Z.to_nat (sf_height frame)) w h in
  length nv12 = (w * h + w * (h / 2))%nat ∧
  (∀ x y, (x < w)%nat → (y < h)%nat →
     pixel padded w x y = nearest (sf_data frame) (Z.to_nat (sf_width frame)) (Z.to_nat (sf_height frame)) y x) ∧
  ∀ row col, (row < h)%nat → (col < w)%nat →
    let uv := chroma_of (source_pixel padded w (2 * (row / 2)) (2 * (col / 2))) in
    nv12 !! (row * w + col)%nat = Some (luma_of (source_pixel padded w row col)) ∧
    nv12 !! (w * h + (row / 2 * w + col / 2 * 2))%nat = Some uv.1 ∧
    nv12 !! (w * h + (row / 2 * w + col / 2 * 2 + 1))%nat = Some uv.2.

Lemma nv12_of_runs enc frame :
  frame_ok frame → matched enc frame → sized enc → sf_data frame ≠ [] →
  ∃ nv12, nv12_of enc frame = Ok nv12 ∧ fed enc frame nv12.
Proof.
  intros (Hw & Hh & Hd) [Mw Mh] [[Ew Bw] [Eh Bh]] Hne. destruct Hd as [Hd|Hd]; [done|].
  pose proof (Z.mod_pos_bound (sf_width frame) 2 ltac:(lia)). pose proof (Z.mod_pos_bound (sf_height frame) 2 ltac:(lia)).
  assert (Hsrc : (length (sf_data frame) = Z.to_nat (sf_width frame) * Z.to_nat (sf_height frame) * 4)%nat) by (unfold len in Hd; lia).
  assert (0 < Z.to_nat (sf_width frame) ∧ 0 < Z.to_nat (sf_height frame))%nat as [Pw Ph] by lia.
  destruct (pad_bgra_pixels (sf_data frame) _ _ (Z.to_nat (we_width enc)) (Z.to_nat (we_height enc)) Hsrc Pw Ph) as [Hlen Hpix].
  unfold nv12_of, fed. set (padded := pad_bgra _ _ _ _ _) in *.
  assert (Hev : ∀ x, 0 ≤ x → Z.even x = true → Nat.even (Z.to_nat x) = true).
  { intros x Hx [k ->]%Z.even_spec. apply Nat.even_spec. exists (Z.to_nat k). lia. }
  destruct (nv12_exact padded (Z.to_nat (we_width enc)) (Z.to_nat (we_height enc))) as [Hrun _].
  destruct Hrun as (out & E & Hl & Hs); [split_and!; [apply Hev; [lia|done]..|exact Hlen]|].
  rewrite E. exists out. split; [done|]. split_and!; [exact Hl|exact Hpix|exact Hs].
Qed.

(** What a submission leaves of the encoder. *)
Definition kept (enc enc' : WindowEncoder) : Prop :=
  we_handle enc' = we_handle enc ∧ we_transform enc' = we_transform enc ∧ we_codec_api enc' = we_codec_api enc ∧
  we_input_path enc' = we_input_path enc ∧ we_width enc' = we_width enc ∧ we_height enc' = we_height enc.

Lemma kept_sized enc enc' : kept enc enc' → sized enc → sized enc'.
Proof. intros (_ & _ & _ & _ & Ew & Eh). unfold sized. by rewrite Ew, Eh. Qed.

Lemma quiet_on_machine {A} (f : ffi M A) : quiet f → quiet (on_machine f).
Proof. intros Hf [m c]. unfold on_machine. specialize (Hf m). by destruct (f m) as [m' [a|e|]]. Qed.

Lemma on_machine_ends {A} (f : ffi M A) m enc (Q : M * WindowEncoder → outcome Z A → Prop) :
  quiet f → (∀ m' a, Q (m', enc) (Ok a)) → (∀ m' e, Q (m', enc) (Err e)) → ends (on_machine f) (m, enc) Q.
Proof.
  intros Hf Ha He. unfold ends, on_machine. specialize (Hf m). destruct (f m) as [m' [a|e|]]; [apply Ha|apply He|done].
Qed.

Lemma build_input_sample_ends frame m enc :
  frame_ok frame → (sf_data frame ≠ [] → matched enc frame) → sized enc → (uses_cpu_input enc = true → sf_data frame ≠ []) →
  ends (build_input_sample frame) (m, enc) (λ s r, kept enc s.2 ∧ we_pending s.2 = we_pending enc ∧ we_params s.2 = we_params enc ∧ r ≠ Panic).
Proof.
  intros Hf Hm Hs Hd. unfold build_input_sample. ends_steps. cbn [id].
  destruct (we_input_path enc) as [|converter manager] eqn:Ei.
  - assert (Hne : sf_data frame ≠ []) by (apply Hd; unfold uses_cpu_input; by rewrite Ei).
    destruct (nv12_of_runs enc frame) as (nv12 & E & _); [done|by apply Hm|done..|].
    apply ends_bind. unfold ends at 1. cbn [fst snd]. rewrite E.
    apply ends_bind, on_machine_ends; [auto with quiet| |done]. intros m1 buffer.
    ends_steps. destruct (MFCreateSample m1) as [m2 [sample|e]]; [|done].
    ends_steps. destruct (AddBuffer sample buffer m2) as [m3 [[]|e]]; [|done].
    apply ends_bind, on_machine_ends; [auto with quiet| |done]. intros m4 []. ends_steps. by split_and!.
  - destruct (gpu_frame frame) as [gf|]; [|done].
    apply ends_bind, on_machine_ends; [auto with quiet| |done]. intros m1 sample.
    apply ends_bind, on_machine_ends; [auto with quiet| |done]. intros m2 []. ends_steps. by split_and!.
Qed.

Lemma ends_or_return {A} (f : encoder A) k s (Q : M * WindowEncoder → outcome Z unit → Prop) :
  ends f s (λ s' r, match r with Ok a => ends (k a) s' Q | Err _ => Q s' (Ok tt) | Panic => Q s' Panic end) →
  ends (or_return f k) s Q.
Proof. unfold ends, or_return. by destruct (f s) as [s' [a|e|]]. Qed.

(** A submission is accepted or dropped. *)
Lemma submit_frame_ends frame force m enc :
  frame_ok frame → (sf_data frame ≠ [] → matched enc frame) → sized enc →
  ends (submit_frame frame force) (m, enc) (λ s r, kept enc s.2 ∧ r = Ok tt ∧
    (we_pending s.2 = we_pending enc ∨ we_pending s.2 = we_pending enc ++ [force])).
Proof.
  intros Hf Hm Hs. unfold submit_frame. ends_steps. cbn [id].
  destruct (uses_cpu_input enc && (len (sf_data frame) =? 0)) eqn:Eempty; [by split_and!; [..|left]|].
  assert (Hd : uses_cpu_input enc = true → sf_data frame ≠ []).
  { intros Hc Hnil. by rewrite Hc, Hnil in Eempty. }
  apply ends_bind.
  assert (Hset : ends (match we_codec_api enc with
    | Some api => if force then on_machine (ignore (SetValue api AVEncVideoForceKeyFrame (VBool true))) else mret tt
    | None => mret tt end) (m, enc) (λ s r, r = Ok tt ∧ s.2 = enc)) by (by destruct (we_codec_api enc), force).
  eapply ends_mono; [exact Hset|]. intros [m1 enc1] r [-> He]. cbn in He. subst enc1.
  apply ends_or_return. eapply ends_mono; [by apply build_input_sample_ends|].
  intros [m2 enc2] [sample|e|] (Hk & Hp & _ & Hn); cbn [fst snd] in *; [|by split_and!; [..|left]|done].
  apply ends_or_return, ends_api. destruct (ProcessInput _ _ m2) as [m3 [[]|e]]; [|by split_and!; [..|left]].
  apply ends_update. cbn [snd]. split_and!; [done..|right; cbn; by rewrite Hp].
Qed.

(** ** Polling *)

Lemma poll_frame_ends m enc :
  ends poll_frame (m, enc) (λ s r, kept enc s.2 ∧
    match r with
    | Ok (Some x) => ∃ raw, drain enc m = (s.1, Ok (Some raw)) ∧ reframe raw (we_params enc) = (ef_data x, ef_keyframe x, we_params s.2) ∧
        ef_data x ≠ [] ∧ ef_width x = Z.min (we_width enc) 65535 ∧ ef_height x = Z.min (we_height enc) 65535 ∧
        we_pending s.2 = tail (we_pending enc)
    | Ok None => True
    | _ => False
    end).
Proof.
  unfold ends, poll_frame. pose proof (quiet_drain enc m) as Hq. destruct (drain enc m) as [m' [[raw|]|e|]]; [|done..].
  unfold on_output. cbn [we_params count_output set_pending]. destruct (reframe raw (we_params enc)) as [[data is_idr] params] eqn:Er.
  destruct data as [|b data]; [done|]. cbn [fst snd]. split; [done|]. exists raw. by split_and!.
Qed.
End Encoders.

(** ** The encoders of a session *)

Section Sessions.
Context {M : Type} `{MediaApi M}.
Implicit Types e : WinFrameEncoder M.

(** Coded sizes are even, and a window has an encoder or a size that failed, not
    both. *)
Definition encoder_inv e : Prop :=
  map_Forall (λ _ enc, sized enc) (encoders e) ∧ ∀ h, is_Some (encoders e !! h) → failed e !! h = None.

Definition elsewhere (handle : Z) e e' : Prop :=
  ∀ h, h ≠ handle → encoders e' !! h = encoders e !! h ∧ failed e' !! h = failed e !! h.

Lemma put_encoder_inv e m handle enc :
  encoder_inv e → sized enc → failed e !! handle = None → encoder_inv (with_maps e m (<[handle := enc]> (encoders e)) (failed e)).
Proof.
  intros [Hs Hf] Henc Hn. split; [by apply map_Forall_insert_2|]. cbn. intros h [x Hx]. destruct (decide (h = handle)) as [->|Hne]; [done|].
  rewrite lookup_insert_ne in Hx by done. apply Hf. by exists x.
Qed.

Lemma put_encoder_elsewhere e m handle enc : elsewhere handle e (with_maps e m (<[handle := enc]> (encoders e)) (failed e)).
Proof. intros h Hne. cbn. by rewrite lookup_insert_ne. Qed.

Lemma rebuild_runs e handle frame :
  encoder_inv e → frame_ok frame →
  ∃ e' go, rebuild e handle frame = Ok (e', go) ∧ encoder_inv e' ∧ elsewhere handle e e' ∧
    (go = true → ∃ enc, encoders e' !! handle = Some enc ∧ sized enc ∧ failed e' !! handle = None ∧
       fresh_encoder handle (sf_width frame) (sf_height frame) (gpu_frame frame) enc ∧ (uses_cpu_input enc = true → sf_data frame ≠ [])) ∧
    (go = false → failed e' !! handle = Some (sf_width frame, sf_height frame) ∨ sf_data frame = []).
Proof.
  intros [Hs Hf] (Hw & Hh & Hd). unfold rebuild.
  pose proof (encoder_new_ends handle (fe_kind e) (sf_width frame) (sf_height frame) (fe_target_fps e) (gpu_frame frame) (fe_machine e) Hw Hh) as Hn.
  destruct (WindowEncoder_new _ _ _ _ _ _ _) as [m [enc|hr|]]; cbn [snd] in Hn; [| |done].
  - pose proof (fresh_sized _ _ _ _ _ Hw Hh Hn) as Hsz. eexists _, _. split; [done|]. split_and!.
    + split; cbn; [by apply map_Forall_insert_2|]. intros h [x Hx]. destruct (decide (h = handle)) as [->|Hne]; [apply lookup_delete_eq|].
      rewrite lookup_insert_ne in Hx by done. rewrite lookup_delete_ne by done. apply Hf. by exists x.
    + intros h Hne. cbn. by rewrite lookup_insert_ne, lookup_delete_ne.
    + intros Hgo. exists enc. cbn. rewrite lookup_insert_eq, lookup_delete_eq. split_and!; try done.
      intros Hc Hnil. by rewrite Hc, Hnil in Hgo.
    + intros Hgo. right. apply negb_false_iff, andb_true_iff in Hgo as [_ Hlen%Z.eqb_eq]. by apply len_0_nil.
  - eexists _, _. split; [done|]. split_and!; [split; cbn|..].
    + by apply map_Forall_delete.
    + intros h [x Hx]. destruct (decide (h = handle)) as [->|Hne]; [by rewrite lookup_delete_eq in Hx|].
      rewrite lookup_delete_ne in Hx by done. rewrite lookup_insert_ne by done. apply Hf. by exists x.
    + intros h Hne. cbn. by rewrite lookup_insert_ne, lookup_delete_ne.
    + done.
    + intros _. left. cbn. apply lookup_insert_eq.
Qed.

Lemma fresh_matched handle frame gpu enc :
  frame_ok frame → fresh_encoder handle (sf_width frame) (sf_height frame) gpu enc → sf_data frame ≠ [] → matched enc frame.
Proof.
  intros (Hw & Hh & Hd) (_ & Ew & Eh & _) Hne. destruct Hd as [Hd|Hd]; [done|]. unfold matched. rewrite Ew, Eh.
  assert (0 < len (sf_data frame)) by (destruct (sf_data frame); [done|unfold len; cbn; lia]).
  assert (0 < sf_width frame ∧ 0 < sf_height frame) by nia. Z.div_mod_to_equations. lia.
Qed.

(** A submission never fails; at a size that was refused it does nothing. *)
Lemma win_submit_runs e handle frame force :
  encoder_inv e → frame_ok frame →
  ∃ e', win_submit e handle frame force = Ok e' ∧ encoder_inv e' ∧ elsewhere handle e e'.
Proof.
  intros He Hf. unfold win_submit. case_bool_decide as Hno; [by exists e|].
  assert (Hgo : ∀ e1 k, encoder_inv e1 → elsewhere handle e e1 → (∀ enc, encoders e1 !! handle = Some enc → sf_data frame ≠ [] → matched enc frame) →
    ∃ e', (y ← on_encoder e1 handle tt (submit_frame frame k); Ok y.1) = Ok e' ∧ encoder_inv e' ∧ elsewhere handle e e').
  { intros e1 k He1 Hel Hmat. unfold on_encoder. destruct (encoders e1 !! handle) as [enc|] eqn:Eenc; [|by exists e1].
    destruct He1 as [Hs1 Hf1]. pose proof (Hs1 _ _ Eenc) as Hsz. cbn in Hsz.
    pose proof (submit_frame_ends frame k (fe_machine e1) enc Hf (Hmat enc eq_refl) Hsz) as Hsub. unfold ends in Hsub.
    destruct (submit_frame frame k (fe_machine e1, enc)) as [[m enc'] r]. cbn [fst snd] in Hsub. destruct Hsub as (Hk & -> & _).
    eexists. split; [done|]. cbn. split.
    - apply put_encoder_inv; [by split|by eapply kept_sized|apply Hf1; by exists enc].
    - intros h Hne. destruct (put_encoder_elsewhere e1 m handle enc' h Hne) as [-> ->]. by apply Hel. }
  assert (Hself : elsewhere handle e e) by done.
  unfold rebuild_needed. destruct (encoders e !! handle) as [enc|] eqn:Eenc.
  - destruct (matches_runs (E:=unit) enc frame Hf) as (b & -> & Hb). cbn [mbind outcome_bind mret outcome_ret]. destruct b; cbn [negb].
    + apply Hgo; [done..|]. intros enc' E' _. rewrite E' in Eenc. injection Eenc as ->. by apply Hb.
    + destruct (rebuild_runs e handle frame He Hf) as (e1 & go & -> & He1 & Hel & Hyes & _). cbn [mbind outcome_bind].
      destruct go; cbn [negb]; [|by exists e1]. apply Hgo; [done..|]. intros enc' E' Hne.
      destruct (Hyes eq_refl) as (enc1 & E1 & _ & _ & Hfr & _). rewrite E' in E1. injection E1 as ->. by eapply fresh_matched.
  - cbn [mbind outcome_bind mret outcome_ret].
    destruct (rebuild_runs e handle frame He Hf) as (e1 & go & -> & He1 & Hel & Hyes & _). cbn [mbind outcome_bind].
    destruct go; cbn [negb]; [|by exists e1]. apply Hgo; [done..|]. intros enc' E' Hne.
    destruct (Hyes eq_refl) as (enc1 & E1 & _ & _ & Hfr & _). rewrite E' in E1. injection E1 as ->. by eapply fresh_matched.
Qed.

Lemma win_poll_runs e handle :
  encoder_inv e →
  ∃ e' x, win_poll e handle = Ok (e', x) ∧ encoder_inv e' ∧ elsewhere handle e e' ∧ failed e' = failed e ∧
    match x with
    | Some f => ∃ enc enc' raw, encoders e !! handle = Some enc ∧ encoders e' !! handle = Some enc' ∧
        reframe raw (we_params enc) = (ef_data f, ef_keyframe f, we_params enc') ∧ ef_data f ≠ [] ∧
        ef_width f = we_width enc ∧ ef_height f = we_height enc ∧ even_size (ef_width f) ∧ even_size (ef_height f)
    | None => True
    end.
Proof.
  intros He. unfold win_poll, on_encoder. destruct (encoders e !! handle) as [enc|] eqn:Eenc; [|by exists e, None].
  destruct He as [Hs Hf]. pose proof (Hs _ _ Eenc) as Hsz. cbn in Hsz.
  pose proof (poll_frame_ends (fe_machine e) enc) as Hp. unfold ends in Hp.
  destruct (poll_frame (fe_machine e, enc)) as [[m enc'] r]. cbn [fst snd] in Hp. destruct Hp as [Hk Hx].
  destruct r as [x|er|]; [|done..]. eexists _, x. split; [done|]. split_and!.
  - apply put_encoder_inv; [by split|by eapply kept_sized|apply Hf; by exists enc].
  - apply put_encoder_elsewhere.
  - done.
  - destruct x as [f|]; [|done]. destruct Hx as (raw & _ & Hr & Hne & Ew & Eh & _). exists enc, enc', raw.
    destruct Hsz as [[Hw Bw] [Hh Bh]]. rewrite !Z.min_l in * by lia. cbn. rewrite lookup_insert_eq, Ew, Eh. by split_and!.
Qed.
End Sessions.

(** ** The encoder behind the driver's trait

    A method returns on the frames there are; the last odd size aside, where
    [pad_even] overflows, the instance is the methods. *)

#[export] Instance win_encoder {M} `{MediaApi M} : FrameEncoder (WinFrameEncoder M) := {|
  enc_submit e handle frame force := match win_submit e handle frame force with Ok e' => e' | _ => e end;
  enc_poll e handle := match win_poll e handle with Ok x => x | _ => (e, None) end;
  enc_forget := win_forget;
  wants_cpu_frame e handle w h := match win_wants_cpu_frame e handle w h with Ok b => b | _ => false end;
  enc_failed := win_failed
|}.

(** ** Theorems *)

Inductive enc_op : Type := OSubmit (handle : Z) (frame : SourceFrame) (force : bool) | OPoll (handle : Z) | OForget (handle : Z).

Definition op_ok (op : enc_op) : Prop := match op with OSubmit _ frame _ => frame_ok frame | _ => True end.

Section Runs.
Context {M : Type} `{MediaApi M}.

Definition run_op (e : WinFrameEncoder M) (op : enc_op) : outcome unit (WinFrameEncoder M * option EncodedFrame) :=
  match op with
  | OSubmit handle frame force => e ← win_submit e handle frame force; mret (e, None)
  | OPoll handle => win_poll e handle
  | OForget handle => mret (win_forget e handle, None)
  end.

(** Any calls of a driver, and the access units that came out. *)
Fixpoint run_ops (e : WinFrameEncoder M) (ops : list enc_op) : outcome unit (WinFrameEncoder M * list EncodedFrame) :=
  match ops with
  | [] => mret (e, [])
  | op :: ops =>
    x ← run_op e op;
    y ← run_ops x.1 ops;
    mret (y.1, option_list x.2 ++ y.2)
  end.

Lemma run_op_runs e op : encoder_inv e → op_ok op →
  ∃ e' x, run_op e op = Ok (e', x) ∧ encoder_inv e' ∧
    match x with Some f => even_size (ef_width f) ∧ even_size (ef_height f) ∧ ef_data f ≠ [] | None => True end.
Proof.
  intros He Hop. destruct op as [handle frame force|handle|handle]; cbn [run_op].
  - destruct (win_submit_runs e handle frame force He Hop) as (e' & -> & He' & _). by exists e', None.
  - destruct (win_poll_runs e handle He) as (e' & x & -> & He' & _ & _ & Hx). exists e', x. split_and!; [done..|].
    destruct x as [f|]; [|done]. destruct Hx as (enc & enc' & raw & _ & _ & _ & Hne & _ & _ & Hw & Hh). by split_and!.
  - exists (win_forget e handle), None. split_and!; [done| |done]. destruct He as [Hs Hf]. split; cbn; [by apply map_Forall_delete|].
    intros h [x Hx]. apply lookup_delete_Some in Hx as [Hne Hx]. rewrite lookup_delete_ne by done. apply Hf. by exists x.
Qed.

Lemma run_ops_runs e ops : encoder_inv e → Forall op_ok ops →
  ∃ e' outs, run_ops e ops = Ok (e', outs) ∧ encoder_inv e' ∧
    Forall (λ f, even_size (ef_width f) ∧ even_size (ef_height f) ∧ ef_data f ≠ []) outs.
Proof.
  intros He Hops. revert e He. induction Hops as [|op ops Hop _ IH]; intros e He; [by exists e, []|]. cbn [run_ops].
  destruct (run_op_runs e op He Hop) as (e1 & x & -> & He1 & Hx). cbn [mbind outcome_bind fst snd].
  destruct (IH e1 He1) as (e2 & outs & -> & He2 & Hout). cbn. eexists _, _. split; [done|]. split; [done|].
  apply Forall_app. split; [|done]. destruct x as [f|]; [|constructor]. by constructor.
Qed.
End Runs.


(** C24: the transform is fed the captured picture: for an encoder of the frame's
    size the conversion does not panic, and its NV12 samples are those of the
    captured pixels, with the last row and column repeated where the size was
    odd. *)
Theorem submission_is_picture (enc : WindowEncoder) (frame : SourceFrame) :
  frame_ok frame → matched enc frame → sized enc → sf_data frame ≠ [] →
  ∃ nv12, nv12_of enc frame = Ok nv12 ∧ fed enc frame nv12.
Proof. apply nv12_of_runs. Qed.

(** The counter of the log keeps the rest of a stream. *)
Lemma tick_capture_diag_keeps st :
  st_handle (tick_capture_diag st) = st_handle st.
Proof. unfold tick_capture_diag. by case_if. Qed.

Lemma tick_capture_diag_budget st :
  st_budget (tick_capture_diag st) = st_budget st ∧ st_video_channel (tick_capture_diag st) = st_video_channel st.
Proof. unfold tick_capture_diag. by case_if. Qed.

(** The message that carries a frame's own pixels. *)
Definition uncoded (id frame_id : Z) (frame : SourceFrame) (captured_us : Z) : Message.t :=
  Message.FrameData (mkFrameData id frame_id codec.RAW_BGRA frame_flag.KEYFRAME (sf_width frame) (sf_height frame)
                       captured_us captured_us (sf_data frame)).

(** With room in the queue a frame becomes its last chunk. *)
Lemma deliver_frame_queues `{ChannelLaws OutboundChunk} {W E I} `{WindowSource W, FrameEncoder E, InputSink I}
    times id st msg_codec flags width height data ready_us (d : Driver (W:=W) (E:=E) (I:=I)) frame_id budget :
  try_reserve (d_outbound d) = Sent → on_captured (st_budget st) = Ok (frame_id, budget) →
  let sent := Message.FrameData (mkFrameData id frame_id msg_codec flags width height times.1 ready_us data) in
  Message.wf sent →
  ∃ d' chunk, deliver_frame times id st (msg_codec, flags, width, height, data, ready_us, false) d = Ok (tt, d') ∧
    queue_of d' = queue_of d ++ [chunk] ∧ oc_msg_type chunk = msg_type.FRAME_DATA ∧ oc_channel chunk = st_video_channel st ∧
    oc_body chunk = Message.wire sent ∧ d_encoder d' = d_encoder d.
Proof.
  intros Hres Hcap sent Hwf. unfold deliver_frame. cbn [clear_keyframe]. unfold lift at 1, mbind at 1, stm_bind at 1.
  rewrite Hcap. cbn [infallible]. set (logged := _ <? _). unfold mbind, stm_bind, modify, lift. cbn [fst snd].
  rewrite encode_body_wire by exact Hwf. cbn [map_err]. unfold queue_chunk. cbn [d_outbound put_stream set_streams].
  pose proof (try_send_view (d_outbound d)) as Hts. rewrite try_reserve_view in Hres.
  match goal with |- context [try_send (d_outbound d) ?k] => specialize (Hts k); destruct (try_send (d_outbound d) k) as [q r]; set (chunk := k) in * end.
  cbn [fst snd] in Hts. unfold v_try_send in Hts. rewrite Hres in Hts. injection Hts as Hq ->.
  eexists _, chunk. split; [done|]. unfold queue_of. cbn. rewrite Hq. by split_and!.
Qed.

(** C25: a window whose encoder was refused is still shown. Submitted again at the
    size that failed, a frame reaches no transform; the driver asks for pixels,
    not for a texture, and queues them uncoded as a keyframe of their own size. *)
Theorem refused_window_sent_uncoded `{ChannelLaws OutboundChunk} {W M I} `{WindowSource W, MediaApi M, InputSink I}
    (d : Driver (W:=W) (E:=WinFrameEncoder M) (I:=I)) (times : Z * Z) (id : Z) (st : WindowStream) (source : W)
    (frame : SourceFrame) (frame_id : Z) (budget : FrameBudget) :
  d_streams d !! id = Some st → st_show_state st ≠ window_show.MINIMIZED → try_reserve (d_outbound d) = Sent →
  failed (d_encoder d) !! st_handle st = Some (sf_width frame, sf_height frame) →
  next_frame (d_source d) (st_handle st) CpuBgra = (source, Some frame) → sf_data frame ≠ [] →
  on_captured (st_budget st) = Ok (frame_id, budget) →
  let sent := uncoded id frame_id frame times.1 in
  Message.wf sent →
  ∃ d' chunk, pump_frame codec.H264 times id d = Ok (tt, d') ∧ queue_of d' = queue_of d ++ [chunk] ∧
    oc_msg_type chunk = msg_type.FRAME_DATA ∧ oc_channel chunk = st_video_channel st ∧ oc_body chunk = Message.wire sent ∧
    d_encoder d' = d_encoder d.
Proof.
  intros Hst Hshow Hres Hfail Hframe Hdata Hcap sent Hwf.
  assert (Hfailed : enc_failed (d_encoder d) (st_handle st) = true) by (cbn; unfold win_failed; by rewrite Hfail).
  assert (Hsame : ∀ force, enc_submit (d_encoder d) (st_handle st) frame force = d_encoder d).
  { intros force. cbn. unfold win_submit. by rewrite bool_decide_eq_true_2. }
  assert (Hintent : frame_intent codec.H264 (d_encoder d) st = CpuBgra).
  { unfold frame_intent. destruct (st_geometry st) as [[[x y] w] h]. by rewrite Hfailed, andb_false_r. }
  set (d1 := put_stream id (tick_capture_diag st) (set_source source d)).
  set (d2 := set_encoder (d_encoder d) d1).
  assert (Hsend : try_reserve (d_outbound d2) = Sent) by exact Hres.
  destruct (deliver_frame_queues times id (tick_capture_diag st) codec.RAW_BGRA frame_flag.KEYFRAME (sf_width frame) (sf_height frame)
              (sf_data frame) times.1 d2 frame_id budget Hsend) as (d' & chunk & Hd & Hq & Ht & Hv & Hb & He);
    [by rewrite (proj1 (tick_capture_diag_budget st))|exact Hwf|].
  rewrite (proj2 (tick_capture_diag_budget st)) in Hv. exists d', chunk. split; [|by split_and!].
  unfold pump_frame. eapply bind_intro; [done|]. rewrite Hst. replace (st_show_state st =? window_show.MINIMIZED) with false by lia.
  eapply bind_intro; [unfold reserve_frame_slot; by rewrite Hres|]. cbn [negb].
  eapply bind_intro; [done|]. rewrite Hintent. eapply bind_intro; [by rewrite Hframe|]. cbn beta iota.
  eapply bind_intro; [done|]. fold d1. eapply bind_intro; [|].
  { change (codec.H264 =? codec.H264) with true. cbn iota. unfold modify. cbn [d_encoder d1 put_stream set_streams set_source].
    rewrite tick_capture_diag_keeps, Hsame. reflexivity. }
  fold d2. refine (bind_intro _ _ _ (Some (codec.RAW_BGRA, frame_flag.KEYFRAME, sf_width frame, sf_height frame, sf_data frame, times.1, false)) d2 _ _ Hd).
  unfold frame_payload. eapply bind_intro; [done|]. cbn [d_encoder d2 set_encoder].
  rewrite tick_capture_diag_keeps, Hfailed, andb_false_r. replace (len (sf_data frame) =? 0) with false; [done|]. symmetry. apply Z.eqb_neq.
  intros Hz. by apply len_0_nil in Hz.
Qed.

(** ** Where it falls short *)

(** An encoder that needs pixels passes over a frame without any. *)
Lemma submit_frame_nothing {M} `{MediaApi M} frame force (m : M) enc :
  uses_cpu_input enc = true → sf_data frame = [] → submit_frame frame force (m, enc) = ((m, enc), Ok tt).
Proof. intros Hcpu Hd. unfold submit_frame. cbv [mbind ffi_bind self id]. by rewrite Hcpu, Hd. Qed.

(** The driver asks for pixels by the window's announced size, the encoder is of
    the frames' size: while these differ, an encoder that needs pixels is offered
    textures only, takes none of them and the window stands still. *)
Lemma mismatched_window_starves {M} `{MediaApi M} (e : WinFrameEncoder M) (st : WindowStream) (enc : WindowEncoder)
    (frame : SourceFrame) (x y w h : Z) (force : bool) :
  encoders e !! st_handle st = Some enc → uses_cpu_input enc = true → failed e !! st_handle st = None →
  frame_ok frame → matched enc frame → sf_data frame = [] →
  st_geometry st = (x, y, w, h) → 0 ≤ w < 65535 → 0 ≤ h < 65535 → we_width enc ≠ w + w mod 2 ∨ we_height enc ≠ h + h mod 2 →
  frame_intent codec.H264 e st = GpuNv12Preferred ∧
  (let e' := enc_submit e (st_handle st) frame force in encoders e' = encoders e ∧ fe_machine e' = fe_machine e).
Proof.
  intros He Hcpu Hf Hok Hm Hd Hg Hw Hh Hne. split.
  - unfold frame_intent. rewrite Hg. cbn [enc_failed wants_cpu_frame win_encoder]. unfold win_failed, win_wants_cpu_frame.
    rewrite Hf, He, Hcpu. rewrite !pad_even_ok by done. cbn [negb mbind outcome_bind].
    destruct (Z.eqb_spec (we_width enc) (w + w mod 2)); cbn; [|done]. by destruct (Z.eqb_spec (we_height enc) (h + h mod 2)); [lia|].
  - cbn. unfold win_submit, rebuild_needed. rewrite bool_decide_eq_false_2, He by (by rewrite Hf).
    destruct (matches_runs (E:=unit) enc frame Hok) as (b & -> & Hb). replace b with true by (symmetry; by apply Hb).
    cbn [mbind outcome_bind mret outcome_ret negb]. unfold on_encoder. rewrite He, submit_frame_nothing by done. cbn.
    by rewrite insert_id.
Qed.

(** A frame without pixels that had its encoder made anew, for the CPU after all,
    is dropped; the next one is the new encoder's first and, unless the driver
    asks, not a keyframe by request. *)
Lemma rebuilt_encoder_unforced {M} `{MediaApi M} (e e' : WinFrameEncoder M) handle frame :
  0 < sf_width frame → 0 < sf_height frame → frame_ok frame → rebuild e handle frame = Ok (e', false) → sf_data frame = [] →
  failed e' !! handle = None → rebuild_needed e' handle frame = Ok false.
Proof.
  intros Hw0 Hh0 Hf E Hd Hn. destruct Hf as (Hw & Hh & Hdata). unfold rebuild in E.
  pose proof (encoder_new_ends handle (fe_kind e) (sf_width frame) (sf_height frame) (fe_target_fps e) (gpu_frame frame) (fe_machine e) Hw Hh) as He.
  destruct (WindowEncoder_new _ _ _ _ _ _ _) as [m [enc|hr|]]; cbn [snd] in He; [| |done].
  - injection E as <- _. unfold rebuild_needed. cbn. rewrite lookup_insert_eq.
    destruct (matches_runs (E:=unit) enc frame (conj Hw (conj Hh Hdata))) as (b & -> & Hb).
    replace b with true; [done|]. symmetry. apply Hb. destruct He as (_ & Ew & Eh & _). unfold matched. rewrite Ew, Eh.
    pose proof (Z.mod_pos_bound (sf_width frame) 2 ltac:(lia)). pose proof (Z.mod_pos_bound (sf_height frame) 2 ltac:(lia)).
    Z.div_mod_to_equations. lia.
  - injection E as <-. cbn in Hn. by rewrite lookup_insert_eq in Hn.
Qed.

(** ** A small machine *)

Module SmallMft.

(** How many samples a transform holds, and whether there is one at all. Access
    units are a slice of one byte, the first with its parameter sets. *)
Record state : Type := mkState { t_held : Z; t_made : Z; t_present : bool }.

Definition yes {A} (a : A) : com state A := λ m, (m, inl a).
Definition no {A} : com state A := λ m, (m, inr E_FAIL).

Definition unit_bytes (n : Z) : list Z :=
  if n =? 0 then [0; 0; 0; 1; 0x67; 66; 0; 0; 1; 0x68; 1; 0; 0; 1; 0x65; 9] else [0; 0; 0; 1; 0x41; 9].

#[global] Instance small_mft : MediaApi state := {
  MFStartup := yes tt;
  MFTEnumEx flags := yes (if flags =? MFT_ENUM_FLAG_SYNCMFT then Some [None; Some 1] else None);
  ActivateObject a m := if t_present m then (m, inl a) else (m, inr E_FAIL);
  GetAttributes := yes; GetUINT32 _ _ := no; SetUINT32 _ _ _ := yes tt; SetUINT64 _ _ _ := yes tt; SetGUID _ _ _ := yes tt;
  GetGUID t _ := yes (if t =? 2 then MFVideoFormat_NV12 else OtherGuid 7);
  MFCreateMediaType := yes 9; SetOutputType _ _ := yes tt; SetInputType _ _ := yes tt;
  GetInputAvailableType _ i m := (m, if i <? 3 then inl i else inr E_FAIL);
  input_type_count _ _ := 3%nat;
  cast_codec_api := yes; SetValue _ _ _ := yes tt; GetOutputStreamInfo _ := yes (0, 4096); ProcessMessage _ _ _ := yes tt;
  ProcessInput _ _ m := (mkState (t_held m + 1) (t_made m) (t_present m), inl tt);
  ProcessOutput _ s m :=
    if 0 <? t_held m then (mkState (t_held m - 1) (t_made m + 1) (t_present m), inl s) else (m, inr 0xC00D6D72);
  MFCreateMemoryBuffer _ := yes 20; Lock _ m := (m, inl (unit_bytes (t_made m - 1))); write_locked _ _ m := m; Unlock _ m := m;
  SetCurrentLength _ _ := yes tt; MFCreateSample := yes 30; AddBuffer _ _ := yes tt; SetSampleTime _ _ := yes tt;
  SetSampleDuration _ _ := yes tt; ConvertToContiguousBuffer := yes;
  MFCreateDXGIDeviceManager := no; ResetDevice _ _ _ := no; cast_video_device _ := no; cast_video_context _ := no;
  cast_video_context1 _ := no; CreateVideoProcessorEnumerator _ _ := no; CheckVideoProcessorFormat _ _ := no;
  cast_enumerator1 _ := no; CheckVideoProcessorFormatConversion _ _ _ _ _ := no; CreateVideoProcessor _ _ := no;
  CreateVideoProcessorInputView _ _ _ := no; CreateVideoProcessorOutputView _ _ _ := no; CreateTexture _ _ := no;
  SetStreamColorSpace1 _ _ _ m := m; SetOutputColorSpace1 _ _ _ m := m; VideoProcessorBlt _ _ _ _ := no;
  MFCreateDXGISurfaceBuffer _ := no
}.

(** Three pixels in a row, and the same as a texture. *)
Definition triple : SourceFrame := Serve.bgra 3 1 [1; 2; 3; 4; 5; 6; 7; 8; 9; 10; 11; 12].
Definition on_gpu : SourceFrame := mkSourceFrame 3 1 [] (Some (mkGpuFrame 3 1 1 2 40)).

Definition calls : list enc_op := [OSubmit 10 on_gpu false; OPoll 10; OSubmit 10 triple false; OPoll 10; OSubmit 10 triple true; OPoll 10; OForget 10].

Definition present : state := mkState 0 0 true.
Definition absent : state := mkState 0 0 false.
End SmallMft.

(** The software transform is found; a texture it cannot take costs the window
    its first frame. *)
Example small_encoding :
  (probe_h264_support SmallMft.present).2 = Ok (Some Software) ∧
  match run_ops (WinFrameEncoder_new SmallMft.present Software 30) SmallMft.calls with
  | Ok (_, outs) => map (λ f, (ef_keyframe f, ef_width f, ef_height f, len (ef_data f))) outs = [(true, 4, 2, 18); (false, 4, 2, 6)]
  | _ => False
  end.
Proof. vm_compute. by split. Qed.

Lemma triple_ok : frame_ok SmallMft.triple.
Proof. split; [cbn; lia|]. split; [cbn; lia|]. by right. Qed.

Lemma on_gpu_ok : frame_ok SmallMft.on_gpu.
Proof. split; [cbn; lia|]. split; [cbn; lia|]. by left. Qed.


(** Four by two pixels: the third column twice, the row twice. *)
Lemma submission_is_picture_witness :
  let enc := mkEncoder 10 0 1 None Cpu 4 2 false 0 ParamSets_default 0 1 [] false in
  pad_bgra (sf_data SmallMft.triple) 3 1 4 2 =
    [1; 2; 3; 4; 5; 6; 7; 8; 9; 10; 11; 12; 9; 10; 11; 12; 1; 2; 3; 4; 5; 6; 7; 8; 9; 10; 11; 12; 9; 10; 11; 12] ∧
  ∃ nv12, nv12_of enc SmallMft.triple = Ok nv12 ∧ fed enc SmallMft.triple nv12.
Proof.
  intros enc. split; [vm_compute; reflexivity|].
  apply (submission_is_picture enc SmallMft.triple).
  - exact triple_ok.
  - split; reflexivity.
  - split; (split; [reflexivity|cbn; lia]).
  - discriminate.
Defined.

Module SmallRefusal.
Import Demo.
#[local] Existing Instance Demo.demo_source.

(** A session with H.264 on a guest whose transforms cannot be activated. *)
Definition setup264 : Setup := mkSetup SessionParams_default codec.H264 (mkFeatures true false).
Definition begin : Driver (W:=nat) (E:=WinFrameEncoder SmallMft.state) (I:=list SinkCall) :=
  Driver_new 0%nat (WinFrameEncoder_new SmallMft.absent Software 30) [].
Definition refused : Driver (W:=nat) (E:=WinFrameEncoder SmallMft.state) (I:=list SinkCall) :=
  match session setup264 begin [tick] with Ok x => x.1 | _ => begin end.
Definition stream : WindowStream :=
  match d_streams refused !! 1 with Some st => st | None => mkStream 0 0 (FrameBudget_new 1) (0, 0, 0, 0) [] 0 0 false 0 0 end.
End SmallRefusal.

#[local] Existing Instance Demo.demo_source.

Lemma refused_window_sent_uncoded_witness :
  let d := SmallRefusal.refused in
  let sent := Message.FrameData (mkFrameData 1 2 codec.RAW_BGRA frame_flag.KEYFRAME 1 1 7 7 [1; 2; 3; 255]) in
  ∃ d' chunk, pump_frame codec.H264 (7, 8) 1 d = Ok (tt, d') ∧ queue_of d' = queue_of d ++ [chunk] ∧ oc_body chunk = Message.wire sent.
Proof.
  intros d sent. destruct (on_captured (st_budget SmallRefusal.stream)) as [[fid budget]|e|] eqn:Eb; try (exfalso; vm_compute in Eb; discriminate Eb).
  assert (Hf : fid = 2) by (vm_compute in Eb; injection Eb as <- _; reflexivity).
  destruct (refused_window_sent_uncoded d (7, 8) 1 SmallRefusal.stream 1%nat (Serve.bgra 1 1 [1; 2; 3; 255]) fid budget)
    as (d' & chunk & H1 & H2 & _ & _ & H3 & _).
  - vm_compute. reflexivity.
  - vm_compute. discriminate.
  - vm_compute. reflexivity.
  - vm_compute. reflexivity.
  - vm_compute. reflexivity.
  - discriminate.
  - exact Eb.
  - rewrite Hf. clear. change (FrameData_wf (mkFrameData 1 2 codec.RAW_BGRA frame_flag.KEYFRAME 1 1 7 7 [1; 2; 3; 255])).
    unfold FrameData_wf, blob_ok, len; cbn. split_and!; try (unfold is_uint; cbn; lia); try (split; vm_compute; (discriminate || reflexivity)).
    repeat (apply Forall_cons; split; [unfold is_uint; lia|]). by apply Forall_nil.
  - exists d', chunk. split; [exact H1|]. split; [exact H2|]. rewrite H3, Hf. reflexivity.
Defined.
