(* ===== verification/AgentMain.v ===== *)
(** * The agent's process

    [crates/oxagent/src/main.rs] and [run_agent] of [crates/oxagent/src/win/mod.rs]:
    the command line, what is set up before the agent listens and the exit codes
    where that fails, the state of the Windows session it finds itself in, and the
    loop that accepts connections, each on a task of its own around the
    [run_session] of [AgentSession]. *)

From S2P Require Import Prelude Cursor MsgType MsgControl MsgWindow Envelope Reassembly ProtoMessage Transport.
From S2P Require Import Handshake Model Registry Session Channel Serve ServeSession Text Security Config AgentSession.
From S2P Require Import WinCall WinCapture WinEncode WinEncodeFacts.

(** ** The Windows session *)

Definition WTSActive : Z := 0.
Definition WTSConnected : Z := 1.
Definition WTSConnectQuery : Z := 2.
Definition WTSShadow : Z := 3.
Definition WTSDisconnected : Z := 4.
Definition WTSIdle : Z := 5.
Definition WTSListen : Z := 6.
Definition WTSReset : Z := 7.
Definition WTSDown : Z := 8.
Definition WTSInit : Z := 9.

(** The Remote Desktop functions: a query is whether it succeeded, the buffer it
    allocated, zero for none, and the bytes it says are there. *)
Class Wts (G : Type) : Type := {
  SetProcessDpiAwarenessContext : G → G;
  GetCurrentProcessId : G → Z;
  ProcessIdToSessionId : G → Z → option Z;
  WTSGetActiveConsoleSessionId : G → Z;
  WTSQuerySessionInformationW : G → Z → G * (bool * Z * Z);
  read_i32_at : G → Z → Z;
  WTSFreeMemory : G → Z → G
}.

Definition connect_state_name (state : Z) : string :=
  if state =? WTSActive then "Active"
  else if state =? WTSConnected then "Connected"
  else if state =? WTSConnectQuery then "ConnectQuery"
  else if state =? WTSShadow then "Shadow"
  else if state =? WTSDisconnected then "Disconnected"
  else if state =? WTSIdle then "Idle"
  else if state =? WTSListen then "Listen"
  else if state =? WTSReset then "Reset"
  else if state =? WTSDown then "Down"
  else if state =? WTSInit then "Init"
  else "Unknown".

Definition connect_state_reason (state : Z) : string :=
  if state =? WTSDisconnected then
    "signed in but not connected (a disconnected RDP session, or a console session locked to the lock screen) — nothing is attached to receive what gets drawn there"
  else if state =? WTSListen then "a listener session waiting for a connection — no user is logged on"
  else if state =? WTSIdle then "waiting for a client to connect — no user is logged on yet"
  else if (state =? WTSInit) || (state =? WTSConnectQuery) || (state =? WTSReset) then "still transitioning towards a connected state"
  else if state =? WTSDown then "down due to an error"
  else if state =? WTSShadow then "shadowing another session rather than hosting an interactive one of its own"
  else if state =? WTSConnected then "connected but not (yet) reported active — treated as not-yet-safe rather than assumed to be"
  else "not in the Active state".

(** Which of its messages [log_session_context] writes, and with what. *)
Inductive session_report : Type :=
| SessionUnresolved
| HealthUnknown (session : Z)
| InputReachesConsole (session : Z)
| InputReachesSession (session console : Z)
| NoDesktop (session : Z) (name reason : string).

Section Context_.
Context `{Wts G}.
Implicit Types g : G.

(** The guard frees the buffer on both ways out once it is made. *)
Definition session_connect_state g (session_id : Z) : G * option Z :=
  let '(g, (ok, buffer, bytes_returned)) := WTSQuerySessionInformationW g session_id in
  if negb ok || (buffer =? 0) then (g, None)
  else if bytes_returned <? 4 then (WTSFreeMemory g buffer, None)
  else let state := read_i32_at g buffer in (WTSFreeMemory g buffer, Some state).

Definition log_session_context g : G * session_report :=
  match ProcessIdToSessionId g (GetCurrentProcessId g) with
  | None => (g, SessionUnresolved)
  | Some own_session =>
    match session_connect_state g own_session with
    | (g, None) => (g, HealthUnknown own_session)
    | (g, Some state) =>
      if state =? WTSActive then
        let active_session := WTSGetActiveConsoleSessionId g in
        (g, if own_session =? active_session then InputReachesConsole own_session else InputReachesSession own_session active_session)
      else (g, NoDesktop own_session (connect_state_name state) (connect_state_reason state))
    end
  end.
End Context_.

(** ** Starting *)

Definition RAW_BGRA_ONLY : list Z := [codec.RAW_BGRA].
Definition PRE_AUTH_CONCURRENCY : Z := 4.

(** How the process ends, with its standard output. *)
Record Exit : Type := mkExit { exit_code : Z; printed : list Z }.

(** The runtime and the listening socket. *)
Class Runtime (T : Type) : Type := {
  runtime_new : T → outcome (list Z) T;
  tcp_bind : T → SocketAddr → outcome (list Z) T
}.

(** What the loop is started with. *)
Record Listening : Type := mkListening {
  li_tls : list Z * list Z; li_token : list Z; li_codecs : list Z; li_h264_kind : option EncoderKind; li_params : SessionParams
}.

Section Start.
Context {R F P M T G : Type} `{Certificates R, Files F, CaptureApi P, MediaApi M, Runtime T, Wts G}.

Record World : Type := mkWorld { w_rng : R; w_files : F; w_capture : P; w_media : M; w_runtime : T; w_wts : G }.

(** An error is a line on standard error and an exit. *)
Definition exits {E A} (code : Z) (r : outcome E A) : outcome Exit A := map_err (λ _, mkExit code []) r.

Definition supported_codecs (h264_kind : option EncoderKind) : list Z :=
  match h264_kind with Some _ => [codec.RAW_BGRA; codec.H264] | None => RAW_BGRA_ONLY end.

(** Up to the support of capture: files and builders, after which only the pin
    is printed, if that was asked for. *)
Definition prepare (config : AgentConfig) (print_pin : bool) (files : F) (capture : P) (identity : outcome SecError AgentIdentity) :
    outcome Exit (list Z * (list Z * list Z)) :=
  identity ← exits 2 identity;
  pin ← exits 2 (spki_pin identity);
  if print_pin then Err (mkExit 0 (pin ++ [0x0A]))
  else
    token ← exits 2 (load_token files (token_path config));
    tls_config ← exits 2 (server_config identity);
    if negb (is_supported capture) then Err (mkExit 1 []) else Ok (token, tls_config).

(** From the runtime to the bound listener. *)
Definition listen (config : AgentConfig) (runtime : T) : outcome Exit T :=
  runtime ← exits 1 (runtime_new runtime);
  exits 1 (tcp_bind runtime (bind config)).

Definition run_agent (config : AgentConfig) (print_pin : bool) (w : World) : World * outcome Exit Listening :=
  let wts := (log_session_context (SetProcessDpiAwarenessContext (w_wts w))).1 in
  let '(rng, files, identity) := load_or_generate false (w_rng w) (w_files w) (cert_path config) (key_path config) (bytes_of_string "oxagent") in
  match prepare config print_pin files (w_capture w) identity with
  | Err e => (mkWorld rng files (w_capture w) (w_media w) (w_runtime w) wts, Err e)
  | Panic => (mkWorld rng files (w_capture w) (w_media w) (w_runtime w) wts, Panic)
  | Ok (token, tls_config) =>
    match probe_h264_support (w_media w) with
    | (media, Ok h264_kind) =>
      match listen config (w_runtime w) with
      | Ok runtime =>
        (mkWorld rng files (w_capture w) media runtime wts,
         Ok (mkListening tls_config token (supported_codecs h264_kind) h264_kind
               (mkParams (Config.target_fps config) (Config.max_frames_in_flight config))))
      | Err e => (mkWorld rng files (w_capture w) media (w_runtime w) wts, Err e)
      | Panic => (mkWorld rng files (w_capture w) media (w_runtime w) wts, Panic)
      end
    | (media, _) => (mkWorld rng files (w_capture w) media (w_runtime w) wts, Panic)
    end
  end.

(** [main], on Windows: its arguments are the program's name and the rest. *)
Definition arg_is (arg : list Z) (name : string) : bool := bool_decide (arg = bytes_of_string name).

Definition config_path (args : list (list Z)) : list Z :=
  default (bytes_of_string "oxagent.conf")
    ('(i, _) ← list_find (λ a, a = bytes_of_string "--config") args; args !! S i).

Definition agent_main (args : list (list Z)) (w : World) : World * outcome Exit Listening :=
  if existsb (λ a, arg_is a "--help" || arg_is a "-h") args then (w, Err (mkExit 0 []))
  else
    let print_pin := existsb (λ a, arg_is a "--print-pin") args in
    match load (w_files w) (config_path args) with
    | Err _ => (w, Err (mkExit 2 []))
    | Panic => (w, Panic)
    | Ok config => run_agent config print_pin w
    end.
End Start.
Arguments World R F P M T G : clear implicits.

(** ** Accepting connections

    A connection is a task: TLS first, then [run_session], which is a connection
    of the [Host] of [AgentSession]. The permit taken before the task is spawned
    is its for as long as it lives. *)

Inductive task : Type :=
| Accepting (id : Z)
| Serving (id : Z) (conn : nat)
| Ended (id : Z).

Definition task_id (t : task) : Z := match t with Accepting id | Serving id _ | Ended id => id end.
Definition alive (t : task) : bool := match t with Ended _ => false | _ => true end.

Section Accept.
Context {HO : Channel OutboundChunk} {HM : Channel Message.t}.
Context {W M I : Type} `{WindowSource W, MediaApi M, InputSink I}.

Abbreviation host := (Host (W:=W) (E:=WinFrameEncoder M) (I:=I)).
Abbreviation hevent := (host_event (W:=W) (E:=WinFrameEncoder M) (I:=I)).

Record Agent : Type := mkAgent { ag_session_id : Z; ag_permits : Z; ag_tasks : list task; ag_host : host }.

Definition agent_start : Agent := mkAgent 1 PRE_AUTH_CONCURRENCY [] host_start.

(** What wakes the loop or a task. The source and the sink of a session are new,
    over the guest as it is then; the encoder is made of the machine. *)
Inductive agent_event : Type :=
| AcceptFailed
| Accepted
| TlsAccepted (i : nat) (s : Stream)
| TlsFailed (i : nat)
| SessionOpens (i : nat) (fates busy_fates : list write_fate) (elapsed : bool) (source : W) (machine : M) (sink : I)
| SessionTurns (i : nat) (t : turn)
| SessionFinishes (i : nat).

Definition over (c : conn (W:=W) (E:=WinFrameEncoder M) (I:=I)) : bool := match c with Over _ _ _ => true | _ => false end.

Definition host_config (l : Listening) : HostConfig := mkHostConfig (li_params l) (li_token l) (li_codecs l).

(** A task whose [run_session] has returned ends, and with it its permit. *)
Definition settle (a : Agent) (i : nat) (id : Z) (conn : nat) (h : host) : Agent :=
  if match h_conns h !! conn with Some c => over c | None => false end
  then mkAgent (ag_session_id a) (ag_permits a + 1) (<[i := Ended id]> (ag_tasks a)) h
  else mkAgent (ag_session_id a) (ag_permits a) (ag_tasks a) h.

(** What [run_session] does on the task [i]. *)
Definition in_session (l : Listening) (a : Agent) (i : nat) (ev : Z → nat → hevent) : Agent :=
  match ag_tasks a !! i with
  | Some (Serving id conn) => settle a i id conn (host_step (host_config l) (ag_host a) (ev id conn))
  | _ => a
  end.

Definition agent_step (l : Listening) (a : Agent) (ev : agent_event) : outcome unit Agent :=
  match ev with
  | AcceptFailed => Ok a
  | Accepted =>
    if 0 <? ag_permits a then
      session_id ← add_uint 64 (ag_session_id a) 1;
      Ok (mkAgent session_id (ag_permits a - 1) (ag_tasks a ++ [Accepting (ag_session_id a)]) (ag_host a))
    else Ok a
  | TlsAccepted i s =>
    match ag_tasks a !! i with
    | Some (Accepting id) =>
      Ok (mkAgent (ag_session_id a) (ag_permits a) (<[i := Serving id (length (h_conns (ag_host a)))]> (ag_tasks a))
            (host_step (host_config l) (ag_host a) (Arrive s)))
    | _ => Ok a
    end
  | TlsFailed i =>
    match ag_tasks a !! i with
    | Some (Accepting id) => Ok (mkAgent (ag_session_id a) (ag_permits a + 1) (<[i := Ended id]> (ag_tasks a)) (ag_host a))
    | _ => Ok a
    end
  | SessionOpens i fates busy_fates elapsed source machine sink =>
    Ok (in_session l a i (λ id conn, Open conn fates busy_fates id elapsed source
          (WinFrameEncoder_new machine (default Software (li_h264_kind l)) (Serve.target_fps (li_params l))) sink))
  | SessionTurns i t => Ok (in_session l a i (λ _ conn, Turn conn t))
  | SessionFinishes i => Ok (in_session l a i (λ _ conn, Finish conn))
  end.

Fixpoint agent_run (l : Listening) (a : Agent) (evs : list agent_event) : outcome unit Agent :=
  match evs with
  | [] => Ok a
  | ev :: evs => a ← agent_step l a ev; agent_run l a evs
  end.
End Accept.

(** ** Facts *)

(** *** The Windows session *)

Class WtsLaws (G : Type) `{Wts G} : Type := {
  (** The buffers allocated and not yet freed. *)
  wts_buffers : G → gset Z;
  query_allocates g id :
    let '(g', (ok, buffer, _)) := WTSQuerySessionInformationW g id in
    if ok && negb (buffer =? 0) then buffer ∉ wts_buffers g ∧ wts_buffers g' = {[buffer]} ∪ wts_buffers g
    else wts_buffers g' = wts_buffers g;
  free_releases g buffer : wts_buffers (WTSFreeMemory g buffer) = wts_buffers g ∖ {[buffer]}
}.

(** No buffer is kept, and what the log says of input is what the query said. *)
Lemma session_state_released `{WtsLaws G} (g : G) session :
  wts_buffers (session_connect_state g session).1 = wts_buffers g.
Proof.
  unfold session_connect_state. pose proof (query_allocates g session) as Hq.
  destruct (WTSQuerySessionInformationW g session) as [g' [[ok buffer] bytes]].
  destruct ok, (buffer =? 0); cbn [negb andb orb fst] in *; [done| |done..]. destruct Hq as [Hn Hb].
  destruct (bytes <? 4); cbn [fst]; rewrite free_releases, Hb; set_solver.
Qed.

Lemma input_reported_iff_active `{Wts G} (g : G) session state :
  ProcessIdToSessionId g (GetCurrentProcessId g) = Some session → (session_connect_state g session).2 = Some state →
  (∃ name reason, (log_session_context g).2 = NoDesktop session name reason) ↔ state ≠ WTSActive.
Proof.
  intros Hp Hs. unfold log_session_context. rewrite Hp. destruct (session_connect_state g session) as [g' r]. cbn [snd] in Hs. subst r.
  destruct (Z.eqb_spec state WTSActive) as [->|Hne]; cbn [snd].
  - split; [|done]. intros (n & r & E). by destruct (_ =? _).
  - split; [done|]. intros _. by eexists _, _.
Qed.

(** *** Starting *)

Lemma h264_probe_ends {M} `{MediaApi M} (m : M) : ∃ m' kind, probe_h264_support m = (m', Ok kind).
Proof.
  assert (∀ kind, quiet (create_transform (M:=M) kind)) as Hc by (intros; unfold create_transform; quiet).
  assert (∀ A (f : ffi M A) p, quiet f → ∃ p' b, succeeds f p = (p', Ok b)) as Hs.
  { intros A f p Hf. unfold succeeds. specialize (Hf p). destruct (f p) as [p' [a|e|]]; [by eexists _, _|by eexists _, _|done]. }
  unfold probe_h264_support, mbind, ffi_bind, mret, ffi_ret.
  destruct (Hs _ (call MFStartup) m) as (m1 & b1 & ->); [quiet|]. destruct b1; cbn [negb]; [|by eexists _, _].
  destruct (Hs _ (create_transform Hardware) m1 (Hc Hardware)) as (m2 & b2 & ->). destruct b2; [by eexists _, _|].
  destruct (Hs _ (create_transform Software) m2 (Hc Software)) as (m3 & b3 & ->). by eexists _, _.
Qed.

Section Starting.
Context {R F P M T G : Type} `{CertificatesLaws R, FilesLaws F, CaptureApi P, MediaApi M, Runtime T, Wts G}.
Implicit Types w : World R F P M T G.

(** What an agent that listens has found out. *)
Lemma run_agent_listens config print_pin w w' l :
  run_agent config print_pin w = (w', Ok l) →
  print_pin = false ∧ w_capture w' = w_capture w ∧
  ∃ rng identity hex, load_or_generate false (w_rng w) (w_files w) (cert_path config) (key_path config) (bytes_of_string "oxagent") =
      (rng, w_files w', Ok identity) ∧
    spki_pin identity = Ok hex ∧ server_config identity = Ok (li_tls l) ∧ load_token (w_files w') (token_path config) = Ok (li_token l) ∧
    is_supported (w_capture w) = true ∧ (probe_h264_support (w_media w)).2 = Ok (li_h264_kind l) ∧
    li_codecs l = supported_codecs (li_h264_kind l).
Proof.
  unfold run_agent. destruct (load_or_generate _ _ _ _ _ _) as [[rng files] r] eqn:El.
  destruct (prepare _ _ _ _ _) as [[token tls]|e|] eqn:Ep; [|done..].
  destruct (h264_probe_ends (w_media w)) as (media & kind & Ek). rewrite Ek. destruct (listen _ _) as [t|e|]; [|done..].
  intros [= <- <-]. unfold prepare, exits in Ep. destruct r as [identity|e|]; cbn in Ep; [|done..].
  destruct (spki_pin identity) as [hex|e|] eqn:Es; cbn in Ep; [|done..]. destruct print_pin; [done|].
  destruct (load_token files _) as [tok|e|] eqn:Et; cbn in Ep; [|done..].
  destruct (server_config identity) as [c|e|] eqn:Ec; cbn in Ep; [|done..].
  destruct (is_supported (w_capture w)) eqn:Ew; [|done]. injection Ep as <- <-.
  split_and!; try done. exists rng, identity, hex. by split_and!.
Qed.

(** What one that was asked for its pin has done: its files and its random source
    apart, nothing but ask for its Windows session. *)
Lemma run_agent_prints config w w' e :
  run_agent config true w = (w', Err e) →
  w_capture w' = w_capture w ∧ w_media w' = w_media w ∧ w_runtime w' = w_runtime w ∧
  ∃ r, load_or_generate false (w_rng w) (w_files w) (cert_path config) (key_path config) (bytes_of_string "oxagent") =
      (w_rng w', w_files w', r) ∧
    ((∃ identity hex, r = Ok identity ∧ spki_pin identity = Ok hex ∧ e = mkExit 0 (hex ++ [0x0A])) ∨
     e = mkExit 2 [] ∧ ∀ identity hex, r = Ok identity → spki_pin identity ≠ Ok hex).
Proof.
  unfold run_agent. destruct (load_or_generate _ _ _ _ _ _) as [[rng files] r] eqn:El.
  destruct (prepare _ _ _ _ _) as [[token tls]|e'|] eqn:Ep; [|intros [= <- <-]|done].
  - exfalso. unfold prepare, exits in Ep. destruct r as [identity|e2|]; [|done..]. cbn in Ep.
    by destruct (spki_pin identity).
  - split_and!; try done. exists r. split; [done|]. unfold prepare, exits in Ep. destruct r as [identity|e2|]; cbn in Ep; [| |done].
    + destruct (spki_pin identity) as [hex|e2|] eqn:Es; cbn in Ep; [| |done].
      * left. exists identity, hex. by injection Ep as <-.
      * right. injection Ep as <-. split; [done|]. intros i h [= <-]. by rewrite Es.
    + right. by injection Ep as <-.
Qed.

Lemma server_config_cert identity tls : server_config identity = Ok tls → tls.1 = cert_der identity.
Proof.
  unfold server_config. destruct (private_key_try_from _) as [k|e|]; cbn; [|done..].
  destruct with_safe_default_protocol_versions; cbn; [|done..]. destruct (with_single_cert _ _); cbn; [|done..]. by intros [= <-].
Qed.
End Starting.

(** C17: the pin an agent prints is the one its clients need. When [--print-pin] has
    ended well it has printed one line, and a later start over the same files
    that gets as far as listening does so with a certificate that a client given
    exactly this line accepts, and with the token of its file; the files are as
    [--print-pin] left them. Neither start of the two has touched more than it
    needs: printing opens no socket and loads no encoder. *)
Theorem printed_pin_admits {R F P M T G : Type} `{CertificatesLaws R, FilesLaws F, CaptureApi P, MediaApi M, Runtime T, Wts G}
    (config : AgentConfig) (w w1 w2 w3 : World R F P M T G) (out : list Z) (l : Listening) :
  cert_path config ≠ key_path config →
  run_agent config true w = (w1, Err (mkExit 0 out)) →
  w_files w2 = w_files w1 → run_agent config false w2 = (w3, Ok l) →
  (w_capture w1 = w_capture w ∧ w_media w1 = w_media w ∧ w_runtime w1 = w_runtime w) ∧
  w_files w3 = w_files w1 ∧
  load_token (w_files w1) (token_path config) = Ok (li_token l) ∧
  ∃ line pin, out = line ++ [0x0A] ∧ client_config_pinned line = Ok pin ∧ verify_server_cert pin (li_tls l).1 = Ok ().
Proof.
  intros Hne Hprint Hf Hlisten. apply run_agent_prints in Hprint as (Hc & Hm & Hr & r & El & [(identity & line & -> & Hpin & E)|[E _]]); [|done].
  injection E as ->. apply run_agent_listens in Hlisten as (_ & _ & rng & identity' & hex & El' & _ & Hsc & Ht & _).
  rewrite Hf, (load_or_generate_again R F false _ _ _ _ _ _ _ _ (w_rng w2) (bytes_of_string "oxagent") Hne El) in El'.
  injection El' as <- Hw <-. rewrite <- Hw in Ht. split; [done|]. split; [done|]. split; [done|].
  destruct (proj2 (pinned_key R line identity) Hpin) as (pin & Hcfg & Hver). exists line, pin. split; [done|]. split; [done|].
  by rewrite (server_config_cert _ _ Hsc).
Qed.

(** *** Accepting connections *)

Section Accepting.
Context {HO : Channel OutboundChunk} {HM : Channel Message.t}.
Context {W M I : Type} `{WindowSource W, MediaApi M, InputSink I}.
Abbreviation agent := (Agent (W:=W) (M:=M) (I:=I)).
Abbreviation event := (agent_event (W:=W) (M:=M) (I:=I)).
Implicit Types a : agent.

Definition live (ts : list task) : Z := len (List.filter alive ts).

(** One more or one less task that lives. *)
Lemma live_insert ts i t t' : ts !! i = Some t → live (<[i := t']> ts) = live ts - Z.b2z (alive t) + Z.b2z (alive t').
Proof.
  unfold live, len. revert i. induction ts as [|x ts IH]; intros [|i]; try done.
  - intros [= ->]. cbn. destruct (alive t), (alive t'); cbn; lia.
  - intros Hi. specialize (IH i Hi). change (<[S i:=t']> (x :: ts)) with (x :: <[i:=t']> ts). cbn [List.filter].
    destruct (alive x); cbn [length]; lia.
Qed.

Lemma live_app ts t : live (ts ++ [t]) = live ts + Z.b2z (alive t).
Proof. unfold live, len. rewrite List.filter_app, length_app. cbn. destruct (alive t); cbn; lia. Qed.

Lemma live_nonneg ts : 0 ≤ live ts.
Proof. apply len_nonneg. Qed.

(** What an event of one connection leaves of the others. *)
Definition only_conn (n : nat) (ev : host_event (W:=W) (E:=WinFrameEncoder M) (I:=I)) : Prop :=
  match ev with Arrive _ => False | Open i _ _ _ _ _ _ _ | Turn i _ | Finish i => i = n end.

Lemma put_other (cs : list (conn (W:=W) (E:=WinFrameEncoder M) (I:=I))) slot n k k' :
  cs !! n = Some k →
  (∀ c, c ≠ n → h_conns (mkHost slot (<[n := k']> cs)) !! c = cs !! c) ∧ is_Some (h_conns (mkHost slot (<[n := k']> cs)) !! n).
Proof.
  intros Hk. cbn. split; [intros c Hc; by apply list_lookup_insert_ne|].
  apply lookup_lt_Some in Hk. rewrite list_lookup_insert_eq by done. by eexists.
Qed.

Lemma host_step_other cfg h n ev k :
  only_conn n ev → h_conns h !! n = Some k →
  (∀ c, c ≠ n → h_conns (host_step cfg h ev) !! c = h_conns h !! c) ∧ is_Some (h_conns (host_step cfg h ev) !! n).
Proof.
  intros Hev Hk. assert (is_Some (h_conns h !! n)) as Hin by by exists k.
  destruct ev as [s|i fates busy sid elapsed source encoder sink|i t|i]; [done|cbn [only_conn] in Hev; subst i..]; cbn [host_step]; rewrite Hk.
  - destruct k as [s| |]; try done. destruct (open_session _ _ _ _ _ _ _ _) as [slot [m ra s'|s' r]]; by eapply put_other.
  - destruct k as [|s m y|]; try done. by eapply put_other.
  - destruct k as [|s m y|]; try done. destruct (y_ended y); [|done]. by eapply put_other.
Qed.

(** The invariant of the loop. *)
Record agent_ok (l : Listening) a : Prop := {
  ao_permits : ag_permits a = PRE_AUTH_CONCURRENCY - live (ag_tasks a) ∧ 0 ≤ ag_permits a;
  ao_ids : map task_id (ag_tasks a) = seqZ 1 (len (ag_tasks a)) ∧ ag_session_id a = 1 + len (ag_tasks a);
  ao_host : host_ok (host_config l) (ag_host a);
  ao_serving : ∀ i id c, ag_tasks a !! i = Some (Serving id c) → ∃ k, h_conns (ag_host a) !! c = Some k ∧ over k = false;
  ao_alone : ∀ i j id id' c, ag_tasks a !! i = Some (Serving id c) → ag_tasks a !! j = Some (Serving id' c) → i = j;
  ao_owned : ∀ c k, h_conns (ag_host a) !! c = Some k → over k = false → ∃ i id, ag_tasks a !! i = Some (Serving id c)
}.

Lemma agent_start_ok l : agent_ok l agent_start.
Proof. split; try done; by repeat split. Qed.

Lemma map_insert_id ts i t t' :
  ts !! i = Some t → task_id t' = task_id t → map task_id (<[i := t']> ts) = map task_id ts.
Proof.
  intros Hi He. rewrite list_fmap_insert, He. apply list_insert_id. change (map task_id ts) with (task_id <$> ts). by rewrite list_lookup_fmap, Hi.
Qed.

(** An event of a connection, on the task it belongs to. *)
Lemma in_session_ok l a i ev :
  (∀ id c, only_conn c (ev id c)) → agent_ok l a → agent_ok l (in_session l a i ev).
Proof.
  intros Hev Ha. unfold in_session. destruct (ag_tasks a !! i) as [[id|id c|id]|] eqn:Ei; try done.
  destruct Ha as [[Hp Hp0] [Hids Hnext] Hh Hs Hal Hown].
  destruct (Hs _ _ _ Ei) as (k & Hk & Hov).
  destruct (host_step_other (host_config l) (ag_host a) c (ev id c) k (Hev id c) Hk) as (Hne & [k' Hk']).
  pose proof (host_step_ok (host_config l) (ag_host a) (ev id c) Hh) as Hh'. set (h := host_step _ _ _) in *.
  assert (∀ j id' c', j ≠ i → ag_tasks a !! j = Some (Serving id' c') → c' ≠ c) as Hother.
  { intros j id' c' Hj Hc' ->. apply Hj. by eapply Hal. }
  pose proof (lookup_lt_Some _ _ _ Ei) as Hi. unfold settle. rewrite Hk'. destruct (over k') eqn:Eov.
  - split; cbn [ag_permits ag_tasks ag_session_id ag_host].
    + rewrite (live_insert _ _ _ _ Ei). cbn. lia.
    + rewrite (map_insert_id _ _ _ _ Ei) by done. unfold len in *. by rewrite length_insert.
    + done.
    + intros j id' c' [(_ & [=] & _)|[Hj Hc']]%list_lookup_insert_Some. rewrite Hne by eauto. by eapply Hs.
    + intros j j' id' id'' c' [(_ & [=] & _)|[_ Hc1]]%list_lookup_insert_Some [(_ & [=] & _)|[_ Hc2]]%list_lookup_insert_Some. by eapply Hal.
    + intros c' k2 Hc' Ho. destruct (decide (c' = c)) as [->|Hn]; [rewrite Hk' in Hc'; injection Hc' as <-; by rewrite Eov in Ho|].
      rewrite Hne in Hc' by done. destruct (Hown _ _ Hc' Ho) as (j & id' & Hj). exists j, id'.
      rewrite list_lookup_insert_ne; [done|]. intros <-. rewrite Ei in Hj. by injection Hj as _ ->.
  - split; cbn [ag_permits ag_tasks ag_session_id ag_host]; try done.
    + intros j id' c' Hc'. destruct (decide (c' = c)) as [->|Hn]; [by exists k'|]. rewrite Hne by done. by eapply Hs.
    + intros c' k2 Hc' Ho. destruct (decide (c' = c)) as [->|Hn]; [by exists i, id|]. rewrite Hne in Hc' by done. by eapply Hown.
Qed.

(** A permit, a number and a task for a connection. *)
Lemma accepted_ok l a :
  agent_ok l a → 0 < ag_permits a →
  agent_ok l (mkAgent (ag_session_id a + 1) (ag_permits a - 1) (ag_tasks a ++ [Accepting (ag_session_id a)]) (ag_host a)).
Proof.
  intros [[Hp Hp0] [Hids Hnext] Hh Hs Hal Hown] Hpos.
  assert (∀ j id c, (ag_tasks a ++ [Accepting (ag_session_id a)]) !! j = Some (Serving id c) → ag_tasks a !! j = Some (Serving id c)) as Hold.
  { intros j id c [Hj|[_ Hj]]%lookup_app_Some; [done|]. by destruct (_ - _)%nat as [|[]]. }
  split; cbn [ag_permits ag_tasks ag_session_id ag_host]; try done.
  - rewrite live_app. cbn. lia.
  - unfold len in *. rewrite map_app, Hids, length_app, Hnext. cbn [map task_id length]. split; [|lia].
    replace (Z.of_nat (length (ag_tasks a) + 1)) with (Z.of_nat (length (ag_tasks a)) + 1) by lia. by rewrite seqZ_app by lia.
  - intros j id c Hj%Hold. by eapply Hs.
  - intros j j' id id' c Hj%Hold Hj'%Hold. by eapply Hal.
  - intros c k Hc Ho. destruct (Hown _ _ Hc Ho) as (j & id & Hj). exists j, id. by apply lookup_app_l_Some.
Qed.

(** The session of a task is a new connection of the host. *)
Lemma tls_accepted_ok l a i id s :
  agent_ok l a → ag_tasks a !! i = Some (Accepting id) →
  agent_ok l (mkAgent (ag_session_id a) (ag_permits a) (<[i := Serving id (length (h_conns (ag_host a)))]> (ag_tasks a))
                (host_step (host_config l) (ag_host a) (Arrive s))).
Proof.
  intros [[Hp Hp0] [Hids Hnext] Hh Hs Hal Hown] Ei. set (n := length (h_conns (ag_host a))).
  assert (∀ j id' c, ag_tasks a !! j = Some (Serving id' c) → c ≠ n) as Hfresh.
  { intros j id' c Hj ->. destruct (Hs _ _ _ Hj) as (k & Hk & _). apply lookup_lt_Some in Hk. lia. }
  pose proof (lookup_lt_Some _ _ _ Ei) as Hi.
  split; cbn [ag_permits ag_tasks ag_session_id ag_host].
  - rewrite (live_insert _ _ _ _ Ei). cbn. lia.
  - rewrite (map_insert_id _ _ _ _ Ei) by done. unfold len in *. by rewrite length_insert.
  - by apply host_step_ok.
  - intros j id' c [(<- & [= <- <-] & _)|[Hj Hc]]%list_lookup_insert_Some; cbn [host_step h_conns].
    + exists (Waiting s). by rewrite list_lookup_middle.
    + destruct (Hs _ _ _ Hc) as (k & Hk & Hov). exists k. split; [by apply lookup_app_l_Some|done].
  - intros j j' id' id'' c [(<- & [= <- <-] & _)|[Hj Hc]]%list_lookup_insert_Some [(<- & [= ->] & _)|[Hj' Hc']]%list_lookup_insert_Some; try done.
    + exfalso. by eapply Hfresh.
    + exfalso. by eapply (Hfresh j).
    + by eapply Hal.
  - cbn [host_step h_conns]. intros c k [Hc|[Hge Hc]]%lookup_app_Some Ho.
    + destruct (Hown _ _ Hc Ho) as (j & id' & Hj). exists j, id'. rewrite list_lookup_insert_ne; [done|]. intros <-. by rewrite Ei in Hj.
    + exists i, id. rewrite list_lookup_insert_eq by done. do 2 f_equal. apply lookup_lt_Some in Hc. cbn in Hc. unfold n. lia.
Qed.

Lemma tls_failed_ok l a i id :
  agent_ok l a → ag_tasks a !! i = Some (Accepting id) →
  agent_ok l (mkAgent (ag_session_id a) (ag_permits a + 1) (<[i := Ended id]> (ag_tasks a)) (ag_host a)).
Proof.
  intros [[Hp Hp0] [Hids Hnext] Hh Hs Hal Hown] Ei. split; cbn [ag_permits ag_tasks ag_session_id ag_host]; try done.
  - rewrite (live_insert _ _ _ _ Ei). cbn. lia.
  - rewrite (map_insert_id _ _ _ _ Ei) by done. unfold len in *. by rewrite length_insert.
  - intros j id' c [(_ & [=] & _)|[Hj Hc]]%list_lookup_insert_Some. by eapply Hs.
  - intros j j' id' id'' c [(_ & [=] & _)|[_ Hc1]]%list_lookup_insert_Some [(_ & [=] & _)|[_ Hc2]]%list_lookup_insert_Some. by eapply Hal.
  - intros c k Hc Ho. destruct (Hown _ _ Hc Ho) as (j & id' & Hj). exists j, id'. rewrite list_lookup_insert_ne; [done|]. intros <-. by rewrite Ei in Hj.
Qed.

Lemma agent_step_ok l a ev :
  agent_ok l a → len (ag_tasks a) + 2 < 2 ^ 64 →
  ∃ a', agent_step l a ev = Ok a' ∧ agent_ok l a' ∧ len (ag_tasks a') ≤ len (ag_tasks a) + 1.
Proof.
  intros Ha Hb.
  assert (∀ i ev', len (ag_tasks (in_session l a i ev')) = len (ag_tasks a)) as Hlen.
  { intros i ev'. unfold in_session, settle. repeat case_match; try done. unfold len. cbn. by rewrite length_insert. }
  assert (∀ i t, len (<[i := t]> (ag_tasks a)) = len (ag_tasks a)) as Hput by (intros; unfold len; by rewrite length_insert).
  assert (∀ ev', (∀ id c, only_conn c (ev' id c)) → ∀ i,
    ∃ a', Ok (in_session l a i ev') = Ok (E:=unit) a' ∧ agent_ok l a' ∧ len (ag_tasks a') ≤ len (ag_tasks a) + 1) as Hses.
  { intros ev' Hev i. eexists. split; [done|]. split; [by apply in_session_ok|]. rewrite Hlen. lia. }
  destruct ev as [| |i s|i|i fates busy elapsed source machine sink|i t|i]; cbn [agent_step]; try by apply Hses.
  - exists a. split_and!; [done..|lia].
  - destruct (Z.ltb_spec 0 (ag_permits a)); [|exists a; split_and!; [done..|lia]].
    unfold add_uint. destruct (ao_ids _ _ Ha) as [_ Hnext].
    replace (ag_session_id a + 1 <? 2 ^ 64) with true by (symmetry; apply Z.ltb_lt; lia).
    eexists. split; [done|]. split; [by apply accepted_ok|]. unfold len. cbn. rewrite length_app. cbn. lia.
  - destruct (ag_tasks a !! i) as [[id|id c|id]|] eqn:Ei; try (exists a; split_and!; [done..|lia]).
    eexists. split; [done|]. split; [by apply tls_accepted_ok|]. cbn. rewrite Hput. lia.
  - destruct (ag_tasks a !! i) as [[id|id c|id]|] eqn:Ei; try (exists a; split_and!; [done..|lia]).
    eexists. split; [done|]. split; [by apply tls_failed_ok|]. cbn. rewrite Hput. lia.
Qed.

Lemma agent_run_ok l evs : ∀ a,
  agent_ok l a → len (ag_tasks a) + len evs + 2 < 2 ^ 64 → ∃ a', agent_run l a evs = Ok a' ∧ agent_ok l a'.
Proof.
  induction evs as [|ev evs IH]; intros a Ha Hb; [by exists a|]. rewrite len_cons in Hb. pose proof (len_nonneg evs).
  destruct (agent_step_ok l a ev Ha) as (a1 & E & Ha1 & Hl); [lia|]. cbn [agent_run]. rewrite E. cbn [mbind outcome_bind].
  apply IH; [done|lia].
Qed.
End Accepting.


(** ** Small programs *)

Module SmallAgent.
#[local] Existing Instance Security.memory_files.
#[local] Existing Instance Security.memory_files_laws.
#[local] Existing Instance Security.toy_certificates.
#[local] Existing Instance Security.toy_certificates_laws.

(** A Windows session of its number, active when that is even. *)
#[global] Instance small_wts : Wts Z := {
  SetProcessDpiAwarenessContext g := g; GetCurrentProcessId _ := 77; ProcessIdToSessionId g _ := Some g;
  WTSGetActiveConsoleSessionId _ := 2; WTSQuerySessionInformationW g s := (g, (true, 16 + s, 4));
  read_i32_at _ buffer := if Z.even buffer then WTSActive else WTSDisconnected; WTSFreeMemory g _ := g
}.

(** A runtime that binds any address. *)
#[global] Instance small_runtime : Runtime unit := { runtime_new := Ok; tcp_bind t _ := Ok t }.

Definition files : list (list Z * list Z) := [(bytes_of_string "oxagent.token", bytes_of_string "secret" ++ [0x0A])].
Definition config : AgentConfig := set_token (bytes_of_string "oxagent.token") AgentConfig_default.
Definition world : World Z (list (list Z * list Z)) SmallMachine.state SmallMft.state unit Z :=
  mkWorld 8 files (SmallMachine.mkState [] ∅) SmallMft.present tt 2.
Definition printing := run_agent config true world.
Definition listening := run_agent config false printing.1.
Definition the_listening : Listening := match listening.2 with Ok l => l | _ => mkListening ([], []) [] [] None SessionParams_default end.

(** An active session, a disconnected one, and what they are called. *)
Example session_reports :
  (log_session_context 2).2 = InputReachesConsole 2 ∧ (log_session_context 4).2 = InputReachesSession 4 2 ∧
  (log_session_context 3).2 = NoDesktop 3 "Disconnected" (connect_state_reason WTSDisconnected).
Proof. vm_compute. by split_and!. Qed.
End SmallAgent.

#[local] Existing Instance Security.memory_files.
#[local] Existing Instance Security.memory_files_laws.
#[local] Existing Instance Security.toy_certificates.
#[local] Existing Instance Security.toy_certificates_laws.

Lemma printed_pin_admits_witness :
  let line := hex_encode (sha256 [0x30; 8]) in let l := SmallAgent.the_listening in
  SmallAgent.printing.2 = Err (mkExit 0 (line ++ [0x0A])) ∧ li_token l = bytes_of_string "secret" ∧ li_codecs l = [codec.RAW_BGRA; codec.H264] ∧
  ∃ pin, client_config_pinned line = Ok pin ∧ verify_server_cert pin (li_tls l).1 = Ok ().
Proof.
  intros line l.
  assert (Hp : SmallAgent.printing.2 = Err (mkExit 0 (line ++ [0x0A]))) by (vm_compute; reflexivity).
  split; [exact Hp|]. split; [vm_compute; reflexivity|]. split; [vm_compute; reflexivity|].
  destruct (printed_pin_admits SmallAgent.config SmallAgent.world SmallAgent.printing.1 SmallAgent.printing.1 SmallAgent.listening.1
    (line ++ [0x0A]) l) as (_ & _ & _ & line' & pin & H1 & H2 & H3).
  - discriminate.
  - rewrite <- Hp. unfold SmallAgent.printing. apply surjective_pairing.
  - reflexivity.
  - assert (Hl : SmallAgent.listening.2 = Ok l) by (vm_compute; reflexivity).
    rewrite <- Hl. unfold SmallAgent.listening. apply surjective_pairing.
  - apply app_inj_2 in H1 as [-> _]; [|reflexivity]. exists pin. split; [exact H2|exact H3].
Defined.

Module SmallLoop.
Import ServeSession.Demo.
#[local] Existing Instance ServeSession.Demo.demo_source.

(** A session, three peers that say nothing, one more, and one when the session
    is over. *)
Definition opens (i : nat) : agent_event (W:=nat) (M:=SmallMft.state) (I:=list SinkCall) := SessionOpens i [] [] false 0%nat SmallMft.present [].
Definition first : list (agent_event (W:=nat) (M:=SmallMft.state) (I:=list SinkCall)) :=
  [Accepted; TlsAccepted 0 (Handshake.mkStream (TwoClients.hello "secret") []); opens 0; Accepted; Accepted; Accepted; Accepted].
Definition then_ : list (agent_event (W:=nat) (M:=SmallMft.state) (I:=list SinkCall)) :=
  [SessionTurns 0 ReaderTurn; SessionTurns 0 (LoopTurn 0 None); SessionFinishes 0; AcceptFailed; Accepted; TlsFailed 1].
Definition listening : Listening := mkListening ([], []) (bytes_of_string "secret") (supported_codecs (Some Software)) (Some Software) SessionParams_default.
End SmallLoop.

#[local] Existing Instance ServeSession.Demo.demo_source.

(** The session's own permit is not given back when it is authenticated: beside
    it only three connections may be in their handshake, and the fourth is
    dropped. *)
Lemma session_keeps_permit :
  match agent_run SmallLoop.listening agent_start SmallLoop.first with
  | Ok a => ag_tasks a = [Serving 1 0; Accepting 2; Accepting 3; Accepting 4] ∧ drivers (h_conns (ag_host a)) = 1 ∧ ag_permits a = 0
  | _ => False
  end.
Proof. vm_compute. by split_and!. Qed.

