(* ===== verification/RdpCli.v ===== *)
(** * The RDP probe and its TLS

    [crates/oxrdp-cli/src/main.rs], the program that runs the connection sequence
    of [RdpIo] against a host, and [crates/oxrdp-crypto/src/tls.rs], the verifier
    it does so with, which accepts any certificate. What is printed is left out;
    the network and TLS are parameters, as they are in [RdpIo]. *)

From S2P Require Import Prelude Cursor Wire Ber RdpFrame RdpMcs RdpConnect RdpGcc RdpConference RdpConnector RdpIo Inject InjectText.

(** ** Trust on first use ([tls.rs]) *)

Section Tofu.
(** Signature schemes, of which a provider has some. *)
Context {Scheme Provider : Type} (supported_schemes : Provider → list Scheme).

Record TofuVerifier : Type := mkTofu { tv_supported_schemes : list Scheme }.

Definition TofuVerifier_new (provider : Provider) : TofuVerifier := mkTofu (supported_schemes provider).

Definition tofu_verify_server_cert (v : TofuVerifier) (end_entity : list Z) (intermediates : list (list Z)) (server_name : list Z) :
    outcome unit unit := Ok tt.
Definition verify_tls12_signature (v : TofuVerifier) (message cert signature : list Z) : outcome unit unit := Ok tt.
Definition verify_tls13_signature (v : TofuVerifier) (message cert signature : list Z) : outcome unit unit := Ok tt.
Definition supported_verify_schemes (v : TofuVerifier) : list Scheme := tv_supported_schemes v.

(** The configuration is its verifier; the builder's one error is expected away. *)
Definition tls_client_config (default_provider : Provider) (default_versions : outcome unit unit) : outcome unit TofuVerifier :=
  match default_versions with Ok _ => Ok (TofuVerifier_new default_provider) | _ => Panic end.
End Tofu.

(** ** The probe ([main.rs]) *)

Definition SSL : Z := 1.

(** [buf[i * 2] = bytes[0]; buf[i * 2 + 1] = bytes[1]], for each of the units. *)
Fixpoint put_units (i : nat) (units : list Z) (buf : list Z) : list Z :=
  match units with
  | [] => buf
  | unit :: units =>
    put_units (S i) units (<[(i * 2 + 1)%nat := as_uint 8 (unit / 256)]> (<[(i * 2)%nat := as_uint 8 unit]> buf))
  end.

Definition client_name (name : list Z) : list Z := put_units 0 (take 15 (encode_utf16 name)) (replicate 32 0).

Definition default_config (username : list Z) : ConnectorConfig := {|
  cookie := match username with [] => None | _ => Some username end;
  requested_protocols := SSL;
  cfg_core := mkClientCoreData 0x00080004 1024 768 0xCA01 0xAA03 0x00000409 2600 (client_name (bytes_of_string "oxrdp")) 4 0 12 (replicate 64 0);
  cfg_security := mkClientSecurityData 0 0;
  cfg_network := mkClientNetworkData [mkChannelDef (bytes_of_string "rdpdr" ++ [0; 0; 0]) 0x80800000]
|}.

Definition COLON : Z := 0x3A.

Definition address_of (host : list Z) : list Z :=
  if existsb (λ c, c =? COLON) host then host else host ++ bytes_of_string ":3389".

(** [host.split(':').next()] *)
Fixpoint before_colon (host : list Z) : list Z :=
  match host with [] => [] | c :: host => if c =? COLON then [] else c :: before_colon host end.

Inductive ending : Type := Usage | ConnectedTo (s : Session) | Failed.
Definition exit_code (e : ending) : Z := match e with Usage => 2 | ConnectedTo _ => 0 | Failed => 1 end.

Section Main.
(** What the peer at an address will send, with the frames it takes, if there is
    one; the names TLS takes; the tunnel for a name over the rest of a stream. *)
Context (tcp_connect : list Z → option (list Z * nat)) (server_name_ok : list Z → bool) (tls_connect : list Z → list Z → option (list Z)).

(** [main]: the arguments after the program's name. *)
Definition rdp_main (args : list (list Z)) : outcome unit ending :=
  match args with
  | [] => Ok Usage
  | host :: rest =>
    let username := default [] (head rest) in
    let server_name := before_colon host in
    match tcp_connect (address_of host) with
    | None => Ok Failed
    | Some (input, room) =>
      match (connect (server_name_ok server_name) (tls_connect server_name) (default_config username) input room).1 with
      | Ok session => Ok (ConnectedTo session)
      | Err _ => Ok Failed
      | Panic => Panic
      end
    end
  end.
End Main.

(** ** Facts *)

(** A name's buffer is its first fifteen units, low byte first, and zeros. *)
Lemma put_units_at units : ∀ i front pad,
  length front = (i * 2)%nat → (length units * 2 ≤ length pad)%nat →
  put_units i units (front ++ pad) = front ++ concat (map (le_bytes 2) units) ++ drop (length units * 2) pad.
Proof.
  induction units as [|u units IH]; intros i front pad Hf Hp; [done|].
  destruct pad as [|x [|y pad]]; cbn [length] in Hp; [lia..|]. cbn [put_units].
  rewrite !insert_app_r_alt by (rewrite ?length_insert; lia). replace (i * 2 - length front)%nat with 0%nat by lia.
  replace (i * 2 + 1 - length front)%nat with 1%nat by lia. cbn [list_insert].
  change (<[1%nat:=?v]> (<[0%nat:=?u]> (x :: y :: pad))) with (u :: v :: pad).
  rewrite (app_assoc front [_; _] pad) || (change (front ++ ?a :: ?b :: pad) with (front ++ [a; b] ++ pad); rewrite app_assoc).
  rewrite IH; [|rewrite length_app; cbn; lia|lia]. rewrite <- app_assoc. reflexivity.
Qed.

Lemma client_name_layout name :
  let units := take 15 (encode_utf16 name) in
  client_name name = concat (map (le_bytes 2) units) ++ replicate (32 - length units * 2) 0.
Proof.
  intros units. unfold client_name. fold units. change (replicate 32 0) with ([] ++ replicate 32 0).
  rewrite (put_units_at units 0 [] (replicate 32 0)); [|done|].
  - cbn [app]. by rewrite drop_replicate.
  - rewrite length_replicate. unfold units. rewrite length_take. lia.
Qed.

(** A client name is thirty-two octets, its last unit zero. *)
Lemma client_name_octets name : bytes_of 32 (client_name name) ∧ drop 30 (client_name name) = [0; 0].
Proof.
  rewrite client_name_layout. cbn zeta. set (units := take 15 (encode_utf16 name)).
  assert (length units ≤ 15)%nat as Hl by (unfold units; rewrite length_take; lia).
  assert (length (concat (map (le_bytes 2) units)) = (length units * 2)%nat) as Hc.
  { clearbody units. clear Hl. induction units as [|u units IH]; [done|]. cbn [map concat length]. rewrite length_app, IH. change (length (le_bytes 2 u)) with 2%nat. lia. }
  split; [split|].
  - unfold len. rewrite length_app, Hc, length_replicate. lia.
  - apply Forall_app. split; [|apply Forall_replicate; by unfold is_uint]. clear Hc Hl. clearbody units.
    induction units as [|u units IH]; [constructor|]. cbn [map concat]. apply Forall_app. split; [|exact IH].
    repeat constructor; unfold is_uint; pose proof (Z.mod_pos_bound u 256); pose proof (Z.mod_pos_bound (u / 256) 256); lia.
  - rewrite drop_app_ge by (rewrite Hc; lia). rewrite Hc, drop_replicate. replace (32 - length units * 2 - (30 - length units * 2))%nat with 2%nat by lia. done.
Qed.

(** What the probe asks for can be asked for by any user of at most 222 octets. *)
Lemma default_config_ok username : len username ≤ 222 → config_ok (default_config username).
Proof.
  intros Hu. split; [|split; [split; [|split]|]].
  - unfold request_of, cr_variable_size. destruct username as [|b l]; [vm_compute; congruence|].
    cbn [default_config cookie requested_protocols cr_cookie cr_negotiation from_option].
    change (len COOKIE_PREFIX) with 17. change (NegotiationRequest_size _) with 8. lia.
  - destruct (client_name_octets (bytes_of_string "oxrdp")) as [Hn _].
    unfold initial_of, ClientCoreData_wf. cbn [ci_core cfg_core default_config core_version desktop_width desktop_height color_depth sas_sequence
      keyboard_layout client_build RdpGcc.client_name keyboard_type keyboard_subtype keyboard_function_key ime_file_name].
    split_and!; try (unfold is_uint; lia); [exact Hn|]. split; [reflexivity|]. apply Forall_replicate. by unfold is_uint.
  - by split.
  - split; [|vm_compute; congruence]. repeat constructor; cbn; unfold is_uint; lia.
  - vm_compute. congruence.
Qed.

Lemma before_colon_none host : existsb (λ c, c =? COLON) host = false → before_colon host = host.
Proof. induction host as [|c host IH]; [done|]. cbn. destruct (c =? COLON); [done|]. intros E. by rewrite IH. Qed.

Lemma before_colon_app host rest : existsb (λ c, c =? COLON) host = false → before_colon (host ++ COLON :: rest) = host.
Proof. induction host as [|c host IH]; [done|]. cbn. destruct (c =? COLON); [done|]. intros E. by rewrite IH. Qed.

(** Where the probe goes: a plain name gets the port of RDP, a name with a port
    is dialled as it is, and TLS is given the name alone. *)
Lemma host_and_port host port :
  existsb (λ c, c =? COLON) host = false →
  address_of host = host ++ bytes_of_string ":3389" ∧ before_colon host = host ∧
  address_of (host ++ COLON :: port) = host ++ COLON :: port ∧ before_colon (host ++ COLON :: port) = host.
Proof.
  intros Hn. unfold address_of. rewrite Hn, before_colon_none, before_colon_app, existsb_app by done. cbn. by rewrite orb_true_r.
Qed.

(** An address of the sixth version gets neither. *)
Lemma ipv6_host_undialled : address_of (bytes_of_string "::1") = bytes_of_string "::1" ∧ before_colon (bytes_of_string "::1") = [].
Proof. by split. Qed.

(** The probe gets through. Given a host without a port and a user of at most
    222 octets, against a server at port 3389 that selects a TLS protocol and
    answers in the tunnel that TLS makes for the host's name, the program ends
    with success and the channels the server assigned; whatever a peer sends, it
    ends with one of its three exit codes. *)
Theorem probe_ends tcp_connect server_name_ok tls_connect (host username : list Z) :
  (∀ address input room, tcp_connect address = Some (input, room) → Forall u8 input) →
  (∀ name x t, tls_connect name x = Some t → Forall u8 t) →
  (∃ e, rdp_main tcp_connect server_name_ok tls_connect [host; username] = Ok e ∧ 0 ≤ exit_code e ≤ 2) ∧
  (∀ s rest room, existsb (λ c, c =? COLON) host = false → len username ≤ 222 →
     tcp_connect (host ++ bytes_of_string ":3389") = Some (confirm_frame s ++ rest, room) → server_name_ok host = true →
     tls_connect host rest = Some (tunnel_input s) →
     server_ok s → srv_protocol s ≠ PROTOCOL_RDP → (4 + length (srv_channels s) ≤ room)%nat →
     rdp_main tcp_connect server_name_ok tls_connect [host; username] =
       Ok (ConnectedTo (mkSession (srv_protocol s) (srv_user s) (mcs_channel_id (srv_net s))))).
Proof.
  intros Htcp Htls. split.
  - cbn [rdp_main head default]. destruct (tcp_connect (address_of host)) as [[input room]|] eqn:Et; [|exists Failed; cbn; split; [done|lia]].
    pose proof (connect_spec (server_name_ok (before_colon host)) (tls_connect (before_colon host)) (default_config username) input room
                  (Htcp _ _ _ Et) (Htls _)) as Hc.
    destruct (connect _ _ _ _ _) as [[s|e|] w]; cbn [fst]; [exists (ConnectedTo s)|exists Failed|by destruct Hc]; cbn; (split; [done|lia]).
  - intros s rest room Hn Hu Ht Hok Htl Hs Hp Hroom. cbn [rdp_main head default]. unfold address_of. rewrite Hn, Ht, before_colon_none, Hok by done. unfold id.
    destruct (connect_ok (tls_connect host) (default_config username) s rest room (default_config_ok _ Hu) Hs Hp Htl Hroom) as [w ->]. done.
Qed.

Lemma octets_checked bs : forallb (λ b, (0 <=? b) && (b <? 256)) bs = true → Forall u8 bs.
Proof.
  intros Hb. rewrite List.forallb_forall in Hb. apply Forall_forall. intros b Hin. apply list_elem_of_In, Hb in Hin. unfold is_uint. lia.
Qed.

(** A toy network: one server at one address. *)
Lemma probe_ends_witness :
  rdp_main (λ a, if bool_decide (a = bytes_of_string "guest:3389") then Some (confirm_frame sample_server ++ [1; 2], 7%nat) else None)
    (λ _, true) (λ _ _, Some (tunnel_input sample_server)) [bytes_of_string "guest"; bytes_of_string "user"] = Ok (ConnectedTo (mkSession 1 1007 1003)).
Proof.
  refine (proj2 (probe_ends _ _ _ (bytes_of_string "guest") (bytes_of_string "user") _ _) sample_server [1; 2] 7%nat _ _ _ _ _ _ _ _).
  - intros address input room. destruct (bool_decide _); [|done]. intros [= <- <-].
    apply octets_checked. vm_compute. reflexivity.
  - intros name x t [= <-].
    apply octets_checked. vm_compute. reflexivity.
  - reflexivity.
  - vm_compute. congruence.
  - rewrite bool_decide_eq_true_2 by reflexivity. reflexivity.
  - reflexivity.
  - reflexivity.
  - exact sample_server_ok.
  - discriminate.
  - cbn. lia.
Defined.

(** The verifier lets any certificate by, and any signature: what TLS protects is
    safe from those who listen and from nobody else. *)
Lemma any_certificate_accepted {Scheme Provider} (schemes : Provider → list Scheme) (provider : Provider) v message cert chain name signature :
  tls_client_config schemes provider (Ok tt) = Ok v →
  tofu_verify_server_cert v cert chain name = Ok tt ∧ verify_tls12_signature v message cert signature = Ok tt ∧
  verify_tls13_signature v message cert signature = Ok tt ∧ supported_verify_schemes v = schemes provider.
Proof. by intros [= <-]. Qed.
